(* ===== verification/_CoqProject ===== *)
-Q . S2P
Prelude.v
Texts.v
Values.v
Codec.v
WorkingState.v
WorkingStateSpec.v
WorkingStateFacts.v
WorkingStateProps.v
Budgets.v
BudgetsFacts.v
Checkpoint.v
CheckpointFacts.v
CheckpointRollback.v
CheckpointSession.v
CheckpointStorage.v
CheckpointProps.v
FailurePolicy.v
Cancellation.v
ResourceControl.v
ApprovalHistory.v
ApprovalHistoryProps.v
Planning.v
PlanningProgress.v
PlanCreation.v
TrainingJobs.v
TrainingJobsProps.v
ResultStore.v
Progress.v
TrainingData.v
TrainingStore.v
TrainingStoreProps.v
TrainingRedaction.v
TrainingGovernance.v
Trajectories.v
TrajectoriesProps.v
SessionStore.v
SessionStoreProps.v
SessionLogProps.v
SessionResume.v
SessionResumeProps.v
ToolRegistry.v
Delegation.v
ContextEngine.v
ContextEngineFacts.v
ContextEngineProps.v
Shell.v
CommandPolicy.v
CommandPolicyProps.v
ToolRouter.v
ToolRouterFacts.v
ToolRouterProps.v
ToolRouterSessions.v
Regex.v
RequirementSet.v
RequirementSetProps.v
WorkPhase.v
WorkPhaseFacts.v
WorkPhaseProps.v
WorkPhaseGate.v
WorkPhaseLifecycle.v
WorkPhaseExamples.v
RequestIntent.v
AgentNotes.v
RequestIntentProps.v
FileTree.v
TargetPolicy.v
RequestScope.v
RequestScopeProps.v
RequestPolicies.v
ToolGuardrails.v
AgentDispatch.v
AgentLoop.v
Verification.v
Completion.v
FuzzyMatch.v
FuzzyMatchProps.v
FileTools.v
FileToolsProps.v
TerminalTools.v
SearchTool.v
