(* ===== verification/Prelude.v ===== *)
(** * The control plane of SPEAR, verified

    SPEAR is a coding assistant: a model proposes, and a harness written in
    Python ([client/]) decides what is done, records it and bounds it.  This
    development models the parts of the harness whose promises do not depend
    on what the model says, and proves that the code keeps them.

    ** The parts and how they interact

    A task has a working state: an event-reduced record of what the user
    asked and of what the runtime observed.  Its plan is recorded and
    advanced through events ([Planning]).  Model calls, tokens, tools and
    time are charged to hierarchical budgets, which planning charges before
    it calls the model ([PlanCreation]).  Before a file of the workspace is
    written it is captured in a checkpoint, so that a task can be undone.
    Commands run under resource limits, can be cancelled together, and their
    failures are classified and retried within bounds.  Results too long for
    the model's context go to a content-addressed store; actions without gain
    and repeated refusals are counted to stop a turn that gets nowhere.

    Every call of a tool goes through a router: a row of gates decides whether
    its handler is begun, a ledger counts failures and repeated observations,
    and what came back is normalized, stored and traced.  The gates ask the
    other parts: the registry for the tool, the scope of the request and the
    policy on protected files for where it may write, and the ledger of the
    turn's work for whether a change was earned.  That ledger ([WorkPhase])
    collects evidence, judges the plan the model hands in against the
    requirements a document imposes ([RequirementSet]), and follows each of
    them from a plan through a write to a proof.  What a turn was asked is
    read from the words of the operator alone ([RequestIntent],
    [AgentNotes], [RequestScope]).
    The turn itself is a loop ([AgentLoop]): a round asks the model, answers
    every call it makes through a dispatcher ([AgentDispatch]) that consults a
    guard against repetition ([ToolGuardrails]), and ends with an answer.
    What was edited is then held against the checks that were run
    ([Verification]), and the answer is settled with its verdict
    ([Completion]).  The dispatcher calls its tools through an interface;
    behind it stand the edits of a text ([FuzzyMatch]), the tools that read
    and write files ([FileTools]), the terminal that keeps a session between
    commands ([TerminalTools]), and the search ([SearchTool]).
    Commands themselves are classified, and authorized by the mode of the
    session, before they run ([CommandPolicy]); tools are declared in a
    registry that refuses a writing tool without modes, and a specialized
    child agent is admitted, budgeted and recorded by a manager of
    delegations.  What the model reads in a turn is composed from items under
    a window of tokens.  A session is a log of events from which a crashed
    task is resumed.  Beside a task, decisions of human reviewers and training
    jobs are kept in append-only files, and recorded turns become training
    episodes that are redacted, governed and stored.

    ** Files

    - [Prelude]: string enumerations, ordered dictionaries, JSON values,
      strings, exceptions and the state-and-exception monad, record update,
      and the lemmas, hints and tactics the components share.  [Texts]:
      hexadecimal, UTF-8, lines, and JSON written with sorted keys.
    - [WorkingState] ([client/runtime/working_state.py]): the events, the
      state, one handler per event type ([reduce_plan_step_added],
      [update_plan_step], [record_action], ... as the branches of [_reduce]
      and its helpers), [apply], the derived properties, and the text form.
      [WorkingStateSpec] is its abstract specification, a transition relation
      [event_step]; [WorkingStateFacts] the invariant [wf];
      [WorkingStateProps] the theorems.
    - [Budgets] ([client/runtime/budgets.py]): managers live in a store and
      refer to each other by address, since parent and child are reached from
      several places.  [BudgetsFacts].
    - [Checkpoint] ([client/harness/checkpoint.py]): paths, symbolic links and
      a disk; capture, mutation, finalisation and rollback.
      [CheckpointFacts] (paths and writes), [CheckpointRollback] (what a
      rollback restores), [CheckpointSession] (a task editing the disk
      between captures), [CheckpointStorage] (what was stored stays),
      [CheckpointProps].
    - [FailurePolicy] ([client/runtime/failure_policy.py]), [Cancellation]
      ([client/runtime/cancellation.py]: concurrent calls as a step relation
      of interleaved threads), [ResourceControl]
      ([client/harness/resource_control.py]).
    - [ApprovalHistory] and [ApprovalHistoryProps]
      ([client/standard/standard_approval_history.py]): the log of decisions,
      its chain rules, appends and migration.
    - [Planning], [PlanningProgress], [PlanCreation]
      ([client/runtime/planning.py]): plans over the working state, and the
      call that asks the model for one.
    - [TrainingJobs], [TrainingJobsProps] ([client/training/training_jobs.py]):
      snapshots, the journal, recovery.
    - [ResultStore] ([client/runtime/result_store.py]).
    - [Progress] ([client/runtime/progress_monitor.py],
      [client/harness/refusal_breaker.py]).

    - [Values], [Codec]: JSON values as Python coerces them, character
      classes, UTF-8; lines and the two faces of a JSON codec.
    - [TrainingData], [TrainingStore], [TrainingStoreProps],
      [TrainingRedaction], [TrainingGovernance], [Trajectories],
      [TrajectoriesProps]
      ([client/training/training_data.py], [training_store.py],
      [training_governance.py], [training_promotion.py], [training_splits.py],
      [trajectory_episodes.py]): episodes, their store and index, the masking
      of secrets, splits and promotion, and recorded turns as episodes.
    - [SessionStore], [SessionStoreProps], [SessionLogProps],
      [SessionResume], [SessionResumeProps] ([client/runtime/session_store.py]):
      the log of a session under crashes, the handle, and resumption.
    - [ToolRegistry] ([client/harness/tool_registry.py]
      and the registry built in [client/cli/tool_routing.py]).
    - [Delegation] ([client/runtime/agent_roles.py] and the
      manager of [client/runtime/orchestration.py]) over [Budgets].
    - [ContextEngine], [ContextEngineFacts], [ContextEngineProps]
      ([client/context/context_engine.py]): eviction, truncation, and the
      projection of a [WorkingState].
    - [Shell], [CommandPolicy], [CommandPolicyProps]
      ([client/harness/command_policy.py], [client/harness/tool_primitives.py]):
      the text of a command, modes and capabilities, classification and
      authorization.
    - [ToolRouter], [ToolRouterFacts], [ToolRouterProps],
      [ToolRouterSessions] ([client/harness/tool_router.py]): the gates, a
      call from its admission to its envelope, and sequences of calls.
    - [Regex]: patterns parsed from the text the source gives [re.compile],
      and matching by backtracking.
    - [RequirementSet], [RequirementSetProps]
      ([client/normative/requirement_set.py]): the contract a turn hands the
      next, citations, dispositions, publishing.
    - [WorkPhase], [WorkPhaseFacts], [WorkPhaseProps], [WorkPhaseGate],
      [WorkPhaseLifecycle], [WorkPhaseExamples]
      ([client/runtime/work_phase.py]): evidence, plans, work items, the write
      gate, validation.
    - [RequestIntent], [RequestIntentProps]
      ([client/context/request_intent.py]); [AgentNotes]
      ([client/runtime/agent_notes.py]): what a message asks for, results
      that come back, the claims of an answer.
    - [FileTree], an interface to the tree of files; [TargetPolicy]
      ([client/harness/target_policy.py]); [RequestScope], [RequestScopeProps]
      ([client/context/request_scope.py]); [RequestPolicies], the two behind
      the interface [RequestPolicy] of the router.
    - [ToolGuardrails] ([client/agent/hermes/tool_guardrails.py]): the
      counters of failing and of fruitless calls.  [AgentDispatch]
      ([client/agent/dispatch.py], [host.py]): one call, told to the interface
      [Host] and answered by the interface [Tools].  [AgentLoop]
      ([client/agent/loop.py]): a batch of calls, a round, a turn.
    - [Verification] ([client/evidence/verification.py]): what the records of
      checks show of the present sources.  [Completion]
      ([client/evidence/completion.py]): checks by epoch of the sources, the
      verdict of a turn, and the answer with its claims marked.
    - [FuzzyMatch], [FuzzyMatchProps] ([client/agent/hermes/fuzzy_match.py]):
      the strategies that find a text and the edit they make.  [FileTools],
      [FileToolsProps] ([client/agent/tools.py] and the helpers of
      [client/agent/hermes/]): reading, patching and writing over the
      interface [Files] of a file system.  [TerminalTools]: the script of a
      command, what it prints, the session it leaves.  [SearchTool]: searches
      and the block that describes the workspace.

    ** What the theorems show

    - The task truth: every accepted event implements one transition of the
      specification and is logged ([apply_refines]); every reachable state is
      well formed ([reachable_wf]); a stored log restores the state
      ([restore_roundtrip]); refused events change nothing but one field the
      theorem names; final statuses stay; what the model says alone changes
      no observed fact; completed steps reopen only by revision.
    - Budgets: a consumption debits every level or none, counters stay within
      limits in every reachable store, a check predicts the consumption that
      follows, a refund undoes it, an allowance is covered by its parent.
    - Checkpoints: targets are confined to the writable roots; a rollback
      restores what was captured, touches nothing else, writes nothing on a
      conflict, reports exactly what it did, and succeeds when nothing
      outside the task interfered.
    - Plans: recorded whole or not at all, charged before the model is asked,
      started in dependency order, advanced only on observed evidence.
    - Stores: what is put is read back, intact and by its owner only; a crash
      at any point of a save leaves the old or the new job; a decision log
      keeps its order and its chains.
    - Commands: what is authorized is exactly what the mode grants; every stage
      of a script that runs is accounted for, and what is read outside the
      workspace was vetted.  A second line, however, is no stage
      ([second_line_is_not_a_stage]).
    - Tools: a handler is begun exactly for the calls that every gate admits
      and that repeat nothing ([only_admissible_calls_run]); a call that fails
      runs at most twice between two writes, an observation is taken at most
      twice while it is in view; what is asked beforehand is what happens;
      a long result is stored whole and shown cut; different calls have
      different identities.
    - Work: the write gate opens exactly when nothing is owed
      ([write_gate_is_exact]); every item of a plan stands on what was
      retrieved and read; requirements are never lost and move only along
      their lifecycle; a plan that was found wrong blocks writes; a supported
      plan is accepted after finitely many refusals; behind the router no
      tool that writes is begun before its plan ([no_edit_before_its_plan]).
    - Requests: a message is read sentence by sentence, once per turn; a
      command that is begun writes no sibling of what was asked for and no
      protected file, as far as its words say, and stays in the project
      ([commands_run_within_the_request]); what its words do not say is shown
      by examples ([target_directory_is_not_seen]).
    - Context: composing ends, fits or has nothing left to give, partitions
      the items into whole groups, cheapest first, and never drops the task.
    - Delegation and tools: a child stays within the budgets of its parent and
      is recorded once; a registered tool that writes never runs in safe mode.
    - Sessions: whatever was appended before a crash reads back in order, and a
      resumption continues the task and answers every call.
    - Training: episodes are typed and named once, an interrupted save is
      finished, redaction accounts for every change, no turn is graded by what
      came after it, and only verified work is promoted.
    - The loop: a turn ends within its rounds ([a_turn_ends]) and every
      request of it is a well-formed conversation, in which each call is
      answered, also when the turn was cancelled
      ([every_request_is_a_conversation]); the host is told exactly what the
      model reads; failures are counted as a history of the calls would count
      them; a verdict is what the records of checks say of the last sources,
      and a verified answer stands on checks of those.
    - Edits and files: an edit is refused or changes what the first strategy
      that matches found, and nothing around it ([an_edit_is_local]); an exact
      one is [str.replace]; a patch makes one write; reading page by page shows
      every line once; an answer from memory repeats one given of the same
      file; what reading shows is not written back; a command leaves the
      directory and the variables the next one begins with.
    - Control: cancellations are seen complete under every interleaving,
      retries are bounded, resource contracts fail closed, stalls and
      repeated refusals are reported exactly.

    ** Choices

    - A Python [str] is a [string] of code points below 256, Python's
      integers are [Z] (they do not overflow), a [dict] an association list in
      insertion order, a set a [gset], a float its literal.  A mutable object
      is the state of the monad, a raise keeps what was assigned before it.
    - Clocks, random identifiers, SHA-256, the JSON text codec, the model and
      the answers of the operating system are parameters; a theorem that
      needs something of them says so as a hypothesis and has a witness with
      concrete functions.  File systems do not fail by themselves.
    - The texts of error messages are shortened where they quote values.
    - Fuel: a walk up the parents of a budget takes the address plus one,
      which suffices since parents are older; resolving a path takes the
      number of steps after which a walk is taken for a loop of links, and
      the theorems hold for every such number; masking paths in a text takes
      its length.
    - Sets of capabilities and names are [gset]; the texts of the context are
      lists of code points, those of a command code points below 256.
    - Searches through a text that the source does with a pattern or an index
      take its length as fuel; the loops of the context engine take the number
      of items, and it is proved that this is enough.
    - Traces only observe; they are kept where a component emits them.
    - The gates of the router that belong to other components only look: what
      such a question notes for itself (the coupling of candidates) is not
      followed by the router.  Durations are left out.
    - A pattern is parsed from its own text, and the examples check that each
      is read in full; a dash or sign beyond code point 255 in a text shown
      to the model is written in ASCII.
    - The tools of the coding core get the file system, the JSON text, the
      linters, ripgrep, git and [difflib]'s matching blocks as parameters.
      Texts that hold a byte order mark or lone surrogates are no texts of the
      model.  A turn takes the rounds it is allowed plus one as fuel; walking
      over the occurrences of a text its length plus one, and grouping the
      digits of a number its logarithm plus one.  The check marks and dashes
      of the messages are written in ASCII.
    - The tree of files is an interface of questions; its concrete instance is
      a small tree without links, for the witnesses.

    ** Not modelled, and planned

    Planned: the reports of an Explorer and their ingestion, the recorder of
    training turns, the text form of budgets and of decisions, the system
    prompt of the coding core, the workspace, compaction, and the normative
    predicates.  Model backends, retrieval, the command line's
    screens, web access and evaluation are input and output around services
    and are left aside. *)

From stdpp Require Export base tactics list gmap strings pretty.

#[export] Set Default Proof Using "Type".

Declare Scope py_scope.
Delimit Scope py_scope with py.
Create HintDb py.

(** ** String enumerations ([enum.StrEnum])

    A Python [StrEnum] is an inductive type together with the list of its
    members and the string each member carries.  [enum_of] is the class call
    [E(value)], which raises [ValueError] ([None] here) on an unknown value. *)

Class StrEnum (A : Type) := {
  enum_members : list A;
  enum_value : A → string;
  enum_complete : ∀ a, a ∈ enum_members;
  enum_distinct : NoDup (enum_value <$> enum_members);
}.

Definition enum_of {A} `{StrEnum A} (s : string) : option A :=
  List.find (λ a, String.eqb (enum_value a) s) enum_members.

(** Both laws of an enumeration with no arguments hold by computation. *)
Ltac enum_all := by intros []; repeat first [apply list_elem_of_here | apply list_elem_of_further].
Ltac enum_nodup := by apply (bool_decide_unpack _); vm_compute.

(** ** Ordered dictionaries ([dict])

    A Python [dict] keeps insertion order, and assigning to a key that is
    present keeps its position: an association list with those operations. *)

Definition dict (K V : Type) : Type := list (K * V).

Section dict_ops.
  Context {K V : Type} `{EqDecision K}.

Fixpoint dict_get (d : dict K V) (k : K) : option V :=
    match d with
    | [] => None
    | (k', v) :: d' => if decide (k = k') then Some v else dict_get d' k
    end.

Fixpoint dict_set (k : K) (v : V) (d : dict K V) : dict K V :=
    match d with
    | [] => [(k, v)]
    | (k', v') :: d' =>
        if decide (k = k') then (k', v) :: d' else (k', v') :: dict_set k v d'
    end.

Definition dict_keys (d : dict K V) : list K := map fst d.
Definition dict_values (d : dict K V) : list V := map snd d.
Definition dict_mem (k : K) (d : dict K V) : bool := bool_decide (k ∈ dict_keys d).
Definition dict_get_default (d : dict K V) (k : K) (v : V) : V := default v (dict_get d k).
End dict_ops.
Arguments dict_keys {K V} d : simpl never.
Arguments dict_values {K V} d : simpl never.

(** ** JSON values

    What [json.loads] returns: an object is an ordered dictionary.  A number
    that is not an integer is kept by its literal. *)

Inductive json :=
  | JNull
  | JBool (b : bool)
  | JInt (z : Z)
  | JFloat (lit : string)
  | JStr (s : string)
  | JList (l : list json)
  | JObj (m : list (string * json)).

(** ** Strings

    A [str] is a [string] of code points below 256; [py_isspace] is
    [str.isspace] on that range. *)

Definition py_isspace (c : Ascii.ascii) : bool :=
  let n := Ascii.N_of_ascii c in
  ((9 <=? n) && (n <=? 13) || (28 <=? n) && (n <=? 32) || (n =? 133) || (n =? 160))%N.

Fixpoint py_lstrip (s : string) : string :=
  match s with
  | EmptyString => EmptyString
  | String c s' => if py_isspace c then py_lstrip s' else s
  end.

Fixpoint py_rstrip (s : string) : string :=
  match s with
  | EmptyString => EmptyString
  | String c s' =>
      match py_rstrip s' with
      | EmptyString => if py_isspace c then EmptyString else String c EmptyString
      | t => String c t
      end
  end.

Definition py_strip (s : string) : string := py_rstrip (py_lstrip s).

(** Truth value of a string, and [value or other] on strings. *)
Definition str_true (s : string) : bool := negb (String.eqb s "").
Definition str_or (s t : string) : string := if str_true s then s else t.

(** [str.lower] on code points below 256. *)
Definition lower_char (c : Ascii.ascii) : Ascii.ascii :=
  let n := Ascii.N_of_ascii c in
  if ((65 <=? n) && (n <=? 90) || (192 <=? n) && (n <=? 222) && negb (n =? 215))%N
  then Ascii.ascii_of_N (n + 32) else c.

Fixpoint py_lower (s : string) : string :=
  match s with EmptyString => EmptyString | String c s' => String (lower_char c) (py_lower s') end.

(** [needle in s] *)
Fixpoint contains (needle s : string) : bool :=
  String.prefix needle s || match s with EmptyString => false | String _ s' => contains needle s' end.

(** [s.split(sep)] for a one-character separator. *)
Fixpoint split_on (sep : Ascii.ascii) (s : string) : list string :=
  match s with
  | EmptyString => [EmptyString]
  | String c s' =>
      if Ascii.eqb c sep then EmptyString :: split_on sep s'
      else match split_on sep s' with
           | h :: t => String c h :: t
           | [] => [String c EmptyString]
           end
  end.

(** What iterating over a decoded value gives; [None] where it is a
    [TypeError]. *)
Fixpoint chars (s : string) : list json :=
  match s with EmptyString => [] | String c s' => JStr (String c EmptyString) :: chars s' end.

Definition py_iter (j : json) : option (list json) :=
  match j with
  | JList l => Some l
  | JStr s => Some (chars s)
  | JObj m => Some (JStr <$> m.*1)
  | _ => None
  end.

(** Truth value of a decoded value; [float_eq] compares a literal with an
    integer. *)
Definition py_true (float_eq : string → Z → bool) (j : json) : bool :=
  match j with
  | JNull => false
  | JBool b => b
  | JInt n => negb (n =? 0)%Z
  | JFloat lit => negb (float_eq lit 0%Z)
  | JStr s => str_true s
  | JList l => match l with [] => false | _ => true end
  | JObj m => match m with [] => false | _ => true end
  end.

(** ** Exceptions and state

    A fallible pure computation is a [res]; a method that mutates its object
    and may raise is a function of type [M S E A].  As in Python, a raise
    keeps whatever was assigned before it. *)

Inductive res (E A : Type) :=
  | Ok (a : A)
  | Raise (e : E).
Arguments Ok {E A} a.
Arguments Raise {E A} e.

Definition is_ok {E A} (r : res E A) : bool := match r with Ok _ => true | Raise _ => false end.

Definition rbind {E A B} (r : res E A) (k : A → res E B) : res E B :=
  match r with Ok a => k a | Raise e => Raise e end.

Definition rmap_err {E F A} (f : E → F) (r : res E A) : res F A :=
  match r with Ok a => Ok a | Raise e => Raise (f e) end.

Definition rguard {E} (b : bool) (e : E) : res E unit := if b then Ok tt else Raise e.

Definition of_option {E A} (e : E) (o : option A) : res E A :=
  match o with Some a => Ok a | None => Raise e end.

Fixpoint rmapM {E A B} (f : A → res E B) (l : list A) : res E (list B) :=
  match l with
  | [] => Ok []
  | a :: l' => rbind (f a) (λ b, rbind (rmapM f l') (λ bs, Ok (b :: bs)))
  end.

(** [for x in l: f x], stopping at the first refusal. *)
Fixpoint rfor {E A} (l : list A) (f : A → res E unit) : res E unit :=
  match l with
  | [] => Ok tt
  | a :: l' => rbind (f a) (λ _, rfor l' f)
  end.

Notation "'let?' x ':=' r 'in' k" := (rbind r (λ x, k))
  (at level 10, x binder, r at level 100, k at level 200) : py_scope.
Notation "'do?' r 'in' k" := (rbind r (λ _, k))
  (at level 10, r at level 100, k at level 200) : py_scope.

Definition M (S E A : Type) : Type := S → S * res E A.

Section state_monad.
  Context {S E : Type}.

Definition ret {A} (a : A) : M S E A := λ s, (s, Ok a).
Definition raise {A} (e : E) : M S E A := λ s, (s, Raise e).
Definition bind {A B} (m : M S E A) (k : A → M S E B) : M S E B :=
    λ s, match m s with
         | (s1, Ok a) => k a s1
         | (s1, Raise e) => (s1, Raise e)
         end.
Definition get : M S E S := λ s, (s, Ok s).
Definition put (s : S) : M S E unit := λ _, (s, Ok tt).
Definition modify (f : S → S) : M S E unit := λ s, (f s, Ok tt).
Definition lift {A} (r : res E A) : M S E A := λ s, (s, r).
Definition guard (b : bool) (e : E) : M S E unit := lift (rguard b e).

(** [for x in l: body x] *)
Fixpoint for_each {A} (l : list A) (body : A → M S E unit) : M S E unit :=
    match l with
    | [] => ret tt
    | a :: l' => bind (body a) (λ _, for_each l' body)
    end.
End state_monad.

Notation "'let*' x ':=' m 'in' k" := (bind m (λ x, k))
  (at level 10, x binder, m at level 100, k at level 200) : py_scope.
Notation "'do*' m 'in' k" := (bind m (λ _, k))
  (at level 10, m at level 100, k at level 200) : py_scope.

(** ** Record update

    [r <| f := v |>] is the record [r] with field [f] set to [v].  A record
    supports it once its eta-expansion is declared with an [Eta] instance. *)

Class Eta (R : Type) := eta : R → R.

Class SetField {R T : Type} (f : R → T) := set_field : (T → T) → R → R.
Arguments set_field {R T} f {_} g r.

Ltac derive_set_field f :=
  lazymatch type of f with
  | ?R → ?T =>
      let g := fresh "g" in
      let r := fresh "r" in
      unfold SetField; intros g r;
      let inst := constr:(_ : Eta R) in
      let body := eval hnf in inst in
      let body := eval cbv beta in (body r) in
      lazymatch eval pattern f in body with
      | ?ctx _ => let t := eval cbv beta in (ctx (λ x : R, g (f x))) in exact t
      end
  end.

#[export] Hint Extern 0 (SetField ?f) => derive_set_field f : typeclass_instances.

Notation "r <| f := v |>" := (set_field f (λ _, v) r)
  (at level 1, left associativity, f at level 9, v at level 200) : py_scope.
Notation "r <| f ::= g |>" := (set_field f g r)
  (at level 1, left associativity, f at level 9, g at level 200) : py_scope.

(** ** Generic lemmas *)

Lemma enum_of_value {A} `{StrEnum A} (a : A) : enum_of (enum_value a) = Some a.
Proof.
  unfold enum_of. pose proof (enum_complete a) as Hin. pose proof enum_distinct as Hnd.
  revert Hin Hnd. induction (enum_members (A:=A)) as [|b l IH]; [by intros ?%elem_of_nil|].
  cbn. intros Hin [Hb Hnd]%NoDup_cons. destruct (String.eqb_spec (enum_value b) (enum_value a)) as [Heq|Hne].
  - apply elem_of_cons in Hin as [->|Hin]; [done|].
    exfalso. apply Hb. rewrite Heq. by apply list_elem_of_fmap_2.
  - apply IH; [|done]. apply elem_of_cons in Hin as [->|Hin]; done.
Qed.

Lemma enum_value_inj {A} `{StrEnum A} (a b : A) : enum_value a = enum_value b → a = b.
Proof. intros Hv. apply (inj Some). by rewrite <- !enum_of_value, Hv. Qed.

Lemma enum_of_Some {A} `{StrEnum A} s (a : A) : enum_of s = Some a ↔ s = enum_value a.
Proof.
  split; [|intros ->; apply enum_of_value].
  unfold enum_of. intros [_ Hf]%List.find_some. by apply String.eqb_eq in Hf.
Qed.

Section dict_facts.
  Context {K V : Type} `{EqDecision K}.
  Implicit Types (d : dict K V) (k : K) (v : V).

Lemma dict_get_set_eq d k v : dict_get (dict_set k v d) k = Some v.
Proof.
  induction d as [|[k' v'] d IH]; cbn; [by rewrite decide_True|].
  by case_decide; cbn; [rewrite decide_True|rewrite decide_False].
Qed.

Lemma dict_get_set_ne d k k' v : k ≠ k' → dict_get (dict_set k v d) k' = dict_get d k'.
Proof.
  intros Hne. induction d as [|[k1 v1] d IH]; cbn; [by rewrite decide_False|].
  case_decide; subst; cbn; [by rewrite !decide_False|by rewrite IH].
Qed.

Lemma dict_get_set d k k' v :
    dict_get (dict_set k v d) k' = if decide (k = k') then Some v else dict_get d k'.
Proof. case_decide; subst; [apply dict_get_set_eq|by apply dict_get_set_ne]. Qed.

Lemma dict_keys_cons d k v : dict_keys ((k, v) :: d) = k :: dict_keys d.
Proof. done. Qed.

Lemma dict_get_None d k : dict_get d k = None ↔ k ∉ dict_keys d.
Proof.
  induction d as [|[k' v'] d IH]; cbn; [by split; [intros _ ?%elem_of_nil|]|].
  rewrite dict_keys_cons, not_elem_of_cons. case_decide; subst; naive_solver.
Qed.

Lemma dict_get_is_Some d k : is_Some (dict_get d k) ↔ k ∈ dict_keys d.
Proof.
  rewrite <- not_eq_None_Some, dict_get_None. split; [|tauto].
  intros Hn. destruct (decide (k ∈ dict_keys d)); tauto.
Qed.

Lemma dict_get_elem d k v : dict_get d k = Some v → (k, v) ∈ d.
Proof.
  induction d as [|[k' v'] d IH]; cbn; [done|].
  rewrite elem_of_cons. case_decide; subst; naive_solver.
Qed.

Lemma dict_elem_get d k v : NoDup (dict_keys d) → (k, v) ∈ d → dict_get d k = Some v.
Proof.
  induction d as [|[k' v'] d IH]; cbn; [by intros _ ?%elem_of_nil|].
  rewrite dict_keys_cons, NoDup_cons, elem_of_cons. intros [Hk Hnd] [[= -> ->]|Hin]; [by rewrite decide_True|].
  rewrite decide_False; [auto|]. intros ->. apply Hk.
  apply list_elem_of_In, in_map_iff. exists (k', v). split; [done|by apply list_elem_of_In].
Qed.

Lemma dict_keys_set_old d k v : k ∈ dict_keys d → dict_keys (dict_set k v d) = dict_keys d.
Proof.
  induction d as [|[k' v'] d IH]; cbn; [by intros ?%elem_of_nil|].
  rewrite dict_keys_cons, elem_of_cons. intros Hin. case_decide; subst; cbn; [done|].
  rewrite dict_keys_cons. f_equal. apply IH. naive_solver.
Qed.

Lemma dict_set_new d k v : k ∉ dict_keys d → dict_set k v d = d ++ [(k, v)].
Proof.
  induction d as [|[k' v'] d IH]; cbn; [done|].
  rewrite dict_keys_cons, not_elem_of_cons. intros [??]. rewrite decide_False by done. f_equal. auto.
Qed.

Lemma dict_keys_set_new d k v : k ∉ dict_keys d → dict_keys (dict_set k v d) = dict_keys d ++ [k].
Proof. intros Hk. rewrite dict_set_new by done. unfold dict_keys. by rewrite map_app. Qed.

Lemma dict_keys_set d k k' v : k' ∈ dict_keys (dict_set k v d) ↔ k' = k ∨ k' ∈ dict_keys d.
Proof.
  destruct (decide (k ∈ dict_keys d)).
  - rewrite dict_keys_set_old by done. naive_solver.
  - rewrite dict_keys_set_new, elem_of_app, list_elem_of_singleton by done. naive_solver.
Qed.

Lemma NoDup_dict_set d k v : NoDup (dict_keys d) → NoDup (dict_keys (dict_set k v d)).
Proof.
  intros Hnd. destruct (decide (k ∈ dict_keys d)).
  - by rewrite dict_keys_set_old.
  - rewrite dict_keys_set_new by done. apply NoDup_app. split; [done|].
    split; [|apply NoDup_singleton]. by intros x Hx ->%list_elem_of_singleton.
Qed.

(** Overwriting a present key changes the value at its own position only. *)
Lemma dict_set_lookup d k v i k' v' :
  k ∈ dict_keys d → dict_set k v d !! i = Some (k', v') →
  d !! i = Some (k', v') ∨
  (k' = k ∧ v' = v ∧ ∃ v0, d !! i = Some (k, v0) ∧ dict_get d k = Some v0).
Proof.
  revert i. induction d as [|[k1 v1] d IH]; intros i; cbn; [by intros ?%elem_of_nil|].
  rewrite dict_keys_cons, elem_of_cons. case_decide; subst.
  - intros _. destruct i; cbn; [|by left]. intros [= <- <-]. right. naive_solver.
  - intros [->|Hk]; [done|]. destruct i; cbn; [by left|]. by apply IH.
Qed.

Lemma dict_lookup_get d k v i :
  NoDup (dict_keys d) → d !! i = Some (k, v) → dict_get d k = Some v.
Proof. intros ? ?%list_elem_of_lookup_2. by apply dict_elem_get. Qed.

Lemma dict_mem_true d k : dict_mem k d = true ↔ k ∈ dict_keys d.
Proof. unfold dict_mem. by rewrite bool_decide_eq_true. Qed.

Lemma dict_mem_false d k : dict_mem k d = false ↔ k ∉ dict_keys d.
Proof. unfold dict_mem. by rewrite bool_decide_eq_false. Qed.
End dict_facts.

#[export] Hint Resolve NoDup_dict_set : py.

(** Inversion of the exception and state-and-exception binds. *)
Lemma forallb_elem_of {A} (P : A → bool) l : forallb P l = true ↔ ∀ x, x ∈ l → P x = true.
Proof. rewrite forallb_forall. by setoid_rewrite list_elem_of_In. Qed.

Lemma rmap_err_Ok {A E E'} (f : E → E') (r : res E A) a : rmap_err f r = Ok a → r = Ok a.
Proof. destruct r; cbn; [by intros [= ->]|done]. Qed.

Lemma rfor_Ok {E A} (l : list A) (f : A → res E unit) : rfor l f = Ok tt ↔ Forall (λ a, f a = Ok tt) l.
Proof.
  induction l as [|a l IH]; cbn; [by split|]. rewrite Forall_cons, <- IH.
  destruct (f a) as [[]|e]; cbn; [tauto|]. split; [done|by intros [? _]].
Qed.

Lemma rbind_Ok {E A B} (r : res E A) (k : A → res E B) b :
  rbind r k = Ok b ↔ ∃ a, r = Ok a ∧ k a = Ok b.
Proof. destruct r; cbn; naive_solver. Qed.

Lemma rbind_Raise {E A B} (r : res E A) (k : A → res E B) e :
  rbind r k = Raise e ↔ r = Raise e ∨ ∃ a, r = Ok a ∧ k a = Raise e.
Proof. destruct r; cbn; naive_solver. Qed.

Lemma rguard_Ok {E} b (e : E) u : rguard b e = Ok u ↔ b = true.
Proof. destruct b, u; cbn; naive_solver. Qed.

Lemma of_option_Ok {E A} (e : E) (o : option A) a : of_option e o = Ok a ↔ o = Some a.
Proof. destruct o; cbn; naive_solver. Qed.

Section state_monad_facts.
  Context {S E : Type}.

Lemma bind_Ok {A B} (m : M S E A) (k : A → M S E B) s s' b :
    bind m k s = (s', Ok b) ↔ ∃ s1 a, m s = (s1, Ok a) ∧ k a s1 = (s', Ok b).
Proof. unfold bind. destruct (m s) as [s1 [a|e]]; naive_solver. Qed.

Lemma bind_Raise {A B} (m : M S E A) (k : A → M S E B) s s' e :
    bind m k s = (s', Raise e) ↔
    m s = (s', Raise e) ∨ ∃ s1 a, m s = (s1, Ok a) ∧ k a s1 = (s', Raise e).
Proof. unfold bind. destruct (m s) as [s1 [a|e']]; naive_solver. Qed.

Lemma lift_Ok {A} (r : res E A) (s s' : S) a : lift r s = (s', Ok a) ↔ s' = s ∧ r = Ok a.
Proof. unfold lift. naive_solver. Qed.

Lemma guard_Ok b (e : E) (s s' : S) u : guard b e s = (s', Ok u) ↔ s' = s ∧ b = true.
Proof. unfold guard. rewrite lift_Ok, rguard_Ok. done. Qed.
End state_monad_facts.

(** [minv]: invert every successful bind, guard and lift in the context. *)
Ltac minv_step :=
  match goal with
  | H : bind _ _ _ = (_, Ok _) |- _ =>
      apply bind_Ok in H; let s := fresh "s" in let a := fresh "a" in
      destruct H as (s & a & ? & H)
  | H : rbind _ _ = Ok _ |- _ =>
      apply rbind_Ok in H; let a := fresh "a" in destruct H as (a & ? & H)
  | H : guard _ _ _ = (_, Ok _) |- _ => apply guard_Ok in H; destruct H as [-> H]
  | H : lift _ _ = (_, Ok _) |- _ => apply lift_Ok in H; destruct H as [-> H]
  | H : rguard _ _ = Ok _ |- _ => apply rguard_Ok in H
  | H : of_option _ _ = Ok _ |- _ => apply of_option_Ok in H
  | H : get _ = (_, Ok _) |- _ => unfold get in H; injection H as <- <-
  | H : modify _ _ = (_, Ok _) |- _ => unfold modify in H; first [injection H as <- _ | injection H as <-]
  | H : ret _ _ = (_, Ok _) |- _ => unfold ret in H; first [injection H as <- _ | injection H as <-]
  | H : raise _ _ = (_, Ok _) |- _ => discriminate H
  | H : Ok _ = Ok _ |- _ => injection H as H
  | H : (_, Ok _) = (_, Ok _) |- _ => first [injection H as <- ? | injection H as <-]
  | H : Raise _ = Ok _ |- _ => discriminate H
  | H : (_, Raise _) = (_, Ok _) |- _ => discriminate H
  end.
Ltac minv := repeat minv_step.

(** Boolean tests of the code as propositions. *)
Ltac bools :=
  repeat match goal with
  | H : andb _ _ = true |- _ => apply andb_true_iff in H; destruct H
  | H : orb _ _ = false |- _ => apply orb_false_iff in H; destruct H
  | H : negb _ = true |- _ => apply negb_true_iff in H
  | H : negb _ = false |- _ => apply negb_false_iff in H
  | H : bool_decide _ = true |- _ => apply bool_decide_eq_true in H
  | H : bool_decide _ = false |- _ => apply bool_decide_eq_false in H
  | H : dict_mem _ _ = true |- _ => apply dict_mem_true in H
  | H : dict_mem _ _ = false |- _ => apply dict_mem_false in H
  end.

(** [str.strip] removes nothing on a second pass. *)
Lemma py_rstrip_idemp s : py_rstrip (py_rstrip s) = py_rstrip s.
Proof.
  induction s as [|c s IH]; [done|]. cbn.
  destruct (py_rstrip s) as [|c' t] eqn:E.
  - destruct (py_isspace c) eqn:Hc; cbn; [done|by rewrite Hc].
  - cbn in *. by rewrite IH.
Qed.

Lemma py_lstrip_rstrip_head c s :
  py_isspace c = false → py_lstrip (py_rstrip (String c s)) = py_rstrip (String c s).
Proof. intros Hc. cbn. rewrite Hc. destruct (py_rstrip s); cbn; by rewrite Hc. Qed.

Lemma py_strip_idemp s : py_strip (py_strip s) = py_strip s.
Proof.
  unfold py_strip. induction s as [|c s IH]; [done|].
  cbn [py_lstrip]. destruct (py_isspace c) eqn:Hc; [exact IH|].
  rewrite py_lstrip_rstrip_head by done. apply py_rstrip_idemp.
Qed.

Lemma str_true_spec s : str_true s = true ↔ s ≠ "".
Proof. unfold str_true. by rewrite negb_true_iff, String.eqb_neq. Qed.

Lemma str_true_false t : str_true t = false ↔ t = "".
Proof. unfold str_true. by rewrite negb_false_iff, String.eqb_eq. Qed.

(** ** Failure atomicity

    [ReadOnly m]: [m] never changes the state; [Total m]: [m] never raises;
    [Atomic m]: if [m] raises, the state is the one it started from.  The
    instances derive [Atomic] for a computation that validates first and
    assigns last, which is how the handlers of the program are written. *)

Class ReadOnly {S E A} (m : M S E A) := read_only : ∀ s s' r, m s = (s', r) → s' = s.
Class Total {S E A} (m : M S E A) := total : ∀ s, ∃ s' a, m s = (s', Ok a).
Class Atomic {S E A} (m : M S E A) := atomic : ∀ s s' e, m s = (s', Raise e) → s' = s.

Section atomicity.
  Context {S E : Type}.

#[export] Instance lift_read_only {A} (r : res E A) : ReadOnly (S:=S) (lift r).
Proof. unfold ReadOnly, lift. naive_solver. Qed.
#[export] Instance guard_read_only b (e : E) : ReadOnly (S:=S) (guard b e).
Proof. apply _. Qed.
#[export] Instance get_read_only : ReadOnly (E:=E) (get (S:=S)).
Proof. unfold ReadOnly, get. naive_solver. Qed.
#[export] Instance raise_read_only {A} (e : E) : ReadOnly (S:=S) (A:=A) (raise e).
Proof. unfold ReadOnly, raise. naive_solver. Qed.
#[export] Instance ret_read_only {A} (a : A) : ReadOnly (S:=S) (E:=E) (ret a).
Proof. unfold ReadOnly, ret. naive_solver. Qed.

#[export] Instance modify_total (f : S → S) : Total (E:=E) (modify f).
Proof. unfold Total, modify. naive_solver. Qed.
#[export] Instance ret_total {A} (a : A) : Total (S:=S) (E:=E) (ret a).
Proof. unfold Total, ret. naive_solver. Qed.
#[export] Instance bind_total {A B} (m : M S E A) (k : A → M S E B) :
    Total m → (∀ a, Total (k a)) → Total (bind m k).
Proof.
  intros Hm Hk s. unfold bind. destruct (Hm s) as (s1 & a & ->). apply Hk.
Qed.
#[export] Instance if_total {A} (b : bool) (m1 m2 : M S E A) :
    Total m1 → Total m2 → Total (if b then m1 else m2).
Proof. by destruct b. Qed.

#[export] Instance read_only_atomic {A} (m : M S E A) : ReadOnly m → Atomic m | 2.
Proof. unfold ReadOnly, Atomic. eauto. Qed.
#[export] Instance total_atomic {A} (m : M S E A) : Total m → Atomic m | 1.
Proof. intros Hm s s' e He. destruct (Hm s) as (? & ? & ?). congruence. Qed.
#[export] Instance bind_atomic {A B} (m : M S E A) (k : A → M S E B) :
    ReadOnly m → (∀ a, Atomic (k a)) → Atomic (bind m k) | 0.
Proof.
  intros Hm Hk s s' e [He|(s1 & a & Ha & He)]%bind_Raise; [by eapply Hm|].
  apply Hm in Ha as ->. by eapply Hk.
Qed.
#[export] Instance if_atomic {A} (b : bool) (m1 m2 : M S E A) :
    Atomic m1 → Atomic m2 → Atomic (if b then m1 else m2).
Proof. by destruct b. Qed.
End atomicity.

(** [for_each] over a concatenation, and one run after another. *)
Lemma for_each_app {S E A} (l1 l2 : list A) (body : A → M S E unit) s :
  for_each (l1 ++ l2) body s = bind (for_each l1 body) (λ _, for_each l2 body) s.
Proof.
  revert s. induction l1 as [|a l1 IH]; intros s; cbn; [done|].
  unfold bind in *. destruct (body a s) as [s1 [u|e]]; [apply IH|done].
Qed.

(** An invariant of a step relation holds at every state it reaches. *)
Lemma rtc_invariant {A} (R : relation A) (P : A → Prop) x z :
  (∀ y y', P y → R y y' → P y') → rtc R x z → P x → P z.
Proof. intros Hstep. induction 1; eauto. Qed.

(** Lookups at literal keys in a literal dictionary. *)
Ltac decide_lits :=
  repeat match goal with
  | |- context [decide (?a = ?a)] => rewrite (decide_True (P:=a = a)) by reflexivity
  | |- context [decide (?a = ?b)] => rewrite (decide_False (P:=a = b)) by discriminate
  end.
Ltac get_lits := cbn [dict_get]; decide_lits.

(** ** More facts about lists and boolean filters *)

(** ** Filters *)

Lemma elem_of_filter_list {A} (f : A → bool) l x : x ∈ List.filter f l ↔ f x = true ∧ x ∈ l.
Proof. rewrite !list_elem_of_In, filter_In. tauto. Qed.

Lemma filter_all {A} (p : A → bool) l : (∀ x, x ∈ l → p x = true) → List.filter p l = l.
Proof.
  induction l as [|x l IH]; intros Hp; cbn; [done|]. rewrite Hp by apply list_elem_of_here. f_equal. apply IH. intros y Hy.
  apply Hp. by apply list_elem_of_further.
Qed.

Lemma filter_nil {A} (p : A → bool) l : (∀ x, x ∈ l → p x = false) → List.filter p l = [].
Proof.
  induction l as [|x l IH]; intros Hp; cbn; [done|]. rewrite Hp by apply list_elem_of_here. apply IH. intros y Hy.
  apply Hp. by apply list_elem_of_further.
Qed.

Lemma filter_length_le {A} (p : A → bool) l : (length (List.filter p l) <= length l)%nat.
Proof. induction l as [|x l IH]; cbn; [lia|]. destruct (p x); cbn; lia. Qed.

Lemma filter_sublist {A} (p : A → bool) l : List.filter p l `sublist_of` l.
Proof. induction l as [|x l IH]; cbn; [done|]. destruct (p x); by constructor. Qed.

Lemma sublist_filter_length {A} (p : A → bool) l k : l `sublist_of` k → (length (List.filter p l) <= length (List.filter p k))%nat.
Proof. induction 1 as [|x l k _ IH|x l k _ IH]; cbn; [lia|destruct (p x); cbn; lia|destruct (p x); cbn; lia]. Qed.

Lemma filter_true {A} (l : list A) : List.filter (λ _, true) l = l.
Proof. induction l; cbn; congruence. Qed.

Lemma existsb_impl {A} (f g : A → bool) l : (∀ x, x ∈ l → f x = true → g x = true) → existsb f l = true → existsb g l = true.
Proof.
  intros Hfg (x & Hx & Hf)%existsb_exists. apply existsb_exists. exists x. split; [done|]. apply Hfg; [by apply list_elem_of_In|done].
Qed.

Lemma existsb_subset {A} `{EqDecision A} (f : A → bool) l l' : (∀ x, x ∈ l → x ∈ l') → existsb f l = true → existsb f l' = true.
Proof.
  intros Hl (x & Hx & Hf)%existsb_exists. apply existsb_exists. exists x. split; [|done]. apply list_elem_of_In, Hl. by apply list_elem_of_In.
Qed.

Lemma NoDup_fmap_filter {A B} (f : A → B) (p : A → bool) l : NoDup (f <$> l) → NoDup (f <$> List.filter p l).
Proof.
  induction l as [|x l IH]; cbn; [done|]. intros [Hx Hl]%NoDup_cons. case_match; [|auto]. cbn. apply NoDup_cons. split; [|auto].
  contradict Hx. apply list_elem_of_fmap in Hx as (y & -> & [_ Hy]%elem_of_filter_list). by apply list_elem_of_fmap_2.
Qed.

Lemma take_elem {A} n (l : list A) x : x ∈ take n l → x ∈ l.
Proof. intros Hx. rewrite <- (take_drop n l). by apply elem_of_app; left. Qed.

Lemma omap_nil {A B} (f : A → option B) l : omap f l = [] ↔ ∀ x, x ∈ l → f x = None.
Proof.
  induction l as [|x l IH]; cbn; [set_solver|]. setoid_rewrite elem_of_cons. destruct (f x) eqn:E; [|naive_solver].
  split; [done|]. intros H. rewrite (H x) in E; naive_solver.
Qed.

Lemma imap_pair_elem {A} (l : list A) i x k : (i, x) ∈ imap (λ j y, (k + j, y)%nat) l ↔ ∃ j, i = (k + j)%nat ∧ l !! j = Some x.
Proof.
  rewrite list_elem_of_lookup. setoid_rewrite list_lookup_imap_Some. naive_solver.
Qed.

Lemma hd_error_Some {A} (l : list A) x : hd_error l = Some x → x ∈ l.
Proof. destruct l; [done|]. intros [= <-]. apply list_elem_of_here. Qed.

Lemma hd_error_None {A} (l : list A) : hd_error l = None ↔ l = [].
Proof. by destruct l. Qed.

Lemma foldl_invariant {A B} (P : A → Prop) (f : A → B → A) l a : P a → (∀ a b, b ∈ l → P a → P (f a b)) → P (foldl f a l).
Proof.
  revert a. induction l as [|b l IH]; intros a Ha Hf; cbn; [done|]. apply IH; [apply Hf; [apply list_elem_of_here|done]|].
  intros a' b' Hb'. apply Hf. by apply list_elem_of_further.
Qed.
