(* ===== verification/Texts.v ===== *)
(** * Texts and JSON shared by the stores

    Hexadecimal digits, UTF-8, and what writing a JSON value with sorted keys
    does to it. *)

From Stdlib Require Import Ascii.
From stdpp Require Import sorting.
From S2P Require Import Prelude.

Open Scope py_scope.

(** ** Strings *)

Definition is_hex (c : ascii) : bool :=
  let n := N_of_ascii c in ((48 <=? n) && (n <=? 57) || (97 <=? n) && (n <=? 102))%N.

Fixpoint all_hex (s : string) : bool :=
  match s with EmptyString => true | String c s' => is_hex c && all_hex s' end.

(** [str.splitlines] on code points below 256. *)
Definition line_break (c : ascii) : bool :=
  let n := N_of_ascii c in ((10 <=? n) && (n <=? 13) || (28 <=? n) && (n <=? 30) || (n =? 133))%N.

Fixpoint lines_from (current : string) (s : string) : list string :=
  match s with
  | EmptyString => if str_true current then [current] else []
  | String c s' =>
      if line_break c then
        current :: match c, s' with
                   | "013"%char, String "010"%char s'' => lines_from "" s''
                   | _, _ => lines_from "" s'
                   end
      else lines_from (String.append current (String c EmptyString)) s'
  end.
Definition splitlines (s : string) : list string := lines_from "" s.

(** UTF-8 of code points below 256. *)
Fixpoint encode_utf8 (s : string) : string :=
  match s with
  | EmptyString => EmptyString
  | String c s' =>
      let n := N_of_ascii c in
      if (n <? 128)%N then String c (encode_utf8 s')
      else String (ascii_of_N (192 + N.shiftr n 6)) (String (ascii_of_N (128 + N.land n 63)) (encode_utf8 s'))
  end.

(** ** JSON *)

Definition key_le (a b : string * json) : Prop := String.leb a.1 b.1 = true.
#[export] Instance key_le_dec a b : base.Decision (key_le a b).
Proof. unfold key_le. apply _. Defined.

(** What [json.dumps(sort_keys=True)] does to a value. *)
Fixpoint sort_keys (j : json) : json :=
  match j with
  | JList l => JList ((fix go l := match l with [] => [] | x :: l => sort_keys x :: go l end) l)
  | JObj m =>
      JObj (merge_sort key_le
        ((fix go m := match m with [] => [] | (k, v) :: m => (k, sort_keys v) :: go m end) m))
  | _ => j
  end.

(** ** Lemmas on strings *)

Lemma append_assoc (a b c : string) : String.append (String.append a b) c = String.append a (String.append b c).
Proof. induction a as [|x a IH]; [done|]. exact (f_equal (String x) IH). Qed.

Lemma append_nil (a : string) : String.append a "" = a.
Proof. induction a as [|x a IH]; [done|]. exact (f_equal (String x) IH). Qed.

Lemma substring_full (s : string) n : String.length s ≤ n → String.substring 0 n s = s.
Proof.
  revert n. induction s as [|c s IH]; intros [|n] Hn; cbn in *; try done; [lia|].
  f_equal. apply IH. lia.
Qed.

Lemma length_append (a b : string) : String.length (String.append a b) = String.length a + String.length b.
Proof. induction a as [|c a IH]; [done|]. exact (f_equal S IH). Qed.

Lemma substring_app (a b : string) n :
  n ≤ String.length a → String.substring 0 n (String.append a b) = String.substring 0 n a.
Proof.
  revert n. induction a as [|c a IH]; intros [|n] Hn; cbn in Hn; try lia.
  - by destruct b.
  - done.
  - change (String.append (String c a) b) with (String c (String.append a b)). cbn. f_equal. apply IH. lia.
Qed.

Lemma substring_some (s : string) n : 0 < n → str_true s = true → str_true (String.substring 0 n s) = true.
Proof. destruct s, n; cbn; try done. lia. Qed.

Lemma all_hex_substring s n : all_hex s = true → all_hex (String.substring 0 n s) = true.
Proof.
  revert n. induction s as [|c s IH]; intros [|n]; cbn; try done.
  intros [Hc Hs]%andb_true_iff. by rewrite Hc, IH.
Qed.

(** ** Sorting keys *)

Definition sorted_values (m : dict string json) : dict string json :=
  (λ kv, (kv.1, sort_keys kv.2)) <$> m.

Lemma sort_keys_obj m : sort_keys (JObj m) = JObj (merge_sort key_le (sorted_values m)).
Proof.
  cbn. do 2 f_equal. unfold sorted_values. induction m as [|[k v] m IH]; [done|]. cbn. by rewrite IH.
Qed.

Lemma sort_keys_list l : sort_keys (JList l) = JList (sort_keys <$> l).
Proof. reflexivity. Qed.

Lemma sorted_values_keys m : dict_keys (sorted_values m) = dict_keys m.
Proof. unfold dict_keys, sorted_values. induction m as [|[k v] m IH]; [done|]. cbn. by f_equal. Qed.

Lemma sorted_values_get m k : dict_get (sorted_values m) k = sort_keys <$> dict_get m k.
Proof. induction m as [|[k' v] m IH]; [done|]. cbn. case_decide; [done|exact IH]. Qed.

Lemma dict_get_perm (m m' : dict string json) k :
  m ≡ₚ m' → NoDup (dict_keys m) → dict_get m' k = dict_get m k.
Proof.
  intros Hp Hnd. assert (Hnd' : NoDup (dict_keys m')).
  { unfold dict_keys in *. by rewrite <- Hp. }
  destruct (dict_get m k) as [v|] eqn:Hg.
  - apply dict_get_elem in Hg. apply dict_elem_get; [done|]. by rewrite <- Hp.
  - apply dict_get_None. apply dict_get_None in Hg. unfold dict_keys in *. by rewrite <- Hp.
Qed.

Lemma merge_sort_get m k :
  NoDup (dict_keys m) → dict_get (merge_sort key_le m) k = dict_get m k.
Proof. intros Hnd. apply dict_get_perm; [|done]. symmetry. apply merge_sort_Permutation. Qed.

Lemma merge_sort_keys m k : k ∈ dict_keys (merge_sort key_le m) ↔ k ∈ dict_keys m.
Proof. unfold dict_keys. by rewrite (merge_sort_Permutation key_le m). Qed.

Lemma py_true_sort float_eq v : py_true float_eq (sort_keys v) = py_true float_eq v.
Proof.
  destruct v as [| | | | |l|m]; try done.
  - rewrite sort_keys_list. by destruct l.
  - rewrite sort_keys_obj. cbn. pose proof (merge_sort_Permutation key_le (sorted_values m)) as Hp.
    apply Permutation_length in Hp. unfold sorted_values in *. rewrite length_fmap in Hp.
    destruct (merge_sort _ _), m; done.
Qed.


(** Looking a key up in a written object. *)
Lemma written_get m k :
  NoDup (dict_keys m) → dict_get (merge_sort key_le (sorted_values m)) k = sort_keys <$> dict_get m k.
Proof. intros Hnd. by rewrite merge_sort_get, sorted_values_get by by rewrite sorted_values_keys. Qed.

(** ** Text as bytes *)

(** The inverse of [encode_utf8]. *)
Fixpoint decode_utf8 (s : string) : string :=
  match s with
  | EmptyString => EmptyString
  | String c s' =>
      if (N_of_ascii c <? 128)%N then String c (decode_utf8 s')
      else match s' with
           | EmptyString => EmptyString
           | String d s'' =>
               String (ascii_of_N (64 * N.land (N_of_ascii c) 3 + N.land (N_of_ascii d) 63)) (decode_utf8 s'')
           end
  end.

Lemma decode_encode s : decode_utf8 (encode_utf8 s) = s.
Proof.
  induction s as [|c s IH]; [done|].
  destruct c as [[] [] [] [] [] [] [] []]; exact (f_equal (String _) IH).
Qed.

#[export] Instance encode_utf8_inj : Inj eq eq encode_utf8.
Proof. intros s t H. by rewrite <- (decode_encode s), H, decode_encode. Qed.

Fixpoint no_nul (s : string) : bool :=
  match s with EmptyString => true | String c s' => negb (Ascii.eqb c "000"%char) && no_nul s' end.

Lemma encode_no_nul s : no_nul s = true → no_nul (encode_utf8 s) = true.
Proof.
  induction s as [|c s IH]; [done|]. cbn [no_nul]. intros [Hc Hs]%andb_true_iff. specialize (IH Hs).
  destruct c as [[] [] [] [] [] [] [] []]; cbn in Hc |- *; done.
Qed.

(** Two texts cut at their first NUL. *)
Lemma nul_split a b x y :
  no_nul a = true → no_nul b = true →
  String.append a (String "000"%char x) = String.append b (String "000"%char y) → a = b ∧ x = y.
Proof.
  revert b. induction a as [|c a IH]; intros [|d b] Ha Hb H; cbn [no_nul] in *.
  - injection H as <-. done.
  - change (String "000"%char x = String d (String.append b (String "000"%char y))) in H.
    injection H as <- _. done.
  - change (String c (String.append a (String "000"%char x)) = String "000"%char y) in H.
    injection H as -> _. done.
  - change (String c (String.append a (String "000"%char x)) = String d (String.append b (String "000"%char y))) in H.
    injection H as -> H. apply andb_true_iff in Ha as [_ Ha], Hb as [_ Hb].
    destruct (IH b Ha Hb H) as [-> ->]. done.
Qed.

(** Texts of one length are told apart before a common end. *)
Lemma append_cancel a b x y :
  String.length a = String.length b → String.append a x = String.append b y → a = b ∧ x = y.
Proof.
  revert b. induction a as [|c a IH]; intros [|d b] Hl H; cbn in Hl; try lia; [done|].
  change (String c (String.append a x) = String d (String.append b y)) in H. injection H as -> H.
  destruct (IH b) as [-> ->]; [lia|done|done].
Qed.

(** ** Lines *)

Fixpoint no_breaks (s : string) : bool :=
  match s with EmptyString => true | String c s' => negb (line_break c) && no_breaks s' end.

Lemma lines_from_text a current rest :
  no_breaks a = true → lines_from current (String.append a rest) = lines_from (String.append current a) rest.
Proof.
  revert current. induction a as [|c a IH]; intros current Hb; [by rewrite append_nil|].
  cbn in Hb. apply andb_true_iff in Hb as [Hc Hb]. apply negb_true_iff in Hc.
  change (String.append (String c a) rest) with (String c (String.append a rest)). cbn [lines_from].
  rewrite Hc, IH by done. by rewrite append_assoc.
Qed.

Lemma no_breaks_app a b : no_breaks (String.append a b) = no_breaks a && no_breaks b.
Proof.
  induction a as [|c a IH]; [done|]. change (String.append (String c a) b) with (String c (String.append a b)).
  cbn [no_breaks]. by rewrite IH, andb_assoc.
Qed.

Lemma splitlines_line a rest :
  no_breaks a = true →
  splitlines (String.append a (String "010"%char rest)) = a :: splitlines rest.
Proof. intros Hb. unfold splitlines. by rewrite lines_from_text. Qed.

Lemma splitlines_last a : no_breaks a = true → splitlines a = if str_true a then [a] else [].
Proof. intros Hb. unfold splitlines. by rewrite <- (append_nil a) at 1; rewrite lines_from_text. Qed.

Lemma no_breaks_substring (s : string) n : no_breaks s = true → no_breaks (String.substring 0 n s) = true.
Proof.
  revert n. induction s as [|c s IH]; intros [|n] Hs; cbn in *; try done.
  apply andb_true_iff in Hs as [Hc Hs]. apply andb_true_iff. auto.
Qed.
