(* ===== verification/Values.v ===== *)
(** * Python's conversions of decoded values

    [str(x)], [int(x)], [x == n], [str.upper], [str.split], [dict.fromkeys],
    and the character classes of [re], on JSON values and on strings of code
    points below 256.  What depends on the value of a float's literal, and
    [repr] of a float or of a container, are parameters. *)

From Stdlib Require Import Ascii.
From S2P Require Import Prelude Texts.

Open Scope py_scope.

(** ** Values *)

(** [value == n] for an integer [n]. *)
Definition equals_int (float_eq : string → Z → bool) (n : Z) (j : json) : bool :=
  match j with
  | JInt k => (k =? n)%Z
  | JBool b => ((if b then 1 else 0) =? n)%Z
  | JFloat lit => float_eq lit n
  | _ => false
  end.

(** [value == s] for a string [s]. *)
Definition equals_str (s : string) (j : json) : bool :=
  match j with JStr t => String.eqb t s | _ => false end.

(** [str(value)] *)
Definition py_str (repr : json → string) (j : json) : string :=
  match j with
  | JStr s => s
  | JNull => "None"
  | JBool b => if b then "True" else "False"
  | JInt n => pretty n
  | _ => repr j
  end.

(** [isinstance(value, int)], with the integer. *)
Definition as_int (j : json) : option Z :=
  match j with
  | JInt n => Some n
  | JBool b => Some (if b then 1 else 0)%Z
  | _ => None
  end.

(** [value or other] *)
Definition py_or (float_eq : string → Z → bool) (j other : json) : json :=
  if py_true float_eq j then j else other.

(** [value.get(key)] *)
Definition get_or_null (d : dict string json) (k : string) : json := dict_get_default d k JNull.

(** [dict(value)]: an object, or what iterates over pairs; it is not followed
    for keys that are not strings. *)
Inductive dict_error := NotPairs | KeyNotText.

Fixpoint dict_of_pairs (d : dict string json) (l : list json) : res dict_error (dict string json) :=
  match l with
  | [] => Ok d
  | p :: l =>
      match py_iter p with
      | Some [JStr k; v] => dict_of_pairs (dict_set k v d) l
      | Some [(JList _ | JObj _); _] => Raise NotPairs
      | Some [_; _] => Raise KeyNotText
      | _ => Raise NotPairs
      end
  end.

Definition dict_of (j : json) : res dict_error (dict string json) :=
  match j with
  | JObj m => Ok m
  | _ => let? l := of_option NotPairs (py_iter j) in dict_of_pairs [] l
  end.

(** A keyword constructor on the given arguments: the fields in order, with
    what is given, their defaults, or a missing argument. *)
Fixpoint construct {E} (missing : E) (fields : list (string * option json)) (given : dict string json)
    : res E (dict string json) :=
  match fields with
  | [] => Ok []
  | (name, dflt) :: fields =>
      let? v := of_option missing (match dict_get given name with Some v => Some v | None => dflt end) in
      let? rest := construct missing fields given in
      Ok ((name, v) :: rest)
  end.

(** ** Numbers in texts *)

Definition digit_value (c : ascii) : option Z :=
  let n := N_of_ascii c in
  if ((48 <=? n) && (n <=? 57))%N then Some (Z.of_N n - 48)%Z else None.

Definition hex_digit (c : ascii) : option Z :=
  let n := N_of_ascii c in
  if ((48 <=? n) && (n <=? 57))%N then Some (Z.of_N n - 48)%Z
  else if ((97 <=? n) && (n <=? 102))%N then Some (Z.of_N n - 87)%Z
  else if ((65 <=? n) && (n <=? 70))%N then Some (Z.of_N n - 55)%Z
  else None.

(** Digits, a single underscore allowed between two of them; [count] is how
    many digits were read, more than 4300 being refused. *)
Fixpoint digits_from (acc : Z) (count : nat) (s : string) : option Z :=
  match s with
  | EmptyString => if (4300 <? count)%nat then None else Some acc
  | String c s' =>
      match digit_value c with
      | Some d => digits_from (acc * 10 + d)%Z (S count) s'
      | None =>
          if Ascii.eqb c "_"%char then
            match s' with
            | String c' s'' =>
                match digit_value c' with
                | Some d => digits_from (acc * 10 + d)%Z (S count) s''
                | None => None
                end
            | EmptyString => None
            end
          else None
      end
  end.

Definition digits_of (s : string) : option Z :=
  match s with
  | String c s' => match digit_value c with Some d => digits_from d 1 s' | None => None end
  | EmptyString => None
  end.

(** [int(text)]; [None] is a [ValueError]. *)
Definition int_of_str (s : string) : option Z :=
  match py_strip s with
  | String "-"%char s' => Z.opp <$> digits_of s'
  | String "+"%char s' => digits_of s'
  | s' => digits_of s'
  end.

(** [int(text, 16)] on a text of hexadecimal digits. *)
Fixpoint hex_from (acc : Z) (s : string) : option Z :=
  match s with
  | EmptyString => Some acc
  | String c s' => match hex_digit c with Some d => hex_from (acc * 16 + d)%Z s' | None => None end
  end.

Definition int_of_hex (s : string) : option Z := if str_true s then hex_from 0 s else None.

(** ** Strings *)

(** [str.upper]; "ß" becomes two letters, and "µ" and "ÿ" become code points
    above 255, which are left as they are. *)
Fixpoint py_upper (s : string) : string :=
  match s with
  | EmptyString => EmptyString
  | String c s' =>
      let n := N_of_ascii c in
      if (n =? 223)%N then String "S" (String "S" (py_upper s'))
      else if ((97 <=? n) && (n <=? 122) || (224 <=? n) && (n <=? 254) && negb (n =? 247))%N
           then String (ascii_of_N (n - 32)) (py_upper s')
      else String c (py_upper s')
  end.

(** [text.split()] *)
Fixpoint words_from (current : string) (s : string) : list string :=
  match s with
  | EmptyString => if str_true current then [current] else []
  | String c s' =>
      if py_isspace c then (if str_true current then [current] else []) ++ words_from "" s'
      else words_from (String.append current (String c "")) s'
  end.
Definition words (s : string) : list string := words_from "" s.

(** [" ".join(words)] *)
Definition unwords (l : list string) : string := String.concat " " l.

(** [list(dict.fromkeys(l))]: the first occurrences, in order. *)
Fixpoint fromkeys (seen l : list string) : list string :=
  match l with
  | [] => []
  | x :: l => if bool_decide (x ∈ seen) then fromkeys seen l else x :: fromkeys (x :: seen) l
  end.
Definition unique (l : list string) : list string := fromkeys [] l.

(** [sorted(l)], by code points. *)
Fixpoint insert_sorted (x : string) (l : list string) : list string :=
  match l with
  | [] => [x]
  | y :: l' => if String.leb x y then x :: l else y :: insert_sorted x l'
  end.
Definition sort_strings (l : list string) : list string := foldr insert_sorted [] l.

(** ** Character classes of [re] *)

Definition in_range (a b : N) (c : ascii) : bool :=
  let n := N_of_ascii c in ((a <=? n) && (n <=? b))%N.

Definition is_digit (c : ascii) : bool := in_range 48 57 c.
Definition is_lower (c : ascii) : bool := in_range 97 122 c.
Definition is_upper (c : ascii) : bool := in_range 65 90 c.
Definition is_alnum (c : ascii) : bool := is_digit c || is_lower c || is_upper c.

(** [\w] on code points below 256. *)
Definition is_word (c : ascii) : bool :=
  is_alnum c || Ascii.eqb c "_"%char || in_range 170 170 c || in_range 178 179 c
  || in_range 181 181 c || in_range 185 186 c || in_range 188 190 c
  || in_range 192 214 c || in_range 216 246 c || in_range 248 255 c.

Definition not_space (c : ascii) : bool := negb (py_isspace c).

Definition one_of (set : string) (c : ascii) : bool :=
  (fix go s := match s with EmptyString => false | String d s' => Ascii.eqb c d || go s' end) set.

(** The longest prefix of characters of a class, and what follows it. *)
Fixpoint span (p : ascii → bool) (s : string) : string * string :=
  match s with
  | String c s' => if p c then let '(a, b) := span p s' in (String c a, b) else ("", s)
  | EmptyString => ("", "")
  end.

Fixpoint all_chars (p : ascii → bool) (s : string) : bool :=
  match s with EmptyString => true | String c s' => p c && all_chars p s' end.

(** *** UTF-8 *)

Definition continuation (c : ascii) : bool := in_range 128 191 c.

(** Strict UTF-8. *)
Fixpoint valid_utf8 (s : string) : bool :=
  match s with
  | EmptyString => true
  | String a s1 =>
      if in_range 0 127 a then valid_utf8 s1
      else match s1 with
      | EmptyString => false
      | String b s2 =>
          if in_range 194 223 a then continuation b && valid_utf8 s2
          else match s2 with
          | EmptyString => false
          | String c s3 =>
              if in_range 224 239 a then
                continuation b && continuation c && valid_utf8 s3
                && (negb (Ascii.eqb a "224"%char) || in_range 160 191 b)
                && (negb (Ascii.eqb a "237"%char) || in_range 128 159 b)
              else match s3 with
              | EmptyString => false
              | String d s4 =>
                  in_range 240 244 a && continuation b && continuation c && continuation d && valid_utf8 s4
                  && (negb (Ascii.eqb a "240"%char) || in_range 144 191 b)
                  && (negb (Ascii.eqb a "244"%char) || in_range 128 143 b)
              end
          end
      end
  end.

(** *** Names *)

(** The pattern [[A-Za-z0-9][A-Za-z0-9_-]{0,127}], matched in full. *)
Definition safe_id (s : string) : bool :=
  match s with
  | String c s' =>
      is_alnum c && all_chars (λ c, is_alnum c || one_of "_-" c) s' && (String.length s' <=? 127)%nat
  | EmptyString => false
  end.

Definition is_word_at (o : option ascii) : bool := match o with Some c => is_word c | None => false end.
Definition head (s : string) : option ascii :=
  match s with String c _ => Some c | EmptyString => None end.

(** [\b] in front of a word character. *)
Definition at_word (before : option ascii) : bool := negb (is_word_at before).

Definition drop (n : nat) (s : string) : string := String.substring n (String.length s) s.

(** A pattern: the length of its match at the start of a text, if there is
    one, given the character in front of the text.  A match is not empty. *)
Abbreviation matcher := (option ascii → string → option nat).

(** [pattern.subn(replacement, text)]; [skip] counts the characters of the
    last match that are still to be passed over. *)
Fixpoint subn_from (matches : matcher) (replacement : string) (before : option ascii) (skip : nat)
    (s : string) : string * nat :=
  match s with
  | EmptyString => (EmptyString, 0)
  | String c s' =>
      match skip with
      | S skip => subn_from matches replacement (Some c) skip s'
      | O =>
          match matches before s with
          | Some (S n) =>
              let '(t, k) := subn_from matches replacement (Some c) n s' in (replacement +:+ t, S k)
          | _ => let '(t, k) := subn_from matches replacement (Some c) 0 s' in (String c t, k)
          end
      end
  end.
Definition subn (matches : matcher) (replacement s : string) : string * nat :=
  subn_from matches replacement None 0 s.

(** ** Lemmas *)

Lemma fromkeys_spec seen l x : x ∈ fromkeys seen l ↔ x ∈ l ∧ x ∉ seen.
Proof.
  revert seen. induction l as [|y l IH]; intros seen; cbn [fromkeys].
  { split; [by intros ?%elem_of_nil|by intros [?%elem_of_nil _]]. }
  case_bool_decide as Hy; rewrite ?elem_of_cons, IH, ?not_elem_of_cons.
  - split; [tauto|]. intros [[->|?] ?]; tauto.
  - split; [intros [->|?]; tauto|]. intros [[->|?] ?]; [tauto|].
    destruct (decide (x = y)) as [->|]; tauto.
Qed.

Lemma unique_elem l x : x ∈ unique l ↔ x ∈ l.
Proof. unfold unique. rewrite fromkeys_spec. split; [tauto|]. intros ?. split; [done|apply not_elem_of_nil]. Qed.

Lemma fromkeys_NoDup seen l : NoDup (fromkeys seen l).
Proof.
  revert seen. induction l as [|y l IH]; intros seen; cbn; [constructor|].
  case_bool_decide; [apply IH|]. constructor; [|apply IH].
  intros [_ Hn]%fromkeys_spec. apply Hn. constructor.
Qed.

Lemma fromkeys_id seen l : NoDup l → (∀ x, x ∈ l → x ∉ seen) → fromkeys seen l = l.
Proof.
  revert seen. induction l as [|y l IH]; intros seen Hnd Hs; cbn; [done|].
  apply NoDup_cons in Hnd as [Hy Hnd].
  rewrite bool_decide_eq_false_2 by (apply Hs; constructor). f_equal.
  apply IH; [done|]. intros x Hx. rewrite not_elem_of_cons. split; [by intros ->|].
  apply Hs. by constructor.
Qed.

Lemma unique_NoDup l : NoDup (unique l).
Proof. apply fromkeys_NoDup. Qed.

Lemma unique_id l : NoDup l → unique l = l.
Proof. intros ?. apply fromkeys_id; [done|]. intros x _. apply not_elem_of_nil. Qed.

Lemma hex_digit_of c : is_hex c = true → ∃ d, hex_digit c = Some d ∧ (0 <= d < 16)%Z.
Proof.
  unfold is_hex, hex_digit. intros H. destruct (_ && _) eqn:E1.
  - eexists. split; [done|]. apply andb_true_iff in E1 as [?%N.leb_le ?%N.leb_le]. lia.
  - cbn in H. rewrite H. eexists. split; [done|].
    apply andb_true_iff in H as [?%N.leb_le ?%N.leb_le]. lia.
Qed.

Lemma hex_from_all acc s : all_hex s = true → (0 <= acc)%Z → ∃ n, hex_from acc s = Some n ∧ (0 <= n)%Z.
Proof.
  revert acc. induction s as [|c s IH]; intros acc; cbn; [by eexists|].
  intros [Hc Hs]%andb_true_iff Ha. destruct (hex_digit_of c Hc) as (d & -> & Hd).
  apply IH; [done|lia].
Qed.

Lemma insert_sorted_elem x l y : y ∈ insert_sorted x l ↔ y = x ∨ y ∈ l.
Proof.
  induction l as [|z l IH]; cbn [insert_sorted].
  - rewrite list_elem_of_singleton. split; [auto|]. intros [?|[]%elem_of_nil]; done.
  - destruct (String.leb x z); rewrite !elem_of_cons, ?IH; tauto.
Qed.

Lemma sort_strings_elem l y : y ∈ sort_strings l ↔ y ∈ l.
Proof. induction l as [|x l IH]; cbn [sort_strings foldr]; [done|]. by rewrite insert_sorted_elem, elem_of_cons, IH. Qed.

(** *** Texts of characters of a class *)

Lemma all_chars_app p (a b : string) : all_chars p (String.append a b) = all_chars p a && all_chars p b.
Proof.
  induction a as [|c a IH]; [done|]. change (String.append (String c a) b) with (String c (String.append a b)).
  cbn [all_chars]. by rewrite IH, andb_assoc.
Qed.

Lemma substring_chars p (s : string) n : all_chars p s = true → all_chars p (String.substring 0 n s) = true.
Proof.
  revert n. induction s as [|c s IH]; intros [|n] Hs; cbn in *; try done.
  apply andb_true_iff in Hs as [Hc Hs]. apply andb_true_iff. auto.
Qed.

Lemma all_chars_impl (p q : ascii → bool) s :
  (∀ c, p c = true → q c = true) → all_chars p s = true → all_chars q s = true.
Proof.
  intros Hpq. induction s as [|c s IH]; cbn; [done|]. intros [Hc Hs]%andb_true_iff.
  by rewrite (Hpq _ Hc), (IH Hs).
Qed.

(** Two texts cut at their first separator. *)
Lemma sep_split c a b x y :
  all_chars (λ d, negb (Ascii.eqb d c)) a = true → all_chars (λ d, negb (Ascii.eqb d c)) b = true →
  String.append a (String c x) = String.append b (String c y) → a = b ∧ x = y.
Proof.
  revert b. induction a as [|d a IH]; intros [|d' b] Ha Hb H; cbn [all_chars] in *.
  - injection H as <-. done.
  - change (String c x = String d' (String.append b (String c y))) in H.
    injection H as <- _. by rewrite Ascii.eqb_refl in Hb.
  - change (String d (String.append a (String c x)) = String c y) in H.
    injection H as -> _. by rewrite Ascii.eqb_refl in Ha.
  - change (String d (String.append a (String c x)) = String d' (String.append b (String c y))) in H.
    injection H as -> H. apply andb_true_iff in Ha as [_ Ha], Hb as [_ Hb].
    destruct (IH b Ha Hb H) as [-> ->]. done.
Qed.

Lemma is_hex_not_space c : is_hex c = true → py_isspace c = false.
Proof. by destruct c as [[] [] [] [] [] [] [] []]. Qed.

Lemma py_rstrip_hex s c :
  all_hex s = true → py_isspace c = true → py_rstrip (s +:+ String c "") = s.
Proof.
  intros Hs Hc. induction s as [|d s IH]; [change (py_rstrip ("" +:+ String c "")) with (if py_isspace c then "" else String c ""); by rewrite Hc|].
  cbn [all_hex] in Hs. apply andb_true_iff in Hs as [Hd Hs]. specialize (IH Hs).
  change (String d s +:+ String c "") with (String d (s +:+ String c "")). cbn [py_rstrip]. rewrite IH.
  destruct s; [by rewrite is_hex_not_space|done].
Qed.

(** A digest and the end of its line. *)
Lemma py_strip_hex s c :
  all_hex s = true → str_true s = true → py_isspace c = true → py_strip (s +:+ String c "") = s.
Proof.
  intros Hs Ht Hc. unfold py_strip. destruct s as [|d s]; [done|].
  pose proof Hs as Hs'. cbn [all_hex] in Hs'. apply andb_true_iff in Hs' as [Hd _].
  change (py_lstrip (String d s +:+ String c "")) with
    (if py_isspace d then py_lstrip (s +:+ String c "") else String d s +:+ String c "").
  rewrite is_hex_not_space by done. by apply py_rstrip_hex.
Qed.

Lemma is_hex_ascii c : is_hex c = true → in_range 0 127 c = true.
Proof. by destruct c as [[] [] [] [] [] [] [] []]. Qed.

Lemma all_hex_ascii s : all_hex s = true → all_chars (in_range 0 127) s = true.
Proof.
  induction s as [|c s IH]; [done|]. cbn. intros [Hc Hs]%andb_true_iff. by rewrite (is_hex_ascii c Hc), IH.
Qed.

(** *** The keyword constructor *)

Section construct.
  Context {E : Type} (missing : E).
  Implicit Types (given j : dict string json) (fields : list (string * option json)).

Lemma construct_complete fields given j :
  Forall2 (λ (f : string * option json) kv, f.1 = kv.1 ∧ dict_get given f.1 = Some kv.2) fields j →
  construct missing fields given = Ok j.
Proof.
  induction 1 as [|[name dflt] [k v] fields j [Hk Hg] _ IH]; [done|]. cbn in *. subst k.
  rewrite Hg. cbn. by rewrite IH.
Qed.

(** A record whose fields can be looked up in [given] is what is constructed. *)
Lemma construct_lookup fields given j :
  NoDup fields.*1 → dict_keys j = fields.*1 →
  (∀ k v, dict_get j k = Some v → dict_get given k = Some v) →
  construct missing fields given = Ok j.
Proof.
  intros Hnd Hk Hg. apply construct_complete.
  assert (Hnd' : NoDup (dict_keys j)) by (by rewrite Hk).
  apply Forall2_same_length_lookup. split.
  - rewrite <- (length_fmap fst fields), <- (length_map fst j). unfold dict_keys in Hk. by rewrite Hk.
  - intros i [name dflt] [k v] Hf Hj. cbn.
    assert (Hname : fields.*1 !! i = Some name) by (by rewrite list_lookup_fmap, Hf).
    assert (Hkey : dict_keys j !! i = Some k) by (unfold dict_keys; change (map fst j) with (fst <$> j);
      by rewrite list_lookup_fmap, Hj).
    rewrite Hk, Hname in Hkey. injection Hkey as ->. split; [done|]. apply Hg.
    by eapply dict_lookup_get.
Qed.

Lemma construct_get fields given j name v :
  NoDup fields.*1 → construct missing fields given = Ok j → name ∈ fields.*1 →
  dict_get given name = Some v → dict_get j name = Some v.
Proof.
  revert j. induction fields as [|[n dflt] fields IH]; intros j Hnd; cbn; [by intros _ ?%elem_of_nil|].
  apply NoDup_cons in Hnd as [Hni Hnd].
  intros (v' & Hv' & (rest & Hr & [= <-])%rbind_Ok)%rbind_Ok Hin Hg. cbn. case_decide as Heq.
  - subst n. rewrite Hg in Hv'. cbn in Hv'. congruence.
  - apply (IH _ Hnd Hr); [|done]. by apply elem_of_cons in Hin as [?|?].
Qed.

Lemma construct_keys fields given j : construct missing fields given = Ok j → dict_keys j = fields.*1.
Proof.
  revert j. induction fields as [|[n dflt] fields IH]; intros j; cbn; [by intros [= <-]|].
  intros (v' & _ & (rest & Hr & [= <-])%rbind_Ok)%rbind_Ok. apply IH in Hr. unfold dict_keys in *. cbn. by f_equal.
Qed.

Lemma construct_Raise fields given x : construct missing fields given = Raise x → x = missing.
Proof.
  induction fields as [|[n dflt] fields IH]; cbn; [done|].
  destruct (dict_get given n) as [v|], dflt; cbn; try (by intros [= <-]);
    destruct (construct missing fields given) as [r|y]; cbn; auto; done.
Qed.
End construct.

(** ** More operations on texts: stripping, folding, finding and replacing *)

(** [s.rstrip(chars)] *)
Fixpoint rstrip_chars (set s : string) : string :=
  match s with
  | EmptyString => EmptyString
  | String c s' => match rstrip_chars set s' with
                   | EmptyString => if one_of set c then EmptyString else String c EmptyString
                   | t => String c t
                   end
  end.

(** [s.strip(chars)] *)
Fixpoint lstrip_chars (set s : string) : string :=
  match s with
  | EmptyString => EmptyString
  | String c s' => if one_of set c then lstrip_chars set s' else s
  end.
Definition strip_chars (set s : string) : string := rstrip_chars set (lstrip_chars set s).

(** [str.casefold] *)
Fixpoint py_casefold (s : string) : string :=
  match s with
  | EmptyString => EmptyString
  | String c s' => (if Ascii.eqb c "223" then "ss" else String (lower_char c) "") +:+ py_casefold s'
  end.

(** What follows the first occurrence of [needle], and what precedes it. *)
Fixpoint find_text (needle s : string) : option (string * string) :=
  if String.prefix needle s then Some ("", drop (String.length needle) s) else
  match s with
  | EmptyString => None
  | String c s' => '(before, after) ← find_text needle s'; Some (String c before, after)
  end.

(** [s.partition(sep)]: what is before, and what is after where there is
    one. *)
Definition partition (sep s : string) : string * option string :=
  match find_text sep s with Some (before, after) => (before, Some after) | None => (s, None) end.

(** [s.replace(old, new)], for an [old] that is not empty. *)
Fixpoint replaced (fuel : nat) (old new s : string) : string :=
  match fuel with
  | O => s
  | S fuel => match find_text old s with
              | Some (before, after) => before +:+ new +:+ replaced fuel old new after
              | None => s
              end
  end.
Definition replace_text (old new s : string) : string := replaced (S (String.length s)) old new s.

(** [s.endswith(suffix)] *)
Fixpoint ends_with (suffix s : string) : bool :=
  String.eqb suffix s || match s with EmptyString => false | String _ s' => ends_with suffix s' end.

(** [a.rstrip("/") + "/" + b], as joining a relative path does. *)
Definition path_join (directory name : string) : string :=
  if String.prefix "/" name then name
  else if negb (str_true directory) || ends_with "/" directory then directory +:+ name
  else directory +:+ "/" +:+ name.

Lemma substring_length n (s : string) : (String.length (String.substring 0 n s) <= n)%nat.
Proof. revert s. induction n as [|n IH]; intros []; cbn; try lia. specialize (IH s). lia. Qed.

(** ** Texts in parts *)

Lemma substring_past s n b : String.substring (String.length s) n (String.append s b) = String.substring 0 n b.
Proof. induction s as [|c s IH]; [done|]. exact IH. Qed.

Lemma drop_self s b : drop (String.length s) (String.append s b) = b.
Proof. unfold drop. rewrite substring_past. apply substring_full. rewrite length_append. lia. Qed.

Lemma prefix_self s b : String.prefix s (String.append s b) = true.
Proof.
  induction s as [|c s IH]; [by destruct b|].
  change (String.append (String c s) b) with (String c (String.append s b)). cbn [String.prefix]. destruct (ascii_dec c c); [exact IH|done].
Qed.

Lemma prefix_split p s : String.prefix p s = true → ∃ t, s = p +:+ t.
Proof.
  revert s. induction p as [|c p IH]; intros s; [intros _; by exists s|]. destruct s as [|d s]; [done|].
  cbn [String.prefix]. destruct (ascii_dec c d) as [->|]; [|done]. intros Hp. destruct (IH s Hp) as [t ->]. by exists t.
Qed.

Lemma pretty_N_go_chars p x s : (∀ d, p (pretty_N_char d) = true) → all_chars p s = true → all_chars p (pretty_N_go x s) = true.
Proof.
  intros Hp. revert s. induction (N.lt_wf_0 x) as [x _ IH]. intros s Hs.
  destruct (decide (0 < x)%N) as [Hx|Hx].
  - rewrite pretty_N_go_step by done. apply IH; [apply N.div_lt; lia|]. cbn. by rewrite Hp.
  - assert (x = 0%N) as -> by lia. by rewrite pretty_N_go_0.
Qed.
