(* ===== verification/Codec.v ===== *)
(** * The JSON text codec, as an interface

    The stores write a value with [json.dumps] and read it with [json.loads].
    [JsonCodec] states what they rely on, for a writer that sorts keys and
    puts a value on one line; [bits_codec] shows that it can be met. *)

From Stdlib Require Import Ascii.
From stdpp Require Import sorting countable.
From S2P Require Import Prelude Texts Values.

Open Scope py_scope.

(** ** Lines *)

Definition newline : ascii := "010"%char.
Definition carriage : ascii := "013"%char.

(** Not the end of a line of a text file. *)
Definition inline (c : ascii) : bool := negb (Ascii.eqb c newline || Ascii.eqb c carriage).

(** The lines of a file opened as text, without their ends. *)
Fixpoint file_lines_from (current : string) (s : string) : list string :=
  match s with
  | EmptyString => if str_true current then [current] else []
  | String c s' =>
      if Ascii.eqb c newline then current :: file_lines_from "" s'
      else if Ascii.eqb c carriage then
        current :: match s' with
                   | String "010"%char s'' => file_lines_from "" s''
                   | _ => file_lines_from "" s'
                   end
      else file_lines_from (String.append current (String c "")) s'
  end.
Definition file_lines (s : string) : list string := file_lines_from "" s.

(** ** The interface *)

Class JsonCodec (dumps : json → string) (loads : string → option json) := {
  codec_line j : all_chars inline (dumps j) = true;
  codec_some j : str_true (dumps j) = true;
  (** read back, with or without the end of its line *)
  codec_back j : loads (dumps j) = Some (sort_keys j);
  codec_file j : loads (dumps j +:+ String newline "") = Some (sort_keys j);
  (** a proper prefix of an object is not a text, nor is an object that
      follows one, whole or cut, on its line *)
  codec_torn m n : 0 < n < String.length (dumps (JObj m)) →
    loads (String.substring 0 n (dumps (JObj m))) = None;
  codec_joined m m' n : 0 < n ≤ String.length (dumps (JObj m)) →
    loads (String.substring 0 n (dumps (JObj m)) +:+ dumps (JObj m')) = None;
}.

(** ** A codec that meets it

    A value as a tree, a tree as a positive number, its bits between brackets. *)

Section gen_tree.
Fixpoint to_tree (j : json) : gen_tree (bool + Z + (string + string)) :=
  match j with
  | JNull => GenNode 0 []
  | JBool b => GenNode 1 [GenLeaf (inl (inl b))]
  | JInt z => GenNode 2 [GenLeaf (inl (inr z))]
  | JFloat lit => GenNode 3 [GenLeaf (inr (inl lit))]
  | JStr s => GenNode 4 [GenLeaf (inr (inr s))]
  | JList l => GenNode 5 ((fix go l := match l with [] => [] | x :: l => to_tree x :: go l end) l)
  | JObj m => GenNode 6 ((fix go (m : list (string * json)) :=
      match m with [] => [] | (k, v) :: m => GenLeaf (inr (inr k)) :: to_tree v :: go m end) m)
  end.

Fixpoint of_tree (t : gen_tree (bool + Z + (string + string))) : json :=
  match t with
  | GenNode 1 [GenLeaf (inl (inl b))] => JBool b
  | GenNode 2 [GenLeaf (inl (inr z))] => JInt z
  | GenNode 3 [GenLeaf (inr (inl lit))] => JFloat lit
  | GenNode 4 [GenLeaf (inr (inr s))] => JStr s
  | GenNode 5 l => JList ((fix go l := match l with [] => [] | x :: l => of_tree x :: go l end) l)
  | GenNode 6 l => JObj ((fix go l :=
      match l with GenLeaf (inr (inr k)) :: v :: l => (k, of_tree v) :: go l | _ => [] end) l)
  | _ => JNull
  end.
End gen_tree.

Lemma of_to_tree : ∀ j, of_tree (to_tree j) = j.
Proof.
  fix IH 1. intros [|b|z|lit|s|l|m]; try reflexivity.
  - cbn [to_tree of_tree]. f_equal. induction l as [|x l IHl]; [reflexivity|].
    cbn [to_tree]. rewrite IH. by rewrite IHl.
  - cbn [to_tree of_tree]. f_equal. induction m as [|[k v] m IHm]; [reflexivity|]. rewrite IH. by rewrite IHm.
Qed.

#[export] Instance json_eq_dec : EqDecision json.
Proof.
  intros a b. destruct (decide (to_tree a = to_tree b)) as [Heq|Hne].
  - left. by rewrite <- (of_to_tree a), Heq, of_to_tree.
  - right. by intros ->.
Defined.

#[export] Instance json_countable : Countable json.
Proof. apply (inj_countable' to_tree of_tree). exact of_to_tree. Defined.

Fixpoint bits (p : positive) : string :=
  match p with
  | xH => "]"
  | xO p => String "0"%char (bits p)
  | xI p => String "1"%char (bits p)
  end.

Fixpoint of_bits (s : string) : option positive :=
  match s with
  | String "]"%char "" => Some xH
  | String "]"%char (String "010"%char "") => Some xH
  | String "0"%char s => xO <$> of_bits s
  | String "1"%char s => xI <$> of_bits s
  | _ => None
  end.

Definition bits_dumps (j : json) : string := String "["%char (bits (encode (sort_keys j))).
Definition bits_loads (s : string) : option json :=
  match s with String "["%char s => of_bits s ≫= decode | _ => None end.

Lemma bits_chars p (P : ascii → bool) :
  P "0"%char = true → P "1"%char = true → P "]"%char = true → all_chars P (bits p) = true.
Proof. intros H0 H1 H2. induction p as [p IH|p IH|]; cbn; rewrite ?H0, ?H1, ?H2; cbn; [exact IH|exact IH|done]. Qed.

Lemma of_bits_back p tail : tail = "" ∨ tail = String "010"%char "" → of_bits (bits p +:+ tail) = Some p.
Proof.
  intros Ht. induction p as [p IH|p IH|].
  - change (xI <$> of_bits (bits p +:+ tail) = Some p~1%positive). by rewrite IH.
  - change (xO <$> of_bits (bits p +:+ tail) = Some p~0%positive). by rewrite IH.
  - destruct Ht as [->| ->]; reflexivity.
Qed.

Lemma of_bits_torn p n : n < String.length (bits p) → of_bits (String.substring 0 n (bits p)) = None.
Proof.
  revert n. induction p as [p IH|p IH|]; intros [|n] Hn; try reflexivity; cbn in Hn; try lia.
  - change (xI <$> of_bits (String.substring 0 n (bits p)) = None). rewrite IH; [done|lia].
  - change (xO <$> of_bits (String.substring 0 n (bits p)) = None). rewrite IH; [done|lia].
Qed.

Lemma of_bits_joined p n s : of_bits (String.substring 0 n (bits p) +:+ String "["%char s) = None.
Proof.
  revert n. induction p as [p IH|p IH|]; intros [|n]; try reflexivity.
  - change (xI <$> of_bits (String.substring 0 n (bits p) +:+ String "["%char s) = None). by rewrite IH.
  - change (xO <$> of_bits (String.substring 0 n (bits p) +:+ String "["%char s) = None). by rewrite IH.
  - destruct n; reflexivity.
Qed.

Lemma bits_ascii j : all_chars (in_range 0 127) (bits_dumps j) = true.
Proof. cbn. by apply bits_chars. Qed.

#[export] Instance bits_codec : JsonCodec bits_dumps bits_loads.
Proof.
  split.
  - intros j. cbn. by apply bits_chars.
  - done.
  - intros j. cbn. rewrite <- (append_nil (bits _)), of_bits_back by auto. apply countable.decode_encode.
  - intros j. change (of_bits (bits (encode (sort_keys j)) +:+ String newline "") ≫= decode (A := json) = Some (sort_keys j)).
    rewrite of_bits_back by auto. apply countable.decode_encode.
  - intros m [|n] Hn; [lia|]. cbn [bits_dumps bits_loads String.length String.substring] in Hn |- *.
    rewrite of_bits_torn; [done|lia].
  - intros m m' [|n] Hn; [lia|].
    change (of_bits (String.substring 0 n (bits (encode (sort_keys (JObj m)))) +:+ bits_dumps (JObj m')) ≫= decode (A := json) = None).
    unfold bits_dumps at 1. by rewrite of_bits_joined.
Qed.

(** ** A digest

    The files are named and checked by SHA-256 in hexadecimal; a function of
    the same shape, for examples. *)

Definition toy_hash (b : string) : string :=
  let d := ascii_of_nat (48 + String.length b mod 10) in
  Nat.iter 64 (String d) "".

Lemma toy_hash_shape b : all_hex (toy_hash b) = true ∧ String.length (toy_hash b) = 64.
Proof.
  unfold toy_hash. pose proof (Nat.mod_upper_bound (String.length b) 10 ltac:(lia)) as H.
  generalize dependent (String.length b mod 10). intros n Hn.
  do 10 (destruct n as [|n]; [by vm_compute|]). lia.
Qed.
