(* ===== verification/WorkingState.v ===== *)
(** * Task truth: [client/runtime/working_state.py]

    The event-reduced state of one task.  [apply] is the only operation that
    changes it; [reduce] dispatches an event to the handler of its type.  The
    handlers run in the state-and-exception monad [M WorkingState exn], so
    what an event assigned before it raised is kept, as in the source. *)

From S2P Require Import Prelude.

Open Scope py_scope.

(** ** Errors *)

(** A [ValueError] of an enum call and a [KeyError] of a dictionary lookup
    carry no message here; the package's own errors do. *)
Inductive exn :=
  | StateTransitionError (msg : string)
  | DuplicateEventError (msg : string)
  | SerializationError (msg : string)
  | ValueError
  | KeyError (key : string).

(** ** Enumerations *)

Inductive StateSource := USER | HARNESS | TOOL_RUNTIME | RETRIEVAL | MODEL_SOURCE.

Inductive StateEventType :=
  | TASK_STARTED | OBJECTIVE_RECORDED | CONSTRAINT_RECORDED
  | ACCEPTANCE_CRITERION_RECORDED | PLAN_STEP_ADDED | PLAN_STEP_UPDATED
  | PLAN_STEP_REVISED | DISCOVERY_RECORDED | DECISION_RECORDED | FILE_READ
  | FILE_MODIFIED | FILE_CREATED | FILE_DELETED | ACTION_SUCCEEDED
  | ACTION_FAILED | ACTION_CANCELLED | FAILURE_RESOLVED | VERIFICATION_RECORDED
  | REVIEW_RECORDED | CHECKPOINT_RECORDED | CHECKPOINT_STATUS_UPDATED
  | ROUND_STARTED | RETRY_RECORDED | REPEATED_ACTION_RECORDED
  | VERIFICATION_REPROMPT_RECORDED | BUDGET_REACHED | TASK_COMPLETED
  | TASK_FAILED | TASK_INTERRUPTED | TASK_RESUMED | BUDGET_EXHAUSTED_EVENT.

Inductive TerminalStatus := RUNNING | COMPLETED | FAILED | INTERRUPTED | BUDGET_EXHAUSTED.

Inductive PlanStepStatus := PENDING | ACTIVE | STEP_COMPLETED | BLOCKED | SKIPPED.

Inductive ActionKind := MODEL | TOOL | COMMAND.

Inductive ActionStatus := ACTION_OK | ACTION_FAIL | ACTION_CANCEL.

Inductive VerificationOutcome := NOT_RUN | PASSED | VERIFICATION_FAILED.

Definition source_value (x : StateSource) : string :=
  match x with
  | USER => "user" | HARNESS => "harness" | TOOL_RUNTIME => "tool_runtime"
  | RETRIEVAL => "retrieval" | MODEL_SOURCE => "model"
  end.

Definition event_type_value (x : StateEventType) : string :=
  match x with
  | TASK_STARTED => "task_started"
  | OBJECTIVE_RECORDED => "objective_recorded"
  | CONSTRAINT_RECORDED => "constraint_recorded"
  | ACCEPTANCE_CRITERION_RECORDED => "acceptance_criterion_recorded"
  | PLAN_STEP_ADDED => "plan_step_added"
  | PLAN_STEP_UPDATED => "plan_step_updated"
  | PLAN_STEP_REVISED => "plan_step_revised"
  | DISCOVERY_RECORDED => "discovery_recorded"
  | DECISION_RECORDED => "decision_recorded"
  | FILE_READ => "file_read"
  | FILE_MODIFIED => "file_modified"
  | FILE_CREATED => "file_created"
  | FILE_DELETED => "file_deleted"
  | ACTION_SUCCEEDED => "action_succeeded"
  | ACTION_FAILED => "action_failed"
  | ACTION_CANCELLED => "action_cancelled"
  | FAILURE_RESOLVED => "failure_resolved"
  | VERIFICATION_RECORDED => "verification_recorded"
  | REVIEW_RECORDED => "review_recorded"
  | CHECKPOINT_RECORDED => "checkpoint_recorded"
  | CHECKPOINT_STATUS_UPDATED => "checkpoint_status_updated"
  | ROUND_STARTED => "round_started"
  | RETRY_RECORDED => "retry_recorded"
  | REPEATED_ACTION_RECORDED => "repeated_action_recorded"
  | VERIFICATION_REPROMPT_RECORDED => "verification_reprompt_recorded"
  | BUDGET_REACHED => "budget_reached"
  | TASK_COMPLETED => "task_completed"
  | TASK_FAILED => "task_failed"
  | TASK_INTERRUPTED => "task_interrupted"
  | TASK_RESUMED => "task_resumed"
  | BUDGET_EXHAUSTED_EVENT => "budget_exhausted"
  end.

Definition terminal_value (x : TerminalStatus) : string :=
  match x with
  | RUNNING => "running" | COMPLETED => "completed" | FAILED => "failed"
  | INTERRUPTED => "interrupted" | BUDGET_EXHAUSTED => "budget_exhausted"
  end.

Definition plan_status_value (x : PlanStepStatus) : string :=
  match x with
  | PENDING => "pending" | ACTIVE => "active" | STEP_COMPLETED => "completed"
  | BLOCKED => "blocked" | SKIPPED => "skipped"
  end.

Definition action_kind_value (x : ActionKind) : string :=
  match x with MODEL => "model" | TOOL => "tool" | COMMAND => "command" end.

Definition outcome_value (x : VerificationOutcome) : string :=
  match x with NOT_RUN => "not_run" | PASSED => "passed" | VERIFICATION_FAILED => "failed" end.

#[export] Instance StateSource_eq_dec : EqDecision StateSource.
Proof. solve_decision. Defined.
#[export] Instance StateEventType_eq_dec : EqDecision StateEventType.
Proof. solve_decision. Defined.
#[export] Instance TerminalStatus_eq_dec : EqDecision TerminalStatus.
Proof. solve_decision. Defined.
#[export] Instance PlanStepStatus_eq_dec : EqDecision PlanStepStatus.
Proof. solve_decision. Defined.
#[export] Instance ActionKind_eq_dec : EqDecision ActionKind.
Proof. solve_decision. Defined.
#[export] Instance ActionStatus_eq_dec : EqDecision ActionStatus.
Proof. solve_decision. Defined.
#[export] Instance VerificationOutcome_eq_dec : EqDecision VerificationOutcome.
Proof. solve_decision. Defined.

#[export] Instance StateSource_enum : StrEnum StateSource := {|
  enum_members := [USER; HARNESS; TOOL_RUNTIME; RETRIEVAL; MODEL_SOURCE];
  enum_value := source_value;
  enum_complete := ltac:(enum_all);
  enum_distinct := ltac:(enum_nodup) |}.

#[export] Instance StateEventType_enum : StrEnum StateEventType := {|
  enum_members :=
    [TASK_STARTED; OBJECTIVE_RECORDED; CONSTRAINT_RECORDED;
     ACCEPTANCE_CRITERION_RECORDED; PLAN_STEP_ADDED; PLAN_STEP_UPDATED;
     PLAN_STEP_REVISED; DISCOVERY_RECORDED; DECISION_RECORDED; FILE_READ;
     FILE_MODIFIED; FILE_CREATED; FILE_DELETED; ACTION_SUCCEEDED;
     ACTION_FAILED; ACTION_CANCELLED; FAILURE_RESOLVED; VERIFICATION_RECORDED;
     REVIEW_RECORDED; CHECKPOINT_RECORDED; CHECKPOINT_STATUS_UPDATED;
     ROUND_STARTED; RETRY_RECORDED; REPEATED_ACTION_RECORDED;
     VERIFICATION_REPROMPT_RECORDED; BUDGET_REACHED; TASK_COMPLETED;
     TASK_FAILED; TASK_INTERRUPTED; TASK_RESUMED; BUDGET_EXHAUSTED_EVENT];
  enum_value := event_type_value;
  enum_complete := ltac:(enum_all);
  enum_distinct := ltac:(enum_nodup) |}.

#[export] Instance TerminalStatus_enum : StrEnum TerminalStatus := {|
  enum_members := [RUNNING; COMPLETED; FAILED; INTERRUPTED; BUDGET_EXHAUSTED];
  enum_value := terminal_value;
  enum_complete := ltac:(enum_all);
  enum_distinct := ltac:(enum_nodup) |}.

#[export] Instance PlanStepStatus_enum : StrEnum PlanStepStatus := {|
  enum_members := [PENDING; ACTIVE; STEP_COMPLETED; BLOCKED; SKIPPED];
  enum_value := plan_status_value;
  enum_complete := ltac:(enum_all);
  enum_distinct := ltac:(enum_nodup) |}.

#[export] Instance ActionKind_enum : StrEnum ActionKind := {|
  enum_members := [MODEL; TOOL; COMMAND];
  enum_value := action_kind_value;
  enum_complete := ltac:(enum_all);
  enum_distinct := ltac:(enum_nodup) |}.

#[export] Instance VerificationOutcome_enum : StrEnum VerificationOutcome := {|
  enum_members := [NOT_RUN; PASSED; VERIFICATION_FAILED];
  enum_value := outcome_value;
  enum_complete := ltac:(enum_all);
  enum_distinct := ltac:(enum_nodup) |}.

(** ** Typed access to an event's payload *)

Definition payload := dict string json.

Definition required_text (data : payload) (name : string) : res exn string :=
  match dict_get data name with
  | Some (JStr value) =>
      if str_true (py_strip value) then Ok (py_strip value)
      else Raise (StateTransitionError (name +:+ " must be a non-empty string"))
  | _ => Raise (StateTransitionError (name +:+ " must be a non-empty string"))
  end.

Definition optional_text (data : payload) (name : string) : res exn (option string) :=
  match dict_get data name with
  | None | Some JNull => Ok None
  | Some (JStr value) =>
      Ok (if str_true (py_strip value) then Some (py_strip value) else None)
  | Some _ => Raise (StateTransitionError (name +:+ " must be a string or null"))
  end.

(** [bool] is a subclass of [int] in the source and excluded there by hand;
    [JBool] and [JInt] are distinct here. *)
Definition required_int (data : payload) (name : string) (minimum : Z) : res exn Z :=
  let err := StateTransitionError (name +:+ " must be an integer >= " +:+ pretty minimum) in
  match dict_get data name with
  | Some (JInt value) => if (value <? minimum)%Z then Raise err else Ok value
  | _ => Raise err
  end.

Definition nonblank (j : json) : option string :=
  match j with
  | JStr s => if str_true (py_strip s) then Some s else None
  | _ => None
  end.

Definition string_tuple (data : payload) (name : string) : res exn (list string) :=
  let err := StateTransitionError (name +:+ " must be a list of non-empty strings") in
  match dict_get data name with
  | None => Ok []
  | Some (JList value) => of_option err (mapM nonblank value)
  | Some _ => Raise err
  end.

(** A value that must be null, or an integer no smaller than [minimum]. *)
Definition optional_int (data : payload) (name : string) (minimum : Z) (msg : string)
    : res exn (option Z) :=
  match dict_get data name with
  | None | Some JNull => Ok None
  | Some (JInt value) =>
      if (value <? minimum)%Z then Raise (StateTransitionError msg) else Ok (Some value)
  | Some _ => Raise (StateTransitionError msg)
  end.

(** [E(data.get(name))] for an enumeration [E]; [None] is its [ValueError]. *)
Definition enum_field {A} `{StrEnum A} (j : option json) : option A :=
  match j with Some (JStr s) => enum_of s | _ => None end.

(** ** Events *)

Record StateEvent := mk_event {
  ev_event_type : StateEventType;
  ev_task_id : string;
  ev_source : StateSource;
  ev_data : payload;
  ev_event_id : string;
  ev_timestamp : string;
  ev_monotonic_ns : Z;
}.

(** [StateEvent.__post_init__]: the field types hold by construction, and the
    JSON copy of a JSON payload is the payload, so the two identifier checks
    are what can fail. *)
Definition StateEvent_new (e : StateEvent) : res exn StateEvent :=
  do? rguard (str_true e.(ev_task_id))
        (StateTransitionError "event task_id must be a non-empty string") in
  do? rguard (str_true e.(ev_event_id))
        (StateTransitionError "event_id must be a non-empty string") in
  Ok e.

(** [StateEvent.create]; the identifier and the two clocks are the
    environment's. *)
Definition StateEvent_create (event_id timestamp : string) (monotonic_ns : Z)
    (event_type : StateEventType) (task_id : string) (source : StateSource)
    (data : payload) : res exn StateEvent :=
  StateEvent_new (mk_event event_type task_id source data event_id timestamp monotonic_ns).

Definition StateEvent_to_dict (e : StateEvent) : json :=
  JObj [("event_id", JStr e.(ev_event_id));
        ("event_type", JStr (enum_value e.(ev_event_type)));
        ("task_id", JStr e.(ev_task_id));
        ("source", JStr (enum_value e.(ev_source)));
        ("timestamp", JStr e.(ev_timestamp));
        ("monotonic_ns", JInt e.(ev_monotonic_ns));
        ("data", JObj e.(ev_data))].

(** The [SerializationError] that wraps a construction error. *)
Definition serialization_of (x : exn) : exn :=
  match x with
  | StateTransitionError m | DuplicateEventError m | SerializationError m => SerializationError m
  | ValueError | KeyError _ => SerializationError "malformed state event"
  end.

(** [raw["key"]] *)
Definition subscript (raw : payload) (key : string) : res exn json :=
  of_option (SerializationError "malformed state event") (dict_get raw key).

(** [not isinstance(value, str) or not value] as a refusal *)
Definition nonempty_str (value : json) (msg : string) : res exn string :=
  match value with
  | JStr s => if str_true s then Ok s else Raise (StateTransitionError msg)
  | _ => Raise (StateTransitionError msg)
  end.

Definition StateEvent_from_dict (value : json) : res exn StateEvent :=
  match value with
  | JObj raw =>
      let malformed := SerializationError "malformed state event" in
      let? raw_type := subscript raw "event_type" in
      let? event_type := of_option malformed (enum_field (Some raw_type)) in
      let? raw_source := subscript raw "source" in
      let? source := of_option malformed (enum_field (Some raw_source)) in
      let? task_id := subscript raw "task_id" in
      let? event_id := subscript raw "event_id" in
      let? timestamp := subscript raw "timestamp" in
      let? monotonic_ns := subscript raw "monotonic_ns" in
      let data := dict_get_default raw "data" (JObj []) in
      let? timestamp := match timestamp with
        | JStr t => do? rguard (str_true t)
                          (SerializationError "event timestamp must be a non-empty string") in Ok t
        | _ => Raise (SerializationError "event timestamp must be a non-empty string")
        end in
      let? monotonic_ns := match monotonic_ns with
        | JInt n => Ok n
        | _ => Raise (SerializationError "event monotonic_ns must be an integer")
        end in
      rmap_err serialization_of
        (let? task_id := nonempty_str task_id "event task_id must be a non-empty string" in
         let? event_id := nonempty_str event_id "event_id must be a non-empty string" in
         match data with
         | JObj data =>
             StateEvent_new (mk_event event_type task_id source data event_id
                               timestamp monotonic_ns)
         | _ => Raise (StateTransitionError "event data must be a mapping")
         end)
  | _ => Raise (SerializationError "event must be an object")
  end.

(** ** Records of the state *)

Record PlanStep := mk_plan_step {
  ps_step_id : string;
  ps_description : string;
  ps_status : PlanStepStatus;
  ps_evidence_action_ids : list string;
  ps_dependencies : list string;
  ps_completion_criteria : list string;
  ps_requires_evidence : bool;
}.

Record PlanRevision := mk_plan_revision {
  pr_step_id : string;
  pr_prior_description : string;
  pr_revised_description : string;
  pr_reason : string;
  pr_event_id : string;
  pr_timestamp : string;
}.

Record Discovery := mk_discovery {
  disc_summary : string;
  disc_file_path : option string;
  disc_symbol : option string;
  disc_action_id : option string;
}.

Record Decision := mk_decision {
  dec_summary : string;
  dec_rationale : option string;
  dec_action_id : option string;
}.

Record ActionRecord := mk_action {
  act_action_id : string;
  act_kind : ActionKind;
  act_name : string;
  act_status : ActionStatus;
  act_summary : option string;
  act_round_number : option Z;
  act_output_chars : option Z;
  act_exit_code : option Z;
  act_event_id : string;
  act_timestamp : string;
}.

Record FailureRecord := mk_failure {
  fl_failure_id : string;
  fl_action_id : option string;
  fl_category : string;
  fl_summary : string;
  fl_resolved : bool;
  fl_event_id : string;
  fl_timestamp : string;
  fl_resolved_by_event_id : option string;
}.

Record VerificationRecord := mk_verification {
  ver_verification_id : string;
  ver_kind : string;
  ver_executed : bool;
  ver_outcome : VerificationOutcome;
  ver_action_id : option string;
  ver_summary : option string;
  ver_event_id : string;
  ver_timestamp : string;
  ver_category : string;
  ver_coverage : string;
  ver_mutation_generation : Z;
  ver_result_reference : option string;
  ver_command : option string;
  ver_project_bench : bool;
}.

Record ReviewRecord := mk_review {
  rv_review_id : string;
  rv_mutation_generation : Z;
  rv_verdict : string;
  rv_blocking_count : Z;
  rv_evidence_reference : option string;
  rv_event_id : string;
  rv_timestamp : string;
}.

Record WorkingState := mk_state {
  ws_task_id : string;
  ws_objective : string;
  ws_user_constraints : list string;
  ws_acceptance_criteria : list string;
  ws_plan_steps : dict string PlanStep;
  ws_plan_revisions : list PlanRevision;
  ws_discoveries : list Discovery;
  ws_decisions : list Decision;
  ws_files_read : gset string;
  ws_modified_files : gset string;
  ws_created_files : gset string;
  ws_deleted_files : gset string;
  ws_actions : list ActionRecord;
  ws_failures : dict string FailureRecord;
  ws_verifications : list VerificationRecord;
  ws_reviews : list ReviewRecord;
  ws_current_round : Z;
  ws_model_rounds : Z;
  ws_tool_actions : Z;
  ws_command_actions : Z;
  ws_tool_budget_used : Z;
  ws_max_model_rounds : option Z;
  ws_max_tool_actions : option Z;
  ws_retry_count : Z;
  ws_repeated_action_count : Z;
  ws_verification_reprompt_count : Z;
  ws_mutation_generation : Z;
  ws_mutation_action_ids : gset string;
  ws_checkpoint_id : option string;
  ws_checkpoint_status : option string;
  ws_budget_reached : bool;
  ws_terminal_status : TerminalStatus;
  ws_outcome_summary : option string;
  ws_started : bool;
  ws_events : list StateEvent;
  ws_applied_event_ids : gset string;
}.

#[export] Instance eta_PlanStep : Eta PlanStep := λ r,
  mk_plan_step r.(ps_step_id) r.(ps_description) r.(ps_status) r.(ps_evidence_action_ids)
    r.(ps_dependencies) r.(ps_completion_criteria) r.(ps_requires_evidence).

#[export] Instance eta_FailureRecord : Eta FailureRecord := λ r,
  mk_failure r.(fl_failure_id) r.(fl_action_id) r.(fl_category) r.(fl_summary) r.(fl_resolved)
    r.(fl_event_id) r.(fl_timestamp) r.(fl_resolved_by_event_id).

#[export] Instance eta_WorkingState : Eta WorkingState := λ r,
  mk_state r.(ws_task_id) r.(ws_objective) r.(ws_user_constraints) r.(ws_acceptance_criteria)
    r.(ws_plan_steps) r.(ws_plan_revisions) r.(ws_discoveries) r.(ws_decisions)
    r.(ws_files_read) r.(ws_modified_files) r.(ws_created_files) r.(ws_deleted_files)
    r.(ws_actions) r.(ws_failures) r.(ws_verifications) r.(ws_reviews)
    r.(ws_current_round) r.(ws_model_rounds) r.(ws_tool_actions) r.(ws_command_actions)
    r.(ws_tool_budget_used) r.(ws_max_model_rounds) r.(ws_max_tool_actions)
    r.(ws_retry_count) r.(ws_repeated_action_count) r.(ws_verification_reprompt_count)
    r.(ws_mutation_generation) r.(ws_mutation_action_ids) r.(ws_checkpoint_id)
    r.(ws_checkpoint_status) r.(ws_budget_reached) r.(ws_terminal_status)
    r.(ws_outcome_summary) r.(ws_started) r.(ws_events) r.(ws_applied_event_ids).

(** [WorkingState(task_id)]: every field at its default. *)
Definition WorkingState_new (task_id : string) : WorkingState :=
  mk_state task_id "" [] [] [] [] [] [] ∅ ∅ ∅ ∅ [] [] [] [] 0 0 0 0 0 None None
    0 0 0 0 ∅ None None false RUNNING None false [] ∅.

(** [WorkingState.__post_init__] *)
Definition WorkingState_init (task_id : string) : res exn WorkingState :=
  do? rguard (str_true task_id) (StateTransitionError "task_id must be a non-empty string") in
  Ok (WorkingState_new task_id).

(** ** Which sources may assert which facts *)

Definition GROUNDED_FILE_SOURCES : list StateSource := [TOOL_RUNTIME].
Definition GROUNDED_FACT_SOURCES : list StateSource := [HARNESS; TOOL_RUNTIME; RETRIEVAL].
Definition GROUNDED_ACTION_SOURCES : list StateSource := [HARNESS; TOOL_RUNTIME].
Definition GROUNDED_VERIFICATION_SOURCES : list StateSource := [HARNESS; TOOL_RUNTIME].

(** ** Derived properties *)

Definition steps_with (status : PlanStepStatus) (s : WorkingState) : list PlanStep :=
  filter (λ p, p.(ps_status) = status) (dict_values s.(ws_plan_steps)).

Definition completed_steps : WorkingState → list PlanStep := steps_with STEP_COMPLETED.
Definition pending_steps : WorkingState → list PlanStep := steps_with PENDING.
Definition blocked_steps : WorkingState → list PlanStep := steps_with BLOCKED.
Definition current_step (s : WorkingState) : option PlanStep := head (steps_with ACTIVE s).

Definition unresolved_failures (s : WorkingState) : list FailureRecord :=
  filter (λ f, f.(fl_resolved) = false) (dict_values s.(ws_failures)).

Definition current_verifications (s : WorkingState) : list VerificationRecord :=
  filter (λ v, v.(ver_mutation_generation) = s.(ws_mutation_generation) ∧
               v.(ver_coverage) ≠ "none") s.(ws_verifications).

Definition verification_outcome (s : WorkingState) : VerificationOutcome :=
  match last (current_verifications s) with
  | Some v => v.(ver_outcome)
  | None => NOT_RUN
  end.

Definition current_review (s : WorkingState) : option ReviewRecord :=
  last (filter (λ r, r.(rv_mutation_generation) = s.(ws_mutation_generation)) s.(ws_reviews)).

Definition review_accepts (r : ReviewRecord) : bool :=
  String.eqb r.(rv_verdict) "accept" && (r.(rv_blocking_count) =? 0)%Z.

Definition current_review_accepted (s : WorkingState) : bool :=
  match current_review s with Some r => review_accepts r | None => false end.

Definition relevant_files (s : WorkingState) : gset string :=
  s.(ws_files_read) ∪ s.(ws_modified_files) ∪ s.(ws_created_files) ∪ s.(ws_deleted_files)
  ∪ list_to_set (omap disc_file_path s.(ws_discoveries)).

(** ** The handlers of [_reduce] *)

Abbreviation handler := (M WorkingState exn unit).

Definition STE (msg : string) : exn := StateTransitionError msg.

Definition from_sources (sources : list StateSource) (ev : StateEvent) : bool :=
  bool_decide (ev.(ev_source) ∈ sources).

Definition reduce_task_started (ev : StateEvent) : handler :=
  let data := ev.(ev_data) in
  let* s := get in
  do* guard (negb s.(ws_started)) (STE "task has already started") in
  do* guard (from_sources [USER] ev) (STE "task definition must originate from the user") in
  let* objective := lift (required_text data "objective") in
  let* max_model_rounds := lift (optional_int data "max_model_rounds" 1
      "max_model_rounds must be null or a positive integer") in
  let* max_tool_actions := lift (optional_int data "max_tool_actions" 1
      "max_tool_actions must be null or a positive integer") in
  modify (λ s, s <| ws_objective := objective |>
                 <| ws_max_model_rounds := max_model_rounds |>
                 <| ws_max_tool_actions := max_tool_actions |>
                 <| ws_started := true |>).

Definition reduce_objective_recorded (ev : StateEvent) : handler :=
  do* guard (from_sources [USER] ev) (STE "objective updates must originate from the user") in
  let* objective := lift (required_text ev.(ev_data) "objective") in
  modify (λ s, s <| ws_objective := objective |>).

(** [if value not in l: l.append(value)] *)
Definition append_new (value : string) (l : list string) : list string :=
  if bool_decide (value ∈ l) then l else l ++ [value].

Definition reduce_constraint_recorded (ev : StateEvent) : handler :=
  do* guard (from_sources [USER] ev) (STE "constraints must originate from the user") in
  let* value := lift (required_text ev.(ev_data) "constraint") in
  modify (λ s, s <| ws_user_constraints ::= append_new value |>).

Definition reduce_acceptance_criterion_recorded (ev : StateEvent) : handler :=
  do* guard (from_sources [USER] ev) (STE "acceptance criteria must originate from the user") in
  let* value := lift (required_text ev.(ev_data) "criterion") in
  modify (λ s, s <| ws_acceptance_criteria ::= append_new value |>).

Definition reduce_plan_step_added (ev : StateEvent) : handler :=
  let data := ev.(ev_data) in
  do* guard (from_sources [USER; HARNESS] ev)
        (STE "plans must originate from the user or harness validation") in
  let* step_id := lift (required_text data "step_id") in
  let* s := get in
  do* guard (negb (dict_mem step_id s.(ws_plan_steps)))
        (STE ("plan step already exists: " +:+ step_id)) in
  let* dependencies := lift (string_tuple data "dependencies") in
  do* guard (negb (bool_decide (step_id ∈ dependencies))
             && forallb (λ item, dict_mem item s.(ws_plan_steps)) dependencies)
        (STE "plan dependencies must reference earlier steps") in
  let* criteria := lift (string_tuple data "completion_criteria") in
  let* requires_evidence := lift
    (match dict_get data "requires_evidence" with
     | None => Ok false
     | Some (JBool b) => Ok b
     | Some _ => Raise (STE "requires_evidence must be boolean")
     end) in
  let* description := lift (required_text data "description") in
  modify (λ s, s <| ws_plan_steps ::= dict_set step_id
    (mk_plan_step step_id description PENDING [] dependencies criteria requires_evidence) |>).

(** Some other step is ACTIVE. *)
Definition other_active (step_id : string) (s : WorkingState) : bool :=
  existsb (λ item, bool_decide (item.(ps_status) = ACTIVE)
                   && negb (String.eqb item.(ps_step_id) step_id))
    (dict_values s.(ws_plan_steps)).

Definition reduce_plan_step_revised (ev : StateEvent) : handler :=
  let data := ev.(ev_data) in
  do* guard (from_sources [HARNESS] ev)
        (STE "plan revisions must originate from orchestration") in
  let* step_id := lift (required_text data "step_id") in
  let* s := get in
  let* step := lift (of_option (STE ("unknown plan step: " +:+ step_id))
                       (dict_get s.(ws_plan_steps) step_id)) in
  let* description := lift (required_text data "description") in
  let* reason := lift (required_text data "reason") in
  let* status := lift (of_option ValueError
    (enum_field (Some (dict_get_default data "status" (JStr (enum_value PENDING)))))) in
  do* guard (bool_decide (status ∈ [PENDING; ACTIVE; BLOCKED; SKIPPED]))
        (STE "revised plan step cannot remain completed") in
  do* guard (negb (bool_decide (status = ACTIVE) && other_active step_id s))
        (STE "only one plan step may be active") in
  do* modify (λ s, s <| ws_plan_revisions ::= λ l, l ++
        [mk_plan_revision step_id step.(ps_description) description reason
           ev.(ev_event_id) ev.(ev_timestamp)] |>) in
  modify (λ s, s <| ws_plan_steps ::= dict_set step_id
    (step <| ps_description := description |> <| ps_status := status |>
          <| ps_evidence_action_ids := [] |>) |>).

(** The statuses each status may move to in [_update_plan_step]. *)
Definition allowed_transitions (status : PlanStepStatus) : list PlanStepStatus :=
  match status with
  | PENDING => [ACTIVE; BLOCKED; SKIPPED]
  | ACTIVE => [STEP_COMPLETED; BLOCKED; SKIPPED]
  | BLOCKED => [ACTIVE; SKIPPED]
  | STEP_COMPLETED => []
  | SKIPPED => []
  end.

(** [any(self.plan_steps[item].status not in {COMPLETED, SKIPPED} ...)]: a
    missing step is a [KeyError], and the scan stops at the first hit. *)
Fixpoint dependencies_incomplete (steps : dict string PlanStep) (deps : list string)
    : res exn bool :=
  match deps with
  | [] => Ok false
  | item :: deps' =>
      match dict_get steps item with
      | None => Raise (KeyError item)
      | Some p =>
          if bool_decide (p.(ps_status) ∈ [STEP_COMPLETED; SKIPPED])
          then dependencies_incomplete steps deps' else Ok true
      end
  end.

(** What can serve as completion evidence: something other than the model
    observed it. *)
Definition grounded_evidence (s : WorkingState) : list string :=
  (act_action_id <$> filter (λ a, a.(act_status) = ACTION_OK) s.(ws_actions))
  ++ omap disc_action_id s.(ws_discoveries)
  ++ (ver_verification_id <$> filter (λ v, v.(ver_outcome) = PASSED) s.(ws_verifications))
  ++ omap ver_action_id (filter (λ v, v.(ver_outcome) = PASSED) s.(ws_verifications))
  ++ (rv_review_id <$> filter (λ r, review_accepts r = true) s.(ws_reviews)).

(** A list of non-empty strings. *)
Definition nonempty_strings (j : option json) : option (list string) :=
  match j with
  | None => Some []
  | Some (JList l) =>
      mapM (λ item, match item with
                    | JStr s => if str_true s then Some s else None
                    | _ => None
                    end) l
  | Some _ => None
  end.

Definition update_plan_step (ev : StateEvent) : handler :=
  let data := ev.(ev_data) in
  do* guard (from_sources GROUNDED_FACT_SOURCES ev)
        (STE "plan progress requires grounded harness/runtime evidence") in
  let* step_id := lift (required_text data "step_id") in
  let* s := get in
  let* step := lift (of_option (STE ("unknown plan step: " +:+ step_id))
                       (dict_get s.(ws_plan_steps) step_id)) in
  let* status := lift (of_option (STE "invalid plan step status")
                         (enum_field (dict_get data "status"))) in
  do* guard (bool_decide (status ∈ allowed_transitions step.(ps_status)))
        (STE ("invalid plan transition: " +:+ enum_value step.(ps_status) +:+ " -> "
              +:+ enum_value status)) in
  do* guard (negb (bool_decide (status = ACTIVE) && other_active step_id s))
        (STE "only one plan step may be active") in
  let* evidence := lift (of_option (STE "evidence_action_ids must be a list of strings")
                           (nonempty_strings (dict_get data "evidence_action_ids"))) in
  let* incomplete := lift
    (if bool_decide (status = ACTIVE)
     then dependencies_incomplete s.(ws_plan_steps) step.(ps_dependencies) else Ok false) in
  do* guard (negb incomplete) (STE "plan step dependencies are incomplete") in
  do* lift
    (if bool_decide (status = STEP_COMPLETED) && step.(ps_requires_evidence) then
       do? rguard (negb (from_sources [MODEL_SOURCE] ev) && negb (bool_decide (evidence = [])))
             (STE "grounded plan completion requires evidence") in
       rguard (forallb (λ item, bool_decide (item ∈ grounded_evidence s)) evidence)
             (STE "plan completion references ungrounded evidence")
     else Ok tt) in
  modify (λ s, s <| ws_plan_steps ::= dict_set step_id
    (step <| ps_status := status |> <| ps_evidence_action_ids := evidence |>) |>).

Definition reduce_discovery_recorded (ev : StateEvent) : handler :=
  let data := ev.(ev_data) in
  do* guard (from_sources GROUNDED_FACT_SOURCES ev)
        (STE "discoveries require grounded harness/runtime evidence") in
  let* summary := lift (required_text data "summary") in
  let* file_path := lift (optional_text data "file_path") in
  let* symbol := lift (optional_text data "symbol") in
  let* action_id := lift (optional_text data "action_id") in
  modify (λ s, s <| ws_discoveries ::= λ l, l ++
    [mk_discovery summary file_path symbol action_id] |>).

Definition reduce_decision_recorded (ev : StateEvent) : handler :=
  let data := ev.(ev_data) in
  do* guard (from_sources [HARNESS; MODEL_SOURCE] ev)
        (STE "decisions must originate from the harness or model") in
  let* summary := lift (required_text data "summary") in
  let* rationale := lift (optional_text data "rationale") in
  let* action_id := lift (optional_text data "action_id") in
  modify (λ s, s <| ws_decisions ::= λ l, l ++ [mk_decision summary rationale action_id] |>).

Definition find_action (s : WorkingState) (action_id : string) : option ActionRecord :=
  List.find (λ item, String.eqb item.(act_action_id) action_id) s.(ws_actions).

(** The four path sets after a file event. *)
Definition place_path (event_type : StateEventType) (path : string) (s : WorkingState)
    : WorkingState :=
  match event_type with
  | FILE_READ => s <| ws_files_read ::= λ x, x ∪ {[path]} |>
  | FILE_MODIFIED => s <| ws_modified_files ::= λ x, x ∪ {[path]} |>
  | FILE_CREATED => s <| ws_created_files ::= λ x, x ∪ {[path]} |>
                      <| ws_deleted_files ::= λ x, x ∖ {[path]} |>
  | _ => s <| ws_deleted_files ::= λ x, x ∪ {[path]} |>
           <| ws_created_files ::= λ x, x ∖ {[path]} |>
           <| ws_modified_files ::= λ x, x ∖ {[path]} |>
  end.

(** The generation counts mutating actions, not mutated paths. *)
Definition advance_generation (event_type : StateEventType) (action_id : string)
    (s : WorkingState) : WorkingState :=
  if negb (bool_decide (event_type = FILE_READ))
     && negb (bool_decide (action_id ∈ s.(ws_mutation_action_ids)))
  then s <| ws_mutation_action_ids ::= λ x, x ∪ {[action_id]} |>
         <| ws_mutation_generation ::= λ g, (g + 1)%Z |>
  else s.

Definition record_file_event (ev : StateEvent) : handler :=
  do* guard (from_sources GROUNDED_FILE_SOURCES ev)
        (STE "file state requires grounded tool-runtime evidence") in
  let* path := lift (required_text ev.(ev_data) "path") in
  let* action_id := lift (required_text ev.(ev_data) "action_id") in
  let* s := get in
  let* action := lift (of_option (STE "file state must reference a recorded runtime action")
                         (find_action s action_id)) in
  do* guard (bool_decide (ev.(ev_event_type) = FILE_READ)
             || (bool_decide (action.(act_kind) = TOOL)
                 && bool_decide (action.(act_status) = ACTION_OK)))
        (STE "file mutation requires a successful grounded tool action") in
  do* modify (place_path ev.(ev_event_type) path) in
  modify (advance_generation ev.(ev_event_type) action_id).

Definition action_status_of (event_type : StateEventType) : ActionStatus :=
  match event_type with
  | ACTION_SUCCEEDED => ACTION_OK
  | ACTION_FAILED => ACTION_FAIL
  | _ => ACTION_CANCEL
  end.

Definition expected_observed (status : ActionStatus) : string :=
  match status with
  | ACTION_OK => "ok" | ACTION_FAIL => "failed" | ACTION_CANCEL => "cancelled"
  end.

(** Model turns and tool work draw on separate tallies. *)
Definition count_action (kind : ActionKind) (s : WorkingState) : WorkingState :=
  match kind with
  | MODEL => s <| ws_model_rounds ::= λ n, (n + 1)%Z |>
  | TOOL => s <| ws_tool_actions ::= λ n, (n + 1)%Z |>
              <| ws_tool_budget_used ::= λ n, (n + 1)%Z |>
  | COMMAND => s <| ws_tool_actions ::= λ n, (n + 1)%Z |>
                 <| ws_tool_budget_used ::= λ n, (n + 1)%Z |>
                 <| ws_command_actions ::= λ n, (n + 1)%Z |>
  end.

(** A new unresolved failure under its identifier. *)
Definition open_failure (failure_id : string) (action_id : option string)
    (category summary : string) (ev : StateEvent) (s : WorkingState) : WorkingState :=
  s <| ws_failures ::= dict_set failure_id
    (mk_failure failure_id action_id category summary false
       ev.(ev_event_id) ev.(ev_timestamp) None) |>.

Definition record_action (ev : StateEvent) : handler :=
  let data := ev.(ev_data) in
  do* guard (from_sources GROUNDED_ACTION_SOURCES ev)
        (STE "actions require grounded harness/runtime evidence") in
  let* action_id := lift (required_text data "action_id") in
  let* s := get in
  do* guard (negb (existsb (λ a, String.eqb a.(act_action_id) action_id) s.(ws_actions)))
        (STE ("action already recorded: " +:+ action_id)) in
  let* kind := lift (of_option (STE "invalid action kind") (enum_field (dict_get data "kind"))) in
  let status := action_status_of ev.(ev_event_type) in
  do* guard (match dict_get data "observed_status" with
             | Some (JStr o) => String.eqb o (expected_observed status)
             | _ => false
             end)
        (STE (enum_value ev.(ev_event_type) +:+ " requires observed_status='"
              +:+ expected_observed status +:+ "'")) in
  let* round_number := lift (optional_int data "round_number" 0
      "round_number must be null or a non-negative integer") in
  let* output_chars := lift (optional_int data "output_chars" 0
      "output_chars must be null or non-negative") in
  let* exit_code := lift
    (match dict_get data "exit_code" with
     | None | Some JNull => Ok None
     | Some (JInt value) => Ok (Some value)
     | Some _ => Raise (STE "exit_code must be null or an integer")
     end) in
  do* guard (negb (bool_decide (kind = COMMAND) && bool_decide (status = ACTION_OK)
                   && negb (bool_decide (exit_code ∈ [None; Some 0%Z]))))
        (STE "a nonzero command exit cannot be successful") in
  let* name := lift (required_text data "name") in
  let* summary := lift (optional_text data "summary") in
  let record := mk_action action_id kind name status summary round_number output_chars
                  exit_code ev.(ev_event_id) ev.(ev_timestamp) in
  let* failure_category := lift
    (if bool_decide (status = ACTION_FAIL)
     then let? category := optional_text data "category" in
          Ok (default "action_failed" category)
     else Ok "") in
  do* modify (λ s, s <| ws_actions ::= λ l, l ++ [record] |>) in
  do* modify (count_action kind) in
  if bool_decide (status = ACTION_FAIL) then
    let failure_id := "failure:" +:+ action_id in
    modify (open_failure failure_id (Some action_id) failure_category
              (default (name +:+ " failed") summary) ev)
  else ret tt.

Definition reduce_failure_resolved (ev : StateEvent) : handler :=
  let* failure_id := lift (required_text ev.(ev_data) "failure_id") in
  let* s := get in
  let* failure := lift (of_option (STE ("unknown failure: " +:+ failure_id))
                          (dict_get s.(ws_failures) failure_id)) in
  do* guard (negb failure.(fl_resolved))
        (STE ("failure already resolved: " +:+ failure_id)) in
  modify (λ s, s <| ws_failures ::= dict_set failure_id
    (failure <| fl_resolved := true |>
             <| fl_resolved_by_event_id := Some ev.(ev_event_id) |>) |>).

Definition record_verification (ev : StateEvent) : handler :=
  let data := ev.(ev_data) in
  do* guard (from_sources GROUNDED_VERIFICATION_SOURCES ev)
        (STE "verification requires grounded harness/runtime evidence") in
  let* executed := lift
    (match dict_get data "executed" with
     | Some (JBool b) => Ok b
     | _ => Raise (STE "verification executed must be boolean")
     end) in
  let* outcome := lift (of_option (STE "invalid verification outcome")
                          (enum_field (dict_get data "outcome"))) in
  do* guard (executed || bool_decide (outcome = NOT_RUN))
        (STE "verification that did not execute cannot pass or fail") in
  do* guard (negb (executed && bool_decide (outcome = NOT_RUN)))
        (STE "executed verification needs a pass/fail outcome") in
  let* verification_id := lift (required_text data "verification_id") in
  let* s := get in
  do* guard (negb (existsb (λ v, String.eqb v.(ver_verification_id) verification_id)
                     s.(ws_verifications)))
        (STE ("verification already recorded: " +:+ verification_id)) in
  let generation_error := STE "verification mutation_generation must be non-negative" in
  let* generation := lift
    (match dict_get data "mutation_generation" with
     | None => if (s.(ws_mutation_generation) <? 0)%Z then Raise generation_error
               else Ok s.(ws_mutation_generation)
     | Some (JInt g) => if (g <? 0)%Z then Raise generation_error else Ok g
     | Some _ => Raise generation_error
     end) in
  let* category := lift
    (let? category := optional_text data "category" in
     match category with
     | Some c => Ok c
     | None => required_text data "kind"
     end) in
  let* coverage := lift (let? c := optional_text data "coverage" in Ok (default "unknown" c)) in
  let* project_bench := lift
    (match dict_get data "project_bench" with
     | None => Ok false
     | Some (JBool b) => Ok b
     | Some _ => Raise (STE "verification project_bench must be boolean")
     end) in
  let* kind := lift (required_text data "kind") in
  let* action_id := lift (optional_text data "action_id") in
  let* summary := lift (optional_text data "summary") in
  let* result_reference := lift (optional_text data "result_reference") in
  let* command := lift (optional_text data "command") in
  do* modify (λ s, s <| ws_verifications ::= λ l, l ++
    [mk_verification verification_id kind executed outcome action_id summary
       ev.(ev_event_id) ev.(ev_timestamp) category coverage generation
       result_reference command project_bench] |>) in
  if bool_decide (outcome = VERIFICATION_FAILED) && negb (String.eqb coverage "none") then
    let failure_id := "verification:" +:+ verification_id in
    modify (open_failure failure_id action_id "verification_failed"
              (default ("verification " +:+ verification_id +:+ " failed") summary) ev)
  else ret tt.

Definition reduce_review_recorded (ev : StateEvent) : handler :=
  let data := ev.(ev_data) in
  do* guard (from_sources [HARNESS] ev) (STE "reviews must originate from orchestration") in
  let* s := get in
  let* generation := lift
    (match dict_get data "mutation_generation" with
     | Some (JInt g) =>
         if (g <? 0)%Z || (s.(ws_mutation_generation) <? g)%Z
         then Raise (STE "invalid review mutation generation") else Ok g
     | _ => Raise (STE "invalid review mutation generation")
     end) in
  let* blocking := lift
    (match dict_get data "blocking_count" with
     | Some (JInt b) => if (b <? 0)%Z then Raise (STE "invalid review blocking count") else Ok b
     | _ => Raise (STE "invalid review blocking count")
     end) in
  let* verdict := lift (required_text data "verdict") in
  do* guard (bool_decide (verdict ∈ ["accept"; "repair_required"; "blocked"]))
        (STE "invalid review verdict") in
  let* review_id := lift (required_text data "review_id") in
  do* guard (negb (existsb (λ r, String.eqb r.(rv_review_id) review_id) s.(ws_reviews)))
        (STE ("review already recorded: " +:+ review_id)) in
  do* guard (negb (String.eqb verdict "accept" && negb (blocking =? 0)%Z))
        (STE "accepted review cannot contain blockers") in
  let* evidence_reference := lift (optional_text data "evidence_reference") in
  modify (λ s, s <| ws_reviews ::= λ l, l ++
    [mk_review review_id generation verdict blocking evidence_reference
       ev.(ev_event_id) ev.(ev_timestamp)] |>).

(** The identifier is assigned before the status is read: an event without a
    status raises with the identifier already stored. *)
Definition reduce_checkpoint_recorded (ev : StateEvent) : handler :=
  do* guard (from_sources [HARNESS] ev) (STE "checkpoint state must originate from harness") in
  let* s := get in
  do* guard (bool_decide (s.(ws_checkpoint_id) = None)) (STE "task already has a checkpoint") in
  let* checkpoint_id := lift (required_text ev.(ev_data) "checkpoint_id") in
  do* modify (λ s, s <| ws_checkpoint_id := Some checkpoint_id |>) in
  let* status := lift (required_text ev.(ev_data) "status") in
  modify (λ s, s <| ws_checkpoint_status := Some status |>).

Definition reduce_checkpoint_status_updated (ev : StateEvent) : handler :=
  do* guard (from_sources [HARNESS] ev) (STE "checkpoint state must originate from harness") in
  let* checkpoint_id := lift (required_text ev.(ev_data) "checkpoint_id") in
  let* s := get in
  do* guard (bool_decide (Some checkpoint_id = s.(ws_checkpoint_id)))
        (STE "checkpoint ID does not match task") in
  let* status := lift (required_text ev.(ev_data) "status") in
  modify (λ s, s <| ws_checkpoint_status := Some status |>).

Definition reduce_round_started (ev : StateEvent) : handler :=
  let* round_number := lift (required_int ev.(ev_data) "round_number" 1) in
  let* s := get in
  do* guard (negb (round_number <=? s.(ws_current_round))%Z) (STE "round numbers must increase") in
  modify (λ s, s <| ws_current_round := round_number |>).

Definition reduce_task_resumed (ev : StateEvent) : handler :=
  let* s := get in
  do* guard (bool_decide (s.(ws_terminal_status) = INTERRUPTED))
        (STE "only an interrupted task may be resumed") in
  do* guard (from_sources [HARNESS] ev) (STE "task resume must originate from the harness") in
  modify (λ s, s <| ws_terminal_status := RUNNING |> <| ws_outcome_summary := None |>).

Definition terminal_of (event_type : StateEventType) : TerminalStatus :=
  match event_type with
  | TASK_COMPLETED => COMPLETED
  | TASK_FAILED => FAILED
  | TASK_INTERRUPTED => INTERRUPTED
  | _ => BUDGET_EXHAUSTED
  end.

Definition reduce_terminal (ev : StateEvent) : handler :=
  let* summary := lift (optional_text ev.(ev_data) "summary") in
  modify (λ s, s <| ws_terminal_status := terminal_of ev.(ev_event_type) |>
                 <| ws_outcome_summary := summary |>).

(** ** Dispatch, [apply], replay *)

Definition reduce (ev : StateEvent) : handler :=
  match ev.(ev_event_type) with
  | TASK_STARTED => reduce_task_started ev
  | OBJECTIVE_RECORDED => reduce_objective_recorded ev
  | CONSTRAINT_RECORDED => reduce_constraint_recorded ev
  | ACCEPTANCE_CRITERION_RECORDED => reduce_acceptance_criterion_recorded ev
  | PLAN_STEP_ADDED => reduce_plan_step_added ev
  | PLAN_STEP_UPDATED => update_plan_step ev
  | PLAN_STEP_REVISED => reduce_plan_step_revised ev
  | DISCOVERY_RECORDED => reduce_discovery_recorded ev
  | DECISION_RECORDED => reduce_decision_recorded ev
  | FILE_READ | FILE_MODIFIED | FILE_CREATED | FILE_DELETED => record_file_event ev
  | ACTION_SUCCEEDED | ACTION_FAILED | ACTION_CANCELLED => record_action ev
  | FAILURE_RESOLVED => reduce_failure_resolved ev
  | VERIFICATION_RECORDED => record_verification ev
  | REVIEW_RECORDED => reduce_review_recorded ev
  | CHECKPOINT_RECORDED => reduce_checkpoint_recorded ev
  | CHECKPOINT_STATUS_UPDATED => reduce_checkpoint_status_updated ev
  | ROUND_STARTED => reduce_round_started ev
  | RETRY_RECORDED => modify (λ s, s <| ws_retry_count ::= λ n, (n + 1)%Z |>)
  | REPEATED_ACTION_RECORDED => modify (λ s, s <| ws_repeated_action_count ::= λ n, (n + 1)%Z |>)
  | VERIFICATION_REPROMPT_RECORDED =>
      modify (λ s, s <| ws_verification_reprompt_count ::= λ n, (n + 1)%Z |>)
  | BUDGET_REACHED => modify (λ s, s <| ws_budget_reached := true |>)
  | TASK_RESUMED => reduce_task_resumed ev
  | TASK_COMPLETED | TASK_FAILED | TASK_INTERRUPTED | BUDGET_EXHAUSTED_EVENT =>
      reduce_terminal ev
  end.

(** The log entry of an accepted event. *)
Definition record_event (ev : StateEvent) (s : WorkingState) : WorkingState :=
  s <| ws_events ::= λ l, l ++ [ev] |>
    <| ws_applied_event_ids ::= λ x, x ∪ {[ev.(ev_event_id)]} |>.

Definition apply (ev : StateEvent) : handler :=
  let* s := get in
  do* guard (String.eqb ev.(ev_task_id) s.(ws_task_id))
        (STE "event task_id does not match WorkingState") in
  do* guard (negb (bool_decide (ev.(ev_event_id) ∈ s.(ws_applied_event_ids))))
        (DuplicateEventError ("duplicate state event: " +:+ ev.(ev_event_id))) in
  do* guard (negb (negb (bool_decide (s.(ws_terminal_status) = RUNNING))
                   && negb (bool_decide (ev.(ev_event_type) ∈ [FAILURE_RESOLVED; TASK_RESUMED]))))
        (STE ("cannot apply " +:+ enum_value ev.(ev_event_type) +:+ " after "
              +:+ enum_value s.(ws_terminal_status))) in
  do* reduce ev in
  modify (record_event ev).

(** [replay_state] *)
Definition replay_state (task_id : string) (events : list StateEvent) : WorkingState * res exn unit :=
  match WorkingState_init task_id with
  | Raise e => (WorkingState_new task_id, Raise e)
  | Ok s => for_each events apply s
  end.

(** [WorkingState.start] *)
Definition WorkingState_start (event_id timestamp : string) (monotonic_ns : Z)
    (task_id objective : string) (max_model_rounds max_tool_actions : option Z)
    : res exn WorkingState :=
  let opt n := match n with Some z => JInt z | None => JNull end in
  let? s := WorkingState_init task_id in
  let? ev := StateEvent_create event_id timestamp monotonic_ns TASK_STARTED task_id USER
    [("objective", JStr objective); ("max_model_rounds", opt max_model_rounds);
     ("max_tool_actions", opt max_tool_actions)] in
  match apply ev s with
  | (s', Ok _) => Ok s'
  | (_, Raise e) => Raise e
  end.

(** ** Persistence: only the event log is stored *)

Definition SCHEMA_VERSION : Z := 1.

Definition WorkingState_to_dict (s : WorkingState) : json :=
  JObj [("schema_version", JInt SCHEMA_VERSION);
        ("task_id", JStr s.(ws_task_id));
        ("events", JList (StateEvent_to_dict <$> s.(ws_events)))].

(** The [except] clause of [from_dict]: a [SerializationError] passes, a
    [ValueError] is wrapped, anything else escapes. *)
Definition restore_error (x : exn) : exn :=
  match x with
  | SerializationError m => SerializationError m
  | StateTransitionError m | DuplicateEventError m =>
      SerializationError ("could not restore working state: " +:+ m)
  | ValueError => SerializationError "could not restore working state"
  | KeyError k => KeyError k
  end.

Definition WorkingState_from_dict (value : json) : res exn WorkingState :=
  match value with
  | JObj raw =>
      do? rguard (match dict_get raw "schema_version" with
                  | Some (JInt v) => (v =? SCHEMA_VERSION)%Z
                  | _ => false
                  end) (SerializationError "unsupported working state schema") in
      let? task_id := match dict_get raw "task_id" with
        | Some (JStr t) =>
            if str_true t then Ok t
            else Raise (SerializationError "working state task_id must be a non-empty string")
        | _ => Raise (SerializationError "working state task_id must be a non-empty string")
        end in
      let? events := match dict_get raw "events" with
        | Some (JList l) => Ok l
        | _ => Raise (SerializationError "working state events must be an array")
        end in
      let? s := WorkingState_init task_id in
      match for_each events (λ raw_event,
              let* ev := lift (StateEvent_from_dict raw_event) in apply ev) s with
      | (s', Ok _) => Ok s'
      | (_, Raise e) => Raise (restore_error e)
      end
  | _ => Raise (SerializationError "working state must be an object")
  end.
