(* ===== verification/WorkingStateSpec.v ===== *)
(** * Abstract transitions of the task state

    [event_step s ev s1] says what an accepted event does, with its payload
    already read: which sources may assert it, what must hold of the state
    and which fields change.  [apply_refines] shows that the handlers of
    [WorkingState] implement it, and [apply_rejects] what a refused event
    leaves behind.  The invariants are proved over [event_step]. *)

From S2P Require Import Prelude WorkingState.

Open Scope py_scope.

(** A text as [required_text] leaves it: no surrounding blanks, not empty. *)
Definition trimmed (k : string) : Prop := py_strip k = k ∧ str_true k = true.

Lemma required_text_trimmed data name v : required_text data name = Ok v → trimmed v.
Proof.
  unfold required_text. destruct (dict_get data name) as [[| | | |t| |]|]; try done.
  destruct (str_true (py_strip t)) eqn:Ht; [|done]. intros [= <-]. by split; [apply py_strip_idemp|].
Qed.

(** ** Specification *)

Inductive event_step (s : WorkingState) (ev : StateEvent) : WorkingState → Prop :=
  | step_started objective rounds actions :
      ev.(ev_event_type) = TASK_STARTED → ev.(ev_source) = USER →
      s.(ws_started) = false → objective ≠ "" →
      event_step s ev (s <| ws_objective := objective |> <| ws_max_model_rounds := rounds |>
                         <| ws_max_tool_actions := actions |> <| ws_started := true |>)
  | step_objective objective :
      ev.(ev_event_type) = OBJECTIVE_RECORDED → ev.(ev_source) = USER → objective ≠ "" →
      event_step s ev (s <| ws_objective := objective |>)
  | step_constraint value :
      ev.(ev_event_type) = CONSTRAINT_RECORDED → ev.(ev_source) = USER →
      event_step s ev (s <| ws_user_constraints ::= append_new value |>)
  | step_criterion value :
      ev.(ev_event_type) = ACCEPTANCE_CRITERION_RECORDED → ev.(ev_source) = USER →
      event_step s ev (s <| ws_acceptance_criteria ::= append_new value |>)
  | step_plan_added p :
      ev.(ev_event_type) = PLAN_STEP_ADDED → ev.(ev_source) ∈ [USER; HARNESS] →
      p.(ps_step_id) ∉ dict_keys s.(ws_plan_steps) →
      (∀ d, d ∈ p.(ps_dependencies) → d ∈ dict_keys s.(ws_plan_steps)) →
      p.(ps_status) = PENDING → p.(ps_evidence_action_ids) = [] → trimmed p.(ps_step_id) →
      event_step s ev (s <| ws_plan_steps ::= dict_set p.(ps_step_id) p |>)
  | step_plan_updated id p status evidence :
      ev.(ev_event_type) = PLAN_STEP_UPDATED → ev.(ev_source) ∈ GROUNDED_FACT_SOURCES →
      dict_get s.(ws_plan_steps) id = Some p →
      status ∈ allowed_transitions p.(ps_status) →
      (status = ACTIVE → other_active id s = false ∧
         dependencies_incomplete s.(ws_plan_steps) p.(ps_dependencies) = Ok false) →
      (status = STEP_COMPLETED → p.(ps_requires_evidence) = true →
         evidence ≠ [] ∧ evidence ⊆ grounded_evidence s) →
      event_step s ev (s <| ws_plan_steps ::= dict_set id
        (p <| ps_status := status |> <| ps_evidence_action_ids := evidence |>) |>)
  | step_plan_revised id p status description rev :
      ev.(ev_event_type) = PLAN_STEP_REVISED → ev.(ev_source) = HARNESS →
      dict_get s.(ws_plan_steps) id = Some p →
      status ≠ STEP_COMPLETED →
      (status = ACTIVE → other_active id s = false) →
      event_step s ev
        (s <| ws_plan_revisions ::= λ l, l ++ [rev] |>
           <| ws_plan_steps ::= dict_set id
             (p <| ps_description := description |> <| ps_status := status |>
                <| ps_evidence_action_ids := [] |>) |>)
  | step_discovery d :
      ev.(ev_event_type) = DISCOVERY_RECORDED → ev.(ev_source) ∈ GROUNDED_FACT_SOURCES →
      event_step s ev (s <| ws_discoveries ::= λ l, l ++ [d] |>)
  | step_decision d :
      ev.(ev_event_type) = DECISION_RECORDED → ev.(ev_source) ∈ [HARNESS; MODEL_SOURCE] →
      event_step s ev (s <| ws_decisions ::= λ l, l ++ [d] |>)
  | step_file path a :
      ev.(ev_event_type) ∈ [FILE_READ; FILE_MODIFIED; FILE_CREATED; FILE_DELETED] →
      ev.(ev_source) = TOOL_RUNTIME → a ∈ s.(ws_actions) →
      (ev.(ev_event_type) ≠ FILE_READ → a.(act_kind) = TOOL ∧ a.(act_status) = ACTION_OK) →
      event_step s ev (advance_generation ev.(ev_event_type) a.(act_action_id)
                         (place_path ev.(ev_event_type) path s))
  | step_action a category summary :
      ev.(ev_event_type) ∈ [ACTION_SUCCEEDED; ACTION_FAILED; ACTION_CANCELLED] →
      ev.(ev_source) ∈ GROUNDED_ACTION_SOURCES →
      a.(act_action_id) ∉ (act_action_id <$> s.(ws_actions)) →
      a.(act_status) = action_status_of ev.(ev_event_type) →
      (a.(act_kind) = COMMAND → a.(act_status) = ACTION_OK →
         a.(act_exit_code) = None ∨ a.(act_exit_code) = Some 0%Z) →
      event_step s ev
        (let s1 := count_action a.(act_kind) (s <| ws_actions ::= λ l, l ++ [a] |>) in
         if bool_decide (a.(act_status) = ACTION_FAIL)
         then open_failure ("failure:" +:+ a.(act_action_id)) (Some a.(act_action_id))
                category summary ev s1
         else s1)
  | step_failure_resolved id f :
      ev.(ev_event_type) = FAILURE_RESOLVED →
      dict_get s.(ws_failures) id = Some f → f.(fl_resolved) = false →
      event_step s ev (s <| ws_failures ::= dict_set id
        (f <| fl_resolved := true |> <| fl_resolved_by_event_id := Some ev.(ev_event_id) |>) |>)
  | step_verification v summary :
      ev.(ev_event_type) = VERIFICATION_RECORDED →
      ev.(ev_source) ∈ GROUNDED_VERIFICATION_SOURCES →
      v.(ver_verification_id) ∉ (ver_verification_id <$> s.(ws_verifications)) →
      (v.(ver_executed) = false ↔ v.(ver_outcome) = NOT_RUN) →
      event_step s ev
        (let s1 := s <| ws_verifications ::= λ l, l ++ [v] |> in
         if bool_decide (v.(ver_outcome) = VERIFICATION_FAILED)
            && negb (String.eqb v.(ver_coverage) "none")
         then open_failure ("verification:" +:+ v.(ver_verification_id)) v.(ver_action_id)
                "verification_failed" summary ev s1
         else s1)
  | step_review r :
      ev.(ev_event_type) = REVIEW_RECORDED → ev.(ev_source) = HARNESS →
      r.(rv_review_id) ∉ (rv_review_id <$> s.(ws_reviews)) →
      (0 ≤ r.(rv_mutation_generation) ≤ s.(ws_mutation_generation))%Z →
      (r.(rv_verdict) = "accept" → r.(rv_blocking_count) = 0%Z) →
      event_step s ev (s <| ws_reviews ::= λ l, l ++ [r] |>)
  | step_checkpoint id status :
      ev.(ev_event_type) = CHECKPOINT_RECORDED → ev.(ev_source) = HARNESS →
      s.(ws_checkpoint_id) = None →
      event_step s ev (s <| ws_checkpoint_id := Some id |> <| ws_checkpoint_status := Some status |>)
  | step_checkpoint_status status :
      ev.(ev_event_type) = CHECKPOINT_STATUS_UPDATED → ev.(ev_source) = HARNESS →
      is_Some s.(ws_checkpoint_id) →
      event_step s ev (s <| ws_checkpoint_status := Some status |>)
  | step_round n :
      ev.(ev_event_type) = ROUND_STARTED → (s.(ws_current_round) < n)%Z →
      event_step s ev (s <| ws_current_round := n |>)
  | step_retry :
      ev.(ev_event_type) = RETRY_RECORDED →
      event_step s ev (s <| ws_retry_count ::= λ n, (n + 1)%Z |>)
  | step_repeated :
      ev.(ev_event_type) = REPEATED_ACTION_RECORDED →
      event_step s ev (s <| ws_repeated_action_count ::= λ n, (n + 1)%Z |>)
  | step_reprompt :
      ev.(ev_event_type) = VERIFICATION_REPROMPT_RECORDED →
      event_step s ev (s <| ws_verification_reprompt_count ::= λ n, (n + 1)%Z |>)
  | step_budget_reached :
      ev.(ev_event_type) = BUDGET_REACHED →
      event_step s ev (s <| ws_budget_reached := true |>)
  | step_resumed :
      ev.(ev_event_type) = TASK_RESUMED → ev.(ev_source) = HARNESS →
      s.(ws_terminal_status) = INTERRUPTED →
      event_step s ev (s <| ws_terminal_status := RUNNING |> <| ws_outcome_summary := None |>)
  | step_terminal summary :
      ev.(ev_event_type) ∈ [TASK_COMPLETED; TASK_FAILED; TASK_INTERRUPTED; BUDGET_EXHAUSTED_EVENT] →
      event_step s ev (s <| ws_terminal_status := terminal_of ev.(ev_event_type) |>
                         <| ws_outcome_summary := summary |>).

(** When [apply] lets an event through to its handler. *)
Definition admissible (s : WorkingState) (ev : StateEvent) : Prop :=
  ev.(ev_task_id) = s.(ws_task_id) ∧
  (ev.(ev_event_id) ∉ s.(ws_applied_event_ids)) ∧
  (s.(ws_terminal_status) = RUNNING ∨
   ev.(ev_event_type) ∈ [FAILURE_RESOLVED; TASK_RESUMED]).

(** ** Reading the payload *)

Lemma required_text_Ok data name v : required_text data name = Ok v → v ≠ "".
Proof.
  unfold required_text. intros Hv. repeat case_match; try done.
  injection Hv as <-. by apply str_true_spec.
Qed.

Lemma from_sources_true sources ev : from_sources sources ev = true ↔ ev.(ev_source) ∈ sources.
Proof. unfold from_sources. by rewrite bool_decide_eq_true. Qed.

Lemma from_sources_one src ev : from_sources [src] ev = true → ev.(ev_source) = src.
Proof. by intros ?%from_sources_true%list_elem_of_singleton. Qed.

(** [existsb] over identifiers, as the source's [any(item.id == x ...)]. *)
Lemma existsb_id_false {A} (f : A → string) (l : list A) x :
  existsb (λ a, String.eqb (f a) x) l = false → x ∉ (f <$> l).
Proof.
  intros He Hin. apply list_elem_of_fmap in Hin as (a & -> & Ha%list_elem_of_In).
  assert (existsb (λ a', String.eqb (f a') (f a)) l = true) as Ht; [|congruence].
  apply existsb_exists. exists a. split; [done|apply String.eqb_refl].
Qed.

Lemma find_action_Some s id a :
  find_action s id = Some a → a ∈ s.(ws_actions) ∧ a.(act_action_id) = id.
Proof.
  intros [Ha He]%List.find_some. split; [by apply list_elem_of_In|by apply String.eqb_eq].
Qed.

(** ** Each handler implements its transition *)

(** Turn the guards met on the way into the premises of a transition. *)
Ltac step_facts :=
  minv; bools;
  repeat match goal with
  | H : from_sources [_] _ = true |- _ => apply from_sources_one in H
  | H : from_sources _ _ = true |- _ => apply from_sources_true in H
  | H : existsb _ _ = false |- _ => apply existsb_id_false in H
  | H : required_text _ _ = Ok ?a |- _ =>
      lazymatch goal with
      | _ : a ≠ "" |- _ => fail
      | _ => pose proof (required_text_Ok _ _ _ H)
      end
  end.

Section handlers.
  Context (ev : StateEvent) (s s' : WorkingState) (u : unit).

Lemma task_started_step :
    ev.(ev_event_type) = TASK_STARTED →
    reduce_task_started ev s = (s', Ok u) → event_step s ev s'.
Proof. intros Ht H. unfold reduce_task_started in H. step_facts. by apply step_started. Qed.

Lemma objective_step :
    ev.(ev_event_type) = OBJECTIVE_RECORDED →
    reduce_objective_recorded ev s = (s', Ok u) → event_step s ev s'.
Proof. intros Ht H. unfold reduce_objective_recorded in H. step_facts. by apply step_objective. Qed.

Lemma constraint_step :
    ev.(ev_event_type) = CONSTRAINT_RECORDED →
    reduce_constraint_recorded ev s = (s', Ok u) → event_step s ev s'.
Proof. intros Ht H. unfold reduce_constraint_recorded in H. step_facts. by apply step_constraint. Qed.

Lemma criterion_step :
    ev.(ev_event_type) = ACCEPTANCE_CRITERION_RECORDED →
    reduce_acceptance_criterion_recorded ev s = (s', Ok u) → event_step s ev s'.
Proof.
  intros Ht H. unfold reduce_acceptance_criterion_recorded in H. step_facts.
  by apply step_criterion.
Qed.

Lemma plan_added_step :
    ev.(ev_event_type) = PLAN_STEP_ADDED →
    reduce_plan_step_added ev s = (s', Ok u) → event_step s ev s'.
Proof.
  intros Ht H. unfold reduce_plan_step_added in H. step_facts.
  match goal with |- event_step _ _ (set_field _ (dict_set _ ?p) _) =>
    apply (step_plan_added s ev p) end; cbn; try done.
  - match goal with H : forallb _ _ = true |- _ => rewrite forallb_elem_of in H end.
    intros d Hd. apply dict_mem_true; auto.
  - match goal with H : required_text _ "step_id" = Ok _ |- _ => by apply required_text_trimmed in H end.
Qed.

Lemma plan_updated_step :
    ev.(ev_event_type) = PLAN_STEP_UPDATED →
    update_plan_step ev s = (s', Ok u) → event_step s ev s'.
Proof.
  intros Ht H. unfold update_plan_step in H. step_facts.
  eapply step_plan_updated; try done.
  - intros ->. rewrite bool_decide_true in * by done. cbn in *.
    split; [done|congruence].
  - intros -> Hreq. rewrite Hreq in *. rewrite (bool_decide_true (STEP_COMPLETED = _)) in * by done.
    cbn in *. step_facts. split; [done|]. intros x Hx.
    match goal with H : forallb _ _ = true |- _ => rewrite forallb_elem_of in H; specialize (H x Hx) end.
    by bools.
Qed.

Lemma plan_revised_step :
    ev.(ev_event_type) = PLAN_STEP_REVISED →
    reduce_plan_step_revised ev s = (s', Ok u) → event_step s ev s'.
Proof.
  intros Ht H. unfold reduce_plan_step_revised in H. step_facts.
  eapply step_plan_revised; try done.
  - intros ->. set_solver.
  - intros ->. by rewrite bool_decide_true in * by done.
Qed.

Lemma discovery_step :
    ev.(ev_event_type) = DISCOVERY_RECORDED →
    reduce_discovery_recorded ev s = (s', Ok u) → event_step s ev s'.
Proof. intros Ht H. unfold reduce_discovery_recorded in H. step_facts. by apply step_discovery. Qed.

Lemma decision_step :
    ev.(ev_event_type) = DECISION_RECORDED →
    reduce_decision_recorded ev s = (s', Ok u) → event_step s ev s'.
Proof. intros Ht H. unfold reduce_decision_recorded in H. step_facts. by apply step_decision. Qed.

Lemma file_step :
    ev.(ev_event_type) ∈ [FILE_READ; FILE_MODIFIED; FILE_CREATED; FILE_DELETED] →
    record_file_event ev s = (s', Ok u) → event_step s ev s'.
Proof.
  intros Ht H. unfold record_file_event, GROUNDED_FILE_SOURCES in H. step_facts.
  match goal with H : find_action _ _ = Some _ |- _ => apply find_action_Some in H as [? <-] end.
  eapply step_file; try done. intros Hr.
  match goal with H : _ || _ = true |- _ => rewrite bool_decide_false in H by done; cbn in H end.
  by bools.
Qed.

Lemma action_step :
    ev.(ev_event_type) ∈ [ACTION_SUCCEEDED; ACTION_FAILED; ACTION_CANCELLED] →
    record_action ev s = (s', Ok u) → event_step s ev s'.
Proof.
  intros Ht H. unfold record_action in H. step_facts.
  match goal with H : bool_decide (_ = COMMAND) && _ && _ = false |- _ => rename H into Hexit end.
  lazymatch type of H with
  | (if _ then modify (open_failure _ _ ?c ?m _) else _) (count_action _ (set_field _ ?f _)) = _ =>
      lazymatch eval cbv beta in (f []) with
      | _ ++ [?a] => pose proof (step_action s ev a c m) as Hstep
      end
  end.
  cbn [act_action_id act_status act_kind act_exit_code] in Hstep.
  case_bool_decide; minv; apply Hstep; try done; intros -> Hok;
    rewrite !bool_decide_true in Hexit by done; cbn in Hexit; bools; set_solver.
Qed.

Lemma failure_resolved_step :
    ev.(ev_event_type) = FAILURE_RESOLVED →
    reduce_failure_resolved ev s = (s', Ok u) → event_step s ev s'.
Proof.
  intros Ht H. unfold reduce_failure_resolved in H. step_facts. by apply step_failure_resolved.
Qed.

Lemma verification_step :
    ev.(ev_event_type) = VERIFICATION_RECORDED →
    record_verification ev s = (s', Ok u) → event_step s ev s'.
Proof.
  intros Ht H. unfold record_verification in H. step_facts.
  lazymatch type of H with
  | (if _ then modify (open_failure _ _ _ ?m _) else _) (set_field _ ?f _) = _ =>
      lazymatch eval cbv beta in (f []) with
      | _ ++ [?v] => pose proof (step_verification s ev v m) as Hstep
      end
  end.
  cbn [ver_verification_id ver_outcome ver_coverage ver_action_id ver_executed] in Hstep.
  match goal with H : ?e || bool_decide (?o = NOT_RUN) = true, H' : ?e && _ = false |- _ =>
    assert (e = false ↔ o = NOT_RUN) as Hrun by (destruct e; cbn in *; bools; naive_solver) end.
  match type of H with (if ?c then _ else _) _ = _ => destruct c end; minv; by apply Hstep.
Qed.

Lemma review_step :
    ev.(ev_event_type) = REVIEW_RECORDED →
    reduce_review_recorded ev s = (s', Ok u) → event_step s ev s'.
Proof.
  intros Ht H. unfold reduce_review_recorded in H. step_facts.
  apply step_review; cbn; try done.
  - repeat case_match; try done. minv; subst. bools. lia.
  - intros ->. cbn in *. bools. lia.
Qed.

Lemma checkpoint_step :
    ev.(ev_event_type) = CHECKPOINT_RECORDED →
    reduce_checkpoint_recorded ev s = (s', Ok u) → event_step s ev s'.
Proof.
  intros Ht H. unfold reduce_checkpoint_recorded in H. step_facts. by apply step_checkpoint.
Qed.

Lemma checkpoint_status_step :
    ev.(ev_event_type) = CHECKPOINT_STATUS_UPDATED →
    reduce_checkpoint_status_updated ev s = (s', Ok u) → event_step s ev s'.
Proof.
  intros Ht H. unfold reduce_checkpoint_status_updated in H. step_facts.
  by apply step_checkpoint_status.
Qed.

Lemma round_step :
    ev.(ev_event_type) = ROUND_STARTED →
    reduce_round_started ev s = (s', Ok u) → event_step s ev s'.
Proof.
  intros Ht H. unfold reduce_round_started in H. step_facts. apply step_round; [done|lia].
Qed.

Lemma resumed_step :
    ev.(ev_event_type) = TASK_RESUMED →
    reduce_task_resumed ev s = (s', Ok u) → event_step s ev s'.
Proof. intros Ht H. unfold reduce_task_resumed in H. step_facts. by apply step_resumed. Qed.

Lemma terminal_step :
    ev.(ev_event_type) ∈ [TASK_COMPLETED; TASK_FAILED; TASK_INTERRUPTED; BUDGET_EXHAUSTED_EVENT] →
    reduce_terminal ev s = (s', Ok u) → event_step s ev s'.
Proof. intros Ht H. unfold reduce_terminal in H. step_facts. by apply step_terminal. Qed.

End handlers.

Lemma reduce_step ev s s' u : reduce ev s = (s', Ok u) → event_step s ev s'.
Proof.
  unfold reduce. intros H. destruct (ev_event_type ev) eqn:Ht; minv;
    eauto using task_started_step, objective_step, constraint_step, criterion_step,
      plan_added_step, plan_updated_step, plan_revised_step, discovery_step, decision_step,
      failure_resolved_step, verification_step, review_step, checkpoint_step,
      checkpoint_status_step, round_step, resumed_step,
      step_retry, step_repeated, step_reprompt, step_budget_reached;
    first [ eapply file_step; [|exact H] | eapply action_step; [|exact H]
          | eapply terminal_step; [|exact H] ]; rewrite Ht; set_solver.
Qed.
(** ** [apply] *)

Lemma apply_Ok ev s s' u :
  apply ev s = (s', Ok u) →
  admissible s ev ∧ ∃ s1, reduce ev s = (s1, Ok tt) ∧ s' = record_event ev s1.
Proof.
  unfold apply. intros H. minv. bools. split.
  - unfold admissible. split; [by apply String.eqb_eq|]. split; [done|].
    match goal with H : _ && _ = false |- _ => apply andb_false_iff in H as [?|?] end; bools; auto.
  - match goal with H : reduce _ _ = (_, Ok ?x) |- _ => destruct x end. eauto.
Qed.

(** The guards of [apply] are exactly [admissible]. *)
Lemma apply_admissible ev s :
  admissible s ev →
  apply ev s = match reduce ev s with
               | (s1, Ok _) => (record_event ev s1, Ok tt)
               | (s1, Raise e) => (s1, Raise e)
               end.
Proof.
  intros (Ht & Hid & Hrun). unfold apply, guard, lift, bind, get, rguard.
  rewrite (proj2 (String.eqb_eq _ _) Ht), bool_decide_false by done. cbn.
  assert (negb (bool_decide (ws_terminal_status s = RUNNING)) &&
    negb (bool_decide (ev_event_type ev ∈ [FAILURE_RESOLVED; TASK_RESUMED])) = false) as ->.
  { destruct Hrun; [rewrite bool_decide_true by done; done|].
    by rewrite andb_comm, bool_decide_true. }
  cbn. by destruct (reduce ev s) as [s1 [[]|e]].
Qed.

(** An event refused before its handler runs leaves the state alone. *)
Lemma apply_inadmissible ev s : ¬ admissible s ev → ∃ e, apply ev s = (s, Raise e).
Proof.
  intros Hna. destruct (apply ev s) as [s' [u|e]] eqn:Ha.
  { by apply apply_Ok in Ha as [? _]. }
  unfold apply, guard, lift, bind, get, rguard in Ha.
  repeat (case_match; simplify_eq/=; eauto); bools; exfalso; apply Hna.
  all: split; [by apply String.eqb_eq|]; split; [done|].
  all: match goal with H : _ && _ = false |- _ => apply andb_false_iff in H as [?|?] end; bools; auto.
Qed.
