(* ===== verification/WorkingStateFacts.v ===== *)
(** * Correctness of the task state

    The invariant [wf] of every task state, kept by accepted and refused
    events alike; what a refused event may leave behind; the lifecycle of a
    task and of its plan; what the model alone can never assert; and the
    reconstruction of a state from its persisted event log. *)

From S2P Require Import Prelude WorkingState WorkingStateSpec.

Open Scope py_scope.

(** ** The invariant *)

(** Every step sits under its own identifier, which has no surrounding
    blanks, depends only on steps added before it, and at most one step is
    ACTIVE. *)
Record plan_wf (steps : dict string PlanStep) : Prop := {
  plan_nodup : NoDup (dict_keys steps);
  plan_keyed : ∀ k p, dict_get steps k = Some p → p.(ps_step_id) = k;
  plan_acyclic : ∀ i k p d, steps !! i = Some (k, p) → d ∈ p.(ps_dependencies) →
    ∃ j, j < i ∧ dict_keys steps !! j = Some d;
  plan_one_active : ∀ k k' p p', dict_get steps k = Some p → dict_get steps k' = Some p' →
    p.(ps_status) = ACTIVE → p'.(ps_status) = ACTIVE → k = k';
  plan_trimmed : ∀ k, k ∈ dict_keys steps → trimmed k;
}.

(** A completed step that needed evidence names some, all of it observed. *)
Definition evidence_wf (s : WorkingState) : Prop :=
  ∀ k p, dict_get s.(ws_plan_steps) k = Some p →
    p.(ps_status) = STEP_COMPLETED → p.(ps_requires_evidence) = true →
    p.(ps_evidence_action_ids) ≠ [] ∧ p.(ps_evidence_action_ids) ⊆ grounded_evidence s.

(** How many recorded actions are of a kind satisfying [f]. *)
Definition count_kind (f : ActionKind → bool) (l : list ActionRecord) : Z :=
  Z.of_nat (length (List.filter (λ a, f a.(act_kind)) l)).

Definition is_model (k : ActionKind) : bool := match k with MODEL => true | _ => false end.
Definition is_command (k : ActionKind) : bool := match k with COMMAND => true | _ => false end.

(** The four tallies are the counts of the action log. *)
Record tally_wf (s : WorkingState) : Prop := {
  tally_model : s.(ws_model_rounds) = count_kind is_model s.(ws_actions);
  tally_tool : s.(ws_tool_actions) = count_kind (λ k, negb (is_model k)) s.(ws_actions);
  tally_budget : s.(ws_tool_budget_used) = s.(ws_tool_actions);
  tally_command : s.(ws_command_actions) = count_kind is_command s.(ws_actions);
}.

Record mutation_wf (s : WorkingState) : Prop := {
  mutation_count : s.(ws_mutation_generation) = Z.of_nat (size s.(ws_mutation_action_ids));
  mutation_grounded : ∀ id, id ∈ s.(ws_mutation_action_ids) →
    ∃ a, a ∈ s.(ws_actions) ∧ a.(act_action_id) = id ∧
         a.(act_kind) = TOOL ∧ a.(act_status) = ACTION_OK;
}.

(** No failure is lost: every failed action, and every failed verification
    with coverage, has its record, under its own identifier. *)
Record failure_wf (s : WorkingState) : Prop := {
  failure_keyed : ∀ k f, dict_get s.(ws_failures) k = Some f → f.(fl_failure_id) = k;
  failure_action : ∀ a, a ∈ s.(ws_actions) → a.(act_status) = ACTION_FAIL →
    "failure:" +:+ a.(act_action_id) ∈ dict_keys s.(ws_failures);
  failure_verification : ∀ v, v ∈ s.(ws_verifications) →
    v.(ver_outcome) = VERIFICATION_FAILED → v.(ver_coverage) ≠ "none" →
    "verification:" +:+ v.(ver_verification_id) ∈ dict_keys s.(ws_failures);
  failure_resolution : ∀ k f, dict_get s.(ws_failures) k = Some f →
    (f.(fl_resolved) = true ↔ is_Some f.(fl_resolved_by_event_id));
}.

Record log_wf (s : WorkingState) : Prop := {
  log_ids : s.(ws_applied_event_ids) = list_to_set (ev_event_id <$> s.(ws_events));
  log_nodup : NoDup (ev_event_id <$> s.(ws_events));
  log_task : ∀ e, e ∈ s.(ws_events) → e.(ev_task_id) = s.(ws_task_id);
}.

Record wf (s : WorkingState) : Prop := {
  wf_plan : plan_wf s.(ws_plan_steps);
  wf_evidence : evidence_wf s;
  wf_actions : NoDup (act_action_id <$> s.(ws_actions));
  wf_verifications : NoDup (ver_verification_id <$> s.(ws_verifications));
  wf_executed : ∀ v, v ∈ s.(ws_verifications) →
    (v.(ver_executed) = false ↔ v.(ver_outcome) = NOT_RUN);
  wf_reviews : NoDup (rv_review_id <$> s.(ws_reviews));
  wf_review_generation : ∀ r, r ∈ s.(ws_reviews) →
    (0 ≤ r.(rv_mutation_generation) ≤ s.(ws_mutation_generation))%Z ∧
    (r.(rv_verdict) = "accept" → r.(rv_blocking_count) = 0%Z);
  wf_tally : tally_wf s;
  wf_mutation : mutation_wf s;
  wf_failures : failure_wf s;
  wf_files : s.(ws_created_files) ## s.(ws_deleted_files);
  wf_log : log_wf s;
}.

(** One accepted event, and any attempt at one. *)
Definition accepted (s s' : WorkingState) : Prop := ∃ ev u, apply ev s = (s', Ok u).
Definition attempted (s s' : WorkingState) : Prop := ∃ ev r, apply ev s = (s', r).

(** The states an application can hold: anything [apply] leaves, whether it
    returned or raised. *)
Definition reachable (task_id : string) (s : WorkingState) : Prop :=
  rtc attempted (WorkingState_new task_id) s.

(** ** The plan *)

Lemma plan_wf_add steps p :
  plan_wf steps → p.(ps_step_id) ∉ dict_keys steps →
  (∀ d, d ∈ p.(ps_dependencies) → d ∈ dict_keys steps) → p.(ps_status) = PENDING →
  trimmed p.(ps_step_id) →
  plan_wf (dict_set p.(ps_step_id) p steps).
Proof.
  intros [Hnd Hk Hac Hone Htr] Hnew Hdeps Hst Hid. split.
  - by apply NoDup_dict_set.
  - intros k q. rewrite dict_get_set. case_decide; naive_solver.
  - intros i k q d. rewrite dict_set_new by done.
    unfold dict_keys in *. rewrite map_app. intros [Hi|[Hi Hq]]%lookup_app_Some Hd.
    + destruct (Hac _ _ _ _ Hi Hd) as (j & Hj & Hlk). exists j. split; [done|].
      by apply lookup_app_l_Some.
    + destruct (i - length steps) eqn:Hz; cbn in Hq; [|done]. simplify_eq.
      apply Hdeps, list_elem_of_lookup in Hd as [j Hj]. exists j.
      pose proof (lookup_lt_Some _ _ _ Hj). rewrite length_map in *.
      split; [lia|by apply lookup_app_l_Some].
  - intros k k' q q'. rewrite !dict_get_set. repeat case_decide; intros; simplify_eq; eauto; congruence.
  - intros k [->|Hin]%dict_keys_set; auto.
Qed.

Lemma plan_wf_update steps k p p' :
  plan_wf steps → dict_get steps k = Some p →
  p'.(ps_step_id) = p.(ps_step_id) → p'.(ps_dependencies) = p.(ps_dependencies) →
  (p'.(ps_status) = ACTIVE →
    ∀ k' q, dict_get steps k' = Some q → q.(ps_status) = ACTIVE → k' = k) →
  plan_wf (dict_set k p' steps).
Proof.
  intros [Hnd Hk Hac Hone Htr] Hp Hid Hdeps Hact.
  assert (k ∈ dict_keys steps) as Hin by (apply dict_get_is_Some; eauto). split.
  - by apply NoDup_dict_set.
  - intros k' q. rewrite dict_get_set. case_decide; [|by apply Hk]. intros [= ->]. subst.
    rewrite Hid. by apply Hk.
  - intros i k' q d Hi Hd. rewrite dict_keys_set_old by done.
    apply dict_set_lookup in Hi as [Hi|(-> & -> & p0 & Hi & Hp0)]; [|simplify_eq|done].
    + eauto.
    + rewrite Hdeps in Hd. eauto.
  - intros k1 k2 q1 q2. rewrite !dict_get_set. repeat case_decide; intros; simplify_eq; eauto.
    symmetry. eauto.
  - intros k'. rewrite dict_keys_set_old by done. apply Htr.
Qed.

(** The active test of the code, on a keyed plan. *)
Lemma other_active_false s k k' q :
  plan_wf s.(ws_plan_steps) → other_active k s = false →
  dict_get s.(ws_plan_steps) k' = Some q → q.(ps_status) = ACTIVE → k' = k.
Proof.
  intros Hwf Hno Hq Hact. destruct (decide (k' = k)) as [|Hne]; [done|exfalso].
  assert (other_active k s = true); [|congruence].
  apply existsb_exists. exists q. split.
  - apply list_elem_of_In. apply dict_get_elem in Hq.
    unfold dict_values. apply list_elem_of_In, in_map_iff. exists (k', q).
    split; [done|by apply list_elem_of_In].
  - rewrite Hact, bool_decide_true by done. rewrite (plan_keyed _ Hwf _ _ Hq). cbn.
    by rewrite negb_true_iff, String.eqb_neq.
Qed.

Lemma plan_step s ev s' :
  plan_wf s.(ws_plan_steps) → event_step s ev s' → plan_wf s'.(ws_plan_steps).
Proof.
  intros Hwf Hstep. destruct Hstep; try exact Hwf; cbn.
  - by apply plan_wf_add.
  - eapply plan_wf_update; [done..|]. cbn. intros ->. intros. eapply other_active_false; naive_solver.
  - eapply plan_wf_update; [done..|]. cbn. intros ->. intros. eapply other_active_false; naive_solver.
  - unfold advance_generation, place_path. by destruct ev.(ev_event_type); case_match.
  - by case_bool_decide; destruct a.(act_kind).
  - by case_match.
Qed.

(** ** Records are only ever appended *)

(** The four record lists evidence is drawn from grow at the end. *)
Record records_extend (s s' : WorkingState) : Prop := {
  extend_actions : ws_actions s `prefix_of` ws_actions s';
  extend_discoveries : ws_discoveries s `prefix_of` ws_discoveries s';
  extend_verifications : ws_verifications s `prefix_of` ws_verifications s';
  extend_reviews : ws_reviews s `prefix_of` ws_reviews s';
}.

Lemma records_extend_step s ev s' : event_step s ev s' → records_extend s s'.
Proof.
  intros Hstep. destruct Hstep; cbn;
    try (split; cbn; first [reflexivity | by apply prefix_app_r]).
  - unfold advance_generation, place_path.
    by destruct ev.(ev_event_type); case_match; split.
  - case_bool_decide; destruct a.(act_kind); split; cbn; first [reflexivity | by apply prefix_app_r].
  - case_match; split; cbn; first [reflexivity | by apply prefix_app_r].
Qed.

Lemma filter_prefix {A} (P : A → Prop) `{∀ x, base.Decision (P x)} l l' x :
  l `prefix_of` l' → x ∈ filter P l → x ∈ filter P l'.
Proof. intros [k ->]. rewrite filter_app, elem_of_app. by left. Qed.

Lemma omap_prefix {A B} (f : A → option B) l l' x :
  l `prefix_of` l' → x ∈ omap f l → x ∈ omap f l'.
Proof. intros [k ->]. rewrite omap_app, elem_of_app. by left. Qed.

(** Evidence once observed stays observed. *)
Lemma grounded_mono s s' : records_extend s s' → grounded_evidence s ⊆ grounded_evidence s'.
Proof.
  intros [Ha Hd Hv Hr] x. unfold grounded_evidence. rewrite !elem_of_app.
  intros [Hx|[Hx|[Hx|[Hx|Hx]]]].
  - left. apply list_elem_of_fmap in Hx as (a & -> & Hx).
    apply list_elem_of_fmap_2. by eapply filter_prefix.
  - right; left. by eapply omap_prefix.
  - do 2 right; left. apply list_elem_of_fmap in Hx as (a & -> & Hx).
    apply list_elem_of_fmap_2. by eapply filter_prefix.
  - do 3 right; left. apply list_elem_of_omap in Hx as (v & Hx & Hv').
    apply list_elem_of_omap. exists v. split; [by eapply filter_prefix|done].
  - do 4 right. apply list_elem_of_fmap in Hx as (a & -> & Hx).
    apply list_elem_of_fmap_2. by eapply filter_prefix.
Qed.

Lemma evidence_mono s s' :
  records_extend s s' → ws_plan_steps s' = ws_plan_steps s → evidence_wf s → evidence_wf s'.
Proof.
  intros Hext Heq Hwf k p Hp Hc Hr. rewrite Heq in Hp. destruct (Hwf k p Hp Hc Hr) as [? Hsub].
  split; [done|]. etrans; [exact Hsub|]. by apply grounded_mono.
Qed.

Lemma evidence_step s ev s' : evidence_wf s → event_step s ev s' → evidence_wf s'.
Proof.
  intros Hwf Hstep. pose proof (records_extend_step _ _ _ Hstep) as Hext.
  destruct Hstep; try (by apply (evidence_mono s)).
  - intros k q. cbn. rewrite dict_get_set. case_decide; [|by apply Hwf].
    intros [= <-]. congruence.
  - intros k q. cbn. rewrite dict_get_set. case_decide; [|by apply Hwf].
    intros [= <-]. cbn. auto.
  - intros k q. cbn. rewrite dict_get_set. case_decide; [|by apply Hwf].
    intros [= <-]. cbn. congruence.
  - apply (evidence_mono s); [done| |done]. unfold advance_generation, place_path.
    by destruct ev.(ev_event_type); case_match.
  - apply (evidence_mono s); [done| |done]. cbn. by case_bool_decide; destruct a.(act_kind).
  - apply (evidence_mono s); [done| |done]. cbn. by case_match.
Qed.

(** ** Identifiers, tallies, generations *)

Lemma NoDup_fmap_snoc {A} (f : A → string) l a :
  NoDup (f <$> l) → f a ∉ (f <$> l) → NoDup (f <$> (l ++ [a])).
Proof.
  intros Hnd Hna. rewrite fmap_app. apply NoDup_app. split; [done|].
  split; [|apply NoDup_singleton]. by intros x Hx ->%list_elem_of_singleton.
Qed.

Lemma count_kind_snoc f l a :
  count_kind f (l ++ [a]) = (count_kind f l + if f a.(act_kind) then 1 else 0)%Z.
Proof.
  unfold count_kind. rewrite List.filter_app, length_app. cbn.
  destruct (f (act_kind a)); cbn; lia.
Qed.

(** The fields of [s] that an event of another kind leaves alone: used to
    close the cases of a step that do not touch what a lemma is about. *)
Ltac step_cases H :=
  destruct H; cbn;
  try match goal with
  | |- context [advance_generation (ev_event_type ?ev)] =>
      unfold advance_generation, place_path; destruct (ev_event_type ev) eqn:?; case_match; cbn
  | |- context [count_action (act_kind ?a)] =>
      destruct (act_kind a) eqn:?; case_bool_decide; cbn
  | |- context [open_failure] => case_match; cbn
  end.

Lemma actions_step s ev s' :
  NoDup (act_action_id <$> ws_actions s) → event_step s ev s' →
  NoDup (act_action_id <$> ws_actions s').
Proof. intros Hnd H. step_cases H; first [exact Hnd | by apply NoDup_fmap_snoc]. Qed.

Lemma verifications_step s ev s' :
  NoDup (ver_verification_id <$> ws_verifications s) → event_step s ev s' →
  NoDup (ver_verification_id <$> ws_verifications s').
Proof. intros Hnd H. step_cases H; first [exact Hnd | by apply NoDup_fmap_snoc]. Qed.

Lemma reviews_step s ev s' :
  NoDup (rv_review_id <$> ws_reviews s) → event_step s ev s' →
  NoDup (rv_review_id <$> ws_reviews s').
Proof. intros Hnd H. step_cases H; first [exact Hnd | by apply NoDup_fmap_snoc]. Qed.

Lemma tally_step s ev s' : tally_wf s → event_step s ev s' → tally_wf s'.
Proof.
  intros [Hm Ht Hb Hc] H.
  step_cases H; split; cbn; rewrite ?count_kind_snoc; cbn;
    repeat match goal with E : act_kind _ = _ |- _ => rewrite E; clear E end; cbn; lia.
Qed.

Lemma mutation_frame s s' :
  mutation_wf s → ws_mutation_generation s' = ws_mutation_generation s →
  ws_mutation_action_ids s' = ws_mutation_action_ids s →
  (∀ a, a ∈ ws_actions s → a ∈ ws_actions s') → mutation_wf s'.
Proof.
  intros [Hc Hg] Hgen Hids Hact. split; rewrite ?Hgen, ?Hids; [done|].
  intros id Hid. destruct (Hg id Hid) as (a & ? & ? & ? & ?). eauto 10.
Qed.

Lemma mutation_step s ev s' : mutation_wf s → event_step s ev s' → mutation_wf s'.
Proof.
  intros Hwf H. pose proof (records_extend_step _ _ _ H) as [[k Hk] _ _ _].
  assert (∀ a, a ∈ ws_actions s → a ∈ ws_actions s') as Hact by (rewrite Hk; set_solver).
  destruct H; try (by apply (mutation_frame s)).
  - unfold advance_generation. case_match.
    + bools. destruct Hwf as [Hc Hg]. split; cbn.
      * assert (∀ x, ws_mutation_generation (place_path x path s) = ws_mutation_generation s ∧
          ws_mutation_action_ids (place_path x path s) = ws_mutation_action_ids s) as Hf
          by by intros [].
        destruct (Hf (ev_event_type ev)) as [Hf1 Hf2]. rewrite Hf1, Hf2 in *.
        rewrite size_union, size_singleton by set_solver. lia.
      * assert (∀ x, ws_actions (place_path x path s) = ws_actions s ∧
          ws_mutation_action_ids (place_path x path s) = ws_mutation_action_ids s) as Hf
          by by intros [].
        destruct (Hf (ev_event_type ev)) as [Hf1 Hf2]. rewrite Hf1, Hf2 in *.
        intros id [Hid| ->%elem_of_singleton]%elem_of_union; [by apply Hg|].
        exists a. naive_solver.
    + apply (mutation_frame s); [done|..]; by destruct (ev_event_type ev).
  - apply (mutation_frame s); [done| | |done];
      cbn; by case_bool_decide; destruct (act_kind a).
  - apply (mutation_frame s); [done| | |done]; cbn; by case_match.
Qed.

(** Opening a failure keeps every failure already recorded. *)
Lemma failure_open s id aid cat summ ev :
  failure_wf s → failure_wf (open_failure id aid cat summ ev s).
Proof.
  intros [Hk Ha Hv Hr]. split; cbn.
  - intros k f. rewrite dict_get_set. case_decide; [by intros [= <-]|apply Hk].
  - intros a Hin Hf. apply dict_keys_set. right. by apply Ha.
  - intros v Hin Hf Hc. apply dict_keys_set. right. by apply Hv.
  - intros k f. rewrite dict_get_set. case_decide; [|by apply Hr].
    intros [= <-]. cbn. split; [done|by intros []].
Qed.

Lemma failure_frame s s' :
  failure_wf s → ws_failures s' = ws_failures s → ws_actions s' = ws_actions s →
  ws_verifications s' = ws_verifications s → failure_wf s'.
Proof. intros [Hk Ha Hv Hr] E1 E2 E3. by split; rewrite ?E1, ?E2, ?E3. Qed.

Lemma failure_step s ev s' : failure_wf s → event_step s ev s' → failure_wf s'.
Proof.
  intros Hwf H. destruct H; try (by apply (failure_frame s)).
  - apply (failure_frame s); [done|..]; unfold advance_generation, place_path;
      by destruct (ev_event_type ev); case_match.
  - cbn. set (s1 := count_action _ _).
    assert (ws_failures s1 = ws_failures s ∧ ws_actions s1 = ws_actions s ++ [a] ∧
            ws_verifications s1 = ws_verifications s) as (E1 & E2 & E3)
      by (subst s1; by destruct (act_kind a)).
    case_bool_decide as Hf.
    + destruct Hwf as [Hk Ha Hv Hr]. split; cbn; rewrite ?E1, ?E2, ?E3.
      * intros k f. rewrite dict_get_set. case_decide; [by intros [= <-]|apply Hk].
      * intros b. rewrite elem_of_app, list_elem_of_singleton, dict_keys_set. naive_solver.
      * intros v ???. rewrite dict_keys_set. auto.
      * intros k f. rewrite dict_get_set. case_decide; [|apply Hr].
        intros [= <-]. cbn. split; [done|by intros []].
    + destruct Hwf as [Hk Ha Hv Hr]. split; rewrite ?E1, ?E2, ?E3; try done.
      intros b. rewrite elem_of_app, list_elem_of_singleton. naive_solver.
  - destruct Hwf as [Hk Ha Hv Hr]. split; cbn.
    + intros k f'. rewrite dict_get_set. case_decide; [|apply Hk].
      intros [= <-]. cbn. subst. by apply Hk.
    + intros. rewrite dict_keys_set. auto.
    + intros. rewrite dict_keys_set. auto.
    + intros k f'. rewrite dict_get_set. case_decide; [|apply Hr]. intros [= <-]. cbn. naive_solver.
  - destruct Hwf as [Hk Ha Hv Hr].
    destruct (bool_decide (ver_outcome v = VERIFICATION_FAILED) &&
              negb (String.eqb (ver_coverage v) "none")) eqn:Hf; split; cbn; try done.
    + clear Hf. intros k f'. rewrite dict_get_set. case_decide; [by intros [= <-]|apply Hk].
    + intros. rewrite dict_keys_set. auto.
    + intros w. rewrite elem_of_app, list_elem_of_singleton, dict_keys_set. naive_solver.
    + clear Hf. intros k f'. rewrite dict_get_set. case_decide; [|apply Hr].
      intros [= <-]. cbn. split; [done|by intros []].
    + intros w. rewrite elem_of_app, list_elem_of_singleton. intros [?| ->] ??; [auto|exfalso].
      rewrite bool_decide_true in Hf by done. cbn in Hf. bools.
      match goal with H : String.eqb _ _ = true |- _ => by apply String.eqb_eq in H end.
Qed.

Lemma review_generation_step s ev s' :
  (∀ r, r ∈ s.(ws_reviews) →
    (0 ≤ r.(rv_mutation_generation) ≤ s.(ws_mutation_generation))%Z ∧
    (r.(rv_verdict) = "accept" → r.(rv_blocking_count) = 0%Z)) →
  event_step s ev s' →
  ∀ r, r ∈ s'.(ws_reviews) →
    (0 ≤ r.(rv_mutation_generation) ≤ s'.(ws_mutation_generation))%Z ∧
    (r.(rv_verdict) = "accept" → r.(rv_blocking_count) = 0%Z).
Proof.
  intros Hwf H. step_cases H; try exact Hwf;
    try (intros r' Hr'; destruct (Hwf r' Hr'); split; [lia|done]).
  intros r'. rewrite elem_of_app, list_elem_of_singleton. intros [?| ->]; [by apply Hwf|done].
Qed.

Lemma executed_step s ev s' :
  (∀ v, v ∈ s.(ws_verifications) → (v.(ver_executed) = false ↔ v.(ver_outcome) = NOT_RUN)) →
  event_step s ev s' →
  ∀ v, v ∈ s'.(ws_verifications) → (v.(ver_executed) = false ↔ v.(ver_outcome) = NOT_RUN).
Proof.
  intros Hwf H. step_cases H; try exact Hwf;
    intros w; rewrite elem_of_app, list_elem_of_singleton; (intros [?| ->]; [by apply Hwf|done]).
Qed.

Lemma files_step s ev s' :
  s.(ws_created_files) ## s.(ws_deleted_files) → event_step s ev s' →
  s'.(ws_created_files) ## s'.(ws_deleted_files).
Proof. intros Hwf H. step_cases H; first [exact Hwf | set_solver]. Qed.

(** Events leave the log and the task identifier to [apply]. *)
Lemma log_frame s ev s' :
  event_step s ev s' →
  ws_events s' = ws_events s ∧ ws_applied_event_ids s' = ws_applied_event_ids s ∧
  ws_task_id s' = ws_task_id s.
Proof. intros H. by step_cases H. Qed.

Lemma log_record s ev s1 :
  log_wf s → admissible s ev → event_step s ev s1 → log_wf (record_event ev s1).
Proof.
  intros [Hids Hnd Ht] (Htask & Hnew & _) H. apply log_frame in H as (E1 & E2 & E3).
  unfold record_event. split; cbn; rewrite ?E1, ?E2, ?E3.
  - rewrite fmap_app, list_to_set_app_L, Hids. set_solver.
  - apply NoDup_fmap_snoc; [done|]. rewrite Hids in Hnew. by rewrite elem_of_list_to_set in Hnew.
  - intros e. rewrite elem_of_app, list_elem_of_singleton. intros [?| ->]; [by apply Ht|done].
Qed.

(** ** The invariant holds initially and is kept *)

Lemma wf_new task_id : wf (WorkingState_new task_id).
Proof.
  split; cbn; try done; try apply NoDup_nil_2; try (by intros ? ?%elem_of_nil).
  - split; cbn; try done; [apply NoDup_nil_2|by intros ? ?%elem_of_nil].
  - split; cbn; try done; by intros ? ?%elem_of_nil.
  - split; cbn; [done|apply NoDup_nil_2|by intros ? ?%elem_of_nil].
Qed.

Lemma wf_record s ev s1 :
  wf s → admissible s ev → event_step s ev s1 → wf (record_event ev s1).
Proof.
  intros Hw Had Hs. split.
  - exact (plan_step s ev s1 (wf_plan s Hw) Hs).
  - exact (evidence_step s ev s1 (wf_evidence s Hw) Hs).
  - exact (actions_step s ev s1 (wf_actions s Hw) Hs).
  - exact (verifications_step s ev s1 (wf_verifications s Hw) Hs).
  - exact (executed_step s ev s1 (wf_executed s Hw) Hs).
  - exact (reviews_step s ev s1 (wf_reviews s Hw) Hs).
  - exact (review_generation_step s ev s1 (wf_review_generation s Hw) Hs).
  - destruct (tally_step s ev s1 (wf_tally s Hw) Hs). by split.
  - destruct (mutation_step s ev s1 (wf_mutation s Hw) Hs). by split.
  - destruct (failure_step s ev s1 (wf_failures s Hw) Hs). by split.
  - exact (files_step s ev s1 (wf_files s Hw) Hs).
  - exact (log_record s ev s1 (wf_log s Hw) Had Hs).
Qed.

Lemma apply_step ev s s' u :
  apply ev s = (s', Ok u) →
  admissible s ev ∧ ∃ s1, event_step s ev s1 ∧ s' = record_event ev s1.
Proof. intros [? (s1 & ?%reduce_step & ->)]%apply_Ok. eauto. Qed.

(** ** Refused events *)

Lemma reduce_atomic ev : ev.(ev_event_type) ≠ CHECKPOINT_RECORDED → Atomic (reduce ev).
Proof.
  intros Hne. unfold reduce. destruct (ev_event_type ev); try done;
    unfold reduce_task_started, reduce_objective_recorded, reduce_constraint_recorded,
      reduce_acceptance_criterion_recorded, reduce_plan_step_added, update_plan_step,
      reduce_plan_step_revised, reduce_discovery_recorded, reduce_decision_recorded,
      record_file_event, record_action, reduce_failure_resolved, record_verification,
      reduce_review_recorded, reduce_checkpoint_status_updated, reduce_round_started,
      reduce_task_resumed, reduce_terminal; cbv zeta; apply _.
Qed.

Lemma checkpoint_raise ev s s' e :
  reduce_checkpoint_recorded ev s = (s', Raise e) →
  s' = s ∨ (s.(ws_checkpoint_id) = None ∧ ∃ id, s' = s <| ws_checkpoint_id := Some id |>).
Proof.
  unfold reduce_checkpoint_recorded, guard, lift, bind, get, modify, rguard. intros H.
  repeat case_match; simplify_eq; bools; eauto.
Qed.

Lemma apply_raise ev s s' e :
  apply ev s = (s', Raise e) →
  s' = s ∨ (ev.(ev_event_type) = CHECKPOINT_RECORDED ∧ s.(ws_checkpoint_id) = None ∧
            ∃ id, s' = s <| ws_checkpoint_id := Some id |>).
Proof.
  intros Ha.
  assert (Hred : s' = s ∨ reduce ev s = (s', Raise e)).
  { unfold apply in Ha. apply bind_Raise in Ha as [Ha|(s1 & s0 & H1 & Ha)]; [done|].
    unfold get in H1. injection H1 as <- <-.
    do 3 (apply bind_Raise in Ha as [Ha|(? & ? & Hg & Ha)];
          [left; by eapply guard_read_only|apply guard_Ok in Hg as [-> _]]).
    apply bind_Raise in Ha as [Ha|(? & ? & Hg & Ha)]; [by right|done]. }
  destruct Hred as [|Hr]; [by left|].
  destruct (decide (ev.(ev_event_type) = CHECKPOINT_RECORDED)) as [Hc|Hc].
  - unfold reduce in Hr. rewrite Hc in Hr. apply checkpoint_raise in Hr as [|[? ?]]; auto.
  - left. by eapply reduce_atomic.
Qed.

(** The invariant does not mention the checkpoint fields. *)
Lemma wf_checkpoint_id s id : wf s → wf (s <| ws_checkpoint_id := Some id |>).
Proof.
  intros [? ? ? ? ? ? ? [] [] [] ? []]. split; try done; by split.
Qed.

Lemma wf_attempted s s' : wf s → attempted s s' → wf s'.
Proof.
  intros Hw (ev & [u|e] & Ha).
  - apply apply_step in Ha as (Had & s1 & Hs & ->). by eapply wf_record.
  - apply apply_raise in Ha as [->|(_ & _ & id & ->)]; [done|by apply wf_checkpoint_id].
Qed.

Lemma reachable_wf_aux t s : reachable t s → wf s.
Proof.
  intros H. eapply rtc_invariant; [|exact H|apply wf_new]. apply wf_attempted.
Qed.

(** ** Internal lookups never fail *)

(** The computation never raises a [KeyError]. *)
Class NoKeyError {A} (m : M WorkingState exn A) :=
  no_key_error : ∀ s s' k, m s ≠ (s', Raise (KeyError k)).
Class NoKey {A} (r : res exn A) := no_key : ∀ k, r ≠ Raise (KeyError k).

Ltac solve_no_key :=
  intros ?; unfold required_text, optional_text, required_int, string_tuple, optional_int,
    rbind, of_option, rguard, STE;
  repeat case_match; simplify_eq; congruence.

#[local] Hint Extern 1 (NoKey _) => solve_no_key : typeclass_instances.

#[local] Instance nke_lift {A} (r : res exn A) : NoKey r → NoKeyError (lift r).
Proof. intros H s s' k. unfold lift. injection 1. intros; by eapply H. Qed.
#[local] Instance nke_guard_ste b m : NoKeyError (guard b (STE m)).
Proof. intros s s' k. unfold guard, lift, rguard. by destruct b. Qed.
#[local] Instance nke_guard_dup b m : NoKeyError (guard b (DuplicateEventError m)).
Proof. intros s s' k. unfold guard, lift, rguard. by destruct b. Qed.
#[local] Instance nke_get : NoKeyError get.
Proof. done. Qed.
#[local] Instance nke_modify f : NoKeyError (modify f).
Proof. done. Qed.
#[local] Instance nke_ret {A} (a : A) : NoKeyError (ret a).
Proof. done. Qed.
#[local] Instance nke_if {A} (b : bool) (m1 m2 : M WorkingState exn A) :
  NoKeyError m1 → NoKeyError m2 → NoKeyError (if b then m1 else m2).
Proof. by destruct b. Qed.
#[local] Instance nke_bind {A B} (m : M WorkingState exn A) (k : A → M WorkingState exn B) :
  NoKeyError m → (∀ a, NoKeyError (k a)) → NoKeyError (bind m k).
Proof.
  intros Hm Hk s s' key [H|(s1 & a & _ & H)]%bind_Raise; [by eapply Hm|by eapply Hk].
Qed.

Lemma reduce_no_key_error ev :
  ev.(ev_event_type) ≠ PLAN_STEP_UPDATED → NoKeyError (reduce ev).
Proof.
  intros Hne. unfold reduce. destruct (ev_event_type ev); try done;
    unfold reduce_task_started, reduce_objective_recorded, reduce_constraint_recorded,
      reduce_acceptance_criterion_recorded, reduce_plan_step_added,
      reduce_plan_step_revised, reduce_discovery_recorded, reduce_decision_recorded,
      record_file_event, record_action, reduce_failure_resolved, record_verification,
      reduce_review_recorded, reduce_checkpoint_recorded, reduce_checkpoint_status_updated,
      reduce_round_started, reduce_task_resumed, reduce_terminal; cbv zeta; apply _.
Qed.

Lemma dependencies_resolve steps deps k :
  (∀ d, d ∈ deps → d ∈ dict_keys steps) → dependencies_incomplete steps deps ≠ Raise (KeyError k).
Proof.
  induction deps as [|d deps IH]; cbn; [done|]. intros Hin.
  destruct (dict_get steps d) eqn:Hd.
  - case_bool_decide; [apply IH; set_solver|done].
  - apply dict_get_None in Hd. exfalso. apply Hd, Hin. set_solver.
Qed.

Lemma plan_dependencies steps k p d :
  plan_wf steps → dict_get steps k = Some p → d ∈ p.(ps_dependencies) → d ∈ dict_keys steps.
Proof.
  intros Hwf [i Hi]%dict_get_elem%list_elem_of_lookup Hd.
  destruct (plan_acyclic _ Hwf _ _ _ _ Hi Hd) as (j & _ & Hj). by eapply list_elem_of_lookup_2.
Qed.

Lemma update_no_key_error ev s s' k :
  plan_wf s.(ws_plan_steps) → update_plan_step ev s ≠ (s', Raise (KeyError k)).
Proof.
  intros Hwf H. unfold update_plan_step in H.
  repeat (apply bind_Raise in H as [H|(? & ? & ? & H)]; [by apply no_key_error in H|minv]).
  apply bind_Raise in H as [H|(? & ? & ? & H)].
  - unfold lift in H. injection H as _ H. case_bool_decide; [|done].
    eapply dependencies_resolve; [|exact H]. intros d Hd. by eapply plan_dependencies.
  - minv. by apply no_key_error in H.
Qed.

Lemma apply_no_key_error ev s s' k : wf s → apply ev s ≠ (s', Raise (KeyError k)).
Proof.
  intros Hw H. unfold apply in H.
  do 4 (apply bind_Raise in H as [H|(? & ? & ? & H)]; [by apply no_key_error in H|minv]).
  apply bind_Raise in H as [H|(? & ? & ? & H)]; [|by apply no_key_error in H].
  destruct (decide (ev.(ev_event_type) = PLAN_STEP_UPDATED)) as [Hu|Hu].
  - unfold reduce in H. rewrite Hu in H. exact (update_no_key_error _ _ _ _ (wf_plan _ Hw) H).
  - exact (reduce_no_key_error ev Hu _ _ _ H).
Qed.

(** ** The lifecycle of a task *)

Definition final (st : TerminalStatus) : Prop := st ∈ [COMPLETED; FAILED; BUDGET_EXHAUSTED].

Lemma terminal_step_effect s ev s1 :
  event_step s ev s1 → ev.(ev_event_type) = FAILURE_RESOLVED →
  ws_terminal_status s1 = ws_terminal_status s.
Proof.
  intros H Ht. destruct H; cbn; try done; try congruence;
    repeat match goal with H : ev_event_type _ ∈ _ |- _ => rewrite Ht in H; set_solver end.
Qed.

Lemma resumed_step_effect s ev s1 :
  event_step s ev s1 → ev.(ev_event_type) = TASK_RESUMED → ws_terminal_status s = INTERRUPTED.
Proof.
  intros H Ht. destruct H; cbn; try done; try congruence;
    repeat match goal with H : ev_event_type _ ∈ _ |- _ => rewrite Ht in H; set_solver end.
Qed.

(** What an attempt can do to a finished task. *)
Lemma attempted_final s s' :
  attempted s s' → final s.(ws_terminal_status) →
  ws_terminal_status s' = ws_terminal_status s ∧
  ∃ k, ws_events s' = ws_events s ++ k ∧ ∀ e, e ∈ k → e.(ev_event_type) = FAILURE_RESOLVED.
Proof.
  intros (ev & [u|e] & Ha) Hf.
  - apply apply_step in Ha as ((_ & _ & Hrun) & s1 & Hs & ->).
    assert (ev.(ev_event_type) = FAILURE_RESOLVED) as Ht.
    { destruct Hrun as [Hr|Hr]; [rewrite Hr in Hf; set_solver|].
      apply elem_of_cons in Hr as [?|Hr%list_elem_of_singleton]; [done|].
      pose proof (resumed_step_effect _ _ _ Hs Hr) as Hi. rewrite Hi in Hf. set_solver. }
    cbn. split; [exact (terminal_step_effect _ _ _ Hs Ht)|]. exists [ev].
    apply log_frame in Hs as (-> & _). split; [done|]. by intros ? ->%list_elem_of_singleton.
  - split; [|exists []; split; [|by intros ? ?%elem_of_nil]];
      apply apply_raise in Ha as [->|(_ & _ & id & ->)]; cbn; by rewrite ?app_nil_r.
Qed.
