(* ===== verification/WorkingStateProps.v ===== *)
(** * The theorems about the task state

    Refinement, invariant, rejection, lifecycle, authority and persistence
    of [client/runtime/working_state.py], each with a run of the code that
    meets its hypotheses. *)

From S2P Require Import Prelude WorkingState WorkingStateSpec WorkingStateFacts.

Open Scope py_scope.

(** ** Concrete events for the witnesses *)

Definition example_event (n : string) (ty : StateEventType) (src : StateSource)
    (data : payload) : StateEvent :=
  mk_event ty "task-1" src data n "2026-01-01T00:00:00.000+00:00" 0.

(** A state after a list of events, wherever the run stopped. *)
Definition run (events : list StateEvent) : WorkingState :=
  fst (for_each events apply (WorkingState_new "task-1")).

Definition ev_start := example_event "e1" TASK_STARTED USER [("objective", JStr " fix the parser ")].
Definition ev_write := example_event "e2" ACTION_SUCCEEDED TOOL_RUNTIME
  [("action_id", JStr "a1"); ("kind", JStr "tool"); ("observed_status", JStr "ok");
   ("name", JStr "write_file")].
Definition ev_modified := example_event "e3" FILE_MODIFIED TOOL_RUNTIME
  [("path", JStr "src/p.c"); ("action_id", JStr "a1")].
Definition ev_test := example_event "e4" VERIFICATION_RECORDED HARNESS
  [("executed", JBool true); ("outcome", JStr "passed"); ("verification_id", JStr "v1");
   ("kind", JStr "test")].
Definition ev_done := example_event "e5" TASK_COMPLETED HARNESS [].
Definition ev_step := example_event "e6" PLAN_STEP_ADDED HARNESS
  [("step_id", JStr "s1"); ("description", JStr "edit"); ("requires_evidence", JBool true)].
Definition ev_step_active := example_event "e7" PLAN_STEP_UPDATED HARNESS
  [("step_id", JStr "s1"); ("status", JStr "active")].
Definition ev_step_done := example_event "e8" PLAN_STEP_UPDATED HARNESS
  [("step_id", JStr "s1"); ("status", JStr "completed");
   ("evidence_action_ids", JList [JStr "a1"])].
Definition ev_step_revised := example_event "e9" PLAN_STEP_REVISED HARNESS
  [("step_id", JStr "s1"); ("description", JStr "edit again"); ("reason", JStr "review")].
Definition ev_no_status := example_event "e10" CHECKPOINT_RECORDED HARNESS
  [("checkpoint_id", JStr "checkpoint_1")].
Definition ev_checkpoint := example_event "e11" CHECKPOINT_RECORDED HARNESS
  [("checkpoint_id", JStr "checkpoint_1"); ("status", JStr "active")].
Definition ev_write2 := example_event "e12" ACTION_SUCCEEDED TOOL_RUNTIME
  [("action_id", JStr "a2"); ("kind", JStr "tool"); ("observed_status", JStr "ok");
   ("name", JStr "patch")].
Definition ev_modified2 := example_event "e13" FILE_MODIFIED TOOL_RUNTIME
  [("path", JStr "src/q.c"); ("action_id", JStr "a2")].
Definition ev_deleted := example_event "e14" FILE_DELETED TOOL_RUNTIME
  [("path", JStr "src/p.c"); ("action_id", JStr "a1")].
Definition ev_future_test := example_event "e15" VERIFICATION_RECORDED HARNESS
  [("executed", JBool true); ("outcome", JStr "passed"); ("verification_id", JStr "v2");
   ("kind", JStr "test"); ("mutation_generation", JInt 2)].
Definition ev_command_failed := example_event "e16" ACTION_FAILED TOOL_RUNTIME
  [("action_id", JStr "a3"); ("kind", JStr "command"); ("observed_status", JStr "failed");
   ("name", JStr "make"); ("exit_code", JInt 2)].
Definition ev_model_resolves := example_event "e17" FAILURE_RESOLVED MODEL_SOURCE
  [("failure_id", JStr "failure:a3")].

(** A persisted event needs the three texts [from_dict] insists on. *)
Definition restorable (e : StateEvent) : Prop :=
  e.(ev_task_id) ≠ "" ∧ e.(ev_event_id) ≠ "" ∧ e.(ev_timestamp) ≠ "".

(** ** Persistence *)

Lemma event_roundtrip e : restorable e → StateEvent_from_dict (StateEvent_to_dict e) = Ok e.
Proof.
  destruct e as [ty task src data id ts ns]. intros (Ht & Hid & Hts); cbn in Ht, Hid, Hts.
  apply str_true_spec in Ht, Hid, Hts.
  unfold StateEvent_to_dict, StateEvent_from_dict, subscript, dict_get_default; get_lits.
  repeat (cbn -[enum_of enum_value str_true]; rewrite ?enum_of_value, ?Ht, ?Hid, ?Hts).
  unfold StateEvent_new; cbn -[str_true]. by rewrite Ht, Hid.
Qed.

Lemma for_each_events events s :
  Forall restorable events →
  for_each (StateEvent_to_dict <$> events)
    (λ raw, let* ev := lift (StateEvent_from_dict raw) in apply ev) s
  = for_each events apply s.
Proof.
  intros Hall. revert s. induction Hall as [|e events He Hall IH]; intros s; [done|].
  rewrite fmap_cons. cbn [for_each]. unfold bind, lift. rewrite event_roundtrip by done.
  destruct (apply e s) as [s1 [u|x]]; [apply IH|done].
Qed.

(** The log of a state reached by accepted events is those events. *)
Lemma events_of_run events s s' u :
  for_each events apply s = (s', Ok u) →
  ws_events s' = ws_events s ++ events ∧ ws_task_id s' = ws_task_id s.
Proof.
  revert s. induction events as [|e events IH]; intros s H; cbn in H.
  { unfold ret in H. injection H as <- _. by rewrite app_nil_r. }
  apply bind_Ok in H as (s1 & a & H1 & H). apply IH in H as [-> ->].
  apply apply_step in H1 as (_ & s2 & Hs & ->). cbn.
  apply log_frame in Hs as (-> & _ & ->). by rewrite <- app_assoc.
Qed.

Lemma restore_run events t s u :
  t ≠ "" → Forall restorable events →
  for_each events apply (WorkingState_new t) = (s, Ok u) →
  WorkingState_from_dict (WorkingState_to_dict s) = Ok s.
Proof.
  intros Ht Hall Hrun. pose proof (events_of_run _ _ _ _ Hrun) as [Hev Htask]. cbn in Hev, Htask.
  apply str_true_spec in Ht.
  unfold WorkingState_to_dict, WorkingState_from_dict, WorkingState_init. rewrite Hev, Htask.
  get_lits. repeat (cbn -[str_true for_each]; rewrite ?Ht). by rewrite for_each_events, Hrun.
Qed.

(** ** Theorems *)

(** C1: (refinement) an accepted event is admissible (its task matches, its
    identifier is new, the task is running or the event is one of the two a
    finished task takes), its handler implements the abstract transition of
    the event's type, and the event is logged after it. *)
Theorem apply_refines ev s s' u :
  apply ev s = (s', Ok u) →
  admissible s ev ∧ ∃ s1, event_step s ev s1 ∧ s' = record_event ev s1.
Proof. apply apply_step. Qed.

Lemma apply_refines_witness :
  ∃ s1, event_step (run [ev_start; ev_write]) ev_modified s1 ∧
        run [ev_start; ev_write; ev_modified] = record_event ev_modified s1.
Proof.
  exact (proj2 (apply_refines ev_modified (run [ev_start; ev_write])
    (run [ev_start; ev_write; ev_modified]) tt ltac:(vm_compute; reflexivity))).
Defined.

(** C28: (invariant) every state an application can reach, through accepted
    and refused events in any order, is well formed: identifiers are unique,
    the plan is acyclic with at most one active step, completed steps that
    need evidence have observed evidence, the tallies count the action log,
    the mutation generation counts the mutating actions, no failure is lost,
    no path is both created and deleted, and the log is free of duplicates. *)
Theorem reachable_wf t s : reachable t s → wf s.
Proof. apply reachable_wf_aux. Qed.

Lemma run_reachable events s u :
  for_each events apply (WorkingState_new "task-1") = (s, Ok u) → reachable "task-1" s.
Proof.
  unfold reachable. generalize (WorkingState_new "task-1").
  induction events as [|e events IH]; intros s0 H; cbn in H.
  { unfold ret in H. injection H as <- _. apply rtc_refl. }
  apply bind_Ok in H as (s1 & a & H1 & H). eapply rtc_l; [|by apply IH].
  by exists e, (Ok a).
Qed.

Lemma reachable_wf_witness :
  wf (run [ev_start; ev_write; ev_modified; ev_test; ev_step; ev_step_active; ev_step_done]).
Proof.
  refine (reachable_wf "task-1" _ (run_reachable
    [ev_start; ev_write; ev_modified; ev_test; ev_step; ev_step_active; ev_step_done] _ tt _)).
  vm_compute; reflexivity.
Defined.

(** (error atomicity) a refused event leaves the state exactly as it was,
    with one exception: a CHECKPOINT_RECORDED event of a task without a
    checkpoint can be refused after its identifier has been stored. *)
Theorem refused_event_effect ev s s' e :
  apply ev s = (s', Raise e) →
  s' = s ∨ (ev.(ev_event_type) = CHECKPOINT_RECORDED ∧ s.(ws_checkpoint_id) = None ∧
            ∃ id, s' = s <| ws_checkpoint_id := Some id |>).
Proof. apply apply_raise. Qed.

Lemma refused_event_effect_witness :
  let s := run [ev_start; ev_write] in s = s ∨ ws_checkpoint_id s = None.
Proof.
  cbv zeta. destruct (refused_event_effect ev_write (run [ev_start; ev_write])
    (run [ev_start; ev_write; ev_write])
    (DuplicateEventError "duplicate state event: e2") ltac:(vm_compute; reflexivity))
    as [?|(_ & ? & _)]; [left; reflexivity|right; assumption].
Defined.

(** The exception is real.  A CHECKPOINT_RECORDED event without a status
    is refused, the log does not hold it, and yet the state has changed: the
    state restored from the log differs, and the corrected event is refused
    because the task already has a checkpoint. *)
Theorem refused_checkpoint_is_stored :
  ∃ s s' e, reachable "task-1" s ∧
    apply ev_no_status s = (s', Raise e) ∧
    ws_events s' = ws_events s ∧ s' ≠ s ∧
    WorkingState_from_dict (WorkingState_to_dict s') = Ok s ∧
    (∃ e', apply ev_checkpoint s' = (s', Raise e')) ∧
    (∃ s2, apply ev_checkpoint s = (s2, Ok tt)).
Proof.
  exists (run [ev_start]), (run [ev_start; ev_no_status]). eexists.
  split; [eapply (run_reachable [ev_start]); vm_compute; reflexivity|].
  split; [vm_compute; reflexivity|]. split; [vm_compute; reflexivity|].
  split; [intros E%(f_equal ws_checkpoint_id); vm_compute in E; discriminate E|].
  split; [vm_compute; reflexivity|]. split; eexists; vm_compute; reflexivity.
Qed.

(** C38: (round trip) a state built by accepting events, each with the
    identifiers and timestamp persistence requires, is restored exactly from
    its stored form. *)
Theorem restore_roundtrip events t s u :
  t ≠ "" → Forall restorable events →
  for_each events apply (WorkingState_new t) = (s, Ok u) →
  WorkingState_from_dict (WorkingState_to_dict s) = Ok s.
Proof. apply restore_run. Qed.

Lemma restore_roundtrip_witness :
  let s := run [ev_start; ev_write; ev_modified; ev_test] in
  WorkingState_from_dict (WorkingState_to_dict s) = Ok s.
Proof.
  cbv zeta. refine (restore_roundtrip [ev_start; ev_write; ev_modified; ev_test] "task-1" _ tt
    _ _ _); [discriminate| |vm_compute; reflexivity].
  repeat constructor; discriminate.
Defined.

(** A task that completed, failed or exhausted its budget keeps
    that status whatever is attempted afterwards, and the only events its
    log gains are resolutions of recorded failures. *)
Theorem final_status_is_kept s s' :
  rtc attempted s s' → final s.(ws_terminal_status) →
  ws_terminal_status s' = ws_terminal_status s ∧
  ∃ k, ws_events s' = ws_events s ++ k ∧ ∀ e, e ∈ k → e.(ev_event_type) = FAILURE_RESOLVED.
Proof.
  induction 1 as [s|s s1 s' H1 _ IH]; intros Hf.
  { split; [done|]. exists []. rewrite app_nil_r. split; [done|]. by intros ? ?%elem_of_nil. }
  destruct (attempted_final _ _ H1 Hf) as (E1 & k1 & E2 & Hk1).
  rewrite <- E1 in Hf. destruct (IH Hf) as (-> & k2 & -> & Hk2). split; [done|].
  exists (k1 ++ k2). rewrite E2, <- app_assoc. split; [done|]. intros e [?|?]%elem_of_app; auto.
Qed.

Lemma final_status_is_kept_witness :
  ws_terminal_status (run [ev_start; ev_done; ev_write]) = COMPLETED.
Proof.
  refine (proj1 (final_status_is_kept (run [ev_start; ev_done]) _ _ _)).
  - apply rtc_once. exists ev_write. eexists. vm_compute. reflexivity.
  - unfold final. vm_compute. apply list_elem_of_here.
Defined.

(** An event asserted by the model never changes what the task
    has observed: files, actions, discoveries, verifications, reviews, plan,
    checkpoint, mutation generation, objective and constraints are as they
    were. *)
Theorem model_cannot_assert_facts ev s s' u :
  apply ev s = (s', Ok u) → ev.(ev_source) = MODEL_SOURCE →
  relevant_files s' = relevant_files s ∧ ws_actions s' = ws_actions s ∧
  ws_discoveries s' = ws_discoveries s ∧ ws_verifications s' = ws_verifications s ∧
  ws_reviews s' = ws_reviews s ∧ ws_plan_steps s' = ws_plan_steps s ∧
  ws_checkpoint_id s' = ws_checkpoint_id s ∧
  ws_mutation_generation s' = ws_mutation_generation s ∧
  ws_objective s' = ws_objective s ∧ ws_user_constraints s' = ws_user_constraints s.
Proof.
  intros (_ & s1 & H & ->)%apply_step Hsrc. cbn.
  destruct H; cbn; try done; try congruence;
    match goal with H : ev_source _ ∈ _ |- _ => rewrite Hsrc in H; set_solver end.
Qed.

Lemma model_cannot_assert_facts_witness :
  ws_actions (run [ev_start; ev_command_failed; ev_model_resolves])
  = ws_actions (run [ev_start; ev_command_failed]).
Proof.
  refine (proj1 (proj2 (model_cannot_assert_facts ev_model_resolves
    (run [ev_start; ev_command_failed]) _ tt _ _))); [|reflexivity].
  vm_compute. reflexivity.
Defined.

(** A plan step that is COMPLETED or SKIPPED keeps its
    status under every accepted event except an orchestration revision of
    that very step. *)
Theorem finished_step_changes_only_by_revision ev s s' u k p :
  apply ev s = (s', Ok u) → dict_get s.(ws_plan_steps) k = Some p →
  p.(ps_status) ∈ [STEP_COMPLETED; SKIPPED] →
  dict_get s'.(ws_plan_steps) k = Some p ∨
  (ev.(ev_event_type) = PLAN_STEP_REVISED ∧ ev.(ev_source) = HARNESS).
Proof.
  intros (_ & s1 & H & ->)%apply_step Hp Hst. cbn.
  step_cases H; try (by left); try (by right); left; rewrite dict_get_set_ne; try done; intros ?; subst.
  - match goal with H : _ ∉ dict_keys _ |- _ => apply H end. apply dict_get_is_Some. eauto.
  - simplify_eq. apply elem_of_cons in Hst as [E|E%list_elem_of_singleton]; rewrite E in *; set_solver.
Qed.

Lemma finished_step_changes_only_by_revision_witness :
  let s := run [ev_start; ev_write; ev_step; ev_step_active; ev_step_done] in
  dict_get (ws_plan_steps (run [ev_start; ev_write; ev_step; ev_step_active; ev_step_done;
                                ev_modified])) "s1" = dict_get (ws_plan_steps s) "s1".
Proof.
  cbv zeta. destruct (finished_step_changes_only_by_revision ev_modified
    (run [ev_start; ev_write; ev_step; ev_step_active; ev_step_done])
    (run [ev_start; ev_write; ev_step; ev_step_active; ev_step_done; ev_modified]) tt "s1"
    (mk_plan_step "s1" "edit" STEP_COMPLETED ["a1"] [] [] true)
    ltac:(vm_compute; reflexivity) ltac:(vm_compute; reflexivity) ltac:(apply list_elem_of_here))
    as [E|[E _]]; [rewrite E; vm_compute; reflexivity|discriminate E].
Defined.

(** The exception is real: orchestration can reopen a step that its
    evidence had completed, and the evidence is dropped. *)
Theorem revision_reopens_a_completed_step :
  ∃ s s' p p', reachable "task-1" s ∧ apply ev_step_revised s = (s', Ok tt) ∧
    dict_get s.(ws_plan_steps) "s1" = Some p ∧ p.(ps_status) = STEP_COMPLETED ∧
    dict_get s'.(ws_plan_steps) "s1" = Some p' ∧ p'.(ps_status) = PENDING ∧
    p'.(ps_evidence_action_ids) = [].
Proof.
  exists (run [ev_start; ev_write; ev_step; ev_step_active; ev_step_done]). do 3 eexists.
  split; [eapply (run_reachable [ev_start; ev_write; ev_step; ev_step_active; ev_step_done]);
          vm_compute; reflexivity|].
  split; [vm_compute; reflexivity|]. split; [vm_compute; reflexivity|].
  split; [reflexivity|]. split; [vm_compute; reflexivity|]. split; reflexivity.
Qed.

(** Applying any event to any reachable state never fails with a
    [KeyError]: the unguarded dictionary lookup of the dependency check
    always finds its step. *)
Theorem no_internal_key_error t s ev s' k :
  reachable t s → apply ev s ≠ (s', Raise (KeyError k)).
Proof. intros ?%reachable_wf_aux. by apply apply_no_key_error. Qed.

Lemma no_internal_key_error_witness :
  apply ev_step_active (run [ev_start; ev_step]) ≠ (run [ev_start; ev_step], Raise (KeyError "s0")).
Proof.
  refine (no_internal_key_error "task-1" _ ev_step_active _ "s0"
    (run_reachable [ev_start; ev_step] _ tt _)). vm_compute. reflexivity.
Defined.

(** A change to the tree withdraws every verdict about it: if
    no verification claims a generation later than the present one, then
    after a mutation by a new action the verification outcome is NOT_RUN. *)
Theorem mutation_resets_verification ev s s' u a :
  apply ev s = (s', Ok u) →
  ev.(ev_event_type) ∈ [FILE_MODIFIED; FILE_CREATED; FILE_DELETED] →
  required_text ev.(ev_data) "action_id" = Ok a → a ∉ s.(ws_mutation_action_ids) →
  (∀ v, v ∈ s.(ws_verifications) → (v.(ver_mutation_generation) ≤ s.(ws_mutation_generation))%Z) →
  ws_mutation_generation s' = (ws_mutation_generation s + 1)%Z ∧
  verification_outcome s' = NOT_RUN.
Proof.
  intros Ha Ht Hid Hnew Hgen. apply apply_Ok in Ha as (_ & s1 & Hr & ->).
  assert (Hs1 : ∃ p, s1 = advance_generation ev.(ev_event_type) a (place_path ev.(ev_event_type) p s)).
  { unfold reduce in Hr. destruct (ev_event_type ev) eqn:Et; try (exfalso; set_solver).
    all: unfold record_file_event in Hr; minv; rewrite Hid in *; simplify_eq; rewrite Et; eauto. }
  destruct Hs1 as [p ->].
  assert (Hframe : ws_verifications (place_path (ev_event_type ev) p s) = ws_verifications s ∧
    ws_mutation_generation (place_path (ev_event_type ev) p s) = ws_mutation_generation s ∧
    ws_mutation_action_ids (place_path (ev_event_type ev) p s) = ws_mutation_action_ids s)
    by by destruct (ev_event_type ev).
  destruct Hframe as (E1 & E2 & E3). unfold advance_generation. rewrite E3.
  rewrite (bool_decide_false (_ ∈ _)) by done.
  rewrite bool_decide_false by (intros E; rewrite E in Ht; set_solver). cbn. rewrite E2. split; [done|].
  unfold verification_outcome, current_verifications. cbn. rewrite E1, E2.
  destruct (last _) as [v|] eqn:Hl; [exfalso|done].
  apply last_Some_elem_of, list_elem_of_filter in Hl as [[Hv _] Hin]. apply Hgen in Hin. lia.
Qed.

Lemma mutation_resets_verification_witness :
  let s' := run [ev_start; ev_write; ev_modified; ev_test; ev_write2; ev_modified2] in
  verification_outcome (run [ev_start; ev_write; ev_modified; ev_test; ev_write2]) = PASSED ∧
  verification_outcome s' = NOT_RUN.
Proof.
  cbv zeta. split; [vm_compute; reflexivity|].
  refine (proj2 (mutation_resets_verification ev_modified2
    (run [ev_start; ev_write; ev_modified; ev_test; ev_write2]) _ tt "a2" _ _ _ _ _)).
  - vm_compute. reflexivity.
  - apply list_elem_of_here.
  - reflexivity.
  - apply (bool_decide_unpack _). vm_compute. exact I.
  - apply Forall_forall, (bool_decide_unpack _). vm_compute. exact I.
Defined.

(** Without that bound a verdict can outlive the code it is about: a
    verification recorded for a generation that does not exist yet is
    accepted, and answers PASSED once the tree has changed to reach it,
    although nothing ran after the change. *)
Theorem future_verification_survives_a_mutation :
  ∃ s s', reachable "task-1" s ∧ apply ev_modified2 s = (s', Ok tt) ∧
    (∃ s0, apply ev_future_test s0 = (s, Ok tt) ∧ ws_mutation_generation s0 = 1%Z) ∧
    ws_mutation_generation s' = 2%Z ∧ verification_outcome s' = PASSED.
Proof.
  exists (run [ev_start; ev_write; ev_modified; ev_write2; ev_future_test]). eexists.
  split; [eapply (run_reachable [ev_start; ev_write; ev_modified; ev_write2; ev_future_test]);
          vm_compute; reflexivity|].
  split; [vm_compute; reflexivity|].
  split; [exists (run [ev_start; ev_write; ev_modified; ev_write2]); vm_compute; split; reflexivity|].
  split; vm_compute; reflexivity.
Qed.

(** A path does not hold one status at a time: modifying a deleted path
    leaves it both deleted and modified (only creating it withdraws the
    deletion). *)
Theorem path_can_be_deleted_and_modified :
  ∃ s, reachable "task-1" s ∧
    "src/p.c" ∈ s.(ws_deleted_files) ∧ "src/p.c" ∈ s.(ws_modified_files).
Proof.
  exists (run [ev_start; ev_write; ev_deleted; ev_modified]).
  split; [eapply (run_reachable [ev_start; ev_write; ev_deleted; ev_modified]);
          vm_compute; reflexivity|].
  split; apply (bool_decide_unpack _); vm_compute; exact I.
Qed.

(** The model may close a failure: a FAILURE_RESOLVED event is not held to
    any source, so one asserted by the model resolves a failed command. *)
Theorem model_can_resolve_a_failure :
  ∃ s s', reachable "task-1" s ∧ ev_source ev_model_resolves = MODEL_SOURCE ∧
    apply ev_model_resolves s = (s', Ok tt) ∧
    length (unresolved_failures s) = 1 ∧ unresolved_failures s' = [].
Proof.
  exists (run [ev_start; ev_command_failed]). eexists.
  split; [eapply (run_reachable [ev_start; ev_command_failed]); vm_compute; reflexivity|].
  split; [reflexivity|]. split; [vm_compute; reflexivity|]. split; vm_compute; reflexivity.
Qed.
