(* ===== verification/Budgets.v ===== *)
(** * Hierarchical budgets: [client/runtime/budgets.py]

    A [BudgetManager] may have a parent, and both are reachable by several
    references: managers live in a store, an address is an object identity,
    and [_parent] and [children] hold addresses.  A child is allocated after
    its parent, so a walk up the chain from address [a] takes at most [S a]
    steps, which is the fuel given to it. *)

From S2P Require Import Prelude.

Open Scope py_scope.
Open Scope Z_scope.

(** ** Data *)

Inductive BudgetKind :=
  | PRIMARY_MODEL_CALLS | AUXILIARY_MODEL_CALLS | MODEL_TURNS | TOOL_CALLS
  | COMMAND_EXECUTIONS | INPUT_TOKENS | OUTPUT_TOKENS | CHILD_AGENT_CALLS
  | CHILD_MODEL_TURNS | WALL_TIME_MS.

#[export] Instance BudgetKind_eq_dec : EqDecision BudgetKind.
Proof. solve_decision. Defined.

Inductive exn :=
  | BudgetError (msg : string)
  | BudgetExceeded (kind : BudgetKind) (component : string)
  | ValueError (msg : string)
  | OutOfFuel.

Record BudgetLimit := mk_limit { amount : Z; limit_approximate : bool }.

(** [BudgetLimit.__post_init__] *)
Definition BudgetLimit_new (n : Z) (approximate : bool) : res exn BudgetLimit :=
  do? rguard (0 <=? n) (ValueError "budget limit cannot be negative") in
  Ok (mk_limit n approximate).

Abbreviation addr := nat.

Record BudgetManager := mk_manager {
  component : string;
  limits : dict BudgetKind BudgetLimit;
  consumed : dict BudgetKind Z;
  approximate : list BudgetKind;
  children : dict string addr;
  started_monotonic : Z;
  parent : option addr;
  wall_offset_ms : Z;
}.

#[export] Instance eta_BudgetManager : Eta BudgetManager := λ r,
  mk_manager r.(component) r.(limits) r.(consumed) r.(approximate) r.(children)
    r.(started_monotonic) r.(parent) r.(wall_offset_ms).

Abbreviation store := (list BudgetManager).
Abbreviation op := (M store exn).

Definition new_manager (component : string) (limits : dict BudgetKind BudgetLimit)
    (parent : option addr) (started : Z) : BudgetManager :=
  mk_manager component limits [] [] [] started parent 0.

(** The manager at an address; a reference is never dangling. *)
Definition manager (st : store) (a : addr) : BudgetManager :=
  default (new_manager "" [] None 0) (st !! a).

Definition update (a : addr) (f : BudgetManager → BudgetManager) : op unit :=
  modify (alter f a).

(** [self.consumed.get(kind, 0)] *)
Definition used (m : BudgetManager) (kind : BudgetKind) : Z :=
  dict_get_default m.(consumed) kind 0.

(** ** Operations *)

Definition from_legacy (component : string) (model_turns tool_calls : Z)
    (context_tokens : option Z) (started : Z) : res exn BudgetManager :=
  let? turns := BudgetLimit_new (model_turns + 4) false in
  let? calls := BudgetLimit_new (model_turns + 4) false in
  let? tools := BudgetLimit_new tool_calls false in
  let limits := [(MODEL_TURNS, turns); (PRIMARY_MODEL_CALLS, calls); (TOOL_CALLS, tools)] in
  match context_tokens with
  | Some n =>
      if n =? 0 then Ok (new_manager component limits None started)
      else let? input := BudgetLimit_new n true in
           Ok (new_manager component (dict_set INPUT_TOKENS input limits) None started)
  | None => Ok (new_manager component limits None started)
  end.

(** The clock is read in nanoseconds; [int(seconds * 1000)] truncates. *)
Definition elapsed_ms (m : BudgetManager) (now : Z) : Z :=
  m.(wall_offset_ms) + Z.quot (now - m.(started_monotonic)) 1000000.

Definition check_wall_time (now : Z) (a : addr) : op unit :=
  let* st := get in
  let m := manager st a in
  match dict_get m.(limits) WALL_TIME_MS with
  | None => ret tt
  | Some limit =>
      let elapsed := elapsed_ms m now in
      do* update a (λ m, m <| consumed ::= dict_set WALL_TIME_MS elapsed |>) in
      guard (negb (limit.(amount) <? elapsed)) (BudgetExceeded WALL_TIME_MS m.(component))
  end.

(** What a child's consumption is charged as on its parent. *)
Definition parent_kind (kind : BudgetKind) : option BudgetKind :=
  match kind with
  | MODEL_TURNS => Some CHILD_MODEL_TURNS
  | PRIMARY_MODEL_CALLS => Some PRIMARY_MODEL_CALLS
  | AUXILIARY_MODEL_CALLS => Some AUXILIARY_MODEL_CALLS
  | TOOL_CALLS => Some TOOL_CALLS
  | COMMAND_EXECUTIONS => Some COMMAND_EXECUTIONS
  | INPUT_TOKENS => Some INPUT_TOKENS
  | OUTPUT_TOKENS => Some OUTPUT_TOKENS
  | _ => None
  end.

Definition over_limit (m : BudgetManager) (kind : BudgetKind) (n : Z) : bool :=
  match dict_get m.(limits) kind with
  | Some limit => limit.(amount) <? used m kind + n
  | None => false
  end.

Definition set_add (k : BudgetKind) (l : list BudgetKind) : list BudgetKind :=
  if bool_decide (k ∈ l) then l else l ++ [k].

(** [clock a] is what the clock reads when the manager at [a] looks at it. *)
Fixpoint consume (fuel : nat) (clock : addr → Z) (a : addr) (kind : BudgetKind) (n : Z)
    (is_approximate : bool) : op unit :=
  match fuel with
  | O => raise OutOfFuel
  | S fuel =>
      do* guard (0 <=? n) (ValueError "budget consumption cannot be negative") in
      do* check_wall_time (clock a) a in
      let* st := get in
      let m := manager st a in
      let current := used m kind in
      do* guard (negb (over_limit m kind n)) (BudgetExceeded kind m.(component)) in
      do* match m.(parent), parent_kind kind with
          | Some p, Some k => consume fuel clock p k n is_approximate
          | _, _ => ret tt
          end in
      do* update a (λ m, m <| consumed ::= dict_set kind (current + n) |>) in
      if is_approximate || match dict_get m.(limits) kind with
                           | Some limit => limit.(limit_approximate)
                           | None => false
                           end
      then update a (λ m, m <| approximate ::= set_add kind |>)
      else ret tt
  end.

Fixpoint refund (fuel : nat) (a : addr) (kind : BudgetKind) (n : Z) : op unit :=
  match fuel with
  | O => raise OutOfFuel
  | S fuel =>
      let* st := get in
      let m := manager st a in
      if negb (dict_mem kind m.(limits)) then ret tt
      else
        do* update a (λ m, m <| consumed ::=
              dict_set kind (Z.max 0 (used m kind - Z.max 0 n)) |>) in
        match m.(parent) with
        | Some p => refund fuel p kind n
        | None => ret tt
        end
  end.

Fixpoint ensure_available (fuel : nat) (clock : addr → Z) (a : addr) (kind : BudgetKind) (n : Z)
    : op unit :=
  match fuel with
  | O => raise OutOfFuel
  | S fuel =>
      do* guard (0 <=? n) (ValueError "budget check cannot be negative") in
      do* check_wall_time (clock a) a in
      let* st := get in
      let m := manager st a in
      do* guard (negb (over_limit m kind n)) (BudgetExceeded kind m.(component)) in
      match m.(parent), parent_kind kind with
      | Some p, Some k => ensure_available fuel clock p k n
      | _, _ => ret tt
      end
  end.

Definition remaining (m : BudgetManager) (kind : BudgetKind) : option Z :=
  match dict_get m.(limits) kind with
  | None => None
  | Some limit => Some (Z.max 0 (limit.(amount) - used m kind))
  end.

(** A requested limit is a [BudgetLimit] or a bare amount. *)
Inductive limit_request := LimitValue (l : BudgetLimit) | LimitAmount (n : Z).

Definition normalize_limit (kv : BudgetKind * limit_request) : res exn (BudgetKind * BudgetLimit) :=
  match kv with
  | (kind, LimitValue l) => Ok (kind, l)
  | (kind, LimitAmount n) => let? l := BudgetLimit_new n false in Ok (kind, l)
  end.

(** The three allowances a parent must be able to cover. *)
Definition covered_kinds : list (BudgetKind * BudgetKind) :=
  [(MODEL_TURNS, CHILD_MODEL_TURNS); (PRIMARY_MODEL_CALLS, PRIMARY_MODEL_CALLS);
   (TOOL_CALLS, TOOL_CALLS)].

Definition covers (m : BudgetManager) (requested : dict BudgetKind BudgetLimit)
    (kinds : BudgetKind * BudgetKind) : bool :=
  match dict_get requested (fst kinds), remaining m (snd kinds) with
  | Some limit, Some available => limit.(amount) <=? available
  | _, _ => true
  end.

Definition allocate_child (clock : addr → Z) (started : Z) (a : addr) (allocation_id : string)
    (child_component : string) (requests : dict BudgetKind limit_request) : op addr :=
  let* st := get in
  do* guard (str_true allocation_id && negb (dict_mem allocation_id (manager st a).(children)))
        (BudgetError "child allocation identifier must be unique") in
  do* consume (S a) clock a CHILD_AGENT_CALLS 1 false in
  let* normalized := lift (rmapM normalize_limit requests) in
  do* for_each covered_kinds (λ kinds,
        let* st := get in
        let m := manager st a in
        guard (covers m normalized kinds) (BudgetExceeded (snd kinds) m.(component))) in
  let* st := get in
  let child := length st in
  do* put (st ++ [new_manager child_component normalized (Some a) started]) in
  do* update a (λ m, m <| children ::= dict_set allocation_id child |>) in
  ret child.

(** ** Snapshots *)

Definition kind_value (k : BudgetKind) : string :=
  match k with
  | PRIMARY_MODEL_CALLS => "primary_model_calls"
  | AUXILIARY_MODEL_CALLS => "auxiliary_model_calls"
  | MODEL_TURNS => "model_turns"
  | TOOL_CALLS => "tool_calls"
  | COMMAND_EXECUTIONS => "command_executions"
  | INPUT_TOKENS => "input_tokens"
  | OUTPUT_TOKENS => "output_tokens"
  | CHILD_AGENT_CALLS => "child_agent_calls"
  | CHILD_MODEL_TURNS => "child_model_turns"
  | WALL_TIME_MS => "wall_time_ms"
  end.

#[export] Instance BudgetKind_enum : StrEnum BudgetKind := {|
  enum_members := [PRIMARY_MODEL_CALLS; AUXILIARY_MODEL_CALLS; MODEL_TURNS; TOOL_CALLS;
                   COMMAND_EXECUTIONS; INPUT_TOKENS; OUTPUT_TOKENS; CHILD_AGENT_CALLS;
                   CHILD_MODEL_TURNS; WALL_TIME_MS];
  enum_value := kind_value;
  enum_complete := ltac:(enum_all);
  enum_distinct := ltac:(enum_nodup) |}.

(** One row of [metrics]. *)
Record metric := mk_metric {
  metric_allocated : option Z;
  metric_consumed : Z;
  metric_remaining : option Z;
  metric_approximate : bool;
}.

Definition metrics (m : BudgetManager) : dict BudgetKind metric :=
  (λ kind, (kind, mk_metric (amount <$> dict_get m.(limits) kind) (used m kind)
                    (remaining m kind) (bool_decide (kind ∈ m.(approximate)))))
  <$> enum_members.

(** ** The store *)

(** A parent is allocated before its children, and limits are not negative. *)
Record store_wf (st : store) : Prop := {
  parent_before : ∀ a m p, st !! a = Some m → m.(parent) = Some p → (p < a)%nat;
  limits_nonneg : ∀ a m k l, st !! a = Some m → dict_get m.(limits) k = Some l → 0 <= l.(amount);
}.

(** Every counter but the clock is between zero and its limit. *)
Definition within_limits (st : store) : Prop :=
  ∀ a m k, st !! a = Some m → k ≠ WALL_TIME_MS →
    0 <= used m k ∧ ∀ l, dict_get m.(limits) k = Some l → used m k <= l.(amount).

(** The counters a consumption of [kind] at [a] moves: the manager's own and
    those it is charged as up the chain. *)
Fixpoint chain (fuel : nat) (st : store) (a : addr) (kind : BudgetKind)
    : list (addr * BudgetKind) :=
  match fuel with
  | O => []
  | S fuel =>
      (a, kind) :: match (manager st a).(parent), parent_kind kind with
                   | Some p, Some k => chain fuel st p k
                   | _, _ => []
                   end
  end.

(** What a counter reads. *)
Definition counter (st : store) (a : addr) (kind : BudgetKind) : Z := used (manager st a) kind.

(** Same managers, limits, parents and children; only counters differ. *)
Definition same_shape (m m' : BudgetManager) : Prop :=
  component m' = component m ∧ limits m' = limits m ∧ parent m' = parent m ∧
  children m' = children m ∧ started_monotonic m' = started_monotonic m ∧
  wall_offset_ms m' = wall_offset_ms m.

Definition same_structure (st st' : store) : Prop := Forall2 same_shape st st'.

(** The counters other than the clock agree. *)
Definition same_counters (st st' : store) : Prop :=
  ∀ a k, k ≠ WALL_TIME_MS → counter st' a k = counter st a k.
