(* ===== verification/BudgetsFacts.v ===== *)
(** * Correctness of the hierarchical budgets

    A consumption either debits every counter of its chain by the amount or
    debits none; no counter passes its limit; walks up the chain end; refunds
    and child allocation do what they do. *)

From S2P Require Import Prelude Budgets.

Open Scope py_scope.
Open Scope Z_scope.

(** ** Reading and updating the store *)

Lemma manager_lookup st a m : st !! a = Some m → manager st a = m.
Proof. unfold manager. by intros ->. Qed.

Lemma manager_valid (st : store) a : (a < length st)%nat → st !! a = Some (manager st a).
Proof. intros [m Hm]%lookup_lt_is_Some. by rewrite (manager_lookup _ _ _ Hm). Qed.

Lemma manager_alter (st : store) f a b :
  (a < length st)%nat →
  manager (alter f a st) b = if decide (a = b) then f (manager st b) else manager st b.
Proof.
  intros Ha. unfold manager. case_decide; subst.
  - rewrite list_lookup_alter_eq, (manager_valid st b Ha). done.
  - by rewrite list_lookup_alter_ne.
Qed.

Lemma used_set m kind n k :
  used (m <| consumed ::= dict_set kind n |>) k = if decide (kind = k) then n else used m k.
Proof. unfold used, dict_get_default. cbn. rewrite dict_get_set. by case_decide. Qed.

#[export] Instance same_shape_preorder : PreOrder same_shape.
Proof.
  split; [done|]. unfold same_shape. intros x y z ??. destruct_and!. repeat split; congruence.
Qed.

#[export] Instance same_structure_preorder : PreOrder same_structure.
Proof.
  unfold same_structure. split.
  - intros st. induction st; constructor; [reflexivity|done].
  - intros x y z Hxy. revert z. induction Hxy; intros z; inversion 1; subst; constructor; [by etrans|auto].
Qed.

#[export] Instance same_counters_preorder : PreOrder same_counters.
Proof.
  split; [done|]. intros x y z H1 H2 a k Hk. by rewrite H2, H1.
Qed.

Lemma same_structure_alter (st : store) f a :
  (∀ m, same_shape m (f m)) → same_structure st (alter f a st).
Proof.
  intros Hf. unfold same_structure. revert a. induction st as [|m st IH]; intros [|a]; cbn;
    constructor; auto; reflexivity.
Qed.

Lemma same_structure_length st st' : same_structure st st' → length st' = length st.
Proof. intros H. symmetry. by eapply Forall2_length. Qed.

Lemma same_structure_manager st st' a :
  same_structure st st' → same_shape (manager st a) (manager st' a).
Proof.
  intros H. unfold manager. destruct (st !! a) as [m|] eqn:Hm.
  - by destruct (Forall2_lookup_l _ _ _ _ _ H Hm) as (m' & -> & ?).
  - rewrite (proj2 (lookup_ge_None st' a)); [done|].
    rewrite (same_structure_length _ _ H). by apply lookup_ge_None.
Qed.

Lemma store_wf_structure st st' : same_structure st st' → store_wf st → store_wf st'.
Proof.
  intros Hs [Hp Hl]. split.
  - intros a m p Hm Hpar. destruct (Forall2_lookup_r _ _ _ _ _ Hs Hm) as (m0 & Hm0 & Hsh).
    destruct Hsh as (_ & _ & Hpa & _). rewrite Hpa in Hpar. by eapply Hp.
  - intros a m k l Hm Hlim. destruct (Forall2_lookup_r _ _ _ _ _ Hs Hm) as (m0 & Hm0 & Hsh).
    destruct Hsh as (_ & Hli & _). rewrite Hli in Hlim. by eapply Hl.
Qed.

Lemma chain_structure fuel st st' a kind :
  same_structure st st' → chain fuel st' a kind = chain fuel st a kind.
Proof.
  intros Hs. revert a kind. induction fuel as [|fuel IH]; intros a kind; cbn; [done|].
  destruct (same_structure_manager _ _ a Hs) as (_ & _ & -> & _).
  destruct (parent (manager st a)), (parent_kind kind); by rewrite ?IH.
Qed.

(** Addresses only decrease along a chain. *)
Lemma chain_below fuel st a kind b k :
  store_wf st → (a < length st)%nat → (b, k) ∈ chain fuel st a kind → (b ≤ a)%nat.
Proof.
  intros Hwf. revert a kind. induction fuel as [|fuel IH]; intros a kind Ha; cbn;
    [by intros ?%elem_of_nil|].
  intros [[= -> ->]|Hin]%elem_of_cons; [done|].
  destruct (parent (manager st a)) as [p|] eqn:Hp; [|by apply elem_of_nil in Hin].
  destruct (parent_kind kind); [|by apply elem_of_nil in Hin].
  pose proof (parent_before _ Hwf _ _ _ (manager_valid _ _ Ha) Hp).
  apply IH in Hin; lia.
Qed.

(** ** The clock *)

Lemma check_wall_time_spec now a st st' r :
  (a < length st)%nat → check_wall_time now a st = (st', r) →
  same_structure st st' ∧ same_counters st st' ∧ r ≠ Raise OutOfFuel.
Proof.
  intros Ha. unfold check_wall_time, bind, get. cbn.
  destruct (dict_get (limits (manager st a)) WALL_TIME_MS) as [l|].
  - unfold update, modify, guard, lift, rguard. intros H.
    assert (st' = alter (λ m, m <| consumed ::=
              dict_set WALL_TIME_MS (elapsed_ms (manager st a) now) |>) a st) as ->
      by (by injection H).
    split; [apply same_structure_alter; done|]. split; [|by case_match; injection H as <-].
    intros b k Hk. unfold counter. rewrite manager_alter by done. case_decide; [|done].
    by rewrite used_set, decide_False by done.
  - unfold ret. injection 1 as <- <-. split; [reflexivity|]. split; [reflexivity|done].
Qed.

(** ** Consumption *)

(** What a consumption over the counters [l] does, whatever its outcome: a
    refusal moves no counter but the clock, an acceptance debits every
    counter of [l], and only those, within their limits. *)
Record consumption (st : store) (l : list (addr * BudgetKind)) (n : Z)
    (st' : store) (r : res exn unit) : Prop := {
  cons_structure : same_structure st st';
  cons_fuel : r ≠ Raise OutOfFuel;
  cons_refused : ∀ e, r = Raise e → same_counters st st';
  cons_debit : ∀ u, r = Ok u → ∀ b k, k ≠ WALL_TIME_MS →
    counter st' b k = counter st b k + (if decide ((b, k) ∈ l) then n else 0);
  cons_limit : ∀ u, r = Ok u → 0 <= n ∧ ∀ b k lim, (b, k) ∈ l →
    k ≠ WALL_TIME_MS → dict_get (limits (manager st b)) k = Some lim →
    counter st b k + n <= lim.(amount);
}.

Lemma consumption_refused st l n st' e :
  same_structure st st' → same_counters st st' → e ≠ OutOfFuel →
  consumption st l n st' (Raise e).
Proof. intros. split; try done; congruence. Qed.

Lemma consumption_nil st n : 0 <= n → consumption st [] n st (Ok tt).
Proof.
  intros. split; try done.
  - intros. rewrite decide_False by (by intros ?%elem_of_nil). lia.
  - intros. split; [done|]. by intros ??? ?%elem_of_nil.
Qed.

(** A step that moves the clock only may come first. *)
Lemma consumption_after st0 st l n st' r :
  same_structure st0 st → same_counters st0 st → consumption st l n st' r →
  consumption st0 l n st' r.
Proof.
  intros Hs Hc [H1 H2 H3 H4 H5]. split; [by etrans|done| | |].
  - intros e He. etrans; [done|by eapply H3].
  - intros u Hu b k Hk. rewrite (H4 u Hu b k Hk), (Hc b k Hk). done.
  - intros u Hu. destruct (H5 u Hu) as [? Hl]. split; [done|]. intros b k lim Hin Hk Hlim.
    rewrite <- (Hc b k Hk). eapply Hl; [done..|].
    by destruct (same_structure_manager _ _ b Hs) as (_ & -> & _).
Qed.

(** The last two assignments of [consume]. *)
Definition finish (a : addr) (kind : BudgetKind) (v : Z) (mark : bool) : op unit :=
  do* update a (λ m, m <| consumed ::= dict_set kind v |>) in
  if mark then update a (λ m, m <| approximate ::= set_add kind |>) else ret tt.

Lemma finish_spec a kind v mark st :
  (a < length st)%nat →
  ∃ st', finish a kind v mark st = (st', Ok tt) ∧ same_structure st st' ∧
    ∀ b k, counter st' b k = if decide ((b, k) = (a, kind)) then v else counter st b k.
Proof.
  intros Ha. set (st1 := alter (λ m, m <| consumed ::= dict_set kind v |>) a st).
  assert (Hs1 : same_structure st st1) by by apply same_structure_alter.
  assert (Hc1 : ∀ b k, counter st1 b k = if decide ((b, k) = (a, kind)) then v else counter st b k).
  { intros b k. unfold counter, st1. rewrite manager_alter by done.
    case_decide; [rewrite used_set|]; repeat case_decide; simplify_eq; done. }
  unfold finish, bind, update, modify, ret. fold st1. destruct mark; [|by exists st1].
  eexists. split; [reflexivity|]. split.
  - etrans; [exact Hs1|by apply same_structure_alter].
  - intros b k. rewrite <- Hc1. unfold counter.
    rewrite manager_alter by by rewrite (same_structure_length _ _ Hs1). by case_decide.
Qed.

Lemma consumption_finish st st2 l n a kind mark :
  consumption st l n st2 (Ok tt) → (a < length st)%nat → 0 <= n →
  (∀ b k, (b, k) ∈ l → (b < a)%nat) →
  (∀ lim, dict_get (limits (manager st a)) kind = Some lim → counter st a kind + n <= lim.(amount)) →
  ∃ st', finish a kind (counter st a kind + n) mark st2 = (st', Ok tt) ∧
    consumption st ((a, kind) :: l) n st' (Ok tt).
Proof.
  intros [H1 H2 H3 H4 H5] Ha Hn Hbelow Hlim.
  destruct (finish_spec a kind (counter st a kind + n) mark st2) as (st' & Hf & Hs & Hc).
  { by rewrite (same_structure_length _ _ H1). }
  exists st'. split; [done|]. split; [by etrans|done|done| |].
  - intros u _ b k Hk. rewrite Hc. case_decide as Heq.
    + simplify_eq. rewrite decide_True by apply list_elem_of_here. done.
    + rewrite (H4 tt eq_refl b k Hk). f_equal. apply decide_ext. rewrite elem_of_cons. naive_solver.
  - intros u _. split; [done|]. intros b k lim [[= -> ->]|Hin]%elem_of_cons Hk Hl; [by apply Hlim|].
    destruct (H5 tt eq_refl) as [_ H5']. by eapply H5'.
Qed.

Lemma parent_kind_not_wall kind k : parent_kind kind = Some k → k ≠ WALL_TIME_MS.
Proof. by destruct kind; intros [= <-]. Qed.

Lemma over_limit_false m kind n l :
  over_limit m kind n = false → dict_get m.(limits) kind = Some l → used m kind + n <= l.(amount).
Proof. unfold over_limit. intros H Hl. rewrite Hl in H. lia. Qed.

Lemma consume_spec fuel clock a kind n approx st st' r :
  store_wf st → (a < length st)%nat → (a < fuel)%nat →
  consume fuel clock a kind n approx st = (st', r) →
  consumption st (chain fuel st a kind) n st' r.
Proof.
  revert a kind st st' r. induction fuel as [|fuel IH]; intros a kind st st' r Hwf Ha Hfuel; [lia|].
  cbn [consume]. unfold guard, rguard. destruct (Z.leb_spec 0 n) as [Hn|Hn].
  2: { unfold bind, lift. intros [= <- <-]. by apply consumption_refused. }
  unfold bind at 1, lift. unfold bind at 1.
  destruct (check_wall_time (clock a) a st) as [st1 [[]|e]] eqn:Hw;
    apply check_wall_time_spec in Hw as (Hs1 & Hc1 & Hf1); try done.
  2: { intros [= <- <-]. apply consumption_refused; [done..|congruence]. }
  unfold bind at 1, get. unfold bind at 1, lift.
  rewrite <- (chain_structure (S fuel) _ _ a kind Hs1).
  pose proof (store_wf_structure _ _ Hs1 Hwf) as Hwf1.
  assert (Ha1 : (a < length st1)%nat) by by rewrite (same_structure_length _ _ Hs1).
  destruct (over_limit (manager st1 a) kind n) eqn:Ho; cbn [negb].
  { intros [= <- <-]. by apply consumption_refused. }
  intros H. apply (consumption_after st st1); [done..|]. clear Hs1 Hc1 Hf1 Hwf Ha st. rename st1 into st.
  assert (Hlim : ∀ lim, dict_get (limits (manager st a)) kind = Some lim →
    counter st a kind + n <= lim.(amount)) by (intros; by eapply over_limit_false).
  cbn [chain].
  set (tl := match parent (manager st a) with Some p => _ | None => _ end).
  revert H. unfold bind at 1. set (mid := match parent (manager st a) with Some p => _ | None => _ end).
  destruct (mid st) as [st2 r2] eqn:Hmid.
  assert (Hcons : consumption st tl n st2 r2 ∧ ∀ b k, (b, k) ∈ tl → (b < a)%nat).
  { subst mid tl. destruct (parent (manager st a)) as [p|] eqn:Hp.
    2: { unfold ret in Hmid. injection Hmid as <- <-. split; [by apply consumption_nil|].
         by intros ?? ?%elem_of_nil. }
    pose proof (parent_before _ Hwf1 _ _ _ (manager_valid _ _ Ha1) Hp) as Hpa.
    destruct (parent_kind kind) as [k|].
    2: { unfold ret in Hmid. injection Hmid as <- <-. split; [by apply consumption_nil|].
         by intros ?? ?%elem_of_nil. }
    split; [eapply IH; [done| | |exact Hmid]; lia|].
    intros b k' Hin%chain_below; [lia|done|lia]. }
  destruct Hcons as [Hcons Hbelow]. destruct r2 as [[]|e].
  - fold (finish a kind (used (manager st a) kind + n)).
    match goal with |- context [if ?c then update _ _ else _] => set (mark := c) end.
    intros H. destruct (consumption_finish st st2 tl n a kind mark) as (st'' & Hf & Hfin); try done.
    unfold finish, counter in Hf. rewrite Hf in H. by injection H as <- <-.
  - intros [= <- <-]. destruct Hcons. split; try done; congruence.
Qed.

(** ** Refunds *)

(** The counters a refund of [kind] reaches: up the chain under the same
    kind, as far as there is a limit on it. *)
Fixpoint refund_chain (fuel : nat) (st : store) (a : addr) (kind : BudgetKind) : list addr :=
  match fuel with
  | O => []
  | S fuel =>
      if dict_mem kind (manager st a).(limits) then
        a :: match (manager st a).(parent) with
             | Some p => refund_chain fuel st p kind
             | None => []
             end
      else []
  end.

Lemma refund_chain_structure fuel st st' a kind :
  same_structure st st' → refund_chain fuel st' a kind = refund_chain fuel st a kind.
Proof.
  intros Hs. revert a. induction fuel as [|fuel IH]; intros a; cbn; [done|].
  destruct (same_structure_manager _ _ a Hs) as (_ & -> & -> & _).
  destruct (parent (manager st a)); by rewrite ?IH.
Qed.

Lemma refund_chain_below fuel st a kind b :
  store_wf st → (a < length st)%nat → b ∈ refund_chain fuel st a kind → (b ≤ a)%nat.
Proof.
  intros Hwf. revert a. induction fuel as [|fuel IH]; intros a Ha; cbn; [by intros ?%elem_of_nil|].
  destruct (dict_mem _ _); [|by intros ?%elem_of_nil].
  intros [->|Hin]%elem_of_cons; [done|].
  destruct (parent (manager st a)) as [p|] eqn:Hp; [|by apply elem_of_nil in Hin].
  pose proof (parent_before _ Hwf _ _ _ (manager_valid _ _ Ha) Hp). apply IH in Hin; lia.
Qed.

Lemma refund_spec fuel a kind n st :
  store_wf st → (a < length st)%nat → (a < fuel)%nat →
  ∃ st', refund fuel a kind n st = (st', Ok tt) ∧ same_structure st st' ∧
    ∀ b k, counter st' b k =
      if decide (k = kind ∧ b ∈ refund_chain fuel st a kind)
      then Z.max 0 (counter st b k - Z.max 0 n) else counter st b k.
Proof.
  revert a st. induction fuel as [|fuel IH]; intros a st Hwf Ha Hfuel; [lia|].
  cbn [refund refund_chain]. unfold bind at 1, get.
  destruct (dict_mem kind (limits (manager st a))); cbn [negb].
  2: { exists st. split; [done|]. split; [reflexivity|]. intros b k.
       rewrite decide_False; [done|]. by intros [_ ?%elem_of_nil]. }
  unfold bind, update, modify.
  set (st1 := alter _ a st).
  assert (Hs1 : same_structure st st1) by by apply same_structure_alter.
  assert (Hc1 : ∀ b k, counter st1 b k = if decide (k = kind ∧ b = a)
    then Z.max 0 (counter st b k - Z.max 0 n) else counter st b k).
  { intros b k. unfold counter, st1. rewrite manager_alter by done.
    destruct (decide (a = b)) as [->|]; [rewrite used_set|]; repeat case_decide; naive_solver. }
  destruct (parent (manager st a)) as [p|] eqn:Hp.
  - pose proof (parent_before _ Hwf _ _ _ (manager_valid _ _ Ha) Hp) as Hpa.
    destruct (IH p st1) as (st' & Hr & Hs & Hc).
    { by eapply store_wf_structure. }
    { rewrite (same_structure_length _ _ Hs1). lia. }
    { lia. }
    exists st'. split; [done|]. split; [by etrans|]. intros b k. rewrite Hc.
    rewrite (refund_chain_structure _ _ _ _ _ Hs1), Hc1.
    assert (a ∉ refund_chain fuel st p kind) as Hna.
    { intros Hin%refund_chain_below; [lia|done|lia]. }
    pose proof (elem_of_cons (refund_chain fuel st p kind) b a).
    repeat case_decide; naive_solver.
  - exists st1. split; [done|]. split; [done|]. intros b k. rewrite Hc1.
    pose proof (list_elem_of_singleton b a). repeat case_decide; naive_solver.
Qed.

(** ** Checks ahead of an operation *)

(** The clock check reads the structure and the clock only. *)
Lemma check_wall_time_result now a st st0 :
  same_structure st st0 →
  snd (check_wall_time now a st0) = snd (check_wall_time now a st).
Proof.
  intros Hs. destruct (same_structure_manager _ _ a Hs) as (Hc & Hl & _ & _ & Hst & Ho).
  unfold check_wall_time, bind, get. cbn. unfold elapsed_ms. rewrite Hl, Hst, Ho, Hc.
  by destruct (dict_get (limits (manager st a)) WALL_TIME_MS).
Qed.

Lemma over_limit_structure a kind n st st0 :
  same_structure st st0 → same_counters st st0 → kind ≠ WALL_TIME_MS →
  over_limit (manager st0 a) kind n = over_limit (manager st a) kind n.
Proof.
  intros Hs Hc Hk. destruct (same_structure_manager _ _ a Hs) as (_ & Hl & _).
  unfold over_limit. rewrite Hl. by rewrite (Hc a kind Hk : used (manager st0 a) kind = _).
Qed.

(** A check and a consumption over stores that differ by the clock give the
    same answer; the check moves only the clock. *)
Lemma ensure_available_spec fuel clock a kind n approx st st0 :
  store_wf st → (a < length st)%nat → (a < fuel)%nat → 0 <= n → kind ≠ WALL_TIME_MS →
  same_structure st st0 → same_counters st st0 →
  same_structure st (fst (ensure_available fuel clock a kind n st)) ∧
  same_counters st (fst (ensure_available fuel clock a kind n st)) ∧
  snd (ensure_available fuel clock a kind n st) = snd (consume fuel clock a kind n approx st0).
Proof.
  revert a kind st st0. induction fuel as [|fuel IH];
    intros a kind st st0 Hwf Ha Hfuel Hn Hk Hs Hc; [lia|].
  pose proof (same_structure_length _ _ Hs) as Hlen.
  cbn [ensure_available consume]. unfold guard, rguard. rewrite (proj2 (Z.leb_le 0 n) Hn).
  unfold bind, lift, get.
  pose proof (check_wall_time_result (clock a) a _ _ Hs) as Hres.
  destruct (check_wall_time (clock a) a st) as [st1 r1] eqn:Hw1,
    (check_wall_time (clock a) a st0) as [st2 r2] eqn:Hw2; cbn in Hres; subst r2.
  apply check_wall_time_spec in Hw1 as (Hs1 & Hc1 & _); [|done].
  apply check_wall_time_spec in Hw2 as (Hs2 & Hc2 & _); [|lia].
  destruct r1 as [[]|e]; [|done].
  assert (Hs12 : same_structure st1 st2).
  { clear -Hs Hs1 Hs2. unfold same_structure in *. rewrite Forall2_lookup in *. intros i.
    specialize (Hs i). specialize (Hs1 i). specialize (Hs2 i).
    destruct Hs as [x y|]; inversion Hs1; inversion Hs2; subst; simplify_eq; try congruence; constructor.
    unfold same_shape in *. destruct_and!. repeat split; congruence. }
  assert (Hc12 : same_counters st1 st2) by (intros b k ?; rewrite Hc2, Hc1, Hc by done; done).
  rewrite (over_limit_structure a kind n _ _ Hs12 Hc12 Hk).
  destruct (same_structure_manager _ _ a Hs12) as (-> & _ & -> & _).
  destruct (over_limit (manager st1 a) kind n); cbn [negb]; [done|].
  destruct (parent (manager st1 a)) as [p|] eqn:Hp.
  2: { split; [done|]. split; [done|]. by destruct (_ || _). }
  destruct (parent_kind kind) as [k|] eqn:Hpk.
  2: { split; [done|]. split; [done|]. by destruct (_ || _). }
  assert (Ha1 : (a < length st1)%nat) by by rewrite (same_structure_length _ _ Hs1).
  pose proof (store_wf_structure _ _ Hs1 Hwf) as Hwf1.
  pose proof (parent_before _ Hwf1 _ _ _ (manager_valid _ _ Ha1) Hp).
  destruct (IH p k st1 st2) as (I1 & I2 & I3); [done|lia|lia|done| |done|done|].
  { by eapply parent_kind_not_wall. }
  split; [by etrans|]. split; [by etrans|]. rewrite I3.
  destruct (consume fuel clock p k n approx st2) as [st3 [[]|e]]; cbn; [|done].
  by destruct (_ || _).
Qed.

Lemma ensure_available_effect fuel clock a kind n st st' r :
  store_wf st → (a < length st)%nat → (a < fuel)%nat →
  ensure_available fuel clock a kind n st = (st', r) →
  same_structure st st' ∧ same_counters st st' ∧ r ≠ Raise OutOfFuel.
Proof.
  revert a kind st. induction fuel as [|fuel IH]; intros a kind st Hwf Ha Hfuel; [lia|].
  cbn [ensure_available]. unfold guard, rguard, bind, lift, get.
  destruct (0 <=? n); [|by intros [= <- <-]].
  destruct (check_wall_time (clock a) a st) as [st1 [[]|e]] eqn:Hw;
    apply check_wall_time_spec in Hw as (Hs & Hc & Hf); try done;
    [|intros [= <- <-]; split_and!; [done..|congruence]].
  destruct (over_limit _ _ _); cbn [negb]; [by intros [= <- <-]|].
  destruct (parent (manager st1 a)) as [p|] eqn:Hp, (parent_kind kind); try by intros [= <- <-].
  assert (Ha1 : (a < length st1)%nat) by by rewrite (same_structure_length _ _ Hs).
  pose proof (store_wf_structure _ _ Hs Hwf) as Hwf1.
  pose proof (parent_before _ Hwf1 _ _ _ (manager_valid _ _ Ha1) Hp).
  intros (?&?&?)%IH; [|done|lia..]. split_and!; [by etrans|by etrans|done].
Qed.

(** ** The properties of the hierarchical budgets

    Reachable stores keep every counter within its limit, a consumption is
    all or nothing along the chain, a check predicts the consumption it
    precedes, a refund undoes a consumption where the kinds agree (and
    credits the wrong counter where they do not), and an allocation adds one
    child its parent can cover. *)

(** ** Child allocation *)

Definition add_child (st : store) (a : addr) (allocation_id child_component : string)
    (normalized : dict BudgetKind BudgetLimit) (started : Z) : store :=
  alter (λ m, m <| children ::= dict_set allocation_id (length st) |>) a
    (st ++ [new_manager child_component normalized (Some a) started]).

Lemma for_each_guard {A} (l : list A) (c : BudgetManager → A → bool) (x : A → BudgetManager → exn) a st st' r :
  for_each l (λ k, let* st := get in guard (c (manager st a) k) (x k (manager st a))) st = (st', r) →
  st' = st ∧ match r with
             | Ok _ => ∀ k, k ∈ l → c (manager st a) k = true
             | Raise e => ∃ k, k ∈ l ∧ e = x k (manager st a) ∧ c (manager st a) k = false
             end.
Proof.
  induction l as [|k l IH]; cbn.
  - intros [= <- <-]. split; [done|]. by intros ? ?%elem_of_nil.
  - unfold bind, get, guard, lift, rguard. destruct (c (manager st a) k) eqn:Hk.
    + intros [-> Hr]%IH. split; [done|]. destruct r.
      * intros k' [->|?]%elem_of_cons; auto.
      * destruct Hr as (k' & ? & ?). exists k'. split; [by right|done].
    + intros [= <- <-]. split; [done|]. exists k. split; [by left|done].
Qed.

Lemma rmapM_normalize_nonneg requests normalized :
  rmapM normalize_limit requests = Ok normalized →
  (∀ k l, (k, LimitValue l) ∈ requests → 0 <= l.(amount)) →
  ∀ k l, dict_get normalized k = Some l → 0 <= l.(amount).
Proof.
  revert normalized. induction requests as [|[k v] requests IH]; intros normalized; cbn [rmapM].
  - by intros [= <-].
  - intros ([k0 l0] & Hn & (rest & Hrest & [= <-])%rbind_Ok)%rbind_Ok Hval k' l'.
    assert (0 <= l0.(amount)).
    { destruct v as [l|n]; cbn in Hn; [injection Hn as <- <-; eapply Hval; by left|].
      revert Hn. unfold BudgetLimit_new, rguard. destruct (Z.leb_spec 0 n); cbn; [|done].
      by intros [= <- <-]. }
    cbn. case_decide; [by intros [= <-]|]. apply (IH rest); [done|].
    intros. eapply Hval. by right.
Qed.

Lemma rmapM_normalize_fuel requests : rmapM normalize_limit requests ≠ Raise OutOfFuel.
Proof.
  induction requests as [|[k v] requests IH]; cbn [rmapM]; [done|].
  intros [Hn|([??] & _ & [?|(? & _ & ?)]%rbind_Raise)]%rbind_Raise; try done.
  revert Hn. destruct v as [|n]; cbn; [done|]. unfold BudgetLimit_new, rguard. by destruct (0 <=? n).
Qed.

(** Every outcome of an allocation. *)
Lemma allocate_child_cases clock started a id comp requests st st' r :
  allocate_child clock started a id comp requests st = (st', r) →
  (st' = st ∧ r = Raise (BudgetError "child allocation identifier must be unique")) ∨
  (∃ e, consume (S a) clock a CHILD_AGENT_CALLS 1 false st = (st', Raise e) ∧ r = Raise e) ∨
  ∃ st1, consume (S a) clock a CHILD_AGENT_CALLS 1 false st = (st1, Ok tt) ∧
    ((∃ e, st' = st1 ∧ r = Raise e ∧ e ≠ OutOfFuel) ∨
     ∃ normalized, rmapM normalize_limit requests = Ok normalized ∧
       (∀ ks, ks ∈ covered_kinds → covers (manager st1 a) normalized ks = true) ∧
       dict_get (manager st a).(children) id = None ∧ id ≠ "" ∧
       st' = add_child st1 a id comp normalized started ∧ r = Ok (length st1)).
Proof.
  unfold allocate_child. unfold bind at 1, get. unfold bind at 1, guard, lift, rguard.
  destruct (str_true id && _) eqn:Hid; [|intros [= <- <-]; by left].
  unfold bind at 1. destruct (consume _ _ _ _ _ _ st) as [st1 [[]|e]] eqn:Hc;
    [|intros [= <- <-]; right; left; by exists e].
  intros H. right. right. exists st1. split; [done|]. revert H.
  unfold bind at 1. destruct (rmapM normalize_limit requests) as [norm|e] eqn:Hn.
  2: { intros [= <- <-]. left. exists e. split; [done|]. split; [done|].
       intros ->. by apply rmapM_normalize_fuel in Hn. }
  unfold bind at 1.
  destruct (for_each covered_kinds _ st1) as [st2 r2] eqn:Hf.
  apply (for_each_guard covered_kinds (λ m ks, covers m norm ks)
    (λ ks m, BudgetExceeded ks.2 m.(component))) in Hf as [-> Hf].
  destruct r2 as [[]|e]; [|intros [= <- <-]; left; destruct Hf as (ks & _ & -> & _); by eexists].
  unfold bind, put, update, modify, ret, get. intros [= <- <-].
  right. exists norm. split_and!; try done.
  - apply andb_prop in Hid as [_ Hm%negb_true_iff]. by apply dict_get_None, dict_mem_false.
  - apply andb_prop in Hid as [Hm%str_true_spec _]. done.
Qed.

(** ** Reachable stores *)

(** One operation on the managers of a task.  A [BudgetLimit] passed in has
    been through its constructor, so its amount is not negative. *)
Inductive budget_step : store → store → Prop :=
  | step_root st comp lims started :
      (∀ k l, dict_get lims k = Some l → 0 <= l.(amount)) →
      budget_step st (st ++ [new_manager comp lims None started])
  | step_consume st clock a kind n approx :
      (a < length st)%nat →
      budget_step st (fst (consume (S a) clock a kind n approx st))
  | step_refund st a kind n :
      (a < length st)%nat → budget_step st (fst (refund (S a) a kind n st))
  | step_ensure st clock a kind n :
      (a < length st)%nat →
      budget_step st (fst (ensure_available (S a) clock a kind n st))
  | step_wall st now a :
      (a < length st)%nat → budget_step st (fst (check_wall_time now a st))
  | step_allocate st clock started a id comp requests :
      (a < length st)%nat →
      (∀ k l, (k, LimitValue l) ∈ requests → 0 <= l.(amount)) →
      budget_step st (fst (allocate_child clock started a id comp requests st)).

Definition reachable : store → Prop := rtc budget_step [].

Definition budget_inv (st : store) : Prop := store_wf st ∧ within_limits st.

Lemma manager_out st a : ¬ (a < length st)%nat → manager st a = new_manager "" [] None 0.
Proof. intros H. unfold manager. by rewrite (proj2 (lookup_ge_None st a)) by lia. Qed.

Lemma within_limits_counter st :
  within_limits st ↔ ∀ a k, k ≠ WALL_TIME_MS → 0 <= counter st a k ∧
    ∀ l, dict_get (limits (manager st a)) k = Some l → counter st a k <= l.(amount).
Proof.
  split.
  - intros H a k Hk. destruct (decide (a < length st)%nat) as [Ha|Ha].
    + apply (H a (manager st a) k); [by apply manager_valid|done].
    + unfold counter. by rewrite (manager_out _ _ Ha).
  - intros H a m k Hm Hk. rewrite <- (manager_lookup _ _ _ Hm). by apply H.
Qed.

Lemma consumption_within st l n st' r :
  consumption st l n st' r → within_limits st → within_limits st'.
Proof.
  rewrite !within_limits_counter. intros [Hs _ Href Hdeb Hlim] Hin a k Hk.
  destruct (Hin a k Hk) as [H0 Hl]. destruct (same_structure_manager _ _ a Hs) as (_ & -> & _).
  destruct r as [u|e]; [|by rewrite (Href e eq_refl a k Hk)].
  rewrite (Hdeb u eq_refl a k Hk). destruct (Hlim u eq_refl) as [Hn Hl'].
  case_decide; [|rewrite Z.add_0_r; done]. split; [lia|]. intros lim Hlm. by eapply Hl'.
Qed.

Lemma same_counters_within st st' :
  same_structure st st' → same_counters st st' → within_limits st → within_limits st'.
Proof.
  rewrite !within_limits_counter. intros Hs Hc Hin a k Hk.
  destruct (same_structure_manager _ _ a Hs) as (_ & -> & _). rewrite (Hc a k Hk). by apply Hin.
Qed.

Lemma consume_inv fuel clock a kind n approx st st' r :
  budget_inv st → (a < length st)%nat → (a < fuel)%nat →
  consume fuel clock a kind n approx st = (st', r) →
  budget_inv st' ∧ length st' = length st ∧ r ≠ Raise OutOfFuel.
Proof.
  intros [Hwf Hin] Ha Hf Hc%consume_spec; [|done..]. pose proof (cons_structure _ _ _ _ _ Hc) as Hs.
  split_and!; [split|by apply same_structure_length|by eapply cons_fuel].
  - by eapply store_wf_structure.
  - by eapply consumption_within.
Qed.

Lemma store_wf_app st m :
  store_wf st → (∀ p, parent m = Some p → (p < length st)%nat) →
  (∀ k l, dict_get (limits m) k = Some l → 0 <= l.(amount)) → store_wf (st ++ [m]).
Proof.
  intros [Hp Hl] Hpm Hlm. split.
  - intros a m' p [?|[? [_ <-]%list_lookup_singleton_Some]]%lookup_app_Some Hpar; [by eapply Hp|].
    apply Hpm in Hpar. lia.
  - intros a m' k l [?|[? [_ <-]%list_lookup_singleton_Some]]%lookup_app_Some; [by eapply Hl|eauto].
Qed.

Lemma within_limits_app st m :
  within_limits st → consumed m = [] →
  (∀ k l, dict_get (limits m) k = Some l → 0 <= l.(amount)) → within_limits (st ++ [m]).
Proof.
  intros H Hm Hl a m' k [?|[? [_ <-]%list_lookup_singleton_Some]]%lookup_app_Some Hk; [by eapply H|].
  unfold used, dict_get_default. rewrite Hm. cbn. split; [done|]. eauto.
Qed.

(** An update that leaves parents, limits and counters alone keeps the
    invariant. *)
Lemma budget_inv_alter st a f :
  (∀ m, parent (f m) = parent m ∧ limits (f m) = limits m ∧ consumed (f m) = consumed m) →
  budget_inv st → budget_inv (alter f a st).
Proof.
  intros Hf [[Hp Hl] Hw].
  assert (Hold : ∀ b m, alter f a st !! b = Some m → ∃ m0, st !! b = Some m0 ∧
    parent m = parent m0 ∧ limits m = limits m0 ∧ consumed m = consumed m0).
  { intros b m. destruct (decide (a = b)) as [->|Hab].
    - rewrite list_lookup_alter_eq. intros (m0 & Hm0 & ->)%fmap_Some. exists m0. naive_solver.
    - rewrite list_lookup_alter_ne by done. naive_solver. }
  split; [split|].
  - intros b m p (m0 & ? & -> & _)%Hold. by eapply Hp.
  - intros b m k l (m0 & ? & _ & -> & _)%Hold. by eapply Hl.
  - intros b m k (m0 & ? & _ & Hlim & Hcons)%Hold Hk. unfold used. rewrite Hlim, Hcons. by eapply Hw.
Qed.

Lemma allocate_child_inv clock started a id comp requests st st' r :
  budget_inv st → (a < length st)%nat →
  (∀ k l, (k, LimitValue l) ∈ requests → 0 <= l.(amount)) →
  allocate_child clock started a id comp requests st = (st', r) →
  budget_inv st' ∧ r ≠ Raise OutOfFuel.
Proof.
  intros Hinv Ha Hreq [[-> ->]|[(e & Hc & ->)|(st1 & Hc & Hrest)]]%allocate_child_cases; [done|..];
    apply consume_inv in Hc as (Hinv' & Hlen & Hf); try done; try lia; [by split; congruence|].
  destruct Hrest as [(e & -> & -> & ?)|(norm & Hn & _ & _ & _ & -> & ->)]; [split; congruence|].
  split; [|done]. destruct Hinv' as [Hwf Hw]. apply budget_inv_alter; [done|]. split.
  - apply store_wf_app; [done| |by eapply rmapM_normalize_nonneg]. cbn. intros p [= <-]. lia.
  - apply within_limits_app; [done..|by eapply rmapM_normalize_nonneg].
Qed.

Lemma refund_inv fuel a kind n st :
  budget_inv st → (a < length st)%nat → (a < fuel)%nat →
  ∃ st', refund fuel a kind n st = (st', Ok tt) ∧ budget_inv st'.
Proof.
  intros [Hwf Hw] Ha Hf. destruct (refund_spec fuel a kind n st) as (st' & Hr & Hs & Hc); [done..|].
  exists st'. split; [done|]. split; [by eapply store_wf_structure|].
  rewrite within_limits_counter in *. intros b k Hk.
  destruct (same_structure_manager _ _ b Hs) as (_ & -> & _). destruct (Hw b k Hk) as [H0 Hl].
  rewrite Hc. case_decide; [|done]. split; [lia|]. intros l ?%Hl. lia.
Qed.

Lemma budget_step_inv st st' : budget_inv st → budget_step st st' → budget_inv st'.
Proof.
  intros Hinv Hstep. pose proof Hinv as [Hwf Hw].
  destruct Hstep as [st comp lims started Hl|st clock a kind n approx Ha|st a kind n Ha
    |st clock a kind n Ha|st now a Ha|st clock started a id comp requests Ha Hreq].
  - split; [by apply store_wf_app|by apply within_limits_app].
  - destruct (consume _ _ _ _ _ _ st) as [st' r] eqn:Hc. apply consume_inv in Hc; [tauto|done..|lia].
  - destruct (refund_inv (S a) a kind n st) as (st' & -> & ?); [done..|lia|done].
  - destruct (ensure_available _ _ _ _ _ st) as [st' r] eqn:Hc.
    apply ensure_available_effect in Hc as (Hs & Hsc & _); [|done|done|lia].
    split; [by eapply store_wf_structure|by eapply same_counters_within].
  - destruct (check_wall_time _ _ st) as [st' r] eqn:Hc.
    apply check_wall_time_spec in Hc as (Hs & Hsc & _); [|done].
    split; [by eapply store_wf_structure|by eapply same_counters_within].
  - destruct (allocate_child _ _ _ _ _ _ st) as [st' r] eqn:Hc.
    by apply allocate_child_inv in Hc as [? _].
Qed.

Lemma reachable_inv st : reachable st → budget_inv st.
Proof.
  intros H. eapply rtc_invariant; [apply budget_step_inv|exact H|].
  split; [split|]; intros ? ? *; by rewrite lookup_nil.
Qed.

(** ** Refunds against consumptions *)

(** Where a kind is charged to the parent as itself and every manager of the
    chain limits it, a refund walks the counters a consumption walked. *)
Lemma refund_chain_chain fuel st a kind b :
  parent_kind kind = Some kind →
  (∀ c k, (c, k) ∈ chain fuel st a kind → dict_mem kind (limits (manager st c)) = true) →
  b ∈ refund_chain fuel st a kind ↔ (b, kind) ∈ chain fuel st a kind.
Proof.
  intros Hpk. revert a. induction fuel as [|fuel IH]; intros a; cbn; [by rewrite !elem_of_nil|].
  intros Hall. rewrite (Hall a kind) by by left.
  rewrite Hpk in *. destruct (parent (manager st a)) as [p|]; rewrite !elem_of_cons.
  - rewrite IH; [naive_solver|]. intros. eapply Hall. by right.
  - rewrite !elem_of_nil. naive_solver.
Qed.

Lemma chain_same_kind fuel st a kind b k :
  parent_kind kind = Some kind → (b, k) ∈ chain fuel st a kind → k = kind.
Proof.
  intros Hpk. revert a. induction fuel as [|fuel IH]; intros a; cbn; [by intros ?%elem_of_nil|].
  intros [[= _ ->]|Hin]%elem_of_cons; [done|]. rewrite Hpk in Hin.
  destruct (parent (manager st a)); [by eapply IH|by apply elem_of_nil in Hin].
Qed.

Lemma refund_after_consume clock a kind n approx st st1 :
  budget_inv st → (a < length st)%nat →
  parent_kind kind = Some kind →
  (∀ c k, (c, k) ∈ chain (S a) st a kind → dict_mem kind (limits (manager st c)) = true) →
  consume (S a) clock a kind n approx st = (st1, Ok tt) →
  ∃ st2, refund (S a) a kind n st1 = (st2, Ok tt) ∧ same_structure st st2 ∧ same_counters st st2.
Proof.
  intros Hinv Ha Hpk Hall Hc. pose proof Hc as Hc'.
  apply consume_inv in Hc' as ([Hwf1 _] & Hlen & _); [|done|done|lia].
  destruct Hinv as [Hwf Hw]. apply consume_spec in Hc as [Hs _ _ Hdeb Hlim]; [|done|done|lia].
  destruct (refund_spec (S a) a kind n st1) as (st2 & Hr & Hs2 & Hc2); [done|lia|lia|].
  exists st2. split; [done|]. split; [by etrans|]. intros b k Hk.
  destruct (Hlim tt eq_refl) as [Hn _]. rewrite Hc2, (Hdeb tt eq_refl b k Hk).
  rewrite within_limits_counter in Hw. destruct (Hw b k Hk) as [H0 _].
  rewrite (refund_chain_structure _ _ _ _ _ Hs). pose proof (refund_chain_chain (S a) st a kind b Hpk Hall).
  pose proof (chain_same_kind (S a) st a kind b k Hpk).
  repeat case_decide; try lia; exfalso; naive_solver.
Qed.

(** ** Properties *)

(** In every store of managers built by creating, charging, refunding,
    checking and allocating budgets, a parent is older than its children and
    every counter other than the clock lies between zero and its limit. *)
Theorem budgets_stay_within_limits st : reachable st → store_wf st ∧ within_limits st.
Proof. apply reachable_inv. Qed.

(** C27: a consumption on a reachable store ends, and is all or nothing: when
    accepted, the counter of every manager on the path to the root (under
    the kind it is charged as) grows by the amount, stays within its limit,
    and nothing else moves; when refused at any level, no counter moves but
    the clock. *)
Theorem consume_all_or_nothing clock a kind n approx st st' r :
  reachable st → (a < length st)%nat →
  consume (S a) clock a kind n approx st = (st', r) →
  r ≠ Raise OutOfFuel ∧ same_structure st st' ∧
  match r with
  | Raise _ => same_counters st st'
  | Ok _ => 0 <= n ∧ ∀ b k, k ≠ WALL_TIME_MS →
      counter st' b k = counter st b k + (if decide ((b, k) ∈ chain (S a) st a kind) then n else 0) ∧
      ∀ lim, dict_get (limits (manager st b)) k = Some lim → counter st' b k <= lim.(amount)
  end.
Proof.
  intros [Hwf Hw]%reachable_inv Ha Hc. pose proof Hc as Hspec.
  apply consume_spec in Hspec; [|done|done|lia].
  pose proof (consumption_within _ _ _ _ _ Hspec Hw) as Hw'. rewrite within_limits_counter in Hw'.
  destruct Hspec as [Hs Hf Href Hdeb Hlim]. split_and!; [done..|]. destruct r as [u|e]; [|by eapply Href].
  split; [by eapply Hlim|]. intros b k Hk. split; [by eapply Hdeb|].
  destruct (same_structure_manager _ _ b Hs) as (_ & <- & _). by apply Hw'.
Qed.

(** A check ahead of an operation moves no counter but the clock, and at
    the same clock readings it gives the very answer, acceptance or
    exception, the consumption made after it gives. *)
Theorem ensure_predicts_consume clock a kind n approx st :
  reachable st → (a < length st)%nat → 0 <= n → kind ≠ WALL_TIME_MS →
  let '(st', r) := ensure_available (S a) clock a kind n st in
  same_structure st st' ∧ same_counters st st' ∧
  snd (consume (S a) clock a kind n approx st') = r.
Proof.
  intros [Hwf _]%reachable_inv Ha Hn Hk.
  destruct (ensure_available_spec (S a) clock a kind n approx st st) as (Hs & Hc & _);
    [done|done|lia|done|done|reflexivity|reflexivity|].
  destruct (ensure_available_spec (S a) clock a kind n approx st
    (fst (ensure_available (S a) clock a kind n st))) as (_ & _ & Hr); [done|done|lia|done..|].
  destruct (ensure_available _ _ _ _ _ st) as [st' r]. done.
Qed.

(** A refund gives back exactly what a consumption took, at every level,
    for a kind that is charged to the parent as itself and that every manager
    on the path limits. *)
Theorem refund_undoes_consume clock a kind n approx st st1 :
  reachable st → (a < length st)%nat → parent_kind kind = Some kind →
  (∀ c k, (c, k) ∈ chain (S a) st a kind → dict_mem kind (limits (manager st c)) = true) →
  consume (S a) clock a kind n approx st = (st1, Ok tt) →
  ∃ st2, refund (S a) a kind n st1 = (st2, Ok tt) ∧ same_structure st st2 ∧ same_counters st st2.
Proof. intros ?%reachable_inv. by apply refund_after_consume. Qed.

(** An accepted allocation adds one manager, under a fresh non-empty
    identifier of its parent, with the parent's address, nothing consumed,
    and allowances of model turns, model calls and tool calls that the parent
    can still cover; it charges the parent one child-agent call and changes
    no other counter. *)
Theorem allocate_child_effect clock started a id comp requests st st' child :
  reachable st → (a < length st)%nat →
  allocate_child clock started a id comp requests st = (st', Ok child) →
  child = length st ∧ length st' = S (length st) ∧
  id ≠ "" ∧ dict_get (manager st a).(children) id = None ∧
  dict_get (manager st' a).(children) id = Some child ∧
  (manager st' child).(parent) = Some a ∧ (manager st' child).(consumed) = [] ∧
  (∀ ks, ks ∈ covered_kinds → covers (manager st' a) (manager st' child).(limits) ks = true) ∧
  (∀ b k, k ≠ WALL_TIME_MS → (b < length st)%nat →
     counter st' b k = counter st b k + (if decide ((b, k) = (a, CHILD_AGENT_CALLS)) then 1 else 0)).
Proof.
  intros [Hwf _]%reachable_inv Ha [[_ ?]|[(e & _ & ?)|(st1 & Hc & [(e & _ & ? & _)|
    (norm & _ & Hcov & Hid & Hne & -> & [= ->])])]]%allocate_child_cases; try done.
  apply consume_spec in Hc as [Hs _ _ Hdeb _]; [|done|done|lia].
  pose proof (same_structure_length _ _ Hs) as Hlen.
  assert (Hlen' : length (st1 ++ [new_manager comp norm (Some a) started]) = S (length st1))
    by (rewrite length_app; cbn; lia).
  assert (Hold : ∀ b, (b < length st)%nat →
    manager (st1 ++ [new_manager comp norm (Some a) started]) b = manager st1 b).
  { intros b Hb. unfold manager. by rewrite lookup_app_l by lia. }
  assert (Hnew : manager (add_child st1 a id comp norm started) (length st1)
    = new_manager comp norm (Some a) started).
  { unfold add_child. rewrite manager_alter by lia. rewrite decide_False by lia.
    unfold manager. by rewrite lookup_app_r, Nat.sub_diag by lia. }
  assert (Hself : manager (add_child st1 a id comp norm started) a
    = (manager st1 a) <| children ::= dict_set id (length st1) |>).
  { unfold add_child. rewrite manager_alter, decide_True, Hold by lia. done. }
  rewrite Hnew, Hself. split_and!; try done.
  - unfold add_child. rewrite length_alter. lia.
  - cbn. rewrite dict_get_set. by rewrite decide_True.
  - intros b k Hk Hb. unfold counter at 1, add_child. rewrite manager_alter by lia.
    rewrite Hold by done.
    transitivity (counter st1 b k); [by case_decide|]. rewrite (Hdeb tt eq_refl b k Hk). f_equal.
    apply decide_ext. cbn. destruct (parent (manager st a)); rewrite list_elem_of_singleton; done.
Qed.

(** ** Witnesses *)

(** A parent with ten child turns and ten turns of its own, which has used
    three, and a child with five turns, which has used one. *)
Definition sample_limits : dict BudgetKind BudgetLimit :=
  [(CHILD_MODEL_TURNS, mk_limit 10 false); (MODEL_TURNS, mk_limit 10 false);
   (CHILD_AGENT_CALLS, mk_limit 2 false); (TOOL_CALLS, mk_limit 7 false)].

Definition sample_clock : addr → Z := λ _, 0.

Definition sample_root : store := [new_manager "main" sample_limits None 0].

Definition sample_requests : dict BudgetKind limit_request :=
  [(MODEL_TURNS, LimitAmount 5); (TOOL_CALLS, LimitValue (mk_limit 6 false))].

Definition sample_pair : store :=
  fst (allocate_child sample_clock 0 0 "child" "agent" sample_requests sample_root).

Definition sample_used : store :=
  fst ((do* consume 1 sample_clock 0 MODEL_TURNS 3 false in
        consume 2 sample_clock 1 MODEL_TURNS 1 false) sample_pair).

(** A refund of a child's model turn is passed up as a refund of the
    parent's own model turns, although the turn was charged as a child model
    turn: the parent's child allowance stays spent and its own allowance
    grows. *)
Theorem child_turn_refund_credits_parent_turns :
  let after := fst (refund 2 1 MODEL_TURNS 1 sample_used) in
  (counter sample_pair 0 CHILD_MODEL_TURNS, counter sample_used 0 CHILD_MODEL_TURNS,
   counter after 0 CHILD_MODEL_TURNS) = (0, 1, 1) ∧
  (counter sample_used 0 MODEL_TURNS, counter after 0 MODEL_TURNS) = (3, 2) ∧
  (counter sample_used 1 MODEL_TURNS, counter after 1 MODEL_TURNS) = (1, 0).
Proof. vm_compute. done. Qed.

Lemma sample_root_step : budget_step [] sample_root.
Proof.
  apply (step_root [] "main" sample_limits 0). intros k l. unfold sample_limits. cbn.
  repeat (case_decide; [by intros [= <-]|]). done.
Qed.

Lemma sample_pair_reachable : reachable sample_pair.
Proof.
  eapply rtc_l; [exact sample_root_step|]. apply rtc_once. apply step_allocate; [cbn; lia|].
  intros k l. unfold sample_requests. rewrite !elem_of_cons, elem_of_nil.
  intros [[=]|[[= _ ->]|[]]]. done.
Qed.

Lemma budgets_stay_within_limits_witness : store_wf sample_pair ∧ within_limits sample_pair.
Proof. apply (budgets_stay_within_limits sample_pair). exact sample_pair_reachable. Defined.

Lemma consume_all_or_nothing_witness :
  snd (consume 2 sample_clock 1 MODEL_TURNS 1 false sample_pair) = Ok tt ∧
  same_structure sample_pair (fst (consume 2 sample_clock 1 MODEL_TURNS 1 false sample_pair)).
Proof.
  split; [vm_compute; reflexivity|].
  refine (proj1 (proj2 (consume_all_or_nothing sample_clock 1 MODEL_TURNS 1 false sample_pair _ _ _ _ _))).
  - exact sample_pair_reachable.
  - vm_compute. lia.
  - apply surjective_pairing.
Defined.

Lemma ensure_predicts_consume_witness :
  snd (consume 2 sample_clock 1 MODEL_TURNS 6 false
    (fst (ensure_available 2 sample_clock 1 MODEL_TURNS 6 sample_pair)))
  = Raise (BudgetExceeded MODEL_TURNS "agent").
Proof.
  pose proof (ensure_predicts_consume sample_clock 1 MODEL_TURNS 6 false sample_pair
    sample_pair_reachable ltac:(vm_compute; lia) ltac:(lia) ltac:(done)) as H.
  destruct (ensure_available 2 sample_clock 1 MODEL_TURNS 6 sample_pair) as [st r] eqn:E.
  cbn [fst]. destruct H as (_ & _ & H). rewrite H. change r with (snd (st, r)). rewrite <- E. vm_compute. reflexivity.
Defined.

Lemma refund_undoes_consume_witness :
  ∃ st2, refund 2 1 TOOL_CALLS 4 (fst (consume 2 sample_clock 1 TOOL_CALLS 4 false sample_pair))
    = (st2, Ok tt) ∧ same_structure sample_pair st2 ∧ same_counters sample_pair st2.
Proof.
  apply (refund_undoes_consume sample_clock 1 TOOL_CALLS 4 false sample_pair).
  - exact sample_pair_reachable.
  - vm_compute. lia.
  - reflexivity.
  - intros c k H. change (chain 2 sample_pair 1 TOOL_CALLS) with
      (@cons (addr * BudgetKind) (1%nat, TOOL_CALLS) [(0%nat, TOOL_CALLS)]) in H.
    rewrite !elem_of_cons, elem_of_nil in H.
    destruct H as [[= -> ->]|[[= -> ->]|[]]]; vm_compute; reflexivity.
  - vm_compute. reflexivity.
Defined.

Lemma allocate_child_effect_witness :
  dict_get (manager sample_pair 0).(children) "child" = Some 1%nat.
Proof.
  refine (proj1 (proj2 (proj2 (proj2 (proj2 (allocate_child_effect sample_clock 0 0 "child" "agent"
    sample_requests sample_root sample_pair 1 _ _ _)))))).
  - apply rtc_once. exact sample_root_step.
  - cbn. lia.
  - vm_compute. reflexivity.
Defined.
