(* ===== verification/Checkpoint.v ===== *)
(** * Task-owned filesystem checkpoints: [client/harness/checkpoint.py]

    The disk maps absolute paths (lists of components, the root directory
    being the empty list) to nodes; the checkpoint object is mutable and is
    threaded with the disk, so that a raise keeps what was assigned and
    written before it.  SHA-256 ([digest]) and the JSON text codec ([dumps])
    are parameters.  The operating system's part is a disk without I/O
    faults: an operation fails only because of what is on the disk. *)

From Stdlib Require Import Ascii.
From S2P Require Import Prelude.

Open Scope py_scope.
Open Scope Z_scope.

(** ** Data *)

Inductive CheckpointStatus := ACTIVE | FINALIZED | ROLLED_BACK | STATUS_CONFLICT.
Inductive MutationType := MODIFIED | CREATED | DELETED.
Inductive PathRollbackStatus :=
  | RESTORED | REMOVED_CREATED_FILE | ALREADY_ORIGINAL | PATH_CONFLICT | MISSING | ERROR.
Inductive RollbackStatus := SUCCESS | PARTIAL | ROLLBACK_CONFLICT | FAILED.

#[export] Instance CheckpointStatus_eq_dec : EqDecision CheckpointStatus.
Proof. solve_decision. Defined.
#[export] Instance MutationType_eq_dec : EqDecision MutationType.
Proof. solve_decision. Defined.
#[export] Instance PathRollbackStatus_eq_dec : EqDecision PathRollbackStatus.
Proof. solve_decision. Defined.
#[export] Instance RollbackStatus_eq_dec : EqDecision RollbackStatus.
Proof. solve_decision. Defined.

#[export] Instance CheckpointStatus_enum : StrEnum CheckpointStatus := {|
  enum_members := [ACTIVE; FINALIZED; ROLLED_BACK; STATUS_CONFLICT];
  enum_value s := match s with ACTIVE => "active" | FINALIZED => "finalized"
                  | ROLLED_BACK => "rolled_back" | STATUS_CONFLICT => "conflict" end;
  enum_complete := ltac:(enum_all);
  enum_distinct := ltac:(enum_nodup) |}.

#[export] Instance MutationType_enum : StrEnum MutationType := {|
  enum_members := [MODIFIED; CREATED; DELETED];
  enum_value s := match s with MODIFIED => "modified" | CREATED => "created"
                  | DELETED => "deleted" end;
  enum_complete := ltac:(enum_all);
  enum_distinct := ltac:(enum_nodup) |}.

(** The text of the operating system's errors is not modelled; [SymlinkLoop]
    is the [RuntimeError] of [Path.resolve]. *)
Inductive exn :=
  | CheckpointError (msg : string)
  | OSError (msg : string)
  | SymlinkLoop.

Record CheckpointPath := mk_path {
  relative_path : string;
  original_exists : bool;
  original_hash : option string;
  blob_name : option string;
  original_mode : option Z;
  post_mutation_hash : option string;
  mutation_type : option MutationType;
  action_id : option string;
}.

#[export] Instance eta_CheckpointPath : Eta CheckpointPath := λ r,
  mk_path r.(relative_path) r.(original_exists) r.(original_hash) r.(blob_name)
    r.(original_mode) r.(post_mutation_hash) r.(mutation_type) r.(action_id).

Record Checkpoint := mk_checkpoint {
  checkpoint_id : string;
  task_id : string;
  session_id : string;
  created_at : string;
  status : CheckpointStatus;
  paths : dict string CheckpointPath;
}.

#[export] Instance eta_Checkpoint : Eta Checkpoint := λ r,
  mk_checkpoint r.(checkpoint_id) r.(task_id) r.(session_id) r.(created_at) r.(status) r.(paths).

Record PathRollbackResult := mk_path_result {
  result_path : string;
  path_status : PathRollbackStatus;
  summary : option string;
}.

Record RollbackResult := mk_rollback {
  rb_checkpoint_id : string;
  rb_status : RollbackStatus;
  rb_paths : list PathRollbackResult;
}.

Definition opt_str (o : option string) : json :=
  match o with Some s => JStr s | None => JNull end.

Definition CHECKPOINT_SCHEMA_VERSION : Z := 1.

Definition CheckpointPath_to_dict (p : CheckpointPath) : json :=
  JObj [("relative_path", JStr p.(relative_path));
        ("original_exists", JBool p.(original_exists));
        ("original_hash", opt_str p.(original_hash));
        ("blob_name", opt_str p.(blob_name));
        ("original_mode", match p.(original_mode) with Some n => JInt n | None => JNull end);
        ("post_mutation_hash", opt_str p.(post_mutation_hash));
        ("mutation_type", opt_str (enum_value <$> p.(mutation_type)));
        ("action_id", opt_str p.(action_id))].

Definition Checkpoint_to_dict (c : Checkpoint) : json :=
  JObj [("schema_version", JInt CHECKPOINT_SCHEMA_VERSION);
        ("checkpoint_id", JStr c.(checkpoint_id));
        ("task_id", JStr c.(task_id));
        ("session_id", JStr c.(session_id));
        ("created_at", JStr c.(created_at));
        ("status", JStr (enum_value c.(status)));
        ("paths", JObj (prod_map id CheckpointPath_to_dict <$> c.(paths)))].

(** ** Identifiers *)

Definition char_in (lo hi : Ascii.ascii) (c : Ascii.ascii) : bool :=
  ((Ascii.N_of_ascii lo <=? Ascii.N_of_ascii c) && (Ascii.N_of_ascii c <=? Ascii.N_of_ascii hi))%N.

Definition is_alpha (c : Ascii.ascii) : bool := char_in "A"%char "Z"%char c || char_in "a"%char "z"%char c.
Definition is_digit (c : Ascii.ascii) : bool := char_in "0"%char "9"%char c.

Fixpoint str_forall (f : Ascii.ascii → bool) (s : string) : bool :=
  match s with
  | EmptyString => true
  | String c s' => f c && str_forall f s'
  end.

(** The pattern [A-Za-z][A-Za-z0-9_-]{7,95}, matched in full. *)
Definition id_pattern (s : string) : bool :=
  match s with
  | EmptyString => false
  | String c s' =>
      is_alpha c
      && str_forall (λ c, is_alpha c || is_digit c || Ascii.eqb c "_"%char || Ascii.eqb c "-"%char) s'
      && (7 <=? String.length s')%nat && (String.length s' <=? 95)%nat
  end.

Definition validate_id (value label : string) : res exn string :=
  do? rguard (id_pattern value) (CheckpointError (String.append "invalid " label)) in Ok value.

Definition is_hex (c : Ascii.ascii) : bool := is_digit c || char_in "a"%char "f"%char c.

(** The pattern [[0-9a-f]{64}\.blob], matched in full. *)
Definition blob_pattern (s : string) : bool :=
  str_forall is_hex (String.substring 0 64 s)
  && String.eqb (String.substring 64 (String.length s - 64) s) ".blob"
  && (String.length s =? 69)%nat.

(** ** Paths *)

Abbreviation path := (list string).

(** The components [pathlib] keeps: neither empty nor ["."]. *)
Definition parts (s : string) : list string :=
  filter (λ c, c ≠ "" ∧ c ≠ ".") (split_on "/"%char s).

(** Exactly two leading slashes are kept by [pathlib] as a root of its own. *)
Inductive anchor := NoAnchor | Slash | DoubleSlash.

Definition anchor_of (s : string) : anchor :=
  match s with
  | String "/"%char (String "/"%char (String "/"%char _)) => Slash
  | String "/"%char (String "/"%char _) => DoubleSlash
  | String "/"%char _ => Slash
  | _ => NoAnchor
  end.

(** [os.path.abspath] on the components of an absolute path. *)
Definition normalize (comps : list string) : path :=
  foldl (λ acc c, if decide (c = "..") then removelast acc else acc ++ [c]) [] comps.

Fixpoint join (l : list string) : string :=
  match l with
  | [] => ""
  | [c] => c
  | c :: l' => String.append c (String "/"%char (join l'))
  end.

(** [as_posix] of a relative and of an absolute path. *)
Definition posix_relative (l : list string) : string :=
  match l with [] => "." | _ => join l end.
Definition posix_absolute (p : path) : string := String "/"%char (join p).

(** [relative_to] *)
Fixpoint relative_to (p root : path) : option (list string) :=
  match root, p with
  | [], _ => Some p
  | r :: root', c :: p' => if decide (r = c) then relative_to p' root' else None
  | _ :: _, [] => None
  end.

(** ** The disk *)

Inductive node :=
  | File (data : string) (mode : Z)
  | Dir
  | Symlink (target : string)
  | Special.

Abbreviation disk := (gmap path node).

Definition is_symlink (d : disk) (p : path) : bool :=
  match d !! p with Some (Symlink _) => true | _ => false end.

Definition is_dir (d : disk) (p : path) : bool :=
  match p with [] => true | _ => match d !! p with Some Dir => true | _ => false end end.

(** [Path.resolve]: components are resolved from the left; with [strict] each
    must exist.  A walk of more than [fuel] steps is taken for a loop. *)
Fixpoint resolve (fuel : nat) (strict : bool) (d : disk) (acc : path) (rest : list string) : res exn path :=
  match fuel with
  | O => Raise SymlinkLoop
  | S fuel =>
      match rest with
      | [] => Ok acc
      | c :: rest =>
          if decide (c = "..") then resolve fuel strict d (removelast acc) rest
          else match d !! (acc ++ [c]) with
               | Some (Symlink target) =>
                   resolve fuel strict d (match anchor_of target with NoAnchor => acc | _ => [] end)
                     (parts target ++ rest)
               | None =>
                   if strict then Raise (OSError "no such file")
                   else resolve fuel strict d (acc ++ [c]) rest
               | Some _ => resolve fuel strict d (acc ++ [c]) rest
               end
      end
  end.

(** [Path.mkdir(parents=True, exist_ok=True)] *)
Fixpoint mkdir_parents (d : disk) (acc : path) (rest : list string) : res exn disk :=
  match rest with
  | [] => Ok d
  | c :: rest =>
      match d !! (acc ++ [c]) with
      | None => mkdir_parents (<[acc ++ [c] := Dir]> d) (acc ++ [c]) rest
      | Some Dir => mkdir_parents d (acc ++ [c]) rest
      | Some _ => Raise (OSError "not a directory")
      end
  end.

(** The temporary file is written, given its mode and renamed over [p]; it is
    gone when the call returns. *)
Definition write_file (d : disk) (p : path) (data : string) (mode : Z) : res exn disk :=
  let? d := mkdir_parents d [] (removelast p) in
  match d !! p with
  | Some Dir => Raise (OSError "is a directory")
  | _ => Ok (<[p := File data mode]> d)
  end.

(** [Path.unlink] *)
Definition unlink_file (d : disk) (p : path) : res exn disk :=
  match d !! p with
  | None => Raise (OSError "no such file")
  | Some Dir => Raise (OSError "is a directory")
  | Some _ => Ok (delete p d)
  end.

(** ** The manager *)

Record CheckpointManager := mk_manager {
  storage_root : path;
  workspace : path;
  extra_roots : list path;
}.

Record state := mk_state { on_disk : disk; ckpt : Checkpoint }.

#[export] Instance eta_state : Eta state := λ s, mk_state s.(on_disk) s.(ckpt).

Abbreviation op := (M state exn).

Definition disk_op (f : disk → res exn disk) : op unit :=
  let* s := get in
  let* d := lift (f s.(on_disk)) in
  put (s <| on_disk := d |>).

Section manager.
  Context (digest : string → string) (dumps : json → string).
  Context (fuel : nat) (m : CheckpointManager).

(** [CheckpointManager.__init__], from the working directory [cwd]. *)
Definition resolve_string (strict : bool) (cwd : path) (d : disk) (s : string) : res exn path :=
  resolve fuel strict d (match anchor_of s with NoAnchor => cwd | _ => [] end) (parts s).

Fixpoint resolve_roots (cwd : path) (d : disk) (ws : path) (extra : list string)
    : res exn (list path) :=
  match extra with
  | [] => Ok []
  | item :: extra =>
      match resolve_string true cwd d item with
      | Raise (OSError _) => resolve_roots cwd d ws extra
      | Raise e => Raise e
      | Ok resolved =>
          let? roots := resolve_roots cwd d ws extra in
          Ok (if is_dir d resolved && negb (bool_decide (resolved = ws)) then resolved :: roots
              else roots)
      end
  end.

Definition init (cwd : path) (storage work : string) (extra : list string) (d : disk)
    : res exn (disk * CheckpointManager) :=
  let? sr := resolve_string false cwd d storage in
  let? ws := resolve_string true cwd d work in
  do? rguard (is_dir d ws) (CheckpointError "workspace must be a directory") in
  let? roots := resolve_roots cwd d ws extra in
  let? d := mkdir_parents d [] sr in
  Ok (d, mk_manager sr ws roots).

(** *** Targets *)

(** [_root_for] *)
Definition root_for (lexical : path) : res exn path :=
  of_option (CheckpointError "checkpoint target escapes workspace")
    (List.find (λ root, bool_decide (is_Some (relative_to lexical root)))
       (m.(workspace) :: m.(extra_roots))).

(** The loop over the components between the target and its root. *)
Fixpoint uses_symlink (fuel : nat) (d : disk) (probe root : path) : bool :=
  match fuel with
  | O => false
  | S fuel =>
      if decide (probe = root) then false
      else is_symlink d probe || uses_symlink fuel d (removelast probe) root
  end.

(** [_target] *)
Definition target (d : disk) (t : string) : res exn (path * string) :=
  let candidate := match anchor_of t with NoAnchor => m.(workspace) ++ parts t | _ => parts t end in
  let lexical := normalize candidate in
  do? rguard (match anchor_of t with DoubleSlash => false | _ => true end)
        (CheckpointError "checkpoint target escapes workspace") in
  let? root := root_for lexical in
  do? rguard (negb (uses_symlink (S (length lexical)) d lexical root))
        (CheckpointError "checkpoint target uses a symlink") in
  let? resolved := resolve fuel false d [] candidate in
  do? rguard (negb (bool_decide (is_Some (relative_to resolved m.(storage_root)))))
        (CheckpointError "checkpoint storage is not a mutation target") in
  let? rel := of_option (CheckpointError "checkpoint target escapes workspace")
                (relative_to resolved root) in
  let relative := posix_relative rel in
  do? rguard (negb (String.eqb relative "" || String.eqb relative "."
                    || String.prefix "../" relative))
        (CheckpointError "invalid checkpoint target") in
  Ok (resolved, if decide (root = m.(workspace)) then relative else posix_absolute resolved).

(** *** Storage *)

(** [_directory] without [create]. *)
Definition directory (c : Checkpoint) : res exn path :=
  do? validate_id c.(session_id) "session_id" in
  do? validate_id c.(checkpoint_id) "checkpoint_id" in
  Ok (m.(storage_root) ++ [c.(session_id); c.(checkpoint_id)]).

(** [_directory] with [create=True]. *)
Definition create_directory (c : Checkpoint) : op path :=
  let* dir := lift (directory c) in
  do* disk_op (λ d, do? rguard (bool_decide (d !! dir = None)) (OSError "file exists") in
                    mkdir_parents d [] dir) in
  ret dir.

(** [_atomic_write]; a mode not given is [0o600]. *)
Definition atomic_write (p : path) (data : string) (mode : option Z) : op unit :=
  disk_op (λ d, write_file d p data (default 384 mode)).

(** [_save] *)
Definition save : op unit :=
  let* s := get in
  let* dir := lift (directory s.(ckpt)) in
  atomic_write (dir ++ ["metadata.json"]) (dumps (Checkpoint_to_dict s.(ckpt))) None.

Definition require_active : op unit :=
  let* s := get in
  guard (bool_decide (s.(ckpt).(status) = ACTIVE)) (CheckpointError "checkpoint is not active").

(** *** Operations *)

(** The new object replaces the one in the state. *)
Definition begin_checkpoint (uuid_hex now : string) (task session : string) : op unit :=
  do* lift (validate_id task "task_id") in
  do* lift (validate_id session "session_id") in
  let c := mk_checkpoint (String.append "checkpoint_" uuid_hex) task session now ACTIVE [] in
  do* modify (λ s, s <| ckpt := c |>) in
  let* dir := create_directory c in
  do* disk_op (λ d, do? rguard (bool_decide (d !! (dir ++ ["blobs"]) = None)) (OSError "file exists") in
                    Ok (<[dir ++ ["blobs"] := Dir]> d)) in
  save.

Definition store_blob (data : string) : op string :=
  let name := String.append (digest data) ".blob" in
  let* s := get in
  let* dir := lift (directory s.(ckpt)) in
  let blob := dir ++ ["blobs"; name] in
  do* (if bool_decide (s.(on_disk) !! blob = None) then atomic_write blob data None else ret tt) in
  ret name.

Definition capture (t : string) : op CheckpointPath :=
  do* require_active in
  let* s := get in
  let* pr := lift (target s.(on_disk) t) in
  let '(path, relative) := pr in
  match dict_get s.(ckpt).(paths) relative with
  | Some item => ret item
  | None =>
      let* item :=
        match s.(on_disk) !! path with
        | None => ret (mk_path relative false None None None None None None)
        | Some (File data mode) =>
            let* name := store_blob data in
            ret (mk_path relative true (Some (digest data)) (Some name)
                   (Some (Z.land mode 4095)) None None None)
        | Some _ => raise (CheckpointError "only regular workspace files may be captured")
        end in
      do* modify (λ s, s <| ckpt := s.(ckpt) <| paths ::= dict_set relative item |> |>) in
      do* save in
      ret item
  end.

(** What a mutation was, inferred from what the file was and now is. *)
Definition infer_mutation (item : CheckpointPath) (exists_now : bool) : MutationType :=
  if negb item.(original_exists) && exists_now then CREATED
  else if item.(original_exists) && negb exists_now then DELETED
  else MODIFIED.

Definition record_mutation (t : string) (action : string) (mutation : option MutationType) : op unit :=
  do* require_active in
  let* s := get in
  let* pr := lift (target s.(on_disk) t) in
  let '(path, relative) := pr in
  let* item := lift (of_option (CheckpointError "path was not captured before mutation")
                       (dict_get s.(ckpt).(paths) relative)) in
  let* post_hash :=
    match s.(on_disk) !! path with
    | None => ret None
    | Some (File data _) => ret (Some (digest data))
    | Some _ => raise (CheckpointError "mutated path is not a regular file")
    end in
  let item := item <| post_mutation_hash := post_hash |>
    <| mutation_type := Some (default (infer_mutation item (bool_decide (is_Some post_hash))) mutation) |>
    <| action_id := Some action |> in
  do* modify (λ s, s <| ckpt := s.(ckpt) <| paths ::= dict_set relative item |> |>) in
  save.

Definition finalize : op unit :=
  do* require_active in
  do* modify (λ s, s <| ckpt := s.(ckpt) <| status := FINALIZED |> |>) in
  save.

(** *** Rollback *)

(** [_preflight] *)
Definition preflight (d : disk) (item : CheckpointPath) : res exn PathRollbackResult :=
  let? pr := target d item.(relative_path) in
  let '(path, relative) := pr in
  let result st why := Ok (mk_path_result relative st why) in
  if negb (String.eqb relative item.(relative_path)) then
    result PATH_CONFLICT (Some "path identity changed")
  else if is_symlink d path then result PATH_CONFLICT (Some "target became a symlink")
  else
    let exists_now := bool_decide (is_Some (d !! path)) in
    let current_hash := match d !! path with Some (File data _) => Some (digest data) | _ => None end in
    if item.(original_exists) && bool_decide (current_hash = item.(original_hash)) then
      result ALREADY_ORIGINAL None
    else if negb item.(original_exists) && negb exists_now then result ALREADY_ORIGINAL None
    else if bool_decide (item.(mutation_type) = Some DELETED) && item.(original_exists)
            && negb exists_now && bool_decide (item.(post_mutation_hash) = None) then
      result RESTORED None
    else if negb exists_now then
      result MISSING (Some "task-owned post-state is missing")
    else if negb (match d !! path with Some (File _ _) => true | _ => false end)
            || negb (bool_decide (current_hash = item.(post_mutation_hash))) then
      result PATH_CONFLICT (Some "current file differs from task-owned post-state")
    else result RESTORED None.

(** [_restore] *)
Definition restore (item : CheckpointPath) (checked : PathRollbackResult) : op PathRollbackResult :=
  let* s := get in
  let* pr := lift (target s.(on_disk) item.(relative_path)) in
  let '(path, _) := pr in
  if decide (checked.(path_status) = ALREADY_ORIGINAL) then ret checked
  else if negb item.(original_exists) then
    do* disk_op (λ d, unlink_file d path) in
    ret (mk_path_result item.(relative_path) REMOVED_CREATED_FILE None)
  else
    let name := default "" item.(blob_name) in
    do* guard (blob_pattern name) (CheckpointError "invalid checkpoint blob reference") in
    let* dir := lift (directory s.(ckpt)) in
    let* data := match s.(on_disk) !! (dir ++ ["blobs"; name]) with
                 | Some (File data _) => ret data
                 | _ => raise (OSError "no such file")
                 end in
    do* guard (bool_decide (Some (digest data) = item.(original_hash)))
          (CheckpointError "checkpoint blob hash mismatch") in
    do* atomic_write path data item.(original_mode) in
    ret (mk_path_result item.(relative_path) RESTORED None).

Definition blocked (st : PathRollbackStatus) : bool :=
  bool_decide (st ∈ [PATH_CONFLICT; MISSING; ERROR]).

Definition came_back (st : PathRollbackStatus) : bool :=
  bool_decide (st ∈ [RESTORED; REMOVED_CREATED_FILE; ALREADY_ORIGINAL]).

(** [except (OSError, CheckpointError)] around [_restore]. *)
Definition try_restore (item : CheckpointPath) (checked : PathRollbackResult)
    : op PathRollbackResult := λ s,
  match restore item checked s with
  | (s, Raise (CheckpointError msg)) | (s, Raise (OSError msg)) =>
      (s, Ok (mk_path_result item.(relative_path) ERROR (Some (String.substring 0 240 msg))))
  | r => r
  end.

Fixpoint restore_all (l : list (CheckpointPath * PathRollbackResult))
    : op (list PathRollbackResult) :=
  match l with
  | [] => ret []
  | (item, checked) :: l =>
      let* r := (if blocked checked.(path_status) then ret checked else try_restore item checked) in
      let* rs := restore_all l in
      ret (r :: rs)
  end.

Definition mutated (c : Checkpoint) : list CheckpointPath :=
  filter (λ item, is_Some item.(mutation_type)) (dict_values c.(paths)).

Definition rollback (all_or_nothing : bool) : op RollbackResult :=
  let* s := get in
  let cid := s.(ckpt).(checkpoint_id) in
  do* guard (bool_decide (s.(ckpt).(status) ∈ [ACTIVE; STATUS_CONFLICT]))
        (CheckpointError "checkpoint is not rollback-eligible") in
  let* checks := lift (rmapM (preflight s.(on_disk)) (mutated s.(ckpt))) in
  let conflicts := filter (λ r, blocked r.(path_status)) checks in
  if bool_decide (conflicts ≠ []) && all_or_nothing then
    do* modify (λ s, s <| ckpt := s.(ckpt) <| status := STATUS_CONFLICT |> |>) in
    do* save in
    ret (mk_rollback cid ROLLBACK_CONFLICT checks)
  else
    let* results := restore_all (zip (mutated s.(ckpt)) checks) in
    let* overall :=
      (if forallb (λ r, came_back r.(path_status)) results then
         do* modify (λ s, s <| ckpt := s.(ckpt) <| status := ROLLED_BACK |> |>) in ret SUCCESS
       else if existsb (λ r, bool_decide (r.(path_status) = PATH_CONFLICT)) results then
         do* modify (λ s, s <| ckpt := s.(ckpt) <| status := STATUS_CONFLICT |> |>) in
         ret ROLLBACK_CONFLICT
       else ret (match results with [] => FAILED | _ => PARTIAL end)) in
    do* save in
    ret (mk_rollback cid overall results).

End manager.
