(* ===== verification/CheckpointFacts.v ===== *)
(** * Facts about checkpoint paths, the disk and restoration

    Resolution yields link-free paths below a root, keys resolve back to
    their path, and writes touch the path written and missing parents only. *)

From Stdlib Require Import Ascii.
From S2P Require Import Prelude Checkpoint.

Open Scope py_scope.
Open Scope Z_scope.

(** ** Components *)

Definition slash : ascii := "/"%char.

Fixpoint no_slash (s : string) : Prop :=
  match s with EmptyString => True | String c s' => c ≠ slash ∧ no_slash s' end.

(** A component as [parts] returns it, and one that names an entry. *)
Definition part (c : string) : Prop := no_slash c ∧ c ≠ "" ∧ c ≠ ".".
Definition plain (c : string) : Prop := part c ∧ c ≠ "..".

Lemma split_on_cons s : ∃ h t, split_on slash s = h :: t.
Proof.
  induction s as [|c s (h & t & IH)]; cbn; [by eauto|].
  destruct (Ascii.eqb c slash); [by eauto|]. rewrite IH. eauto.
Qed.

Lemma split_on_no_slash s : Forall no_slash (split_on slash s).
Proof.
  induction s as [|c s IH]; cbn; [by repeat constructor|].
  destruct (Ascii.eqb_spec c slash) as [|Hc]; [by constructor|].
  destruct (split_on_cons s) as (h & t & Heq). rewrite Heq in *.
  apply Forall_cons in IH as [Hh Ht]. by repeat constructor.
Qed.

Lemma parts_part s : Forall part (parts s).
Proof.
  apply Forall_forall. unfold parts. intros c [[Hn Hd] Hin]%list_elem_of_filter.
  split; [|done]. by eapply Forall_forall in Hin; [|apply split_on_no_slash].
Qed.

Lemma split_on_app c s t :
  no_slash c → split_on slash s = t → split_on slash (String.append c (String slash s)) = c :: t.
Proof.
  intros Hc <-. induction c as [|a c IH]; [reflexivity|]. destruct Hc as [Ha Hc].
  change (String.append (String a c) (String slash s)) with (String a (String.append c (String slash s))).
  cbn. destruct (Ascii.eqb_spec a slash) as [|_]; [done|]. by rewrite IH.
Qed.

Lemma split_on_single c : no_slash c → split_on slash c = [c].
Proof.
  induction c as [|a c IH]; cbn; [done|]. intros [Ha Hc].
  destruct (Ascii.eqb_spec a slash) as [|_]; [done|]. by rewrite IH.
Qed.

Lemma split_join l : l ≠ [] → Forall no_slash l → split_on slash (join l) = l.
Proof.
  induction l as [|c l IH]; [done|]. intros _ [Hc Hl]%Forall_cons.
  destruct l as [|c' l]; [by apply split_on_single|].
  change (join (c :: c' :: l)) with (String.append c (String slash (join (c' :: l)))).
  apply split_on_app; [done|]. by apply IH.
Qed.

Lemma filter_parts l : Forall part l → filter (λ c, c ≠ "" ∧ c ≠ ".") l = l.
Proof.
  induction 1 as [|c l [_ Hc] Hl IH]; [done|]. by rewrite filter_cons_True, IH.
Qed.

Lemma parts_join l : Forall part l → parts (join l) = l.
Proof.
  intros Hl. destruct (decide (l = [])) as [->|Hne]; [reflexivity|].
  unfold parts. change "/"%char with slash. rewrite split_join; [by apply filter_parts|done|].
  eapply Forall_impl; [done|]. by intros c [? _].
Qed.

Lemma parts_posix_absolute l : Forall part l → parts (posix_absolute l) = l.
Proof.
  intros Hl. rewrite <- (parts_join l Hl) at 2. reflexivity.
Qed.

(** The text of a relative key does not start with a slash. *)
Lemma join_first c l :
  plain c → ∃ a s, join (c :: l) = String a s ∧ a ≠ slash.
Proof.
  intros [(Hs & Hne & _) _]. destruct c as [|a c]; [done|]. destruct Hs as [Ha _].
  destruct l; cbn; eauto.
Qed.

Lemma anchor_of_not_slash a s : a ≠ slash → anchor_of (String a s) = NoAnchor.
Proof. intros Ha. destruct a as [[] [] [] [] [] [] [] []]; try reflexivity. by destruct Ha. Qed.

Lemma anchor_of_slash a s : a ≠ slash → anchor_of (String slash (String a s)) = Slash.
Proof. intros Ha. destruct a as [[] [] [] [] [] [] [] []]; try reflexivity. by destruct Ha. Qed.

Lemma anchor_relative l : l ≠ [] → Forall plain l → anchor_of (posix_relative l) = NoAnchor.
Proof.
  destruct l as [|c l]; [done|]. intros _ [Hc _]%Forall_cons.
  destruct (join_first c l Hc) as (a & s & Heq & Ha). unfold posix_relative. rewrite Heq.
  by apply anchor_of_not_slash.
Qed.

Lemma anchor_absolute l : l ≠ [] → Forall plain l → anchor_of (posix_absolute l) = Slash.
Proof.
  destruct l as [|c l]; [done|]. intros _ [Hc _]%Forall_cons.
  destruct (join_first c l Hc) as (a & s & Heq & Ha). unfold posix_absolute. rewrite Heq.
  by apply anchor_of_slash.
Qed.

Lemma normalize_plain l : Forall plain l → normalize l = l.
Proof.
  unfold normalize. set (f := λ (acc : path) c, _).
  enough (∀ acc, Forall plain l → foldl f acc l = acc ++ l) as H by (intros; by rewrite H).
  induction l as [|c l IH]; intros acc Hl; cbn; [by rewrite app_nil_r|].
  apply Forall_cons in Hl as [[_ Hc] Hl]. unfold f at 2. rewrite decide_False by done.
  rewrite IH by done. by rewrite <- app_assoc.
Qed.

Lemma relative_to_Some p root rel : relative_to p root = Some rel ↔ p = root ++ rel.
Proof.
  revert p. induction root as [|r root IH]; intros [|c p]; cbn; try (split; congruence).
  case_decide; subst; [rewrite IH|]; split; congruence.
Qed.

Lemma posix_relative_join l : l ≠ [] → posix_relative l = join l.
Proof. by destruct l. Qed.

(** ** Links *)

(** No component of [p] is a symbolic link. *)
Definition linkfree (d : disk) (p : path) : Prop :=
  ∀ q c, (q ++ [c]) `prefix_of` p → is_symlink d (q ++ [c]) = false.

Lemma linkfree_nil d : linkfree d [].
Proof. intros q c Hq%prefix_nil_inv. by destruct q. Qed.

Lemma linkfree_prefix d p q : linkfree d p → q `prefix_of` p → linkfree d q.
Proof. intros H Hq q' c ?. apply H. by etrans. Qed.

Lemma linkfree_snoc d p c : linkfree d p → is_symlink d (p ++ [c]) = false → linkfree d (p ++ [c]).
Proof.
  intros Hp Hc q c' Hq. destruct Hq as [l Hl]. destruct (decide (l = [])) as [->|Hne].
  - rewrite app_nil_r in Hl. apply app_inj_tail in Hl as [-> ->]. done.
  - destruct (exists_last Hne) as (l' & x & ->). rewrite app_assoc in Hl.
    apply app_inj_tail in Hl as [-> _]. apply Hp. by exists l'.
Qed.

Lemma removelast_prefix (p : path) : removelast p `prefix_of` p.
Proof.
  destruct (decide (p = [])) as [->|Hne]; [by exists []|].
  exists [List.last p ""]. by apply app_removelast_last.
Qed.

Lemma prefix_Forall {A} (P : A → Prop) l k : Forall P k → l `prefix_of` k → Forall P l.
Proof. intros H [l' ->]. by apply Forall_app in H as [? _]. Qed.

(** Resolution yields an existing-or-not path without links, of plain
    components, no longer than the steps it may take. *)
Lemma resolve_linkfree fuel strict d acc rest p :
  linkfree d acc → resolve fuel strict d acc rest = Ok p → linkfree d p.
Proof.
  revert acc rest. induction fuel as [|fuel IH]; intros acc [|c rest] Hacc; cbn; [done..|by intros [= <-]|].
  case_decide; [apply IH, (linkfree_prefix _ acc); [done|apply removelast_prefix]|].
  destruct (d !! (acc ++ [c])) as [[| |tg|]|] eqn:Hd.
  3: apply IH; destruct (anchor_of tg); [done|apply linkfree_nil..].
  4: destruct strict; [done|].
  all: apply IH, linkfree_snoc; [done|]; unfold is_symlink; by rewrite Hd.
Qed.

Lemma resolve_plain fuel strict d acc rest p :
  Forall plain acc → Forall part rest → resolve fuel strict d acc rest = Ok p → Forall plain p.
Proof.
  revert acc rest. induction fuel as [|fuel IH]; intros acc [|c rest] Hacc Hrest; cbn;
    [done..|by intros [= <-]|].
  apply Forall_cons in Hrest as [Hc Hrest].
  case_decide; [apply IH; [|done]; eapply prefix_Forall; [done|apply removelast_prefix]|].
  destruct (d !! (acc ++ [c])) as [[| |tg|]|].
  3: { apply IH; [destruct (anchor_of tg); [done|constructor..]|].
       apply Forall_app. split; [apply parts_part|done]. }
  4: destruct strict; [done|].
  all: apply IH; [|done]; apply Forall_app; split; [done|]; by apply Forall_singleton.
Qed.

Lemma length_removelast (p : path) : (length (removelast p) ≤ length p)%nat.
Proof. destruct (removelast_prefix p) as [l Hl]. rewrite Hl at 2. rewrite length_app. lia. Qed.

Lemma resolve_length fuel strict d acc rest p :
  resolve fuel strict d acc rest = Ok p → (length p < length acc + fuel)%nat.
Proof.
  revert acc rest. induction fuel as [|fuel IH]; intros acc [|c rest]; cbn;
    [done..|intros [= <-]; lia|].
  case_decide; [intros ?%IH; pose proof (length_removelast acc); lia|].
  destruct (d !! (acc ++ [c])) as [[| |tg|]|].
  3: intros Hr%IH; destruct (anchor_of tg); cbn in Hr; lia.
  4: destruct strict; [done|].
  all: intros Hr%IH; rewrite length_app in Hr; cbn in Hr; lia.
Qed.

Lemma resolve_id fuel d acc rest :
  (length rest < fuel)%nat → Forall plain rest → linkfree d (acc ++ rest) →
  resolve fuel false d acc rest = Ok (acc ++ rest).
Proof.
  revert acc rest. induction fuel as [|fuel IH]; intros acc [|c rest]; cbn; [lia..| |].
  - intros. by rewrite app_nil_r.
  - intros Hf [[_ Hc] Hrest]%Forall_cons Hlf. rewrite decide_False by done.
    assert (Hl : is_symlink d (acc ++ [c]) = false).
    { apply Hlf. exists rest. by rewrite <- app_assoc. }
    unfold is_symlink in Hl.
    rewrite (cons_middle c acc rest), (app_assoc acc [c] rest) in Hlf |- *.
    destruct (d !! (acc ++ [c])) as [[]|]; try done; (apply IH; [lia|done|done]).
Qed.

Lemma resolve_inv fuel d acc rest p :
  Forall plain rest → linkfree d (acc ++ rest) →
  resolve fuel false d acc rest = Ok p → p = acc ++ rest.
Proof.
  revert acc rest. induction fuel as [|fuel IH]; intros acc [|c rest]; cbn; [done..| |].
  - intros _ _ [= <-]. by rewrite app_nil_r.
  - intros [[Hc Hd] Hrest]%Forall_cons Hlf. rewrite decide_False by done.
    assert (Hl : is_symlink d (acc ++ [c]) = false).
    { apply Hlf. exists rest. by rewrite <- app_assoc. }
    unfold is_symlink in Hl.
    rewrite (cons_middle c acc rest), (app_assoc acc [c] rest) in Hlf |- *.
    intros Hr. apply IH; [done|done|]. by destruct (d !! (acc ++ [c])) as [[]|].
Qed.

Lemma uses_symlink_false fuel d root rest :
  linkfree d root → (length rest < fuel)%nat →
  uses_symlink fuel d (root ++ rest) root = false → linkfree d (root ++ rest).
Proof.
  intros Hroot. revert fuel. induction rest as [|c rest IH] using rev_ind; intros fuel Hf.
  - by rewrite app_nil_r.
  - destruct fuel as [|fuel]; [lia|]. rewrite length_app in Hf. cbn in Hf. cbn.
    rewrite decide_False.
    2: { intros Heq. apply (f_equal length) in Heq. rewrite !length_app in Heq. cbn in Heq. lia. }
    rewrite app_assoc, removelast_last. intros [Hl Hrest]%orb_false_iff.
    apply linkfree_snoc; [|done]. by apply (IH fuel); [lia|].
Qed.

(** ** Targets *)

Section targets.
  Context (fuel : nat) (m : CheckpointManager).
  Implicit Types (d : disk) (p : path) (t k : string).

Definition roots : list path := workspace m :: extra_roots m.

(** The manager's roots are what [Path.resolve] gave when it was built. *)
Definition roots_clean d : Prop :=
  Forall (λ root, Forall plain root ∧ linkfree d root) roots.

Definition candidate t : list string :=
  match anchor_of t with NoAnchor => workspace m ++ parts t | _ => parts t end.

(** Everything a returned target has passed. *)
Record target_result d t p k (root : path) (rel : list string) : Prop := {
  tgt_anchor : anchor_of t ≠ DoubleSlash;
  tgt_root : root_for m (normalize (candidate t)) = Ok root;
  tgt_links : uses_symlink (S (length (normalize (candidate t)))) d (normalize (candidate t)) root = false;
  tgt_resolve : resolve fuel false d [] (candidate t) = Ok p;
  tgt_storage : relative_to p (storage_root m) = None;
  tgt_below : p = root ++ rel;
  tgt_valid : String.eqb (posix_relative rel) "" || String.eqb (posix_relative rel) "."
              || String.prefix "../" (posix_relative rel) = false;
  tgt_key : k = if decide (root = workspace m) then posix_relative rel else posix_absolute p;
}.

Lemma target_spec d t p k :
  target fuel m d t = Ok (p, k) ↔ ∃ root rel, target_result d t p k root rel.
Proof.
  unfold target. fold (candidate t). split.
  - intros (? & Ha & H)%rbind_Ok. apply rbind_Ok in H as (root & Hr & H).
    apply rbind_Ok in H as (? & Hu & H). apply rbind_Ok in H as (p' & Hp & H).
    apply rbind_Ok in H as (? & Hs & H). apply rbind_Ok in H as (rel & Hrel & H).
    apply rbind_Ok in H as (? & Hk & [= -> <-]). exists root, rel.
    apply rguard_Ok in Ha, Hu, Hs, Hk. rewrite negb_true_iff in Hu, Hs, Hk.
    apply bool_decide_eq_false, eq_None_not_Some in Hs.
    unfold of_option in Hrel. case_match; simplify_eq.
    split; try done; [by destruct (anchor_of t)|by apply relative_to_Some].
  - intros (root & rel & [Ha Hr Hu Hp Hs Hb Hv Hk]).
    assert (Hrel : relative_to p root = Some rel) by by apply relative_to_Some.
    assert (rguard (match anchor_of t with DoubleSlash => false | _ => true end)
      (CheckpointError "checkpoint target escapes workspace") = Ok tt) as -> by by destruct (anchor_of t).
    cbn [rbind]. rewrite Hr. cbn [rbind]. rewrite Hu. cbn [rbind rguard negb]. rewrite Hp. cbn [rbind].
    rewrite Hs, Hrel. cbn [of_option rbind]. by rewrite Hv, Hk.
Qed.

Lemma root_for_Ok lexical root :
  root_for m lexical = Ok root ↔
  List.find (λ root, bool_decide (is_Some (relative_to lexical root))) roots = Some root.
Proof. unfold root_for, of_option, roots. case_match; split; congruence. Qed.

Lemma target_root_in d t p k root rel : target_result d t p k root rel → root ∈ roots.
Proof.
  intros H%tgt_root%root_for_Ok. apply List.find_some in H as [H _]. by apply list_elem_of_In.
Qed.

Lemma target_rel_nonempty d t p k root rel : target_result d t p k root rel → rel ≠ [].
Proof. by intros H%tgt_valid ->. Qed.

Lemma candidate_parts t : Forall plain (workspace m) → Forall part (candidate t).
Proof.
  intros Hw. unfold candidate. destruct (anchor_of t); try apply parts_part.
  apply Forall_app. split; [|apply parts_part]. eapply Forall_impl; [exact Hw|]. by intros ? [].
Qed.

Lemma target_plain d t p k root rel :
  Forall plain (workspace m) → target_result d t p k root rel → Forall plain p.
Proof.
  intros Hw H%tgt_resolve. eapply resolve_plain; [constructor|by apply candidate_parts|done].
Qed.

Lemma target_linkfree d t p k root rel : target_result d t p k root rel → linkfree d p.
Proof. intros H%tgt_resolve. eapply resolve_linkfree; [apply linkfree_nil|done]. Qed.

(** The path as written, when it has no parent component, is the resolved
    path. *)
Lemma target_lexical d t p k root rel :
  roots_clean d → ".." ∉ parts t → target_result d t p k root rel →
  candidate t = p ∧ normalize (candidate t) = p.
Proof.
  intros Hclean Hdd H. pose proof (target_root_in _ _ _ _ _ _ H) as Hin.
  assert (Hw : Forall plain (workspace m)).
  { apply Forall_cons in Hclean as [[? _] _]. done. }
  assert (Hplain : Forall plain (candidate t)).
  { pose proof (candidate_parts t Hw) as Hp. apply Forall_forall. intros c Hc. split.
    - by eapply Forall_forall in Hp.
    - intros ->. unfold candidate in Hc. destruct (anchor_of t); try done.
      apply elem_of_app in Hc as [Hc|Hc]; [|done]. eapply Forall_forall in Hw; [|done]. by destruct Hw. }
  pose proof (normalize_plain _ Hplain) as Hn. destruct H as [_ Hroot Hu Hres _ _ _ _].
  rewrite Hn in Hroot, Hu.
  assert (Hlf : linkfree d (candidate t)).
  { apply root_for_Ok, List.find_some in Hroot as [_ [rel' Hrel]%bool_decide_eq_true].
    apply relative_to_Some in Hrel. rewrite Hrel in Hu |- *.
    apply (uses_symlink_false (S (length (root ++ rel')))).
    - unfold roots_clean in Hclean. rewrite Forall_forall in Hclean. by apply Hclean.
    - rewrite length_app. lia.
    - done. }
  assert (candidate t = p); [|by split; congruence].
  symmetry. by apply (resolve_inv fuel d [] (candidate t)).
Qed.

(** A key, read as a target, is written as its path. *)
Lemma target_key_candidate d t p k root rel :
  Forall plain (workspace m) → target_result d t p k root rel →
  candidate k = p ∧ normalize (candidate k) = p ∧ anchor_of k ≠ DoubleSlash.
Proof.
  intros Hw H. pose proof (target_plain _ _ _ _ _ _ Hw H) as Hp.
  pose proof (target_rel_nonempty _ _ _ _ _ _ H) as Hne.
  assert (Hpart : ∀ l, Forall plain l → Forall part l).
  { intros l Hl. eapply Forall_impl; [exact Hl|]. by intros ? []. }
  destruct H as [_ _ _ _ _ Hb _ Hk].
  enough (candidate k = p ∧ anchor_of k ≠ DoubleSlash) as [Hc ?].
  { rewrite Hc. split_and!; [done|by apply normalize_plain|done]. }
  unfold candidate. subst k. case_decide as Hr.
  - assert (Hrel : Forall plain rel) by (subst p; by apply Forall_app in Hp as [_ ?]).
    rewrite anchor_relative, posix_relative_join, parts_join by auto. by split; [congruence|].
  - assert (p ≠ []) by (subst p; destruct root; [done|done]).
    rewrite anchor_absolute, parts_posix_absolute by auto. done.
Qed.

Lemma target_roundtrip_aux d t p k :
  roots_clean d → ".." ∉ parts t → target fuel m d t = Ok (p, k) → target fuel m d k = Ok (p, k).
Proof.
  intros Hclean Hdd (root & rel & H)%target_spec.
  assert (Hw : Forall plain (workspace m)) by (by apply Forall_cons in Hclean as [[? _] _]).
  destruct (target_lexical _ _ _ _ _ _ Hclean Hdd H) as [Hc Hn].
  destruct (target_key_candidate _ _ _ _ _ _ Hw H) as (Hck & Hnk & Hak).
  pose proof (target_plain _ _ _ _ _ _ Hw H). pose proof (target_linkfree _ _ _ _ _ _ H).
  pose proof (resolve_length _ _ _ _ _ _ (tgt_resolve _ _ _ _ _ _ H)) as Hlen.
  apply target_spec. exists root, rel. destruct H as [Ha Hr Hu Hp Hs Hb Hv Hk].
  rewrite Hn in Hr, Hu. split; rewrite ?Hnk, ?Hck; try done.
  by apply (resolve_id fuel d []).
Qed.

(** Two keys that resolve to one path and are their own keys are one key. *)
Lemma target_key_unique d d' p k k' :
  Forall plain (workspace m) → target fuel m d k = Ok (p, k) → target fuel m d' k' = Ok (p, k') → k = k'.
Proof.
  intros Hw (root & rel & H)%target_spec (root' & rel' & H')%target_spec.
  assert (Hfirst : ∀ d k root rel, target_result d k p k root rel → (∃ rel, p = workspace m ++ rel) →
    root = workspace m).
  { clear -Hw. intros d k root rel H [rel0 Hrel0].
    destruct (target_key_candidate _ _ _ _ _ _ Hw H) as (_ & Hn & _).
    pose proof (tgt_root _ _ _ _ _ _ H) as Hr%root_for_Ok. rewrite Hn in Hr. cbn in Hr.
    rewrite bool_decide_eq_true_2 in Hr; [by injection Hr|]. exists rel0. by apply relative_to_Some. }
  pose proof (Hfirst _ _ _ _ H) as F. pose proof (Hfirst _ _ _ _ H') as F'.
  pose proof (tgt_below _ _ _ _ _ _ H) as Hb. pose proof (tgt_below _ _ _ _ _ _ H') as Hb'.
  pose proof (tgt_key _ _ _ _ _ _ H) as Hk. pose proof (tgt_key _ _ _ _ _ _ H') as Hk'.
  rewrite Hk, Hk'. destruct (decide (root = workspace m)) as [->|Hne], (decide (root' = workspace m)) as [->|Hne'];
    [|exfalso; eauto..|done].
  f_equal. eapply app_inv_head. by rewrite <- Hb, <- Hb'.
Qed.

(** A target depends on the links of the disk only. *)
Definition link_at d p : option string :=
  match d !! p with Some (Symlink t) => Some t | _ => None end.

Definition same_links d d' : Prop := ∀ p, link_at d' p = link_at d p.

Lemma is_symlink_link_at d p : is_symlink d p = bool_decide (is_Some (link_at d p)).
Proof. unfold is_symlink, link_at. by destruct (d !! p) as [[]|]. Qed.

Lemma resolve_same_links n d d' acc rest :
  same_links d d' → resolve n false d' acc rest = resolve n false d acc rest.
Proof.
  intros Hl. revert acc rest. induction n as [|n IH]; intros acc [|c rest]; cbn; try done.
  case_decide; [apply IH|]. specialize (Hl (acc ++ [c])). unfold link_at in Hl.
  destruct (d !! (acc ++ [c])) as [[]|], (d' !! (acc ++ [c])) as [[]|]; simplify_eq; apply IH.
Qed.

Lemma uses_symlink_same_links n d d' probe root :
  same_links d d' → uses_symlink n d' probe root = uses_symlink n d probe root.
Proof.
  intros Hl. revert probe. induction n as [|n IH]; intros probe; cbn; [done|].
  by rewrite !is_symlink_link_at, Hl, IH.
Qed.

Lemma target_same_links d d' t : same_links d d' → target fuel m d' t = target fuel m d t.
Proof.
  intros Hl. unfold target. fold (candidate t). rewrite (resolve_same_links _ _ _ _ _ Hl).
  destruct (rguard _ _); cbn [rbind]; [|done]. destruct (root_for m _) as [root|]; cbn [rbind]; [|done].
  by rewrite (uses_symlink_same_links _ _ _ _ _ Hl).
Qed.

#[export] Instance same_links_preorder : PreOrder same_links.
Proof. split; [done|]. intros x y z H1 H2 p. by rewrite H2, H1. Qed.
End targets.

(** ** Writes *)

(** [d'] is [d] with missing directories above [p] created. *)
Definition with_parents (p : path) (d d' : disk) : Prop :=
  ∀ q, d' !! q = d !! q ∨ (d !! q = None ∧ d' !! q = Some Dir ∧ q `prefix_of` p ∧ q ≠ p).

Lemma mkdir_parents_spec d acc rest d' c :
  mkdir_parents d acc rest = Ok d' → with_parents (acc ++ rest ++ [c]) d d'.
Proof.
  revert acc d. induction rest as [|x rest IH]; intros acc d; cbn; [intros [= <-]; by left|].
  assert (Hpre : (acc ++ [x]) `prefix_of` (acc ++ x :: rest ++ [c])).
  { exists (rest ++ [c]). by rewrite <- app_assoc. }
  assert (Hne : acc ++ [x] ≠ acc ++ x :: rest ++ [c]).
  { intros [= H]%app_inv_head. by destruct rest. }
  rewrite (cons_middle x acc (rest ++ [c])), (app_assoc acc [x] (rest ++ [c])) in Hpre, Hne |- *.
  destruct (d !! (acc ++ [x])) as [[]|] eqn:Hd; [done|apply IH|done..|].
  intros Hm%IH q. destruct (Hm q) as [Hq|(Hq & ? & ? & ?)].
  - destruct (decide (q = acc ++ [x])) as [->|Hqne].
    + right. by rewrite Hq, lookup_insert_eq.
    + left. by rewrite Hq, lookup_insert_ne.
  - right. destruct (decide (q = acc ++ [x])) as [->|Hqne]; [by rewrite lookup_insert_eq in Hq|].
    by rewrite lookup_insert_ne in Hq.
Qed.

Lemma write_file_spec d p data mode d' :
  p ≠ [] → write_file d p data mode = Ok d' →
  d' !! p = Some (File data mode) ∧
  ∀ q, q ≠ p → d' !! q = d !! q ∨ (d !! q = None ∧ d' !! q = Some Dir ∧ q `prefix_of` p).
Proof.
  intros Hp. unfold write_file. intros (d1 & Hm & H)%rbind_Ok.
  destruct (exists_last Hp) as (pp & c & ->). rewrite removelast_last in Hm.
  apply (mkdir_parents_spec _ _ _ _ c) in Hm. cbn in Hm.
  assert (d' = <[pp ++ [c] := File data mode]> d1) as ->.
  { destruct (d1 !! (pp ++ [c])) as [[]|]; naive_solver. }
  split; [by rewrite lookup_insert_eq|]. intros q Hq. rewrite lookup_insert_ne by done.
  destruct (Hm q) as [?|(?&?&?&?)]; [by left|by right].
Qed.

(** Writing fails only on what is in the way. *)
Lemma mkdir_parents_Ok d acc rest :
  (∀ q, (acc ++ q) `prefix_of` (acc ++ rest) → q ≠ [] → d !! (acc ++ q) = None ∨ d !! (acc ++ q) = Some Dir) →
  ∃ d', mkdir_parents d acc rest = Ok d'.
Proof.
  revert acc d. induction rest as [|x rest IH]; intros acc d Hq; cbn; [by eauto|].
  assert (Hstep : ∀ d1, (∀ q, q ≠ acc ++ [x] → d1 !! q = d !! q) →
    ∃ d', mkdir_parents d1 (acc ++ [x]) rest = Ok d').
  { intros d1 Hd1. apply IH. intros q Hpre Hne. rewrite Hd1.
    - rewrite <- app_assoc in Hpre |- *. apply Hq; [|done]. by rewrite <- app_assoc in Hpre.
    - intros Heq. apply Hne. apply (app_inv_head (acc ++ [x])). by rewrite app_nil_r. }
  destruct (Hq [x]) as [->| ->]; [| |apply Hstep; intros; by rewrite lookup_insert_ne|by apply Hstep].
  - exists rest. by rewrite <- app_assoc.
  - done.
Qed.

Lemma mkdir_parents_dirs d acc rest d' l :
  mkdir_parents d acc rest = Ok d' → l ≠ [] → l `prefix_of` rest → d' !! (acc ++ l) = Some Dir.
Proof.
  revert acc d l. induction rest as [|x rest IH]; intros acc d l Hm Hne Hl;
    [by apply prefix_nil_inv in Hl|].
  destruct l as [|y l]; [done|].
  pose proof (prefix_cons_inv_1 _ _ _ _ Hl) as ->. apply prefix_cons_inv_2 in Hl.
  assert (Hstep : ∀ d1, d1 !! (acc ++ [x]) = Some Dir → mkdir_parents d1 (acc ++ [x]) rest = Ok d' →
    d' !! (acc ++ x :: l) = Some Dir).
  { intros d1 Hd1 Hm1. rewrite (cons_middle x acc l), app_assoc. destruct (decide (l = [])) as [->|Hnl].
    - rewrite app_nil_r. destruct (mkdir_parents_spec _ _ _ _ x Hm1 (acc ++ [x])) as [->|(?&?&_)]; [done|congruence].
    - by eapply IH. }
  cbn in Hm. destruct (d !! (acc ++ [x])) as [[]|] eqn:Hd; try done; [by eapply Hstep|].
  eapply Hstep; [|exact Hm]. by rewrite lookup_insert_eq.
Qed.

Lemma write_file_links d p data mode d' :
  p ≠ [] → linkfree d p → write_file d p data mode = Ok d' → same_links d d'.
Proof.
  intros Hp Hlf Hw%write_file_spec; [|done]. destruct Hw as [Hpp Hq]. intros q. unfold link_at.
  destruct (decide (q = p)) as [->|Hne].
  - rewrite Hpp. destruct (exists_last Hp) as (pp & c & ->).
    specialize (Hlf pp c (reflexivity _)). unfold is_symlink in Hlf.
    by destruct (d !! (pp ++ [c])) as [[]|].
  - destruct (Hq q Hne) as [-> |(-> & -> & _)]; done.
Qed.

Lemma unlink_file_spec d p d' : unlink_file d p = Ok d' → d' = delete p d.
Proof. unfold unlink_file. destruct (d !! p) as [[]|]; naive_solver. Qed.

Lemma unlink_file_links d p d' :
  p ≠ [] → linkfree d p → unlink_file d p = Ok d' → same_links d d'.
Proof.
  intros Hp Hlf ->%unlink_file_spec q. unfold link_at. destruct (decide (q = p)) as [->|Hne].
  - rewrite lookup_delete_eq. destruct (exists_last Hp) as (pp & c & ->).
    specialize (Hlf pp c (reflexivity _)). unfold is_symlink in Hlf.
    by destruct (d !! (pp ++ [c])) as [[]|].
  - by rewrite lookup_delete_ne.
Qed.

(** ** What an operation may touch *)

(** [d'] differs from [d] at paths in [P] that are not directories, and by
    directories created above such paths. *)
Definition touches (P : path → Prop) (d d' : disk) : Prop := ∀ q,
  d' !! q = d !! q ∨
  (d !! q = None ∧ d' !! q = Some Dir ∧ ∃ p, P p ∧ q `prefix_of` p) ∨
  (P q ∧ d !! q ≠ Some Dir).

#[export] Instance touches_preorder P : PreOrder (touches P).
Proof.
  split; [by left|]. intros d1 d2 d3 H1 H2 q.
  destruct (H1 q) as [E1|[(N1 & E1 & p & ?)|?]], (H2 q) as [E2|[(N2 & E2 & p' & ?)|[? E2]]];
    try congruence; rewrite ?E1 in *; eauto 8; try by right; right.
Qed.

Lemma touches_mono (P Q : path → Prop) d d' : (∀ q, P q → Q q) → touches P d d' → touches Q d d'.
Proof. intros HPQ H q. destruct (H q) as [?|[(?&?&?&?&?)|[]]]; naive_solver. Qed.

Lemma touches_dir P d d' q : touches P d d' → d !! q = Some Dir → d' !! q = Some Dir.
Proof. intros H Hq. destruct (H q) as [->|[(?&?&?)|[_ ?]]]; congruence. Qed.

Lemma with_parents_touches p d d' : with_parents p d d' → touches (λ q, q = p) d d'.
Proof. intros H q. destruct (H q) as [?|(?&?&?&?)]; [by left|right; left; eauto]. Qed.

Lemma write_file_touches d p data mode d' :
  p ≠ [] → write_file d p data mode = Ok d' → touches (λ q, q = p) d d'.
Proof.
  intros Hp Hw. pose proof Hw as [_ Hq]%write_file_spec; [|done]. intros q.
  destruct (decide (q = p)) as [->|Hne].
  - right. right. split; [done|]. intros Hd. revert Hw. unfold write_file.
    intros (d1 & Hm & Hw)%rbind_Ok. destruct (exists_last Hp) as (pp & c & ->).
    rewrite removelast_last in Hm. apply (mkdir_parents_spec _ _ _ _ c) in Hm.
    destruct (Hm (pp ++ [c])) as [E|(N & _)]; [|congruence]. by rewrite E, Hd in Hw.
  - destruct (Hq q Hne) as [?|(?&?&?)]; [by left|right; left; eauto].
Qed.

Lemma unlink_file_touches d p d' : unlink_file d p = Ok d' → touches (λ q, q = p) d d'.
Proof.
  intros Hu q. pose proof Hu as ->%unlink_file_spec. destruct (decide (q = p)) as [->|Hne].
  - right. right. split; [done|]. intros Hd. unfold unlink_file in Hu. by rewrite Hd in Hu.
  - left. by rewrite lookup_delete_ne.
Qed.

(** ** Saving and restoring *)

Section operations.
  Context (digest : string → string) (dumps : json → string).
  Context (fuel : nat) (m : CheckpointManager).
  Implicit Types (d : disk) (p : path) (s : state).

Lemma disk_op_Ok f s s' u :
  disk_op f s = (s', Ok u) → f (on_disk s) = Ok (on_disk s') ∧ ckpt s' = ckpt s.
Proof.
  unfold disk_op, bind, get, lift, put. destruct (f (on_disk s)); [|done]. by intros [= <- _].
Qed.

Lemma disk_op_Raise f s s' e : disk_op f s = (s', Raise e) → s' = s.
Proof.
  unfold disk_op, bind, get, lift, put. destruct (f (on_disk s)); [done|]. by intros [= <- _].
Qed.

Definition in_storage p : Prop := is_Some (relative_to p (storage_root m)).

Lemma directory_Ok c dir :
  directory m c = Ok dir → dir = storage_root m ++ [session_id c; checkpoint_id c].
Proof. unfold directory. intros (? & _ & (? & _ & [= <-])%rbind_Ok)%rbind_Ok. done. Qed.

Lemma save_spec s s' r :
  save dumps m s = (s', r) →
  ckpt s' = ckpt s ∧ touches in_storage (on_disk s) (on_disk s').
Proof.
  unfold save. unfold bind at 1, get. unfold bind, lift.
  destruct (directory m (ckpt s)) as [dir|] eqn:Hd; [|by intros [= <- _]].
  apply directory_Ok in Hd as ->. unfold atomic_write. destruct r as [u|e].
  - intros [Hw ->]%disk_op_Ok. split; [done|]. eapply touches_mono; [|eapply write_file_touches; [|exact Hw]; by destruct (storage_root m)].
    intros q ->. eexists. apply relative_to_Some. by rewrite <- app_assoc.
  - by intros ->%disk_op_Raise.
Qed.

(** How a path of the checkpoint stands once it has been put back. *)
Definition put_back (item : CheckpointPath) (before after : option node) : Prop :=
  if original_exists item then
    ∃ data mode, after = Some (File data mode) ∧ Some (digest data) = original_hash item ∧
      (before = after ∨ mode = default 384 (original_mode item))
  else after = None.

Lemma target_path_nonempty d t p k : target fuel m d t = Ok (p, k) → p ≠ [].
Proof.
  intros (root & rel & H)%target_spec. pose proof (target_rel_nonempty _ _ _ _ _ _ _ _ H).
  rewrite (tgt_below _ _ _ _ _ _ _ _ H). by destruct root.
Qed.

Lemma target_links d t p k : target fuel m d t = Ok (p, k) → linkfree d p.
Proof. intros (root & rel & H)%target_spec. by eapply target_linkfree. Qed.

Lemma restore_spec item checked s s' r :
  restore digest fuel m item checked s = (s', r) →
  ckpt s' = ckpt s ∧ same_links (on_disk s) (on_disk s') ∧
  touches (λ q, ∃ k, target fuel m (on_disk s) (relative_path item) = Ok (q, k)) (on_disk s) (on_disk s') ∧
  match r with
  | Ok res =>
      path_status checked = ALREADY_ORIGINAL ∧ s' = s ∧ res = checked ∨
      came_back (path_status res) = true ∧
      ∃ p k, target fuel m (on_disk s) (relative_path item) = Ok (p, k) ∧
        put_back item (on_disk s !! p) (on_disk s' !! p)
  | Raise _ => s' = s
  end.
Proof.
  unfold restore. unfold bind at 1, get. unfold bind at 1, lift.
  destruct (target fuel m (on_disk s) (relative_path item)) as [[p k]|] eqn:Ht.
  2: intros [= <- <-]; done.
  pose proof (target_path_nonempty _ _ _ _ Ht) as Hp. pose proof (target_links _ _ _ _ Ht) as Hlf.
  assert (Hmono : ∀ d d', touches (λ q, q = p) d d' → touches (λ q, ∃ k0, Ok (p, k) = Ok (E:=exn) (q, k0)) d d').
  { intros d d'. apply touches_mono. naive_solver. }
  case_decide as Halr; [intros [= <- <-]; split_and!; try done; by left|].
  destruct (original_exists item) eqn:Ho; cbn [negb].
  2: { unfold bind. destruct (disk_op _ s) as [s1 [u|e]] eqn:Hop.
       - intros [= <- <-]. apply disk_op_Ok in Hop as [Hu Hck].
         split_and!; [done|by eapply unlink_file_links|by apply Hmono, unlink_file_touches|].
         right. split; [done|]. exists p, k. split; [done|]. unfold put_back. rewrite Ho.
         apply unlink_file_spec in Hu as ->. by rewrite lookup_delete_eq.
       - intros [= <- <-]. apply disk_op_Raise in Hop as ->. done. }
  intros H. unfold guard, bind, lift in H.
  destruct (blob_pattern _); cbn in H; [|by injection H as <- <-].
  destruct (directory m (ckpt s)) as [dir|]; [|by injection H as <- <-].
  destruct (on_disk s !! (dir ++ _)) as [[data md| | |]|]; try by injection H as <- <-.
  cbn in H. case_bool_decide as Hh; cbn in H; [|by injection H as <- <-].
  unfold atomic_write, disk_op, bind, get, lift, put in H.
  destruct (write_file _ _ _ _) as [d1|e] eqn:Hw; [|by injection H as <- <-].
  injection H as <- <-. cbn.
  split_and!; [done|by eapply write_file_links|by eapply Hmono, write_file_touches|].
  right. split; [done|]. exists p, k. split; [done|]. unfold put_back. rewrite Ho.
  apply write_file_spec in Hw as [Hpp _]; [|done]. exists data. eexists. split_and!; [done..|by right].
Qed.
End operations.
