(* ===== verification/CheckpointRollback.v ===== *)
(** * Rollback of a checkpoint

    What preflight promises about a path, what restoring a list of paths
    does, and that an accepted rollback puts every mutated path back. *)

From Stdlib Require Import Ascii.
From S2P Require Import Prelude Checkpoint CheckpointFacts.

Open Scope py_scope.
Open Scope Z_scope.

Section rollback.
  Context (digest : string → string) (dumps : json → string).
  Context (fuel : nat) (m : CheckpointManager).
  Implicit Types (d : disk) (p : path) (s : state) (item : CheckpointPath) (k : string).

(** A captured file has the hash of its bytes. *)
Definition item_wf item : Prop := original_exists item = true → is_Some (original_hash item).

Lemma blocked_not_back st : blocked st = true → came_back st = false.
Proof. by destruct st. Qed.

(** What a check that does not block says: the key is still its own, and a
    path reported as original is as it was. *)
Lemma preflight_open d item res :
  preflight digest fuel m d item = Ok res → blocked (path_status res) = false →
  ∃ p, target fuel m d (relative_path item) = Ok (p, relative_path item) ∧
    (path_status res = ALREADY_ORIGINAL → item_wf item → put_back digest item (d !! p) (d !! p)).
Proof.
  unfold preflight. intros ([p k] & Ht & H)%rbind_Ok Hb.
  destruct (String.eqb_spec k (relative_path item)) as [->|]; cbn in H; [|by injection H as <-].
  exists p. split; [done|]. intros Hst Hwf. unfold put_back, item_wf in *.
  destruct (original_exists item); cbn in H.
  - destruct (is_symlink d p); [by injection H as <-|].
    case_bool_decide as Hh.
    + destruct (Hwf eq_refl) as [h Hh']. rewrite Hh' in Hh.
      destruct (d !! p) as [[data mode| | |]|]; simplify_eq. exists data, mode. by split_and!; [..|left].
    + repeat case_match; by injection H as <-.
  - destruct (is_symlink d p); [by injection H as <-|].
    case_bool_decide as He; cbn in H; [repeat case_match; by injection H as <-|].
    by apply eq_None_not_Some in He.
Qed.

Lemma try_restore_back item checked s s' res :
  try_restore digest fuel m item checked s = (s', Ok res) → came_back (path_status res) = true →
  restore digest fuel m item checked s = (s', Ok res).
Proof.
  unfold try_restore. destruct (restore digest fuel m item checked s) as [s1 [r|[]]]; try done;
    by intros [= <- <-].
Qed.

Lemma try_restore_spec item checked s s' r :
  try_restore digest fuel m item checked s = (s', r) →
  ckpt s' = ckpt s ∧ same_links (on_disk s) (on_disk s') ∧
  touches (λ q, ∃ k, target fuel m (on_disk s) (relative_path item) = Ok (q, k)) (on_disk s) (on_disk s').
Proof.
  unfold try_restore. destruct (restore digest fuel m item checked s) as [s1 r1] eqn:Hr.
  apply restore_spec in Hr as (? & ? & ? & _). destruct r1 as [|[]]; by intros [= <- <-].
Qed.

(** The paths of a list of items on the disk [d]. *)
Definition paths_of d (items : list CheckpointPath) p : Prop :=
  ∃ item k, item ∈ items ∧ target fuel m d (relative_path item) = Ok (p, k).

Lemma restore_all_spec l s s' r d0 :
  same_links d0 (on_disk s) → restore_all digest fuel m l s = (s', r) →
  ckpt s' = ckpt s ∧ same_links d0 (on_disk s') ∧
  touches (paths_of d0 l.*1) (on_disk s) (on_disk s').
Proof.
  revert s s' r. induction l as [|[item checked] l IH]; intros s s' r Hl; cbn.
  - unfold ret. intros [= <- <-]. done.
  - set (first := if blocked _ then _ else _). unfold bind at 1.
    destruct (first s) as [s1 r1] eqn:H1.
    assert (ckpt s1 = ckpt s ∧ same_links d0 (on_disk s1) ∧
      touches (paths_of d0 (item :: l.*1)) (on_disk s) (on_disk s1)) as (Hck & Hl1 & Ht).
    { subst first. destruct (blocked (path_status checked)).
      - unfold ret in H1. injection H1 as <- <-. done.
      - apply try_restore_spec in H1 as (? & ? & Ht). split_and!; [done|by etrans|].
        eapply touches_mono; [|exact Ht]. intros q [k Hk]. exists item, k. split; [by left|].
        by rewrite <- (target_same_links _ _ d0 (on_disk s)). }
    destruct r1 as [r1|e]; [|by intros [= <- <-]].
    unfold bind. destruct (restore_all _ _ _ l s1) as [s2 r2] eqn:H2.
    apply IH in H2 as (Hck2 & Hl2 & Ht2); [|done].
    assert (Ht' : touches (paths_of d0 (item :: l.*1)) (on_disk s) (on_disk s2)).
    { etrans; [exact Ht|]. eapply touches_mono; [|exact Ht2].
      intros q (i & k & Hi & Hk). exists i, k. split; [by right|done]. }
    destruct r2; unfold ret; intros [= <- <-]; (split_and!; [congruence|done..]).
Qed.

(** Items of a rollback do not contain one another. *)
Definition unnested d (items : list CheckpointPath) : Prop :=
  ∀ i j p q k k', i ∈ items → j ∈ items →
    target fuel m d (relative_path i) = Ok (p, k) →
    target fuel m d (relative_path j) = Ok (q, k') →
    p `prefix_of` q → relative_path i = relative_path j.

(** A path is left alone by what touches only paths it does not contain. *)
Lemma touches_apart P d d' p :
  touches P d d' → (∀ q, P q → ¬ p `prefix_of` q) → d' !! p = d !! p.
Proof.
  intros H Hap. destruct (H p) as [?|[(_ & _ & q & Hq & Hpre)|[Hq _]]]; [done|exfalso..].
  - by eapply Hap.
  - by eapply Hap.
Qed.

Lemma apart d0 items item p k :
  unnested d0 (item :: items) → NoDup (relative_path <$> item :: items) →
  target fuel m d0 (relative_path item) = Ok (p, k) →
  ∀ q, paths_of d0 items q → ¬ p `prefix_of` q.
Proof.
  intros Hun [Hni _]%NoDup_cons Ht q (j & k' & Hj & Hk) Hpre. apply Hni.
  rewrite (Hun item j p q k k'); [|by left|by right|done..].
  by apply list_elem_of_fmap_2.
Qed.

Lemma restore_all_back l s s' results d0 :
  same_links d0 (on_disk s) →
  Forall (λ ic, preflight digest fuel m d0 ic.1 = Ok ic.2 ∧ item_wf ic.1) l →
  NoDup (relative_path <$> l.*1) → unnested d0 l.*1 →
  (∀ p, paths_of d0 l.*1 p → on_disk s !! p = d0 !! p) →
  restore_all digest fuel m l s = (s', Ok results) →
  forallb (λ r, came_back (path_status r)) results = true →
  ∀ item, item ∈ l.*1 → ∃ p, target fuel m d0 (relative_path item) = Ok (p, relative_path item) ∧
    put_back digest item (d0 !! p) (on_disk s' !! p).
Proof.
  revert s results. induction l as [|[item checked] l IH]; intros s results Hl Hpf Hnd Hun Huntouched;
    [by intros _ _ ? ?%elem_of_nil|].
  cbn [restore_all]. unfold bind at 1. set (first := if blocked _ then _ else _).
  destruct (first s) as [s1 [res|e]] eqn:H1; [|done].
  unfold bind. destruct (restore_all _ _ _ l s1) as [s2 [rest|e]] eqn:H2; [|done].
  unfold ret. intros [= <- <-]. cbn. intros [Hres Hrest]%andb_prop.
  apply Forall_cons in Hpf as [[Hpre Hwf] Hpf]. cbn in Hpre, Hwf.
  subst first. destruct (blocked (path_status checked)) eqn:Hblk.
  { unfold ret in H1. injection H1 as <- <-. apply blocked_not_back in Hblk. congruence. }
  apply try_restore_back in H1; [|done].
  destruct (preflight_open _ _ _ Hpre Hblk) as (p & Ht & Halready).
  apply restore_spec in H1 as (_ & Hl1 & Ht1 & Hcase).
  rewrite (target_same_links _ _ d0) in Hcase, Ht1 by done.
  assert (Hl1' : same_links d0 (on_disk s1)) by by etrans.
  assert (Hp : on_disk s !! p = d0 !! p).
  { apply Huntouched. exists item, (relative_path item). split; [by left|done]. }
  assert (Hback : put_back digest item (d0 !! p) (on_disk s1 !! p)).
  { destruct Hcase as [(Hst & -> & _)|(_ & p' & k' & Heq & Hb)].
    - rewrite Hp. by apply Halready.
    - rewrite Ht in Heq. injection Heq as <- <-. by rewrite Hp in Hb. }
  pose proof (restore_all_spec _ _ _ _ _ Hl1' H2) as (_ & _ & Ht2).
  assert (Hapart := apart _ _ _ _ _ Hun Hnd Ht).
  intros i [->|Hi]%elem_of_cons.
  - exists p. split; [done|]. by rewrite (touches_apart _ _ _ _ Ht2 Hapart).
  - cbn in Hnd. apply NoDup_cons in Hnd as [Hni Hnd].
    apply (IH s1 rest); try done.
    + intros a b ???? ??. by apply Hun; right.
    + intros q Hq. rewrite (touches_apart _ _ _ _ Ht1).
      * apply Huntouched. destruct Hq as (j & k & Hj & Hk). exists j, k. split; [by right|done].
      * intros q' [k' Hk'] Hpre'. destruct Hq as (j & kj & Hj & Hk). apply Hni.
        rewrite <- (Hun j item q q' kj k'); [by apply list_elem_of_fmap_2|by right|by left|done..].
Qed.

(** ** The whole rollback *)

Record ckpt_wf (c : Checkpoint) : Prop := {
  wf_keys : NoDup (dict_keys (paths c));
  wf_key : ∀ k item, dict_get (paths c) k = Some item → relative_path item = k ∧ item_wf item;
}.

Lemma mutated_in c item :
  ckpt_wf c → item ∈ mutated c ↔
  dict_get (paths c) (relative_path item) = Some item ∧ is_Some (mutation_type item).
Proof.
  intros [Hnd Hk]. unfold mutated, dict_values. rewrite list_elem_of_filter, list_elem_of_fmap. split.
  - intros [Hm ([k it] & -> & Hin)]. cbn. apply dict_elem_get in Hin; [|done].
    pose proof (Hk _ _ Hin) as [-> _]. done.
  - intros [Hg Hm]. split; [done|]. apply dict_get_elem in Hg. by eexists (_, item).
Qed.

Lemma mutated_NoDup c : ckpt_wf c → NoDup (relative_path <$> mutated c).
Proof.
  intros [Hnd Hk]. unfold mutated, dict_values.
  assert (Hin : ∀ k it, (k, it) ∈ paths c → relative_path it = k).
  { intros k it Hin. apply dict_elem_get in Hin; [|done]. by apply Hk in Hin as [? _]. }
  unfold dict_keys in Hnd. revert Hnd Hin. generalize (paths c) as l. clear.
  induction l as [|[k it] l IH]; intros Hnd Hin; [constructor|].
  apply NoDup_cons in Hnd as [Hni Hnd].
  assert (IHl : NoDup (relative_path <$> filter (λ i, is_Some (mutation_type i)) l.*2)).
  { apply IH; [done|]. intros. apply Hin. by right. }
  rewrite fmap_cons, filter_cons. case_decide; [|done]. cbn. apply NoDup_cons. split; [|done].
  rewrite (Hin k it) by by left. intros Hel. apply Hni.
  apply list_elem_of_fmap in Hel as (i & -> & [_ Hi]%list_elem_of_filter).
  apply list_elem_of_fmap in Hi as ([k' i'] & -> & Hi).
  apply list_elem_of_fmap. exists (k', i'). cbn. split; [|done]. apply Hin. by right.
Qed.

Lemma mutated_wf c item : ckpt_wf c → item ∈ mutated c → item_wf item.
Proof. intros Hwf [Hg _]%mutated_in; [|done]. by apply (wf_key _ Hwf) in Hg as [_ ?]. Qed.

Lemma zip_fst {A B} (l : list A) (k : list B) : length l = length k → (zip l k).*1 = l.
Proof. intros. apply fst_zip. lia. Qed.

Lemma rmapM_Ok {E A B} (f : A → res E B) l ys :
  rmapM f l = Ok ys → length ys = length l ∧ Forall (λ ic, f ic.1 = Ok ic.2) (zip l ys).
Proof.
  revert ys. induction l as [|x l IH]; intros ys; cbn; [by intros [= <-]|].
  intros (y & Hy & (ys' & Hys & [= <-])%rbind_Ok)%rbind_Ok. apply IH in Hys as [Hlen Hf].
  cbn. split; [by f_equal|by constructor].
Qed.

(** The storage directory exists, as the manager's constructor leaves it. *)
Definition storage_ready d : Prop :=
  ∀ q, q `prefix_of` storage_root m → q ≠ [] → d !! q = Some Dir.

Lemma storage_ready_touches P d d' : touches P d d' → storage_ready d → storage_ready d'.
Proof. intros Ht H q Hq Hne. eapply touches_dir; [done|by apply H]. Qed.

Lemma prefix_either (p q r : path) : p `prefix_of` r → q `prefix_of` r → p `prefix_of` q ∨ q `prefix_of` p.
Proof.
  intros [l Hl] [k Hk]. subst r. revert q Hk. induction p as [|x p IH]; intros [|y q] Hk;
    [left; by exists []|left; by eexists|right; by eexists|]. cbn in Hk. injection Hk as <- Hk.
  destruct (IH _ Hk) as [[z ->]|[z ->]]; [left|right]; by exists z.
Qed.

(** Saving the metadata leaves a target alone. *)
Lemma save_target s s' r p k d0 t :
  save dumps m s = (s', r) → storage_ready (on_disk s) → target fuel m d0 t = Ok (p, k) →
  on_disk s' !! p = on_disk s !! p.
Proof.
  intros [_ Hs]%save_spec Hready Ht. pose proof (target_path_nonempty _ _ _ _ _ _ Ht) as Hne.
  apply target_spec in Ht as (root & rel & Ht). pose proof (tgt_storage _ _ _ _ _ _ _ _ Ht) as Hst.
  destruct (Hs p) as [?|[(Hn & _ & q & [rel' Hq] & Hpre)|[[rel' Hin] _]]]; [done|exfalso|exfalso].
  - apply relative_to_Some in Hq. destruct (prefix_either p (storage_root m) q) as [Hp|[z Hp]].
    + done.
    + by exists rel'.
    + rewrite (Hready p) in Hn; done.
    + rewrite (proj2 (relative_to_Some p (storage_root m) z) Hp) in Hst. done.
  - congruence.
Qed.

(** The outcome of a rollback, as one of three: refused before anything was
    looked at or written, refused as a whole, or carried out. *)
Lemma rollback_cases aon s s' r :
  rollback digest dumps fuel m aon s = (s', r) →
  (s' = s ∧ is_ok r = false) ∨
  ∃ checks, rmapM (preflight digest fuel m (on_disk s)) (mutated (ckpt s)) = Ok checks ∧
    ((aon = true ∧ existsb (λ c, blocked (path_status c)) checks = true ∧
      ∃ r1, save dumps m (s <| ckpt := (ckpt s) <| status := STATUS_CONFLICT |> |>) = (s', r1) ∧
        r = match r1 with
            | Ok _ => Ok (mk_rollback (checkpoint_id (ckpt s)) ROLLBACK_CONFLICT checks)
            | Raise e => Raise e
            end) ∨
     ((aon = true → existsb (λ c, blocked (path_status c)) checks = false) ∧
      ∃ s1 r1, restore_all digest fuel m (zip (mutated (ckpt s)) checks) s = (s1, r1) ∧
        match r1 with
        | Raise e => s' = s1 ∧ r = Raise e
        | Ok results =>
            let back := forallb (λ r, came_back (path_status r)) results in
            let conflict := existsb (λ r, bool_decide (path_status r = PATH_CONFLICT)) results in
            let s2 := if back then s1 <| ckpt := (ckpt s1) <| status := ROLLED_BACK |> |>
                      else if conflict then s1 <| ckpt := (ckpt s1) <| status := STATUS_CONFLICT |> |>
                      else s1 in
            let overall := if back then SUCCESS else if conflict then ROLLBACK_CONFLICT else PARTIAL in
            ∃ r2, save dumps m s2 = (s', r2) ∧
              r = match r2 with
                  | Ok _ => Ok (mk_rollback (checkpoint_id (ckpt s)) overall results)
                  | Raise e => Raise e
                  end
        end)).
Proof.
  unfold rollback. unfold bind at 1, get. unfold bind at 1, guard, lift, rguard.
  case_bool_decide as Hel; [|intros [= <- <-]; by left]. clear Hel.
  unfold bind at 1. destruct (rmapM _ _) as [checks|e] eqn:Hc; [|intros [= <- <-]; by left].
  intros H. right. exists checks. split; [done|]. revert H.
  assert (Hcf : bool_decide (filter (λ r, blocked (path_status r)) checks ≠ [])
    = existsb (λ c, blocked (path_status c)) checks).
  { clear. induction checks as [|c l IH]; [done|]. rewrite filter_cons. cbn [existsb].
    destruct (blocked (path_status c)); [by rewrite bool_decide_eq_true_2|exact IH]. }
  rewrite Hcf. destruct (existsb (λ c, blocked (path_status c)) checks) eqn:He, aon; cbn [andb].
  1: { intros H. left. split_and!; [done..|]. unfold bind, modify in H.
       destruct (save dumps m _) as [s1 r1]. exists r1.
       destruct r1; unfold ret in H; injection H as <- <-; done. }
  all: unfold bind at 1; destruct (restore_all _ _ _ _ s) as [s1 r1] eqn:Hr; intros H; right;
    (split; [done|]); exists s1, r1; (split; [done|]);
    (destruct r1 as [results|e]; [|by injection H as <- <-]); cbn zeta.
  all: revert H; unfold bind, modify, ret;
    destruct (forallb _ results) eqn:Hback; [|destruct (existsb _ results)];
    try (destruct results; [done|]);
    match goal with |- context [save dumps m ?x] => destruct (save dumps m x) as [s2 [[]|e]] end;
    intros [= <- <-]; eexists; (split; [reflexivity|done]).
Qed.
End rollback.
