(* ===== verification/CheckpointSession.v ===== *)
(** * A task's use of a checkpoint

    Captures, edits and recorded mutations in any order: the record of a
    first capture is kept, the stored originals stay readable, and a rollback
    that finds the task's own post-state puts the captured state back. *)

From Stdlib Require Import Ascii.
From S2P Require Import Prelude Checkpoint CheckpointFacts CheckpointRollback.

Open Scope py_scope.
Open Scope Z_scope.

Section session.
  Context (digest : string → string) (dumps : json → string).
  Context (fuel : nat) (m : CheckpointManager).
  Implicit Types (d : disk) (p : path) (s : state) (item : CheckpointPath) (k : string).

(** The item a capture of [k] makes from what is on the disk. *)
Definition captured (before : option node) k item : Prop :=
  relative_path item = k ∧ mutation_type item = None ∧
  match before with
  | None => original_exists item = false
  | Some (File data mode) =>
      original_exists item = true ∧ original_hash item = Some (digest data) ∧
      blob_name item = Some (String.append (digest data) ".blob") ∧
      original_mode item = Some (Z.land mode 4095)
  | Some _ => False
  end.

Lemma store_blob_spec data s s' r :
  store_blob digest m data s = (s', r) →
  ckpt s' = ckpt s ∧ touches (in_storage m) (on_disk s) (on_disk s') ∧
  match r with
  | Ok name => name = String.append (digest data) ".blob" ∧
      ∃ dir, directory m (ckpt s) = Ok dir ∧
        is_Some (on_disk s' !! (dir ++ ["blobs"; name])) ∧
        (on_disk s !! (dir ++ ["blobs"; name]) = None →
         on_disk s' !! (dir ++ ["blobs"; name]) = Some (File data 384))
  | Raise _ => True
  end.
Proof.
  unfold store_blob. unfold bind at 1, get. unfold bind at 1, lift.
  destruct (directory m (ckpt s)) as [dir|] eqn:Hd; [|by intros [= <- <-]].
  pose proof (directory_Ok _ _ _ Hd) as Hdir. set (blob := dir ++ _).
  assert (Hne : blob ≠ []) by (unfold blob; by destruct dir).
  case_bool_decide as Hb.
  - unfold bind, atomic_write. destruct (disk_op _ s) as [s1 [u|e]] eqn:Hop.
    + apply disk_op_Ok in Hop as [Hw Hck]. unfold ret. intros [= <- <-].
      pose proof (write_file_spec _ _ _ _ _ Hne Hw) as [Hbl _]. split_and!; [done| |done|].
      * eapply touches_mono; [|by eapply write_file_touches]. intros q ->. unfold in_storage.
        eexists. apply relative_to_Some. unfold blob. rewrite Hdir. by rewrite <- app_assoc.
      * exists dir. fold blob. by rewrite Hbl.
    + apply disk_op_Raise in Hop as ->. by intros [= <- <-].
  - unfold bind, ret. intros [= <- <-]. split_and!; [done..|]. exists dir.
    split_and!; [done| |done]. by apply not_eq_None_Some.
Qed.

(** What a capture does: nothing to the checkpoint, or one new record under
    a key that had none, made from the file on the disk. *)
Lemma capture_spec t s s' r :
  capture digest dumps fuel m t s = (s', r) →
  touches (in_storage m) (on_disk s) (on_disk s') ∧
  (ckpt s' = ckpt s ∨
   ∃ p k item, target fuel m (on_disk s) t = Ok (p, k) ∧ dict_get (paths (ckpt s)) k = None ∧
     captured (on_disk s !! p) k item ∧
     ckpt s' = (ckpt s) <| paths ::= dict_set k item |>) ∧
  (∀ item, r = Ok item → status (ckpt s) = ACTIVE ∧ ∃ p k, target fuel m (on_disk s) t = Ok (p, k) ∧
     dict_get (paths (ckpt s')) k = Some item ∧
     (dict_get (paths (ckpt s)) k = None → captured (on_disk s !! p) k item)).
Proof.
  unfold capture, require_active. unfold bind at 1. unfold bind at 1, get.
  unfold guard at 1, lift, rguard. case_bool_decide as Hst; [|intros [= <- <-]; split_and!; [done|by left|done]].
  unfold bind at 1, get. unfold bind at 1.
  destruct (target fuel m (on_disk s) t) as [[p k]|] eqn:Ht; [|intros [= <- <-]; split_and!; [done|by left|done]].
  destruct (dict_get (paths (ckpt s)) k) as [item0|] eqn:Hg.
  { unfold ret. intros [= <- <-]. split_and!; [done|by left|]. intros item [= ->]. split; [done|].
    exists p, k. split_and!; [done..|congruence]. }
  unfold bind at 1. set (make := match on_disk s !! p with Some _ => _ | None => _ end).
  destruct (make s) as [s1 r1] eqn:Hmake.
  assert (ckpt s1 = ckpt s ∧ touches (in_storage m) (on_disk s) (on_disk s1) ∧
    match r1 with Ok item => captured (on_disk s !! p) k item | Raise _ => True end) as (Hck1 & Ht1 & Hitem).
  { subst make. destruct (on_disk s !! p) as [[data mode| | |]|]; try by injection Hmake as <- <-.
    revert Hmake. unfold bind. destruct (store_blob digest m data s) as [s2 r2] eqn:Hsb.
    apply store_blob_spec in Hsb as (? & ? & Hr). destruct r2; unfold ret; intros [= <- <-]; [|done].
    split_and!; try done. by destruct Hr as [-> _]. }
  destruct r1 as [item|e].
  2: { intros [= <- <-]. split_and!; [done|by left|done]. }
  unfold bind, modify. cbn beta. destruct (save dumps m _) as [s2 r2] eqn:Hsave.
  apply save_spec in Hsave as [Hck2 Ht2]. cbn in Hck2, Ht2. rewrite Hck1 in Hck2.
  assert (touches (in_storage m) (on_disk s) (on_disk s2)) by by etrans.
  destruct r2 as [[]|e]; unfold ret; intros [= <- <-]; (split_and!; [done|right; by exists p, k, item|]).
  - intros it [= <-]. split; [done|]. exists p, k. split_and!; [done| |done]. rewrite Hck2. cbn.
    by rewrite dict_get_set_eq.
  - done.
Qed.

(** The parts of a record a capture fixes. *)
Definition same_origin item item' : Prop :=
  relative_path item' = relative_path item ∧ original_exists item' = original_exists item ∧
  original_hash item' = original_hash item ∧ blob_name item' = blob_name item ∧
  original_mode item' = original_mode item.

#[export] Instance same_origin_preorder : PreOrder same_origin.
Proof. split; [done|]. unfold same_origin. intros x y z ??. destruct_and!. split_and!; congruence. Qed.

Lemma record_mutation_spec t a mt s s' r :
  record_mutation digest dumps fuel m t a mt s = (s', r) →
  touches (in_storage m) (on_disk s) (on_disk s') ∧
  (ckpt s' = ckpt s ∨
   ∃ p k item item', target fuel m (on_disk s) t = Ok (p, k) ∧ dict_get (paths (ckpt s)) k = Some item ∧
     same_origin item item' ∧ is_Some (mutation_type item') ∧
     ckpt s' = (ckpt s) <| paths ::= dict_set k item' |>).
Proof.
  unfold record_mutation, require_active. unfold bind at 1. unfold bind at 1, get.
  unfold guard at 1, lift, rguard. case_bool_decide; [|intros [= <- <-]; by split; [|left]].
  unfold bind at 1, get. unfold bind at 1.
  destruct (target fuel m (on_disk s) t) as [[p k]|] eqn:Ht; [|intros [= <- <-]; by split; [|left]].
  unfold bind at 1. destruct (dict_get (paths (ckpt s)) k) as [item|] eqn:Hg; cbn [of_option];
    [|intros [= <- <-]; by split; [|left]].
  unfold bind at 1. set (post := match on_disk s !! p with Some _ => _ | None => _ end).
  assert (∃ r1, post s = (s, r1)) as [r1 ->] by (subst post; destruct (on_disk s !! p) as [[]|]; by eexists).
  destruct r1 as [h|e]; [|intros [= <- <-]; by split; [|left]].
  unfold bind, modify. destruct (save dumps m _) as [s2 r2] eqn:Hsave.
  apply save_spec in Hsave as [Hck Htt]. cbn in Hck, Htt. intros [= <- <-]. split; [done|]. right.
  eexists p, k, item, _. split_and!; [done|done| | |exact Hck]; by cbn.
Qed.

(** *** Steps of a task *)

(** A step that raises is a step too; an edit may write anything outside the
    storage but changes no link. *)
Inductive session_step : state → state → Prop :=
  | step_capture t s s' r :
      capture digest dumps fuel m t s = (s', r) → session_step s s'
  | step_record t a mt s s' r :
      record_mutation digest dumps fuel m t a mt s = (s', r) → session_step s s'
  | step_edit s d' :
      touches (λ q, ¬ in_storage m q) (on_disk s) d' → same_links (on_disk s) d' →
      session_step s (s <| on_disk := d' |>).

(** What a sequence of steps keeps of the checkpoint. *)
Record keeps (c c' : Checkpoint) : Prop := {
  keeps_ids : session_id c' = session_id c ∧ checkpoint_id c' = checkpoint_id c;
  keeps_status : status c' = status c;
  keeps_origin : ∀ k item, dict_get (paths c) k = Some item →
    ∃ item', dict_get (paths c') k = Some item' ∧ same_origin item item';
}.

#[export] Instance keeps_preorder : PreOrder keeps.
Proof.
  split.
  - intros c. split; [done..|]. intros k item Hk. by exists item.
  - intros x y z [[H1 H2] H3 H4] [[H5 H6] H7 H8]. split; [split; congruence|congruence|].
    intros k item (item1 & Hk1 & Ho1)%H4. apply H8 in Hk1 as (item2 & Hk2 & Ho2).
    exists item2. split; [done|by etrans].
Qed.

Lemma keeps_set c k item :
  (∀ item0, dict_get (paths c) k = Some item0 → same_origin item0 item) →
  keeps c (c <| paths ::= dict_set k item |>).
Proof.
  intros Hs. split; [done..|]. intros k0 item0 Hk. cbn.
  destruct (decide (k = k0)) as [->|Hne]; [rewrite dict_get_set_eq; eauto|].
  rewrite dict_get_set_ne by done. by exists item0.
Qed.

Lemma session_step_keeps s s' : session_step s s' → keeps (ckpt s) (ckpt s').
Proof.
  intros [t s0 s0' r H|t a mt s0 s0' r H|s0 d' _ _]; [..|reflexivity].
  - apply capture_spec in H as (_ & [->|(p & k & item & _ & Hg & _ & ->)] & _); [reflexivity|].
    apply keeps_set. congruence.
  - apply record_mutation_spec in H as [_ [->|(p & k & item & item' & _ & Hg & Ho & _ & ->)]]; [reflexivity|].
    apply keeps_set. intros item0 Hk. by rewrite Hg in Hk; injection Hk as <-.
Qed.

Lemma ckpt_wf_set c k item :
  ckpt_wf c → relative_path item = k → item_wf item → ckpt_wf (c <| paths ::= dict_set k item |>).
Proof.
  intros [Hnd Hk] Hrel Hwf. split; cbn.
  - by apply NoDup_dict_set.
  - intros k0 item0. rewrite dict_get_set. case_decide; [by intros [= <-]; subst|apply Hk].
Qed.

Lemma captured_item_wf before k item : captured before k item → item_wf item.
Proof. intros (_ & _ & H) Ho. destruct before as [[]|]; [|done..|congruence].
  destruct H as (_ & -> & _). done. Qed.

Lemma same_origin_wf item item' : same_origin item item' → item_wf item → item_wf item'.
Proof. unfold item_wf. intros (_ & -> & -> & _). done. Qed.

Lemma session_step_wf s s' : session_step s s' → ckpt_wf (ckpt s) → ckpt_wf (ckpt s').
Proof.
  intros [t s0 s0' r H|t a mt s0 s0' r H|s0 d' _ _] Hwf; [..|done].
  - apply capture_spec in H as (_ & [->|(p & k & item & _ & Hg & Hc & ->)] & _); [done|].
    apply ckpt_wf_set; [done|by destruct Hc|by eapply captured_item_wf].
  - apply record_mutation_spec in H as [_ [->|(p & k & item & item' & _ & Hg & Ho & _ & ->)]]; [done|].
    pose proof (wf_key _ Hwf _ _ Hg) as [Hrel Hiwf].
    apply ckpt_wf_set; [done| |by eapply same_origin_wf]. destruct Ho as [-> _]. done.
Qed.

Lemma session_step_dirs s s' q :
  session_step s s' → on_disk s !! q = Some Dir → on_disk s' !! q = Some Dir.
Proof.
  intros [t s0 s0' r H|t a mt s0 s0' r H|s0 d' H _]; eapply touches_dir; [| |exact H].
  - by apply capture_spec in H as (? & _).
  - by apply record_mutation_spec in H as (? & _).
Qed.

Lemma session_keeps s s' :
  rtc session_step s s' → ckpt_wf (ckpt s) → storage_ready m (on_disk s) →
  keeps (ckpt s) (ckpt s') ∧ ckpt_wf (ckpt s') ∧ storage_ready m (on_disk s').
Proof.
  induction 1 as [s|s1 s2 s3 Hstep _ IH]; intros Hwf Hr; [done|].
  destruct IH as (Hk & ? & ?); [by eapply session_step_wf| |].
  { intros q Hq Hne. eapply session_step_dirs; [done|by apply Hr]. }
  split_and!; try done. etrans; [by apply session_step_keeps|done].
Qed.
End session.
