(* ===== verification/CheckpointStorage.v ===== *)
(** * The checkpoint's storage, and that a rollback goes through

    The blobs directory stays content-addressed and holds the bytes of every
    captured file, so a rollback that is not refused succeeds. *)

From Stdlib Require Import Ascii.
From S2P Require Import Prelude Checkpoint CheckpointFacts CheckpointRollback CheckpointSession.

Open Scope py_scope.
Open Scope Z_scope.

Lemma append_inj_r (s t x : string) : String.append s x = String.append t x → s = t.
Proof.
  assert (Hlen : ∀ u, String.length (String.append u x) = (String.length u + String.length x)%nat).
  { induction u as [|c u IH]; [done|]. change (S (String.length (String.append u x)) =
      S (String.length u + String.length x)). by rewrite IH. }
  revert t. induction s as [|c s IH]; intros [|c' t] H; [done|..].
  - apply (f_equal String.length) in H. rewrite !Hlen in H. cbn in H. lia.
  - apply (f_equal String.length) in H. rewrite !Hlen in H. cbn in H. lia.
  - change (String c (String.append s x) = String c' (String.append t x)) in H.
    injection H as -> H. by rewrite (IH t).
Qed.

Section storage.
  Context (digest : string → string) (dumps : json → string).
  Context (fuel : nat) (m : CheckpointManager).
  Implicit Types (d : disk) (p : path) (s : state) (item : CheckpointPath) (k : string).

Definition home (c : Checkpoint) : path := storage_root m ++ [session_id c; checkpoint_id c].
Definition blobs (c : Checkpoint) : path := home c ++ ["blobs"].
Definition metadata (c : Checkpoint) : path := home c ++ ["metadata.json"].

(** The bytes of a captured file are in the blobs directory under their
    digest. *)
Definition blob_kept d (c : Checkpoint) item : Prop :=
  original_exists item = true → ∃ data mode,
    original_hash item = Some (digest data) ∧
    blob_name item = Some (String.append (digest data) ".blob") ∧
    d !! (blobs c ++ [String.append (digest data) ".blob"]) = Some (File data mode).

Record stored s : Prop := {
  st_home : directory m (ckpt s) = Ok (home (ckpt s));
  st_dirs : ∀ q, q `prefix_of` blobs (ckpt s) → q ≠ [] → on_disk s !! q = Some Dir;
  st_meta : on_disk s !! metadata (ckpt s) ≠ Some Dir;
  st_addr : ∀ name n, on_disk s !! (blobs (ckpt s) ++ [name]) = Some n →
    ∃ data mode, n = File data mode ∧ name = String.append (digest data) ".blob";
  st_items : ∀ k item, dict_get (paths (ckpt s)) k = Some item →
    blob_kept (on_disk s) (ckpt s) item;
}.

Lemma blobs_in_storage c l : in_storage m (blobs c ++ l).
Proof. eexists. apply relative_to_Some. unfold blobs, home. by rewrite <- !app_assoc. Qed.

Lemma metadata_not_blob c name : ¬ (blobs c ++ [name]) `prefix_of` metadata c.
Proof.
  intros [l Hl]. unfold blobs, metadata in Hl. rewrite <- !app_assoc in Hl.
  apply app_inv_head in Hl. cbn in Hl. congruence.
Qed.

Lemma not_in_storage_apart q l c : ¬ in_storage m q → ¬ (blobs c ++ l) `prefix_of` q.
Proof.
  intros Hq [l' ->]. apply Hq. destruct (blobs_in_storage c (l ++ l')) as [r Hr].
  exists r. by rewrite <- app_assoc.
Qed.

(** Anything that leaves the blobs alone and no directory over the metadata
    keeps the storage in order. *)
Lemma stored_touches P s s' :
  stored s → touches P (on_disk s) (on_disk s') →
  (∀ q name, P q → ¬ (blobs (ckpt s) ++ [name]) `prefix_of` q) →
  on_disk s' !! metadata (ckpt s) ≠ Some Dir →
  session_id (ckpt s') = session_id (ckpt s) → checkpoint_id (ckpt s') = checkpoint_id (ckpt s) →
  (∀ k item, dict_get (paths (ckpt s')) k = Some item → blob_kept (on_disk s) (ckpt s) item) →
  stored s'.
Proof.
  intros [H1 H2 H3 H4 H5] Ht Hap Hm Hs Hc Hit.
  assert (Hh : home (ckpt s') = home (ckpt s)) by (unfold home; by rewrite Hs, Hc).
  assert (Hb : blobs (ckpt s') = blobs (ckpt s)) by (unfold blobs; by rewrite Hh).
  assert (Hsame : ∀ name, on_disk s' !! (blobs (ckpt s) ++ [name]) = on_disk s !! (blobs (ckpt s) ++ [name])).
  { intros name. eapply touches_apart; [exact Ht|]. intros q Hq. by apply Hap. }
  split.
  - rewrite Hh, <- H1. unfold directory. by rewrite Hs, Hc.
  - intros q. rewrite Hb. intros Hq Hne. eapply touches_dir; [exact Ht|by apply H2].
  - unfold metadata. by rewrite Hh.
  - intros name n. rewrite Hb, Hsame. apply H4.
  - intros k item Hk. unfold blob_kept. rewrite Hb. setoid_rewrite Hsame.
    intros Ho. by apply (Hit k item).
Qed.

Lemma save_meta s s' r :
  directory m (ckpt s) = Ok (home (ckpt s)) → save dumps m s = (s', r) →
  (r = Ok tt ∧ ckpt s' = ckpt s ∧ touches (λ q, q = metadata (ckpt s)) (on_disk s) (on_disk s') ∧
   on_disk s' !! metadata (ckpt s) = Some (File (dumps (Checkpoint_to_dict (ckpt s))) 384)) ∨
  (s' = s ∧ is_ok r = false).
Proof.
  intros Hd. unfold save. unfold bind at 1, get. unfold bind, lift. rewrite Hd. unfold atomic_write.
  assert (Hne : metadata (ckpt s) ≠ []) by (unfold metadata, home; by destruct (storage_root m)).
  fold (metadata (ckpt s)). destruct r as [[]|e].
  - intros [Hw Hck]%disk_op_Ok. left. split_and!; [done..|by eapply write_file_touches|].
    by apply write_file_spec in Hw as [? _].
  - intros ->%disk_op_Raise. by right.
Qed.

Lemma save_stored s s' r :
  stored s → save dumps m s = (s', r) → stored s'.
Proof.
  intros Hst Hs. pose proof Hst as [H1 H2 H3 H4 H5].
  apply save_meta in Hs as [(_ & Hck & Ht & Hm)|[-> _]]; [|done|done].
  eapply stored_touches; [done|exact Ht| | | | |]; rewrite ?Hck; try done.
  - intros q name ->. apply metadata_not_blob.
  - by rewrite Hm.
Qed.

(** With its directory in place, saving does not fail. *)
Lemma save_total s : stored s → ∃ s', save dumps m s = (s', Ok tt).
Proof.
  intros [H1 H2 H3 _ _].
  unfold save. unfold bind at 1, get. unfold bind, lift. rewrite H1.
  unfold atomic_write, disk_op, bind, get, lift, put, write_file. fold (metadata (ckpt s)).
  assert (removelast (metadata (ckpt s)) = home (ckpt s)) as -> by apply removelast_last.
  destruct (mkdir_parents_Ok (on_disk s) [] (home (ckpt s))) as [d' Hd'].
  { cbn. intros q Hq Hne. right. apply H2; [|done]. unfold blobs. etrans; [exact Hq|by exists ["blobs"]]. }
  rewrite Hd'. cbn [rbind].
  assert (d' !! metadata (ckpt s) ≠ Some Dir) as Hm.
  { apply (mkdir_parents_spec _ _ _ _ "metadata.json") in Hd'. cbn in Hd'.
    destruct (Hd' (metadata (ckpt s))) as [->|(_ & _ & _ & ?)]; done. }
  destruct (d' !! metadata (ckpt s)) as [[]|]; try done; by eexists.
Qed.

Lemma store_blob_stored data s s' r :
  stored s → store_blob digest m data s = (s', r) →
  stored s' ∧ ckpt s' = ckpt s ∧
  (∀ name, r = Ok name → ∃ data0 mode, digest data0 = digest data ∧
     on_disk s' !! (blobs (ckpt s) ++ [String.append (digest data) ".blob"]) = Some (File data0 mode)).
Proof.
  intros Hst H. pose proof Hst as [H1 H2 H3 H4 H5].
  unfold store_blob in H. unfold bind at 1, get in H. unfold bind at 1, lift in H. rewrite H1 in H.
  set (name := String.append (digest data) ".blob") in *.
  assert (Hpath : home (ckpt s) ++ ["blobs"; name] = blobs (ckpt s) ++ [name])
    by (unfold blobs; by rewrite <- app_assoc).
  rewrite Hpath in H. revert H. case_bool_decide as Hb.
  2: { unfold bind, ret. intros [= <- <-]. split_and!; [done..|]. intros _ _.
       apply not_eq_None_Some in Hb as [n Hn]. destruct (H4 _ _ Hn) as (data0 & mode & -> & Heq).
       exists data0, mode. split; [|done]. symmetry. by apply append_inj_r in Heq. }
  assert (Hne : blobs (ckpt s) ++ [name] ≠ []) by by destruct (blobs (ckpt s)).
  unfold bind, atomic_write. destruct (disk_op _ s) as [s1 [u|e]] eqn:Hop.
  2: { apply disk_op_Raise in Hop as ->. intros [= <- <-]. done. }
  apply disk_op_Ok in Hop as [Hw Hck]. unfold ret. intros [= <- <-].
  pose proof (write_file_touches _ _ _ _ _ Hne Hw) as Ht.
  apply write_file_spec in Hw as [Hself Hother]; [|done].
  assert (Hap : ∀ q, ¬ q `prefix_of` (blobs (ckpt s) ++ [name]) → on_disk s1 !! q = on_disk s !! q).
  { intros q Hq. destruct (Hother q) as [?|(_ & _ & ?)]; [|done..]. by intros ->. }
  assert (Hblob : ∀ name', name' ≠ name → on_disk s1 !! (blobs (ckpt s) ++ [name']) =
    on_disk s !! (blobs (ckpt s) ++ [name'])).
  { intros name' Hn. apply Hap. intros [l Hl]. rewrite <- app_assoc in Hl.
    apply app_inv_head in Hl. cbn in Hl. congruence. }
  split_and!; [|done|intros; by exists data, 384]. split; rewrite ?Hck; try done.
  - intros q Hq Hq0. eapply touches_dir; [exact Ht|by apply H2].
  - rewrite Hap; [done|]. intros [l Hl]. unfold metadata, blobs in Hl. rewrite <- !app_assoc in Hl.
    apply app_inv_head in Hl. cbn in Hl. congruence.
  - intros name' n. destruct (decide (name' = name)) as [->|Hn].
    + rewrite Hself. intros [= <-]. by exists data, 384.
    + rewrite Hblob by done. apply H4.
  - intros k item Hk Ho. destruct (H5 k item Hk Ho) as (data0 & mode & ? & ? & Hd0). exists data0, mode.
    split_and!; [done..|]. rewrite Hblob; [done|]. intros Heq. fold name in Hd0. congruence.
Qed.

(** Recording an item whose bytes are kept. *)
Lemma stored_set s k item :
  stored s → blob_kept (on_disk s) (ckpt s) item →
  stored (s <| ckpt := (ckpt s) <| paths ::= dict_set k item |> |>).
Proof.
  intros [H1 H2 H3 H4 H5] Hb. split; try done. cbn. intros k0 item0.
  rewrite dict_get_set. case_decide; [by intros [= <-]|apply H5].
Qed.

Lemma capture_stored t s s' r :
  stored s → capture digest dumps fuel m t s = (s', r) → stored s'.
Proof.
  intros Hst. unfold capture, require_active. unfold bind at 1. unfold bind at 1, get.
  unfold guard at 1, lift, rguard. case_bool_decide; [|by intros [= <- <-]].
  unfold bind at 1, get. unfold bind at 1.
  destruct (target fuel m (on_disk s) t) as [[p k]|] eqn:Ht; [|by intros [= <- <-]].
  destruct (dict_get (paths (ckpt s)) k) as [item0|] eqn:Hg; [by intros [= <- <-]|].
  unfold bind at 1. set (make := match on_disk s !! p with Some _ => _ | None => _ end).
  destruct (make s) as [s1 r1] eqn:Hmake.
  assert (stored s1 ∧ ∀ item, r1 = Ok item → blob_kept (on_disk s1) (ckpt s1) item) as [Hst1 Hitem].
  { subst make. destruct (on_disk s !! p) as [[data mode| | |]|]; try by injection Hmake as <- <-.
    2: { injection Hmake as <- <-. split; [done|]. by intros item [= <-]. }
    revert Hmake. unfold bind. destruct (store_blob digest m data s) as [s2 r2] eqn:Hsb.
    pose proof (store_blob_spec _ _ _ _ _ _ Hsb) as (_ & _ & Hr).
    apply store_blob_stored in Hsb as (? & Hck & Hkept); [|done].
    destruct r2 as [name|e]; unfold ret; intros [= <- <-]; [|done].
    split; [done|]. intros item [= <-] _. destruct Hr as [-> _].
    destruct (Hkept _ eq_refl) as (data0 & mode0 & Heq & Hd). exists data0, mode0. cbn.
    by rewrite Heq, Hck. }
  destruct r1 as [item|e]; [|by intros [= <- <-]].
  unfold bind, modify. cbn beta. destruct (save dumps m _) as [s2 r2] eqn:Hsave.
  apply save_stored in Hsave; [|apply stored_set; [done|by apply Hitem]].
  destruct r2 as [[]|e]; by intros [= <- <-].
Qed.

Lemma record_mutation_stored t a mt s s' r :
  stored s → record_mutation digest dumps fuel m t a mt s = (s', r) → stored s'.
Proof.
  intros Hst. unfold record_mutation, require_active. unfold bind at 1. unfold bind at 1, get.
  unfold guard at 1, lift, rguard. case_bool_decide; [|by intros [= <- <-]].
  unfold bind at 1, get. unfold bind at 1.
  destruct (target fuel m (on_disk s) t) as [[p k]|] eqn:Ht; [|by intros [= <- <-]].
  unfold bind at 1. destruct (dict_get (paths (ckpt s)) k) as [item|] eqn:Hg; cbn [of_option];
    [|by intros [= <- <-]].
  unfold bind at 1. set (post := match on_disk s !! p with Some _ => _ | None => _ end).
  assert (∃ r1, post s = (s, r1)) as [r1 ->] by (subst post; destruct (on_disk s !! p) as [[]|]; by eexists).
  destruct r1 as [h|e]; [|by intros [= <- <-]].
  unfold bind, modify. destruct (save dumps m _) as [s2 r2] eqn:Hsave.
  apply save_stored in Hsave; [by intros [= <- <-]|]. apply stored_set; [done|].
  exact (st_items _ Hst _ _ Hg).
Qed.

Lemma stored_outside s s' :
  stored s → touches (λ q, ¬ in_storage m q) (on_disk s) (on_disk s') → ckpt s' = ckpt s → stored s'.
Proof.
  intros Hst H Hck. eapply (stored_touches _ s); [done|exact H| | |by rewrite Hck..|].
  - intros q name Hq. by apply not_in_storage_apart.
  - assert (Hin : ∀ l, in_storage m (metadata (ckpt s) ++ l)).
    { intros l. eexists. apply relative_to_Some. unfold metadata, home. by rewrite <- !app_assoc. }
    pose proof (st_meta _ Hst) as Hm. intros Hd. apply Hm.
    destruct (H (metadata (ckpt s))) as [<-|[(_ & _ & q & Hq & [l ->])|[Hq _]]]; [done|exfalso..].
    + by apply Hq.
    + apply Hq. rewrite <- (app_nil_r (metadata _)). apply Hin.
  - rewrite Hck. apply Hst.
Qed.

Lemma session_step_stored s s' : session_step digest dumps fuel m s s' → stored s → stored s'.
Proof.
  intros [t s0 s0' r H|t a mt s0 s0' r H|s0 d' H _] Hst.
  - by eapply capture_stored.
  - by eapply record_mutation_stored.
  - by apply (stored_outside s0).
Qed.

Lemma session_stored s s' :
  rtc (session_step digest dumps fuel m) s s' → stored s → stored s'.
Proof. intros H Hst. eapply rtc_invariant; [|exact H|exact Hst]. intros. by eapply session_step_stored. Qed.

(** *** A fresh checkpoint *)

(** Everything on the disk is in a directory. *)
Definition disk_wf d : Prop := ∀ p c, is_Some (d !! (p ++ [c])) → p = [] ∨ d !! p = Some Dir.

Lemma begin_spec uuid now task session s s' :
  disk_wf (on_disk s) → begin_checkpoint dumps m uuid now task session s = (s', Ok tt) →
  stored s' ∧ ckpt s' = mk_checkpoint (String.append "checkpoint_" uuid) task session now ACTIVE [] ∧
  touches (in_storage m) (on_disk s) (on_disk s').
Proof.
  intros Hwf. unfold begin_checkpoint. unfold bind at 1, lift.
  destruct (validate_id task _); [|done]. unfold bind at 1. destruct (validate_id session _); [|done].
  set (c := mk_checkpoint _ _ _ _ _ _). unfold bind at 1, modify. unfold bind at 1, create_directory.
  unfold bind at 1, lift. destruct (directory m c) as [dir|] eqn:Hdir; [|done].
  pose proof (directory_Ok _ _ _ Hdir) as Hhome. fold (home c) in Hhome. subst dir.
  unfold bind at 1. destruct (disk_op _ _) as [s1 [u|]] eqn:Hop1; [|done].
  apply disk_op_Ok in Hop1 as [Hmk Hck1]. cbn in Hmk, Hck1.
  apply rbind_Ok in Hmk as (u1 & Hfree%rguard_Ok%bool_decide_eq_true & Hmk).
  unfold ret. unfold bind at 1. destruct (disk_op _ s1) as [s2 [u2|]] eqn:Hop2; [|done].
  apply disk_op_Ok in Hop2 as [Hbl Hck2].
  apply rbind_Ok in Hbl as (u3 & Hnoblobs%rguard_Ok%bool_decide_eq_true & [= Hbl]).
  assert (Hck : ckpt s2 = c) by congruence. intros Hsave.
  assert (Hnone : ∀ x l, on_disk s !! (home c ++ x :: l) = None).
  { intros x l. rewrite (cons_middle x), app_assoc. induction l as [|y l IH] using rev_ind.
    - rewrite app_nil_r. destruct (on_disk s !! (home c ++ [x])) eqn:E; [|done].
      destruct (Hwf (home c) x) as [?|?]; [by eexists| |congruence].
      unfold home in *. by destruct (storage_root m).
    - rewrite (app_assoc (home c ++ [x]) l [y]).
      destruct (on_disk s !! (((home c ++ [x]) ++ l) ++ [y])) eqn:E; [|done].
      destruct (Hwf ((home c ++ [x]) ++ l) y) as [?|?]; [by eexists|by destruct (home c)|congruence]. }
  assert (Hdirs : ∀ q, q `prefix_of` home c → q ≠ [] → on_disk s1 !! q = Some Dir).
  { intros q Hq Hq0. by apply (mkdir_parents_dirs _ [] _ _ q Hmk). }
  assert (Hafter : ∀ x l, on_disk s1 !! (home c ++ x :: l) = None).
  { intros x l. destruct (mkdir_parents_spec _ _ _ _ "x" Hmk (home c ++ x :: l)) as [E|(_ & _ & [z Hz] & Hne)].
    - by rewrite E.
    - exfalso. cbn in Hz, Hne. rewrite <- app_assoc in Hz. apply app_inv_head in Hz.
      destruct l; [|done]. cbn in Hz. injection Hz as <- <-. done. }
  assert (Hst2 : stored s2).
  { split; rewrite ?Hck, <- ?Hbl; try done.
    - intros q Hq Hq0. destruct (decide (q = blobs c)) as [->|Hqb]; [by rewrite lookup_insert_eq|].
      rewrite lookup_insert_ne by done. apply Hdirs; [|done].
      unfold blobs in Hq, Hqb. destruct Hq as [z Hz]. destruct (decide (z = [])) as [->|Hz0].
      + by rewrite app_nil_r in Hz.
      + destruct (exists_last Hz0) as (z' & y & ->). rewrite app_assoc in Hz.
        apply app_inj_tail in Hz as [-> _]. by exists z'.
    - unfold metadata. rewrite lookup_insert_ne by by intros [=]%app_inv_head. by rewrite Hafter.
    - intros name n. unfold blobs. rewrite <- app_assoc. rewrite lookup_insert_ne by by intros [=]%app_inv_head.
      cbn. by rewrite Hafter. }
  pose proof (save_spec _ _ _ _ _ Hsave) as [Hck' Ht3].
  split_and!; [by eapply save_stored|congruence|].
  assert (Hin : ∀ l, in_storage m (home c ++ l)).
  { intros l. eexists. apply relative_to_Some. unfold home. by rewrite <- app_assoc. }
  etrans; [|exact Ht3]. transitivity (on_disk s1).
  - apply (mkdir_parents_spec _ _ _ _ "x") in Hmk. cbn in Hmk.
    eapply touches_mono; [|by apply with_parents_touches]. intros q ->. apply Hin.
  - intros q. rewrite <- Hbl. destruct (decide (q = home c ++ ["blobs"])) as [->|Hq].
    + right. right. split; [apply Hin|]. by rewrite Hafter.
    + left. by rewrite lookup_insert_ne.
Qed.

(** *** Rollbacks that go through *)

Hypothesis digest_hex : ∀ data, blob_pattern (String.append (digest data) ".blob") = true.

(** Nothing but directories above a path. *)
Definition clear d p : Prop :=
  ∀ q, q `prefix_of` p → q ≠ p → q ≠ [] → d !! q = None ∨ d !! q = Some Dir.

Lemma preflight_restorable d item res :
  preflight digest fuel m d item = Ok res → blocked (path_status res) = false →
  ∃ p, target fuel m d (relative_path item) = Ok (p, relative_path item) ∧
    (path_status res = ALREADY_ORIGINAL ∨
     d !! p ≠ Some Dir ∧ (original_exists item = false → ∃ data mode, d !! p = Some (File data mode))).
Proof.
  unfold preflight. intros ([p k] & Ht & H)%rbind_Ok Hb.
  destruct (String.eqb_spec k (relative_path item)) as [->|]; cbn in H; [|by injection H as <-].
  exists p. split; [done|]. destruct (is_symlink d p); [by injection H as <-|].
  destruct (original_exists item); cbn in H.
  - case_bool_decide; [injection H as <-; by left|].
    destruct (d !! p) as [[data mode| | |]|]; cbn in H; [right; by split| |right; by split..].
    repeat case_bool_decide; cbn in H; repeat case_match; by injection H as <-.
  - destruct (d !! p) as [[data mode| | |]|]; cbn in H; [right; split; eauto| |..];
      repeat case_bool_decide; cbn in H; repeat case_match; injection H as <-; try done; by left.
Qed.

Lemma write_file_total d p data mode :
  p ≠ [] → clear d p → d !! p ≠ Some Dir → ∃ d', write_file d p data mode = Ok d'.
Proof.
  intros Hp Hcl Hd. destruct (exists_last Hp) as (pp & c & ->). unfold write_file. rewrite removelast_last.
  destruct (mkdir_parents_Ok d [] pp) as [d1 Hd1].
  { intros q Hq Hne. cbn in *. apply Hcl; [etrans; [exact Hq|by exists [c]]| |done].
    intros ->. apply prefix_length in Hq. rewrite length_app in Hq. cbn in Hq. lia. }
  rewrite Hd1. cbn [rbind].
  destruct (mkdir_parents_spec _ _ _ _ c Hd1 (pp ++ [c])) as [->|(_ & _ & _ & ?)]; [|done].
  destruct (d !! (pp ++ [c])) as [[]|]; try done; by eexists.
Qed.

Lemma restore_total item checked s p k :
  stored s → blob_kept (on_disk s) (ckpt s) item →
  target fuel m (on_disk s) (relative_path item) = Ok (p, k) → clear (on_disk s) p →
  path_status checked = ALREADY_ORIGINAL ∨
    on_disk s !! p ≠ Some Dir ∧
    (original_exists item = false → ∃ data mode, on_disk s !! p = Some (File data mode)) →
  ∃ s' res, restore digest fuel m item checked s = (s', Ok res) ∧ came_back (path_status res) = true.
Proof using digest_hex.
  intros Hst Hkept Ht Hcl Hcase. pose proof (target_path_nonempty _ _ _ _ _ _ Ht) as Hne.
  unfold restore. unfold bind at 1, get. unfold bind at 1, lift. rewrite Ht.
  case_decide as Ha; [exists s, checked; by rewrite Ha|].
  destruct Hcase as [?|[Hd Hf]]; [done|].
  destruct (original_exists item) eqn:Ho; cbn [negb].
  - destruct (Hkept Ho) as (data & mode & Hh & Hn & Hb). rewrite Hn.
    unfold guard, bind, lift. cbn [from_option id]. unfold id. rewrite digest_hex. cbn [rguard]. rewrite (st_home _ Hst).
    assert (home (ckpt s) ++ ["blobs"; String.append (digest data) ".blob"] =
      blobs (ckpt s) ++ [String.append (digest data) ".blob"]) as -> by (unfold blobs; by rewrite <- app_assoc).
    rewrite Hb. unfold ret. rewrite bool_decide_eq_true_2 by done. cbn [rguard].
    unfold atomic_write, disk_op, bind, get, lift, put.
    destruct (write_file_total (on_disk s) p data (default 384 (original_mode item))) as [d' ->]; [done..|].
    eexists _, _. by split.
  - destruct (Hf eq_refl) as (data & mode & Hp). unfold disk_op, bind, get, lift, put, unlink_file.
    rewrite Hp. eexists _, _. by split.
Qed.

Lemma restore_all_total l s d0 :
  stored s → same_links d0 (on_disk s) →
  Forall (λ ic, preflight digest fuel m d0 ic.1 = Ok ic.2 ∧ blocked (path_status ic.2) = false ∧
            ∃ k, dict_get (paths (ckpt s)) k = Some ic.1) l →
  NoDup (relative_path <$> l.*1) → unnested fuel m d0 l.*1 →
  (∀ p, paths_of fuel m d0 l.*1 p → on_disk s !! p = d0 !! p ∧ clear (on_disk s) p) →
  ∃ s' results, restore_all digest fuel m l s = (s', Ok results) ∧ stored s' ∧ ckpt s' = ckpt s ∧
    forallb (λ r, came_back (path_status r)) results = true.
Proof using digest_hex.
  revert s. induction l as [|[item checked] l IH]; intros s Hst Hl Hpf Hnd Hun Hagree;
    [by exists s, []|].
  apply Forall_cons in Hpf as [(Hpre & Hblk & k0 & Hk0) Hpf]. cbn in Hpre, Hblk, Hk0.
  destruct (preflight_restorable _ _ _ Hpre Hblk) as (p & Ht & Hcase).
  assert (Ht' : target fuel m (on_disk s) (relative_path item) = Ok (p, relative_path item))
    by by rewrite (target_same_links _ _ d0).
  destruct (Hagree p) as [Hp Hcl]; [by exists item, (relative_path item); split; [left|]|].
  destruct (restore_total item checked s p (relative_path item)) as (s1 & res & Hr & Hback);
    [done|exact (st_items _ Hst _ _ Hk0)|done|done|by rewrite Hp|].
  pose proof (restore_spec _ _ _ _ _ _ _ _ Hr) as (Hck & Hl1 & Ht1 & _). rewrite Ht' in Ht1.
  assert (Hout : touches (λ q, ¬ in_storage m q) (on_disk s) (on_disk s1)).
  { eapply touches_mono; [|exact Ht1]. intros q [k1 [= <- _]].
    apply target_spec in Ht as (root & rel & Ht). unfold in_storage.
    rewrite (tgt_storage _ _ _ _ _ _ _ _ Ht). by intros []. }
  cbn in Hnd. pose proof Hnd as [Hni Hnd']%NoDup_cons.
  destruct (IH s1) as (s2 & rest & Hall & Hst2 & Hck2 & Hrest); [by eapply stored_outside|by etrans| |done| | |].
  - eapply Forall_impl; [exact Hpf|]. cbn. intros ic. by rewrite Hck.
  - intros a b ???? ??. by apply Hun; right.
  - intros q Hq. destruct (Hagree q) as [Hq0 Hqc].
    { destruct Hq as (j & kj & Hj & Hkj). exists j, kj. split; [by right|done]. }
    assert (Hnot : ∀ q', q' `prefix_of` q → q' ≠ p).
    { intros q' Hpre' ->. destruct Hq as (j & kj & Hj & Hkj). apply Hni.
      rewrite (Hun item j p q (relative_path item) kj); [by apply list_elem_of_fmap_2|by left|by right|done..]. }
    assert (Hnot' : ¬ q `prefix_of` p).
    { intros Hpre'. destruct Hq as (j & kj & Hj & Hkj). apply Hni.
      rewrite <- (Hun j item q p kj (relative_path item)); [by apply list_elem_of_fmap_2|by right|by left|done..]. }
    split.
    + rewrite (touches_apart _ _ _ _ Ht1); [done|]. by intros q' [k1 [= <- _]].
    + intros q' Hq' Hne Hne0. destruct (Ht1 q') as [->|[(_ & -> & _)|[[k1 [= <- _]] _]]];
        [by apply Hqc|by right|]. by destruct (Hnot p).
  - exists s2, (res :: rest). cbn [restore_all]. rewrite Hblk. unfold bind at 1, try_restore. rewrite Hr.
    unfold bind. rewrite Hall. split_and!; [done|done|congruence|]. cbn. by rewrite Hback.
Qed.

Lemma rollback_total aon s checks :
  stored s → ckpt_wf (ckpt s) → status (ckpt s) = ACTIVE ∨ status (ckpt s) = STATUS_CONFLICT →
  rmapM (preflight digest fuel m (on_disk s)) (mutated (ckpt s)) = Ok checks →
  Forall (λ c, blocked (path_status c) = false) checks →
  unnested fuel m (on_disk s) (mutated (ckpt s)) →
  (∀ p, paths_of fuel m (on_disk s) (mutated (ckpt s)) p → clear (on_disk s) p) →
  ∃ s' results, rollback digest dumps fuel m aon s =
    (s', Ok (mk_rollback (checkpoint_id (ckpt s)) SUCCESS results)).
Proof using digest_hex.
  intros Hst Hwf Hstat Hchecks Hopen Hun Hclear.
  pose proof (rmapM_Ok _ _ _ Hchecks) as [Hlen Hpf].
  assert (Hfst : (zip (mutated (ckpt s)) checks).*1 = mutated (ckpt s)) by by apply zip_fst.
  destruct (restore_all_total (zip (mutated (ckpt s)) checks) s (on_disk s))
    as (s1 & results & Hr & Hst1 & Hck & Hback); rewrite ?Hfst; try done.
  - apply Forall_forall. intros [i c] Hic.
    split; [by eapply Forall_forall in Hpf|].
    split; [eapply Forall_forall in Hopen; [exact Hopen|by eapply elem_of_zip_r]|].
    apply elem_of_zip_l in Hic. apply mutated_in in Hic as [Hg _]; [|done]. by eexists.
  - by apply mutated_NoDup.
  - intros p Hp. split; [done|by apply Hclear].
  - unfold rollback. unfold bind at 1, get. unfold bind at 1, guard, lift, rguard.
    rewrite bool_decide_eq_true_2 by (rewrite elem_of_cons, list_elem_of_singleton; tauto).
    unfold bind at 1. rewrite Hchecks.
    assert (filter (λ r, blocked (path_status r)) checks = []) as ->.
    { clear -Hopen. induction Hopen as [|c l Hc _ IH]; [done|]. rewrite filter_cons_False; [done|].
      rewrite Hc. by intros []. }
    rewrite bool_decide_eq_false_2 by tauto. cbn [andb]. unfold bind at 1. rewrite Hr, Hback.
    unfold bind, modify, ret.
    destruct (save_total (s1 <| ckpt := (ckpt s1) <| status := ROLLED_BACK |> |>)) as [s2 Hs2].
    { destruct Hst1 as [H1 H2 H3 H4 H5]. by split. }
    rewrite Hs2. by eexists _, _.
Qed.
End storage.
