(* ===== verification/CheckpointProps.v ===== *)
(** * The properties of checkpoints

    Where a target may point, what a rollback may touch, what its status
    means, that it restores what was captured, and that it goes through when
    nothing stands in its way. *)

From Stdlib Require Import Ascii.
From S2P Require Import Prelude Checkpoint CheckpointFacts CheckpointRollback CheckpointSession CheckpointStorage.

Open Scope py_scope.
Open Scope Z_scope.

(** A target that is accepted is a path strictly below one of the
    writable roots, outside the checkpoint storage, with no symbolic link
    among its components. *)
Theorem target_confined fuel m d t p k :
  target fuel m d t = Ok (p, k) →
  ∃ root rel, root ∈ workspace m :: extra_roots m ∧ p = root ++ rel ∧ rel ≠ [] ∧
    (∀ x, p ≠ storage_root m ++ x) ∧
    ∀ q c, (q ++ [c]) `prefix_of` p → is_symlink d (q ++ [c]) = false.
Proof.
  intros (root & rel & H)%target_spec. exists root, rel. split_and!.
  - by eapply target_root_in.
  - by eapply tgt_below.
  - by eapply target_rel_nonempty.
  - intros x Hx%relative_to_Some. pose proof (tgt_storage _ _ _ _ _ _ _ _ H). congruence.
  - by eapply target_linkfree.
Qed.

(** The key stored for a target is itself a target and leads back to the
    same path under the same key, for a target written without parent
    components and roots free of links. *)
Theorem target_key_roundtrip fuel m d t p k :
  roots_clean m d → ".." ∉ parts t →
  target fuel m d t = Ok (p, k) → target fuel m d k = Ok (p, k).
Proof. apply target_roundtrip_aux. Qed.

(** Whatever its outcome, a rollback changes only the paths of recorded
    mutations and the checkpoint storage; elsewhere it can at most create a
    missing directory above one of them. *)
Theorem rollback_touches_only_its_paths digest dumps fuel m aon s s' r :
  rollback digest dumps fuel m aon s = (s', r) →
  touches (λ q, paths_of fuel m (on_disk s) (mutated (ckpt s)) q ∨ in_storage m q)
    (on_disk s) (on_disk s').
Proof.
  assert (Hst : ∀ s1 s2 r2, save dumps m s1 = (s2, r2) →
    touches (λ q, paths_of fuel m (on_disk s) (mutated (ckpt s)) q ∨ in_storage m q)
      (on_disk s1) (on_disk s2)).
  { intros s1 s2 r2 [_ H]%save_spec. eapply touches_mono; [|exact H]. by right. }
  intros [[-> _]|(checks & Hc & [(_ & _ & r1 & Hs & _)|(_ & s1 & r1 & Hr & Hrest)])]%rollback_cases;
    [done|exact (Hst _ _ _ Hs)|].
  apply (restore_all_spec _ _ _ _ _ _ _ (on_disk s)) in Hr as (_ & _ & Ht); [|done].
  apply rmapM_Ok in Hc as [Hlen _]. rewrite zip_fst in Ht by done.
  assert (Ht' : touches (λ q, paths_of fuel m (on_disk s) (mutated (ckpt s)) q ∨ in_storage m q)
    (on_disk s) (on_disk s1)) by (eapply touches_mono; [|exact Ht]; by left).
  destruct r1 as [results|e]; [|by destruct Hrest as [-> _]].
  destruct Hrest as (r2 & Hs & _). etrans; [exact Ht'|].
  repeat case_match; exact (Hst _ _ _ Hs).
Qed.

Lemma restore_all_no_conflict digest fuel m l s s' results :
  Forall (λ ic, blocked (path_status ic.2) = false) l →
  restore_all digest fuel m l s = (s', Ok results) →
  existsb (λ r, bool_decide (path_status r = PATH_CONFLICT)) results = false.
Proof.
  revert s s' results. induction l as [|[item checked] l IH]; intros s s' results.
  - by intros _ [= <- <-].
  - intros [Hb Hl]%Forall_cons. cbn in Hb. cbn [restore_all]. rewrite Hb. unfold bind at 1.
    destruct (try_restore digest fuel m item checked s) as [s1 [res|]] eqn:Ht; [|done].
    unfold bind. destruct (restore_all digest fuel m l s1) as [s2 [rest|]] eqn:Hr; [|done].
    intros [= <- <-]. cbn. rewrite (IH _ _ _ Hl Hr), orb_false_r. apply bool_decide_eq_false.
    revert Ht. unfold try_restore. destruct (restore digest fuel m item checked s) as [s3 r3] eqn:He.
    apply restore_spec in He as (_ & _ & _ & Hcase). destruct r3 as [res3|[]]; intros [= <- <-]; try done.
    destruct Hcase as [(Hst & _ & ->)|(Hback & _)]; [by rewrite Hst|]. by destruct (path_status res3).
Qed.

Lemma zip_open {A} (l : list A) checks :
  existsb (λ c, blocked (path_status c)) checks = false →
  Forall (λ ic, blocked (path_status ic.2) = false) (zip l checks).
Proof.
  intros Hopen. apply Forall_forall. intros [i c] Hic%elem_of_zip_r. apply not_true_is_false. intros Hb.
  apply not_true_iff_false in Hopen. apply Hopen, existsb_exists.
  exists c. split; [by apply list_elem_of_In|done].
Qed.

(** A rollback that is asked to be all or nothing and reports a conflict
    has written nothing outside the checkpoint storage; it reports the check
    of every path, at least one of which stands in the way, marks the
    checkpoint as conflicted and keeps its records. *)
Theorem rollback_conflict_writes_nothing digest dumps fuel m s s' res :
  rollback digest dumps fuel m true s = (s', Ok res) → rb_status res = ROLLBACK_CONFLICT →
  touches (in_storage m) (on_disk s) (on_disk s') ∧
  rmapM (preflight digest fuel m (on_disk s)) (mutated (ckpt s)) = Ok (rb_paths res) ∧
  existsb (λ c, blocked (path_status c)) (rb_paths res) = true ∧
  ckpt s' = (ckpt s) <| status := STATUS_CONFLICT |>.
Proof.
  intros [[_ ?]|(checks & Hc & [(_ & Hblk & r1 & Hs & Hres)|(Hopen & s1 & r1 & Hr & Hrest)])]%rollback_cases
    Hconf; [done|..].
  - apply save_spec in Hs as [Hck Ht]. destruct r1; [|done]. injection Hres as ->. done.
  - exfalso. destruct r1 as [results|e]; [|by destruct Hrest as [_ ?]].
    destruct Hrest as (r2 & _ & Hres). destruct r2; [|done]. injection Hres as ->. cbn in Hconf.
    erewrite restore_all_no_conflict in Hconf; [by destruct (forallb _ results)| |exact Hr].
    by apply zip_open, Hopen.
Qed.

(** The status of a rollback is exactly what the paths say: success if
    and only if every recorded path came back, in which case the checkpoint
    is marked rolled back; a conflict marks it conflicted; a partial rollback
    leaves its status.  No rollback reports [FAILED]. *)
Theorem rollback_status_exact digest dumps fuel m aon s s' res :
  rollback digest dumps fuel m aon s = (s', Ok res) →
  (rb_status res = SUCCESS ↔ forallb (λ r, came_back (path_status r)) (rb_paths res) = true) ∧
  rb_status res ≠ FAILED ∧
  status (ckpt s') = match rb_status res with
                     | SUCCESS => ROLLED_BACK
                     | ROLLBACK_CONFLICT => STATUS_CONFLICT
                     | _ => status (ckpt s)
                     end.
Proof.
  intros [[_ ?]|(checks & Hc & [(_ & Hblk & r1 & Hs & Hres)|(_ & s1 & r1 & Hr & Hrest)])]%rollback_cases;
    [done|..].
  - destruct r1; [|done]. injection Hres as ->. apply save_spec in Hs as [-> _]. cbn. split_and!; [|done..].
    split; [done|]. intros Hall. apply existsb_exists in Hblk as (c & Hin & Hb).
    rewrite forallb_forall in Hall. apply Hall in Hin. apply blocked_not_back in Hb. congruence.
  - destruct r1 as [results|e]; [|by destruct Hrest as [_ ?]].
    destruct Hrest as (r2 & Hs & Hres). destruct r2; [|done]. injection Hres as ->. cbn.
    apply save_spec in Hs as [-> _].
    apply (restore_all_spec _ _ _ _ _ _ _ (on_disk s)) in Hr as (Hck & _ & _); [|done].
    destruct (forallb _ results); [done|]. destruct (existsb _ results); [done|]. by rewrite Hck.
Qed.

(** A successful rollback puts back every recorded path. *)
Lemma rollback_puts_back digest dumps fuel m aon s s' res :
  ckpt_wf (ckpt s) → storage_ready m (on_disk s) →
  unnested fuel m (on_disk s) (mutated (ckpt s)) →
  rollback digest dumps fuel m aon s = (s', Ok res) → rb_status res = SUCCESS →
  ∀ item, item ∈ mutated (ckpt s) → ∃ p,
    target fuel m (on_disk s) (relative_path item) = Ok (p, relative_path item) ∧
    put_back digest item (on_disk s !! p) (on_disk s' !! p).
Proof.
  intros Hwf Hready Hun [[_ ?]|(checks & Hc & [(_ & _ & r1 & _ & Hres)|(_ & s1 & r1 & Hr & Hrest)])]%rollback_cases
    Hsucc item Hitem; [done|by destruct r1; simplify_eq|].
  destruct r1 as [results|e]; [|by destruct Hrest as [_ ?]].
  destruct Hrest as (r2 & Hs & Hres). destruct r2; [|done]. injection Hres as ->. cbn in Hsucc.
  destruct (forallb _ results) eqn:Hall; [|by destruct (existsb _ results)].
  apply rmapM_Ok in Hc as [Hlen Hpf].
  pose proof (zip_fst (mutated (ckpt s)) checks ltac:(done)) as Hfst.
  pose proof (restore_all_spec _ _ _ _ _ _ _ (on_disk s) ltac:(done) Hr) as (_ & _ & Ht).
  eapply restore_all_back in Hr as Hback; [|reflexivity| | | | |exact Hall|by rewrite Hfst].
  - destruct Hback as (p & Htp & Hpb). exists p. split; [done|].
    assert (on_disk s' !! p = on_disk s1 !! p) as ->; [|done].
    refine (save_target _ _ _ _ _ _ _ _ _ _ Hs _ Htp). by eapply storage_ready_touches.
  - apply Forall_forall. intros [i c] Hic. split; [by eapply Forall_forall in Hpf|].
    apply elem_of_zip_l in Hic. by eapply mutated_wf.
  - rewrite Hfst. by apply mutated_NoDup.
  - by rewrite Hfst.
  - done.
Qed.

(** The path a key names does not move while the roots are free of links. *)
Lemma target_key_stable fuel m d d' t p k p' :
  roots_clean m d' → target fuel m d t = Ok (p, k) → target fuel m d' k = Ok (p', k) → p' = p.
Proof.
  intros Hclean (root & rel & H)%target_spec (root' & rel' & H')%target_spec.
  assert (Hw : Forall plain (workspace m)) by (by apply Forall_cons in Hclean as [[? _] _]).
  destruct (target_key_candidate _ _ _ _ _ _ _ _ Hw H) as (Hc & _ & _).
  pose proof (target_plain _ _ _ _ _ _ _ _ Hw H) as Hp.
  assert (Hdd : ".." ∉ parts k).
  { intros Hin. assert (Hin' : ".." ∈ candidate m k)
      by (unfold candidate; destruct (anchor_of k); rewrite ?elem_of_app; auto).
    rewrite Hc in Hin'. eapply Forall_forall in Hp; [|exact Hin']. by destruct Hp. }
  destruct (target_lexical _ _ _ _ _ _ _ _ Hclean Hdd H') as [Hc' _]. congruence.
Qed.

(** C2: whatever a task does after a first capture of a file, capturing it
    again, editing files and recording mutations included, a rollback that
    reports success leaves that file, once a mutation of it was recorded, as
    it was when first captured: absent if it was absent, otherwise a regular
    file whose bytes have the captured bytes' hash, and whose mode is the
    captured mode unless the rollback found those bytes in place. *)
Theorem rollback_restores_captured digest dumps fuel m aon t s0 s1 s2 s3 item0 item p k res :
  ckpt_wf (ckpt s0) → storage_ready m (on_disk s0) →
  target fuel m (on_disk s0) t = Ok (p, k) → dict_get (paths (ckpt s0)) k = None →
  capture digest dumps fuel m t s0 = (s1, Ok item0) →
  rtc (session_step digest dumps fuel m) s1 s2 →
  dict_get (paths (ckpt s2)) k = Some item → is_Some (mutation_type item) →
  roots_clean m (on_disk s2) → unnested fuel m (on_disk s2) (mutated (ckpt s2)) →
  rollback digest dumps fuel m aon s2 = (s3, Ok res) → rb_status res = SUCCESS →
  match on_disk s0 !! p with
  | Some (File data mode) => ∃ data' mode',
      on_disk s3 !! p = Some (File data' mode') ∧ digest data' = digest data ∧
      (on_disk s2 !! p = on_disk s3 !! p ∨ mode' = Z.land mode 4095)
  | Some _ => False
  | None => on_disk s3 !! p = None
  end.
Proof.
  intros Hwf0 Hr0 Ht Hfresh Hcap Hsteps Hitem Hmut Hclean Hun Hrb Hsucc.
  assert (Hstep1 : session_step digest dumps fuel m s0 s1) by by eapply step_capture.
  destruct (session_keeps digest dumps fuel m s0 s2) as (_ & Hwf2 & Hr2); [by eapply rtc_l|done..|].
  destruct (session_keeps digest dumps fuel m s1 s2) as (Hkeeps & _); [done|by eapply session_step_wf| |].
  { intros q Hq Hne. eapply session_step_dirs; [done|by apply Hr0]. }
  apply capture_spec in Hcap as (_ & _ & Hcap). destruct (Hcap _ eq_refl) as (_ & p' & k' & Ht' & Hg1 & Hc).
  rewrite Ht in Ht'. injection Ht' as <- <-. specialize (Hc Hfresh). destruct Hc as (Hrel & _ & Hc).
  destruct (keeps_origin _ _ Hkeeps _ _ Hg1) as (item' & Hg2 & Ho). rewrite Hitem in Hg2. injection Hg2 as <-.
  destruct Ho as (Hrel' & Hex & Hhash & _ & Hmode).
  destruct (rollback_puts_back _ _ _ _ _ _ _ _ Hwf2 Hr2 Hun Hrb Hsucc item) as (p2 & Ht2 & Hpb).
  { apply mutated_in; [done|]. rewrite Hrel', Hrel. done. }
  rewrite Hrel', Hrel in Ht2. pose proof (target_key_stable _ _ _ _ _ _ _ _ Hclean Ht Ht2) as ->.
  unfold put_back in Hpb. rewrite Hex in Hpb. destruct (on_disk s0 !! p) as [[data mode| | |]|]; try done.
  - destruct Hc as (Hoe & Hh & _ & Hm). rewrite Hoe in Hpb. destruct Hpb as (data' & mode' & Hs3 & Hd & Hcase).
    exists data', mode'. split_and!; [done|congruence|]. destruct Hcase as [?|Hmd]; [by left|right].
    by rewrite Hmd, Hmode, Hm.
  - by rewrite Hc in Hpb.
Qed.

(** A checkpoint that was begun and used by a task (captures, edits
    outside the storage, recorded mutations, in any order) can be rolled
    back: if the check of every recorded path finds the state the task left
    or the original, no recorded path lies inside another, and nothing but
    directories is above them, the rollback returns success.  The digest is
    assumed to be sixty-four lower-case hexadecimal digits. *)
Theorem rollback_succeeds digest dumps fuel m aon uuid now task session s0 s1 s2 checks :
  (∀ data, blob_pattern (String.append (digest data) ".blob") = true) →
  disk_wf (on_disk s0) → storage_ready m (on_disk s0) →
  begin_checkpoint dumps m uuid now task session s0 = (s1, Ok tt) →
  rtc (session_step digest dumps fuel m) s1 s2 →
  rmapM (preflight digest fuel m (on_disk s2)) (mutated (ckpt s2)) = Ok checks →
  Forall (λ c, blocked (path_status c) = false) checks →
  unnested fuel m (on_disk s2) (mutated (ckpt s2)) →
  (∀ p, paths_of fuel m (on_disk s2) (mutated (ckpt s2)) p → clear (on_disk s2) p) →
  ∃ s3 results, rollback digest dumps fuel m aon s2 =
    (s3, Ok (mk_rollback (checkpoint_id (ckpt s2)) SUCCESS results)).
Proof.
  intros Hhex Hdw Hr0 Hb Hsteps Hchecks Hopen Hun Hclear.
  apply (begin_spec digest) in Hb as (Hst & Hck & Ht); [|done].
  assert (Hwf1 : ckpt_wf (ckpt s1)) by (rewrite Hck; split; [constructor|done]).
  destruct (session_keeps digest dumps fuel m s1 s2) as (Hk & Hwf2 & _);
    [done|done|by eapply storage_ready_touches|].
  eapply rollback_total; try done; [by eapply session_stored|]. left.
  rewrite (keeps_status _ _ Hk), Hck. done.
Qed.

(** ** Witnesses *)

(** A one-file workspace next to an empty storage. *)
Definition sample_manager : CheckpointManager := mk_manager ["st"] ["ws"] [].

Definition sample_disk : disk :=
  <[["ws"] := Dir]> (<[["st"] := Dir]> (<[["ws"; "a"] := File "one" 420]> ∅)).

Definition hex_digits : string := "0123456789abcdef".

(** Sixty-four hexadecimal digits that tell short contents apart. *)
Definition sample_digest (s : string) : string :=
  let n := (String.length s `mod` 16)%nat in
  String.append "000000000000000000000000000000000000000000000000000000000000000"
    (String.substring n 1 hex_digits).

Definition sample_dumps : json → string := λ _, "{}".

Definition sample_start : state :=
  mk_state sample_disk (mk_checkpoint "" "" "" "" FINALIZED []).

Definition sample_begun : state :=
  fst (begin_checkpoint sample_dumps sample_manager "0123456789abcdef" "now" "task_0001"
         "session_0001" sample_start).

Definition sample_captured : state :=
  fst (capture sample_digest sample_dumps 100 sample_manager "a" sample_begun).

Definition sample_edited : state :=
  sample_captured <| on_disk ::= <[["ws"; "a"] := File "three" 420]> |>.

Definition sample_recorded : state :=
  fst (record_mutation sample_digest sample_dumps 100 sample_manager "a" "act" None sample_edited).

Definition sample_rolled_back : state :=
  fst (rollback sample_digest sample_dumps 100 sample_manager true sample_recorded).

(** Someone else's edit on top of the task's. *)
Definition sample_disturbed : state :=
  sample_recorded <| on_disk ::= <[["ws"; "a"] := File "other!" 420]> |>.

Lemma outcome_eq {A B} (x : A * B) b : snd x = b → x = (fst x, b).
Proof. by destruct x; intros <-. Qed.

Lemma sample_digest_hex data :
  blob_pattern (String.append (sample_digest data) ".blob") = true.
Proof.
  unfold sample_digest. generalize (Nat.mod_upper_bound (String.length data) 16 ltac:(lia)).
  generalize (String.length data `mod` 16)%nat as n. intros n Hn.
  do 16 (destruct n as [|n]; [reflexivity|]). lia.
Qed.

Lemma prefix_of_cons_inv {A} (x : A) l q :
  q `prefix_of` x :: l → q = [] ∨ ∃ q', q = x :: q' ∧ q' `prefix_of` l.
Proof.
  intros [z Hz]. destruct q as [|y q]; [by left|right]. injection Hz as <- ->. exists q. split; [done|by exists z].
Qed.

Lemma sample_disk_wf : disk_wf sample_disk.
Proof.
  intros p c [n Hn]. unfold sample_disk in *.
  repeat (apply lookup_insert_Some in Hn as [[Heq _]|[_ Hn]]).
  - destruct p as [|? [|]]; simplify_eq/=; by left.
  - destruct p as [|? [|]]; simplify_eq/=; by left.
  - destruct p as [|? [|? [|]]]; simplify_eq/=. right. reflexivity.
  - by rewrite lookup_empty in Hn.
Qed.

Lemma sample_storage_ready s :
  on_disk s !! ["st"] = Some Dir → storage_ready sample_manager (on_disk s).
Proof. intros H q [->|(q' & -> & ->%prefix_nil_inv)]%prefix_of_cons_inv Hne; done. Qed.

Lemma sample_roots_clean d : d !! ["ws"] = Some Dir → roots_clean sample_manager d.
Proof.
  intros Hd. apply Forall_singleton. split.
  - apply Forall_singleton. by split; [split|].
  - intros q c [H|(q' & H & ->%prefix_nil_inv)]%prefix_of_cons_inv; [by destruct q|].
    rewrite H. unfold is_symlink. by rewrite Hd.
Qed.

Lemma sample_edit_step :
  session_step sample_digest sample_dumps 100 sample_manager sample_captured sample_edited.
Proof.
  apply step_edit.
  - intros q. destruct (decide (q = ["ws"; "a"])) as [->|Hne].
    + right. right. split; [by intros []|]. vm_compute. done.
    + left. cbn. by rewrite lookup_insert_ne.
  - intros q. unfold link_at. destruct (decide (q = ["ws"; "a"])) as [->|Hne].
    + vm_compute. reflexivity.
    + cbn. by rewrite lookup_insert_ne.
Qed.

Lemma sample_session s : s = sample_captured ∨ s = sample_begun →
  rtc (session_step sample_digest sample_dumps 100 sample_manager) s sample_recorded.
Proof.
  assert (H : rtc (session_step sample_digest sample_dumps 100 sample_manager) sample_captured sample_recorded).
  { eapply rtc_l; [exact sample_edit_step|]. apply rtc_once. eapply step_record. apply surjective_pairing. }
  intros [->| ->]; [done|]. eapply rtc_l; [|exact H]. eapply step_capture. apply surjective_pairing.
Qed.

Lemma sample_mutated i : i ∈ mutated (ckpt sample_recorded) → relative_path i = "a".
Proof.
  intros Hi. assert (Hall : Forall (λ i, relative_path i = "a") (mutated (ckpt sample_recorded))).
  { vm_compute. by repeat constructor. }
  by eapply Forall_forall in Hall.
Qed.

Lemma sample_unnested :
  unnested 100 sample_manager (on_disk sample_recorded) (mutated (ckpt sample_recorded)).
Proof. intros i j p q k k' Hi Hj _ _ _. by rewrite (sample_mutated i), (sample_mutated j). Qed.

Lemma sample_target :
  target 100 sample_manager (on_disk sample_recorded) "a" = Ok (["ws"; "a"], "a").
Proof. vm_compute. reflexivity. Qed.

Lemma target_confined_witness :
  ∃ root rel, root ∈ workspace sample_manager :: extra_roots sample_manager ∧
    ["ws"; "a"] = root ++ rel ∧ rel ≠ [] ∧
    (∀ x, ["ws"; "a"] ≠ storage_root sample_manager ++ x) ∧
    ∀ q c, (q ++ [c]) `prefix_of` ["ws"; "a"] → is_symlink (on_disk sample_recorded) (q ++ [c]) = false.
Proof. apply (target_confined 100 sample_manager (on_disk sample_recorded) "a" ["ws"; "a"] "a"). exact sample_target. Defined.

Lemma target_key_roundtrip_witness :
  target 100 sample_manager (on_disk sample_recorded) "a" = Ok (["ws"; "a"], "a").
Proof.
  apply (target_key_roundtrip 100 sample_manager (on_disk sample_recorded) "/ws//./a").
  - apply sample_roots_clean. vm_compute. reflexivity.
  - vm_compute. intros H. repeat (apply elem_of_cons in H as [H|H]; [discriminate H|]).
    by apply elem_of_nil in H.
  - vm_compute. reflexivity.
Defined.

Lemma rollback_touches_only_its_paths_witness :
  touches (λ q, paths_of 100 sample_manager (on_disk sample_recorded) (mutated (ckpt sample_recorded)) q
                ∨ in_storage sample_manager q)
    (on_disk sample_recorded) (on_disk sample_rolled_back).
Proof.
  eapply (rollback_touches_only_its_paths sample_digest sample_dumps 100 sample_manager true).
  apply surjective_pairing.
Defined.

Lemma rollback_conflict_writes_nothing_witness :
  touches (in_storage sample_manager) (on_disk sample_disturbed)
    (on_disk (fst (rollback sample_digest sample_dumps 100 sample_manager true sample_disturbed))).
Proof.
  refine (proj1 (rollback_conflict_writes_nothing sample_digest sample_dumps 100 sample_manager
    sample_disturbed _ (mk_rollback "checkpoint_0123456789abcdef" ROLLBACK_CONFLICT
      [mk_path_result "a" PATH_CONFLICT (Some "current file differs from task-owned post-state")]) _ _)).
  - apply outcome_eq. vm_compute. reflexivity.
  - reflexivity.
Defined.

Lemma rollback_status_exact_witness : status (ckpt sample_rolled_back) = ROLLED_BACK.
Proof.
  refine (proj2 (proj2 (rollback_status_exact sample_digest sample_dumps 100 sample_manager true
    sample_recorded _ (mk_rollback "checkpoint_0123456789abcdef" SUCCESS [mk_path_result "a" RESTORED None]) _))).
  unfold sample_rolled_back. apply outcome_eq. vm_compute. reflexivity.
Defined.

Lemma rollback_restores_captured_witness :
  ∃ data' mode', on_disk sample_rolled_back !! ["ws"; "a"] = Some (File data' mode') ∧
    sample_digest data' = sample_digest "one" ∧
    (on_disk sample_recorded !! ["ws"; "a"] = on_disk sample_rolled_back !! ["ws"; "a"] ∨
     mode' = Z.land 420 4095).
Proof.
  refine (rollback_restores_captured sample_digest sample_dumps 100 sample_manager true "a"
    sample_begun sample_captured sample_recorded sample_rolled_back _ _ ["ws"; "a"] "a"
    (mk_rollback "checkpoint_0123456789abcdef" SUCCESS [mk_path_result "a" RESTORED None])
    _ _ _ _ _ _ _ _ _ _ _ _).
  - split; [vm_compute; constructor|done].
  - apply sample_storage_ready. vm_compute. reflexivity.
  - vm_compute. reflexivity.
  - vm_compute. reflexivity.
  - unfold sample_captured at 1. apply outcome_eq. vm_compute. reflexivity.
  - apply sample_session. by left.
  - vm_compute. reflexivity.
  - vm_compute. by eexists.
  - apply sample_roots_clean. vm_compute. reflexivity.
  - exact sample_unnested.
  - unfold sample_rolled_back. apply outcome_eq. vm_compute. reflexivity.
  - reflexivity.
Defined.

Lemma rollback_succeeds_witness :
  ∃ s3 results, rollback sample_digest sample_dumps 100 sample_manager true sample_recorded =
    (s3, Ok (mk_rollback (checkpoint_id (ckpt sample_recorded)) SUCCESS results)).
Proof.
  apply (rollback_succeeds sample_digest sample_dumps 100 sample_manager true "0123456789abcdef" "now"
    "task_0001" "session_0001" sample_start sample_begun sample_recorded
    [mk_path_result "a" RESTORED None]).
  - exact sample_digest_hex.
  - exact sample_disk_wf.
  - apply sample_storage_ready. vm_compute. reflexivity.
  - unfold sample_begun. apply outcome_eq. vm_compute. reflexivity.
  - apply sample_session. by right.
  - vm_compute. reflexivity.
  - by repeat constructor.
  - exact sample_unnested.
  - intros p (i & k & Hi%sample_mutated & Ht). rewrite Hi, sample_target in Ht. injection Ht as <- <-.
    intros q [->|(q' & -> & [->|(q'' & -> & ->%prefix_nil_inv)]%prefix_of_cons_inv)]%prefix_of_cons_inv Hne Hne0;
      [done| |done]. right. vm_compute. reflexivity.
Defined.
