(* ===== verification/FailurePolicy.v ===== *)
(** * Failure classification and bounded retries: [client/runtime/failure_policy.py] *)

From Stdlib Require Import Ascii.
From S2P Require Import Prelude.

Open Scope py_scope.
Open Scope Z_scope.

(** ** Data *)

Inductive FailureKind :=
  | MODEL_ERROR | INVALID_MODEL_TURN | UNKNOWN_TOOL | INVALID_TOOL_ARGUMENTS | TOOL_ERROR
  | COMMAND_FAILED | TIMEOUT | PERMISSION_DENIED | CONTEXT_OVERFLOW | COMPACTION_FAILED
  | VERIFICATION_FAILED | INTERRUPTED | BUDGET_EXHAUSTED | STALLED | RUNTIME_ERROR
  | CHECKPOINT_CONFLICT.

#[export] Instance FailureKind_eq_dec : EqDecision FailureKind.
Proof. solve_decision. Defined.

#[export] Instance FailureKind_enum : StrEnum FailureKind := {|
  enum_members := [MODEL_ERROR; INVALID_MODEL_TURN; UNKNOWN_TOOL; INVALID_TOOL_ARGUMENTS;
    TOOL_ERROR; COMMAND_FAILED; TIMEOUT; PERMISSION_DENIED; CONTEXT_OVERFLOW; COMPACTION_FAILED;
    VERIFICATION_FAILED; INTERRUPTED; BUDGET_EXHAUSTED; STALLED; RUNTIME_ERROR;
    CHECKPOINT_CONFLICT];
  enum_value k := match k with
    | MODEL_ERROR => "model_error" | INVALID_MODEL_TURN => "invalid_model_turn"
    | UNKNOWN_TOOL => "unknown_tool" | INVALID_TOOL_ARGUMENTS => "invalid_tool_arguments"
    | TOOL_ERROR => "tool_error" | COMMAND_FAILED => "command_failed" | TIMEOUT => "timeout"
    | PERMISSION_DENIED => "permission_denied" | CONTEXT_OVERFLOW => "context_overflow"
    | COMPACTION_FAILED => "compaction_failed" | VERIFICATION_FAILED => "verification_failed"
    | INTERRUPTED => "interrupted" | BUDGET_EXHAUSTED => "budget_exhausted"
    | STALLED => "stalled" | RUNTIME_ERROR => "runtime_error"
    | CHECKPOINT_CONFLICT => "checkpoint_conflict" end;
  enum_complete := ltac:(enum_all);
  enum_distinct := ltac:(enum_nodup) |}.

Inductive RetryAction := RETRY | REPROMPT | DO_NOT_RETRY | TERMINATE.

#[export] Instance RetryAction_eq_dec : EqDecision RetryAction.
Proof. solve_decision. Defined.

Record Failure := mk_failure {
  kind : FailureKind;
  failure_summary : string;
  failure_action_id : option string;
  retryable : option bool;
}.

Record RetryDecision := mk_decision {
  action : RetryAction;
  attempt : Z;
  decision_maximum : Z;
  reason : string;
}.

Definition should_retry (d : RetryDecision) : bool :=
  bool_decide (action d ∈ [RETRY; REPROMPT]).

Inductive exn := ValueError (msg : string).

(** ** The policy *)

Record RetryPolicy := mk_policy { maximum_attempts : dict FailureKind Z }.

Definition default_policy : RetryPolicy :=
  mk_policy [(MODEL_ERROR, 0); (INVALID_MODEL_TURN, 2)].

(** What a failure's retries are bounded by. *)
Definition maximum (p : RetryPolicy) (f : Failure) : Z :=
  if decide (retryable f = Some false) then 0
  else dict_get_default (maximum_attempts p) (kind f) 0.

Definition decide_retry (p : RetryPolicy) (f : Failure) (prior_attempts : Z)
    : res exn RetryDecision :=
  do? rguard (0 <=? prior_attempts) (ValueError "prior_attempts cannot be negative") in
  let maximum := maximum p f in
  if prior_attempts <? maximum then
    Ok (mk_decision (if decide (kind f = INVALID_MODEL_TURN) then REPROMPT else RETRY)
          (prior_attempts + 1) maximum (enum_value (kind f)))
  else
    let terminal :=
      bool_decide (kind f ∈ [INTERRUPTED; BUDGET_EXHAUSTED; STALLED; RUNTIME_ERROR]) in
    Ok (mk_decision (if terminal then TERMINATE else DO_NOT_RETRY) prior_attempts maximum
          (if maximum =? 0 then "not retryable" else "retry limit reached")).

(** ** Classification *)

Definition classify_tool_failure (status : string) (category : option string)
    (exit_code : option Z) : FailureKind :=
  let value := py_lower (str_or (default "" category) status) in
  if contains "permission" value || String.eqb status "denied" then PERMISSION_DENIED
  else if String.eqb status "unknown_tool" then UNKNOWN_TOOL
  else if String.eqb status "invalid_arguments" then INVALID_TOOL_ARGUMENTS
  else if String.eqb status "timeout" || contains "timeout" value then TIMEOUT
  else match exit_code with
       | Some n => if n =? 0 then TOOL_ERROR else COMMAND_FAILED
       | None => TOOL_ERROR
       end.

(** ** A caller that retries while the policy says so *)

(** The attempts the policy grants to a failure that keeps occurring, from
    [prior] attempts on: each decision feeds its attempt number back. *)
Fixpoint granted (fuel : nat) (p : RetryPolicy) (f : Failure) (prior : Z) : option (list Z) :=
  match fuel with
  | O => None
  | S fuel =>
      match decide_retry p f prior with
      | Raise _ => None
      | Ok d =>
          if should_retry d then cons (attempt d) <$> granted fuel p f (attempt d)
          else Some []
      end
  end.

Lemma granted_S fuel p f prior :
  granted (S fuel) p f prior =
  match decide_retry p f prior with
  | Raise _ => None
  | Ok d => if should_retry d then cons (attempt d) <$> granted fuel p f (attempt d) else Some []
  end.
Proof. reflexivity. Qed.

Lemma decide_retry_spec p f prior :
  0 <= prior → ∃ d, decide_retry p f prior = Ok d ∧
    should_retry d = (prior <? maximum p f) ∧
    attempt d = (if prior <? maximum p f then prior + 1 else prior) ∧
    decision_maximum d = maximum p f ∧
    (action d = TERMINATE ↔ maximum p f <= prior ∧
       kind f ∈ [INTERRUPTED; BUDGET_EXHAUSTED; STALLED; RUNTIME_ERROR]) ∧
    (action d = REPROMPT ↔ prior < maximum p f ∧ kind f = INVALID_MODEL_TURN).
Proof.
  intros Hp. unfold decide_retry. rewrite (proj2 (Z.leb_le 0 prior) Hp). cbn [rguard rbind].
  destruct (Z.ltb_spec prior (maximum p f)); eexists; (split; [reflexivity|]); cbn.
  - split_and!; try done.
    + unfold should_retry. cbn. by destruct (decide _).
    + case_decide; split; try done; intros [? _]; lia.
    + case_decide; split; naive_solver.
  - split_and!; try done.
    + unfold should_retry. cbn. by destruct (bool_decide (kind f ∈ _)).
    + case_bool_decide; split; naive_solver.
    + case_bool_decide; split; try done; intros [? _]; lia.
Qed.

(** The retry policy grants a recurring failure exactly the attempts one
    to its maximum, in order, and then stops: retrying by the policy ends.
    A failure marked as not retryable is never retried. *)
Theorem retries_are_exactly_the_maximum p f :
  let n := Z.to_nat (maximum p f) in
  granted (S n) p f 0 = Some (Z.of_nat <$> seq 1 n) ∧
  (retryable f = Some false → n = 0%nat).
Proof.
  cbn zeta. split.
  - enough (H : ∀ k i, (i + k = Z.to_nat (maximum p f))%nat →
      granted (S k) p f (Z.of_nat i) = Some (Z.of_nat <$> seq (S i) k)) by (by apply (H _ 0%nat)).
    induction k as [|k IH]; intros i Hi; rewrite granted_S;
      destruct (decide_retry_spec p f (Z.of_nat i)) as (d & -> & -> & Ha & _); try lia.
    + destruct (Z.ltb_spec (Z.of_nat i) (maximum p f)); [lia|done].
    + destruct (Z.ltb_spec (Z.of_nat i) (maximum p f)); [|lia].
      rewrite Ha. replace (Z.of_nat i + 1) with (Z.of_nat (S i)) by lia.
      rewrite IH by lia. done.
  - intros Hr. unfold maximum. by rewrite decide_True.
Qed.

Lemma retries_are_exactly_the_maximum_witness :
  granted 3 default_policy (mk_failure INVALID_MODEL_TURN "" None None) 0 = Some [1; 2] ∧
  Z.to_nat (maximum default_policy (mk_failure INVALID_MODEL_TURN "" None (Some false))) = 0%nat.
Proof.
  split.
  - exact (proj1 (retries_are_exactly_the_maximum default_policy
      (mk_failure INVALID_MODEL_TURN "" None None))).
  - apply (proj2 (retries_are_exactly_the_maximum default_policy
      (mk_failure INVALID_MODEL_TURN "" None (Some false)))). reflexivity.
Defined.
