(* ===== verification/Cancellation.v ===== *)
(** * Cooperative cancellation: [client/runtime/cancellation.py]

    The state shared by a source and its tokens, the tokens that read it, and
    the threads that may call [cancel] at the same time: a call acquires the
    lock, tests the event, stores the reason and the scope, sets the event
    and releases the lock, and other threads may run between any two of
    these. *)

From S2P Require Import Prelude.

Open Scope py_scope.

Inductive CancellationScope := OPERATION | TASK.

#[export] Instance CancellationScope_eq_dec : EqDecision CancellationScope.
Proof. solve_decision. Defined.

Record cancellation_state := mk_cancel {
  event : bool;
  reason : option string;
  scope : option CancellationScope;
}.

#[export] Instance eta_cancellation_state : Eta cancellation_state := λ r,
  mk_cancel r.(event) r.(reason) r.(scope).

Definition fresh_state : cancellation_state := mk_cancel false None None.

(** [str(reason).strip() or "cancellation requested"] *)
Definition normal_reason (r : string) : string := str_or (py_strip r) "cancellation requested".

(** [CancellationSource.cancel], run by one thread alone. *)
Definition cancel (r : string) (sc : CancellationScope) (st : cancellation_state)
    : cancellation_state * bool :=
  if event st then (st, false)
  else (st <| reason := Some (normal_reason r) |> <| scope := Some sc |> <| event := true |>, true).

(** ** Tokens

    A token reads the state of its source, or is linked to two tokens.
    [states] gives the state of each source. *)

Abbreviation source := nat.

Inductive token :=
  | CancellationToken (s : source)
  | LinkedCancellationToken (parent local : token).

Section tokens.
  Context (states : source → cancellation_state).

Fixpoint is_cancelled (t : token) : bool :=
  match t with
  | CancellationToken s => event (states s)
  | LinkedCancellationToken parent local => is_cancelled parent || is_cancelled local
  end.

Fixpoint token_reason (t : token) : option string :=
  match t with
  | CancellationToken s => reason (states s)
  | LinkedCancellationToken parent local =>
      if is_cancelled parent then token_reason parent else token_reason local
  end.

Fixpoint token_scope (t : token) : option CancellationScope :=
  match t with
  | CancellationToken s => scope (states s)
  | LinkedCancellationToken parent local =>
      if is_cancelled parent then token_scope parent else token_scope local
  end.

Inductive exn := OperationCancelled (reason : string) (scope : CancellationScope).

Definition raise_if_cancelled (t : token) : res exn unit :=
  if is_cancelled t then
    Raise (OperationCancelled (str_or (default "" (token_reason t)) "operation cancelled")
             (default TASK (token_scope t)))
  else Ok tt.

(** The sources a token depends on, the parent's first. *)
Fixpoint sources (t : token) : list source :=
  match t with
  | CancellationToken s => [s]
  | LinkedCancellationToken parent local => sources parent ++ sources local
  end.
End tokens.

(** A child source is new, and its token is linked to the parent's. *)
Definition linked_cancellation (fresh : source) (parent : token) : token :=
  LinkedCancellationToken parent (CancellationToken fresh).

(** ** Threads calling [cancel] *)

Inductive thread :=
  | Waiting (r : string) (sc : CancellationScope)
  | Testing (r : string) (sc : CancellationScope)
  | StoringReason (r : string) (sc : CancellationScope)
  | StoringScope (r : string) (sc : CancellationScope)
  | SettingEvent (r : string) (sc : CancellationScope)
  | Releasing (result : bool) (r : string) (sc : CancellationScope)
  | Returned (result : bool) (r : string) (sc : CancellationScope).

Record config := mk_config {
  threads : gmap nat thread;
  shared : cancellation_state;
  lock : option nat;
}.

Inductive thread_step (t : nat)
    : thread → cancellation_state → option nat → thread → cancellation_state → option nat → Prop :=
  | step_acquire r sc st :
      thread_step t (Waiting r sc) st None (Testing r sc) st (Some t)
  | step_test r sc st l :
      thread_step t (Testing r sc) st l
        (if event st then Releasing false r sc else StoringReason r sc) st l
  | step_store_reason r sc st l :
      thread_step t (StoringReason r sc) st l
        (StoringScope r sc) (st <| reason := Some (normal_reason r) |>) l
  | step_store_scope r sc st l :
      thread_step t (StoringScope r sc) st l (SettingEvent r sc) (st <| scope := Some sc |>) l
  | step_set_event r sc st l :
      thread_step t (SettingEvent r sc) st l (Releasing true r sc) (st <| event := true |>) l
  | step_release b r sc st l :
      thread_step t (Releasing b r sc) st l (Returned b r sc) st None.

Inductive step : config → config → Prop :=
  | step_thread c t th th' st' l' :
      threads c !! t = Some th →
      thread_step t th (shared c) (lock c) th' st' l' →
      step c (mk_config (<[t := th']> (threads c)) st' l').

Definition is_start (th : thread) : Prop := match th with Waiting _ _ => True | _ => False end.

Definition initial (c : config) : Prop :=
  map_Forall (λ _ th, is_start th) (threads c) ∧ shared c = fresh_state ∧ lock c = None.

(** ** The invariant *)

Definition holds (th : thread) : bool :=
  match th with Waiting _ _ | Returned _ _ _ => false | _ => true end.

(** The thread has set the event. *)
Definition winner (th : thread) (r : string) (sc : CancellationScope) : Prop :=
  th = Releasing true r sc ∨ th = Returned true r sc.

(** What a thread inside the lock knows of the shared state. *)
Definition local_ok (th : thread) (st : cancellation_state) : Prop :=
  match th with
  | StoringReason _ _ => event st = false
  | StoringScope r _ => event st = false ∧ reason st = Some (normal_reason r)
  | SettingEvent r sc =>
      event st = false ∧ reason st = Some (normal_reason r) ∧ scope st = Some sc
  | _ => True
  end.

Record inv (c : config) : Prop := {
  inv_lock : ∀ t th, threads c !! t = Some th → holds th = true ↔ lock c = Some t;
  inv_local : ∀ t th, threads c !! t = Some th → local_ok th (shared c);
  inv_winner : ∀ t th r sc, threads c !! t = Some th → winner th r sc →
    event (shared c) = true ∧ reason (shared c) = Some (normal_reason r) ∧ scope (shared c) = Some sc;
  inv_set : event (shared c) = true →
    ∃ t th r sc, threads c !! t = Some th ∧ winner th r sc;
  inv_unique : ∀ t t' th th' r r' sc sc', threads c !! t = Some th → threads c !! t' = Some th' →
    winner th r sc → winner th' r' sc' → t = t';
}.

Lemma initial_inv c : initial c → inv c.
Proof.
  intros (Hs & Hsh & Hl). assert (Hw : ∀ t th, threads c !! t = Some th → ∃ r sc, th = Waiting r sc).
  { intros t th Ht. apply Hs in Ht. destruct th; try done. by eexists _, _. }
  split; rewrite ?Hl, ?Hsh.
  - intros t th (r & sc & ->)%Hw. done.
  - intros t th (r & sc & ->)%Hw. done.
  - intros t th r sc (r' & sc' & ->)%Hw [|]; done.
  - done.
  - intros t t' th th' r r' sc sc' (r1 & sc1 & ->)%Hw _ [|]; done.
Qed.

(** A step changes the event only to set it, and only then makes a winner. *)
Lemma thread_step_winner t th st l th' st' l' r sc :
  thread_step t th st l th' st' l' → winner th' r sc →
  winner th r sc ∧ st' = st ∨ th = SettingEvent r sc ∧ st' = st <| event := true |>.
Proof.
  destruct 1; intros [Heq|Heq]; try done; try (by destruct (event st)).
  - injection Heq as <- <-. by right.
  - injection Heq as -> <- <-. left. split; [by left|done].
Qed.

(** Only the thread that holds the lock runs past its start. *)
Lemma thread_step_lock t th st l th' st' l' :
  thread_step t th st l th' st' l' →
  (l = None ∧ l' = Some t ∧ st' = st ∧ holds th = false ∧ holds th' = true) ∨
  (holds th = true ∧ (l' = l ∧ holds th' = true ∨ l' = None ∧ holds th' = false)).
Proof.
  destruct 1; [by left|right..]; (split; [done|]); [|by left..|by right].
  left. split; [done|]. by destruct (event st).
Qed.

(** Once the event is set, the shared state does not change. *)
Lemma thread_step_frozen t th st l th' st' l' :
  thread_step t th st l th' st' l' → local_ok th st → event st = true → st' = st.
Proof. destruct 1; cbn; intros; destruct_and?; congruence. Qed.

Lemma thread_step_local t th st l th' st' l' :
  thread_step t th st l th' st' l' → local_ok th st → local_ok th' st'.
Proof. destruct 1; cbn; try done; [|tauto..]. by destruct (event st) eqn:He. Qed.

Lemma thread_step_event t th st l th' st' l' :
  thread_step t th st l th' st' l' → event st' = true →
  event st = true ∨ ∃ r sc, winner th' r sc.
Proof. destruct 1; cbn; try (by left). intros _. right. exists r, sc. by left. Qed.

Lemma thread_step_winner_stays t th st l th' st' l' r sc :
  thread_step t th st l th' st' l' → winner th r sc → winner th' r sc.
Proof. destruct 1; intros [Heq|Heq]; simplify_eq. by right. Qed.

Section preservation.
  Context (c : config) (t : nat) (th th' : thread) (st' : cancellation_state) (l' : option nat).
  Hypotheses (Hinv : inv c) (Ht : threads c !! t = Some th)
    (Hstep : thread_step t th (shared c) (lock c) th' st' l').

Let c' : config := mk_config (<[t := th']> (threads c)) st' l'.

Lemma lookup_step t2 th2 :
  threads c' !! t2 = Some th2 → t2 = t ∧ th2 = th' ∨ t2 ≠ t ∧ threads c !! t2 = Some th2.
Proof. cbn. intros H%lookup_insert_Some. clear -H. naive_solver. Qed.

(** Either the state stays, or no other thread holds the lock. *)
Lemma others_outside t2 th2 :
  t2 ≠ t → threads c !! t2 = Some th2 → st' = shared c ∧ holds th = false ∨ holds th2 = false.
Proof using Hinv Ht Hstep.
  intros Hne H2. destruct (thread_step_lock _ _ _ _ _ _ _ Hstep) as [(_&_&?&?&_)|[Hh _]]; [by left|right].
  apply (inv_lock _ Hinv _ _ Ht) in Hh. apply not_true_is_false. intros H.
  apply (inv_lock _ Hinv _ _ H2) in H. congruence.
Qed.

Lemma lock_kept t2 th2 : threads c' !! t2 = Some th2 → holds th2 = true ↔ lock c' = Some t2.
Proof using Hinv Ht Hstep.
  cbn. pose proof (inv_lock _ Hinv _ _ Ht) as Hlt.
  intros [[-> ->]|[Hne H2]]%lookup_step; [|pose proof (inv_lock _ Hinv _ _ H2) as Hl2];
    destruct (thread_step_lock _ _ _ _ _ _ _ Hstep) as [(Hl&->&_&_&Hh)|[Hh [[-> Hh']|[-> Hh']]]].
  - by rewrite Hh.
  - rewrite Hh'. split; [|done]. intros _. by apply Hlt.
  - rewrite Hh'. done.
  - rewrite Hl2, Hl. split; congruence.
  - rewrite Hl2. done.
  - apply Hlt in Hh. rewrite Hl2, Hh. split; congruence.
Qed.

Lemma local_kept t2 th2 : threads c' !! t2 = Some th2 → local_ok th2 (shared c').
Proof using Hinv Ht Hstep.
  cbn. intros [[-> ->]|[Hne H2]]%lookup_step.
  - eapply thread_step_local; [exact Hstep|]. by apply (inv_local _ Hinv t).
  - destruct (others_outside _ _ Hne H2) as [[-> _]|Hh]; [by apply (inv_local _ Hinv _ _ H2)|].
    by destruct th2.
Qed.

Lemma winner_kept t2 th2 r sc :
  threads c' !! t2 = Some th2 → winner th2 r sc →
  event (shared c') = true ∧ reason (shared c') = Some (normal_reason r) ∧ scope (shared c') = Some sc.
Proof using Hinv Ht Hstep.
  cbn. pose proof (inv_local _ Hinv _ _ Ht) as Hlo.
  intros [[-> ->]|[Hne H2]]%lookup_step Hw.
  - destruct (thread_step_winner _ _ _ _ _ _ _ _ _ Hstep Hw) as [[Hw0 ->]|[Hth ->]].
    + by apply (inv_winner _ Hinv _ _ _ _ Ht).
    + rewrite Hth in Hlo. cbn in *. naive_solver.
  - destruct (inv_winner _ Hinv _ _ _ _ H2 Hw) as (He & ?).
    by rewrite (thread_step_frozen _ _ _ _ _ _ _ Hstep Hlo He).
Qed.

Lemma set_kept :
  event (shared c') = true → ∃ t2 th2 r sc, threads c' !! t2 = Some th2 ∧ winner th2 r sc.
Proof using Hinv Ht Hstep.
  cbn. intros He. destruct (thread_step_event _ _ _ _ _ _ _ Hstep He) as [He0|(r & sc & Hw)].
  - destruct (inv_set _ Hinv He0) as (t2 & th2 & r & sc & H2 & Hw).
    destruct (decide (t2 = t)) as [->|Hne].
    + exists t, th', r, sc. rewrite lookup_insert_eq. split; [done|].
      rewrite Ht in H2. injection H2 as ->. by eapply thread_step_winner_stays.
    + exists t2, th2, r, sc. by rewrite lookup_insert_ne.
  - exists t, th', r, sc. by rewrite lookup_insert_eq.
Qed.

Lemma unique_kept t1 t2 th1 th2 r1 r2 sc1 sc2 :
  threads c' !! t1 = Some th1 → threads c' !! t2 = Some th2 →
  winner th1 r1 sc1 → winner th2 r2 sc2 → t1 = t2.
Proof using Hinv Ht Hstep.
  pose proof (inv_local _ Hinv _ _ Ht) as Hlo.
  assert (Hone : ∀ t2 th2 r r2 sc sc2, t2 ≠ t → threads c !! t2 = Some th2 →
    winner th' r sc → winner th2 r2 sc2 → False).
  { intros t3 th3 r r3 sc sc3 Hne H3 Hw Hw3.
    destruct (thread_step_winner _ _ _ _ _ _ _ _ _ Hstep Hw) as [[Hw0 _]|[Hth _]].
    - apply Hne. by eapply (inv_unique _ Hinv).
    - rewrite Hth in Hlo. destruct (inv_winner _ Hinv _ _ _ _ H3 Hw3) as [He _]. destruct Hlo. congruence. }
  intros [[-> ->]|[Hne1 H1]]%lookup_step [[-> ->]|[Hne2 H2]]%lookup_step Hw1 Hw2; [done|exfalso..|].
  - by eapply Hone.
  - by eapply Hone.
  - by eapply (inv_unique _ Hinv).
Qed.

Lemma step_inv : inv c'.
Proof using Hinv Ht Hstep.
  split; [apply lock_kept|apply local_kept|apply winner_kept|apply set_kept|apply unique_kept].
Qed.
End preservation.

Lemma runs_inv c c' : initial c → rtc step c c' → inv c'.
Proof.
  intros Hi H. eapply rtc_invariant; [|exact H|by apply initial_inv].
  intros y y' Hy Hs. revert Hy. destruct Hs as [c0 t th th' st' l' Ht Hstep]. intros Hy.
  exact (step_inv c0 t th th' st' l' Hy Ht Hstep).
Qed.

(** ** Properties *)

(** However the threads that call [cancel] interleave, whenever the event
    is seen set, exactly one call has made the request (it returns true, all
    others return false), and the reason and scope read are the ones of that
    call, already stored. *)
Theorem cancellation_seen_is_complete c c' :
  initial c → rtc step c c' →
  (event (shared c') = true ↔ ∃ t th r sc, threads c' !! t = Some th ∧ winner th r sc) ∧
  (∀ t th r sc, threads c' !! t = Some th → winner th r sc →
     shared c' = fst (cancel r sc fresh_state)) ∧
  (∀ t t' r r' sc sc', threads c' !! t = Some (Returned true r sc) →
     threads c' !! t' = Some (Returned true r' sc') → t = t').
Proof.
  intros Hi Hr. pose proof (runs_inv _ _ Hi Hr) as Hinv. split_and!.
  - split; [apply (inv_set _ Hinv)|]. intros (t & th & r & sc & Ht & Hw).
    by apply (inv_winner _ Hinv _ _ _ _ Ht Hw).
  - intros t th r sc Ht Hw. destruct (inv_winner _ Hinv _ _ _ _ Ht Hw) as (He & Hre & Hsc).
    destruct (shared c') as [e re s]. cbn in *. by subst.
  - intros t t' r r' sc sc' Ht Ht'. eapply (inv_unique _ Hinv); [done|done|by right|by right].
Qed.

Lemma is_cancelled_sources states t :
  is_cancelled states t = existsb (λ s, event (states s)) (sources t).
Proof.
  induction t as [s|p IHp l IHl]; cbn; [by rewrite orb_false_r|]. by rewrite existsb_app, IHp, IHl.
Qed.

Lemma find_app {A} (f : A → bool) l k :
  List.find f (l ++ k) = match List.find f l with Some x => Some x | None => List.find f k end.
Proof. induction l as [|x l IH]; cbn; [done|]. by destruct (f x). Qed.

Lemma find_existsb {A} (f : A → bool) l : existsb f l = false → List.find f l = None.
Proof. induction l as [|x l IH]; cbn; [done|]. by destruct (f x). Qed.

Lemma token_first_source states t :
  is_cancelled states t = true →
  ∃ s, List.find (λ s, event (states s)) (sources t) = Some s ∧
    token_reason states t = reason (states s) ∧ token_scope states t = scope (states s).
Proof.
  induction t as [s|p IHp l IHl]; cbn.
  - intros Hs. exists s. by rewrite Hs.
  - rewrite find_app. destruct (is_cancelled states p) eqn:Hp; cbn.
    + intros _. destruct (IHp eq_refl) as (s & -> & ?). by exists s.
    + intros (s & Hs & ?)%IHl. exists s. split; [|done].
      rewrite (is_cancelled_sources states p) in Hp.
      by rewrite (find_existsb _ _ Hp).
Qed.

(** A token, however deeply linked, raises exactly when one of the
    sources it depends on is cancelled, with the reason and scope of the
    first of them, the parents' sources coming first; and cancelling the
    source of a child leaves every token that does not depend on it as it
    was. *)
Theorem linked_tokens_follow_their_sources states t :
  raise_if_cancelled states t =
    match List.find (λ s, event (states s)) (sources t) with
    | Some s => Raise (OperationCancelled (str_or (default "" (reason (states s))) "operation cancelled")
                         (default TASK (scope (states s))))
    | None => Ok tt
    end ∧
  ∀ child r sc, child ∉ sources t →
    raise_if_cancelled (λ s, if decide (s = child) then fst (cancel r sc (states s)) else states s) t
    = raise_if_cancelled states t.
Proof.
  assert (Hone : ∀ states, raise_if_cancelled states t =
    match List.find (λ s, event (states s)) (sources t) with
    | Some s => Raise (OperationCancelled (str_or (default "" (reason (states s))) "operation cancelled")
                         (default TASK (scope (states s))))
    | None => Ok tt
    end).
  { clear. intros states. unfold raise_if_cancelled. destruct (is_cancelled states t) eqn:Hc.
    - destruct (token_first_source _ _ Hc) as (s & -> & -> & ->). done.
    - rewrite is_cancelled_sources in Hc. by rewrite (find_existsb _ _ Hc). }
  split; [apply Hone|]. intros child r sc Hni. rewrite !Hone.
  assert (Hsame : ∀ l, child ∉ l → List.find (λ s, event (if decide (s = child) then
    fst (cancel r sc (states s)) else states s)) l = List.find (λ s, event (states s)) l).
  { clear. induction l as [|x l IH]; cbn; [done|]. intros [Hx Hl]%not_elem_of_cons.
    rewrite decide_False by done. by rewrite IH. }
  rewrite Hsame by done. destruct (List.find _ _) as [s|] eqn:Hf; [|done].
  apply List.find_some in Hf as [Hin _]. rewrite decide_False; [done|].
  intros ->. by apply Hni, list_elem_of_In.
Qed.

(** ** Witnesses *)

Definition sample_config : config :=
  mk_config (<[0 := Waiting " stop " TASK]> (<[1 := Waiting "late" OPERATION]> ∅)) fresh_state None.

Definition sample_run : config :=
  mk_config (<[0 := Returned true " stop " TASK]> (<[1 := Returned false "late" OPERATION]> ∅))
    (mk_cancel true (Some "stop") (Some TASK)) None.

Lemma sample_run_reached : rtc step sample_config sample_run.
Proof.
  unfold sample_config.
  do 6 (eapply rtc_l; [eapply (step_thread _ 0); [reflexivity|econstructor]|]; cbn).
  do 3 (eapply rtc_l; [eapply (step_thread _ 1); [reflexivity|econstructor]|]; cbn).
  match goal with |- rtc step ?a ?b => assert (a = b) as ->; [|apply rtc_refl] end.
  vm_compute. reflexivity.
Qed.

Lemma sample_initial : initial sample_config.
Proof.
  split; [|done]. cbn. intros t th. rewrite !lookup_insert_Some, lookup_empty. naive_solver.
Qed.

Lemma cancellation_seen_is_complete_witness :
  shared sample_run = fst (cancel " stop " TASK fresh_state).
Proof.
  refine (proj1 (proj2 (cancellation_seen_is_complete sample_config sample_run sample_initial
    sample_run_reached)) 0 (Returned true " stop " TASK) " stop " TASK _ _).
  - reflexivity.
  - right. reflexivity.
Defined.

Lemma linked_tokens_follow_their_sources_witness :
  raise_if_cancelled
    (λ s, if decide (s = 1) then fst (cancel "child" OPERATION fresh_state) else fresh_state)
    (CancellationToken 0) = Ok tt.
Proof.
  refine (proj2 (linked_tokens_follow_their_sources (λ _, fresh_state) (CancellationToken 0)) 1
    "child" OPERATION _).
  cbn. rewrite list_elem_of_singleton. discriminate.
Defined.
