(* ===== verification/ResourceControl.v ===== *)
(** * Resource control of sandboxed commands: [client/harness/resource_control.py]

    The execution profile, the per-process and control-group limits, and the
    runner that wraps a command in a transient scope.  What the runner asks
    the host (files, environment, identity) is a record of answers. *)

From Stdlib Require Import Ascii.
From S2P Require Import Prelude.

Open Scope py_scope.
Open Scope Z_scope.

(** ** Data *)

Inductive Capability :=
  | FILESYSTEM_READ | HOST_READ | WORKSPACE_WRITE | SHELL_COMPLEX | NETWORK | GPU | SSH
  | REMOTE_WRITE | CONTAINER_RUNTIME | SECRETS.

#[export] Instance Capability_eq_dec : EqDecision Capability.
Proof. solve_decision. Defined.

Inductive CgroupAvailability :=
  | UNKNOWN | AVAILABLE | SYSTEMD_RUN_ABSENT | DELEGATED | SYSTEMCTL_ABSENT
  | USER_BUS_UNAVAILABLE | CONTROLLERS_UNAVAILABLE | REFUSED.

#[export] Instance CgroupAvailability_eq_dec : EqDecision CgroupAvailability.
Proof. solve_decision. Defined.

Inductive exn := ValueError (msg : string).

(** ** The execution profile *)

Record ExecutionProfile := mk_profile {
  capabilities : list Capability;
  workspace_read : bool;
  workspace_write : bool;
  shell_complex : bool;
  network : bool;
  gpu : bool;
  ssh : bool;
  container_runtime : bool;
  secrets_allowed : bool;
  host_read_paths : list string;
}.

Definition granted (c : Capability) (l : list Capability) : bool := bool_decide (c ∈ l).

Definition from_capabilities (l : list Capability) (host_paths : list string)
    : res exn ExecutionProfile :=
  let read := granted FILESYSTEM_READ l in
  let write := granted WORKSPACE_WRITE l in
  let net := granted NETWORK l in
  let ssh := granted SSH l in
  do? rguard (negb (write && negb read)) (ValueError "workspace:write requires filesystem:read") in
  do? rguard (negb (ssh && negb net)) (ValueError "ssh requires network") in
  do? rguard (negb (granted REMOTE_WRITE l && negb net)) (ValueError "remote:write requires network") in
  do? rguard (negb (bool_decide (host_paths ≠ []) && negb (granted HOST_READ l)))
        (ValueError "outside paths require host:read") in
  Ok (mk_profile l read write (granted SHELL_COMPLEX l) net (granted GPU l) ssh
        (granted CONTAINER_RUNTIME l) (granted SECRETS l) host_paths).

Definition audit_metadata (p : ExecutionProfile) : dict string bool :=
  [("host_read", bool_decide (host_read_paths p ≠ [])); ("workspace_read", workspace_read p);
   ("workspace_write", workspace_write p); ("shell_complex", shell_complex p);
   ("network", network p); ("gpu", gpu p); ("ssh", ssh p);
   ("container_runtime", container_runtime p); ("secrets_allowed", secrets_allowed p)].

(** ** Limits *)

(** A limit passed to a constructor is any value; only an [int] is accepted,
    and a [bool] is not one. *)
Definition int_at_least (minimum : Z) (v : option json) : bool :=
  match v with
  | None => true
  | Some (JInt n) => minimum <=? n
  | Some _ => false
  end.

Definition as_int (v : option json) : option Z :=
  match v with Some (JInt n) => Some n | _ => None end.

Record ResourceLimits := mk_rlimits {
  nofile : option Z;
  core_bytes : option Z;
  cpu_seconds : option Z;
  file_size_bytes : option Z;
}.

(** [ResourceLimits.__post_init__] *)
Definition ResourceLimits_new (no core cpu fsize : option json) : res exn ResourceLimits :=
  do? rguard (int_at_least 0 no) (ValueError "nofile must be a non-negative integer or None") in
  do? rguard (int_at_least 0 core) (ValueError "core_bytes must be a non-negative integer or None") in
  do? rguard (int_at_least 0 cpu) (ValueError "cpu_seconds must be a non-negative integer or None") in
  do? rguard (int_at_least 0 fsize)
        (ValueError "file_size_bytes must be a non-negative integer or None") in
  do? rguard (negb (bool_decide (as_int no = Some 0))) (ValueError "nofile must be greater than zero") in
  Ok (mk_rlimits (as_int no) (as_int core) (as_int cpu) (as_int fsize)).

Definition rlimits_active (l : ResourceLimits) : bool :=
  existsb (λ v, bool_decide (is_Some v)) [nofile l; core_bytes l; cpu_seconds l; file_size_bytes l].

Definition show_pair (n : Z) : string := String.append (pretty n) (String.append ":" (pretty n)).

Definition prlimit_options (l : ResourceLimits) : list string :=
  omap (λ ov : string * option Z, match ov.2 with
             | Some n => Some (String.append "--" (String.append ov.1 (String.append "=" (show_pair n))))
             | None => None
             end)
    [("nofile", nofile l); ("core", core_bytes l); ("cpu", cpu_seconds l); ("fsize", file_size_bytes l)].

Definition DEFAULT_RESOURCE_LIMITS : ResourceLimits := mk_rlimits (Some 4096) (Some 0) None None.

Record CgroupLimits := mk_cgroup {
  memory_max_bytes : option Z;
  memory_swap_max_bytes : option Z;
  tasks_max : option Z;
  cpu_quota_percent : option Z;
}.

(** [CgroupLimits.__post_init__] *)
Definition CgroupLimits_new (mem swap tasks cpu : option json) : res exn CgroupLimits :=
  do? rguard (int_at_least 1 mem) (ValueError "memory_max_bytes must be None or an integer >= 1") in
  do? rguard (int_at_least 0 swap)
        (ValueError "memory_swap_max_bytes must be None or an integer >= 0") in
  do? rguard (int_at_least 1 tasks) (ValueError "tasks_max must be None or an integer >= 1") in
  do? rguard (int_at_least 1 cpu) (ValueError "cpu_quota_percent must be None or an integer >= 1") in
  Ok (mk_cgroup (as_int mem) (as_int swap) (as_int tasks) (as_int cpu)).

Definition is_set (v : option Z) : bool := bool_decide (is_Some v).

Definition active (l : CgroupLimits) : bool :=
  existsb is_set [memory_max_bytes l; memory_swap_max_bytes l; tasks_max l; cpu_quota_percent l].

Definition required_controllers (l : CgroupLimits) : list string :=
  (if is_set (memory_max_bytes l) || is_set (memory_swap_max_bytes l) then ["memory"] else []) ++
  (if is_set (tasks_max l) then ["pids"] else []) ++
  (if is_set (cpu_quota_percent l) then ["cpu"] else []).

Definition property (name : string) (v : option Z) (unit_ : string) : list string :=
  match v with
  | Some n => [String.append name (String.append "=" (String.append (pretty n) unit_))]
  | None => []
  end.

Definition systemd_properties (l : CgroupLimits) : list string :=
  property "MemoryMax" (memory_max_bytes l) "" ++
  property "MemorySwapMax" (memory_swap_max_bytes l) "" ++
  property "TasksMax" (tasks_max l) "" ++
  property "CPUQuota" (cpu_quota_percent l) "%".

Definition DEFAULT_CGROUP_LIMITS : CgroupLimits :=
  mk_cgroup (Some (2 * 1024 * 1024 * 1024)) (Some 0) (Some 256) (Some 800).

(** ** The runner *)

(** What the host answers: environment variables, the caller's uid, whether a
    binary can be executed (a path) or found (a name), directories, the mode
    of the bus socket, [/proc/self/cgroup], and the controllers file of a
    control group given by its components. *)
Record host := mk_host {
  environ : string → option string;
  uid : Z;
  executable : string → bool;
  on_path : string → bool;
  directory : string → bool;
  bus_mode : string → option Z;
  self_cgroup : option string;
  controllers_file : list string → option string;
}.

Record runner := mk_runner {
  systemd_run_binary : string;
  systemctl_binary : string;
  configured_runtime_dir : option string;
  availability : CgroupAvailability;
}.

#[export] Instance eta_runner : Eta runner := λ r,
  mk_runner r.(systemd_run_binary) r.(systemctl_binary) r.(configured_runtime_dir) r.(availability).

Definition unit_name (uuid_hex : string) : string :=
  String.append "spear-tool-" (String.append uuid_hex ".scope").

Section runner.
  Context (h : host).

Definition runtime_dir (r : runner) : string :=
  match configured_runtime_dir r with
  | Some d => d
  | None =>
      match environ h "XDG_RUNTIME_DIR" with
      | Some d => if str_true d then d else String.append "/run/user/" (pretty (uid h))
      | None => String.append "/run/user/" (pretty (uid h))
      end
  end.

(** [s.strip("/")] *)
Fixpoint lstrip_slash (s : string) : string :=
  match s with String "/"%char s' => lstrip_slash s' | _ => s end.
Fixpoint rstrip_slash (s : string) : string :=
  match s with
  | EmptyString => EmptyString
  | String c s' =>
      match rstrip_slash s' with
      | EmptyString => if Ascii.eqb c "/"%char then EmptyString else String c EmptyString
      | t => String c t
      end
  end.

(** [s.split()] *)
Fixpoint words_from (current s : string) : list string :=
  match s with
  | EmptyString => if str_true current then [current] else []
  | String c s' =>
      if py_isspace c then (if str_true current then [current] else []) ++ words_from "" s'
      else words_from (String.append current (String c EmptyString)) s'
  end.
Definition py_split (s : string) : list string := words_from "" s.

(** [parts[: parts.index(target) + 1]] *)
Fixpoint up_to (target : string) (l : list string) : option (list string) :=
  match l with
  | [] => None
  | x :: l => if String.eqb x target then Some [x] else cons x <$> up_to target l
  end.

(** [_delegated_controllers] *)
Definition delegated_controllers : list string :=
  match self_cgroup h with
  | None => []
  | Some text =>
      let relative := List.last (split_on ":"%char (py_strip text)) "" in
      let target := String.append "user@" (String.append (pretty (uid h)) ".service") in
      let parts := split_on "/"%char (rstrip_slash (lstrip_slash relative)) in
      match up_to target parts with
      | None => []
      | Some prefix =>
          match controllers_file h prefix with
          | None => []
          | Some text => py_split text
          end
      end
  end.

(** [os.path.sep in s] *)
Fixpoint has_slash (s : string) : bool :=
  match s with EmptyString => false | String c s' => Ascii.eqb c "/"%char || has_slash s' end.

(** [_binary_missing] *)
Definition binary_missing (binary : string) : bool :=
  if has_slash binary then negb (executable h binary)
  else negb (on_path h binary).

Definition delegated : bool :=
  bool_decide (environ h "SPEAR_RESOURCE_CONTROL" = Some "delegated").

(** [sorted(required - delegated)]; the controllers required are among three. *)
Definition missing_controllers (l : CgroupLimits) : list string :=
  filter (λ c, c ∈ required_controllers l ∧ c ∉ delegated_controllers) ["cpu"; "memory"; "pids"].

(** [stat.S_ISSOCK] *)
Definition is_socket (mode : Z) : bool := Z.land mode 61440 =? 49152.

Fixpoint comma_join (l : list string) : string :=
  match l with
  | [] => ""
  | [x] => x
  | x :: l => String.append x (String.append ", " (comma_join l))
  end.

(** [availability_for]: the failure's summary, or [None] when the limits can
    be applied. *)
Definition availability_for (r : runner) (l : CgroupLimits) : runner * option string :=
  let fail a why := (r <| availability := a |>, Some (String.append "resource control unavailable: " why)) in
  if negb (active l) then (r, None)
  else if delegated then (r <| availability := DELEGATED |>, None)
  else if binary_missing (systemd_run_binary r) then fail SYSTEMD_RUN_ABSENT "systemd-run is absent"
  else if binary_missing (systemctl_binary r) then fail SYSTEMCTL_ABSENT "systemctl is absent"
  else if negb (directory h (runtime_dir r)) then
    fail USER_BUS_UNAVAILABLE "XDG_RUNTIME_DIR is invalid"
  else match bus_mode h (runtime_dir r) with
       | None => fail USER_BUS_UNAVAILABLE "user bus is absent"
       | Some mode =>
           if negb (is_socket mode) then fail USER_BUS_UNAVAILABLE "user bus is not a socket"
           else match missing_controllers l with
                | [] => (r <| availability := AVAILABLE |>, None)
                | missing =>
                    fail CONTROLLERS_UNAVAILABLE
                      (String.append "cgroup controllers not delegated: " (comma_join missing))
                end
       end.

(** [wrap] *)
Definition wrap (r : runner) (argv : list string) (l : CgroupLimits) (unit_ : string)
    : res exn (list string) :=
  do? rguard (bool_decide (argv ≠ [])) (ValueError "scoped argv is empty") in
  if negb (active l) || delegated then Ok argv
  else Ok ([systemd_run_binary r; "--user"; "--scope"; "--quiet"; "--collect";
            String.append "--unit=" unit_]
           ++ (systemd_properties l ≫= λ p, ["-p"; p]) ++ ["--"] ++ argv).

(** What [subprocess.run] may do in [terminate]: exit, time out or fail. *)
Inductive run_outcome := Exited (code : Z) | TimeoutExpired | RunOSError.

Definition terminate_argv (r : runner) (unit_ : string) : list string :=
  [systemctl_binary r; "--user"; "kill"; "--kill-whom=all"; "--signal=KILL"; unit_].

Definition terminate (run : list string → run_outcome) (r : runner) (unit_ : string) : bool :=
  match run (terminate_argv r unit_) with
  | Exited code => code =? 0
  | TimeoutExpired | RunOSError => false
  end.
End runner.

(** ** Properties *)

(** Everything the mechanism needs to be usable for [l]. *)
Definition usable (h : host) (r : runner) (l : CgroupLimits) : Prop :=
  binary_missing h (systemd_run_binary r) = false ∧
  binary_missing h (systemctl_binary r) = false ∧
  directory h (runtime_dir h r) = true ∧
  (∃ mode, bus_mode h (runtime_dir h r) = Some mode ∧ is_socket mode = true) ∧
  ∀ c, c ∈ required_controllers l → c ∈ delegated_controllers h.

Lemma required_among l c : c ∈ required_controllers l → c ∈ ["cpu"; "memory"; "pids"].
Proof.
  unfold required_controllers. rewrite !elem_of_app, !elem_of_cons, elem_of_nil.
  intros [H|[H|H]]; repeat case_match; apply list_elem_of_singleton in H || apply elem_of_nil in H; auto.
Qed.

Lemma missing_nil h l :
  missing_controllers h l = [] ↔ ∀ c, c ∈ required_controllers l → c ∈ delegated_controllers h.
Proof.
  unfold missing_controllers. split.
  - intros Hnil c Hc. destruct (decide (c ∈ delegated_controllers h)) as [|Hn]; [done|exfalso].
    assert (Hin : c ∈ filter (λ c, c ∈ required_controllers l ∧ c ∉ delegated_controllers h)
      ["cpu"; "memory"; "pids"]).
    { apply list_elem_of_filter. split; [done|by eapply required_among]. }
    rewrite Hnil in Hin. by apply elem_of_nil in Hin.
  - intros Hall. destruct (filter _ _) as [|c rest] eqn:Hf; [done|exfalso].
    assert (Hin : c ∈ c :: rest) by by left. rewrite <- Hf in Hin.
    apply list_elem_of_filter in Hin as [[Hr Hd] _]. by apply Hd, Hall.
Qed.

Lemma property_form name v u p :
  p ∈ property name v u → ∃ t, p = String.append name (String.append "=" t).
Proof.
  unfold property. destruct v; [intros ->%list_elem_of_singleton; eauto|by intros ?%elem_of_nil].
Qed.

Lemma availability_for_spec h r l :
  let '(r', failure) := availability_for h r l in
  (failure = None ↔ active l = false ∨ delegated h = true ∨ usable h r l) ∧
  (failure = None → availability r' = AVAILABLE → active l = true → delegated h = false → usable h r l) ∧
  (is_Some failure → availability r' ≠ AVAILABLE ∧ availability r' ≠ DELEGATED).
Proof.
  unfold availability_for, usable. destruct (active l); cbn [negb]; [|naive_solver].
  destruct (delegated h); cbn [negb]; [naive_solver|].
  destruct (binary_missing h (systemd_run_binary r)); cbn [negb]; [naive_solver|].
  destruct (binary_missing h (systemctl_binary r)); cbn [negb]; [naive_solver|].
  destruct (directory h (runtime_dir h r)); cbn [negb]; [|naive_solver].
  destruct (bus_mode h (runtime_dir h r)) as [mode|]; cbn [negb]; [|naive_solver].
  destruct (is_socket mode) eqn:Hm; cbn [negb].
  2: { split_and!; [|done|done]. split; [done|].
       intros [?|[?|(_ & _ & _ & (mode' & [= <-] & ?) & _)]]; congruence. }
  destruct (missing_controllers h l) as [|c rest] eqn:Hmiss.
  - pose proof (proj1 (missing_nil h l) Hmiss) as Hall.
    assert (Hu : false = false ∧ false = false ∧ true = true ∧
      (∃ mode0, Some mode = Some mode0 ∧ is_socket mode0 = true) ∧
      ∀ c, c ∈ required_controllers l → c ∈ delegated_controllers h) by (split_and!; eauto).
        split_and!; [split; [by right; right|done]|done|by intros []].
  - assert (Hn : ¬ ∀ c, c ∈ required_controllers l → c ∈ delegated_controllers h)
      by (rewrite <- missing_nil; congruence).
    split_and!; [|done|done]. split; [done|]. intros [?|[?|(_ & _ & _ & _ & ?)]]; done.
Qed.

(** Resource control fails closed.  A contract is accepted exactly when
    it is empty, an outer runtime has declared that it enforces it, or both
    binaries, the runtime directory, the bus socket and every controller the
    contract needs are there; a refusal never records the mechanism as
    available.  A command accepted this way runs unwrapped only in the first
    two cases; otherwise it runs through the [systemd-run] that was found,
    with every property of the contract before the separator and the command
    itself unchanged after it. *)
Theorem resource_control_fails_closed h r l argv unit_ :
  argv ≠ [] →
  let '(r', failure) := availability_for h r l in
  (failure = None ↔ active l = false ∨ delegated h = true ∨ usable h r l) ∧
  (is_Some failure → availability r' ≠ AVAILABLE ∧ availability r' ≠ DELEGATED) ∧
  (failure = None →
     (wrap h r argv l unit_ = Ok argv ∧ (active l = false ∨ delegated h = true)) ∨
     (usable h r l ∧ ∃ flags,
        wrap h r argv l unit_ = Ok (systemd_run_binary r :: flags ++ ("--" :: argv)) ∧
        ("--" ∉ flags) ∧ ∀ p, p ∈ systemd_properties l → p ∈ flags)).
Proof.
  intros Hargv. pose proof (availability_for_spec h r l) as Hs.
  destruct (availability_for h r l) as [r' failure]. destruct Hs as (Hiff & _ & Hfail).
  split_and!; [done..|]. intros Hnone. apply Hiff in Hnone. unfold wrap.
  rewrite bool_decide_eq_true_2 by done. cbn [rguard rbind].
  destruct (active l) eqn:Ha; cbn [negb orb]; [|left; by split; [|left]].
  destruct (delegated h) eqn:Hd; cbn [orb]; [left; by split; [|right]|].
  right. destruct Hnone as [?|[?|Hu]]; [done..|]. split; [done|].
  exists (["--user"; "--scope"; "--quiet"; "--collect"; String.append "--unit=" unit_]
    ++ (systemd_properties l ≫= λ p, ["-p"; p])). split_and!.
  - by rewrite <- ?app_assoc.
  - rewrite elem_of_app, list_elem_of_bind. intros [Hin|(p & Hin & Hp)].
    + repeat (apply elem_of_cons in Hin as [Hin|Hin]; [discriminate Hin|]). by apply elem_of_nil in Hin.
    + apply elem_of_cons in Hin as [Hin|Hin%list_elem_of_singleton]; [discriminate Hin|]. subst p.
      unfold systemd_properties in Hp. rewrite !elem_of_app in Hp.
      destruct Hp as [Hp|[Hp|[Hp|Hp]]]; apply property_form in Hp as [t Ht]; discriminate Ht.
  - intros p Hp. rewrite elem_of_app, list_elem_of_bind. right. exists p. split; [|done]. right. by left.
Qed.

(** A profile is built exactly when the grants are coherent: writing the
    workspace comes with reading it, reaching a remote with the network, and
    outside paths with the grant for them; its switches then say exactly
    which capabilities were granted, and nothing not granted is switched on. *)
Theorem profile_coherent l paths :
  (is_ok (from_capabilities l paths) = true ↔
     (WORKSPACE_WRITE ∈ l → FILESYSTEM_READ ∈ l) ∧ (SSH ∈ l → NETWORK ∈ l) ∧
     (REMOTE_WRITE ∈ l → NETWORK ∈ l) ∧ (paths ≠ [] → HOST_READ ∈ l)) ∧
  ∀ p, from_capabilities l paths = Ok p →
    (workspace_read p = true ↔ FILESYSTEM_READ ∈ l) ∧ (workspace_write p = true ↔ WORKSPACE_WRITE ∈ l) ∧
    (network p = true ↔ NETWORK ∈ l) ∧ (ssh p = true ↔ SSH ∈ l) ∧ (gpu p = true ↔ GPU ∈ l) ∧
    (shell_complex p = true ↔ SHELL_COMPLEX ∈ l) ∧ (secrets_allowed p = true ↔ SECRETS ∈ l) ∧
    (container_runtime p = true ↔ CONTAINER_RUNTIME ∈ l) ∧ host_read_paths p = paths.
Proof.
  unfold from_capabilities, granted. split.
  - repeat case_bool_decide; cbn; naive_solver.
  - intros p Hp. repeat (apply rbind_Ok in Hp as (? & _ & Hp)). injection Hp as <-. cbn.
    rewrite !bool_decide_eq_true. naive_solver.
Qed.

(** ** Witnesses *)

Definition sample_host : host :=
  mk_host (λ _, None) 1000 (λ _, true) (λ _, false) (λ _, true) (λ _, Some 49645)
    (Some "0::/user.slice/user@1000.service/app") (λ _, Some "cpu memory pids").

Definition sample_runner : runner :=
  mk_runner "/usr/bin/systemd-run" "/usr/bin/systemctl" None UNKNOWN.

Lemma resource_control_fails_closed_witness :
  snd (availability_for sample_host sample_runner DEFAULT_CGROUP_LIMITS) = None ∧
  ∃ flags, wrap sample_host sample_runner ["ls"] DEFAULT_CGROUP_LIMITS "u"
    = Ok ("/usr/bin/systemd-run" :: flags ++ ("--" :: ["ls"])).
Proof.
  assert (Hnone : snd (availability_for sample_host sample_runner DEFAULT_CGROUP_LIMITS) = None)
    by (vm_compute; reflexivity).
  split; [done|].
  pose proof (resource_control_fails_closed sample_host sample_runner DEFAULT_CGROUP_LIMITS ["ls"] "u"
    ltac:(discriminate)) as H.
  destruct (availability_for sample_host sample_runner DEFAULT_CGROUP_LIMITS) as [r' failure].
  cbn in Hnone. destruct H as (_ & _ & H). destruct (H Hnone) as [[_ [Ha|Ha]]|[_ (flags & Hw & _)]].
  - vm_compute in Ha. discriminate Ha.
  - vm_compute in Ha. discriminate Ha.
  - exists flags. exact Hw.
Defined.

Lemma profile_coherent_witness :
  host_read_paths <$> (match from_capabilities [FILESYSTEM_READ; WORKSPACE_WRITE] [] with
                       | Ok p => Some p | Raise _ => None end) = Some [].
Proof.
  destruct (from_capabilities [FILESYSTEM_READ; WORKSPACE_WRITE] []) as [p|e] eqn:Hp.
  - destruct (proj2 (profile_coherent [FILESYSTEM_READ; WORKSPACE_WRITE] []) p Hp) as (_ & _ & _ & _ & _ & _ & _ & _ & Hh).
    exact (f_equal Some Hh).
  - discriminate Hp.
Defined.
