(* ===== verification/ApprovalHistory.v ===== *)
(** * The append-only history of review decisions:
      [client/standard/standard_approval_history.py]

    A log file is what reading it makes of each of its lines (blank, a
    decoded event, text that is not JSON, JSON that is not an event), and
    whether its last line is terminated, which decides where an append lands.
    The hash of a canonical JSON value is a parameter. *)

From Stdlib Require Import Ascii.
From stdpp Require Import sorting.
From S2P Require Import Prelude.

Open Scope py_scope.

(** ** Data *)

Inductive ApprovalEventType := INITIAL_APPROVAL | REAPPROVAL | MIGRATED_INITIAL_APPROVAL.
Inductive EvidenceStatus := BOUND | PREDATES_EVIDENCE_BINDING.

#[export] Instance ApprovalEventType_eq_dec : EqDecision ApprovalEventType.
Proof. solve_decision. Defined.

#[export] Instance ApprovalEventType_enum : StrEnum ApprovalEventType := {|
  enum_members := [INITIAL_APPROVAL; REAPPROVAL; MIGRATED_INITIAL_APPROVAL];
  enum_value t := match t with INITIAL_APPROVAL => "INITIAL_APPROVAL" | REAPPROVAL => "REAPPROVAL"
                  | MIGRATED_INITIAL_APPROVAL => "MIGRATED_INITIAL_APPROVAL" end;
  enum_complete := ltac:(enum_all);
  enum_distinct := ltac:(enum_nodup) |}.

Inductive exn := StandardApprovalHistoryError (msg : string).

Record StandardApprovalEvent := mk_event {
  candidate_id : string;
  standard_id : string;
  revision : string;
  verdict : string;
  span_roles : list string;
  reviewer : string;
  approved_at : string;
  structure_fingerprint : string;
  review_evidence_fingerprint : option string;
  reviewed_links : list (dict string json);
  packet_identity : option string;
  notes : option string;
  approval_schema_version : Z;
  event_type : ApprovalEventType;
  supersedes : option string;
  recorded_at : string;
  event_id : string;
}.

#[export] Instance eta_event : Eta StandardApprovalEvent := λ r,
  mk_event r.(candidate_id) r.(standard_id) r.(revision) r.(verdict) r.(span_roles) r.(reviewer)
    r.(approved_at) r.(structure_fingerprint) r.(review_evidence_fingerprint) r.(reviewed_links)
    r.(packet_identity) r.(notes) r.(approval_schema_version) r.(event_type) r.(supersedes)
    r.(recorded_at) r.(event_id).

Definition evidence_status (e : StandardApprovalEvent) : EvidenceStatus :=
  match review_evidence_fingerprint e with
  | Some f => if str_true f then BOUND else PREDATES_EVIDENCE_BINDING
  | None => PREDATES_EVIDENCE_BINDING
  end.

Definition opt_json (o : option string) : json :=
  match o with Some s => JStr s | None => JNull end.

(** Everything that makes a decision the decision that it is. *)
Definition identity (e : StandardApprovalEvent) : json :=
  JObj [("candidate_id", JStr (candidate_id e)); ("standard_id", JStr (standard_id e));
        ("revision", JStr (revision e)); ("verdict", JStr (verdict e));
        ("span_roles", JList (JStr <$> span_roles e)); ("reviewer", JStr (reviewer e));
        ("approved_at", JStr (approved_at e));
        ("structure_fingerprint", JStr (structure_fingerprint e));
        ("review_evidence_fingerprint", opt_json (review_evidence_fingerprint e));
        ("reviewed_links", JList (JObj <$> reviewed_links e));
        ("packet_identity", opt_json (packet_identity e)); ("notes", opt_json (notes e));
        ("approval_schema_version", JInt (approval_schema_version e));
        ("event_type", JStr (enum_value (event_type e)));
        ("supersedes", opt_json (supersedes e))].

(** An active approval, as the approvals file holds it. *)
Record Approval := mk_approval {
  ap_candidate_id : string;
  ap_verdict : string;
  ap_span_roles : list string;
  ap_reviewer : string;
  ap_reviewed_at : string;
  ap_structure_fingerprint : string;
  ap_review_evidence_fingerprint : option string;
  ap_reviewed_links : list (dict string json);
  ap_packet_identity : option string;
  ap_notes : option string;
  ap_schema_version : Z;
  ap_event_id : option string;
}.

(** ** The log file *)

Inductive line :=
  | Blank
  | Event (e : StandardApprovalEvent)
  | NotJson
  | NotEvent.

Inductive log_file :=
  | NoFile
  | LinkFile
  | TextFile (lines : list line) (terminated : bool).

(** Text appended to an unterminated last line joins it; two JSON values on
    one line are not JSON. *)
Definition join_line (last new : line) : line :=
  match last, new with
  | Blank, l => l
  | l, Blank => l
  | _, _ => NotJson
  end.

Fixpoint append_lines (old : list line) (new : list line) : list line :=
  match old with
  | [] => new
  | [l] => match new with [] => [l] | n :: new => join_line l n :: new end
  | l :: old => l :: append_lines old new
  end.

Section history.
  Context (sha256_json : json → string).

(** ** Sealing *)

Definition event_hash (e : StandardApprovalEvent) : string :=
  String.append "evt-" (String.substring 0 16 (sha256_json (identity e))).

Definition sealed (at_ : string) (e : StandardApprovalEvent) : StandardApprovalEvent :=
  e <| recorded_at := at_ |> <| event_id := event_hash e |>.

Definition event_for (now : string) (a : Approval) (sid rev : string) (ty : ApprovalEventType)
    (sup : option string) : StandardApprovalEvent :=
  sealed now (mk_event (ap_candidate_id a) sid rev (ap_verdict a) (ap_span_roles a) (ap_reviewer a)
    (ap_reviewed_at a) (ap_structure_fingerprint a) (ap_review_evidence_fingerprint a)
    (ap_reviewed_links a) (ap_packet_identity a) (ap_notes a) (ap_schema_version a) ty sup "" "").

(** ** Reading *)

Definition is_hex (c : ascii) : bool :=
  let n := N_of_ascii c in ((48 <=? n) && (n <=? 57) || (97 <=? n) && (n <=? 102))%N.

Fixpoint all_hex (s : string) : bool :=
  match s with EmptyString => true | String c s' => is_hex c && all_hex s' end.

(** The pattern [evt-[0-9a-f]{16}], matched in full. *)
Definition event_id_pattern (s : string) : bool :=
  String.eqb (String.substring 0 4 s) "evt-" && all_hex (String.substring 4 16 s)
  && (String.length s =? 20)%nat.

Definition err {A} (msg : string) : res exn A := Raise (StandardApprovalHistoryError msg).

(** The first loop of [_check]: identifiers are well formed and distinct. *)
Fixpoint check_ids (seen : list string) (l : list StandardApprovalEvent) : res exn unit :=
  match l with
  | [] => Ok tt
  | e :: l =>
      if negb (event_id_pattern (event_id e)) then err "malformed approval event id"
      else if bool_decide (event_id e ∈ seen) then err "approval event is recorded twice"
      else check_ids (event_id e :: seen) l
  end.

Definition by_id (l : list StandardApprovalEvent) (id : string) : option StandardApprovalEvent :=
  List.find (λ e, String.eqb (event_id e) id) l.

(** The second: what an event replaces is recorded, is about the same
    candidate, and is replaced once. *)
Fixpoint check_supersedes (all : list StandardApprovalEvent) (superseded : list string)
    (l : list StandardApprovalEvent) : res exn unit :=
  match l with
  | [] => Ok tt
  | e :: l =>
      match supersedes e with
      | None => check_supersedes all superseded l
      | Some id =>
          match by_id all id with
          | None => err "approval event supersedes one which is not recorded"
          | Some previous =>
              if negb (String.eqb (candidate_id previous) (candidate_id e)) then
                err "approval event supersedes a decision about another candidate"
              else if bool_decide (id ∈ superseded) then err "approval event is superseded twice"
              else check_supersedes all (id :: superseded) l
          end
      end
  end.

(** The third: a predecessor precedes. *)
Fixpoint check_order (seen : list string) (l : list StandardApprovalEvent) : res exn unit :=
  match l with
  | [] => Ok tt
  | e :: l =>
      match supersedes e with
      | Some id =>
          if bool_decide (id ∈ seen) then check_order (event_id e :: seen) l
          else err "approval event supersedes one which it does not follow"
      | None => check_order (event_id e :: seen) l
      end
  end.

Definition check (l : list StandardApprovalEvent) : res exn unit :=
  do? check_ids [] l in
  do? check_supersedes l [] l in
  check_order [] l.

Fixpoint read_lines (sid rev : string) (l : list line) : res exn (list StandardApprovalEvent) :=
  match l with
  | [] => Ok []
  | Blank :: l => read_lines sid rev l
  | NotJson :: _ => err "approval history line is unreadable (truncated or corrupt)"
  | NotEvent :: _ => err "malformed approval event"
  | Event e :: l =>
      if negb (String.eqb (standard_id e) sid && String.eqb (revision e) rev) then
        err "approval history line belongs to another revision"
      else let? rest := read_lines sid rev l in Ok (e :: rest)
  end.

Definition events (sid rev : string) (f : log_file) : res exn (list StandardApprovalEvent) :=
  match f with
  | LinkFile => err "approval history uses a symlink"
  | NoFile => Ok []
  | TextFile l _ =>
      let? found := read_lines sid rev l in
      do? check found in
      Ok found
  end.

(** [events] restricted to one candidate, which is also [chain]. *)
Definition events_of (sid rev cid : string) (f : log_file) : res exn (list StandardApprovalEvent) :=
  let? found := events sid rev f in
  Ok (filter (λ e, candidate_id e = cid) found).

Definition superseded_ids (l : list StandardApprovalEvent) : list string :=
  omap (λ e, match supersedes e with Some id => if str_true id then Some id else None | None => None end) l.

Definition tips (l : list StandardApprovalEvent) : list StandardApprovalEvent :=
  filter (λ e, event_id e ∉ superseded_ids l) l.

Definition tip (sid rev cid : string) (f : log_file) : res exn (option StandardApprovalEvent) :=
  let? l := events_of sid rev cid f in
  match tips l with
  | [] => Ok None
  | [e] => Ok (Some e)
  | _ => err "candidate has several unsuperseded decisions; the chain is ambiguous"
  end.

(** ** Writing *)

Fixpoint payload (existing : list string) (l : list StandardApprovalEvent) : res exn (list line) :=
  match l with
  | [] => Ok []
  | e :: l =>
      if bool_decide (event_id e ∈ existing) then err "approval event is already recorded"
      else let? rest := payload (event_id e :: existing) l in Ok (Event e :: rest)
  end.

Definition append (sid rev : string) (new : list StandardApprovalEvent) (f : log_file)
    : log_file * res exn unit :=
  match new with
  | [] => (f, Ok tt)
  | _ =>
      match f with
      | LinkFile => (f, err "refusing to append through a symlink")
      | _ =>
          match (let? found := events sid rev f in payload (event_id <$> found) new) with
          | Raise e => (f, Raise e)
          | Ok lines =>
              (match f with
               | TextFile old true => TextFile (old ++ lines) true
               | TextFile old false => TextFile (append_lines old lines) true
               | _ => TextFile lines true
               end, Ok tt)
          end
      end
  end.

(** ** Agreement with the active approvals *)

Inductive problem :=
  | ACTIVE_EVENT_MISSING (candidate : string)
  | ACTIVE_EVENT_MISMATCH (candidate : string)
  | ACTIVE_EVENT_DIVERGED (candidate : string)
  | ACTIVE_NOT_TIP (candidate : string).

(** [sorted(approvals.items())], by candidate. *)
Definition by_candidate (a b : string * Approval) : Prop := String.leb a.1 b.1 = true.
#[export] Instance by_candidate_dec a b : base.Decision (by_candidate a b).
Proof. unfold by_candidate. apply _. Defined.
Definition sorted_items (approvals : dict string Approval) : list (string * Approval) :=
  merge_sort by_candidate approvals.

(** [==] on JSON values: objects compare as dictionaries, [True] is 1 and
    [False] is 0; a number that is not an integer compares by its literal. *)
Fixpoint json_eqb (a b : json) {struct a} : bool :=
  match a, b with
  | JNull, JNull => true
  | JBool x, JBool y => Bool.eqb x y
  | JBool x, JInt y => ((if x then 1 else 0) =? y)%Z
  | JInt x, JBool y => (x =? (if y then 1 else 0))%Z
  | JInt x, JInt y => (x =? y)%Z
  | JFloat x, JFloat y => String.eqb x y
  | JStr x, JStr y => String.eqb x y
  | JList x, JList y =>
      (fix go x y := match x, y with
                     | [], [] => true
                     | a :: x, b :: y => json_eqb a b && go x y
                     | _, _ => false
                     end) x y
  | JObj x, JObj y =>
      (length x =? length y)%nat &&
      (fix go x := match x with
                   | [] => true
                   | (k, a) :: x =>
                       match dict_get y k with Some b => json_eqb a b | None => false end && go x
                   end) x
  | _, _ => false
  end.

Definition verify_one (now sid rev : string) (f : log_file) (found : list StandardApprovalEvent)
    (ca : string * Approval) : res exn (option problem) :=
  let '(cid, a) := ca in
  match ap_event_id a with
  | None => Ok None
  | Some id =>
      match by_id found id with
      | None => Ok (Some (ACTIVE_EVENT_MISSING cid))
      | Some e =>
          if negb (String.eqb (candidate_id e) cid) then Ok (Some (ACTIVE_EVENT_MISMATCH cid))
          else if negb (json_eqb (identity e)
                          (identity (event_for now a sid rev (event_type e) (supersedes e)))) then
            Ok (Some (ACTIVE_EVENT_DIVERGED cid))
          else
            let? t := tip sid rev cid f in
            match t with
            | Some e' => Ok (if String.eqb (event_id e') id then None else Some (ACTIVE_NOT_TIP cid))
            | None => Ok None
            end
      end
  end.

Definition verify (now sid rev : string) (approvals : dict string Approval) (f : log_file)
    : res exn (list problem) :=
  let? found := events sid rev f in
  let? rows := rmapM (verify_one now sid rev f found) (sorted_items approvals) in
  Ok (omap id rows).

(** ** Carrying existing approvals in *)

Fixpoint plan (now sid rev : string) (recorded : list string) (l : list (string * Approval))
    : list StandardApprovalEvent :=
  match l with
  | [] => []
  | (_, a) :: l =>
      let known := match ap_event_id a with Some id => bool_decide (id ∈ recorded) | None => false end in
      if known then plan now sid rev recorded l
      else
        let e := event_for now a sid rev MIGRATED_INITIAL_APPROVAL None in
        if bool_decide (event_id e ∈ recorded) then plan now sid rev recorded l
        else e :: plan now sid rev (event_id e :: recorded) l
  end.

Definition migration_plan (now sid rev : string) (approvals : dict string Approval) (f : log_file)
    : res exn (list StandardApprovalEvent) :=
  let? found := events sid rev f in
  Ok (plan now sid rev (event_id <$> found) (sorted_items approvals)).

End history.
