(* ===== verification/ApprovalHistoryProps.v ===== *)
(** * Correctness of the review history

    A history that is read back is a set of chains: every candidate has as
    many unreplaced decisions as initial ones, and the last is one of them.
    Appending moves nothing; carrying approvals in twice adds nothing. *)

From Stdlib Require Import Ascii.
From stdpp Require Import sorting.
From S2P Require Import Prelude ApprovalHistory.

Open Scope py_scope.

Implicit Types (l : list StandardApprovalEvent) (e : StandardApprovalEvent).

(** ** What a checked history satisfies *)

Lemma check_ids_spec seen l :
  check_ids seen l = Ok tt ↔
  Forall (λ e, event_id_pattern (event_id e) = true) l ∧
  NoDup (event_id <$> l) ∧ ∀ e, e ∈ l → event_id e ∉ seen.
Proof.
  revert seen. induction l as [|e l IH]; intros seen; cbn.
  - split; [|done]. intros _. split; [constructor|]. split; [constructor|]. by intros ? ?%elem_of_nil.
  - rewrite NoDup_cons, Forall_cons.
    destruct (event_id_pattern (event_id e)) eqn:Hp; cbn; [|split; [done|naive_solver]].
    case_bool_decide as Hs; [split; [done|]; intros (_ & _ & H); by destruct (H e); [left|]|].
    rewrite IH. split.
    + intros (Hf & Hnd & Hseen). split_and!; try done.
      * intros (e' & Heq & Hin)%list_elem_of_fmap. apply (Hseen e' Hin). rewrite <- Heq. by left.
      * intros e' [->|Hin]%elem_of_cons; [done|]. specialize (Hseen e' Hin).
        by apply not_elem_of_cons in Hseen as [_ ?].
    + intros ([_ Hf] & [Hni Hnd] & Hseen). split_and!; try done. intros e' Hin.
      rewrite not_elem_of_cons. split; [|apply Hseen; by right].
      intros Heq. apply Hni. rewrite <- Heq. by apply list_elem_of_fmap_2.
Qed.

Lemma by_id_Some l id e : by_id l id = Some e → e ∈ l ∧ event_id e = id.
Proof. unfold by_id. intros [Hin Heq%String.eqb_eq]%List.find_some. split; [by apply list_elem_of_In|done]. Qed.

(** The identifiers an event list replaces. *)
Definition replaced l : list string := omap supersedes l.

Lemma check_supersedes_spec all sup l :
  check_supersedes all sup l = Ok tt →
  NoDup (replaced l) ∧ (∀ id, id ∈ replaced l → id ∉ sup) ∧
  ∀ e id, e ∈ l → supersedes e = Some id →
    ∃ prev, prev ∈ all ∧ event_id prev = id ∧ candidate_id prev = candidate_id e.
Proof.
  revert sup. induction l as [|e l IH]; intros sup; cbn.
  - intros _. split; [constructor|]. split; [by intros ? ?%elem_of_nil|by intros ?? ?%elem_of_nil].
  - destruct (supersedes e) as [id|] eqn:He.
    + destruct (by_id all id) as [prev|] eqn:Hp; [|done].
      destruct (String.eqb_spec (candidate_id prev) (candidate_id e)) as [Hc|]; cbn; [|done].
      case_bool_decide as Hs; [done|]. intros (Hnd & Hfr & Hprev)%IH. split_and!.
      * apply NoDup_cons. split; [|done]. intros Hin. apply (Hfr id Hin). by left.
      * intros id' [->|Hin]%elem_of_cons; [done|]. apply Hfr in Hin. by apply not_elem_of_cons in Hin as [_ ?].
      * intros e' id' [->|Hin]%elem_of_cons Hs'; [|by eapply Hprev].
        rewrite He in Hs'. injection Hs' as <-. apply by_id_Some in Hp as [? ?]. by exists prev.
    + intros (Hnd & Hfr & Hprev)%IH. split_and!; [done..|].
      intros e' id' [->|Hin]%elem_of_cons Hs'; [congruence|by eapply Hprev].
Qed.

Lemma check_order_spec seen l :
  check_order seen l = Ok tt → ∀ l1 e l2 id, l = l1 ++ e :: l2 → supersedes e = Some id →
    id ∈ seen ∨ ∃ prev, prev ∈ l1 ∧ event_id prev = id.
Proof.
  revert seen. induction l as [|x l IH]; intros seen Hc l1 e l2 id Hl Hs; [by destruct l1|].
  cbn in Hc. destruct l1 as [|y l1]; cbn in Hl; injection Hl as -> ->.
  - rewrite Hs in Hc. case_bool_decide as Hin; [by left|done].
  - assert (Hc' : check_order (event_id y :: seen) (l1 ++ e :: l2) = Ok tt).
    { destruct (supersedes y); [|done]. by case_bool_decide. }
    destruct (IH _ Hc' l1 e l2 id eq_refl Hs) as [[->|?]%elem_of_cons|(p & ? & ?)]; [right|by left|right].
    + exists y. split; [by left|done].
    + exists p. split; [by right|done].
Qed.

Record checked l : Prop := {
  ch_pattern : Forall (λ e, event_id_pattern (event_id e) = true) l;
  ch_ids : NoDup (event_id <$> l);
  ch_once : NoDup (replaced l);
  ch_prev : ∀ e id, e ∈ l → supersedes e = Some id →
    ∃ prev, prev ∈ l ∧ event_id prev = id ∧ candidate_id prev = candidate_id e;
  ch_order : ∀ l1 e l2 id, l = l1 ++ e :: l2 → supersedes e = Some id →
    ∃ prev, prev ∈ l1 ∧ event_id prev = id;
}.

Lemma check_spec l : check l = Ok tt → checked l.
Proof.
  unfold check. intros ([] & Hi & ([] & Hs & Ho)%rbind_Ok)%rbind_Ok.
  apply check_ids_spec in Hi as (Hp & Hnd & _). apply check_supersedes_spec in Hs as (Ho1 & _ & Hprev).
  split; try done. intros l1 e l2 id Hl He.
  destruct (check_order_spec _ _ Ho l1 e l2 id Hl He) as [?%elem_of_nil|?]; done.
Qed.

Lemma pattern_nonempty id : event_id_pattern id = true → str_true id = true.
Proof. by destruct id. Qed.

Lemma superseded_ids_replaced l :
  (∀ e id, e ∈ l → supersedes e = Some id → str_true id = true) → superseded_ids l = replaced l.
Proof.
  unfold superseded_ids, replaced. induction l as [|e l IH]; intros H; cbn; [done|].
  rewrite IH by (intros e' id ?; apply H; by right).
  destruct (supersedes e) as [id|] eqn:He; [|done]. by rewrite (H e id) by (by left || done).
Qed.

Lemma replaced_filter (P : StandardApprovalEvent → Prop) `{∀ e, base.Decision (P e)} l :
  replaced (filter P l) `sublist_of` replaced l.
Proof.
  unfold replaced. induction l as [|e l IH]; [done|]. rewrite filter_cons. cbn.
  case_decide; cbn; destruct (supersedes e); done || by constructor.
Qed.

Lemma filter_split {A} (P : A → Prop) `{∀ x, base.Decision (P x)} (l k1 k2 : list A) x :
  filter P l = k1 ++ x :: k2 →
  ∃ l1 l2 : list A, l = l1 ++ x :: l2 ∧ filter P l1 = k1 ∧ filter P l2 = k2.
Proof.
  revert k1. induction l as [|y l IH]; intros k1; [by destruct k1|]. rewrite filter_cons.
  case_decide as Hy.
  - destruct k1 as [|z k1]; cbn.
    + intros [= -> <-]. by exists [], l.
    + intros [= -> Hf]. destruct (IH _ Hf) as (l1 & l2 & -> & <- & <-). exists (z :: l1), l2.
      by rewrite filter_cons_True.
  - intros Hf. destruct (IH _ Hf) as (l1 & l2 & -> & <- & <-). exists (y :: l1), l2.
    by rewrite filter_cons_False.
Qed.

Lemma NoDup_fmap_elem {A B} (f : A → B) (l : list A) x y :
  NoDup (f <$> l) → x ∈ l → y ∈ l → f x = f y → x = y.
Proof.
  induction l as [|z l IH]; [by intros _ ?%elem_of_nil|]. cbn. intros [Hni Hnd]%NoDup_cons.
  intros [->|Hx]%elem_of_cons [->|Hy]%elem_of_cons Heq; [done|exfalso..|by apply IH].
  - apply Hni. rewrite Heq. by apply list_elem_of_fmap_2.
  - apply Hni. rewrite <- Heq. by apply list_elem_of_fmap_2.
Qed.

(** One candidate's events are a checked history of their own. *)
Lemma checked_filter l cid :
  checked l → checked (filter (λ e, candidate_id e = cid) l).
Proof.
  intros [H1 H2 H3 H4 H5]. split.
  - apply Forall_forall. intros e [_ Hin]%list_elem_of_filter. by eapply Forall_forall in H1.
  - eapply sublist_NoDup; [exact H2|]. apply fmap_sublist, sublist_filter.
  - eapply sublist_NoDup; [exact H3|apply replaced_filter].
  - intros e id [Hc Hin]%list_elem_of_filter He. destruct (H4 e id Hin He) as (prev & ? & ? & Hcp).
    exists prev. split_and!; [|done..]. apply list_elem_of_filter. split; [congruence|done].
  - intros k1 e k2 id Hl He. destruct (filter_split _ _ _ _ _ Hl) as (l1 & l2 & -> & <- & _).
    destruct (H5 l1 e l2 id eq_refl He) as (prev & Hin & Hid). exists prev. split; [|done].
    apply list_elem_of_filter. split; [|done].
    destruct (H4 e id) as (prev' & Hin' & Hid' & Hc'); [rewrite elem_of_app; right; by left|done|].
    assert (prev' = prev) as ->.
    { eapply (NoDup_fmap_elem event_id); [exact H2|done| |congruence]. rewrite elem_of_app. by left. }
    rewrite Hc'. assert (He' : e ∈ filter (λ e, candidate_id e = cid) (l1 ++ e :: l2))
      by (rewrite Hl, elem_of_app; right; by left).
    by apply list_elem_of_filter in He' as [? _].
Qed.

(** ** Tips *)

Definition initial e : bool := bool_decide (supersedes e = None).

Definition initials l : list StandardApprovalEvent := filter (λ e, supersedes e = None) l.

Lemma length_filter_split {A} (P Q : A → Prop) `{∀ x, base.Decision (P x), ∀ x, base.Decision (Q x)} (l : list A) :
  (∀ x, x ∈ l → Q x ↔ ¬ P x) → length (filter P l) + length (filter Q l) = length l.
Proof.
  induction l as [|x l IH]; intros H1; [done|]. rewrite !filter_cons.
  pose proof (H1 x ltac:(by left)). assert (IHl : length (filter P l) + length (filter Q l) = length l)
    by (apply IH; intros; apply H1; by right).
  repeat case_decide; cbn; (lia || tauto).
Qed.

Lemma length_replaced l : length (replaced l) = length (filter (λ e, is_Some (supersedes e)) l).
Proof.
  unfold replaced. induction l as [|e l IH]; [done|]. rewrite filter_cons. cbn.
  destruct (supersedes e) as [id|]; case_decide as H; cbn.
  - by f_equal.
  - exfalso. apply H. by eexists.
  - by apply is_Some_None in H.
  - done.
Qed.

(** As many decisions are unreplaced as are initial. *)
Lemma tips_initials l : checked l → length (tips l) = length (initials l).
Proof.
  intros [Hpat Hnd Honce Hprev _]. unfold tips, initials.
  assert (Hrep : superseded_ids l = replaced l).
  { apply superseded_ids_replaced. intros e id Hin He.
    destruct (Hprev e id Hin He) as (prev & Hp & <- & _). apply pattern_nonempty.
    by eapply Forall_forall in Hpat. }
  rewrite Hrep.
  assert (Hcount : length (filter (λ e, event_id e ∈ replaced l) l) = length (replaced l)).
  { rewrite <- (length_fmap event_id). apply Permutation_length, NoDup_Permutation.
    - eapply sublist_NoDup; [exact Hnd|]. apply fmap_sublist, sublist_filter.
    - done.
    - intros id. rewrite list_elem_of_fmap. split.
      + intros (e & -> & [? _]%list_elem_of_filter). done.
      + intros Hid. pose proof Hid as (e & Hin & He)%list_elem_of_omap.
        destruct (Hprev e id Hin He) as (prev & Hp & Heq & _). exists prev. split; [done|].
        apply list_elem_of_filter. by rewrite Heq. }
  rewrite length_replaced in Hcount.
  pose proof (length_filter_split (λ e, event_id e ∈ replaced l) (λ e, event_id e ∉ replaced l) l ltac:(done)).
  pose proof (length_filter_split (λ e, is_Some (supersedes e)) (λ e, supersedes e = None) l
    ltac:(intros; by rewrite eq_None_not_Some)). lia.
Qed.

(** The last decision recorded is not replaced. *)
Lemma last_is_tip l e : checked l → last l = Some e → e ∈ tips l.
Proof.
  intros [Hpat Hnd _ Hprev Hord] Hlast. unfold tips. apply list_elem_of_filter.
  split; [|by apply last_Some_elem_of].
  apply last_Some in Hlast as [l' ->].
  intros (e' & Hin & He')%list_elem_of_omap.
  destruct (supersedes e') as [id|] eqn:Hs; [|done]. destruct (str_true id); [|done]. injection He' as ->.
  assert (Hearlier : ∃ prev, prev ∈ l' ∧ event_id prev = event_id e).
  { apply list_elem_of_split in Hin as (l1 & l2 & Heq).
    destruct (Hord l1 e' l2 _ Heq Hs) as (prev & Hp & Hid). exists prev. split; [|done].
    destruct (exists_last (l := e' :: l2)) as (z & y & Hz); [done|].
    rewrite Hz, app_assoc in Heq. apply app_inj_tail in Heq as [-> _]. rewrite elem_of_app. by left. }
  destruct Hearlier as (prev & Hp & Hid).
  rewrite fmap_app in Hnd. apply NoDup_app in Hnd as (_ & Hdis & _).
  apply (Hdis (event_id prev)); [by apply list_elem_of_fmap_2|]. rewrite Hid. by left.
Qed.

Lemma events_checked sid rev f l : events sid rev f = Ok l → checked l.
Proof.
  destruct f as [| |ls tm]; cbn; [|done|].
  - intros [= <-]. by apply check_spec.
  - intros (found & _ & ([] & Hc & [= <-])%rbind_Ok)%rbind_Ok. by apply check_spec.
Qed.

(** In a history that can be read, a candidate has exactly as many
    decisions that nothing has replaced as it has initial ones, the decision
    recorded last is one of them, and with a single initial decision the tip
    is that last decision; with more than one, [tip] reports ambiguity. *)
Theorem tip_is_last_decision sid rev cid f l :
  events_of sid rev cid f = Ok l →
  length (tips l) = length (initials l) ∧
  match last l with
  | None => tip sid rev cid f = Ok None
  | Some e => e ∈ tips l ∧
      (length (initials l) = 1 → tip sid rev cid f = Ok (Some e)) ∧
      (length (initials l) ≠ 1 → is_ok (tip sid rev cid f) = false)
  end.
Proof.
  intros Hl. assert (Hch : checked l).
  { unfold events_of in Hl. apply rbind_Ok in Hl as (found & Hf & [= <-]).
    by apply checked_filter, (events_checked sid rev f). }
  pose proof (tips_initials _ Hch) as Hlen. split; [done|]. unfold tip. rewrite Hl. cbn [rbind].
  destruct (last l) as [e|] eqn:Hlast.
  - pose proof (last_is_tip _ _ Hch Hlast) as Htip. rewrite <- Hlen. split_and!; [done|..].
    + destruct (tips l) as [|x [|]]; cbn; try done. intros _. by apply list_elem_of_singleton in Htip as <-.
    + destruct (tips l) as [|x [|]]; cbn; try done. by apply elem_of_nil in Htip.
  - apply last_None in Hlast as ->. done.
Qed.

(** ** Appending *)

Definition belongs sid rev e : bool := String.eqb (standard_id e) sid && String.eqb (revision e) rev.

Lemma read_lines_app sid rev ls ks :
  read_lines sid rev (ls ++ ks) =
  let? a := read_lines sid rev ls in let? b := read_lines sid rev ks in Ok (a ++ b).
Proof.
  induction ls as [|[|e| |] ls IH]; cbn; try done.
  - by destruct (read_lines sid rev ks).
  - fold (belongs sid rev e). destruct (belongs sid rev e); cbn; [|done]. rewrite IH.
    destruct (read_lines sid rev ls); cbn; [|done]. by destruct (read_lines sid rev ks).
Qed.

Lemma read_lines_events sid rev l :
  read_lines sid rev (Event <$> l) = Ok l ↔ Forall (λ e, belongs sid rev e = true) l.
Proof.
  induction l as [|e l IH]; cbn; [by split; [constructor|]|].
  rewrite Forall_cons. fold (belongs sid rev e). destruct (belongs sid rev e); cbn.
  - destruct (read_lines sid rev (Event <$> l)) as [l'|] eqn:Hr; cbn.
    + split; [intros [= ->]; by split; [|apply IH]|intros [_ ?%IH]; congruence].
    + split; [done|]. intros [_ ?%IH]. done.
  - split; [done|]. by intros [? _].
Qed.

Lemma read_lines_events_inv sid rev l l' :
  read_lines sid rev (Event <$> l) = Ok l' → l' = l.
Proof.
  revert l'. induction l as [|e l IH]; intros l'; cbn; [by intros [= <-]|].
  destruct (_ && _); cbn; [|done]. destruct (read_lines _ _ _) as [r|] eqn:Hr; cbn; [|done].
  intros [= <-]. f_equal. by apply IH.
Qed.

Lemma payload_spec ids l ls :
  payload ids l = Ok ls → ls = Event <$> l ∧ NoDup (event_id <$> l) ∧ ∀ e, e ∈ l → event_id e ∉ ids.
Proof.
  revert ids ls. induction l as [|e l IH]; intros ids ls; cbn.
  - intros [= <-]. split_and!; [done|constructor|by intros ? ?%elem_of_nil].
  - case_bool_decide as Hin; [done|]. intros (rest & Hr & [= <-])%rbind_Ok.
    apply IH in Hr as (-> & Hnd & Hfr). split_and!; [done|constructor; [|done]|].
    + intros (e' & Heq & Hel)%list_elem_of_fmap. apply (Hfr e' Hel). rewrite <- Heq. by left.
    + intros e' [->|Hel]%elem_of_cons; [done|]. apply Hfr in Hel. by apply not_elem_of_cons in Hel as [_ ?].
Qed.

Lemma payload_Ok ids l :
  NoDup (event_id <$> l) → (∀ e, e ∈ l → event_id e ∉ ids) → payload ids l = Ok (Event <$> l).
Proof.
  revert ids. induction l as [|e l IH]; intros ids; cbn; [done|].
  intros [Hni Hnd]%NoDup_cons Hfr. rewrite bool_decide_eq_false_2 by (apply Hfr; by left).
  rewrite IH; [done|done|]. intros e' Hel. rewrite not_elem_of_cons. split; [|apply Hfr; by right].
  intros Heq. apply Hni. rewrite <- Heq. by apply list_elem_of_fmap_2.
Qed.

(** The file ends where a new line may start. *)
Definition terminated (f : log_file) : Prop :=
  match f with NoFile => True | TextFile _ t => t = true | LinkFile => False end.

Definition lines_of (f : log_file) : list line := match f with TextFile l _ => l | _ => [] end.

Lemma events_lines sid rev f l :
  events sid rev f = Ok l → read_lines sid rev (lines_of f) = Ok l ∧ check l = Ok tt.
Proof.
  destruct f as [| |ls tm]; cbn; [by intros [= <-]|done|].
  intros (found & Hr & ([] & Hc & [= <-])%rbind_Ok)%rbind_Ok. done.
Qed.

Lemma append_spec sid rev new f found f' r :
  terminated f → events sid rev f = Ok found → append sid rev new f = (f', r) →
  match r with
  | Raise _ => f' = f
  | Ok _ => NoDup (event_id <$> found ++ new) ∧
      (f' = TextFile (lines_of f ++ (Event <$> new)) true ∨ new = [] ∧ f' = f)
  end.
Proof.
  intros Ht He Ha. pose proof (events_checked _ _ _ _ He) as Hch.
  destruct new as [|e new]; cbn [append] in Ha.
  { injection Ha as <- <-. rewrite app_nil_r. split; [apply (ch_ids _ Hch)|by right]. }
  destruct f as [| |ls tm]; [|done|].
  - rewrite He in Ha. cbn [rbind] in Ha.
    destruct (payload (event_id <$> found) (e :: new)) as [pl|] eqn:Hp; injection Ha as <- <-; [|done].
    apply payload_spec in Hp as (-> & Hnd & Hfr). split; [|by left].
    rewrite fmap_app. apply NoDup_app. split_and!; [apply (ch_ids _ Hch)| |done].
    intros x Hx (e' & -> & Hin)%list_elem_of_fmap. by apply (Hfr e').
  - cbn in Ht. subst tm. rewrite He in Ha. cbn [rbind] in Ha.
    destruct (payload (event_id <$> found) (e :: new)) as [pl|] eqn:Hp; injection Ha as <- <-; [|done].
    apply payload_spec in Hp as (-> & Hnd & Hfr). split; [|by left].
    rewrite fmap_app. apply NoDup_app. split_and!; [apply (ch_ids _ Hch)| |done].
    intros x Hx (e' & -> & Hin)%list_elem_of_fmap. by apply (Hfr e').
Qed.

Lemma append_events sid rev new f found f' r :
  terminated f → events sid rev f = Ok found → append sid rev new f = (f', r) →
  match r with
  | Raise _ => f' = f
  | Ok _ => NoDup (event_id <$> found ++ new) ∧
      (events sid rev f' = Ok (found ++ new) ↔
       Forall (λ e, belongs sid rev e = true) new ∧ check (found ++ new) = Ok tt)
  end.
Proof.
  intros Ht He Ha. pose proof (append_spec _ _ _ _ _ _ _ Ht He Ha) as Hs. destruct r; [|done].
  destruct Hs as [Hnd Hf]. split; [done|]. destruct (events_lines _ _ _ _ He) as [Hr Hc].
  destruct Hf as [->|[-> ->]].
  - cbn. rewrite read_lines_app, Hr. cbn [rbind]. split.
    + intros (l & (l' & Hl' & [= <-])%rbind_Ok & ([] & Hck & [= Heq])%rbind_Ok)%rbind_Ok.
      apply read_lines_events_inv in Hl' as Heq'. subst l'. split; [by apply read_lines_events|done].
    + intros [Hb Hck]. apply read_lines_events in Hb. rewrite Hb. cbn. by rewrite Hck.
  - rewrite app_nil_r. split; [|done]. intros _. split; [constructor|done].
Qed.

(** An append to a terminated log either changes nothing, or puts the new
    decisions after everything recorded, under identifiers not used before;
    the log then reads back as the old decisions followed by the new ones
    exactly when the new ones belong to it and continue its chains. *)
Theorem append_moves_nothing sid rev new f found f' r :
  terminated f → events sid rev f = Ok found → append sid rev new f = (f', r) →
  match r with
  | Raise _ => f' = f
  | Ok _ => NoDup (event_id <$> found ++ new) ∧
      (events sid rev f' = Ok (found ++ new) ↔
       Forall (λ e, belongs sid rev e = true) new ∧ check (found ++ new) = Ok tt)
  end.
Proof. apply append_events. Qed.

(** ** Carrying approvals in *)

Lemma by_id_app l k id e : by_id l id = Some e → by_id (l ++ k) id = Some e.
Proof.
  unfold by_id. induction l as [|x l IH]; cbn; [done|]. destruct (String.eqb _ _); [done|apply IH].
Qed.

Lemma check_supersedes_app all extra sup l k :
  Forall (λ e, supersedes e = None) k → check_supersedes all sup l = Ok tt →
  check_supersedes (all ++ extra) sup (l ++ k) = Ok tt.
Proof.
  intros Hk. revert sup. induction l as [|e l IH]; intros sup; cbn.
  - intros _. revert sup. induction Hk as [|e k He _ IHk]; intros sup; cbn; [done|]. rewrite He. apply IHk.
  - destruct (supersedes e) as [id|]; [|apply IH]. destruct (by_id all id) as [p|] eqn:Hp; [|done].
    rewrite (by_id_app _ _ _ _ Hp). destruct (negb _); [done|]. case_bool_decide; [done|apply IH].
Qed.

Lemma check_order_app seen l k :
  Forall (λ e, supersedes e = None) k → check_order seen l = Ok tt → check_order seen (l ++ k) = Ok tt.
Proof.
  intros Hk. revert seen. induction l as [|e l IH]; intros seen; cbn.
  - intros _. revert seen. induction Hk as [|e k He _ IHk]; intros seen; cbn; [done|]. rewrite He. apply IHk.
  - destruct (supersedes e) as [id|]; [|apply IH]. case_bool_decide; [apply IH|done].
Qed.

(** Initial decisions with fresh identifiers continue any history. *)
Lemma check_app_initial l k :
  check l = Ok tt → Forall (λ e, supersedes e = None) k →
  Forall (λ e, event_id_pattern (event_id e) = true) k → NoDup (event_id <$> l ++ k) →
  check (l ++ k) = Ok tt.
Proof.
  unfold check. intros ([] & Hi & ([] & Hs & Ho)%rbind_Ok)%rbind_Ok Hk Hp Hnd.
  assert (check_ids [] (l ++ k) = Ok tt) as ->.
  { apply check_ids_spec in Hi as (Hpl & _ & _). apply check_ids_spec. split_and!; [by apply Forall_app|done|].
    by intros e _ ?%elem_of_nil. }
  cbn [rbind]. rewrite (check_supersedes_app _ _ _ _ _ Hk Hs). cbn [rbind]. by apply check_order_app.
Qed.

Section migration.
  Context (sha256_json : json → string).
  Context (hash_pattern : ∀ j, event_id_pattern (String.append "evt-" (String.substring 0 16 (sha256_json j))) = true).

Definition migrated_id sid rev (a : Approval) : string :=
  event_id (event_for sha256_json "" a sid rev MIGRATED_INITIAL_APPROVAL None).

(** An approval the log already holds. *)
Definition covered sid rev (ids : list string) (a : Approval) : Prop :=
  (∃ id, ap_event_id a = Some id ∧ id ∈ ids) ∨ migrated_id sid rev a ∈ ids.

Lemma plan_covers now sid rev ids items :
  ∀ c a, (c, a) ∈ items →
    covered sid rev (ids ++ (event_id <$> plan sha256_json now sid rev ids items)) a.
Proof.
  revert ids. induction items as [|[c0 a0] items IH]; intros ids c a; [by intros ?%elem_of_nil|].
  cbn [plan]. set (known := match ap_event_id a0 with Some id => bool_decide (id ∈ ids) | None => false end).
  set (e := event_for _ now a0 sid rev _ None).
  assert (He : event_id e = migrated_id sid rev a0) by reflexivity.
  destruct known eqn:Hknown.
  - intros [[= -> ->]|Hin]%elem_of_cons; [|by eapply IH]. left. subst known.
    destruct (ap_event_id a0) as [id|]; [|done]. apply bool_decide_eq_true in Hknown.
    exists id. split; [done|]. rewrite elem_of_app. by left.
  - case_bool_decide as Hrec.
    + intros [[= -> ->]|Hin]%elem_of_cons; [|by eapply IH]. right. rewrite elem_of_app. by left.
    + cbn. intros [[= -> ->]|Hin]%elem_of_cons.
      * right. rewrite elem_of_app. right. by left.
      * destruct (IH (event_id e :: ids) c a Hin) as [(id & Hid & Hel)|Hel];
          [left; exists id; split; [done|]|right]; rewrite !elem_of_app, !elem_of_cons in *; tauto.
Qed.

Lemma plan_done now sid rev ids items :
  (∀ c a, (c, a) ∈ items → covered sid rev ids a) → plan sha256_json now sid rev ids items = [].
Proof.
  induction items as [|[c a] items IH]; intros H; [done|]. cbn [plan].
  assert (IHl : plan sha256_json now sid rev ids items = []) by (apply IH; intros; eapply H; by right).
  destruct (H c a) as [(id & -> & Hid)|Hid]; [by left|..].
  - by rewrite bool_decide_eq_true_2.
  - destruct (match ap_event_id a with Some id => bool_decide (id ∈ ids) | None => false end); [done|].
    rewrite bool_decide_eq_true_2; [done|exact Hid].
Qed.

Lemma plan_events now sid rev ids items e :
  e ∈ plan sha256_json now sid rev ids items →
  supersedes e = None ∧ event_id_pattern (event_id e) = true ∧ belongs sid rev e = true ∧ event_id e ∉ ids.
Proof using hash_pattern.
  revert ids. induction items as [|[c a] items IH]; intros ids; [by intros ?%elem_of_nil|]. cbn [plan].
  destruct (match ap_event_id a with Some id => bool_decide (id ∈ ids) | None => false end); [apply IH|].
  case_bool_decide as Hrec; [apply IH|]. intros [->|Hin]%elem_of_cons.
  - split_and!; [done|apply hash_pattern| |done]. unfold belongs. cbn. by rewrite !String.eqb_refl.
  - apply IH in Hin as (?&?&?&Hni). apply not_elem_of_cons in Hni as [_ ?]. done.
Qed.

Lemma plan_NoDup now sid rev ids items :
  NoDup (event_id <$> plan sha256_json now sid rev ids items).
Proof using hash_pattern.
  revert ids. induction items as [|[c a] items IH]; intros ids; [constructor|]. cbn [plan].
  destruct (match ap_event_id a with Some id => bool_decide (id ∈ ids) | None => false end); [apply IH|].
  case_bool_decide; [apply IH|]. cbn. constructor; [|apply IH].
  intros (e & Heq & (_ & _ & _ & Hni)%plan_events)%list_elem_of_fmap. apply Hni. rewrite <- Heq. by left.
Qed.

Lemma migration_aux now now' sid rev approvals f found planned :
  terminated f → events sid rev f = Ok found →
  migration_plan sha256_json now sid rev approvals f = Ok planned →
  ∃ f', append sid rev planned f = (f', Ok tt) ∧ events sid rev f' = Ok (found ++ planned) ∧
    migration_plan sha256_json now' sid rev approvals f' = Ok [].
Proof using hash_pattern.
  intros Ht He Hp. unfold migration_plan in Hp. rewrite He in Hp. injection Hp as <-.
  set (planned := plan _ _ _ _ _ _).
  assert (Hpay : payload (event_id <$> found) planned = Ok (Event <$> planned)).
  { apply payload_Ok; [apply plan_NoDup|]. by intros e (_ & _ & _ & ?)%plan_events. }
  destruct (append sid rev planned f) as [f' r] eqn:Ha.
  assert (r = Ok tt) as ->.
  { destruct planned as [|e pl] eqn:Hpl; cbn [append] in Ha; [by injection Ha|].
    destruct f as [| |ls tm]; [|done|]; rewrite He in Ha; cbn [rbind] in Ha; rewrite Hpay in Ha;
      by injection Ha. }
  pose proof (append_events _ _ _ _ _ _ _ Ht He Ha) as [Hnd Hiff].
  assert (Hev : events sid rev f' = Ok (found ++ planned)).
  { apply Hiff. split; [apply Forall_forall; by intros e (_ & _ & ? & _)%plan_events|].
    apply check_app_initial; [by apply events_lines in He as [_ ?]|..|done];
      apply Forall_forall; by intros e (? & ? & _ & _)%plan_events. }
  exists f'. split_and!; [done..|]. unfold migration_plan. rewrite Hev. cbn [rbind]. f_equal.
  apply plan_done. intros c a Hin. rewrite fmap_app. by eapply plan_covers.
Qed.
End migration.

(** Carrying the active approvals into a readable log succeeds, leaves the
    recorded decisions in front, and carrying them in again, at any later
    time, adds nothing.  The hash is assumed to be hexadecimal. *)
Theorem migration_is_idempotent sha256_json now now' sid rev approvals f found planned :
  (∀ j, event_id_pattern (String.append "evt-" (String.substring 0 16 (sha256_json j))) = true) →
  terminated f → events sid rev f = Ok found →
  migration_plan sha256_json now sid rev approvals f = Ok planned →
  ∃ f', append sid rev planned f = (f', Ok tt) ∧ events sid rev f' = Ok (found ++ planned) ∧
    migration_plan sha256_json now' sid rev approvals f' = Ok [].
Proof. intros Hh. by apply migration_aux. Qed.

(** ** Examples and witnesses *)

Definition sample_event (id : string) (sup : option string) : StandardApprovalEvent :=
  mk_event "c1" "std" "r1" "approved" [] "alice" "t0" "fp" None [] None None 2
    (match sup with None => INITIAL_APPROVAL | Some _ => REAPPROVAL end) sup "t1" id.

Definition first_id : string := "evt-0000000000000001".
Definition second_id : string := "evt-0000000000000002".
Definition absent_id : string := "evt-00000000000000ff".

Definition sample_log : log_file :=
  TextFile [Event (sample_event first_id None); Event (sample_event second_id (Some first_id))] true.

(** An append is accepted without the check the log is read with: a
    decision that replaces one that is not recorded is written, and from then
    on the log cannot be read or appended to.  The same happens when the last
    line has lost its terminator: the log reads well, the append is accepted
    and joins two records on one line. *)
Theorem append_can_make_history_unreadable :
  let bad := sample_event "evt-0000000000000003" (Some absent_id) in
  let good := sample_event "evt-0000000000000003" (Some second_id) in
  let cut := TextFile (lines_of sample_log) false in
  snd (append "std" "r1" [bad] sample_log) = Ok tt ∧
  is_ok (events "std" "r1" (fst (append "std" "r1" [bad] sample_log))) = false ∧
  is_ok (snd (append "std" "r1" [good] (fst (append "std" "r1" [bad] sample_log)))) = false ∧
  is_ok (events "std" "r1" cut) = true ∧
  snd (append "std" "r1" [good] cut) = Ok tt ∧
  is_ok (events "std" "r1" (fst (append "std" "r1" [good] cut))) = false.
Proof. vm_compute. done. Qed.

Lemma tip_is_last_decision_witness :
  tip "std" "r1" "c1" sample_log = Ok (Some (sample_event second_id (Some first_id))).
Proof.
  pose proof (tip_is_last_decision "std" "r1" "c1" sample_log
    [sample_event first_id None; sample_event second_id (Some first_id)]
    ltac:(vm_compute; reflexivity)) as [_ H].
  cbn [last] in H. apply H. vm_compute. reflexivity.
Defined.

Lemma append_moves_nothing_witness :
  NoDup (event_id <$> [sample_event first_id None; sample_event second_id (Some first_id)] ++
    [sample_event "evt-0000000000000003" (Some second_id)]).
Proof.
  refine (proj1 (append_moves_nothing "std" "r1" [sample_event "evt-0000000000000003" (Some second_id)]
    sample_log [sample_event first_id None; sample_event second_id (Some first_id)] _ (Ok tt) _ _ _)).
  - reflexivity.
  - vm_compute. reflexivity.
  - vm_compute. reflexivity.
Defined.

Definition sample_approval : Approval :=
  mk_approval "c2" "approved" [] "bob" "t0" "fp" None [] None None 2 None.

Lemma migration_is_idempotent_witness :
  ∃ f', append "std" "r1"
      [event_for (λ _, "00112233445566778899") "t1" sample_approval "std" "r1" MIGRATED_INITIAL_APPROVAL None]
      sample_log = (f', Ok tt) ∧
    events "std" "r1" f' = Ok ([sample_event first_id None; sample_event second_id (Some first_id)] ++
      [event_for (λ _, "00112233445566778899") "t1" sample_approval "std" "r1" MIGRATED_INITIAL_APPROVAL None]) ∧
    migration_plan (λ _, "00112233445566778899") "t9" "std" "r1" [("c2", sample_approval)] f' = Ok [].
Proof.
  apply (migration_is_idempotent (λ _, "00112233445566778899") "t1" "t9" "std" "r1"
    [("c2", sample_approval)] sample_log).
  - intros j. vm_compute. reflexivity.
  - reflexivity.
  - vm_compute. reflexivity.
  - vm_compute. reflexivity.
Defined.
