(* ===== verification/Planning.v ===== *)
(** * Plans over the task truth: [client/runtime/planning.py]

    [PlanningService] validates a plan and records it as events, starts,
    completes and revises steps, and advances the plan on evidence.  Event
    identifiers and clocks are the environment's ([stamp]); the trace and the
    session log only observe and are left out. *)

From S2P Require Import Prelude WorkingState WorkingStateSpec WorkingStateFacts FailurePolicy.

Open Scope py_scope.

Abbreviation exn := WorkingState.exn.
Abbreviation op := (M WorkingState exn).

(** What [StateEvent.create] takes from its environment. *)
Record stamp := mk_stamp { st_event_id : string; st_timestamp : string; st_monotonic_ns : Z }.

Record PlanStepDefinition := mk_def {
  step_id : string;
  objective : string;
  dependencies : list string;
  completion_criteria : list string;
  requires_evidence : bool;
}.

(** [AgentContext.apply_state_event], up to the trace. *)
Definition apply_state_event (task : string) (st : stamp) (ty : StateEventType)
    (data : payload) : op unit :=
  let* ev := lift (StateEvent_create (st_event_id st) (st_timestamp st) (st_monotonic_ns st)
                     ty task HARNESS data) in
  apply ev.

(** ** Recording a plan *)

Definition blank (s : string) : bool := negb (str_true (py_strip s)).

Definition invalid_plan {A} : res exn A := Raise WorkingState.ValueError.

(** The first loop of [PlanningService.apply]. *)
Fixpoint validate (known existing : list string) (steps : list PlanStepDefinition) : res exn unit :=
  match steps with
  | [] => Ok tt
  | step :: steps =>
      if blank (step_id step) || blank (objective step) || bool_decide (step_id step ∈ known)
         || bool_decide (step_id step ∈ existing) then invalid_plan
      else if negb (forallb (λ d, bool_decide (d ∈ known)) (dependencies step)) then invalid_plan
      else if existsb blank (completion_criteria step) then invalid_plan
      else validate (step_id step :: known) existing steps
  end.

Definition step_data (step : PlanStepDefinition) : payload :=
  [("step_id", JStr (step_id step)); ("description", JStr (objective step));
   ("dependencies", JList (JStr <$> dependencies step));
   ("completion_criteria", JList (JStr <$> completion_criteria step));
   ("requires_evidence", JBool (requires_evidence step))].

(** The second loop, with the stamp of each event. *)
Fixpoint record_steps (task : string) (stamps : list stamp) (steps : list PlanStepDefinition)
    : op unit :=
  match steps, stamps with
  | step :: steps, st :: stamps =>
      do* apply_state_event task st PLAN_STEP_ADDED (step_data step) in
      record_steps task stamps steps
  | _, _ => ret tt
  end.

(** [PlanningService.apply] *)
Definition apply_plan (task : string) (stamps : list stamp) (steps : list PlanStepDefinition)
    : op unit :=
  let* s := get in
  do* lift (validate [] (dict_keys (ws_plan_steps s)) steps) in
  record_steps task stamps steps.

(** ** Moving through it *)

Definition start_step (task : string) (st : stamp) (id : string) : op unit :=
  apply_state_event task st PLAN_STEP_UPDATED
    [("step_id", JStr id); ("status", JStr (enum_value ACTIVE))].

Definition complete_step (task : string) (st : stamp) (id : string) (evidence : list string)
    : op unit :=
  apply_state_event task st PLAN_STEP_UPDATED
    [("step_id", JStr id); ("status", JStr (enum_value STEP_COMPLETED));
     ("evidence_action_ids", JList (JStr <$> evidence))].

Definition revise_step (task : string) (st : stamp) (id text why : string)
    (status : PlanStepStatus) : op unit :=
  apply_state_event task st PLAN_STEP_REVISED
    [("step_id", JStr id); ("description", JStr text); ("reason", JStr why);
     ("status", JStr (enum_value status))].

(** [all(plan_steps[item].status in {COMPLETED, SKIPPED} ...)]: stops at the
    first open dependency, and raises on an unknown one. *)
Fixpoint all_closed (steps : dict string PlanStep) (deps : list string) : res exn bool :=
  match deps with
  | [] => Ok true
  | item :: deps =>
      match dict_get steps item with
      | None => Raise (KeyError item)
      | Some p =>
          if bool_decide (ps_status p ∈ [STEP_COMPLETED; SKIPPED]) then all_closed steps deps
          else Ok false
      end
  end.

(** The first pending step, in plan order, whose dependencies are closed. *)
Fixpoint first_ready (steps : dict string PlanStep) (l : list PlanStep) : res exn (option string) :=
  match l with
  | [] => Ok None
  | p :: l =>
      if negb (bool_decide (ps_status p = PENDING)) then first_ready steps l
      else let? closed := all_closed steps (ps_dependencies p) in
           if closed then Ok (Some (ps_step_id p)) else first_ready steps l
  end.

Definition start_next (task : string) (st : stamp) : op (option string) :=
  let* s := get in
  let* ready := lift (first_ready (ws_plan_steps s) (dict_values (ws_plan_steps s))) in
  match ready with
  | Some id => do* start_step task st id in ret (Some id)
  | None => ret None
  end.

(** The words that make a step's description call for a kind of evidence. *)
Definition patterns (evidence_kind : string) : option (list string) :=
  dict_get [("exploration", ["locat"; "explor"; "inspect"; "discover"; "analys"; "analyz"; "understand"]);
            ("mutation", ["implement"; "edit"; "modify"; "change"; "fix"; "refactor"; "migrat"; "write"]);
            ("verification", ["test"; "verify"; "build"; "lint"; "check"]);
            ("review", ["review"; "accept"; "final"])] evidence_kind.

Definition advance (task : string) (st1 st2 : stamp) (evidence_kind : string) (evidence : list string)
    : op bool :=
  let* s := get in
  match current_step s with
  | None => ret false
  | Some step =>
      let* words := lift (of_option (KeyError evidence_kind) (patterns evidence_kind)) in
      if negb (existsb (λ w, contains w (py_lower (ps_description step))) words) then ret false
      else
        do* complete_step task st1 (ps_step_id step) evidence in
        do* start_next task st2 in
        ret true
  end.

(** ** Correctness of plans over the task truth

    A validated plan is recorded whole (identifiers without surrounding
    blanks), or half of it when two identifiers differ by blanks only; the
    next step started is the first one ready. *)

Implicit Types (s : WorkingState) (step : PlanStepDefinition).

(** ** One event *)

Definition usable_stamp s (st : stamp) : Prop :=
  st_event_id st ≠ "" ∧ st_event_id st ∉ ws_applied_event_ids s.

Definition event_of (task : string) (st : stamp) (ty : StateEventType) (data : payload) : StateEvent :=
  mk_event ty task HARNESS data (st_event_id st) (st_timestamp st) (st_monotonic_ns st).

(** A running task whose own identifier the context uses. *)
Definition open_task (task : string) s : Prop :=
  task ≠ "" ∧ ws_task_id s = task ∧ ws_terminal_status s = RUNNING.

Lemma apply_state_event_reduces task st ty data s :
  open_task task s → usable_stamp s st →
  apply_state_event task st ty data s =
    match reduce (event_of task st ty data) s with
    | (s1, Ok _) => (record_event (event_of task st ty data) s1, Ok tt)
    | (s1, Raise e) => (s1, Raise e)
    end.
Proof.
  intros (Hne & Ht & Hrun) [Hid Happ]. unfold apply_state_event, StateEvent_create, StateEvent_new.
  unfold bind, lift, rguard. cbn. rewrite (proj2 (str_true_spec task)) by done. cbn.
  rewrite (proj2 (str_true_spec (st_event_id st))) by done. cbn.
  apply (apply_admissible (event_of task st ty data)). split_and!; [by rewrite Ht|done|by left].
Qed.

(** ** Adding a step *)

Definition added step : PlanStep :=
  mk_plan_step (step_id step) (py_strip (objective step)) PENDING [] (dependencies step)
    (completion_criteria step) (requires_evidence step).

Lemma mapM_nonblank l : Forall (λ x, blank x = false) l → mapM nonblank (JStr <$> l) = Some l.
Proof.
  induction 1 as [|x l Hx _ IH]; [done|]. cbn. unfold blank in Hx. apply negb_false_iff in Hx.
  rewrite Hx. cbn. by rewrite IH.
Qed.

Lemma record_step task st step s :
  open_task task s → usable_stamp s st →
  py_strip (step_id step) = step_id step → blank (step_id step) = false → blank (objective step) = false →
  step_id step ∉ dict_keys (ws_plan_steps s) →
  Forall (λ d, d ∈ dict_keys (ws_plan_steps s) ∧ blank d = false) (dependencies step) →
  Forall (λ c, blank c = false) (completion_criteria step) →
  apply_state_event task st PLAN_STEP_ADDED (step_data step) s =
    (record_event (event_of task st PLAN_STEP_ADDED (step_data step))
       (s <| ws_plan_steps ::= λ d, d ++ [(step_id step, added step)] |>), Ok tt).
Proof.
  intros Hopen Hst Hclean Hb Ho Hfresh Hdeps Hcrit. rewrite apply_state_event_reduces by done.
  unfold blank in Hb, Ho. apply negb_false_iff in Hb, Ho.
  assert (Hnone : bool_decide (step_id step ∈ dependencies step) = false).
  { apply bool_decide_eq_false. intros Hin. eapply Forall_forall in Hdeps; [|exact Hin]. by destruct Hdeps. }
  assert (Hknown : forallb (λ item, dict_mem item (ws_plan_steps s)) (dependencies step) = true).
  { apply forallb_elem_of. intros d Hd. eapply Forall_forall in Hdeps; [|exact Hd].
    apply dict_mem_true. by destruct Hdeps. }
  assert (Hmem : dict_mem (step_id step) (ws_plan_steps s) = false) by by apply dict_mem_false.
  assert (Hdn : mapM nonblank (JStr <$> dependencies step) = Some (dependencies step)).
  { apply mapM_nonblank. eapply Forall_impl; [exact Hdeps|]. by intros ? []. }
  cbn [reduce event_of ev_event_type]. unfold reduce_plan_step_added. cbn [ev_data event_of].
  unfold bind, guard, lift, get, rguard, from_sources. cbn [ev_source event_of].
  rewrite bool_decide_eq_true_2 by (right; by left).
  unfold required_text, string_tuple.
  assert (dict_get (step_data step) "step_id" = Some (JStr (step_id step))) as -> by reflexivity.
  assert (dict_get (step_data step) "description" = Some (JStr (objective step))) as -> by reflexivity.
  assert (dict_get (step_data step) "dependencies" = Some (JList (JStr <$> dependencies step))) as ->
    by reflexivity.
  assert (dict_get (step_data step) "completion_criteria"
    = Some (JList (JStr <$> completion_criteria step))) as -> by reflexivity.
  assert (dict_get (step_data step) "requires_evidence" = Some (JBool (requires_evidence step))) as ->
    by reflexivity.
  rewrite Hb, Hclean, Hmem. cbn [negb]. rewrite Hdn. cbn [of_option]. rewrite Hnone, Hknown. cbn [negb andb].
  rewrite (mapM_nonblank _ Hcrit). cbn [of_option]. rewrite Ho. unfold modify.
  unfold added. unfold set_field. by rewrite dict_set_new.
Qed.

(** ** The whole plan *)

Definition clean step : Prop := py_strip (step_id step) = step_id step.

Definition stamps_ok s (stamps : list stamp) (n : nat) : Prop :=
  length stamps = n ∧ NoDup (st_event_id <$> stamps) ∧ Forall (usable_stamp s) stamps.

Lemma validate_cons known existing step steps :
  validate known existing (step :: steps) = Ok tt →
  blank (step_id step) = false ∧ blank (objective step) = false ∧ (step_id step ∉ known) ∧
  (step_id step ∉ existing) ∧ Forall (λ d, d ∈ known) (dependencies step) ∧
  Forall (λ c, blank c = false) (completion_criteria step) ∧
  validate (step_id step :: known) existing steps = Ok tt.
Proof.
  cbn. destruct (blank (step_id step)); cbn; [done|]. destruct (blank (objective step)); cbn; [done|].
  case_bool_decide; cbn; [done|]. case_bool_decide; cbn; [done|].
  destruct (forallb _ _) eqn:Hd; cbn; [|done]. destruct (existsb _ _) eqn:Hc; [done|].
  intros Hv. split_and!; try done.
  - apply Forall_forall. intros d Hin. rewrite forallb_elem_of in Hd. by apply Hd, bool_decide_eq_true in Hin.
  - apply Forall_forall. intros c Hin. apply not_true_is_false. intros Hb.
    apply not_true_iff_false in Hc. apply Hc, existsb_exists. exists c. by split; [apply list_elem_of_In|].
Qed.

Lemma record_steps_spec task existing known stamps steps s :
  open_task task s → stamps_ok s stamps (length steps) → Forall clean steps →
  (∀ k, k ∈ dict_keys (ws_plan_steps s) ↔ k ∈ existing ∨ k ∈ known) →
  Forall (λ k, blank k = false) known →
  validate known existing steps = Ok tt →
  ∃ s', record_steps task stamps steps s = (s', Ok tt) ∧
    ws_plan_steps s' = ws_plan_steps s ++ ((λ step, (step_id step, added step)) <$> steps).
Proof.
  revert known stamps s. induction steps as [|step steps IH];
    intros known stamps s Hopen (Hlen & Hnd & Hst) Hclean Hkeys Hblank Hv.
  { exists s. split; [by destruct stamps|]. by rewrite app_nil_r. }
  destruct stamps as [|st stamps]; [done|]. cbn in Hlen, Hnd.
  apply Forall_cons in Hst as [Hst0 Hst], Hclean as [Hc0 Hclean]. apply NoDup_cons in Hnd as [Hni Hnd].
  apply validate_cons in Hv as (Hb & Ho & Hk & He & Hdeps & Hcrit & Hv).
  cbn [record_steps]. unfold bind. rewrite record_step; try done.
  2: { rewrite Hkeys. tauto. }
  2: { apply Forall_forall. intros d Hd. eapply Forall_forall in Hdeps; [|exact Hd].
       split; [apply Hkeys; by right|by eapply Forall_forall in Hblank]. }
  destruct (IH (step_id step :: known) stamps (record_event
    (event_of task st PLAN_STEP_ADDED (step_data step))
    (s <| ws_plan_steps ::= λ d, d ++ [(step_id step, added step)] |>))) as (s' & Hr & Hp); try done.
  - split_and!; [lia|done|]. apply Forall_forall. intros st' Hin.
    eapply Forall_forall in Hst; [|exact Hin]. destruct Hst as [Hne Hna]. split; [done|]. cbn.
    rewrite elem_of_union, elem_of_singleton. intros [?|Heq]; [done|]. apply Hni. rewrite <- Heq.
    by apply list_elem_of_fmap_2.
  - intros k.
    assert (Hk' : dict_keys (ws_plan_steps s ++ [(step_id step, added step)])
      = dict_keys (ws_plan_steps s) ++ [step_id step]) by (unfold dict_keys; by rewrite map_app).
    change (k ∈ dict_keys (ws_plan_steps s ++ [(step_id step, added step)]) ↔
      k ∈ existing ∨ k ∈ step_id step :: known).
    rewrite Hk', elem_of_app, list_elem_of_singleton, Hkeys, elem_of_cons. tauto.
  - by constructor.
  - exists s'. split; [done|]. rewrite Hp. cbn. by rewrite <- app_assoc.
Qed.

Lemma apply_plan_run task stamps steps s :
  open_task task s → stamps_ok s stamps (length steps) → Forall clean steps →
  match validate [] (dict_keys (ws_plan_steps s)) steps with
  | Raise e => apply_plan task stamps steps s = (s, Raise e)
  | Ok _ =>
      ∃ s', apply_plan task stamps steps s = (s', Ok tt) ∧
        ws_plan_steps s' = ws_plan_steps s ++ ((λ step, (step_id step, added step)) <$> steps)
  end.
Proof.
  intros Hopen Hst Hclean. unfold apply_plan. unfold bind at 1, get. unfold bind, lift.
  destruct (validate [] (dict_keys (ws_plan_steps s)) steps) as [[]|e] eqn:Hv; [|done].
  apply (record_steps_spec task (dict_keys (ws_plan_steps s)) []); try done.
  intros k. rewrite elem_of_nil. tauto.
Qed.

(** Recording a plan for a running task is all or nothing when the step
    identifiers carry no surrounding blanks: a plan that does not validate
    is refused and changes nothing, and one that does is recorded whole, its
    steps pending, in order, after the steps already there. *)
Theorem plan_recorded_whole task stamps steps s :
  open_task task s → stamps_ok s stamps (length steps) → Forall clean steps →
  match validate [] (dict_keys (ws_plan_steps s)) steps with
  | Raise e => apply_plan task stamps steps s = (s, Raise e)
  | Ok _ =>
      ∃ s', apply_plan task stamps steps s = (s', Ok tt) ∧
        ws_plan_steps s' = ws_plan_steps s ++ ((λ step, (step_id step, added step)) <$> steps)
  end.
Proof. apply apply_plan_run. Qed.

(** A new task, and a plan of two steps whose identifiers differ by a blank. *)
Definition sample_task : WorkingState := WorkingState_new "task".
Definition sample_stamps : list stamp := [mk_stamp "e1" "t" 0; mk_stamp "e2" "t" 1].
Definition sample_plan (first second : string) : list PlanStepDefinition :=
  [mk_def first "find it" [] [] true; mk_def second "fix it" [] [] true].

(** Identifiers are compared as written when a plan is validated and
    without surrounding blanks when it is recorded: a plan with two
    identifiers that differ by blanks passes validation, its first step is
    recorded, and its second is refused. *)
Theorem blank_identifiers_record_half_a_plan :
  let '(s', r) := apply_plan "task" sample_stamps (sample_plan "a " "a") sample_task in
  is_ok r = false ∧ dict_keys (ws_plan_steps s') = ["a"] ∧
  validate [] [] (sample_plan "a " "a") = Ok tt.
Proof. vm_compute. done. Qed.

Lemma sample_stamps_ok : stamps_ok sample_task sample_stamps 2.
Proof.
  split_and!; [done| |].
  - cbn. apply NoDup_cons. split; [by intros ?%list_elem_of_singleton|apply NoDup_singleton].
  - repeat constructor; cbn; (discriminate || apply not_elem_of_empty).
Qed.

Lemma plan_recorded_whole_witness :
  ∃ s', apply_plan "task" sample_stamps (sample_plan "a" "b") sample_task = (s', Ok tt) ∧
    dict_keys (ws_plan_steps s') = ["a"; "b"].
Proof.
  pose proof (plan_recorded_whole "task" sample_stamps (sample_plan "a" "b") sample_task) as H.
  assert (Hv : validate [] (dict_keys (ws_plan_steps sample_task)) (sample_plan "a" "b") = Ok tt)
    by (vm_compute; reflexivity).
  rewrite Hv in H. destruct H as (s' & Hr & Hp).
  - split_and!; [discriminate|reflexivity|reflexivity].
  - exact sample_stamps_ok.
  - repeat constructor.
  - exists s'. split; [exact Hr|]. rewrite Hp. vm_compute. reflexivity.
Defined.
