(* ===== verification/PlanningProgress.v ===== *)
(** * Moving through a plan

    [start_next] starts the first pending step, in plan order, whose
    dependencies are all closed; [advance] closes the current step on
    evidence of the kind its words call for, and starts the next one. *)

From S2P Require Import Prelude FailurePolicy WorkingState WorkingStateSpec WorkingStateFacts Planning.

Open Scope py_scope.

Implicit Types (s : WorkingState) (p : PlanStep) (steps : dict string PlanStep).

(** ** Ready steps *)

Definition closed steps (d : string) : bool :=
  match dict_get steps d with
  | Some q => bool_decide (ps_status q ∈ [STEP_COMPLETED; SKIPPED])
  | None => false
  end.

(** A pending step whose dependencies are all closed. *)
Definition ready steps p : bool :=
  bool_decide (ps_status p = PENDING) && forallb (closed steps) (ps_dependencies p).

Definition first_ready_step steps : option PlanStep := List.find (ready steps) (dict_values steps).

Lemma all_closed_spec steps deps :
  (∀ d, d ∈ deps → d ∈ dict_keys steps) → all_closed steps deps = Ok (forallb (closed steps) deps).
Proof.
  induction deps as [|d deps IH]; intros Hin; [done|]. cbn. unfold closed at 1.
  destruct (dict_get steps d) as [q|] eqn:Hd.
  - case_bool_decide; [|done]. apply IH. intros d' Hd'. apply Hin. by right.
  - apply dict_get_None in Hd. exfalso. apply Hd, Hin. by left.
Qed.

Lemma dependencies_incomplete_spec steps deps :
  (∀ d, d ∈ deps → d ∈ dict_keys steps) →
  dependencies_incomplete steps deps = Ok (negb (forallb (closed steps) deps)).
Proof.
  induction deps as [|d deps IH]; intros Hin; [done|]. cbn. unfold closed at 1.
  destruct (dict_get steps d) as [q|] eqn:Hd.
  - case_bool_decide; [|done]. apply IH. intros d' Hd'. apply Hin. by right.
  - apply dict_get_None in Hd. exfalso. apply Hd, Hin. by left.
Qed.

Lemma first_ready_find steps l :
  (∀ p d, p ∈ l → d ∈ ps_dependencies p → d ∈ dict_keys steps) →
  first_ready steps l = Ok (ps_step_id <$> List.find (ready steps) l).
Proof.
  induction l as [|p l IH]; intros Hin; [done|]. cbn. unfold ready at 1.
  assert (IH' := IH (λ q d Hq, Hin q d (list_elem_of_further _ _ _ Hq))).
  case_bool_decide; cbn [negb andb]; [|done].
  rewrite all_closed_spec by (intros d; apply Hin; by left). cbn [rbind].
  by destruct (forallb _ _).
Qed.

Section plan.
  Context (steps : dict string PlanStep).
  Hypothesis Hwf : plan_wf steps.

Lemma plan_value p : p ∈ dict_values steps ↔ dict_get steps (ps_step_id p) = Some p.
Proof using Hwf.
  unfold dict_values. rewrite list_elem_of_In, in_map_iff. split.
  - intros ([k q] & <- & Hin%list_elem_of_In). cbn.
    apply (dict_elem_get _ _ _ (plan_nodup _ Hwf)) in Hin. by rewrite (plan_keyed _ Hwf _ _ Hin).
  - intros Hg. exists (ps_step_id p, p). split; [done|]. by apply list_elem_of_In, dict_get_elem.
Qed.

Lemma first_ready_run : first_ready steps (dict_values steps) = Ok (ps_step_id <$> first_ready_step steps).
Proof using Hwf.
  apply first_ready_find. intros p d Hp%plan_value Hd. by eapply plan_dependencies.
Qed.

Lemma first_ready_step_Some p :
  first_ready_step steps = Some p →
  dict_get steps (ps_step_id p) = Some p ∧ ps_status p = PENDING ∧
  forallb (closed steps) (ps_dependencies p) = true.
Proof using Hwf.
  intros [Hin Hr]%List.find_some. unfold ready in Hr. apply andb_true_iff in Hr as [Hs%bool_decide_eq_true Hd].
  split_and!; [|done|done]. by apply plan_value, list_elem_of_In.
Qed.
End plan.

(** ** The current step *)

Lemma current_None s k : current_step s = None → other_active k s = false.
Proof.
  unfold current_step, steps_with, other_active. intros Hn%head_None. apply not_true_iff_false.
  intros (p & Hp%list_elem_of_In & Ha)%existsb_exists. apply andb_true_iff in Ha as [Ha%bool_decide_eq_true _].
  assert (p ∈ []) as []%elem_of_nil. rewrite <- Hn. by apply list_elem_of_filter.
Qed.

Lemma current_Some s p :
  plan_wf (ws_plan_steps s) → current_step s = Some p →
  dict_get (ws_plan_steps s) (ps_step_id p) = Some p ∧ ps_status p = ACTIVE.
Proof.
  unfold current_step, steps_with. intros Hwf Hh%head_Some_elem_of.
  apply list_elem_of_filter in Hh as [Ha Hp]. split; [by apply plan_value|done].
Qed.

Lemma other_active_true s p k :
  plan_wf (ws_plan_steps s) → current_step s = Some p → k ≠ ps_step_id p → other_active k s = true.
Proof.
  intros Hwf [Hg Ha]%current_Some Hne; [|done]. apply existsb_exists. exists p. split.
  - by apply list_elem_of_In, plan_value.
  - rewrite bool_decide_eq_true_2 by done. cbn. apply negb_true_iff, String.eqb_neq. congruence.
Qed.

(** ** Starting a step *)

Definition with_status (status : PlanStepStatus) (evidence : list string) p : PlanStep :=
  p <| ps_status := status |> <| ps_evidence_action_ids := evidence |>.

Definition put_step p s : WorkingState := s <| ws_plan_steps ::= dict_set (ps_step_id p) p |>.

(** The events of starting and of completing a step. *)
Definition started_event task st p : StateEvent :=
  event_of task st PLAN_STEP_UPDATED
    [("step_id", JStr (ps_step_id p)); ("status", JStr (enum_value ACTIVE))].

Definition completed_event task st p (evidence : list string) : StateEvent :=
  event_of task st PLAN_STEP_UPDATED
    [("step_id", JStr (ps_step_id p)); ("status", JStr (enum_value STEP_COMPLETED));
     ("evidence_action_ids", JList (JStr <$> evidence))].

Lemma required_trimmed data name id :
  trimmed id → dict_get data name = Some (JStr id) → required_text data name = Ok id.
Proof. intros [Hp Ht] Hg. unfold required_text. by rewrite Hg, Hp, Ht. Qed.

Lemma start_step_run task st s p :
  plan_wf (ws_plan_steps s) → open_task task s → usable_stamp s st →
  dict_get (ws_plan_steps s) (ps_step_id p) = Some p → ps_status p = PENDING →
  forallb (closed (ws_plan_steps s)) (ps_dependencies p) = true →
  start_step task st (ps_step_id p) s =
    if other_active (ps_step_id p) s then (s, Raise (STE "only one plan step may be active"))
    else (record_event (started_event task st p) (put_step (with_status ACTIVE [] p) s), Ok tt).
Proof.
  intros Hwf Ho Hst Hp Hpend Hdeps. unfold start_step. rewrite apply_state_event_reduces by done.
  cbn [reduce event_of ev_event_type]. unfold update_plan_step. cbn [ev_data event_of].
  unfold bind, guard, lift, get, rguard, from_sources. cbn [ev_source event_of].
  rewrite bool_decide_eq_true_2 by (by left).
  assert (Hid : trimmed (ps_step_id p)).
  { apply (plan_trimmed _ Hwf). apply dict_get_is_Some. eauto. }
  rewrite (required_trimmed _ _ (ps_step_id p)) by done. rewrite Hp. cbn [of_option].
  change (enum_field _) with (Some ACTIVE). cbn [of_option]. rewrite Hpend.
  rewrite bool_decide_eq_true_2 by (by left).
  rewrite (bool_decide_eq_true_2 (ACTIVE = ACTIVE)) by done. cbn [negb andb].
  destruct (other_active (ps_step_id p) s); cbn [negb]; [done|].
  change (nonempty_strings _) with (Some ([] : list string)). cbn [of_option].
  rewrite dependencies_incomplete_spec by (intros d; by apply (plan_dependencies _ _ _ d Hwf Hp)).
  rewrite Hdeps. cbn [negb]. rewrite bool_decide_eq_false_2 by done. cbn [andb]. done.
Qed.

(** ** Completing a step *)

(** Evidence a completion of [p] accepts. *)
Definition evidence_ok s p (evidence : list string) : bool :=
  forallb str_true evidence
  && (negb (ps_requires_evidence p)
      || negb (bool_decide (evidence = []))
         && forallb (λ item, bool_decide (item ∈ grounded_evidence s)) evidence).

Lemma nonempty_strings_run evidence :
  nonempty_strings (Some (JList (JStr <$> evidence))) =
    if forallb str_true evidence then Some evidence else None.
Proof.
  cbn. induction evidence as [|x l IH]; [done|]. cbn. destruct (str_true x); cbn; [|done].
  rewrite IH. by destruct (forallb _ _).
Qed.

Lemma complete_step_run task st s p evidence :
  plan_wf (ws_plan_steps s) → open_task task s → usable_stamp s st →
  dict_get (ws_plan_steps s) (ps_step_id p) = Some p → ps_status p = ACTIVE →
  ∃ e, complete_step task st (ps_step_id p) evidence s =
    if evidence_ok s p evidence
    then (record_event (completed_event task st p evidence) (put_step (with_status STEP_COMPLETED evidence p) s), Ok tt)
    else (s, Raise e).
Proof.
  intros Hwf Ho Hst Hp Hact. unfold complete_step. rewrite apply_state_event_reduces by done.
  cbn [reduce event_of ev_event_type]. unfold update_plan_step. cbn [ev_data event_of].
  unfold bind, guard, lift, get, rguard, from_sources. cbn [ev_source event_of].
  rewrite bool_decide_eq_true_2 by (by left).
  assert (Hid : trimmed (ps_step_id p)).
  { apply (plan_trimmed _ Hwf). apply dict_get_is_Some. eauto. }
  rewrite (required_trimmed _ _ (ps_step_id p)) by done. rewrite Hp. cbn [of_option].
  change (enum_field _) with (Some STEP_COMPLETED). cbn [of_option]. rewrite Hact.
  rewrite bool_decide_eq_true_2 by (by left).
  rewrite (bool_decide_eq_false_2 (STEP_COMPLETED = ACTIVE)) by done. cbn [negb andb].
  assert (dict_get [("step_id", JStr (ps_step_id p)); ("status", JStr (enum_value STEP_COMPLETED));
     ("evidence_action_ids", JList (JStr <$> evidence))] "evidence_action_ids"
    = Some (JList (JStr <$> evidence))) as -> by done.
  rewrite nonempty_strings_run. unfold evidence_ok.
  destruct (forallb str_true evidence); cbn [of_option andb]; [|by eexists].
  rewrite bool_decide_eq_true_2 by done. cbn [andb negb].
  destruct (ps_requires_evidence p); cbn [negb orb]; [|by exists ValueError].
  rewrite (bool_decide_eq_false_2 (HARNESS ∈ [MODEL_SOURCE])) by (by intros ?%list_elem_of_singleton).
  cbn [negb andb]. destruct (bool_decide (evidence = [])); cbn [negb andb rbind]; [by eexists|].
  destruct (forallb _ _); [by exists ValueError|by eexists].
Qed.

(** ** The next step *)

Lemma start_next_run task st s :
  plan_wf (ws_plan_steps s) → open_task task s → usable_stamp s st →
  start_next task st s =
    match first_ready_step (ws_plan_steps s), current_step s with
    | None, _ => (s, Ok None)
    | Some p, Some _ => (s, Raise (STE "only one plan step may be active"))
    | Some p, None =>
        (record_event (started_event task st p) (put_step (with_status ACTIVE [] p) s), Ok (Some (ps_step_id p)))
    end.
Proof.
  intros Hwf Ho Hst. unfold start_next. unfold bind, get, lift. rewrite first_ready_run by done.
  destruct (first_ready_step (ws_plan_steps s)) as [p|] eqn:Hf; cbn [fmap option_fmap option_map].
  2: { done. }
  apply first_ready_step_Some in Hf as (Hp & Hpend & Hdeps); [|done].
  rewrite (start_step_run task st s p) by done. destruct (current_step s) as [q|] eqn:Hc.
  - destruct (current_Some _ _ Hwf Hc) as [Hq Ha].
    rewrite (other_active_true s q) by (done || intros Heq; rewrite Heq in Hp; congruence). done.
  - by rewrite current_None.
Qed.

Lemma completed_plan s p evidence :
  plan_wf (ws_plan_steps s) → current_step s = Some p →
  let s1 := put_step (with_status STEP_COMPLETED evidence p) s in
  plan_wf (ws_plan_steps s1) ∧ current_step s1 = None.
Proof.
  intros Hwf Hc s1. destruct (current_Some _ _ Hwf Hc) as [Hp Ha].
  assert (Hwf1 : plan_wf (ws_plan_steps s1)).
  { unfold s1, put_step. eapply (plan_wf_update _ _ _ _ Hwf Hp); done. }
  split; [done|]. destruct (current_step s1) as [q|] eqn:Hq; [exfalso|done].
  apply current_Some in Hq as [Hq Hqa]; [|done]. unfold s1, put_step in Hq.
  change (dict_get (dict_set (ps_step_id p) (with_status STEP_COMPLETED evidence p) (ws_plan_steps s))
            (ps_step_id q) = Some q) in Hq.
  rewrite dict_get_set in Hq. case_decide as Heq; [by simplify_eq|].
  apply Heq. by apply (plan_one_active _ Hwf _ _ p q).
Qed.

Lemma usable_after task st1 st2 p evidence s :
  usable_stamp s st2 → st_event_id st1 ≠ st_event_id st2 →
  usable_stamp (record_event (completed_event task st1 p evidence)
    (put_step (with_status STEP_COMPLETED evidence p) s)) st2.
Proof.
  intros [Hn Ha] Hne. split; [done|]. cbn. rewrite elem_of_union, elem_of_singleton.
  intros [?|Heq]; [done|]. by apply Hne.
Qed.

Definition called_for (words : list string) p : bool :=
  existsb (λ w, contains w (py_lower (ps_description p))) words.

(** 6: [start_next] starts the first pending step, in plan order, whose
    dependencies are all completed or skipped, and only that one: with no
    such step it does nothing and returns [None], and with another step
    active it is refused and changes nothing.  It never fails on a
    dependency. *)
Theorem start_next_starts_first_ready task st s :
  wf s → open_task task s → usable_stamp s st →
  start_next task st s =
    match first_ready_step (ws_plan_steps s), current_step s with
    | None, _ => (s, Ok None)
    | Some p, Some _ => (s, Raise (STE "only one plan step may be active"))
    | Some p, None =>
        (record_event (started_event task st p) (put_step (with_status ACTIVE [] p) s), Ok (Some (ps_step_id p)))
    end.
Proof. intros Hwf. apply start_next_run. apply Hwf. Qed.

(** 8: [advance] changes the plan only on the evidence the current step
    calls for.  With no current step, or when no word of that kind of
    evidence is in its description, nothing happens and it returns false;
    evidence the task has not observed is refused and changes nothing; else
    the step is completed with that evidence, and the first step this makes
    ready is started. *)
Theorem advance_closes_then_starts task st1 st2 kind evidence s :
  wf s → open_task task s → usable_stamp s st1 → usable_stamp s st2 →
  st_event_id st1 ≠ st_event_id st2 →
  ∃ e, advance task st1 st2 kind evidence s =
    match current_step s, patterns kind with
    | None, _ => (s, Ok false)
    | Some _, None => (s, Raise (KeyError kind))
    | Some p, Some words =>
        if negb (called_for words p) then (s, Ok false)
        else if negb (evidence_ok s p evidence) then (s, Raise e)
        else
          let s1 := record_event (completed_event task st1 p evidence) (put_step (with_status STEP_COMPLETED evidence p) s) in
          (match first_ready_step (ws_plan_steps s1) with
           | None => s1
           | Some q => record_event (started_event task st2 q) (put_step (with_status ACTIVE [] q) s1)
           end, Ok true)
    end.
Proof.
  intros Hwf Ho Hst1 Hst2 Hne. unfold advance. unfold bind at 1, get.
  pose proof (wf_plan _ Hwf) as Hplan.
  destruct (current_step s) as [p|] eqn:Hc; [|by exists ValueError].
  unfold bind at 1, lift. destruct (patterns kind) as [words|]; cbn [of_option]; [|by exists ValueError].
  change (existsb (λ w, contains w (py_lower (ps_description p))) words) with (called_for words p).
  destruct (called_for words p); cbn [negb]; [|by exists ValueError].
  destruct (current_Some _ _ Hplan Hc) as [Hp Ha].
  destruct (complete_step_run task st1 s p evidence Hplan Ho Hst1 Hp Ha) as (e & Hrun). exists e.
  unfold bind at 1. rewrite Hrun. destruct (evidence_ok s p evidence); cbn [negb]; [|done].
  destruct (completed_plan s p evidence Hplan Hc) as [Hplan1 Hc1].
  unfold bind. rewrite start_next_run; [|exact Hplan1|exact Ho|by apply usable_after].
  change (current_step (record_event _ ?x)) with (current_step x). rewrite Hc1. set (s1 := record_event _ _). by destruct (first_ready_step (ws_plan_steps s1)).
Qed.

(** ** Examples *)

Lemma apply_state_event_wf task st ty data s : wf s → wf (apply_state_event task st ty data s).1.
Proof.
  intros Hwf. unfold apply_state_event, bind, lift. destruct (StateEvent_create _ _ _ _ _ _ _) as [ev|e]; [|done].
  apply (wf_attempted s); [done|]. exists ev. destruct (apply ev s) as [s' r] eqn:Ha. by exists r.
Qed.

Lemma record_steps_wf task stamps defs s : wf s → wf (record_steps task stamps defs s).1.
Proof.
  revert stamps s. induction defs as [|step defs IH]; intros [|st stamps] s Hwf; try done.
  cbn [record_steps]. unfold bind. pose proof (apply_state_event_wf task st PLAN_STEP_ADDED (step_data step) s Hwf) as H.
  destruct (apply_state_event _ _ _ _ s) as [s1 [[]|e]]; [|exact H]. by apply IH.
Qed.

(** A plan to inspect and then fix, not started and with its first step active. *)
Definition two_steps : WorkingState :=
  (record_steps "task" sample_stamps
    [mk_def "a" "Inspect it" [] [] false; mk_def "b" "fix it" ["a"] [] true] sample_task).1.
Definition at_first : WorkingState := (start_step "task" (mk_stamp "e3" "t" 2) "a" two_steps).1.

Lemma two_steps_wf : wf two_steps.
Proof. apply record_steps_wf, wf_new. Qed.

Lemma fresh_stamp s id :
  id ≠ "" → bool_decide (id ∈ elements (ws_applied_event_ids s)) = false → usable_stamp s (mk_stamp id "t" 9).
Proof. intros Hne Hb%bool_decide_eq_false. split; [done|]. by rewrite <- elem_of_elements. Qed.

Lemma start_next_starts_first_ready_witness :
  (start_next "task" (mk_stamp "e3" "t" 9) two_steps).2 = Ok (Some "a").
Proof.
  rewrite (start_next_starts_first_ready "task" (mk_stamp "e3" "t" 9) two_steps).
  - vm_compute. reflexivity.
  - exact two_steps_wf.
  - split_and!; [discriminate|vm_compute; reflexivity|vm_compute; reflexivity].
  - apply fresh_stamp; [discriminate|vm_compute; reflexivity].
Defined.

Lemma advance_closes_then_starts_witness :
  ∃ s', advance "task" (mk_stamp "e4" "t" 9) (mk_stamp "e5" "t" 9) "exploration" [] at_first = (s', Ok true) ∧
    (ps_status <$> dict_values (ws_plan_steps s')) = [STEP_COMPLETED; ACTIVE].
Proof.
  destruct (advance_closes_then_starts "task" (mk_stamp "e4" "t" 9) (mk_stamp "e5" "t" 9) "exploration" [] at_first)
    as [e He].
  - apply apply_state_event_wf. exact two_steps_wf.
  - split_and!; [discriminate|vm_compute; reflexivity|vm_compute; reflexivity].
  - apply fresh_stamp; [discriminate|vm_compute; reflexivity].
  - apply fresh_stamp; [discriminate|vm_compute; reflexivity].
  - discriminate.
  - eexists. split; [rewrite He; vm_compute; reflexivity|vm_compute; reflexivity].
Defined.
