(* ===== verification/PlanCreation.v ===== *)
(** * Asking the model for a plan: [PlanningService.create] in
    [client/runtime/planning.py]

    The operation charges the budgets of the task, makes one call to the
    configured model without tools, charges what the call used, and records
    the plan the answer holds.  The model, the JSON text codec, [repr] and
    the clocks are parameters; traces are left out.  An answer of [create]
    carries its message only where it is one of the code's own. *)

From S2P Require Import Prelude Texts Values FailurePolicy Budgets WorkingState WorkingStateSpec WorkingStateFacts Planning.

Open Scope py_scope.

(** ** Data *)

Record ModelTurn := mk_turn {
  usage : dict string json;
  text : string;
  is_error : bool;
  turn_error : option string;
}.

Record PlanCreationResult := mk_result {
  created : bool;
  steps : list PlanStepDefinition;
  error : option string;
}.

(** The part of the context the operation reads and writes, with the prompts
    sent so far. *)
Record context := mk_context {
  budgets : list BudgetManager;
  work : WorkingState;
  prompts : list string;
}.

#[export] Instance eta_context : Eta context := λ c, mk_context c.(budgets) c.(work) c.(prompts).

Abbreviation op := (M context Budgets.exn).

(** [str(exc)] of a [BudgetExceeded] *)
Definition budget_message (kind : BudgetKind) (component : string) : string :=
  component +:+ " " +:+ kind_value kind +:+ " budget exhausted".

Definition refused (message : string) : PlanCreationResult := mk_result false [] (Some message).

(** [_usage]: the first of [names] that was reported as an integer. *)
Fixpoint usage_of (u : dict string json) (names : list string) : option Z :=
  match names with
  | [] => None
  | name :: names =>
      match dict_get u name with
      | Some (JInt n) => Some n
      | _ => usage_of u names
      end
  end.

(** [reported or estimate] *)
Definition tokens (reported : option Z) (estimate : Z) : Z :=
  match reported with
  | Some n => if (n =? 0)%Z then estimate else n
  | None => estimate
  end.

Definition estimate (s : string) : Z := (Z.of_nat (String.length s) / 4 + 1)%Z.

Section create.
  Context (float_eq : string → Z → bool).
  Context (repr : json → string) (dumps dumps_prompt : json → string) (loads : string → option json).
  Context (complete : string → res string ModelTurn).
  Context (budget : option addr) (clock : nat → addr → Z).
  Context (task : string) (stamp_at : nat → stamp).

(** ** Budgets *)

(** The [i]th consumption of the operation, with its reading of the clocks. *)
Definition charge (i : nat) (kind : BudgetKind) (n : Z) (is_approximate : bool) : op unit :=
  match budget with
  | None => ret tt
  | Some a => λ c,
      let '(b, r) := consume (S a) (clock i) a kind n is_approximate c.(budgets) in
      (c <| budgets := b |>, r)
  end.

(** [try: ... except BudgetExceeded as exc] *)
Definition attempt (m : op unit) : op (option string) := λ c,
  match m c with
  | (c', Ok _) => (c', Ok None)
  | (c', Raise (BudgetExceeded kind component)) => (c', Ok (Some (budget_message kind component)))
  | (c', Raise e) => (c', Raise e)
  end.

(** ** The prompt and the answer *)

Definition requirements : string :=
  "Return JSON only: {steps:[{step_id, objective, dependencies, completion_criteria, requires_evidence}]}. Use 2-8 ordered, small steps. Planning is read-only; do not claim work is complete.".

Definition prompt (s : WorkingState) : json :=
  JObj [("objective", JStr s.(ws_objective));
        ("constraints", JList (JStr <$> s.(ws_user_constraints)));
        ("acceptance_criteria", JList (JStr <$> s.(ws_acceptance_criteria)));
        ("requirements", JStr requirements)].

(** [tuple(str(value) for value in row.get(name, ()))] *)
Definition strings (row : dict string json) (name : string) : option (list string) :=
  map (py_str repr) <$> py_iter (dict_get_default row name (JList [])).

(** One step of the answer; [None] is an exception [create] catches. *)
Definition parse_step (row : json) : option PlanStepDefinition :=
  match row with
  | JObj m =>
      id ← dict_get m "step_id";
      text ← dict_get m "objective";
      deps ← strings m "dependencies";
      criteria ← strings m "completion_criteria";
      Some (mk_def (py_str repr id) (py_str repr text) deps criteria
              (py_true float_eq (dict_get_default m "requires_evidence" (JBool true))))
  | _ => None
  end.

Definition parse_plan (maximum_steps : nat) (answer : string) : option (list PlanStepDefinition) :=
  match loads answer with
  | Some (JObj raw) =>
      match dict_get raw "steps" with
      | Some (JList rows) =>
          if (1 <? length rows)%nat && (length rows <=? maximum_steps)%nat then mapM parse_step rows else None
      | _ => None
      end
  | _ => None
  end.

Definition stamps (n : nat) : list stamp := stamp_at <$> seq 0 n.

(** [self.apply(context, steps)]: every exception of the working state is
    one that [create] catches. *)
Definition record_plan (plan : list PlanStepDefinition) : op PlanCreationResult := λ c,
  match apply_plan task (stamps (length plan)) plan c.(work) with
  | (w, Ok _) => (c <| work := w |>, Ok (mk_result true plan None))
  | (w, Raise _) => (c <| work := w |>, Ok (refused "malformed plan"))
  end.

(** ** The operation *)

Definition create (maximum_steps : nat) : op PlanCreationResult :=
  let* c := get in
  if negb (bool_decide (ws_plan_steps c.(work) = [])) then ret (refused "plan already exists") else
  let* stopped := attempt (do* charge 0 PRIMARY_MODEL_CALLS 1 false in
                           charge 1 MODEL_TURNS 1 false) in
  match stopped with
  | Some message => ret (refused message)
  | None =>
      let asked := prompt c.(work) in
      do* modify (λ c, c <| prompts ::= λ l, l ++ [dumps_prompt asked] |>) in
      match complete (dumps_prompt asked) with
      | Raise kind => ret (refused ("planning model failed: " +:+ kind))
      | Ok turn =>
          let input_tokens := usage_of turn.(usage) ["input_tokens"; "prompt_tokens"] in
          let output_tokens := usage_of turn.(usage) ["output_tokens"; "completion_tokens"] in
          let* stopped := attempt
            (do* charge 2 INPUT_TOKENS (tokens input_tokens (estimate (dumps asked)))
                   (bool_decide (input_tokens = None)) in
             charge 3 OUTPUT_TOKENS (tokens output_tokens (estimate turn.(text)))
               (bool_decide (output_tokens = None))) in
          match stopped with
          | Some message => ret (refused message)
          | None =>
              if turn.(is_error) then ret (refused (str_or (default "" turn.(turn_error)) "planning model failed"))
              else match parse_plan maximum_steps turn.(text) with
                   | None => ret (refused "malformed plan")
                   | Some plan => record_plan plan
                   end
          end
      end
  end.
End create.

(** ** Correctness *)

Section outcome.
  Context (float_eq : string → Z → bool).
  Context (repr : json → string) (dumps dumps_prompt : json → string) (loads : string → option json).
  Context (complete : string → res string ModelTurn).
  Context (budget : option addr) (clock : nat → addr → Z).
  Context (task : string) (stamp_at : nat → stamp).

#[local] Abbreviation spend := (charge budget clock).
#[local] Abbreviation parsed := (parse_plan float_eq repr loads).
#[local] Abbreviation create_plan :=
  (create float_eq repr dumps dumps_prompt loads complete budget clock task stamp_at).

(** A charge and the recording of a plan touch their own part of the context. *)
Lemma charge_frame i kind n approx c c' r :
  spend i kind n approx c = (c', r) → work c' = work c ∧ prompts c' = prompts c.
Proof.
  unfold PlanCreation.charge. destruct budget as [a|]; [|by intros [= <- <-]].
  destruct (consume _ _ _ _ _ _ _) as [b r']. by intros [= <- <-].
Qed.

Lemma charges_frame i j k1 k2 n1 n2 a1 a2 c c' r :
  attempt (do* spend i k1 n1 a1 in spend j k2 n2 a2) c = (c', r) →
  work c' = work c ∧ prompts c' = prompts c.
Proof.
  unfold attempt, bind. destruct (spend i k1 n1 a1 c) as [c1 [[]|e]] eqn:H1.
  - destruct (spend j k2 n2 a2 c1) as [c2 r2] eqn:H2.
    apply charge_frame in H1 as [Hw1 Hp1], H2 as [Hw2 Hp2].
    intros H. assert (c' = c2) as -> by (repeat case_match; congruence). split; congruence.
  - apply charge_frame in H1. intros H. assert (c' = c1) as -> by (repeat case_match; congruence). done.
Qed.

(** Two consumptions in a row that were both accepted. *)
Definition charged (i j : nat) (k1 k2 : BudgetKind) (n1 n2 : Z) (a1 a2 : bool) (b b' : list BudgetManager) : Prop :=
  match budget with
  | None => b' = b
  | Some a => ∃ b1, consume (S a) (clock i) a k1 n1 a1 b = (b1, Ok tt) ∧
                    consume (S a) (clock j) a k2 n2 a2 b1 = (b', Ok tt)
  end.

Lemma charges_accepted i j k1 k2 n1 n2 a1 a2 c c' :
  attempt (do* spend i k1 n1 a1 in spend j k2 n2 a2) c = (c', Ok None) →
  charged i j k1 k2 n1 n2 a1 a2 (budgets c) (budgets c').
Proof.
  unfold attempt, bind, charged, PlanCreation.charge. destruct budget as [a|]; [|by intros [= <-]].
  destruct (consume (S a) (clock i) a k1 n1 a1 (budgets c)) as [b1 [[]|e]]; [|by destruct e].
  change (budgets (c <| budgets := b1 |>)) with b1.
  destruct (consume (S a) (clock j) a k2 n2 a2 b1) as [b2 [[]|e]] eqn:H2; [|by destruct e].
  intros [= <-]. by exists b1.
Qed.

Definition not_created (r : res Budgets.exn PlanCreationResult) : Prop :=
  match r with Ok answer => created answer = false | Raise _ => True end.

Lemma parse_plan_length maximum_steps answer plan :
  parsed maximum_steps answer = Some plan → (2 ≤ length plan ≤ maximum_steps)%nat.
Proof.
  unfold PlanCreation.parse_plan. destruct (loads answer) as [[| | | | | |raw]|]; try done.
  destruct (dict_get raw "steps") as [[| | | | |rows|]|]; try done.
  destruct (Nat.ltb_spec 1 (length rows)); cbn [andb]; [|done].
  destruct (Nat.leb_spec (length rows) maximum_steps); [|done].
  intros Hm%length_mapM. lia.
Qed.

Lemma stamps_fresh s n :
  (∀ i, usable_stamp s (stamp_at i)) →
  (∀ i j, st_event_id (stamp_at i) = st_event_id (stamp_at j) → i = j) →
  stamps_ok s (stamps stamp_at n) n.
Proof.
  intros Hu Hinj. unfold stamps. split_and!.
  - by rewrite length_fmap, length_seq.
  - rewrite <- list_fmap_compose. apply NoDup_fmap_2_strong; [|apply NoDup_seq].
    intros i j _ _. apply Hinj.
  - apply Forall_fmap, Forall_forall. intros i _. apply Hu.
Qed.

Lemma record_plan_run plan c c' r :
  open_task task (work c) → (∀ i, usable_stamp (work c) (stamp_at i)) →
  (∀ i j, st_event_id (stamp_at i) = st_event_id (stamp_at j) → i = j) →
  Forall clean plan → ws_plan_steps (work c) = [] →
  record_plan task stamp_at plan c = (c', r) →
  budgets c' = budgets c ∧ prompts c' = prompts c ∧
  ((work c' = work c ∧ not_created r) ∨
   (r = Ok (mk_result true plan None) ∧
    ws_plan_steps (work c') = (λ step, (step_id step, added step)) <$> plan)).
Proof.
  intros Ho Hu Hinj Hclean Hnone. unfold record_plan.
  pose proof (apply_plan_run task (stamps stamp_at (length plan)) plan (work c) Ho
    (stamps_fresh _ _ Hu Hinj) Hclean) as Hrun.
  destruct (validate _ _ _).
  - destruct Hrun as (w & Hrun & Hp). rewrite Hrun. intros [= <- <-]. split_and!; [done..|]. right.
    split; [done|]. change (ws_plan_steps (work (c <| work := w |>))) with (ws_plan_steps w).
    by rewrite Hp, Hnone.
  - rewrite Hrun. intros [= <- <-]. split_and!; [done..|]. left. done.
Qed.

(** Asking for a plan charges first and records whole plans only.  With a
    plan there already nothing at all happens.  The model is asked at most
    once, and only after the budgets accepted both charges for the call; an
    operation that did not ask, failed, was over budget or got no usable
    answer leaves the task as it was and says no plan was created; and a
    plan is said to be created exactly when the answer held between two and
    [maximum_steps] steps, the tokens were charged, and the task now holds
    those steps, pending and in order.  The answer's identifiers are assumed
    without surrounding blanks (see [blank_identifiers_record_half_a_plan]). *)
Theorem plan_creation_charges_then_records maximum_steps c c' r :
  open_task task (work c) → (∀ i, usable_stamp (work c) (stamp_at i)) →
  (∀ i j, st_event_id (stamp_at i) = st_event_id (stamp_at j) → i = j) →
  (∀ turn plan, complete (dumps_prompt (prompt (work c))) = Ok turn →
     parsed maximum_steps (text turn) = Some plan → Forall clean plan) →
  create_plan maximum_steps c = (c', r) →
  (ws_plan_steps (work c) ≠ [] → c' = c) ∧
  ((prompts c' = prompts c ∧ work c' = work c ∧ not_created r) ∨
   (prompts c' = prompts c ++ [dumps_prompt (prompt (work c))] ∧
    ∃ b, charged 0 1 PRIMARY_MODEL_CALLS MODEL_TURNS 1 1 false false (budgets c) b ∧
      ((work c' = work c ∧ not_created r) ∨
       ∃ turn plan,
         complete (dumps_prompt (prompt (work c))) = Ok turn ∧ is_error turn = false ∧
         parsed maximum_steps (text turn) = Some plan ∧ (2 ≤ length plan ≤ maximum_steps)%nat ∧
         (let input := usage_of (usage turn) ["input_tokens"; "prompt_tokens"] in
          let output := usage_of (usage turn) ["output_tokens"; "completion_tokens"] in
          charged 2 3 INPUT_TOKENS OUTPUT_TOKENS
            (tokens input (estimate (dumps (prompt (work c))))) (tokens output (estimate (text turn)))
            (bool_decide (input = None)) (bool_decide (output = None)) b (budgets c')) ∧
         r = Ok (mk_result true plan None) ∧
         ws_plan_steps (work c') = (λ step, (step_id step, added step)) <$> plan))).
Proof.
  intros Ho Hu Hinj Hclean. unfold PlanCreation.create. unfold bind at 1, get.
  case_bool_decide as Hplan; cbn [negb]; [|by intros [= <- <-]; split; [|left]].
  intros H. split; [done|]. unfold bind at 1 in H.
  destruct (attempt _ c) as [c1 [[message|]|e]] eqn:Hfirst;
    pose proof (charges_frame _ _ _ _ _ _ _ _ _ _ _ Hfirst) as [Hw1 Hp1].
  1, 3: injection H as <- <-; by left.
  apply charges_accepted in Hfirst. right.
  set (sent := dumps_prompt (prompt (work c))) in *. cbv zeta in H. unfold bind at 1, modify in H.
  set (c2 := c1 <| prompts ::= λ l, l ++ [sent] |>) in *.
  assert (Hp2 : prompts c2 = prompts c ++ [sent]) by (rewrite <- Hp1; done).
  assert (Hw2 : work c2 = work c) by (rewrite <- Hw1; done).
  assert (Hb2 : budgets c2 = budgets c1) by done. clearbody c2. rewrite <- Hb2 in Hfirst.
  destruct (complete sent) as [turn|kind] eqn:Hturn.
  2: { injection H as <- <-. split; [done|]. exists (budgets c2). split; [done|by left]. }
  unfold bind at 1 in H. destruct (attempt _ c2) as [c3 [[message|]|e]] eqn:Hsecond;
    pose proof (charges_frame _ _ _ _ _ _ _ _ _ _ _ Hsecond) as [Hw3 Hp3].
  1, 3: injection H as <- <-; split; [congruence|]; exists (budgets c2); split; [done|]; left; split; [congruence|done].
  apply charges_accepted in Hsecond.
  destruct (is_error turn) eqn:Herr.
  { injection H as <- <-. split; [congruence|]. exists (budgets c2). split; [done|]. left. split; [congruence|done]. }
  destruct (parsed maximum_steps (text turn)) as [plan|] eqn:Hparse.
  2: { injection H as <- <-. split; [congruence|]. exists (budgets c2). split; [done|]. left. split; [congruence|done]. }
  rewrite <- Hw2, <- Hw3 in Ho, Hplan.
  apply record_plan_run in H as (Hb & Hp & H); [|done| | |by eapply Hclean|done].
  - split; [congruence|]. exists (budgets c2). split; [done|]. destruct H as [[Hw Hr]|[Hr Hs]].
    + left. split; [congruence|done].
    + right. exists turn, plan. split_and!; try done; [by eapply parse_plan_length..|]. rewrite Hb. exact Hsecond.
  - intros i. rewrite Hw3, Hw2. apply Hu.
  - exact Hinj.
Qed.
End outcome.

(** ** An example *)

Definition sample_row (id text : string) (deps : list string) : json :=
  JObj [("step_id", JStr id); ("objective", JStr text); ("dependencies", JList (JStr <$> deps))].
Definition sample_answer : json :=
  JObj [("steps", JList [sample_row "a" "inspect it" []; sample_row "b" "fix it" ["a"]])].
Definition sample_reader (s : string) : option json :=
  if String.eqb s "the plan" then Some sample_answer else None.
Definition sample_model (_ : string) : res string ModelTurn :=
  Ok (mk_turn [("prompt_tokens", JInt 40)] "the plan" false None).
Definition sample_stamp (i : nat) : stamp := mk_stamp ("e" +:+ pretty i) "t" 0.
Definition sample_context (calls : Z) : context :=
  mk_context [new_manager "main" [(PRIMARY_MODEL_CALLS, mk_limit calls false)] None 0]
    (WorkingState_new "task") [].

(** With one call left, the plan is created. *)
Lemma plan_creation_charges_then_records_witness :
  let run := create (λ _ _, false) (λ _, "") (λ _, "prompt") (λ _, "prompt") sample_reader sample_model (Some 0%nat)
               (λ _ _, 0%Z) "task" sample_stamp 8 in
  ws_plan_steps (work (run (sample_context 1)).1) =
    [("a", mk_plan_step "a" "inspect it" PENDING [] [] [] true);
     ("b", mk_plan_step "b" "fix it" PENDING [] ["a"] [] true)].
Proof.
  intros run. destruct (run (sample_context 1)) as [c' r] eqn:Hrun.
  assert (Hr : r = Ok (mk_result true [mk_def "a" "inspect it" [] [] true; mk_def "b" "fix it" ["a"] [] true] None)).
  { assert (Hsnd : r = (run (sample_context 1)).2) by (rewrite Hrun; reflexivity).
    rewrite Hsnd. vm_compute. reflexivity. }
  destruct (plan_creation_charges_then_records (λ _ _, false) (λ _, "") (λ _, "prompt") (λ _, "prompt") sample_reader
    sample_model (Some 0%nat) (λ _ _, 0%Z) "task" sample_stamp 8 (sample_context 1) c' r) as [_ Hout].
  - split_and!; [discriminate|reflexivity|reflexivity].
  - intros i. split; [discriminate|apply not_elem_of_empty].
  - intros i j Heq. apply (inj pretty). by injection Heq.
  - intros turn plan [= <-]. vm_compute. intros [= <-]. repeat constructor.
  - exact Hrun.
  - destruct Hout as [(_ & _ & Hn)|(_ & b & _ & [(_ & Hn)|(turn & plan & _ & _ & _ & _ & _ & Heq & Hp)])];
      [by rewrite Hr in Hn|by rewrite Hr in Hn|].
    cbn [fst]. rewrite Hp. rewrite Hr in Heq. injection Heq as <-. vm_compute. reflexivity.
Defined.
