(* ===== verification/TrainingJobs.v ===== *)
(** * Durable records of training jobs: [client/training/training_jobs.py]

    A job is its fields, which hold any JSON value (a dataclass checks no
    types); the store is the files of each job's directory.  The JSON text
    codec and SHA-256 are parameters; what sorting keys does to a value is
    [sort_keys].  The text of a file is ASCII, as the codec writes it. *)

From Stdlib Require Import Ascii.
From S2P Require Import Prelude Texts Values.

Open Scope py_scope.

(** ** Data *)

Inductive TrainingJobStatus :=
  | PREPARED | PREFLIGHT | STARTING | RUNNING | COMPLETED | FAILED | STOPPING | STOPPED | LOST.

#[export] Instance TrainingJobStatus_eq_dec : EqDecision TrainingJobStatus.
Proof. solve_decision. Defined.

#[export] Instance TrainingJobStatus_enum : StrEnum TrainingJobStatus := {|
  enum_members := [PREPARED; PREFLIGHT; STARTING; RUNNING; COMPLETED; FAILED; STOPPING; STOPPED; LOST];
  enum_value s := match s with
    | PREPARED => "PREPARED" | PREFLIGHT => "PREFLIGHT" | STARTING => "STARTING"
    | RUNNING => "RUNNING" | COMPLETED => "COMPLETED" | FAILED => "FAILED"
    | STOPPING => "STOPPING" | STOPPED => "STOPPED" | LOST => "LOST" end;
  enum_complete := ltac:(enum_all);
  enum_distinct := ltac:(enum_nodup) |}.

Inductive TrainingMethod := SFT | KTO | DPO.

#[export] Instance TrainingMethod_eq_dec : EqDecision TrainingMethod.
Proof. solve_decision. Defined.

#[export] Instance TrainingMethod_enum : StrEnum TrainingMethod := {|
  enum_members := [SFT; KTO; DPO];
  enum_value t := match t with SFT => "SFT" | KTO => "KTO" | DPO => "DPO" end;
  enum_complete := ltac:(enum_all);
  enum_distinct := ltac:(enum_nodup) |}.

(** [_TRANSITIONS] *)
Definition transitions (s : TrainingJobStatus) : list TrainingJobStatus :=
  match s with
  | PREPARED => [PREFLIGHT; FAILED]
  | PREFLIGHT => [STARTING; FAILED]
  | STARTING => [RUNNING; FAILED]
  | RUNNING => [COMPLETED; FAILED; STOPPING; LOST]
  | STOPPING => [STOPPED; FAILED; LOST]
  | COMPLETED | FAILED | STOPPED | LOST => []
  end.

(** [OtherError] is an exception the callers below do not catch. *)
Inductive exn :=
  | TrainingJobError (msg : string)
  | OSError (msg : string)
  | OtherError (kind : string).

Abbreviation job := (dict string json).

Definition JOB_SCHEMA_VERSION : Z := 1.
Definition EVENT_SCHEMA_VERSION : Z := 1.

(** The fields of [TrainingJob] in order, with their defaults. *)
Definition job_fields (now : string) : list (string * option json) :=
  [("job_id", None); ("method", None); ("bundle_id", None); ("bundle_path", None);
   ("bundle_checksum", None); ("training_config_checksum", None); ("source_model", None);
   ("source_model_revision", None); ("dataset_checksums", None); ("launcher_type", None);
   ("target_host", None); ("remote_job_directory", None);
   ("schema_version", Some (JInt JOB_SCHEMA_VERSION)); ("created_at", Some (JStr now));
   ("status", Some (JStr (enum_value PREPARED))); ("remote_process_identity", Some (JObj []));
   ("start_time", Some JNull); ("completion_time", Some JNull); ("exit_code", Some JNull);
   ("output_reference", Some JNull); ("artifact_references", Some (JList []));
   ("logs_reference", Some JNull); ("failure_summary", Some JNull);
   ("training_library_metadata", Some (JObj [])); ("hardware_metadata", Some (JObj []));
   ("progress_metrics", Some (JObj [])); ("readiness_override", Some (JBool false));
   ("inference_handoff", Some (JObj []))].

Definition field_names : list string := fst <$> job_fields "".

(** ** Strings *)

(** The pattern [ftjob_[0-9a-f]{24}], matched in full. *)
Definition job_id_pattern (s : string) : bool :=
  String.eqb (String.substring 0 6 s) "ftjob_" && all_hex (String.substring 6 24 s)
  && (String.length s =? 30)%nat.

(** A slice from the end. *)
Definition last_bytes (n : Z) (s : string) : string :=
  let len := Z.of_nat (String.length s) in
  if (n =? 0)%Z then s
  else if (0 <? n)%Z then
    String.substring (Z.to_nat (Z.max 0 (len - n))) (String.length s) s
  else String.substring (Z.to_nat (- n)) (String.length s) s.

(** [tuple(value)] *)
Definition as_tuple (j : json) : res exn json :=
  let? items := of_option (OtherError "TypeError") (py_iter j) in Ok (JList items).

Section codec.
  Context (float_eq : string → Z → bool).
  Context (dumps : json → string) (loads : string → option json).

#[local] Abbreviation equals_int := (equals_int float_eq).

(** ** Jobs *)

Definition field (j : job) (name : string) : json := dict_get_default j name JNull.

Definition validate_job_id (j : json) : res exn unit :=
  match j with
  | JStr s => rguard (job_id_pattern s) (TrainingJobError "unsafe training job id")
  | _ => Raise (TrainingJobError "unsafe training job id")
  end.

Definition is_member {A} `{StrEnum A} (j : json) : bool :=
  match j with
  | JStr s => match enum_of (A := A) s with Some _ => true | None => false end
  | _ => false
  end.

(** [TrainingJob.__post_init__] *)
Definition post_init (j : job) : res exn unit :=
  do? validate_job_id (field j "job_id") in
  do? rguard (equals_int JOB_SCHEMA_VERSION (field j "schema_version"))
        (TrainingJobError "unsupported training job schema") in
  do? rguard (is_member (A := TrainingMethod) (field j "method"))
        (TrainingJobError "invalid training method") in
  do? rguard (is_member (A := TrainingJobStatus) (field j "status"))
        (TrainingJobError "invalid training job status") in
  rguard (py_true float_eq (field j "bundle_id") && py_true float_eq (field j "bundle_checksum")
          && py_true float_eq (field j "training_config_checksum"))
    (TrainingJobError "training job lineage is incomplete").

(** [set(value) - fields] on what is not an object: an exception, some
    unknown element, or none. *)
Definition from_non_object (value : json) : exn :=
  match value with
  | JStr "" | JList [] => TrainingJobError "malformed training job"
  | JStr _ => TrainingJobError "unknown training job fields"
  | JList l =>
      if existsb (λ x, match x with JList _ | JObj _ => true | _ => false end) l then OtherError "TypeError"
      else if forallb (λ x, match x with JStr s => bool_decide (s ∈ field_names) | _ => false end) l
           then OtherError "ValueError"
      else TrainingJobError "unknown training job fields"
  | _ => OtherError "TypeError"
  end.

(** [TrainingJob.from_dict] *)
Definition from_dict (now : string) (value : json) : res exn job :=
  match value with
  | JObj m =>
      do? rguard (forallb (λ k, bool_decide (k ∈ field_names)) (dict_keys m))
            (TrainingJobError "unknown training job fields") in
      let? artifacts := as_tuple (dict_get_default m "artifact_references" (JList [])) in
      let? j := construct (TrainingJobError "malformed training job") (job_fields now) (dict_set "artifact_references" artifacts m) in
      do? post_init j in
      Ok j
  | _ => Raise (from_non_object value)
  end.

Definition to_dict (j : job) : json := JObj j.

(** ** The store *)

Abbreviation files := (gmap string string).
Abbreviation store := (gmap string files).
Abbreviation op := (M store exn).

Definition serialize (j : json) : string := String.append (dumps j) (String "010"%char "").

Definition id_of (j : job) : string := match field j "job_id" with JStr s => s | _ => "" end.

(** [_directory]; the store holds no links, so a job's directory is its own. *)
Definition directory (id : string) : res exn string :=
  do? validate_job_id (JStr id) in Ok id.

(** [_atomic_write] in a job's directory, which is made when missing. *)
Definition write_file (id name content : string) : op unit :=
  modify (λ st : store, <[id := <[name := content]> (default ∅ (st !! id))]> st).

Definition read_file (st : store) (id name : string) : option string :=
  st !! id ≫= λ fs, fs !! name.

Definition event_record (now event : string) (details : dict string json) (j : job) : json :=
  JObj [("schema_version", JInt EVENT_SCHEMA_VERSION); ("timestamp", JStr now); ("event", JStr event);
        ("details", JObj details); ("job_snapshot", to_dict j)].

(** [append_event]: the journal grows at its end, whatever is there. *)
Definition append_event (now : string) (j : job) (event : string) (details : dict string json)
    : op unit :=
  let* id := lift (directory (id_of j)) in
  let* st := get in
  let journal := default "" (read_file st id "events.jsonl") in
  do* write_file id ".events.lock" "" in
  write_file id "events.jsonl" (String.append journal (serialize (event_record now event details j))).

Definition create (now : string) (j : job) : op job :=
  let* id := lift (directory (id_of j)) in
  let* st := get in
  do* guard (bool_decide (st !! id = None)) (OSError "file exists") in
  do* write_file id "job.json" (serialize (to_dict j)) in
  do* append_event now j "finetune_job_prepared" [] in
  ret j.

Definition save (now : string) (j : job) (event : string) (details : dict string json) : op job :=
  let* id := lift (directory (id_of j)) in
  let* st := get in
  do* guard (bool_decide (is_Some (st !! id))) (TrainingJobError "training job does not exist") in
  do* write_file id "job.json" (serialize (to_dict j)) in
  do* append_event now j event details in
  ret j.

Definition status_of (j : job) : option TrainingJobStatus :=
  match field j "status" with JStr s => enum_of s | _ => None end.

(** [payload.update(updates)] *)
Definition dict_update {V} (updates d : dict string V) : dict string V :=
  foldl (λ d kv, dict_set kv.1 kv.2 d) d updates.

Definition transition (now : string) (j : job) (status : TrainingJobStatus) (event : option string)
    (updates : dict string json) : op job :=
  let* current := lift (of_option (OtherError "ValueError") (status_of j)) in
  do* guard (bool_decide (status = current) || bool_decide (status ∈ transitions current))
        (TrainingJobError "invalid training job transition") in
  let payload := dict_set "status" (JStr (enum_value status)) (dict_update updates j) in
  let* changed := lift (from_dict now (JObj payload)) in
  save now changed
    (str_or (default "" event) (String.append "finetune_job_" (py_lower (enum_value status)))) [].

(** The last usable record of a journal. *)
Fixpoint latest_snapshot (now : string) (latest : option job) (lines : list string)
    : res exn (option job) :=
  match lines with
  | [] => Ok latest
  | line :: lines =>
      match loads line with
      | None => latest_snapshot now latest lines
      | Some (JObj item) =>
          if equals_int EVENT_SCHEMA_VERSION (dict_get_default item "schema_version" JNull) then
            match dict_get item "job_snapshot" with
            | None => latest_snapshot now latest lines
            | Some snapshot =>
                match from_dict now snapshot with
                | Ok j => latest_snapshot now (Some j) lines
                | Raise (TrainingJobError _) => latest_snapshot now latest lines
                | Raise e => Raise e
                end
            end
          else latest_snapshot now latest lines
      | Some _ => Raise (OtherError "AttributeError")
      end
  end.

Definition recover (now : string) (id : string) : op job :=
  let* st := get in
  let* text := lift (of_option (TrainingJobError "training job is unrecoverable")
                       (read_file st id "events.jsonl")) in
  let* latest := lift (latest_snapshot now None (splitlines text)) in
  match latest with
  | None => raise (TrainingJobError "training job is unrecoverable")
  | Some j => do* write_file id "job.json" (serialize (to_dict j)) in ret j
  end.

Definition load (now : string) (id : string) : op job :=
  let* id := lift (directory id) in
  let* st := get in
  match read_file st id "job.json" with
  | None => recover now id
  | Some text =>
      match loads text with
      | None => recover now id
      | Some value =>
          match from_dict now value with
          | Ok j => ret j
          | Raise (TrainingJobError _) => recover now id
          | Raise e => raise e
          end
      end
  end.

Definition write_remote (id : string) (value : json) : op unit :=
  let* id := lift (directory id) in
  write_file id "remote.json" (serialize value).

Definition cache_logs (id content : string) (maximum_bytes : Z) : op unit :=
  let* id := lift (directory id) in
  write_file id "logs-cache.txt" (last_bytes maximum_bytes (encode_utf8 content)).

(** [new_job_id], from the hexadecimal SHA-256 of its material. *)
Definition new_job_id (sha256_hex : string) : string :=
  String.append "ftjob_" (String.substring 0 24 sha256_hex).

End codec.
