(* ===== verification/TrainingJobsProps.v ===== *)
(** * Correctness of the training-job store

    What is saved is loaded, a crash in the middle of a save leaves the old
    or the new job, the journal rebuilds the last complete record, and a
    job's status only moves along its table. *)

From Stdlib Require Import Ascii.
From stdpp Require Import sorting.
From S2P Require Import Prelude Texts Values TrainingJobs.

Open Scope py_scope.

Implicit Types (j : job).

Section codec.
  Context (float_eq : string → Z → bool).

#[local] Abbreviation py_true := (py_true float_eq).
#[local] Abbreviation equals_int := (equals_int float_eq).
#[local] Abbreviation post_init := (post_init float_eq).
#[local] Abbreviation from_dict := (from_dict float_eq).

Lemma equals_int_sort n v : equals_int n (sort_keys v) = equals_int n v.
Proof. by destruct v. Qed.

(** ** Jobs and their text *)

(** A constructed job: every field, in order, and past its validation. *)
Record valid_job j : Prop := {
  vj_fields : dict_keys j = field_names;
  vj_artifacts : ∃ l, field j "artifact_references" = JList l;
  vj_init : post_init j = Ok tt;
}.

(** The job a saved job is read back as: nested keys are sorted. *)
Definition canon j : job := sorted_values j.

Lemma field_canon j name : field (canon j) name = sort_keys (field j name).
Proof. unfold field, dict_get_default, canon. rewrite sorted_values_get. by destruct (dict_get j name). Qed.

Lemma post_init_canon j : post_init (canon j) = post_init j.
Proof.
  unfold TrainingJobs.post_init. rewrite !field_canon, !py_true_sort, equals_int_sort.
  assert (Hid : validate_job_id (sort_keys (field j "job_id")) = validate_job_id (field j "job_id"))
    by (by destruct (field j "job_id")).
  assert (Hm : ∀ A `(StrEnum A) v, is_member (A := A) (sort_keys v) = is_member (A := A) v)
    by (intros A ? v; by destruct v).
  by rewrite Hid, !Hm.
Qed.

Lemma field_names_nodup : NoDup field_names.
Proof. apply (bool_decide_unpack _). vm_compute. exact I. Qed.

Lemma job_fields_names now : (job_fields now).*1 = field_names.
Proof. reflexivity. Qed.

(** A job whose fields can be looked up in [given] is what is constructed. *)
Lemma construct_job now given j :
  dict_keys j = field_names → (∀ k v, dict_get j k = Some v → dict_get given k = Some v) →
  construct (TrainingJobError "malformed training job") (job_fields now) given = Ok j.
Proof. intros Hk. apply construct_lookup; [apply field_names_nodup|done]. Qed.

(** What is written for a job is read back as the job. *)
Lemma from_dict_to_dict now j :
  valid_job j → from_dict now (sort_keys (to_dict j)) = Ok (canon j).
Proof.
  intros [Hk [l Hl] Hv]. unfold to_dict. rewrite sort_keys_obj.
  assert (Hnd : NoDup (dict_keys (sorted_values j)))
    by (rewrite sorted_values_keys, Hk; apply field_names_nodup).
  unfold TrainingJobs.from_dict.
  assert (forallb (λ k, bool_decide (k ∈ field_names)) (dict_keys (merge_sort key_le (sorted_values j))) = true) as ->.
  { apply forallb_forall. intros k Hin%list_elem_of_In. apply bool_decide_eq_true.
    rewrite <- Hk, <- sorted_values_keys. by apply merge_sort_keys. }
  cbn [rguard rbind].
  assert (Hart : dict_get (merge_sort key_le (sorted_values j)) "artifact_references" = Some (JList (sort_keys <$> l))).
  { rewrite merge_sort_get, sorted_values_get by done. unfold field, dict_get_default in Hl.
    destruct (dict_get j "artifact_references") as [v|]; [|done]. cbn in *. subst v. by rewrite sort_keys_list. }
  unfold dict_get_default at 1. rewrite Hart. cbn [default from_option as_tuple rbind]. unfold id, as_tuple. cbn [py_iter of_option rbind].
  rewrite (construct_job now _ (canon j)).
  - cbn [rbind]. by rewrite post_init_canon, Hv.
  - unfold canon. by rewrite sorted_values_keys.
  - intros k v Hg. rewrite dict_get_set. case_decide as Heq.
    + subst k. unfold canon in Hg. rewrite <- (merge_sort_get _ _ Hnd), Hart in Hg. done.
    + by rewrite merge_sort_get.
Qed.

(** ** Status *)

Lemma from_dict_Ok now m j :
  from_dict now (JObj m) = Ok j →
  valid_job j ∧ ∀ name v, name ∈ field_names → name ≠ "artifact_references" →
    dict_get m name = Some v → dict_get j name = Some v.
Proof.
  unfold TrainingJobs.from_dict. intros (? & _ & H)%rbind_Ok.
  apply rbind_Ok in H as (art & Hart & H). apply rbind_Ok in H as (j' & Hc & H).
  apply rbind_Ok in H as ([] & Hp & [= <-]). split; [split|].
  - by apply construct_keys in Hc.
  - assert (dict_get j' "artifact_references" = Some art) as Hg.
    { eapply construct_get; [| exact Hc| |].
      - rewrite job_fields_names. apply field_names_nodup.
      - rewrite job_fields_names. apply (bool_decide_unpack _). vm_compute. exact I.
      - by rewrite dict_get_set_eq. }
    unfold field, dict_get_default. rewrite Hg. cbn.
    destruct (dict_get_default m "artifact_references" (JList [])); cbn in Hart; simplify_eq; by eexists.
  - done.
  - intros name v Hn Hne Hg. eapply construct_get; [|exact Hc|by rewrite job_fields_names|].
    + rewrite job_fields_names. apply field_names_nodup.
    + by rewrite dict_get_set_ne.
Qed.

(** ** Transitions *)

Section store.
  Context (dumps : json → string) (loads : string → option json) (now : string).

#[local] Abbreviation serialize := (serialize dumps).
#[local] Abbreviation save := (save dumps).
#[local] Abbreviation transition := (transition float_eq dumps).

Lemma valid_directory j : valid_job j → directory (id_of j) = Ok (id_of j).
Proof.
  intros [_ _ Hi]. unfold TrainingJobs.post_init in Hi. apply rbind_Ok in Hi as ([] & Hid & _).
  unfold directory, id_of. unfold validate_job_id in Hid.
  destruct (field j "job_id"); try done. cbn. by rewrite Hid.
Qed.

Lemma save_run j event details (st : gmap string (gmap string string)) :
  valid_job j →
  save now j event details st =
    match st !! id_of j with
    | None => (st, Raise (TrainingJobError "training job does not exist"))
    | Some fs =>
        let record := serialize (event_record now event details j) in
        let journal := default "" (fs !! "events.jsonl") in
        (<[id_of j := <["events.jsonl" := String.append journal record]>
            (<[".events.lock" := ""]> (<["job.json" := serialize (to_dict j)]> fs))]> st, Ok j)
    end.
Proof.
  intros Hv. unfold TrainingJobs.save, append_event, bind, lift, get, guard, ret, write_file, modify.
  rewrite !(valid_directory j Hv). destruct (st !! id_of j) as [fs|] eqn:Hst; cbn [rguard].
  - rewrite bool_decide_eq_true_2 by eauto. cbn [rguard]. unfold read_file.
    unfold lift. rewrite !lookup_insert_eq, Hst. cbn [default from_option mbind option_bind id].
    rewrite !insert_insert_eq. by rewrite lookup_insert_ne.
  - rewrite bool_decide_eq_false_2 by (by intros [? ?]). done.
Qed.

Lemma field_dict j name v : dict_get j name = Some v → field j name = v.
Proof. unfold field, dict_get_default. by intros ->. Qed.

Lemma transition_run j status event updates st st' r :
  transition now j status event updates st = (st', r) →
  match r with
  | Raise _ => st' = st
  | Ok j' =>
      ∃ current, status_of j = Some current ∧ (status = current ∨ status ∈ transitions current) ∧
        status_of j' = Some status ∧ valid_job j' ∧
        read_file st' (id_of j') "job.json" = Some (serialize (to_dict j'))
  end.
Proof.
  unfold TrainingJobs.transition, bind, lift, guard. destruct (status_of j) as [current|]; [|by intros [= <- <-]].
  cbn [of_option]. destruct (_ || _) eqn:Hg; cbn [rguard]; [|by intros [= <- <-]].
  destruct (TrainingJobs.from_dict _ _ _) as [j'|] eqn:Hf; [|by intros [= <- <-]].
  apply from_dict_Ok in Hf as [Hv Hf]. unfold lift. rewrite save_run by done.
  destruct (st !! id_of j') as [fs|] eqn:Hst; intros [= <- <-]; [|done].
  exists current. split_and!; [done| | |done|].
  - apply orb_true_iff in Hg as [Hg|Hg]; apply bool_decide_eq_true in Hg; auto.
  - unfold status_of. rewrite (field_dict _ _ (JStr (enum_value status))); [apply enum_of_value|].
    apply Hf; [|done|apply dict_get_set_eq]. apply (bool_decide_unpack _). vm_compute. exact I.
  - unfold read_file. rewrite lookup_insert_eq. cbn [mbind option_bind]. by rewrite 2 lookup_insert_ne, lookup_insert_eq by done.
Qed.

(** A successful transition, by whatever caller and on whatever store. *)
Definition job_step j j' : Prop :=
  ∃ status event updates st st', transition now j status event updates st = (st', Ok j').
End store.
End codec.

(** How far a status is along its life. *)
Definition rank (s : TrainingJobStatus) : nat :=
  match s with
  | PREPARED => 0 | PREFLIGHT => 1 | STARTING => 2 | RUNNING => 3 | STOPPING => 4
  | COMPLETED | FAILED | STOPPED | LOST => 5
  end.

Lemma transitions_rank s s' : s' ∈ transitions s → rank s < rank s'.
Proof. destruct s; cbn; rewrite ?elem_of_cons, ?elem_of_nil; intros H; naive_solver lia. Qed.

Lemma rank_final s : transitions s = [] ↔ rank s = 5.
Proof. by destruct s. Qed.

Lemma rank_bound s : rank s ≤ 5.
Proof. destruct s; cbn; lia. Qed.

Lemma job_step_rank float_eq dumps now j j' c :
  job_step float_eq dumps now j j' → status_of j = Some c →
  ∃ c', status_of j' = Some c' ∧ valid_job float_eq j' ∧ (c' = c ∨ rank c < rank c').
Proof.
  intros (s & e & u & st & st' & Ht) Hc. apply transition_run in Ht as (c0 & Hc0 & Hs & Hs' & Hv & _).
  rewrite Hc in Hc0. injection Hc0 as <-. exists s. split_and!; [done|done|].
  destruct Hs as [->|Hs]; [by left|right; by apply transitions_rank].
Qed.

Lemma job_steps_rank float_eq dumps now j j' c :
  rtc (job_step float_eq dumps now) j j' → status_of j = Some c →
  ∃ c', status_of j' = Some c' ∧ (c' = c ∨ rank c < rank c').
Proof.
  intros Hr. revert c. induction Hr as [j|j1 j2 j3 Hs _ IH]; intros c Hc; [by exists c; auto|].
  apply (job_step_rank _ _ _ _ _ c) in Hs as (c2 & Hc2 & _ & Hr); [|done].
  destruct (IH c2 Hc2) as (c3 & Hc3 & Hr'). exists c3. split; [done|]. naive_solver lia.
Qed.

(** A status only moves along the table.  A refused transition changes
    no file; an accepted one goes to the same status or to one the table
    allows, keeps a valid job and writes exactly it.  Along any sequence of
    accepted transitions a status is never returned to once left, and a
    final status (completed, failed, stopped or lost) never changes. *)
Theorem status_moves_along_table float_eq dumps now j :
  (∀ status event updates st st' r,
     transition float_eq dumps now j status event updates st = (st', r) →
     match r with
     | Raise _ => st' = st
     | Ok j' =>
         ∃ current, status_of j = Some current ∧ (status = current ∨ status ∈ transitions current) ∧
           status_of j' = Some status ∧ valid_job float_eq j' ∧
           read_file st' (id_of j') "job.json" = Some (serialize dumps (to_dict j'))
     end) ∧
  (∀ j' j'' c c' c'',
     rtc (job_step float_eq dumps now) j j' → rtc (job_step float_eq dumps now) j' j'' →
     status_of j = Some c → status_of j' = Some c' → status_of j'' = Some c'' →
     (c'' = c → c' = c) ∧ (transitions c = [] → c' = c)).
Proof.
  split.
  - intros status event updates st st' r. apply transition_run.
  - intros j' j'' c c' c'' H1 H2 Hc Hc' Hc''.
    destruct (job_steps_rank _ _ _ _ _ _ H1 Hc) as (d & Hd & Hr).
    destruct (job_steps_rank _ _ _ _ _ _ H2 Hc') as (e & He & Hr').
    simplify_eq. split.
    + intros ->. naive_solver lia.
    + intros Hf%rank_final. destruct Hr as [?|Hr]; [done|]. pose proof (rank_bound c'). lia.
Qed.

(** ** The journal *)

Section journal.
  Context (float_eq : string → Z → bool).
  Context (dumps : json → string) (loads : string → option json).

#[local] Abbreviation valid_job := (valid_job float_eq).
#[local] Abbreviation serialize := (serialize dumps).
#[local] Abbreviation latest_snapshot := (latest_snapshot float_eq loads).
#[local] Abbreviation load := (load float_eq dumps loads).

(** What the JSON library does with the text of [v]: it is one non-empty
    line, it is parsed back with or without its end of line, and no proper
    prefix of it is a JSON text. *)
Record codec_for (v : json) : Prop := {
  codec_line : no_breaks (dumps v) = true;
  codec_some : str_true (dumps v) = true;
  codec_back : loads (dumps v) = Some (sort_keys v);
  codec_file : loads (serialize v) = Some (sort_keys v);
  codec_torn : ∀ n, 0 < n < String.length (dumps v) → loads (String.substring 0 n (dumps v)) = None;
}.

(** A journal record: its time, event, details and job. *)
Record record := { r_now : string; r_event : string; r_details : dict string json; r_job : job }.
Definition r_value (r : record) : json := event_record (r_now r) (r_event r) (r_details r) (r_job r).
Definition r_ok (r : record) : Prop := valid_job (r_job r) ∧ codec_for (r_value r).

Fixpoint journal (h : list record) : string :=
  match h with [] => "" | r :: h => String.append (serialize (r_value r)) (journal h) end.

Lemma splitlines_journal h rest :
  Forall r_ok h →
  splitlines (String.append (journal h) rest) = ((λ r, dumps (r_value r)) <$> h) ++ splitlines rest.
Proof.
  induction 1 as [|r h [_ Hr] _ IH]; [done|]. cbn [journal fmap list_fmap app]. unfold TrainingJobs.serialize.
  rewrite !append_assoc. change (String.append (String "010"%char "") ?x) with (String "010"%char x).
  rewrite splitlines_line by apply Hr. by rewrite IH.
Qed.

Lemma latest_snapshot_app now latest a b :
  latest_snapshot now latest (a ++ b) =
    rbind (latest_snapshot now latest a) (λ latest, latest_snapshot now latest b).
Proof.
  revert latest. induction a as [|line a IH]; intros latest; [done|].
  cbn [app TrainingJobs.latest_snapshot]. repeat (case_match; try done).
Qed.

(** A complete record is the latest one. *)
Lemma latest_snapshot_record now latest r lines :
  valid_job (r_job r) → loads (dumps (r_value r)) = Some (sort_keys (r_value r)) →
  latest_snapshot now latest (dumps (r_value r) :: lines) =
    latest_snapshot now (Some (canon (r_job r))) lines.
Proof.
  intros Hv Hl. cbn [TrainingJobs.latest_snapshot]. rewrite Hl. unfold r_value, event_record.
  rewrite sort_keys_obj. set (m := sorted_values _).
  assert (Hnd : NoDup (dict_keys m)).
  { unfold m. rewrite sorted_values_keys. apply (bool_decide_unpack _). vm_compute. exact I. }
  unfold dict_get_default. rewrite !(merge_sort_get m) by done. unfold m at 1.
  rewrite sorted_values_get. change (dict_get _ "schema_version") with (Some (JInt EVENT_SCHEMA_VERSION)).
  cbn [fmap option_fmap option_map default from_option id sort_keys equals_int].
  unfold m. rewrite sorted_values_get. change (dict_get _ "job_snapshot") with (Some (to_dict (r_job r))).
  cbn [fmap option_fmap option_map]. by rewrite (from_dict_to_dict float_eq now).
Qed.

Lemma latest_snapshot_torn now latest line :
  loads line = None → latest_snapshot now latest [line] = Ok latest.
Proof. cbn. by intros ->. Qed.

Lemma latest_snapshot_journal now latest h lines :
  Forall r_ok h →
  latest_snapshot now latest (((λ r, dumps (r_value r)) <$> h) ++ lines) =
    latest_snapshot now (match last h with Some r => Some (canon (r_job r)) | None => latest end) lines.
Proof.
  intros Hh. revert latest. induction Hh as [|r h [Hv Hc] _ IH]; intros latest; [done|].
  cbn [fmap list_fmap app]. rewrite latest_snapshot_record by (done || apply Hc). rewrite IH.
  rewrite last_cons. by destruct (last h).
Qed.

(** The first [n] characters of a record: it counts once all of its text but
    the end of the line is there. *)
Lemma latest_snapshot_prefix now latest r n :
  r_ok r →
  latest_snapshot now latest (splitlines (String.substring 0 n (serialize (r_value r)))) =
    Ok (if (n <? String.length (dumps (r_value r)))%nat then latest else Some (canon (r_job r))).
Proof.
  intros [Hv Hc]. pose proof (codec_line _ Hc) as Hl. pose proof (codec_back _ Hc) as Hb.
  unfold TrainingJobs.serialize. destruct (Nat.ltb_spec n (String.length (dumps (r_value r)))) as [Hn|Hn].
  - rewrite substring_app by lia. rewrite splitlines_last by (by apply no_breaks_substring).
    destruct (decide (n = 0)) as [->|Hz]; [by destruct (dumps (r_value r))|].
    rewrite substring_some by (apply Hc || lia). apply latest_snapshot_torn. apply Hc. lia.
  - assert (Hcut : splitlines (String.substring 0 n (String.append (dumps (r_value r)) (String "010"%char "")))
                   = [dumps (r_value r)]).
    { destruct (decide (n = String.length (dumps (r_value r)))) as [->|Hne].
      - rewrite substring_app, substring_full, splitlines_last by done. by rewrite (codec_some _ Hc).
      - rewrite substring_full by (rewrite length_append; cbn; lia). by rewrite splitlines_line. }
    rewrite Hcut. by rewrite latest_snapshot_record.
Qed.

Lemma latest_snapshot_cut now h r n :
  Forall r_ok h → r_ok r →
  latest_snapshot now None
    (splitlines (String.append (journal h) (String.substring 0 n (serialize (r_value r))))) =
    Ok (if (n <? String.length (dumps (r_value r)))%nat then (λ r, canon (r_job r)) <$> last h
        else Some (canon (r_job r))).
Proof.
  intros Hh Hr. rewrite splitlines_journal, latest_snapshot_journal by done.
  rewrite latest_snapshot_prefix by done. by destruct (last h).
Qed.

(** ** Loading *)

(** [job.json] is missing or does not parse. *)
Definition snapshot_lost (fs : gmap string string) : Prop := fs !! "job.json" ≫= loads = None.

Lemma load_snapshot now id st fs j :
  directory id = Ok id → st !! id = Some fs → fs !! "job.json" = Some (serialize (to_dict j)) →
  valid_job j → codec_for (to_dict j) → load now id st = (st, Ok (canon j)).
Proof.
  intros Hd Hst Hf Hv Hc. unfold TrainingJobs.load, bind, lift, get. rewrite Hd. unfold read_file.
  rewrite Hst. cbn [mbind option_bind]. rewrite Hf, (codec_file _ Hc).
  by rewrite (from_dict_to_dict float_eq now).
Qed.

Lemma load_journal now id st fs text j :
  directory id = Ok id → st !! id = Some fs → snapshot_lost fs → fs !! "events.jsonl" = Some text →
  latest_snapshot now None (splitlines text) = Ok (Some j) →
  load now id st = (<[id := <["job.json" := serialize (to_dict j)]> fs]> st, Ok j).
Proof.
  intros Hd Hst Hl Ht Hj. assert (Hrec : recover float_eq dumps loads now id st =
    (<[id := <["job.json" := serialize (to_dict j)]> fs]> st, Ok j)).
  { unfold recover, bind, lift, get, write_file, modify, ret, read_file. rewrite Hst. cbn [mbind option_bind].
    rewrite Ht. cbn [of_option]. rewrite Hj. unfold lift. by rewrite Hst. }
  unfold TrainingJobs.load, bind, lift, get. rewrite Hd. unfold read_file. rewrite Hst. cbn [mbind option_bind].
  unfold snapshot_lost in Hl. destruct (fs !! "job.json") as [t|]; cbn in Hl; [by rewrite Hl|done].
Qed.

(** ** A crash during a save *)

(** How far [save] came: each file it writes, and the journal write cut
    after [n] characters. *)
Inductive crash_point := BeforeSnapshot | AfterSnapshot | AfterLock | InJournal (n : nat).

Definition crashed (fs : gmap string string) (r : record) (c : crash_point) : gmap string string :=
  let fs1 := <["job.json" := serialize (to_dict (r_job r))]> fs in
  let fs2 := <[".events.lock" := ""]> fs1 in
  match c with
  | BeforeSnapshot => fs
  | AfterSnapshot => fs1
  | AfterLock => fs2
  | InJournal n =>
      <["events.jsonl" := String.append (default "" (fs !! "events.jsonl"))
                            (String.substring 0 n (serialize (r_value r)))]> fs2
  end.

Definition snapshot_written (c : crash_point) : bool :=
  match c with BeforeSnapshot => false | _ => true end.
Definition journal_written (c : crash_point) : nat := match c with InJournal n => n | _ => 0 end.

Lemma crashed_snapshot fs r c :
  crashed fs r c !! "job.json" =
    if snapshot_written c then Some (serialize (to_dict (r_job r))) else fs !! "job.json".
Proof. destruct c; cbn [crashed snapshot_written]; rewrite ?lookup_insert_ne by done; by rewrite ?lookup_insert_eq. Qed.

Lemma crashed_journal fs r c text :
  fs !! "events.jsonl" = Some text →
  crashed fs r c !! "events.jsonl" =
    Some (String.append text (String.substring 0 (journal_written c) (serialize (r_value r)))).
Proof.
  intros Ht. assert (String.append text (String.substring 0 0 (serialize (r_value r))) = text) as H0.
  { destruct (serialize (r_value r)); apply append_nil. }
  destruct c; cbn [crashed journal_written]; rewrite ?H0, ?lookup_insert_ne by done; try done.
  by rewrite lookup_insert_eq, Ht.
Qed.
End journal.

Section crash.
  Context (float_eq : string → Z → bool).
  Context (dumps : json → string) (loads : string → option json).
  Context (old new : record) (h : list record) (fs : gmap string string).
  Hypothesis history_ok : Forall (r_ok float_eq dumps loads) (h ++ [old]).
  Hypothesis new_ok : r_ok float_eq dumps loads new.
  Hypothesis snapshots_ok : codec_for dumps loads (to_dict (r_job old)) ∧ codec_for dumps loads (to_dict (r_job new)).
  Hypothesis saved : fs !! "job.json" = Some (serialize dumps (to_dict (r_job old))).
  Hypothesis recorded : fs !! "events.jsonl" = Some (journal dumps (h ++ [old])).

End crash.

Section torn.
  Context (float_eq : string → Z → bool).
  Context (dumps : json → string) (loads : string → option json).
  Context (old new : record) (h : list record) (fs : gmap string string) (torn : string).
  Hypothesis history_ok : Forall (r_ok float_eq dumps loads) (h ++ [old]).
  Hypothesis new_valid : valid_job float_eq (r_job new).
  Hypothesis new_line : no_breaks (dumps (r_value new)) = true.
  Hypothesis torn_line : no_breaks torn = true.
  Hypothesis joined : loads (String.append torn (dumps (r_value new))) = None.
  Hypothesis recorded : fs !! "events.jsonl" = Some (String.append (journal dumps (h ++ [old])) torn).

(** After a crash left a torn tail, the next event is lost with it.
    [append_event] writes after the torn text, so the next record joins its
    line: the save returns and the snapshot holds the new job, but the
    journal no longer rebuilds it, and when the snapshot is lost the job
    comes back as it was before the crash.  The comment in [_recover] says a
    torn tail costs the most recent event only. *)
Theorem torn_tail_costs_the_next_event (st : gmap string (gmap string string)) (now : string) :
  st !! id_of (r_job new) = Some fs →
  let id := id_of (r_job new) in
  ∃ fs', save dumps (r_now new) (r_job new) (r_event new) (r_details new) st =
           (<[id := fs']> st, Ok (r_job new)) ∧
         fs' !! "job.json" = Some (serialize dumps (to_dict (r_job new))) ∧
         (load float_eq dumps loads now id (<[id := delete "job.json" fs']> st)).2 =
           Ok (canon (r_job old)).
Proof using history_ok new_valid new_line torn_line joined recorded.
  intros Hst id. pose proof (valid_directory float_eq _ new_valid) as Hd.
  rewrite (save_run float_eq), Hst, recorded by done. eexists. split_and!; [done| |].
  - rewrite 2 lookup_insert_ne by done. apply lookup_insert_eq.
  - erewrite (load_journal float_eq dumps loads now id); [done|exact Hd|apply lookup_insert_eq| | |].
    + unfold snapshot_lost. by rewrite lookup_delete_eq.
    + rewrite lookup_delete_ne by done. apply lookup_insert_eq.
    + cbn [default from_option]. unfold Datatypes.id, serialize. rewrite append_assoc, <- (append_assoc torn).
      rewrite (splitlines_journal float_eq dumps loads), latest_snapshot_journal by done.
      rewrite splitlines_line by (by rewrite no_breaks_app, torn_line). rewrite last_snoc.
      by apply latest_snapshot_torn.
Qed.
End torn.

(** ** Examples *)

(** A printer without escapes, and a reader of the texts it printed. *)
Fixpoint show_json (j : json) : string :=
  match j with
  | JNull => "null" | JBool true => "true" | JBool false => "false"
  | JInt n => pretty n | JFloat lit => lit
  | JStr s => String.append (String "034"%char s) (String "034"%char "")
  | JList l =>
      String.append "[" ((fix go l := match l with [] => "]"
        | x :: l => String.append (show_json x) (String.append "," (go l)) end) l)
  | JObj m =>
      String.append "{" ((fix go m := match m with [] => "}"
        | (k, v) :: m => String.append (String "034"%char k)
            (String.append (String "034"%char ":") (String.append (show_json v) (String.append "," (go m)))) end) m)
  end.

Definition read_known (known : list json) (s : string) : option json :=
  sort_keys <$> List.find (λ v, String.eqb s (show_json v) || String.eqb s (serialize show_json v)) known.

Definition sample_job (status : TrainingJobStatus) (metrics : dict string json) : job :=
  match construct (TrainingJobError "malformed training job") (job_fields "t0")
    [("job_id", JStr "ftjob_00112233445566778899aabb"); ("method", JStr "SFT"); ("bundle_id", JStr "b1");
     ("bundle_path", JStr "/b1"); ("bundle_checksum", JStr "c1"); ("training_config_checksum", JStr "c2");
     ("source_model", JStr "m"); ("source_model_revision", JNull); ("dataset_checksums", JObj []);
     ("launcher_type", JStr "local"); ("target_host", JStr "host"); ("remote_job_directory", JStr "/r");
     ("status", JStr (enum_value status)); ("progress_metrics", JObj metrics)] with
  | Ok j => j | Raise _ => [] end.

Definition sample_old : record := {| r_now := "t1"; r_event := "finetune_job_running"; r_details := [];
  r_job := sample_job RUNNING [("step", JInt 3); ("loss", JFloat "0.5")] |}.
Definition sample_new : record := {| r_now := "t2"; r_event := "finetune_job_completed"; r_details := [];
  r_job := sample_job COMPLETED [("step", JInt 9)] |}.
Definition sample_loads : string → option json :=
  read_known [r_value sample_old; r_value sample_new; to_dict (r_job sample_old); to_dict (r_job sample_new)].
Definition no_float (_ : string) (_ : Z) : bool := false.
Definition sample_files (torn : string) : gmap string string :=
  {["job.json" := serialize show_json (to_dict (r_job sample_old));
    "events.jsonl" := String.append (journal show_json [sample_old]) torn ]}.

(** Everything the codec promises of a value, as a check. *)
Definition is_none {A} (o : option A) : bool := match o with None => true | Some _ => false end.
Definition torn_check (v : json) : bool :=
  forallb (λ n, is_none (sample_loads (String.substring 0 n (show_json v))))
    (seq 1 (String.length (show_json v) - 1)).

Lemma sample_codec v :
  no_breaks (show_json v) = true → str_true (show_json v) = true →
  sample_loads (show_json v) = Some (sort_keys v) → sample_loads (serialize show_json v) = Some (sort_keys v) →
  torn_check v = true → codec_for show_json sample_loads v.
Proof.
  intros ???? Ht. split; [done..|]. intros n Hn. unfold torn_check in Ht.
  rewrite forallb_forall in Ht. specialize (Ht n ltac:(apply in_seq; lia)).
  cbv beta in Ht. destruct (sample_loads (String.substring 0 n (show_json v))); [discriminate Ht|reflexivity].
Qed.

Lemma sample_valid status metrics : valid_job no_float (sample_job status metrics).
Proof. split; [by destruct status|by eexists|by destruct status]. Qed.

Ltac sample_codec := apply sample_codec; vm_compute; reflexivity.


Lemma torn_tail_costs_the_next_event_witness :
  ∃ fs', (load no_float show_json sample_loads "t3" (id_of (r_job sample_new))
    {[id_of (r_job sample_new) := fs']}).2 = Ok (canon (r_job sample_old)).
Proof.
  assert (Hok : Forall (r_ok no_float show_json sample_loads) ([] ++ [sample_old]))
    by (apply Forall_singleton; split; [apply sample_valid|sample_codec]).
  destruct (torn_tail_costs_the_next_event no_float show_json sample_loads sample_old sample_new []
    (sample_files "{") "{" Hok (sample_valid _ _) ltac:(vm_compute; reflexivity) ltac:(reflexivity)
    ltac:(vm_compute; reflexivity) ltac:(vm_compute; reflexivity)
    {[id_of (r_job sample_new) := sample_files "{"]} "t3" (lookup_singleton_eq _ _)) as (fs' & _ & _ & Hl).
  exists (delete "job.json" fs'). rewrite insert_singleton_eq in Hl. exact Hl.
Defined.

(** A preparation check, then the run: the table is followed on disk. *)
Lemma status_moves_along_table_witness :
  let start := sample_job PREPARED [] in
  status_of (sample_job PREFLIGHT []) = Some PREFLIGHT ∧
  ∃ current, status_of start = Some current ∧ (PREFLIGHT = current ∨ PREFLIGHT ∈ transitions current).
Proof.
  intros start. split; [vm_compute; reflexivity|].
  destruct (status_moves_along_table no_float show_json "t1" start) as [Ht _].
  pose (st := {[id_of start := sample_files ""]} : gmap string (gmap string string)).
  assert (Hok : (transition no_float show_json "t1" start PREFLIGHT None [] st).2 = Ok (sample_job PREFLIGHT []))
    by (vm_compute; reflexivity).
  pose proof (Ht PREFLIGHT None [] st _ _ (surjective_pairing _)) as H. rewrite Hok in H.
  destruct H as (current & Hc & Hs & _). exists current. split; [exact Hc|exact Hs].
Defined.
