(* ===== verification/ResultStore.v ===== *)
(** * The store of tool results: [client/runtime/result_store.py]

    Results are kept out of the model's context as files named by an opaque
    reference, with a sidecar record.  The store is the files of its root
    directory, which holds no links; SHA-256 (in hexadecimal) and the JSON
    text codec are parameters. *)

From Stdlib Require Import Ascii.
From stdpp Require Import sorting.
From S2P Require Import Prelude Texts.

Open Scope py_scope.

(** ** Data *)

Inductive exn :=
  | ResultStoreError (msg : string)
  | KeyError (key : string).

Record ResultReference := mk_reference {
  reference : string;
  byte_count : Z;
  sha256 : string;
  task_id : option string;
}.

(** What a caller may store: a [str] or [bytes]. *)
Inductive content := Text (s : string) | Bytes (b : string).

(** A metadata value: an atom, a mapping (after [str] of its keys), a list,
    tuple or set in iteration order, or anything else with its [repr]. *)
Inductive value :=
  | VNull | VBool (b : bool) | VInt (z : Z) | VFloat (lit : string) | VStr (s : string)
  | VMap (m : list (string * value))
  | VSeq (l : list value)
  | VOther (repr : string).

Abbreviation store := (gmap string string).
Abbreviation op := (M store exn).

(** ** Helpers *)

(** [_json_safe] *)
Fixpoint json_safe (v : value) : json :=
  match v with
  | VNull => JNull
  | VBool b => JBool b
  | VInt z => JInt z
  | VFloat lit => JFloat lit
  | VStr s => JStr s
  | VMap m =>
      JObj ((fix go (d : dict string json) m := match m with
             | [] => d
             | (k, v) :: m => go (dict_set k (json_safe v) d) m
             end) [] m)
  | VSeq l => JList ((fix go l := match l with [] => [] | x :: l => json_safe x :: go l end) l)
  | VOther repr => JStr (String.substring 0 240 repr)
  end.

(** The pattern [result_[0-9a-f]{64}], matched in full. *)
Definition reference_pattern (r : string) : bool :=
  String.eqb (String.substring 0 7 r) "result_" && all_hex (String.substring 7 64 r)
  && (String.length r =? 71)%nat.

(** [_path]: the name of the file in the root. *)
Definition path (r suffix : string) : res exn string :=
  do? rguard (reference_pattern r) (ResultStoreError "malformed result reference") in
  Ok (r +:+ suffix).

Definition write_file (name bytes : string) : op unit := modify (λ st : store, <[name := bytes]> st).

Definition payload_of (c : content) : string :=
  match c with Text s => encode_utf8 s | Bytes b => b end.

Section store.
  Context (hash : string → string) (dumps : json → string) (loads : string → option json).

(** What the reference of a result is computed from. *)
Definition material (task : option string) (payload : string) : string :=
  encode_utf8 (default "" task) +:+ String "000"%char payload.

Definition reference_of (task : option string) (payload : string) : string :=
  "result_" +:+ hash (material task payload).

Definition task_json (task : option string) : json :=
  match task with Some t => JStr t | None => JNull end.

Definition record (task : option string) (payload : string) (metadata : list (string * value)) : json :=
  JObj [("schema_version", JInt 1); ("reference", JStr (reference_of task payload));
        ("sha256", JStr (hash payload)); ("byte_count", JInt (Z.of_nat (String.length payload)));
        ("task_id", task_json task); ("metadata", json_safe (VMap metadata))].

(** ** Operations *)

Definition put (c : content) (task : option string) (metadata : list (string * value))
    : op ResultReference :=
  let payload := payload_of c in
  let r := reference_of task payload in
  let* bin := lift (path r ".bin") in
  do* write_file bin payload in
  let* sidecar := lift (path r ".json") in
  do* write_file sidecar (encode_utf8 (dumps (record task payload metadata))) in
  ret (mk_reference r (Z.of_nat (String.length payload)) (hash payload) task).

Definition metadata (r : string) : op (dict string json) :=
  let* name := lift (path r ".json") in
  let* st := get in
  let* text := lift (of_option (KeyError r) (st !! name)) in
  match loads text with
  | Some (JObj data) =>
      match dict_get data "reference" with
      | Some (JStr r') =>
          do* guard (String.eqb r' r) (ResultStoreError "malformed result metadata") in ret data
      | _ => raise (ResultStoreError "malformed result metadata")
      end
  | _ => raise (ResultStoreError "malformed result metadata")
  end.

Definition get_bytes (r : string) (task : option string) : op string :=
  let* data := metadata r in
  do* guard (match task with
             | None => true
             | Some t => match dict_get_default data "task_id" JNull with
                         | JNull => true
                         | JStr t' => String.eqb t' t
                         | _ => false
                         end
             end) (ResultStoreError "result reference belongs to another task") in
  let* name := lift (path r ".bin") in
  let* st := get in
  let* payload := lift (of_option (KeyError r) (st !! name)) in
  let* expected := lift (of_option (KeyError "sha256") (dict_get data "sha256")) in
  do* guard (match expected with JStr h => String.eqb (hash payload) h | _ => false end)
        (ResultStoreError "stored result checksum mismatch") in
  ret payload.

Definition exists_ (r : string) : op bool :=
  let* st := get in
  match path r ".bin", path r ".json" with
  | Ok bin, Ok sidecar =>
      ret (bool_decide (is_Some (st !! bin)) && bool_decide (is_Some (st !! sidecar)))
  | _, _ => ret false
  end.
End store.

(** ** Correctness of the result store

    What is put is what is read back, by its own task only; what is read is
    intact; and results of different tasks never share a reference. *)

Lemma reference_pattern_hash h :
  all_hex h = true → String.length h = 64 → reference_pattern ("result_" +:+ h) = true.
Proof.
  intros Hh Hl. unfold reference_pattern. change (String.substring 0 7 ("result_" +:+ h)) with ("result_" +:+ String.substring 0 0 h).
  change (String.substring 7 64 ("result_" +:+ h)) with (String.substring 0 64 h).
  rewrite (substring_full h 64), Hh by lia. change (String.length ("result_" +:+ h)) with (7 + String.length h). rewrite Hl.
  by destruct h.
Qed.

Lemma reference_pattern_length r : reference_pattern r = true → String.length r = 71.
Proof. intros [_ H]%andb_true_iff. by apply Nat.eqb_eq in H. Qed.

Lemma path_Ok r suffix : reference_pattern r = true → path r suffix = Ok (r +:+ suffix).
Proof. unfold path. by intros ->. Qed.

Lemma path_cases r suffix :
  path r suffix = if reference_pattern r then Ok (r +:+ suffix)
                  else Raise (ResultStoreError "malformed result reference").
Proof. unfold path, rguard. by destruct (reference_pattern r). Qed.

(** The files of two references are different files. *)
Lemma names_apart r r' s s' :
  reference_pattern r = true → reference_pattern r' = true → r +:+ s = r' +:+ s' → r = r' ∧ s = s'.
Proof. intros ?%reference_pattern_length ?%reference_pattern_length. apply append_cancel. congruence. Qed.

Section store.
  Context (hash : string → string) (dumps : json → string) (loads : string → option json).
  Hypothesis hash_shape : ∀ b, all_hex (hash b) = true ∧ String.length (hash b) = 64.

#[local] Abbreviation reference_of := (reference_of hash).
#[local] Abbreviation get_bytes := (get_bytes hash loads).
#[local] Abbreviation put := (put hash dumps).

Lemma reference_ok task payload : reference_pattern (reference_of task payload) = true.
Proof using hash_shape. apply reference_pattern_hash; apply hash_shape. Qed.

Definition stored (c : content) (task : option string) (md : list (string * value)) (st : gmap string string)
    : gmap string string :=
  let payload := payload_of c in
  let r := reference_of task payload in
  <[r +:+ ".json" := encode_utf8 (dumps (record hash task payload md))]> (<[r +:+ ".bin" := payload]> st).

Lemma put_run c task md st :
  put c task md st =
    (stored c task md st,
     Ok (mk_reference (reference_of task (payload_of c)) (Z.of_nat (String.length (payload_of c)))
           (hash (payload_of c)) task)).
Proof using hash_shape.
  unfold ResultStore.put, bind, lift. rewrite !path_Ok by apply reference_ok. done.
Qed.

(** Who may read a result: anyone naming no task, and, for the result of a
    task, that task. *)
Definition readable (owner reader : option string) : bool :=
  match owner, reader with Some t, Some t' => String.eqb t t' | _, _ => true end.

Lemma record_get task payload md k :
  dict_get (merge_sort key_le (sorted_values
    [("schema_version", JInt 1); ("reference", JStr (reference_of task payload));
     ("sha256", JStr (hash payload)); ("byte_count", JInt (Z.of_nat (String.length payload)));
     ("task_id", task_json task); ("metadata", json_safe (VMap md))])) k =
  sort_keys <$> dict_get
    [("schema_version", JInt 1); ("reference", JStr (reference_of task payload));
     ("sha256", JStr (hash payload)); ("byte_count", JInt (Z.of_nat (String.length payload)));
     ("task_id", task_json task); ("metadata", json_safe (VMap md))] k.
Proof. apply written_get. apply (bool_decide_unpack _). vm_compute. exact I. Qed.

Lemma get_stored c task md reader st :
  let payload := payload_of c in
  let r := reference_of task payload in
  loads (encode_utf8 (dumps (record hash task payload md))) = Some (sort_keys (record hash task payload md)) →
  st !! (r +:+ ".json") = Some (encode_utf8 (dumps (record hash task payload md))) →
  st !! (r +:+ ".bin") = Some payload →
  get_bytes r reader st =
    (st, if readable task reader then Ok payload
         else Raise (ResultStoreError "result reference belongs to another task")).
Proof using hash_shape.
  intros payload r Hl Hj Hb. unfold ResultStore.get_bytes, metadata, bind, lift, get, guard.
  rewrite !path_Ok by apply reference_ok. fold payload r. rewrite Hj. cbn [of_option]. rewrite Hl. unfold record.
  rewrite sort_keys_obj. rewrite record_get. change (dict_get _ "reference") with (Some (JStr r)).
  cbn [fmap option_fmap option_map sort_keys]. rewrite String.eqb_refl. unfold lift, rguard, ret. cbv beta iota zeta.
  unfold dict_get_default. rewrite !record_get. change (dict_get _ "task_id") with (Some (task_json task)).
  change (dict_get _ "sha256") with (Some (JStr (hash payload))).
  cbn [fmap option_fmap option_map sort_keys default from_option].
  assert (Hg : (match reader with
    | None => true
    | Some t => match sort_keys (task_json task) with
                | JNull => true | JStr t' => String.eqb t' t | _ => false end
    end) = readable task reader) by (by destruct task, reader).
  unfold ret, id. rewrite Hg. destruct (readable task reader); cbn [rguard]; [|done].
  rewrite Hb. cbn [of_option]. by rewrite String.eqb_refl.
Qed.

(** Reading a reference looks at its two files only. *)
Lemma get_frame r reader st st' :
  (∀ suffix, reference_pattern r = true → st' !! (r +:+ suffix) = st !! (r +:+ suffix)) →
  (get_bytes r reader st').2 = (get_bytes r reader st).2.
Proof.
  intros Hf. unfold ResultStore.get_bytes, metadata, bind, lift, get, guard, raise, ret. rewrite !path_cases.
  destruct (reference_pattern r); [|done]. rewrite !Hf by done.
  destruct (st !! (r +:+ ".json")) as [t|]; [|done]. cbn [of_option].
  destruct (loads t) as [[| | | | | |data]|]; try done.
  destruct (dict_get data "reference") as [[| | | |r'| |]|]; try done.
  unfold lift, rguard. destruct (String.eqb r' r); [|done]. cbv beta iota zeta.
  destruct (match reader with None => true | Some _ => _ end); [|done].
  rewrite Hf by done. destruct (st !! (r +:+ ".bin")) as [payload|]; [|done]. cbn [of_option].
  destruct (dict_get data "sha256") as [expected|]; [|done]. cbn [of_option].
  by destruct (match expected with JStr _ => _ | _ => _ end).
Qed.

Lemma stored_frame c task md st r' suffix :
  reference_pattern r' = true → r' ≠ reference_of task (payload_of c) →
  stored c task md st !! (r' +:+ suffix) = st !! (r' +:+ suffix).
Proof using hash_shape.
  intros Hp Hne. unfold stored.
  assert (Hapart : ∀ s, reference_of task (payload_of c) +:+ s ≠ r' +:+ suffix).
  { intros s Heq. apply Hne. symmetry. eapply (proj1 (names_apart _ _ _ _ (reference_ok _ _) Hp Heq)). }
  by rewrite 2 lookup_insert_ne by apply Hapart.
Qed.

(** What is put is what is read back.  A put never fails and returns the
    size and checksum of the bytes; the reference then exists, gives back
    exactly those bytes to a reader that names no task or the owning task,
    and refuses any other task (a result put without a task is readable by
    all); every other reference reads as before; and putting the same thing
    again changes nothing.  The record's text is assumed to parse back. *)
Theorem stored_result_is_returned c task md st :
  let payload := payload_of c in
  let r := reference_of task payload in
  let st' := stored c task md st in
  loads (encode_utf8 (dumps (record hash task payload md))) = Some (sort_keys (record hash task payload md)) →
  put c task md st =
    (st', Ok (mk_reference r (Z.of_nat (String.length payload)) (hash payload) task)) ∧
  (∀ reader, get_bytes r reader st' =
     (st', if readable task reader then Ok payload
           else Raise (ResultStoreError "result reference belongs to another task"))) ∧
  exists_ r st' = (st', Ok true) ∧
  (∀ r' reader, r' ≠ r → (get_bytes r' reader st').2 = (get_bytes r' reader st).2) ∧
  (put c task md st').1 = st'.
Proof using hash_shape.
  intros payload r st' Hl.
  assert (Hbin : st' !! (r +:+ ".bin") = Some payload).
  { unfold st', stored. rewrite lookup_insert_ne, lookup_insert_eq; [done|].
    intros Heq. apply names_apart in Heq as [_ ?]; [done|apply reference_ok..]. }
  assert (Hjson : st' !! (r +:+ ".json") = Some (encode_utf8 (dumps (record hash task payload md))))
    by apply lookup_insert_eq.
  split_and!.
  - apply put_run.
  - intros reader. by apply get_stored with md.
  - unfold exists_, bind, get. rewrite !path_Ok by apply reference_ok.
    fold payload. change (reference_of task payload) with r. rewrite Hbin, Hjson. done.
  - intros r' reader Hne. apply get_frame. intros suffix Hp. by apply stored_frame.
  - rewrite put_run. cbn [fst]. apply map_eq. intros i. unfold stored at 1. fold payload r.
    destruct (decide (i = r +:+ ".json")) as [->|Hj]; [by rewrite lookup_insert_eq|].
    rewrite lookup_insert_ne by done.
    destruct (decide (i = r +:+ ".bin")) as [->|Hb]; [by rewrite lookup_insert_eq|].
    by rewrite lookup_insert_ne.
Qed.
End store.

(** Only intact results are read.  Whatever the files hold, a read that
    returns changed nothing, named a well-formed reference (so a file of the
    store's own root), returns the bytes of its file unaltered, and those
    bytes hash to the checksum recorded beside them under that very
    reference, for a reader the recorded task admits. *)
Theorem only_intact_results_are_read hash loads r reader (st st' : gmap string string) p :
  get_bytes hash loads r reader st = (st', Ok p) →
  st' = st ∧ reference_pattern r = true ∧ st !! (r +:+ ".bin") = Some p ∧
  ∃ text data, st !! (r +:+ ".json") = Some text ∧ loads text = Some (JObj data) ∧
    dict_get data "reference" = Some (JStr r) ∧ dict_get data "sha256" = Some (JStr (hash p)) ∧
    (∀ t, reader = Some t → dict_get_default data "task_id" JNull ∈ [JNull; JStr t]).
Proof.
  unfold ResultStore.get_bytes, metadata, bind, lift, get, guard, raise, ret, rguard. rewrite !path_cases.
  destruct (reference_pattern r); [|done].
  destruct (st !! (r +:+ ".json")) as [text|]; [|done]. cbn [of_option].
  destruct (loads text) as [[| | | | | |data]|] eqn:Hl; try done.
  destruct (dict_get data "reference") as [[| | | |r'| |]|] eqn:Hr; try done.
  unfold lift. destruct (String.eqb_spec r' r) as [->|]; [|done]. cbv beta iota zeta.
  destruct (match reader with None => true | Some _ => _ end) eqn:Ht; [|done].
  destruct (st !! (r +:+ ".bin")) as [payload|]; [|done]. cbn [of_option].
  destruct (dict_get data "sha256") as [[| | | |h| |]|] eqn:Hh; try done. cbn [of_option].
  destruct (String.eqb_spec (hash payload) h) as [<-|]; [|done]. intros [= <- <-].
  split_and!; [done..|]. exists text, data. split_and!; [done..|]. intros t ->.
  destruct (dict_get_default data "task_id" JNull) as [| | | |t'| |]; try done; [by left|].
  apply String.eqb_eq in Ht as ->. right. by left.
Qed.

(** Results of different tasks, or of different bytes, never share a
    reference: for task names without NUL, two equal references (whose
    inputs SHA-256 tells apart) are of the same bytes and the same task,
    where no task counts as the empty name. *)
Theorem references_are_distinct hash t1 t2 p1 p2 :
  no_nul (default "" t1) = true → no_nul (default "" t2) = true →
  (hash (material t1 p1) = hash (material t2 p2) → material t1 p1 = material t2 p2) →
  reference_of hash t1 p1 = reference_of hash t2 p2 →
  default "" t1 = default "" t2 ∧ p1 = p2.
Proof.
  intros H1 H2 Hcoll Href. unfold reference_of in Href.
  apply append_cancel in Href as [_ Hh]; [|done]. apply Hcoll in Hh. unfold material in Hh.
  apply nul_split in Hh as [Ht Hp]; [|by apply encode_no_nul..]. split; [by apply (inj encode_utf8)|done].
Qed.

(** ** Examples *)

(** A hash of 64 digits, and a codec of one record. *)
Definition sample_hash (s : string) : string :=
  String.append (String.substring 0 64 "0123456789abcdef0123456789abcdef0123456789abcdef0123456789abcd")
    (if (String.length s =? 8)%nat then "00" else "01").
Definition sample_record : json := record sample_hash (Some "task-1") "output" [("tool", VStr "bash")].
Definition sample_loads (s : string) : option json :=
  if String.eqb s "record" then Some (sort_keys sample_record) else None.

Lemma stored_result_is_returned_witness :
  (get_bytes sample_hash sample_loads (reference_of sample_hash (Some "task-1") "output") (Some "task-1")
    (put sample_hash (λ _, "record") (Text "output") (Some "task-1") [("tool", VStr "bash")] ∅).1).2 = Ok "output".
Proof.
  destruct (stored_result_is_returned sample_hash (λ _, "record") sample_loads
    (λ b, ltac:(unfold sample_hash; destruct (String.length b =? 8)%nat; split; reflexivity))
    (Text "output") (Some "task-1") [("tool", VStr "bash")] ∅) as (Hput & Hget & _).
  - vm_compute. reflexivity.
  - rewrite Hput. cbn [fst]. specialize (Hget (Some "task-1")). cbn zeta in Hget.
    change (payload_of (Text "output")) with "output" in Hget. rewrite Hget. reflexivity.
Defined.

Lemma only_intact_results_are_read_witness :
  let r := reference_of sample_hash (Some "task-1") "output" in
  let st := stored sample_hash (λ _, "record") (Text "output") (Some "task-1") [("tool", VStr "bash")] ∅ in
  st !! (r +:+ ".bin") = Some "output".
Proof.
  intros r st. apply (only_intact_results_are_read sample_hash sample_loads r (Some "task-1") st st "output").
  vm_compute. reflexivity.
Defined.

Lemma references_are_distinct_witness :
  default "" None = default "" (Some "") ∧ "x" = "x".
Proof.
  apply (references_are_distinct sample_hash None (Some "") "x" "x"); [reflexivity|reflexivity|reflexivity|reflexivity].
Defined.
