(* ===== verification/Progress.v ===== *)
(** * Stall and refusal detection: [client/runtime/progress_monitor.py] and
      [client/harness/refusal_breaker.py]

    [ProgressMonitor] counts consecutive actions that gained nothing, an
    action being known by a fingerprint and a windowed read of a file by the
    blocks it showed; [RefusalBreaker] counts refusals of one operation.
    Shell word splitting and quoting ([shlex]), the JSON writer and [int] are
    parameters; regular expressions are spelled out as scanners on code
    points below 256. *)

From Stdlib Require Import Ascii.
From stdpp Require Import sorting.
From S2P Require Import Prelude Texts.

Open Scope py_scope.

(** ** Characters *)

Definition is_digit (c : ascii) : bool := let n := N_of_ascii c in ((48 <=? n) && (n <=? 57))%N.

(** The class [\w]. *)
Definition is_word (c : ascii) : bool :=
  let n := N_of_ascii c in
  ((48 <=? n) && (n <=? 57) || (65 <=? n) && (n <=? 90) || (n =? 95) || (97 <=? n) && (n <=? 122)
   || (n =? 170) || (n =? 178) || (n =? 179) || (n =? 181) || (n =? 185) || (n =? 186)
   || (188 <=? n) && (n <=? 190) || (192 <=? n) && (n <=? 214) || (216 <=? n) && (n <=? 246)
   || (248 <=? n))%N.

(** The longest prefix in a class, and the rest. *)
Fixpoint span (f : ascii → bool) (s : string) : string * string :=
  match s with
  | String c s' => if f c then let '(a, b) := span f s' in (String c a, b) else (EmptyString, s)
  | EmptyString => (EmptyString, EmptyString)
  end.

Fixpoint digits_value (acc : Z) (s : string) : Z :=
  match s with
  | EmptyString => acc
  | String c s' => digits_value (10 * acc + Z.of_N (N_of_ascii c - 48)) s'
  end.

Fixpoint all_digits (s : string) : bool :=
  match s with EmptyString => true | String c s' => is_digit c && all_digits s' end.
Definition number (s : string) : bool := str_true s && all_digits s.

(** [s.split()] *)
Fixpoint words_from (current : string) (s : string) : list string :=
  match s with
  | EmptyString => if str_true current then [current] else []
  | String c s' =>
      if py_isspace c then if str_true current then current :: words_from "" s' else words_from "" s'
      else words_from (current +:+ String c EmptyString) s'
  end.
Definition py_split (s : string) : list string := words_from "" s.
Definition join_words (l : list string) : string := String.concat " " l.

(** [s.rsplit("/", 1)[-1]] *)
Definition basename (s : string) : string := List.last (split_on "/"%char s) "".

(** ** What an action looked at *)

Section shell.
  Context (shlex_split : string → option (list string)) (shlex_join : list string → string).
  Context (dumps : json → string).

(** [_normalise_command] *)
Definition normalise_command (command : string) : string :=
  match shlex_split command with
  | Some argv => shlex_join argv
  | None => join_words (py_split command)
  end.

(** [_INSPECTION_BINARIES] *)
Definition INSPECTION_BINARIES : list string :=
  ["cat"; "head"; "tail"; "od"; "hexdump"; "xxd"; "strings"; "nl"; "less"; "more"; "bat"; "wc";
   "stat"; "file"; "sed"; "cut"; "tr"; "fold"; "rev"; "column"].

Definition COMMAND_TOOLS : list string := ["bash"; "terminal"].

(** The first argument that looks like a path. *)
Fixpoint path_argument (arguments : list string) : option string :=
  match arguments with
  | [] => None
  | argument :: rest =>
      if String.prefix "-" argument then path_argument rest
      else if contains "/" argument || contains "." argument then Some argument
      else path_argument rest
  end.

(** [_inspected_path] *)
Definition inspected_path (command : string) : option string :=
  match shlex_split command with
  | Some (program :: rest) =>
      if bool_decide (basename program ∈ INSPECTION_BINARIES) then path_argument rest else None
  | _ => None
  end.

(** [_BLOCK] *)
Definition BLOCK : Z := 100.

(** [_SED_RANGE]: the first line, and the last where one is given: [Some
    None] is the end of the file. *)
Definition sed_range (item : string) : option (Z * option (option Z)) :=
  let '(first, rest) := span is_digit item in
  if negb (str_true first) then None else
  let finish last rest :=
    if bool_decide (rest = "p" ∨ rest = String "p"%char (String "010"%char EmptyString))
    then Some (digits_value 0 first, last) else None in
  match rest with
  | String "," (String "$" rest') => finish (Some None) rest'
  | String "," rest' =>
      let '(last, rest'') := span is_digit rest' in
      if str_true last then finish (Some (Some (digits_value 0 last))) rest'' else None
  | _ => finish None rest
  end.

(** The window of a [sed] command: the first address found. *)
Fixpoint sed_window (items : list string) : option (Z * option Z) :=
  match items with
  | [] => None
  | item :: items =>
      match sed_range item with
      | Some (start, None) => Some (start, Some start)
      | Some (start, Some last) => Some (start, last)
      | None => sed_window items
      end
  end.

(** [-n?[+-]?\d+] in full. *)
Definition count_option (item : string) : bool :=
  match item with
  | String "-" s =>
      let s := match s with String "n" t => t | _ => s end in
      let s := match s with String "+" t | String "-" t => t | _ => s end in
      number s
  | _ => false
  end.

(** [item.lstrip("-n")] *)
Fixpoint strip_count (item : string) : string :=
  match item with
  | String "-" s | String "n" s => strip_count s
  | _ => item
  end.

(** The line count of [head] and [tail]: the last one given. *)
Fixpoint window_count (count : option string) (items : list string) : option string :=
  match items with
  | [] => count
  | item :: rest =>
      match rest with
      | next :: _ => if String.eqb item "-n" then window_count (Some next) rest
                     else if count_option item then window_count (Some (strip_count item)) rest
                     else window_count count rest
      | [] => if count_option item then Some (strip_count item) else count
      end
  end.

(** [[+-]?\d+] in full, and its value. *)
Definition signed (s : string) : option Z :=
  match s with
  | String "+" t => if number t then Some (digits_value 0 t) else None
  | String "-" t => if number t then Some (- digits_value 0 t)%Z else None
  | _ => if number s then Some (digits_value 0 s) else None
  end.

(** The evidence of a window: one block, or none for the last lines. *)
Inductive window := Lines (start : Z) (last : option Z) | LastLines (n : Z) | NoWindow.

Definition window_of (binary : string) (items : list string) : window :=
  if String.eqb binary "sed" then
    match sed_window items with Some (start, last) => Lines start last | None => NoWindow end
  else if String.eqb binary "head" || String.eqb binary "tail" then
    match window_count None items with
    | Some count =>
        match signed count with
        | Some n =>
            if String.eqb binary "head" then Lines 1 (Some (Z.abs n))
            else if String.prefix "+" count then Lines n None
            else LastLines (Z.abs n)
        | None => NoWindow
        end
    | None => NoWindow
    end
  else NoWindow.

(** The numbers [range(first, last)] of the blocks of lines [start .. last]. *)
Definition blocks (start : Z) (last : option Z) : list Z :=
  let last := default (start + BLOCK)%Z last in
  let first_block := ((start - 1) / BLOCK)%Z in
  let end_block := ((Z.max last start - 1) / BLOCK + 1)%Z in
  (λ i, first_block + Z.of_nat i)%Z <$> seq 0 (Z.to_nat (end_block - first_block)).

Definition block_name (path : string) (block : Z) : string :=
  path +:+ "#L" +:+ pretty (block * BLOCK)%Z.

Definition read_evidence (command : string) : list string :=
  match inspected_path command, shlex_split command with
  | Some path, Some (program :: items) =>
      match window_of (basename program) items with
      | Lines start last => block_name path <$> blocks start last
      | LastLines n => [path +:+ "#tail" +:+ pretty n]
      | NoWindow => []
      end
  | _, _ => []
  end.

(** The command of a command tool. *)
Definition command_of (tool_name : string) (arguments : dict string json) : option string :=
  if bool_decide (tool_name ∈ COMMAND_TOOLS) then
    match dict_get arguments "command" with Some (JStr command) => Some command | _ => None end
  else None.

Definition action_fingerprint (tool_name : string) (arguments : dict string json) : string :=
  match command_of tool_name arguments with
  | Some command =>
      match inspected_path command with
      | Some path => "bash:read:" +:+ path
      | None => tool_name +:+ ":" +:+
          dumps (JObj (dict_set "command" (JStr (normalise_command command)) arguments))
      end
  | None => tool_name +:+ ":" +:+ dumps (JObj arguments)
  end.
End shell.

(** ** The progress monitor *)

Record ProgressObservation := mk_observation {
  fingerprint : string;
  repeated : bool;
  consecutive_without_progress : Z;
  stalled : bool;
}.

Record ProgressMonitor := mk_monitor {
  stall_threshold : Z;
  last_fingerprint : option string;
  without_progress : Z;
  evidence : gset string;
}.

#[export] Instance eta_ProgressMonitor : Eta ProgressMonitor := λ m,
  mk_monitor m.(stall_threshold) m.(last_fingerprint) m.(without_progress) m.(evidence).

Inductive exn := ValueError (msg : string) | TypeError.

(** [ProgressMonitor(stall_threshold)] *)
Definition new_monitor (threshold : Z) : res exn ProgressMonitor :=
  do? rguard (2 <=? threshold)%Z (ValueError "stall_threshold must be at least 2") in
  Ok (mk_monitor threshold None 0 ∅).

(** One observed action: its call, what it gained, and whether it returned
    what the turn already had. *)
Record action := mk_action {
  tool_name : string;
  arguments : dict string json;
  new_items : list string;
  mutation : bool;
  verification : bool;
  fruitless : bool;
}.

Section monitor.
  Context (shlex_split : string → option (list string)) (shlex_join : list string → string).
  Context (dumps : json → string) (to_int : json → res exn Z).

(** The evidence of an action, with the blocks a windowed read showed. *)
Definition shown (a : action) : list string :=
  a.(new_items) ++
  match command_of a.(tool_name) a.(arguments) with
  | Some command => read_evidence shlex_split command
  | None => []
  end.

Definition fingerprint_of (a : action) : string :=
  action_fingerprint shlex_split shlex_join dumps a.(tool_name) a.(arguments).

Definition observe_action (a : action) (m : ProgressMonitor) : ProgressMonitor * ProgressObservation :=
  let fp := fingerprint_of a in
  let items := shown a in
  let new_evidence := existsb (λ item, str_true item && negb (bool_decide (item ∈ m.(evidence)))) items in
  let m := m <| evidence ::= λ e, e ∪ list_to_set (List.filter str_true items) |> in
  let progress := a.(mutation) || a.(verification) || new_evidence in
  let again := bool_decide (m.(last_fingerprint) = Some fp) && negb progress in
  let count := if progress then 0%Z
               else if again || a.(fruitless) then (m.(without_progress) + 1)%Z else 0%Z in
  let m := m <| without_progress := count |> <| last_fingerprint := Some fp |> in
  (m, mk_observation fp again count (m.(stall_threshold) - 1 <=? count)%Z).

Definition record_progress (item : string) (m : ProgressMonitor) : ProgressMonitor :=
  (if str_true item then m <| evidence ::= λ e, e ∪ {[item]} |> else m) <| without_progress := 0%Z |>.

(** [sorted(self._evidence)] *)
Definition string_le (a b : string) : Prop := String.leb a b = true.
#[export] Instance string_le_dec a b : base.Decision (string_le a b).
Proof. unfold string_le. apply _. Defined.

Definition to_dict (m : ProgressMonitor) : json :=
  JObj [("schema_version", JInt 1); ("stall_threshold", JInt m.(stall_threshold));
        ("last_fingerprint", match m.(last_fingerprint) with Some s => JStr s | None => JNull end);
        ("without_progress", JInt m.(without_progress));
        ("evidence", JList (JStr <$> merge_sort string_le (elements m.(evidence))))].

Definition is_one (j : json) : bool :=
  match j with JInt n => (n =? 1)%Z | JBool b => b | _ => false end.

Definition from_dict (raw : json) : res exn ProgressMonitor :=
  match raw with
  | JObj d =>
      do? rguard (is_one (dict_get_default d "schema_version" JNull))
            (ValueError "unsupported progress monitor state") in
      let? threshold := to_int (dict_get_default d "stall_threshold" (JInt 4)) in
      let? m := new_monitor threshold in
      let? last := match dict_get_default d "last_fingerprint" JNull with
                   | JNull => Ok None
                   | JStr s => Ok (Some s)
                   | _ => Raise (ValueError "invalid last action fingerprint")
                   end in
      let? count := match dict_get_default d "without_progress" (JInt 0) with
                    | JInt n => if (n <? 0)%Z then Raise (ValueError "invalid progress count") else Ok n
                    | JBool b => Ok (if b then 1%Z else 0%Z)
                    | _ => Raise (ValueError "invalid progress count")
                    end in
      let? items := match dict_get_default d "evidence" (JList []) with
                    | JList l =>
                        of_option (ValueError "invalid progress evidence")
                          (mapM (λ x, match x with JStr s => Some s | _ => None end) l)
                    | _ => Raise (ValueError "invalid progress evidence")
                    end in
      Ok (mk_monitor threshold last count (list_to_set items))
  | _ => Raise (ValueError "unsupported progress monitor state")
  end.
End monitor.

(** ** The refusal breaker *)

(** [text or ""] of an argument, as text. *)
Definition argument_text (float_eq : string → Z → bool) (str : json → string) (arguments : json)
    (name : string) : string :=
  match arguments with
  | JObj d =>
      let v := dict_get_default d name JNull in
      if py_true float_eq v then str v else ""
  | _ => ""
  end.

Fixpoint remove_quotes (s : string) : string :=
  match s with
  | EmptyString => EmptyString
  | String c s' =>
      if Ascii.eqb c "034"%char || Ascii.eqb c "'"%char then remove_quotes s' else String c (remove_quotes s')
  end.

(** Remove "./" where the character before it is not of a word nor a dot. *)
Fixpoint remove_dot_slash (before : option ascii) (s : string) : string :=
  match s with
  | String c s' =>
      let free := match before with Some b => negb (is_word b || Ascii.eqb b "."%char) | None => true end in
      match s' with
      | String "/" s'' =>
          if Ascii.eqb c "."%char && free then remove_dot_slash (Some "/"%char) s''
          else String c (remove_dot_slash (Some c) s')
      | _ => String c (remove_dot_slash (Some c) s')
      end
  | EmptyString => EmptyString
  end.

(** Remove the slashes before a blank or the end. *)
Fixpoint slashes_end (s : string) : bool :=
  match s with
  | EmptyString => true
  | String c s' => if Ascii.eqb c "/"%char then slashes_end s' else py_isspace c
  end.

Fixpoint remove_trailing_slashes (s : string) : string :=
  match s with
  | EmptyString => EmptyString
  | String c s' =>
      if Ascii.eqb c "/"%char && slashes_end s' then remove_trailing_slashes s'
      else String c (remove_trailing_slashes s')
  end.

(** [_target] *)
Definition target (float_eq : string → Z → bool) (str : json → string) (name : string) (arguments : json) : string :=
  let text := argument_text float_eq str arguments in
  let t := if String.eqb name "terminal" then text "command" else str_or (text "path") (text "pattern") in
  join_words (py_split (remove_trailing_slashes (remove_dot_slash None (remove_quotes t)))).

(** A character of a path component. *)
Definition path_char (c : ascii) : bool :=
  is_word c || bool_decide (c ∈ ["."; "@"; "+"; "-"]%char).

(** The rest after the longest path at the start, of at most [fuel]
    components. *)
Fixpoint skip_path (fuel : nat) (s : string) : option string :=
  match fuel, s with
  | S fuel, String "/" s' =>
      let '(component, rest) := span path_char s' in
      if str_true component then
        Some (match skip_path fuel rest with
              | Some rest' => rest'
              | None => match rest with String "/" rest' => rest' | _ => rest end
              end)
      else None
  | _, _ => None
  end.

Fixpoint mask_paths (fuel : nat) (s : string) : string :=
  match fuel, s with
  | S fuel, String c s' =>
      match skip_path (String.length s) s with
      | Some rest => "<path>" +:+ mask_paths fuel rest
      | None => String c (mask_paths fuel s')
      end
  | _, _ => EmptyString
  end.

Fixpoint mask_numbers (inside : bool) (s : string) : string :=
  match s with
  | EmptyString => EmptyString
  | String c s' =>
      if is_digit c then if inside then mask_numbers true s' else String "#" (mask_numbers true s')
      else String c (mask_numbers false s')
  end.

Definition first_line (s : string) : string := fst (span (λ c, negb (line_break c)) s).

(** [_reason] of a result, as text. *)
Definition reason (result : string) : string :=
  let first := first_line (py_strip result) in
  String.substring 0 160
    (mask_numbers false (mask_paths (S (String.length first)) first)).

Abbreviation signature_key := (string * string * string)%type.

Record RefusalBreaker := mk_breaker {
  limit : Z;
  counts : dict signature_key Z;
  tripped : option signature_key;
}.

#[export] Instance eta_RefusalBreaker : Eta RefusalBreaker := λ b, mk_breaker b.(limit) b.(counts) b.(tripped).

Definition new_breaker (n : Z) : RefusalBreaker := mk_breaker (Z.max 1 n) [] None.

Section breaker.
  Context (float_eq : string → Z → bool) (str : json → string).

Definition signature (name : string) (arguments : json) (result : string) : signature_key :=
  (name, target float_eq str name arguments, reason result).

(** One tool result, and whether it was a refusal. *)
Record outcome := mk_outcome {
  o_name : string;
  o_arguments : json;
  o_result : string;
  o_refused : bool;
}.

Definition is_tripped (b : RefusalBreaker) : bool :=
  match b.(tripped) with Some _ => true | None => false end.

(** [RefusalBreaker.observe] *)
Definition observe (o : outcome) (b : RefusalBreaker) : RefusalBreaker * bool :=
  if negb o.(o_refused) || is_tripped b then (b, is_tripped b)
  else
    let key := signature o.(o_name) o.(o_arguments) o.(o_result) in
    let b := b <| counts := dict_set key (dict_get_default b.(counts) key 0 + 1)%Z b.(counts) |> in
    let b := if (b.(limit) <=? dict_get_default b.(counts) key 0)%Z
             then b <| tripped := Some key |> else b in
    (b, is_tripped b).

(** [conclusion]: what it says of the operation, and how often it was
    refused; [None] where no operation tripped it. *)
Definition conclusion (b : RefusalBreaker) : option string :=
  (λ key : signature_key, let '(name, target, why) := key in
     "I stopped: the same " +:+ name +:+ " operation (" +:+ str_or target "no target" +:+ ") was refused "
     +:+ pretty (dict_get_default b.(counts) key 0%Z) +:+ " times, and repeating it cannot change that. The refusal was: "
     +:+ why +:+ ". The changes made before this point, if any, are listed above; the remaining step needs a different approach or an operator decision.")
  <$> b.(tripped).
End breaker.

(** ** Correctness of stall and refusal detection

    A stall is reported exactly when the last actions were all without gain;
    a windowed read gains exactly when it reaches a block not yet shown; a
    monitor survives its snapshot; and the breaker trips on the first
    operation refused as often as its limit. *)

Section monitor.
  Context (shlex_split : string → option (list string)) (shlex_join : list string → string).
  Context (dumps : json → string).

#[local] Abbreviation shown := (shown shlex_split).
#[local] Abbreviation fingerprint_of := (fingerprint_of shlex_split shlex_join dumps).
#[local] Abbreviation observe_action := (observe_action shlex_split shlex_join dumps).

(** ** What a history gained *)

(** What happens to a monitor, newest first. *)
Inductive event := Acted (a : action) | Progressed (item : string).

Definition items_of (e : event) : list string :=
  match e with Acted a => shown a | Progressed item => [item] end.

Definition seen (h : list event) : gset string := list_to_set (List.filter str_true (mjoin (items_of <$> h))).

Fixpoint previous_fingerprint (h : list event) : option string :=
  match h with
  | [] => None
  | Acted a :: _ => Some (fingerprint_of a)
  | Progressed _ :: h => previous_fingerprint h
  end.

(** The action changed or verified something, or showed something new. *)
Definition gained (h : list event) (a : action) : Prop :=
  mutation a = true ∨ verification a = true ∨ ∃ item, item ∈ shown a ∧ item ≠ "" ∧ item ∉ seen h.

(** An action without gain that repeats the one before it, or returned what
    the turn already had. *)
Definition unproductive (h : list event) (a : action) : Prop :=
  ¬ gained h a ∧ (previous_fingerprint h = Some (fingerprint_of a) ∨ fruitless a = true).

(** All events of [recent], which followed [older], were unproductive actions. *)
Fixpoint all_unproductive (recent older : list event) : Prop :=
  match recent with
  | [] => True
  | Acted a :: recent => unproductive (recent ++ older) a ∧ all_unproductive recent older
  | Progressed _ :: _ => False
  end.

Fixpoint monitor_after (threshold : Z) (h : list event) : ProgressMonitor :=
  match h with
  | [] => mk_monitor threshold None 0 ∅
  | Acted a :: h => (observe_action a (monitor_after threshold h)).1
  | Progressed item :: h => record_progress item (monitor_after threshold h)
  end.

(** ** The state follows the history *)

Lemma seen_cons e h : seen (e :: h) = list_to_set (List.filter str_true (items_of e)) ∪ seen h.
Proof. unfold seen. cbn. by rewrite List.filter_app, list_to_set_app_L. Qed.

Lemma seen_elem item h : item ∈ seen h → item ≠ "".
Proof.
  unfold seen. rewrite elem_of_list_to_set, list_elem_of_In. intros [_ Ht]%filter_In ->. done.
Qed.

Definition gain (a : action) (m : ProgressMonitor) : bool :=
  mutation a || verification a ||
  existsb (λ item, str_true item && negb (bool_decide (item ∈ evidence m))) (shown a).

Lemma gain_spec a m h : evidence m = seen h → gain a m = true ↔ gained h a.
Proof.
  intros He. unfold gain, gained. rewrite !orb_true_iff, He. split.
  - intros [[?|?]|(item & Hin%list_elem_of_In & Ht)%existsb_exists]; [by left|by right; left|right; right].
    apply andb_true_iff in Ht as [Ht Hn%negb_true_iff%bool_decide_eq_false].
    exists item. split_and!; [done|by intros ->|done].
  - intros [?|[?|(item & Hin & Hne & Hn)]]; [by left; left|by left; right|right].
    apply existsb_exists. exists item. split; [by apply list_elem_of_In|].
    rewrite bool_decide_eq_false_2 by done. unfold str_true.
    by destruct (String.eqb_spec item "").
Qed.

Lemma observe_run a m :
  observe_action a m =
    let count := if gain a m then 0%Z
                 else if bool_decide (last_fingerprint m = Some (fingerprint_of a)) || fruitless a
                      then (without_progress m + 1)%Z else 0%Z in
    (mk_monitor (stall_threshold m) (Some (fingerprint_of a)) count
       (evidence m ∪ list_to_set (List.filter str_true (shown a))),
     mk_observation (fingerprint_of a)
       (bool_decide (last_fingerprint m = Some (fingerprint_of a)) && negb (gain a m)) count
       (stall_threshold m - 1 <=? count)%Z).
Proof.
  destruct m as [threshold last count e]. unfold Progress.observe_action, gain, set_field. cbn [evidence last_fingerprint].
  destruct (mutation a || verification a || _); cbn [negb andb]; [by rewrite !andb_false_r|].
  by rewrite !andb_true_r.
Qed.

Lemma monitor_state threshold h :
  stall_threshold (monitor_after threshold h) = threshold ∧
  evidence (monitor_after threshold h) = seen h ∧
  last_fingerprint (monitor_after threshold h) = previous_fingerprint h ∧
  (0 ≤ without_progress (monitor_after threshold h))%Z.
Proof.
  induction h as [|[a|item] h (Ht & He & Hl & Hw)]; [done| |].
  - cbn [monitor_after]. rewrite observe_run. cbv zeta. cbn [fst stall_threshold evidence last_fingerprint without_progress]. rewrite Ht, He, seen_cons. split_and!; [done| |done|].
    + by rewrite (comm_L (∪)).
    + repeat case_match; lia.
  - cbn [monitor_after previous_fingerprint]. unfold record_progress. rewrite seen_cons. cbn [items_of List.filter].
    destruct (str_true item); cbn; rewrite Ht, He; split_and!; try done; set_solver.
Qed.

Lemma unproductive_spec threshold h a :
  unproductive h a ↔
    gain a (monitor_after threshold h) = false ∧
    (last_fingerprint (monitor_after threshold h) = Some (fingerprint_of a) ∨ fruitless a = true).
Proof.
  destruct (monitor_state threshold h) as (_ & He & Hl & _). unfold unproductive. rewrite Hl.
  by rewrite <- (gain_spec _ _ _ He), not_true_iff_false.
Qed.

Lemma count_run threshold h a :
  (unproductive h a ∧ without_progress (monitor_after threshold (Acted a :: h)) =
     (without_progress (monitor_after threshold h) + 1)%Z) ∨
  (¬ unproductive h a ∧ without_progress (monitor_after threshold (Acted a :: h)) = 0%Z).
Proof.
  rewrite (unproductive_spec threshold). cbn [monitor_after]. rewrite observe_run. cbv zeta.
  cbn [fst without_progress]. destruct (gain a _); [right; naive_solver|].
  case_bool_decide as Hf; cbn [orb]; [left; auto|]. destruct (fruitless a); [left; auto|right; naive_solver].
Qed.

Lemma streak threshold h n :
  (Z.of_nat n ≤ without_progress (monitor_after threshold h))%Z ↔
  ∃ recent older, h = recent ++ older ∧ length recent = n ∧ all_unproductive recent older.
Proof.
  revert n. induction h as [|[a|item] h IH]; intros [|n].
  - split; [intros _; by exists [], []|intros _; cbn; lia].
  - cbn. split; [lia|]. by intros ([|] & ? & ? & ? & _).
  - split; [intros _; by eexists [], _|intros _].
    by destruct (monitor_state threshold (Acted a :: h)) as (_ & _ & _ & ?).
  - destruct (count_run threshold h a) as [[Hu ->]|[Hu ->]].
    + transitivity (Z.of_nat n ≤ without_progress (monitor_after threshold h))%Z; [lia|]. rewrite IH. split.
      * intros (recent & older & -> & <- & Hall). by exists (Acted a :: recent), older.
      * intros ([|e recent] & older & Heq & Hlen & Hall); [done|]. injection Heq as <- ->.
        injection Hlen as <-. exists recent, older. destruct Hall. done.
    + split; [lia|]. intros ([|e recent] & older & Heq & Hlen & Hall); [done|]. injection Heq as <- ->.
      by destruct Hall.
  - split; [intros _; by eexists [], _|intros _].
    by destruct (monitor_state threshold (Progressed item :: h)) as (_ & _ & _ & ?).
  - assert (without_progress (monitor_after threshold (Progressed item :: h)) = 0%Z) as ->.
    { cbn [monitor_after]. unfold record_progress. by destruct (str_true item). }
    split; [lia|]. intros ([|e recent] & older & Heq & Hlen & Hall); [done|]. by injection Heq as <- _.
Qed.

(** A stall is reported exactly when it is one.  After any history of
    actions and recorded progress, the observation of an action says stalled
    exactly when it and the actions just before it, as many as the threshold
    less one, were all unproductive: none changed or verified anything or
    showed evidence not seen before, and each repeated the action before it
    or only returned what the turn already had.  The counter it reports and
    the repetition flag follow the history alike. *)
Theorem stall_is_reported_exactly threshold h a :
  (2 ≤ threshold)%Z →
  let o := (observe_action a (monitor_after threshold h)).2 in
  (stalled o = true ↔
     ∃ recent older, Acted a :: h = recent ++ older ∧ Z.of_nat (length recent) = (threshold - 1)%Z ∧
       all_unproductive recent older) ∧
  (∀ n, (Z.of_nat n ≤ consecutive_without_progress o)%Z ↔
     ∃ recent older, Acted a :: h = recent ++ older ∧ length recent = n ∧ all_unproductive recent older) ∧
  (repeated o = true ↔ previous_fingerprint h = Some (fingerprint_of a) ∧ ¬ gained h a).
Proof.
  intros Hthr o. destruct (monitor_state threshold h) as (Ht & He & Hl & _).
  assert (Hcount : consecutive_without_progress o = without_progress (monitor_after threshold (Acted a :: h)))
    by (unfold o; cbn [monitor_after]; rewrite observe_run; done).
  assert (Hst : stalled o = (threshold - 1 <=? consecutive_without_progress o)%Z)
    by (unfold o; rewrite observe_run, Ht; done).
  assert (Hrep : repeated o = bool_decide (previous_fingerprint h = Some (fingerprint_of a))
                              && negb (gain a (monitor_after threshold h)))
    by (unfold o; rewrite observe_run, Hl; done).
  rewrite Hst, Hcount, Hrep. split_and!.
  - rewrite Z.leb_le. replace (threshold - 1)%Z with (Z.of_nat (Z.to_nat (threshold - 1))) by lia.
    rewrite streak. split; intros (recent & older & Heq & Hlen & Hall); exists recent, older; split_and!; (done || lia).
  - intros n. apply streak.
  - rewrite andb_true_iff, bool_decide_eq_true, negb_true_iff, <- (gain_spec _ _ _ He). by rewrite not_true_iff_false.
Qed.

(** ** Windowed reads *)

Lemma blocks_spec start last k :
  k ∈ blocks start last ↔
  ∃ n, (start ≤ n ≤ Z.max (default (start + BLOCK) last) start ∧ k = (n - 1) / BLOCK)%Z.
Proof.
  unfold blocks. cbv zeta. rewrite list_elem_of_fmap. unfold BLOCK. generalize (default (start + 100) last)%Z as l.
  intros l. split.
  - intros (i & -> & Hi%elem_of_seq). exists (Z.max start (((start - 1) / 100 + Z.of_nat i) * 100 + 1)).
    revert Hi. Z.to_euclidean_division_equations. lia.
  - intros (n & Hn & ->). exists (Z.to_nat ((n - 1) / 100 - (start - 1) / 100)). split.
    + Z.to_euclidean_division_equations. lia.
    + apply elem_of_seq. Z.to_euclidean_division_equations. lia.
Qed.

(** A windowed read gains exactly when it reaches a block not shown yet.
    A [sed], [head] or [tail] command that shows the lines from [start] on
    (to [last], or one block further when it runs to the end) is known by
    its file alone, whatever the window; its evidence is the blocks of a
    hundred lines its window meets; so it counts as progress exactly when
    one of its lines lies in a block of that file not seen before. *)
Theorem windowed_read_gains_new_blocks h a command path program items start last :
  command_of (tool_name a) (arguments a) = Some command →
  inspected_path shlex_split command = Some path → shlex_split command = Some (program :: items) →
  window_of (basename program) items = Lines start last →
  new_items a = [] → mutation a = false → verification a = false →
  fingerprint_of a = "bash:read:" +:+ path ∧
  (gained h a ↔ ∃ n, (start ≤ n ≤ Z.max (default (start + BLOCK) last) start)%Z ∧
                     block_name path ((n - 1) / BLOCK) ∉ seen h).
Proof.
  intros Hcmd Hpath Hsplit Hwin Hnew Hmut Hver. split.
  - unfold Progress.fingerprint_of, action_fingerprint. by rewrite Hcmd, Hpath.
  - assert (Hshown : shown a = block_name path <$> blocks start last).
    { unfold Progress.shown, read_evidence. by rewrite Hnew, Hcmd, Hpath, Hsplit, Hwin. }
    unfold gained. rewrite Hmut, Hver, Hshown. split.
    + intros [?|[?|(item & (k & -> & Hk)%list_elem_of_fmap & _ & Hn)]]; [done..|].
      apply blocks_spec in Hk as (n & Hr & ->). by exists n.
    + intros (n & Hr & Hn). right; right. exists (block_name path ((n - 1) / BLOCK)). split_and!; [|by destruct path|done].
      apply list_elem_of_fmap. exists ((n - 1) / BLOCK)%Z. split; [done|]. apply blocks_spec. by exists n.
Qed.
End monitor.

(** ** Snapshots *)

Section snapshot.
  Context (to_int : json → res exn Z).
  Hypothesis to_int_integer : ∀ n, to_int (JInt n) = Ok n.

Lemma mapM_strings l :
  mapM (λ x, match x with JStr s => Some s | _ => None end) (JStr <$> l) = Some l.
Proof. induction l as [|s l IH]; [done|]. cbn. by rewrite IH. Qed.

(** A monitor survives its snapshot: one with a valid threshold and
    count, as every monitor in use has, is restored exactly. *)
Theorem monitor_snapshot_roundtrip m :
  (2 ≤ stall_threshold m)%Z → (0 ≤ without_progress m)%Z →
  from_dict to_int (to_dict m) = Ok m.
Proof using to_int_integer.
  intros Hthr Hcount. destruct m as [threshold last count e]. cbn in Hthr, Hcount.
  unfold from_dict, to_dict. cbn [stall_threshold last_fingerprint without_progress evidence].
  unfold dict_get_default.
  change (dict_get _ "schema_version") with (Some (JInt 1)).
  change (dict_get _ "stall_threshold") with (Some (JInt threshold)).
  change (dict_get _ "last_fingerprint") with (Some (match last with Some s => JStr s | None => JNull end)).
  change (dict_get _ "without_progress") with (Some (JInt count)).
  change (dict_get _ "evidence") with (Some (JList (JStr <$> merge_sort string_le (elements e)))).
  cbn [default from_option id is_one rguard rbind Z.eqb]. unfold id. rewrite to_int_integer. cbn [rbind].
  unfold new_monitor. rewrite (proj2 (Z.leb_le 2 threshold)) by done. cbn [rguard rbind].
  rewrite (proj2 (Z.ltb_ge count 0)) by done. rewrite mapM_strings.
  assert (Hset : list_to_set (merge_sort string_le (elements e)) = e).
  { apply set_eq. intros x. rewrite elem_of_list_to_set, (merge_sort_Permutation string_le (elements e)).
    apply elem_of_elements. }
  destruct last; cbn [rbind of_option]; by rewrite Hset.
Qed.
End snapshot.

(** ** The refusal breaker *)

Section breaker.
  Context (float_eq : string → Z → bool) (str : json → string).

#[local] Abbreviation observe := (observe float_eq str).

Definition signature_of (o : outcome) : signature_key :=
  signature float_eq str (o_name o) (o_arguments o) (o_result o).

(** How often an operation was refused. *)
Definition refusals (k : signature_key) (l : list outcome) : Z :=
  Z.of_nat (length (List.filter (λ o, o_refused o && bool_decide (signature_of o = k)) l)).

Definition observe_all (l : list outcome) (b : RefusalBreaker) : RefusalBreaker :=
  foldl (λ b o, (observe o b).1) b l.

Lemma refusals_snoc k l o :
  refusals k (l ++ [o]) = (refusals k l + if o_refused o && bool_decide (signature_of o = k) then 1 else 0)%Z.
Proof. unfold refusals. rewrite List.filter_app, length_app. cbn. case_match; cbn; lia. Qed.

(** The state after a list of outcomes. *)
Definition breaker_spec (n : Z) (l : list outcome) (b : RefusalBreaker) : Prop :=
  limit b = n ∧
  match tripped b with
  | None => ∀ k, (refusals k l < n)%Z ∧ dict_get_default (counts b) k 0%Z = refusals k l
  | Some k =>
      ∃ l1 o l2, l = l1 ++ o :: l2 ∧ o_refused o = true ∧ signature_of o = k ∧
        (∀ k', (refusals k' l1 < n)%Z) ∧ refusals k (l1 ++ [o]) = n ∧ dict_get_default (counts b) k 0%Z = n
  end.

Lemma observe_spec n l b o :
  breaker_spec n l b → breaker_spec n (l ++ [o]) (observe o b).1.
Proof.
  intros [Hl Hs]. unfold Progress.observe, is_tripped. destruct (tripped b) as [k|] eqn:Ht.
  - rewrite orb_true_r. cbn [fst]. split; [done|]. rewrite Ht.
    destruct Hs as (l1 & o1 & l2 & -> & ? & ? & ? & ? & ?). exists l1, o1, (l2 ++ [o]).
    split_and!; try done. by rewrite <- app_assoc.
  - rewrite orb_false_r. destruct (o_refused o) eqn:Hr; cbn [negb fst].
    2: { split; [done|]. rewrite Ht. intros k. rewrite refusals_snoc, Hr. cbn. specialize (Hs k). lia. }
    change (signature float_eq str (o_name o) (o_arguments o) (o_result o)) with (signature_of o).
    set (key := signature_of o) in *. destruct (Hs key) as [Hlt Hc]. rewrite Hc.
    set (b1 := b <| counts := dict_set key (refusals key l + 1)%Z (counts b) |>).
    assert (Hc1 : ∀ k, dict_get_default (counts b1) k 0%Z = refusals k (l ++ [o])).
    { intros k. rewrite refusals_snoc, Hr. unfold dict_get_default, b1. cbn [andb].
      change (counts (b <| counts := dict_set key (refusals key l + 1)%Z (counts b) |>))
        with (dict_set key (refusals key l + 1)%Z (counts b)).
      rewrite dict_get_set. fold key. case_decide as Heq.
      - subst k. by rewrite bool_decide_eq_true_2.
      - rewrite bool_decide_eq_false_2 by done. destruct (Hs k) as [_ Hk]. unfold dict_get_default in Hk. lia. }
    assert (Hl1 : limit b1 = n) by done. assert (Ht1 : tripped b1 = None) by done.
    rewrite Hc1, Hl1. clearbody b1. destruct (Z.leb_spec n (refusals key (l ++ [o]))) as [Hle|Hgt]; cbn [fst].
    + split; [done|]. change (tripped (b1 <| tripped := Some key |>)) with (Some key).
      exists l, o, []. assert (refusals key (l ++ [o]) = n) as Hn.
      { rewrite refusals_snoc in Hle |- *. revert Hle. case_match; lia. }
      split_and!; [done|done|done|apply Hs|done|].
      change (counts (b1 <| tripped := Some key |>)) with (counts b1). by rewrite Hc1.
    + split; [done|]. rewrite Ht1. intros k. split; [|apply Hc1]. rewrite refusals_snoc, Hr. cbn [andb].
      case_bool_decide as Heq; [|destruct (Hs k); lia]. subst k. rewrite refusals_snoc, Hr in Hgt.
      cbn [andb] in Hgt. by rewrite bool_decide_eq_true_2 in Hgt.
Qed.

(** The breaker trips exactly on the first operation refused as often as
    its limit (which is at least one).  While it has not tripped, every
    operation was refused fewer times and its counts are exact; once it has,
    it names the operation whose refusal was the first to reach the limit,
    stays tripped on it, and its conclusion counts that many refusals.
    Results that were not refusals change nothing. *)
Theorem breaker_trips_at_the_limit n l :
  let limit := Z.max 1 n in
  let b := observe_all l (new_breaker n) in
  match tripped b with
  | None => ∀ k, (refusals k l < limit)%Z ∧ dict_get_default (counts b) k 0%Z = refusals k l
  | Some k =>
      ∃ l1 o l2, l = l1 ++ o :: l2 ∧ o_refused o = true ∧ signature_of o = k ∧
        (∀ k', (refusals k' l1 < limit)%Z) ∧ refusals k (l1 ++ [o]) = limit ∧
        dict_get_default (counts b) k 0%Z = limit
  end ∧
  (∀ o, (observe o b).2 = is_tripped (observe o b).1 ∧ (o_refused o = false → (observe o b).1 = b)).
Proof.
  intros m b. split.
  - assert (Hspec : breaker_spec m l b); [|apply Hspec]. unfold b. clear b.
    induction l as [|o l IH] using rev_ind.
    + split; [done|]. cbn. intros k. unfold m, refusals. cbn. lia.
    + unfold observe_all. rewrite foldl_app. by apply observe_spec.
  - intros o. unfold Progress.observe. split.
    + by destruct (negb (o_refused o) || is_tripped b).
    + by intros ->.
Qed.
End breaker.

(** ** Examples *)

(** Words between single blanks, as the shell splits plain ones. *)
Definition plain_split (s : string) : option (list string) := Some (py_split s).
Definition plain_dumps (j : json) : string :=
  match j with JObj [(_, JStr command)] => command | _ => "" end.
Definition run_command (command : string) : action :=
  mk_action "bash" [("command", JStr command)] [] false false false.

(** The third build in a row, with nothing gained, is a stall of threshold 3. *)
Lemma stall_is_reported_exactly_witness :
  let build := run_command "make all" in
  ∃ recent older, Acted build :: [Acted build; Acted build] = recent ++ older ∧
    Z.of_nat (length recent) = 2%Z ∧ all_unproductive plain_split join_words plain_dumps recent older.
Proof.
  intros build.
  destruct (stall_is_reported_exactly plain_split join_words plain_dumps 3 [Acted build; Acted build] build
    ltac:(lia)) as [Hstall _].
  apply (proj1 Hstall). vm_compute. reflexivity.
Defined.

(** The second window of a file, after the first. *)
Lemma windowed_read_gains_new_blocks_witness :
  fingerprint_of plain_split join_words plain_dumps (run_command "sed -n 200,400p src/a.c") = "bash:read:src/a.c" ∧
  gained plain_split [Acted (run_command "sed -n 1,200p src/a.c")] (run_command "sed -n 200,400p src/a.c").
Proof.
  destruct (windowed_read_gains_new_blocks plain_split join_words plain_dumps
    [Acted (run_command "sed -n 1,200p src/a.c")] (run_command "sed -n 200,400p src/a.c")
    "sed -n 200,400p src/a.c" "src/a.c" "sed" ["-n"; "200,400p"; "src/a.c"] 200 (Some 400%Z)) as [Hfp Hgain];
    [vm_compute; reflexivity..|].
  split; [exact Hfp|]. apply Hgain. exists 300%Z. split; [split; vm_compute; discriminate|].
  apply (bool_decide_unpack _). vm_compute. exact I.
Defined.

Definition sample_int (j : json) : res exn Z :=
  match j with JInt n => Ok n | _ => Raise TypeError end.

Lemma monitor_snapshot_roundtrip_witness :
  from_dict sample_int (to_dict (mk_monitor 4 (Some "bash:make") 2 {["a.c"; "b.c"]})) =
    Ok (mk_monitor 4 (Some "bash:make") 2 {["a.c"; "b.c"]}).
Proof.
  apply (monitor_snapshot_roundtrip sample_int (λ n, eq_refl) (mk_monitor 4 (Some "bash:make") 2 {["a.c"; "b.c"]}));
    vm_compute; discriminate.
Defined.
