(* ===== verification/TrainingData.v ===== *)
(** * Training episodes: [client/training/training_data.py]

    An episode, a turn and a tool call are dataclasses whose fields hold any
    decoded value (a dataclass checks no types); turns and tool calls are
    their fields, in order.  [dict(x)] of something that is not an object is
    followed for pairs with string keys only. *)

From Stdlib Require Import Ascii.
From stdpp Require Import sorting.
From S2P Require Import Prelude Texts Values WorkingState.

Open Scope py_scope.

(** ** Data *)

Definition TRAINING_SCHEMA_VERSION : Z := 1.

(** [OtherError] is an exception the callers do not catch. *)
Inductive exn :=
  | TrainingDataError (msg : string)
  | OtherError (kind : string).

Inductive TrainingEligibility := POSITIVE_CANDIDATE | FAILURE_TRAJECTORY | INCOMPLETE | EXCLUDED.

#[export] Instance TrainingEligibility_eq_dec : EqDecision TrainingEligibility.
Proof. solve_decision. Defined.

#[export] Instance TrainingEligibility_enum : StrEnum TrainingEligibility := {|
  enum_members := [POSITIVE_CANDIDATE; FAILURE_TRAJECTORY; INCOMPLETE; EXCLUDED];
  enum_value e := match e with
    | POSITIVE_CANDIDATE => "positive_candidate" | FAILURE_TRAJECTORY => "failure_trajectory"
    | INCOMPLETE => "incomplete" | EXCLUDED => "excluded" end;
  enum_complete := ltac:(enum_all);
  enum_distinct := ltac:(enum_nodup) |}.

(** The fields of [TrainingToolCall] and [TrainingTurn], with their defaults. *)
Definition call_fields : list (string * option json) :=
  [("tool_call_id", None); ("name", None); ("arguments", None); ("action_id", Some JNull);
   ("status", Some JNull); ("model_content", Some JNull); ("result_reference", Some JNull);
   ("provenance", Some (JStr "tool_output"))].

Definition turn_fields : list (string * option json) :=
  [("turn_id", None); ("episode_id", None); ("task_id", None); ("session_id", None);
   ("turn_index", None); ("role", None); ("purpose", None); ("primary_candidate", None);
   ("system", None); ("messages", None); ("tool_view_hash", None); ("tool_names", None);
   ("tools_enabled", None); ("assistant_output", Some (JStr "")); ("stop_reason", Some JNull);
   ("tool_calls", Some (JList [])); ("labels", Some (JList [])); ("recovers_turn_ids", Some (JList []));
   ("mutation_generation_before", Some (JInt 0)); ("mutation_generation_after", Some (JInt 0));
   ("verification_generation", Some JNull); ("model_action_id", Some JNull); ("usage", Some JNull);
   ("error", Some JNull); ("provenance", Some (JList [])); ("memory_provenance_ids", Some (JList []))].

Record TrainingEpisode := mk_episode {
  episode_id : string;
  task_id : string;
  session_id : option string;
  timestamp : string;
  provenance : dict string json;
  task : dict string json;
  turns : list (dict string json);
  tool_views : dict string json;
  execution : dict string json;
  outcome : dict string json;
  training_metadata : dict string json;
}.

(** [TrainingEpisode.to_dict]; the schema version of an episode is always
    the current one, [from_dict] being the only constructor in use. *)
Definition to_dict (e : TrainingEpisode) : json :=
  JObj [("schema_version", JInt TRAINING_SCHEMA_VERSION); ("episode_id", JStr e.(episode_id));
        ("task_id", JStr e.(task_id));
        ("session_id", match e.(session_id) with Some s => JStr s | None => JNull end);
        ("timestamp", JStr e.(timestamp)); ("provenance", JObj e.(provenance)); ("task", JObj e.(task));
        ("turns", JList (JObj <$> e.(turns))); ("tool_views", JObj e.(tool_views));
        ("execution", JObj e.(execution)); ("outcome", JObj e.(outcome));
        ("training_metadata", JObj e.(training_metadata))].

(** The exceptions of [from_dict] that it turns into its own. *)
Definition malformed : exn := TrainingDataError "malformed training episode".

(** ** Reading *)

Definition py_dict (j : json) : res exn (dict string json) :=
  rmap_err (λ x, match x with NotPairs => malformed | KeyNotText => OtherError "a key that is not a string" end)
    (dict_of j).

(** [TrainingToolCall( **item )] *)
Definition call_of (item : json) : res exn json :=
  match item with
  | JObj m =>
      do? rguard (forallb (λ k, bool_decide (k ∈ call_fields.*1)) (dict_keys m)) malformed in
      let? call := construct malformed call_fields m in Ok (JObj call)
  | _ => Raise malformed
  end.

(** One turn; the keys it does not know are dropped. *)
Definition turn_of (value : json) : res exn (dict string json) :=
  match value with
  | JObj m =>
      let? items := of_option malformed (py_iter (dict_get_default m "tool_calls" (JList []))) in
      let? calls := rmapM call_of items in
      construct malformed turn_fields (dict_set "tool_calls" (JList calls) m)
  | _ => Raise (OtherError "AttributeError")
  end.

Definition required_keys : list string :=
  ["episode_id"; "task_id"; "timestamp"; "provenance"; "task"; "turns"; "tool_views"; "execution";
   "outcome"; "training_metadata"].

Section from_dict.
  Context (float_eq : string → Z → bool) (repr : json → string).

(** [TrainingEpisode.from_dict] *)
Definition from_dict (raw : json) : res exn TrainingEpisode :=
  match raw with
  | JObj m =>
      do? rguard (equals_int float_eq TRAINING_SCHEMA_VERSION (get_or_null m "schema_version"))
            (TrainingDataError "unsupported training schema") in
      do? rguard (forallb (λ k, dict_mem k m) required_keys) malformed in
      let get k := get_or_null m k in
      match get "turns" with
      | JList values =>
          let? ts := rmapM turn_of values in
          let? prov := py_dict (get "provenance") in
          let? tsk := py_dict (get "task") in
          let? views := py_dict (get "tool_views") in
          let? exec := py_dict (get "execution") in
          let? out := py_dict (get "outcome") in
          let? meta := py_dict (get "training_metadata") in
          Ok (mk_episode (py_str repr (get "episode_id")) (py_str repr (get "task_id"))
                (match get "session_id" with JNull => None | s => Some (py_str repr s) end)
                (py_str repr (get "timestamp")) prov tsk ts views exec out meta)
      | _ => Raise (TrainingDataError "training turns must be an array")
      end
  | _ => Raise (TrainingDataError "training episode must be an object")
  end.
End from_dict.

(** ** Eligibility *)

Definition blocking_categories : list string :=
  ["runtime_error"; "model_error"; "interrupted"; "checkpoint_conflict"].

(** The reasons of [TrainingEligibilityPolicy.classify], in the order they
    are looked for. *)
Definition reasons (s : WorkingState) (task_status terminal_reason verification_status : string)
    (checkpoint_status : option string) : list string :=
  let mutated := (0 <? s.(ws_mutation_generation))%Z in
  let same a b := String.eqb a b in
  (if bool_decide (s.(ws_terminal_status) = INTERRUPTED) || same task_status "interrupted"
   then ["cancelled"] else []) ++
  (if same terminal_reason "stalled" then ["stalled"] else []) ++
  (if same task_status "budget_exhausted" || same terminal_reason "budget_exhausted"
   then ["budget_exhausted"] else []) ++
  (if negb (same task_status "completed") || bool_decide (s.(ws_terminal_status) ≠ COMPLETED)
   then ["task_not_completed"] else []) ++
  (if mutated && negb (same verification_status "verified")
   then ["current_generation_not_verified"] else []) ++
  (if mutated && negb (bool_decide (checkpoint_status = Some "finalized"))
   then ["checkpoint_not_finalized"] else []) ++
  (if existsb (λ f, bool_decide (f.(fl_category) ∈ blocking_categories)) (unresolved_failures s)
   then ["unresolved_blocking_runtime_failure"] else []).

Definition classify (s : WorkingState) (task_status terminal_reason verification_status : string)
    (checkpoint_status : option string) (complete excluded : bool)
    : TrainingEligibility * list string :=
  if excluded then (EXCLUDED, ["policy_excluded"])
  else if negb complete then (INCOMPLETE, ["not_finalized"])
  else match unique (reasons s task_status terminal_reason verification_status checkpoint_status) with
       | [] => (POSITIVE_CANDIDATE, [])
       | rs => (FAILURE_TRAJECTORY, rs)
       end.

(** ** Correctness of training episodes

    What [from_dict] accepts is a well-typed episode, which is read back from
    its own text; and an episode is a positive candidate exactly when nothing
    speaks against it. *)

Implicit Types (e : TrainingEpisode) (t : dict string json).

(** ** Well-typed episodes *)

Definition valid_call (c : json) : Prop := ∃ m, c = JObj m ∧ dict_keys m = call_fields.*1.

Record valid_turn t : Prop := {
  vt_fields : dict_keys t = turn_fields.*1;
  vt_calls : ∃ cs, dict_get t "tool_calls" = Some (JList cs) ∧ Forall valid_call cs;
}.

Definition valid_episode e : Prop := Forall valid_turn e.(turns).

Lemma call_fields_nodup : NoDup call_fields.*1.
Proof. apply (bool_decide_unpack _). vm_compute. exact I. Qed.

Lemma turn_fields_nodup : NoDup turn_fields.*1.
Proof. apply (bool_decide_unpack _). vm_compute. exact I. Qed.

Lemma rmapM_Forall {E A B} (f : A → res E B) (P : B → Prop) l l' :
  (∀ a b, f a = Ok b → P b) → rmapM f l = Ok l' → Forall P l'.
Proof.
  intros Hf. revert l'. induction l as [|a l IH]; intros l'; cbn; [by intros [= <-]|].
  intros (b & Hb & (bs & Hbs & [= <-])%rbind_Ok)%rbind_Ok. constructor; eauto.
Qed.

Lemma rmapM_fmap {E A B} (f : A → res E B) (g : B → A) (h : B → B) (P : B → Prop) l :
  (∀ b, P b → f (g b) = Ok (h b)) → Forall P l → rmapM f (g <$> l) = Ok (h <$> l).
Proof. intros Hf. induction 1 as [|b l Hb _ IH]; cbn; [done|]. by rewrite (Hf _ Hb), IH. Qed.

Lemma call_of_valid item c : call_of item = Ok c → valid_call c.
Proof.
  destruct item as [| | | | | |m]; try done. cbn [call_of].
  intros (? & _ & (call & Hc & [= <-])%rbind_Ok)%rbind_Ok. exists call. split; [done|].
  by apply construct_keys in Hc.
Qed.

Lemma turn_of_valid value t : turn_of value = Ok t → valid_turn t.
Proof.
  destruct value as [| | | | | |m]; try done. cbn [turn_of].
  intros (items & _ & (cs & Hcs & Hc)%rbind_Ok)%rbind_Ok. split; [by apply construct_keys in Hc|].
  exists cs. split.
  - eapply construct_get; [apply turn_fields_nodup|exact Hc| |apply dict_get_set_eq].
    apply (bool_decide_unpack _). vm_compute. exact I.
  - eapply rmapM_Forall; [exact call_of_valid|exact Hcs].
Qed.

(** ** Reading back what is written *)

(** The call and the turn read from a text whose keys are sorted. *)
Definition canon_call (c : json) : json := match c with JObj m => JObj (sorted_values m) | _ => c end.
Definition calls_of t : list json :=
  match dict_get t "tool_calls" with Some (JList cs) => cs | _ => [] end.
Definition canon_turn t : dict string json :=
  dict_set "tool_calls" (JList (canon_call <$> calls_of t)) (sorted_values t).
Definition sorted_dict (m : dict string json) : dict string json := merge_sort key_le (sorted_values m).

Definition canon e : TrainingEpisode :=
  mk_episode e.(episode_id) e.(task_id) e.(session_id) e.(timestamp) (sorted_dict e.(provenance))
    (sorted_dict e.(task)) (canon_turn <$> e.(turns)) (sorted_dict e.(tool_views))
    (sorted_dict e.(execution)) (sorted_dict e.(outcome)) (sorted_dict e.(training_metadata)).

Lemma known_keys (m : dict string json) (names : list string) :
  (∀ k, k ∈ dict_keys m → k ∈ names) → forallb (λ k, bool_decide (k ∈ names)) (dict_keys m) = true.
Proof. intros H. apply forallb_forall. intros k Hk%list_elem_of_In. apply bool_decide_eq_true. auto. Qed.

Lemma call_of_lookup m m' :
  dict_keys m = call_fields.*1 → (∀ k, k ∈ dict_keys m' → k ∈ dict_keys m) →
  (∀ k v, dict_get m k = Some v → dict_get m' k = Some v) → call_of (JObj m') = Ok (JObj m).
Proof.
  intros Hm Hk Hg. cbn [call_of]. rewrite known_keys by (rewrite <- Hm; done). cbn [rguard rbind].
  rewrite (construct_lookup _ _ m' m); [done|apply call_fields_nodup|done|done].
Qed.

Lemma call_of_canon c : valid_call c → call_of (sort_keys c) = Ok (canon_call c).
Proof.
  intros (m & -> & Hm). rewrite sort_keys_obj. cbn [canon_call].
  assert (Hnd : NoDup (dict_keys (sorted_values m))) by (rewrite sorted_values_keys, Hm; apply call_fields_nodup).
  apply call_of_lookup.
  - by rewrite sorted_values_keys.
  - intros k. by rewrite merge_sort_keys.
  - intros k v. by rewrite merge_sort_get.
Qed.

Lemma turn_of_lookup m t cs cs' :
  dict_keys t = turn_fields.*1 → dict_get m "tool_calls" = Some (JList cs) → rmapM call_of cs = Ok cs' →
  (∀ k v, k ≠ "tool_calls" → dict_get t k = Some v → dict_get m k = Some v) →
  dict_get t "tool_calls" = Some (JList cs') → turn_of (JObj m) = Ok t.
Proof.
  intros Hk Hm Hc Hg Ht. cbn [turn_of]. unfold dict_get_default. rewrite Hm.
  cbn [default from_option id py_iter of_option rbind]. unfold id. cbn [py_iter of_option rbind]. rewrite Hc. cbn [rbind].
  apply construct_lookup; [apply turn_fields_nodup|done|].
  intros k v Hv. rewrite dict_get_set. case_decide; [congruence|]. by apply Hg.
Qed.

Lemma turn_of_canon t : valid_turn t → turn_of (sort_keys (JObj t)) = Ok (canon_turn t).
Proof.
  intros [Hk (cs & Hcs & Hv)]. rewrite sort_keys_obj. unfold canon_turn, calls_of. rewrite Hcs.
  assert (Hnd : NoDup (dict_keys (sorted_values t))) by (rewrite sorted_values_keys, Hk; apply turn_fields_nodup).
  apply (turn_of_lookup _ _ (sort_keys <$> cs) (canon_call <$> cs)).
  - rewrite dict_keys_set_old; [by rewrite sorted_values_keys|]. rewrite sorted_values_keys.
    apply dict_get_is_Some. by eexists.
  - by rewrite merge_sort_get, sorted_values_get, Hcs.
  - apply (rmapM_fmap _ _ _ valid_call); [exact call_of_canon|done].
  - intros k v Hne. rewrite dict_get_set_ne, merge_sort_get by done. done.
  - apply dict_get_set_eq.
Qed.

Lemma turn_of_same t : valid_turn t → turn_of (JObj t) = Ok t.
Proof.
  intros [Hk (cs & Hcs & Hv)]. apply (turn_of_lookup _ _ cs cs); try done.
  assert (H := rmapM_fmap call_of (λ c, c) (λ c, c) valid_call cs). rewrite !list_fmap_id in H. apply H; [|done].
  intros c (m & -> & Hm). by apply call_of_lookup.
Qed.

Section reading.
  Context (float_eq : string → Z → bool) (repr : json → string).

#[local] Abbreviation from_dict := (from_dict float_eq repr).

Definition session_json (s : option string) : json :=
  match s with Some s => JStr s | None => JNull end.

(** Reading an object, from what is found in it. *)
Lemma from_dict_lookup m e values :
  dict_get m "schema_version" = Some (JInt TRAINING_SCHEMA_VERSION) →
  dict_get m "episode_id" = Some (JStr e.(episode_id)) → dict_get m "task_id" = Some (JStr e.(task_id)) →
  dict_get m "session_id" = Some (session_json e.(session_id)) →
  dict_get m "timestamp" = Some (JStr e.(timestamp)) →
  dict_get m "provenance" = Some (JObj e.(provenance)) → dict_get m "task" = Some (JObj e.(task)) →
  dict_get m "turns" = Some (JList values) → rmapM turn_of values = Ok e.(turns) →
  dict_get m "tool_views" = Some (JObj e.(tool_views)) →
  dict_get m "execution" = Some (JObj e.(execution)) →
  dict_get m "outcome" = Some (JObj e.(outcome)) →
  dict_get m "training_metadata" = Some (JObj e.(training_metadata)) →
  from_dict (JObj m) = Ok e.
Proof.
  intros Hsv Hid Htid Hse Hts Hpr Htk Htu Hr Hvi Hex Hou Hmd.
  assert (Hreq : forallb (λ k, dict_mem k m) required_keys = true).
  { apply forallb_forall. intros k Hk%list_elem_of_In. apply dict_mem_true, dict_get_is_Some.
    revert k Hk. apply Forall_forall. repeat (constructor; [by eexists|]). constructor. }
  unfold TrainingData.from_dict, get_or_null, dict_get_default.
  rewrite Hsv, Hreq, Hid, Htid, Hse, Hts, Hpr, Htk, Htu, Hvi, Hex, Hou, Hmd.
  cbn -[turn_of]. unfold id. cbn -[turn_of]. rewrite Hr. cbn. by destruct e as [? ? [] ? ? ? ? ? ? ? ?].
Qed.

Lemma from_dict_same e : valid_episode e → from_dict (to_dict e) = Ok e.
Proof.
  intros Hv. unfold to_dict. apply (from_dict_lookup _ _ (JObj <$> turns e)); try reflexivity.
  assert (H := rmapM_fmap turn_of JObj (λ t, t) valid_turn (turns e) turn_of_same Hv).
  by rewrite list_fmap_id in H.
Qed.

Lemma from_dict_written e : valid_episode e → from_dict (sort_keys (to_dict e)) = Ok (canon e).
Proof.
  intros Hv. unfold to_dict. rewrite sort_keys_obj.
  set (d := [_; _; _; _; _; _; _; _; _; _; _; _]).
  assert (Hnd : NoDup (dict_keys d)) by (apply (bool_decide_unpack _); vm_compute; exact I).
  apply (from_dict_lookup _ _ ((λ t, sort_keys (JObj t)) <$> turns e));
    try (rewrite written_get by exact Hnd; reflexivity || exact (f_equal Some (sort_keys_obj _))).
  - rewrite written_get by exact Hnd. cbn -[sort_keys]. by destruct (session_id e).
  - rewrite written_get by exact Hnd. change (Some (sort_keys (JList (JObj <$> turns e))) = Some (JList ((λ t, sort_keys (JObj t)) <$> turns e))).
    by rewrite sort_keys_list, <- list_fmap_compose.
  - by apply (rmapM_fmap turn_of (λ t, sort_keys (JObj t)) canon_turn valid_turn (turns e) turn_of_canon).
Qed.
End reading.

(** ** What the code relies on *)

Lemma rmapM_Raise {E A B} (f : A → res E B) (P : A → E → Prop) l x :
  (∀ a x, f a = Raise x → P a x) → rmapM f l = Raise x → Exists (λ a, P a x) l.
Proof.
  intros Hf. induction l as [|a l IH]; cbn; [done|]. destruct (f a) as [b|y] eqn:Ha; cbn.
  - destruct (rmapM f l); cbn; [done|]. intros [= ->]. by apply Exists_cons_tl, IH.
  - intros [= ->]. apply Exists_cons_hd. by apply Hf.
Qed.

(** What is raised here is caught, except for the two other kinds. *)
Definition caught (x : exn) : Prop := match x with TrainingDataError _ => True | OtherError _ => False end.

Lemma call_of_caught item x : call_of item = Raise x → caught x.
Proof.
  destruct item as [| | | | | |m]; cbn [call_of]; try (intros [= <-]; done).
  unfold rguard. destruct (forallb _ _); [|by intros [= <-]]. cbn [rbind].
  destruct (construct malformed call_fields m) as [c|y] eqn:Hc; cbn [rbind]; [done|]. intros [= <-].
  by apply construct_Raise in Hc as ->.
Qed.

Lemma turn_of_caught value x :
  turn_of value = Raise x → caught x ∨ x = OtherError "AttributeError" ∧ ∀ d, value ≠ JObj d.
Proof.
  destruct value as [| | | | | |m]; cbn [turn_of]; try (intros [= <-]; by right).
  intros H. left. revert H. destruct (py_iter _) as [items|]; cbn [of_option rbind]; [|by intros [= <-]].
  destruct (rmapM call_of items) as [cs|y] eqn:Hcs; cbn [rbind].
  - by intros ->%construct_Raise.
  - intros [= <-]. apply (rmapM_Raise _ (λ _ x, caught x)) in Hcs; [|exact call_of_caught].
    by apply Exists_exists in Hcs as (? & _ & ?).
Qed.

Lemma py_dict_caught j x : py_dict j = Raise x → caught x ∨ x = OtherError "a key that is not a string".
Proof.
  unfold py_dict. destruct (dict_of j) as [d|[]]; cbn; [done| |]; intros [= <-]; [by left|by right].
Qed.


(** ** Eligibility *)

(** Nothing speaks against an episode that ran to its end. *)
Definition clean_run (s : WorkingState) (task_status terminal_reason verification_status : string)
    (checkpoint_status : option string) : Prop :=
  task_status = "completed" ∧ s.(ws_terminal_status) = COMPLETED ∧
  terminal_reason ≠ "stalled" ∧ terminal_reason ≠ "budget_exhausted" ∧
  ((0 < s.(ws_mutation_generation))%Z →
     verification_status = "verified" ∧ checkpoint_status = Some "finalized") ∧
  (∀ f, f ∈ unresolved_failures s → f.(fl_category) ∉ blocking_categories).

Lemma reasons_nil s ts tr vs cs : reasons s ts tr vs cs = [] ↔ clean_run s ts tr vs cs.
Proof.
  assert (Hif : ∀ (b : bool) (x : string), (if b then [x] else []) = [] ↔ b = false) by (by intros []).
  unfold reasons, clean_run. rewrite !app_nil, !Hif, !orb_false_iff, !andb_false_iff.
  rewrite !negb_false_iff, !bool_decide_eq_false, !String.eqb_neq, !String.eqb_eq.
  rewrite (bool_decide_eq_true (cs = Some "finalized")).
  assert (Hex : existsb (λ f, bool_decide (fl_category f ∈ blocking_categories)) (unresolved_failures s) = false ↔
    ∀ f, f ∈ unresolved_failures s → fl_category f ∉ blocking_categories).
  { rewrite <- not_true_iff_false, existsb_exists. split.
    - intros Hn f Hf Hc. apply Hn. exists f. rewrite <- list_elem_of_In. split; [done|]. by apply bool_decide_eq_true.
    - intros Hn (f & Hf%list_elem_of_In & Hc%bool_decide_eq_true). by eapply Hn. }
  rewrite Hex. destruct (Z.ltb_spec 0 (ws_mutation_generation s)) as [Hm|Hm].
  - split.
    + intros ((_ & _) & H1 & (_ & H2) & (H3 & H4%dec_stable) & H5 & H6 & H7).
      destruct H5 as [?|H5]; [done|]. destruct H6 as [?|H6]; [done|]. by split_and!.
    + intros (-> & -> & H1 & H2 & H3 & H4). destruct (H3 Hm) as [-> ->]. split_and!; auto.
  - split.
    + intros ((_ & _) & H1 & (_ & H2) & (H3 & H4%dec_stable) & _ & _ & H7). split_and!; auto; lia.
    + intros (-> & -> & H1 & H2 & H3 & H4). split_and!; auto.
Qed.

(** An episode is a positive candidate exactly when it is not excluded,
    is complete, and was a clean run: completed by task and by working state,
    not stalled or out of budget, verified and checkpointed if it changed
    anything, and without an unresolved blocking failure.  Reasons are given,
    each once, exactly when it is not. *)
Theorem positive_exactly_when_clean s ts tr vs cs complete excluded :
  let '(eligibility, rs) := classify s ts tr vs cs complete excluded in
  (eligibility = POSITIVE_CANDIDATE ↔ excluded = false ∧ complete = true ∧ clean_run s ts tr vs cs) ∧
  (rs = [] ↔ eligibility = POSITIVE_CANDIDATE) ∧ NoDup rs ∧
  (eligibility = FAILURE_TRAJECTORY → ∀ r, r ∈ rs ↔ r ∈ reasons s ts tr vs cs).
Proof.
  unfold classify. destruct excluded.
  { split_and!; try done; [|repeat constructor; apply not_elem_of_nil]. split; [done|]. by intros (? & _). }
  destruct complete; cbn [negb].
  2: { split_and!; try done; [|repeat constructor; apply not_elem_of_nil]. split; [done|]. by intros (_ & ? & _). }
  destruct (unique (reasons s ts tr vs cs)) as [|r rs] eqn:Hu; rewrite <- reasons_nil.
  - assert (Hn : reasons s ts tr vs cs = []).
    { destruct (reasons s ts tr vs cs) as [|x l] eqn:Hr; [done|]. exfalso.
      assert (Hx : x ∈ unique (x :: l)) by (apply unique_elem; constructor). rewrite Hu in Hx. by apply elem_of_nil in Hx. }
    split_and!; try done. constructor.
  - split_and!.
    + split; [done|]. intros (_ & _ & Hr). by rewrite Hr in Hu.
    + by split.
    + rewrite <- Hu. apply unique_NoDup.
    + intros _ x. rewrite <- Hu. apply unique_elem.
Qed.
