(* ===== verification/TrainingStore.v ===== *)
(** * The store of training episodes: [client/training/training_store.py]

    The store is the files of its directories, which hold no links: the
    episodes and drafts by file name, and the manifest.  SHA-256 (in
    hexadecimal) and the JSON text codec are parameters; a file holds bytes.
    The lock makes a save run alone; Python decodes the manifest by chunks,
    here it is decoded as a whole. *)

From Stdlib Require Import Ascii.
From S2P Require Import Prelude Texts Values Codec TrainingData.

Open Scope py_scope.

(** ** Data *)

Inductive exn :=
  | TrainingStoreError (msg : string)
  | DataError (e : TrainingData.exn)
  | OtherError (kind : string).

Record store := mk_store {
  episodes : gmap string string;
  drafts : gmap string string;
  manifest : option string;
}.

#[export] Instance eta_store : Eta store := λ r, mk_store r.(episodes) r.(drafts) r.(manifest).

Abbreviation op := (M store exn).

(** ** Names *)

(** [_validate_id] and [_path]: the name of the file in its directory. *)
Definition path (id suffix : string) : res exn string :=
  do? rguard (safe_id id) (TrainingStoreError "unsafe episode id") in
  Ok (id +:+ suffix).

Definition data_res {A} (r : res TrainingData.exn A) : res exn A := rmap_err DataError r.

Section store.
  Context (float_eq : string → Z → bool) (repr : json → string).
  Context (hash : string → string) (dumps : json → string) (loads : string → option json).

#[local] Abbreviation from_dict := (from_dict float_eq repr).

(** [_serialize] *)
Definition serialize (j : json) : string := encode_utf8 (dumps j +:+ String newline "").

Definition write_episode_file (name content : string) : op unit :=
  modify (λ st, st <| episodes ::= insert name content |>).
Definition write_draft_file (name content : string) : op unit :=
  modify (λ st, st <| drafts ::= insert name content |>).

(** ** Drafts *)

Definition save_draft (id : string) (payload : json) : op string :=
  let* name := lift (path id ".json") in
  do* write_draft_file name (serialize payload) in
  ret name.

Definition discard_draft (id : string) : op unit :=
  let* name := lift (path id ".json") in
  modify (λ st, st <| drafts ::= delete name |>).

Definition load_draft (id : string) : op (option (dict string json)) :=
  let* name := lift (path id ".json") in
  let* st := get in
  match st.(drafts) !! name with
  | None => ret None
  | Some content =>
      do* guard (valid_utf8 content) (OtherError "UnicodeDecodeError") in
      match loads (decode_utf8 content) with
      | None => raise (TrainingStoreError "could not load training draft")
      | Some (JObj m) =>
          do* guard (equals_int float_eq 1 (get_or_null m "schema_version"))
                (TrainingStoreError "malformed training draft") in
          ret (Some m)
      | Some _ => raise (TrainingStoreError "malformed training draft")
      end
  end.

(** ** The manifest *)

Definition metadata (e : TrainingEpisode) (checksum : string) : json :=
  JObj [("episode_id", JStr e.(episode_id)); ("task_id", JStr e.(task_id));
        ("timestamp", JStr e.(timestamp)); ("checksum", JStr checksum);
        ("eligibility", get_or_null e.(training_metadata) "eligibility")].

(** The entries of the manifest; a line that does not parse is skipped. *)
Definition manifest_items (text : string) : res exn (list json) :=
  do? rguard (valid_utf8 text) (OtherError "UnicodeDecodeError") in
  Ok (omap loads (file_lines (decode_utf8 text))).

(** Whether one of the entries, read in order, is of the episode. *)
Fixpoint indexed (id : string) (items : list json) : res exn bool :=
  match items with
  | [] => Ok false
  | JObj item :: items =>
      if equals_str id (get_or_null item "episode_id") then Ok true else indexed id items
  | _ :: _ => Raise (OtherError "AttributeError")
  end.

(** The entries that are yielded, then the exception that ends them. *)
Fixpoint select (eligibility : option string) (items : list json) : list json * option exn :=
  match items with
  | [] => ([], None)
  | item :: items =>
      let '(found, e) := select eligibility items in
      match eligibility, item with
      | None, _ => (item :: found, e)
      | Some value, JObj m =>
          if equals_str value (get_or_null m "eligibility") then (item :: found, e) else (found, e)
      | Some _, _ => ([], Some (OtherError "AttributeError"))
      end
  end.

Definition iterate_metadata (eligibility : option string) (st : store)
    : list json * option exn :=
  match st.(manifest) with
  | None => ([], None)
  | Some text =>
      match manifest_items text with
      | Ok items => select eligibility items
      | Raise e => ([], Some e)
      end
  end.

(** ** Episodes *)

(** The episode's file and its checksum. *)
Definition write_episode (name checksum_name content checksum : string) : op unit :=
  let* st := get in
  match st.(episodes) !! name with
  | Some existing =>
      do* guard (String.eqb (hash existing) checksum)
            (TrainingStoreError "immutable episode already exists with other content") in
      match st.(episodes) !! checksum_name with
      | Some _ => ret tt
      | None => write_episode_file checksum_name (checksum +:+ String newline "")
      end
  | None =>
      do* write_episode_file name content in
      write_episode_file checksum_name (checksum +:+ String newline "")
  end.

(** Its entry in the manifest, unless there is one. *)
Definition index_episode (e : TrainingEpisode) (checksum : string) : op unit :=
  let* st := get in
  let* found := lift (match st.(manifest) with
                      | None => Ok false
                      | Some text => rbind (manifest_items text) (indexed e.(episode_id))
                      end) in
  if (found : bool) then ret tt
  else modify (λ st, st <| manifest ::= λ text,
                         Some (default "" text +:+ serialize (metadata e checksum)) |>).

Definition save_episode (e : TrainingEpisode) : op string :=
  do* lift (data_res (from_dict (to_dict e))) in
  let* name := lift (path e.(episode_id) ".json") in
  let* checksum_name := lift (path e.(episode_id) ".sha256") in
  let content := serialize (to_dict e) in
  let checksum := hash content in
  do* write_episode name checksum_name content checksum in
  do* index_episode e checksum in
  ret name.

Definition exists_ (id : string) : op bool :=
  let* name := lift (path id ".json") in
  let* st := get in
  ret (bool_decide (is_Some (st.(episodes) !! name))).

Definition load_episode (id : string) : op TrainingEpisode :=
  let* name := lift (path id ".json") in
  let* checksum_name := lift (path id ".sha256") in
  let* st := get in
  let could_not := TrainingStoreError "could not load training episode" in
  let* content := lift (of_option could_not (st.(episodes) !! name)) in
  let* expected := lift (of_option could_not (st.(episodes) !! checksum_name)) in
  do* guard (all_chars (in_range 0 127) expected) (OtherError "UnicodeDecodeError") in
  do* guard (String.eqb (hash content) (py_strip expected))
        (TrainingStoreError "training episode checksum mismatch") in
  let* value := lift (of_option could_not (loads (decode_utf8 content))) in
  match from_dict value with
  | Ok e => ret e
  | Raise (TrainingDataError _) => raise could_not
  | Raise e => raise (DataError e)
  end.
End store.
