(* ===== verification/TrainingStoreProps.v ===== *)
(** * Correctness of the store of training episodes

    Episodes are immutable, are indexed exactly once, are read back intact,
    and a save that a crash cut is finished by saving again. *)

From Stdlib Require Import Ascii.
From stdpp Require Import sorting.
From S2P Require Import Prelude Texts Values Codec TrainingData TrainingStore.

Open Scope py_scope.

Implicit Types (e : TrainingEpisode) (st : store).

(** ** Names *)

Definition dotless (c : ascii) : bool := negb (Ascii.eqb c "."%char).

Lemma safe_id_dotless s : safe_id s = true → all_chars dotless s = true.
Proof.
  assert (Hd : ∀ c, is_alnum c || one_of "_-" c = true → dotless c = true)
    by (intros c; unfold dotless; by destruct (Ascii.eqb_spec c "."%char) as [->|]).
  destruct s as [|c s]; [done|]. intros [[Hc Hs]%andb_true_iff _]%andb_true_iff. cbn [all_chars].
  rewrite (all_chars_impl _ dotless _ Hd Hs), andb_true_r. apply Hd. by rewrite Hc.
Qed.

(** Two names in the store. *)
Lemma episode_names_apart id id' s s' :
  safe_id id = true → safe_id id' = true → id +:+ String "."%char s = id' +:+ String "."%char s' →
  id = id' ∧ s = s'.
Proof. intros H H' Heq. by apply (sep_split "."%char) in Heq; [|apply safe_id_dotless..]. Qed.

Lemma episode_path_Ok id suffix : safe_id id = true → path id suffix = Ok (id +:+ suffix).
Proof. unfold path. by intros ->. Qed.

Lemma episode_path_cases id suffix :
  path id suffix = if safe_id id then Ok (id +:+ suffix) else Raise (TrainingStoreError "unsafe episode id").
Proof. unfold path, rguard. by destruct (safe_id id). Qed.

(** ** Texts *)

Lemma encode_app a b : encode_utf8 (a +:+ b) = encode_utf8 a +:+ encode_utf8 b.
Proof.
  induction a as [|c a IH]; [done|]. change (String c a +:+ b) with (String c (a +:+ b)). cbn [encode_utf8].
  rewrite IH. by destruct (_ <? 128)%N.
Qed.

Lemma encode_ascii s : all_chars (in_range 0 127) s = true → encode_utf8 s = s.
Proof.
  induction s as [|c s IH]; [done|]. cbn [all_chars encode_utf8]. intros [Hc Hs]%andb_true_iff.
  rewrite (IH Hs). by destruct c as [[] [] [] [] [] [] [] []].
Qed.

Lemma valid_utf8_ascii a b : all_chars (in_range 0 127) a = true → valid_utf8 (a +:+ b) = valid_utf8 b.
Proof.
  induction a as [|c a IH]; [done|]. cbn [all_chars]. intros [Hc Ha]%andb_true_iff.
  change (String c a +:+ b) with (String c (a +:+ b)). cbn [valid_utf8]. rewrite Hc. by apply IH.
Qed.

Lemma valid_utf8_encode s b : valid_utf8 (encode_utf8 s +:+ b) = valid_utf8 b.
Proof.
  induction s as [|c s IH]; [done|]. cbn [encode_utf8].
  change (String ?x ?y +:+ b) with (String x (y +:+ b)).
  destruct c as [[] [] [] [] [] [] [] []];
    match goal with |- valid_utf8 ((if ?t then _ else _) +:+ b) = _ => let v := eval vm_compute in t in change t with v end;
    cbv iota; rewrite <- IH; reflexivity.
Qed.

Lemma decode_ascii a b : all_chars (in_range 0 127) a = true → decode_utf8 (a +:+ b) = a +:+ decode_utf8 b.
Proof.
  induction a as [|c a IH]; [done|]. cbn [all_chars]. intros [Hc Ha]%andb_true_iff.
  change (String c a +:+ b) with (String c (a +:+ b)). cbn [decode_utf8].
  assert (Hn : (N_of_ascii c <? 128)%N = true) by (by destruct c as [[] [] [] [] [] [] [] []]).
  rewrite Hn. exact (f_equal (String c) (IH Ha)).
Qed.

Lemma file_lines_text a current rest :
  all_chars inline a = true → file_lines_from current (a +:+ rest) = file_lines_from (current +:+ a) rest.
Proof.
  revert current. induction a as [|c a IH]; intros current Ha; [by rewrite append_nil|].
  cbn [all_chars] in Ha. apply andb_true_iff in Ha as [Hc Ha]. unfold inline in Hc.
  apply negb_true_iff, orb_false_iff in Hc as [H1 H2].
  change (String c a +:+ rest) with (String c (a +:+ rest)). cbn [file_lines_from].
  rewrite H1, H2, IH by done. by rewrite append_assoc.
Qed.

Lemma file_lines_line a rest :
  all_chars inline a = true → file_lines (a +:+ String newline rest) = a :: file_lines rest.
Proof. intros Ha. unfold file_lines. by rewrite file_lines_text. Qed.

Lemma file_lines_last a : all_chars inline a = true → file_lines a = if str_true a then [a] else [].
Proof. intros Ha. unfold file_lines. by rewrite <- (append_nil a) at 1; rewrite file_lines_text. Qed.

Lemma decode_encode_app s b : decode_utf8 (encode_utf8 s +:+ b) = s +:+ decode_utf8 b.
Proof.
  induction s as [|c s IH]; [done|].
  destruct c as [[] [] [] [] [] [] [] []]; exact (f_equal (String _) IH).
Qed.

Lemma valid_utf8_encoded s : valid_utf8 (encode_utf8 s) = true.
Proof. rewrite <- (append_nil (encode_utf8 s)). apply valid_utf8_encode. Qed.

Section store.
  Context (float_eq : string → Z → bool) (repr : json → string).
  Context (hash : string → string) (dumps : json → string) (loads : string → option json).
  Context `{!JsonCodec dumps loads}.
  Hypothesis hash_shape : ∀ b, all_hex (hash b) = true ∧ String.length (hash b) = 64.

#[local] Abbreviation from_dict := (from_dict float_eq repr).
#[local] Abbreviation serialize := (serialize dumps).
#[local] Abbreviation save_episode := (save_episode float_eq repr hash dumps loads).
#[local] Abbreviation load_episode := (load_episode float_eq repr hash loads).
#[local] Abbreviation manifest_items := (manifest_items loads).
#[local] Abbreviation write_episode := (write_episode hash).
#[local] Abbreviation index_episode := (index_episode dumps loads).

Definition line (j : json) : string := dumps j +:+ String newline "".

Lemma line_app j rest : line j +:+ rest = dumps j +:+ String newline rest.
Proof. unfold line. by rewrite append_assoc. Qed.

Fixpoint lines_text (l : list json) : string :=
  match l with [] => "" | j :: l => line j +:+ lines_text l end.

Lemma lines_text_snoc l j : lines_text (l ++ [j]) = lines_text l +:+ line j.
Proof. induction l as [|i l IH]; cbn; [by rewrite append_nil|]. by rewrite IH, append_assoc. Qed.

Lemma file_lines_lines l rest : file_lines (lines_text l +:+ rest) = (dumps <$> l) ++ file_lines rest.
Proof using JsonCodec0.
  induction l as [|j l IH]; [done|]. cbn [lines_text fmap list_fmap app].
  rewrite append_assoc, line_app, file_lines_line by apply codec_line. by rewrite IH.
Qed.

Lemma omap_loads (l : list json) : omap loads (dumps <$> l) = sort_keys <$> l.
Proof using JsonCodec0. induction l as [|j l IH]; [done|]. cbn. by rewrite codec_back, IH. Qed.

(** A manifest of whole lines, then one of another kind, or cut. *)
Lemma decode_ascii_all t : all_chars (in_range 0 127) t = true → decode_utf8 t = t.
Proof. intros Ha. rewrite <- (append_nil t) at 1. rewrite decode_ascii by done. apply append_nil. Qed.

Lemma manifest_items_tail l t :
  all_chars inline t = true → all_chars (in_range 0 127) t = true →
  manifest_items (encode_utf8 (lines_text l) +:+ t) =
    Ok ((sort_keys <$> l) ++ if str_true t then omap loads [t] else []).
Proof using JsonCodec0.
  intros Hi Ha. unfold TrainingStore.manifest_items.
  rewrite valid_utf8_encode. rewrite <- (append_nil t) at 1. rewrite valid_utf8_ascii by done.
  change (valid_utf8 "") with true. cbn [rguard rbind].
  rewrite decode_encode_app, decode_ascii_all, file_lines_lines, file_lines_last, omap_app, omap_loads by done.
  by destruct (str_true t).
Qed.

Lemma manifest_items_mid l t l' :
  all_chars inline t = true → all_chars (in_range 0 127) t = true →
  manifest_items (encode_utf8 (lines_text l) +:+ (t +:+ String newline (encode_utf8 (lines_text l')))) =
    Ok ((sort_keys <$> l) ++ omap loads [t] ++ (sort_keys <$> l')).
Proof using JsonCodec0.
  intros Hi Ha. unfold TrainingStore.manifest_items. rewrite valid_utf8_encode, valid_utf8_ascii by done.
  change (valid_utf8 (String newline ?x)) with (valid_utf8 x). rewrite valid_utf8_encoded. cbn [rguard rbind].
  rewrite decode_encode_app, decode_ascii by done.
  change (decode_utf8 (String newline ?x)) with (String newline (decode_utf8 x)). rewrite decode_encode.
  rewrite file_lines_lines, file_lines_line, omap_app by done.
  rewrite <- (append_nil (lines_text l')), file_lines_lines. change (file_lines "") with (@nil string).
  rewrite app_nil_r, omap_loads. change (t :: (dumps <$> l')) with ([t] ++ (dumps <$> l')).
  by rewrite omap_app, omap_loads.
Qed.

Lemma manifest_items_lines l : manifest_items (encode_utf8 (lines_text l)) = Ok (sort_keys <$> l).
Proof using JsonCodec0. rewrite <- (append_nil (encode_utf8 _)). rewrite manifest_items_tail by done. by rewrite app_nil_r. Qed.

(** ** Entries of the manifest *)

(** An episode and the checksum it was indexed with. *)
Definition entry_json (p : TrainingEpisode * string) : json := metadata p.1 p.2.
Definition entry_id (p : TrainingEpisode * string) : string := p.1.(episode_id).
Definition entry_text (p : TrainingEpisode * string) : json := sort_keys (entry_json p).

Lemma entry_obj p : ∃ m, entry_text p = JObj m ∧ get_or_null m "episode_id" = JStr (entry_id p).
Proof.
  unfold entry_text, entry_json, metadata. rewrite sort_keys_obj. eexists. split; [done|].
  unfold get_or_null, dict_get_default. rewrite written_get by (apply (bool_decide_unpack _); vm_compute; exact I).
  reflexivity.
Qed.

Lemma indexed_entries id (es : list (TrainingEpisode * string)) :
  indexed id (entry_text <$> es) = Ok (bool_decide (id ∈ entry_id <$> es)).
Proof.
  induction es as [|p es IH]; [done|]. cbn [fmap list_fmap indexed].
  destruct (entry_obj p) as (m & -> & ->). cbn [equals_str]. destruct (String.eqb_spec (entry_id p) id) as [->|Hne].
  - rewrite bool_decide_eq_true_2; [done|constructor].
  - rewrite IH. f_equal. apply bool_decide_ext. rewrite elem_of_cons. split; [auto|].
    intros [->|?]; done.
Qed.

Lemma select_all items : select None items = (items, None).
Proof. induction items as [|i items IH]; cbn [select]; [done|]. by rewrite IH. Qed.

(** ** Saving *)

Definition content e : string := serialize (to_dict e).
Definition checksum e : string := hash (content e).
Definition ended (h : string) : string := h +:+ String newline "".
Definition entry_of e : TrainingEpisode * string := (e, checksum e).

Lemma hash_stripped b : py_strip (ended (hash b)) = hash b.
Proof using hash_shape.
  destruct (hash_shape b) as [Hx Hl]. apply py_strip_hex; [done| |done]. by destruct (hash b).
Qed.

Lemma hash_ascii b : all_chars (in_range 0 127) (ended (hash b)) = true.
Proof using hash_shape. unfold ended. rewrite all_chars_app, all_hex_ascii; [done|apply hash_shape]. Qed.

(** A save is its two writes, then the index, when the episode is typed. *)
Lemma episode_save_run e st :
  valid_episode e → safe_id e.(episode_id) = true →
  save_episode e st =
    bind (write_episode (e.(episode_id) +:+ ".json") (e.(episode_id) +:+ ".sha256") (content e) (checksum e))
      (λ _, bind (index_episode e (checksum e)) (λ _, ret (e.(episode_id) +:+ ".json"))) st.
Proof.
  intros Hv Hs. unfold TrainingStore.save_episode, bind at 1, lift, data_res.
  rewrite from_dict_same by done. cbn [rmap_err]. rewrite !episode_path_Ok by done. reflexivity.
Qed.

Definition with_files e st : store :=
  st <| episodes ::= λ m, <[e.(episode_id) +:+ ".sha256" := ended (checksum e)]>
                           (<[e.(episode_id) +:+ ".json" := content e]> m) |>.

Lemma write_fresh e st :
  st.(episodes) !! (e.(episode_id) +:+ ".json") = None →
  write_episode (e.(episode_id) +:+ ".json") (e.(episode_id) +:+ ".sha256") (content e) (checksum e) st =
    (with_files e st, Ok tt).
Proof. intros Hn. unfold TrainingStore.write_episode, bind, get. by rewrite Hn. Qed.

(** The files of an episode are there, as they were first written. *)
Definition stored e st : Prop :=
  st.(episodes) !! (e.(episode_id) +:+ ".json") = Some (content e) ∧
  st.(episodes) !! (e.(episode_id) +:+ ".sha256") = Some (ended (checksum e)).

Lemma ids_differ a : a +:+ ".json" ≠ a +:+ ".sha256".
Proof. intros H. by apply append_cancel in H as [_ ?]. Qed.

Lemma with_files_stored e st : stored e (with_files e st).
Proof.
  split; unfold with_files, set_field; cbn [episodes].
  - rewrite lookup_insert_ne by (symmetry; apply ids_differ). apply lookup_insert_eq.
  - apply lookup_insert_eq.
Qed.

Lemma write_again e e' st :
  stored e' st → episode_id e = episode_id e' →
  write_episode (e.(episode_id) +:+ ".json") (e.(episode_id) +:+ ".sha256") (content e) (checksum e) st =
    (st, if String.eqb (checksum e') (checksum e) then Ok tt
         else Raise (TrainingStoreError "immutable episode already exists with other content")).
Proof.
  intros [Hj Hc] Hid. unfold TrainingStore.write_episode, bind, get. rewrite Hid, Hj. unfold guard, lift, rguard.
  fold (checksum e'). destruct (String.eqb _ _); [|done]. by rewrite Hc.
Qed.

Lemma load_stored e st :
  stored e st → valid_episode e → safe_id e.(episode_id) = true →
  load_episode e.(episode_id) st = (st, Ok (canon e)).
Proof using All.
  intros [Hj Hc] Hv Hs. unfold TrainingStore.load_episode, bind, lift, get. rewrite !episode_path_Ok by done.
  rewrite Hj, Hc. cbn [of_option]. unfold guard, lift, checksum. rewrite hash_ascii. cbn [rguard].
  rewrite hash_stripped, String.eqb_refl. cbn [rguard]. unfold content, TrainingStore.serialize.
  fold (line (to_dict e)). rewrite decode_encode. unfold line. rewrite codec_file. cbn [of_option].
  by rewrite from_dict_written.
Qed.
(** ** Consistent stores *)

(** The manifest names exactly the stored episodes, each once. *)
Record consistent st (es : list (TrainingEpisode * string)) : Prop := {
  cs_manifest : default "" st.(manifest) = encode_utf8 (lines_text (entry_json <$> es));
  cs_nodup : NoDup (entry_id <$> es);
  cs_entries : Forall (λ p, p = entry_of p.1 ∧ valid_episode p.1 ∧ safe_id (entry_id p) = true ∧ stored p.1 st) es;
  cs_files : ∀ id, safe_id id = true → is_Some (st.(episodes) !! (id +:+ ".json")) → id ∈ entry_id <$> es;
}.

Lemma lines_text_nil l : lines_text l = "" → l = [].
Proof. destruct l as [|j l]; [done|]. cbn. unfold line. by destruct (dumps j). Qed.

Lemma encode_nil s : encode_utf8 s = "" → s = "".
Proof. destruct s as [|c s]; [done|]. cbn. by destruct (_ <? _)%N. Qed.

Definition with_entry e st : store :=
  st <| manifest ::= λ text, Some (default "" text +:+ serialize (metadata e (checksum e))) |>.

(** Whether an episode is found in the manifest, read back. *)
Definition found_in st (id : string) : res exn bool :=
  match st.(manifest) with
  | None => Ok false
  | Some text => rbind (manifest_items text) (indexed id)
  end.

Lemma index_run e st b :
  found_in st e.(episode_id) = Ok b →
  index_episode e (checksum e) st = (if b then st else with_entry e st, Ok tt).
Proof.
  intros Hb. unfold TrainingStore.index_episode, bind, get, lift. unfold found_in in Hb. rewrite Hb. by destruct b.
Qed.

Lemma found_consistent st es id :
  default "" st.(manifest) = encode_utf8 (lines_text (entry_json <$> es)) →
  found_in st id = Ok (bool_decide (id ∈ entry_id <$> es)).
Proof using JsonCodec0.
  intros Hm. unfold found_in. destruct (manifest st) as [text|] eqn:Ht; cbn in Hm.
  - rewrite Hm, manifest_items_lines. cbn [rbind]. rewrite <- list_fmap_compose. apply indexed_entries.
  - symmetry in Hm. apply encode_nil, lines_text_nil, fmap_nil_inv in Hm as ->. done.
Qed.

Lemma episode_stored_frame e st st' :
  st.(episodes) ⊆ st'.(episodes) → stored e st → stored e st'.
Proof. intros Hs [H1 H2]. split; by eapply lookup_weaken. Qed.

(** A save on a consistent store: a new episode is stored and indexed; one
    that is there is left alone, and refused if it differs. *)
Lemma save_consistent st es e :
  consistent st es → valid_episode e → safe_id e.(episode_id) = true →
  match list_find (λ p, entry_id p = e.(episode_id)) es with
  | None => save_episode e st = (with_entry e (with_files e st), Ok (e.(episode_id) +:+ ".json"))
  | Some (_, p) =>
      save_episode e st =
        (st, if String.eqb (checksum p.1) (checksum e) then Ok (e.(episode_id) +:+ ".json")
             else Raise (TrainingStoreError "immutable episode already exists with other content"))
  end.
Proof using JsonCodec0.
  intros [Hm Hnd Hes Hf] Hv Hs. rewrite episode_save_run by done.
  destruct (list_find _ es) as [[i p]|] eqn:Hp.
  - apply list_find_Some in Hp as (Hi & Hid & _).
    destruct (Forall_lookup_1 _ _ _ _ Hes Hi) as (_ & _ & _ & Hst).
    unfold bind. rewrite (write_again _ p.1) by (done || by symmetry).
    destruct (String.eqb _ _); [|done].
    rewrite (index_run _ _ true); [done|]. rewrite (found_consistent _ es) by done.
    rewrite bool_decide_eq_true_2; [done|]. rewrite <- Hid. apply list_elem_of_fmap. exists p.
    split; [done|]. by eapply list_elem_of_lookup_2.
  - apply list_find_None in Hp.
    assert (Hni : e.(episode_id) ∉ entry_id <$> es).
    { intros (p & Heq & Hin)%list_elem_of_fmap. eapply Forall_forall in Hp; [|exact Hin]. by apply Hp. }
    unfold bind. rewrite write_fresh.
    + rewrite (index_run _ _ false); [done|]. rewrite (found_consistent _ es) by done.
      by rewrite bool_decide_eq_false_2.
    + destruct (st.(episodes) !! _) eqn:Hl; [|done]. exfalso. apply Hni, Hf; [done|]. by eexists.
Qed.
Lemma with_files_grows e st :
  st.(episodes) !! (e.(episode_id) +:+ ".json") = None →
  st.(episodes) !! (e.(episode_id) +:+ ".sha256") = None →
  st.(episodes) ⊆ (with_files e st).(episodes).
Proof.
  intros H1 H2. unfold with_files, set_field; cbn [episodes].
  etrans; [apply (insert_subseteq _ _ (content e) H1)|].
  apply insert_subseteq. by rewrite lookup_insert_ne by apply ids_differ.
Qed.

(** A new episode's entry and files, the manifest ending at a whole line. *)
Lemma consistent_new st es e :
  consistent st es → valid_episode e → safe_id e.(episode_id) = true → e.(episode_id) ∉ entry_id <$> es →
  consistent (with_entry e (with_files e st)) (es ++ [entry_of e]).
Proof.
  intros [Hm Hnd Hes Hf] Hv Hs Hni. split.
  - change (default "" (manifest st) +:+ serialize (metadata e (checksum e)) =
      encode_utf8 (lines_text (entry_json <$> es ++ [entry_of e]))).
    rewrite Hm, fmap_app. cbn [fmap list_fmap]. rewrite lines_text_snoc, encode_app. reflexivity.
  - rewrite fmap_app. apply NoDup_app. split_and!; [done| |apply NoDup_singleton].
    intros id Hid ->%list_elem_of_singleton. done.
  - apply Forall_app. split.
    + apply Forall_forall. intros p Hp. pose proof (proj1 (Forall_forall _ _) Hes p Hp) as (He & Hv' & Hs' & [H1 H2]).
      split_and!; try done.
      assert (Hne : entry_id p ≠ episode_id e)
        by (intros Heq; apply Hni; rewrite <- Heq; by apply list_elem_of_fmap_2).
      assert (Hap : ∀ s s', episode_id (p.1) +:+ String "."%char s ≠ episode_id e +:+ String "."%char s')
        by (intros s s' Heq; by apply episode_names_apart in Heq as [? _]).
      split; cbn [episodes with_entry with_files set_field]; unfold with_entry, with_files, set_field; cbn [episodes];
        by rewrite 2 lookup_insert_ne by (symmetry; apply Hap).
    + apply Forall_singleton. split_and!; [done..|]. apply with_files_stored.
  - intros id Hid [c Hc]. rewrite fmap_app. apply elem_of_app.
    destruct (decide (id = episode_id e)) as [->|Hne]; [right; constructor|]. left. apply Hf; [done|].
    unfold with_entry, with_files, set_field in Hc; cbn [episodes] in Hc.
    rewrite 2 lookup_insert_ne in Hc; [by eexists| |].
    + by intros [? _]%episode_names_apart.
    + by intros [? _]%episode_names_apart.
Qed.

(** ** Histories *)

(** One call on the store, by whatever caller and with whatever result. *)
Inductive step st : store → Prop :=
  | step_save e : valid_episode e → step st (save_episode e st).1
  | step_draft id payload : step st (save_draft dumps id payload st).1
  | step_discard id : step st (discard_draft id st).1.

Definition empty : store := mk_store ∅ ∅ None.

Lemma consistent_drafts st es d :
  consistent st es → consistent (st <| drafts := d |>) es.
Proof. intros [Hm Hnd Hes Hf]. by split. Qed.

Lemma drafts_only st st' id payload :
  st' = (save_draft dumps id payload st).1 ∨ st' = (discard_draft id st).1 →
  ∃ d, st' = st <| drafts := d |>.
Proof.
  assert (Hsame : st = st <| drafts := st.(drafts) |>) by (by destruct st).
  unfold save_draft, discard_draft, bind, lift. rewrite !episode_path_cases. destruct (safe_id id).
  - intros [->| ->]; eexists; reflexivity.
  - intros [->| ->]; eexists; exact Hsame.
Qed.

Lemma save_unsafe e st :
  valid_episode e → safe_id e.(episode_id) = false →
  save_episode e st = (st, Raise (TrainingStoreError "unsafe episode id")).
Proof.
  intros Hv Hs. unfold TrainingStore.save_episode, bind, lift, data_res. rewrite from_dict_same by done.
  cbn [rmap_err]. by rewrite !episode_path_cases, Hs.
Qed.

Lemma step_consistent st st' es :
  consistent st es → step st st' → ∃ es', consistent st' (es ++ es').
Proof using JsonCodec0.
  intros Hc [e Hv|id payload|id].
  - destruct (safe_id (episode_id e)) eqn:Hs.
    + pose proof (save_consistent st es e Hc Hv Hs) as H.
      destruct (list_find _ es) as [[i p]|] eqn:Hp; rewrite H; cbn [fst].
      * exists []. by rewrite app_nil_r.
      * exists [entry_of e]. apply consistent_new; try done. apply list_find_None in Hp.
        intros (p & Heq & Hin)%list_elem_of_fmap. eapply Forall_forall in Hp; [|exact Hin]. by apply Hp.
    + rewrite save_unsafe by done. exists []. by rewrite app_nil_r.
  - destruct (drafts_only st _ id payload (or_introl eq_refl)) as [d ->]. exists [].
    rewrite app_nil_r. by apply consistent_drafts.
  - destruct (drafts_only st _ id JNull (or_intror eq_refl)) as [d ->]. exists [].
    rewrite app_nil_r. by apply consistent_drafts.
Qed.

Lemma empty_consistent : consistent empty [].
Proof. split; try done; [constructor|]. by intros id _ [? ?]. Qed.

Lemma steps_consistent st st' es :
  consistent st es → rtc step st st' → ∃ es', consistent st' (es ++ es').
Proof using JsonCodec0.
  intros Hc Hs. revert es Hc. induction Hs as [st|st1 st2 st3 H _ IH]; intros es Hc.
  - exists []. by rewrite app_nil_r.
  - destruct (step_consistent _ _ _ Hc H) as [es1 H1]. destruct (IH _ H1) as [es2 H2].
    exists (es1 ++ es2). by rewrite app_assoc.
Qed.

(** ** What the store promises *)

(** In every store reached by saving episodes and by saving and discarding drafts, the
    manifest and the episodes agree.  There is a list of the saved episodes,
    in the order of their first save and no two with the same id, such that
    the manifest yields exactly one entry for each and no error, an episode
    exists exactly when it is in the list, each one is loaded back as it was
    saved (with the keys of its objects sorted), and whatever is saved after
    that only adds to the list. *)
Theorem manifest_names_each_episode_once st :
  rtc step empty st →
  ∃ es : list (TrainingEpisode * string),
    NoDup (entry_id <$> es) ∧
    iterate_metadata loads None st = (entry_text <$> es, None) ∧
    (∀ id, safe_id id = true → exists_ id st = (st, Ok (bool_decide (id ∈ entry_id <$> es)))) ∧
    (∀ p, p ∈ es → p = entry_of p.1 ∧ load_episode (entry_id p) st = (st, Ok (canon p.1))) ∧
    (∀ st', rtc step st st' → ∃ es', iterate_metadata loads None st' = (entry_text <$> es ++ es', None)).
Proof using All.
  intros Hr. destruct (steps_consistent _ _ _ empty_consistent Hr) as [es Hc]. cbn [app] in Hc.
  assert (Hit : ∀ st es, consistent st es → iterate_metadata loads None st = (entry_text <$> es, None)).
  { clear Hr Hc st es. intros st es [Hm _ _ _]. unfold iterate_metadata.
    destruct (manifest st) as [text|] eqn:Ht; cbn in Hm.
    - rewrite Hm, manifest_items_lines, select_all. by rewrite <- list_fmap_compose.
    - symmetry in Hm. by apply encode_nil, lines_text_nil, fmap_nil_inv in Hm as ->. }
  exists es. split_and!; [apply Hc|by apply Hit| | |].
  - intros id Hs. unfold exists_, bind, lift, get. rewrite episode_path_Ok by done. unfold ret. do 2 f_equal.
    apply bool_decide_ext. split; [by apply Hc|]. intros (p & -> & Hp)%list_elem_of_fmap.
    destruct (proj1 (Forall_forall _ _) (cs_entries _ _ Hc) p Hp) as (_ & _ & _ & [H _]). by eexists.
  - intros p Hp. destruct (proj1 (Forall_forall _ _) (cs_entries _ _ Hc) p Hp) as (He & Hv & Hs & Hst).
    split; [done|]. by apply load_stored.
  - intros st' Hs. destruct (steps_consistent _ _ _ Hc Hs) as [es' Hc']. exists es'. by apply Hit.
Qed.
(** Loading looks at the episode's two files only. *)
Lemma load_frame id st st' :
  (∀ s, safe_id id = true → st'.(episodes) !! (id +:+ String "."%char s) = st.(episodes) !! (id +:+ String "."%char s)) →
  load_episode id st' = (st', (load_episode id st).2).
Proof.
  intros Hf. unfold TrainingStore.load_episode, bind, lift, get, guard, raise, ret. rewrite !episode_path_cases.
  destruct (safe_id id); [|done]. rewrite !Hf by done.
  destruct (st.(episodes) !! (id +:+ ".json")) as [c|]; [|done]. cbn [of_option].
  destruct (st.(episodes) !! (id +:+ ".sha256")) as [h|]; [|done]. cbn [of_option]. unfold lift, rguard.
  repeat case_match; simplify_eq; done.
Qed.

Lemma with_files_other e st id s :
  safe_id id = true → safe_id e.(episode_id) = true → id ≠ e.(episode_id) →
  (with_files e st).(episodes) !! (id +:+ String "."%char s) = st.(episodes) !! (id +:+ String "."%char s).
Proof.
  intros Hi He Hne. unfold with_files, set_field; cbn [episodes].
  rewrite 2 lookup_insert_ne; [done|by intros [? _]%episode_names_apart..].
Qed.

(** An episode is written once.  On a store reached by such calls, a
    save of a new episode succeeds, the episode is then loaded back as it was
    saved (with the keys of its objects sorted), and saving it again succeeds
    and changes nothing; a save under an id that is taken changes nothing,
    and succeeds or is refused as the stored content has the same checksum or
    not; an id that is not safe is refused; and whatever the outcome, every
    other episode is loaded as before. *)
Theorem episodes_are_immutable st e :
  rtc step empty st → valid_episode e →
  let id := e.(episode_id) in
  let st' := (save_episode e st).1 in
  (if safe_id id then
     match st.(episodes) !! (id +:+ ".json") with
     | None =>
         (save_episode e st).2 = Ok (id +:+ ".json") ∧
         load_episode id st' = (st', Ok (canon e)) ∧
         save_episode e st' = (st', Ok (id +:+ ".json"))
     | Some taken =>
         save_episode e st =
           (st, if String.eqb (hash taken) (checksum e) then Ok (id +:+ ".json")
                else Raise (TrainingStoreError "immutable episode already exists with other content"))
     end
   else save_episode e st = (st, Raise (TrainingStoreError "unsafe episode id"))) ∧
  (∀ id', id' ≠ id → load_episode id' st' = (st', (load_episode id' st).2)).
Proof using All.
  intros Hr Hv id st'. destruct (safe_id id) eqn:Hs.
  2: { unfold st'. rewrite save_unsafe by done. split; [done|]. intros id' _. by apply load_frame. }
  destruct (steps_consistent _ _ _ empty_consistent Hr) as [es Hc]. cbn [app] in Hc.
  pose proof (save_consistent st es e Hc Hv Hs) as Hsave. unfold st'.
  destruct (list_find _ es) as [[i p]|] eqn:Hp; rewrite Hsave; cbn [fst snd].
  - apply list_find_Some in Hp as (Hi & Hid & _).
    destruct (Forall_lookup_1 _ _ _ _ (cs_entries _ _ Hc) Hi) as (_ & _ & _ & [Hj _]).
    unfold entry_id in Hid. rewrite Hid in Hj. fold id in Hj. rewrite Hj. split; [done|]. intros id' _. by apply load_frame.
  - apply list_find_None in Hp.
    assert (Hni : id ∉ entry_id <$> es).
    { intros (p & Heq & Hin)%list_elem_of_fmap. eapply Forall_forall in Hp; [|exact Hin]. by apply Hp. }
    assert (Hfree : st.(episodes) !! (id +:+ ".json") = None).
    { destruct (st.(episodes) !! _) eqn:Hl; [|done]. exfalso. apply Hni, Hc; [done|]. by eexists. }
    rewrite Hfree. pose proof (consistent_new st es e Hc Hv Hs Hni) as Hc'. split.
    + split_and!; [done| |].
      * apply load_stored; [|done..]. exact (with_files_stored e st).
      * pose proof (save_consistent _ _ e Hc' Hv Hs) as Hagain.
        rewrite list_find_app_r in Hagain by (by apply list_find_None).
        cbn in Hagain. rewrite decide_True in Hagain by done. cbn in Hagain.
        by rewrite String.eqb_refl in Hagain.
    + intros id' Hne. apply load_frame. intros s Hs'. by apply with_files_other.
Qed.
(** ** A crash during a save *)

(** How far a save of a new episode came: before one of its two files was
    renamed into place, leaving a temporary file or none, or in the manifest
    write, cut after [n] bytes. *)
Inductive cut :=
  | InEpisode (temporary : option (string * string))
  | InChecksum (temporary : option (string * string))
  | InManifest (n : nat).

Definition with_temporary (t : option (string * string)) st : store :=
  match t with
  | Some (name, bytes) => st <| episodes ::= insert (".tmp-" +:+ name) bytes |>
  | None => st
  end.

Definition entry_bytes e : string := serialize (metadata e (checksum e)).

Definition crashed e st (c : cut) : store :=
  match c with
  | InEpisode t => with_temporary t st
  | InChecksum t => with_temporary t (st <| episodes ::= insert (e.(episode_id) +:+ ".json") (content e) |>)
  | InManifest n =>
      (with_files e st) <| manifest := Some (default "" st.(manifest) +:+ String.substring 0 n (entry_bytes e)) |>
  end.

Lemma temporary_name id s name : safe_id id = true → id +:+ String "."%char s ≠ ".tmp-" +:+ name.
Proof.
  intros Hs Heq. change (".tmp-" +:+ name) with ("" +:+ String "."%char ("tmp-" +:+ name)) in Heq.
  apply sep_split in Heq as [-> _]; [done|by apply safe_id_dotless|done].
Qed.

Lemma crashed_other e st c id s :
  safe_id id = true → safe_id e.(episode_id) = true → id ≠ e.(episode_id) →
  (crashed e st c).(episodes) !! (id +:+ String "."%char s) = st.(episodes) !! (id +:+ String "."%char s).
Proof.
  intros Hi He Hne.
  assert (Ht : ∀ t st, (with_temporary t st).(episodes) !! (id +:+ String "."%char s) =
                       st.(episodes) !! (id +:+ String "."%char s)).
  { intros [[name b]|] st'; [|done]. unfold with_temporary, set_field; cbn [episodes].
    rewrite lookup_insert_ne; [done|]. intros Heq. symmetry in Heq. by apply temporary_name in Heq. }
  destruct c as [t|t|n]; cbn [crashed].
  - apply Ht.
  - rewrite Ht. unfold set_field; cbn [episodes]. rewrite lookup_insert_ne; [done|by intros [? _]%episode_names_apart].
  - exact (with_files_other e st id s Hi He Hne).
Qed.

(** Saving over what a crash left writes what is missing. *)
Lemma write_crashed e st c :
  safe_id e.(episode_id) = true → st.(episodes) !! (e.(episode_id) +:+ ".json") = None →
  st.(episodes) !! (e.(episode_id) +:+ ".sha256") = None →
  ∃ st', write_episode (e.(episode_id) +:+ ".json") (e.(episode_id) +:+ ".sha256") (content e) (checksum e)
           (crashed e st c) = (st', Ok tt) ∧ stored e st' ∧
         st'.(manifest) = (crashed e st c).(manifest) ∧
         (∀ id s, safe_id id = true → id ≠ e.(episode_id) →
            st'.(episodes) !! (id +:+ String "."%char s) = st.(episodes) !! (id +:+ String "."%char s)).
Proof.
  intros Hs Hj Hh.
  assert (Ht : ∀ t st s, (with_temporary t st).(episodes) !! (e.(episode_id) +:+ String "."%char s) =
                         st.(episodes) !! (e.(episode_id) +:+ String "."%char s)).
  { intros [[name b]|] st' s; [|done]. unfold with_temporary, set_field; cbn [episodes].
    rewrite lookup_insert_ne; [done|]. intros Heq. symmetry in Heq. by apply temporary_name in Heq. }
  destruct c as [t|t|n].
  - eexists. split; [apply write_fresh; cbn [crashed]; by rewrite Ht|]. split_and!.
    + apply with_files_stored.
    + by destruct t as [[]|].
    + intros id s Hi Hne. rewrite with_files_other by done. by apply (crashed_other e st (InEpisode t)).
  - cbn [crashed]. set (st1 := st <| episodes ::= _ |>).
    assert (Hj1 : (with_temporary t st1).(episodes) !! (episode_id e +:+ ".json") = Some (content e))
      by (rewrite Ht; unfold st1, set_field; cbn [episodes]; apply lookup_insert_eq).
    assert (Hh1 : (with_temporary t st1).(episodes) !! (episode_id e +:+ ".sha256") = None)
      by (rewrite Ht; unfold st1, set_field; cbn [episodes]; by rewrite lookup_insert_ne by apply ids_differ).
    eexists. unfold TrainingStore.write_episode, bind, get. rewrite Hj1. unfold guard, lift.
    fold (checksum e). rewrite String.eqb_refl. cbn [rguard]. rewrite Hh1. split; [reflexivity|]. split_and!.
    + split; unfold set_field; cbn [episodes].
      * by rewrite lookup_insert_ne by (symmetry; apply ids_differ).
      * apply lookup_insert_eq.
    + reflexivity.
    + intros id s Hi Hne. unfold set_field; cbn [episodes].
      rewrite lookup_insert_ne by (by intros [? _]%episode_names_apart).
      by apply (crashed_other e st (InChecksum t)).
  - eexists. split; [|split_and!].
    + rewrite (write_again e e); [by rewrite String.eqb_refl| |done]. exact (with_files_stored e st).
    + exact (with_files_stored e st).
    + done.
    + intros id s Hi Hne. exact (crashed_other e st (InManifest n) id s Hi Hs Hne).
Qed.
Definition items_of st : res exn (list json) :=
  match st.(manifest) with None => Ok [] | Some text => manifest_items text end.

Lemma items_found st id es :
  items_of st = Ok (entry_text <$> es) → found_in st id = Ok (bool_decide (id ∈ entry_id <$> es)).
Proof.
  unfold items_of, found_in. destruct (manifest st) as [text|].
  - intros ->. apply indexed_entries.
  - intros [= H]. symmetry in H. by apply fmap_nil_inv in H as ->.
Qed.

Lemma items_iterate st items : items_of st = Ok items → iterate_metadata loads None st = (items, None).
Proof.
  unfold items_of, iterate_metadata. destruct (manifest st) as [text|].
  - intros ->. apply select_all.
  - by intros [= <-].
Qed.

(** A save that finds or finishes the files, from what the manifest holds. *)
Lemma save_over e st st' es :
  valid_episode e → safe_id e.(episode_id) = true →
  write_episode (e.(episode_id) +:+ ".json") (e.(episode_id) +:+ ".sha256") (content e) (checksum e) st = (st', Ok tt) →
  items_of st' = Ok (entry_text <$> es) →
  save_episode e st = (if bool_decide (e.(episode_id) ∈ entry_id <$> es) then st' else with_entry e st',
                       Ok (e.(episode_id) +:+ ".json")).
Proof.
  intros Hv Hs Hw Hi. rewrite episode_save_run by done. unfold bind. rewrite Hw.
  by rewrite (index_run _ _ _ (items_found _ _ _ Hi)).
Qed.

Section cut.
  Context (e : TrainingEpisode) (es : list (TrainingEpisode * string)) (st : store).
  Hypothesis before : consistent st es.
  Hypothesis ascii : all_chars (in_range 0 127) (dumps (metadata e (checksum e))) = true.

#[local] Abbreviation text := (dumps (metadata e (checksum e))).

Lemma entry_bytes_ascii : entry_bytes e = text +:+ String newline "".
Proof using ascii.
  unfold entry_bytes, TrainingStore.serialize. apply encode_ascii. rewrite all_chars_app, ascii. done.
Qed.

Definition torn (c : cut) : bool :=
  match c with InManifest n => (0 <? n)%nat && (n <? String.length text)%nat | _ => false end.

Lemma entries_text (l : list (TrainingEpisode * string)) : sort_keys <$> (entry_json <$> l) = entry_text <$> l.
Proof. by rewrite <- list_fmap_compose. Qed.

(** What the manifest holds after the crash. *)
Lemma items_crashed c :
  items_of (crashed e st c) =
    Ok (entry_text <$> es ++ (if match c with InManifest n => (String.length text <=? n)%nat | _ => false end
                              then [entry_of e] else [])).
Proof using JsonCodec0 before ascii.
  pose proof (cs_manifest _ _ before) as Hm.
  assert (Hsame : items_of st = Ok (entry_text <$> es)).
  { unfold items_of. destruct (manifest st) as [t|]; cbn in Hm.
    - by rewrite Hm, manifest_items_lines, entries_text.
    - symmetry in Hm. by apply encode_nil, lines_text_nil, fmap_nil_inv in Hm as ->. }
  assert (Ht : ∀ t st, items_of (with_temporary t st) = items_of st) by (by intros [[]|] ?).
  destruct c as [t|t|n]; cbn [crashed]; rewrite ?app_nil_r; [by rewrite Ht..|].
  unfold items_of, set_field; cbn [manifest]. rewrite Hm, entry_bytes_ascii.
  destruct (Nat.leb_spec (String.length text) n) as [Hn|Hn].
  - rewrite fmap_app, <- entries_text. destruct (decide (n = String.length text)) as [->|Hne].
    + rewrite substring_app, substring_full by lia.
      rewrite manifest_items_tail by (done || apply codec_line). rewrite codec_some. cbn [omap list_omap].
      by rewrite codec_back.
    + rewrite substring_full by (rewrite length_append; cbn; lia).
      change (text +:+ String newline "") with (text +:+ String newline (encode_utf8 (lines_text []))).
      rewrite manifest_items_mid by (done || apply codec_line). cbn [omap list_omap]. rewrite codec_back.
      by rewrite app_nil_r.
  - rewrite substring_app, app_nil_r by lia.
    rewrite manifest_items_tail by (by apply substring_chars; done || apply codec_line).
    rewrite entries_text. destruct n as [|n]; [by destruct text; rewrite app_nil_r|].
    rewrite substring_some by (lia || apply codec_some). cbn [omap list_omap].
    unfold metadata. rewrite codec_torn by (unfold metadata in Hn; lia). by rewrite app_nil_r.
Qed.

(** What it holds once an object has been appended to what the crash left. *)
Lemma items_appended n m :
  all_chars (in_range 0 127) (dumps (JObj m)) = true →
  let left := encode_utf8 (lines_text (entry_json <$> es)) +:+ String.substring 0 n text in
  0 < n ≤ String.length text → ∀ l,
  manifest_items (left +:+ serialize (JObj m) +:+ encode_utf8 (lines_text l)) =
    Ok ((entry_text <$> es) ++ (sort_keys <$> l)).
Proof using JsonCodec0 ascii.
  intros Ha left Hn l. unfold left, TrainingStore.serialize.
  rewrite encode_app, (encode_ascii (dumps (JObj m))) by done. rewrite !append_assoc.
  change (encode_utf8 (String newline "") +:+ ?x) with (String newline x).
  rewrite <- (append_assoc (String.substring _ _ _)). rewrite manifest_items_mid.
  - cbn [omap list_omap]. unfold metadata. rewrite codec_joined by exact Hn. by rewrite entries_text.
  - rewrite all_chars_app, codec_line, andb_true_r. apply substring_chars, codec_line.
  - rewrite all_chars_app, Ha, andb_true_r. by apply substring_chars.
Qed.
Lemma items_again n :
  0 < n ≤ String.length text →
  let left := encode_utf8 (lines_text (entry_json <$> es)) +:+ String.substring 0 n text in
  manifest_items (left +:+ entry_bytes e) = Ok (entry_text <$> es) ∧
  manifest_items ((left +:+ entry_bytes e) +:+ entry_bytes e) = Ok (entry_text <$> es ++ [entry_of e]).
Proof using JsonCodec0 ascii.
  intros Hn left. pose proof (items_appended n _ ascii Hn []) as H0.
  pose proof (items_appended n _ ascii Hn [metadata e (checksum e)]) as H1. cbv zeta in H0, H1.
  split.
  - change (encode_utf8 (lines_text [])) with "" in H0.
    change (sort_keys <$> []) with (@nil json) in H0. rewrite append_nil, app_nil_r in H0. exact H0.
  - rewrite fmap_app. cbn [lines_text] in H1. rewrite append_nil in H1.
    rewrite append_assoc. exact H1.
Qed.

(** Adding an entry to what the manifest holds. *)
Lemma items_with_entry e' st' l :
  default "" st'.(manifest) = encode_utf8 (lines_text (entry_json <$> l)) →
  items_of (with_entry e' st') = Ok (entry_text <$> l ++ [entry_of e']).
Proof using JsonCodec0.
  intros Hm. unfold items_of, with_entry, set_field; cbn [manifest]. rewrite Hm.
  unfold TrainingStore.serialize. rewrite <- encode_app.
  change (dumps (metadata e' (checksum e')) +:+ String newline "") with (line (metadata e' (checksum e'))).
  rewrite <- lines_text_snoc.
  change ((entry_json <$> l) ++ [metadata e' (checksum e')]) with ((entry_json <$> l) ++ (entry_json <$> [entry_of e'])).
  by rewrite <- fmap_app, manifest_items_lines, entries_text.
Qed.

(** A save that a crash cut is finished by saving again.  Cut before
    either file was in place, temporary file left or not, or at any byte of
    the manifest write, the same save then succeeds, the episode is loaded
    back as it was saved, the other episodes are loaded as before, and the
    manifest yields one entry for each; only when the crash left part of the
    entry itself does the manifest still miss it (and has no other fault),
    until the episode is saved once more.  The entry's text is ASCII. *)
Theorem interrupted_save_is_finished c :
  let id := e.(episode_id) in
  valid_episode e → safe_id id = true → id ∉ entry_id <$> es →
  st.(episodes) !! (id +:+ ".sha256") = None →
  let st1 := crashed e st c in
  let st2 := (save_episode e st1).1 in
  let st3 := (save_episode e st2).1 in
  (save_episode e st1).2 = Ok (id +:+ ".json") ∧ (save_episode e st2).2 = Ok (id +:+ ".json") ∧
  load_episode id st2 = (st2, Ok (canon e)) ∧ load_episode id st3 = (st3, Ok (canon e)) ∧
  (∀ id', id' ≠ id → load_episode id' st2 = (st2, (load_episode id' st).2)) ∧
  iterate_metadata loads None st2 = (entry_text <$> es ++ (if torn c then [] else [entry_of e]), None) ∧
  iterate_metadata loads None st3 = (entry_text <$> es ++ [entry_of e], None).
Proof using All.
  intros id Hv Hs Hni Hsum st1 st2 st3.
  assert (Hfree : st.(episodes) !! (id +:+ ".json") = None).
  { apply eq_None_not_Some. intros Hl. by apply Hni, (cs_files _ _ before). }
  destruct (write_crashed e st c Hs Hfree Hsum) as (w & Hw & Hst & Hman & Hoth).
  pose proof (items_crashed c) as Hi. fold st1 in Hi, Hw, Hman.
  assert (Hiw : items_of w = items_of st1) by (unfold items_of; by rewrite Hman).
  set (got := match c with InManifest n => (String.length text <=? n)%nat | _ => false end) in Hi.
  assert (Hin : bool_decide (id ∈ entry_id <$> es ++ (if got then [entry_of e] else [])) = got).
  { rewrite fmap_app. destruct got.
    - apply bool_decide_eq_true_2, elem_of_app. right. constructor.
    - rewrite app_nil_r. by apply bool_decide_eq_false_2. }
  pose proof (save_over e st1 w _ Hv Hs Hw (eq_trans Hiw Hi)) as H1. fold id in H1. rewrite Hin in H1.
  set (w2 := if got then w else with_entry e w) in H1.
  assert (E2 : st2 = w2) by (unfold st2; by rewrite H1).
  assert (Hst2 : stored e w2) by (unfold w2; by destruct got).
  assert (Hi2 : items_of w2 = Ok (entry_text <$> es ++ (if torn c then [] else [entry_of e]))).
  { unfold w2, got. destruct c as [t|t|n]; cbn [torn].
    1,2: apply items_with_entry; rewrite Hman; unfold st1; cbn [crashed];
      (rewrite <- (cs_manifest _ _ before)); by destruct t as [[]|].
    unfold got in Hiw, Hi. destruct (Nat.leb_spec (String.length text) n) as [Hn|Hn].
    - rewrite (proj2 (Nat.ltb_ge n (String.length text)) Hn), andb_false_r. by rewrite Hiw, Hi.
    - rewrite (proj2 (Nat.ltb_lt n (String.length text)) Hn), andb_true_r.
      destruct (Nat.ltb_spec 0 n) as [Hz|Hz].
      + unfold items_of, with_entry, set_field; cbn [manifest]. rewrite Hman. unfold st1.
        cbn [crashed manifest]. unfold set_field; cbn [manifest default from_option].
        rewrite (cs_manifest _ _ before), app_nil_r. rewrite entry_bytes_ascii at 1. rewrite substring_app by lia.
        apply items_again. lia.
      + apply items_with_entry. rewrite Hman. unfold st1. cbn [crashed]. unfold set_field; cbn [manifest default from_option].
        rewrite (cs_manifest _ _ before). replace n with 0 by lia.
        assert (Hz0 : ∀ b, String.substring 0 0 b = "") by (by intros []). rewrite Hz0. apply append_nil. }
  assert (Hw2 : write_episode (id +:+ ".json") (id +:+ ".sha256") (content e) (checksum e) w2 = (w2, Ok tt))
    by (unfold id; rewrite (write_again e e) by done; by rewrite String.eqb_refl).
  pose proof (save_over e w2 w2 _ Hv Hs Hw2 Hi2) as H3. fold id in H3.
  assert (Hin2 : bool_decide (id ∈ entry_id <$> es ++ (if torn c then [] else [entry_of e])) = negb (torn c)).
  { rewrite fmap_app. destruct (torn c); cbn [negb].
    - rewrite app_nil_r. by apply bool_decide_eq_false_2.
    - apply bool_decide_eq_true_2, elem_of_app. right. constructor. }
  rewrite Hin2 in H3. assert (E3 : st3 = if negb (torn c) then w2 else with_entry e w2)
    by (unfold st3; rewrite E2; by rewrite H3).
  split_and!.
  - by rewrite H1.
  - rewrite E2. by rewrite H3.
  - rewrite E2. by apply load_stored.
  - rewrite E3. apply load_stored; [|done..]. by destruct (torn c).
  - intros id' Hne. rewrite E2. apply load_frame. intros s Hs'. rewrite <- (Hoth _ _ Hs' Hne).
    unfold w2. by destruct got.
  - rewrite E2. by apply items_iterate.
  - rewrite E3. destruct (torn c) eqn:Ht; cbn [negb]; [|by apply items_iterate].
    apply items_iterate. destruct c as [t|t|n]; try done. cbn [torn] in Ht.
    apply andb_true_iff in Ht as [Hz%Nat.ltb_lt Hn%Nat.ltb_lt].
    assert (Hg : got = false) by (unfold got; by apply Nat.leb_gt).
    unfold w2. rewrite Hg. unfold items_of, with_entry, set_field; cbn [manifest default from_option].
    rewrite Hman. unfold st1. cbn [crashed]. unfold set_field; cbn [manifest default from_option].
    rewrite (cs_manifest _ _ before). rewrite entry_bytes_ascii at 1. rewrite substring_app by lia.
    apply items_again. lia.
Qed.
(** An entry cut by a crash costs the next one too.  When the crash left
    at least one byte of the entry but not the end of its line, the next
    save, of another episode, succeeds and that episode can be loaded, but its
    entry is glued to the rest of the line, and the manifest yields neither of
    the two, not even the one whose entry only lacked its end of line. *)
Theorem cut_entry_costs_the_next n e' :
  0 < n ≤ String.length text →
  valid_episode e' → safe_id e.(episode_id) = true → safe_id e'.(episode_id) = true →
  e'.(episode_id) ∉ entry_id <$> es → e'.(episode_id) ≠ e.(episode_id) →
  all_chars (in_range 0 127) (dumps (metadata e' (checksum e'))) = true →
  let st1 := crashed e st (InManifest n) in
  let st2 := (save_episode e' st1).1 in
  (save_episode e' st1).2 = Ok (e'.(episode_id) +:+ ".json") ∧
  load_episode e'.(episode_id) st2 = (st2, Ok (canon e')) ∧
  iterate_metadata loads None st1 =
    (entry_text <$> es ++ (if (n =? String.length text)%nat then [entry_of e] else []), None) ∧
  iterate_metadata loads None st2 = (entry_text <$> es, None).
Proof using All.
  intros Hn Hv Hse Hs Hni Hne Ha st1 st2.
  pose proof (items_crashed (InManifest n)) as Hi. fold st1 in Hi.
  assert (Hle : (String.length text <=? n)%nat = (n =? String.length text)%nat).
  { destruct (Nat.leb_spec (String.length text) n), (Nat.eqb_spec n (String.length text)); lia || done. }
  cbv beta iota in Hi. rewrite Hle in Hi.
  assert (Hfree : st1.(episodes) !! (e'.(episode_id) +:+ ".json") = None).
  { unfold st1. rewrite crashed_other by done. apply eq_None_not_Some. intros Hl.
    by apply Hni, (cs_files _ _ before). }
  pose proof (save_over e' st1 _ _ Hv Hs (write_fresh e' st1 Hfree) Hi) as Hsave.
  rewrite bool_decide_eq_false_2 in Hsave.
  2: { rewrite fmap_app. intros [?|Hin]%elem_of_app; [done|]. destruct (n =? _)%nat.
       - apply list_elem_of_singleton in Hin. by apply Hne.
       - by apply elem_of_nil in Hin. }
  assert (E2 : st2 = with_entry e' (with_files e' st1)) by (unfold st2; by rewrite Hsave).
  split_and!.
  - by rewrite Hsave.
  - rewrite E2. apply load_stored; [|done..]. exact (with_files_stored e' st1).
  - by apply items_iterate.
  - rewrite E2. apply items_iterate. unfold items_of, with_entry, with_files, st1. cbn [crashed].
    unfold set_field; cbn [manifest default from_option].
    rewrite (cs_manifest _ _ before). rewrite entry_bytes_ascii, substring_app by lia.
    pose proof (items_appended n _ Ha Hn []) as H0. cbv zeta in H0.
    change (encode_utf8 (lines_text [])) with "" in H0. change (sort_keys <$> []) with (@nil json) in H0.
    rewrite append_nil, app_nil_r in H0. exact H0.
Qed.
End cut.
End store.

(** ** Examples *)

Definition no_floats (_ : string) (_ : Z) : bool := false.
Definition no_repr (_ : json) : string := "".

Definition sample_episode (id : string) (labels : list json) : TrainingEpisode :=
  mk_episode id "task-1" None "2024-01-01T00:00:00+00:00" [("project", JStr "spear")] [("objective", JStr "fix it")]
    (match turn_of (JObj [("turn_id", JStr "turn_000000"); ("episode_id", JStr id); ("task_id", JStr "task-1");
        ("session_id", JNull); ("turn_index", JInt 0); ("role", JStr "main"); ("purpose", JStr "primary_agent");
        ("primary_candidate", JBool true); ("system", JStr "s"); ("messages", JList []);
        ("tool_view_hash", JStr "h"); ("tool_names", JList []); ("tools_enabled", JBool true);
        ("labels", JList labels);
        ("tool_calls", JList [JObj [("tool_call_id", JStr "c1"); ("name", JStr "bash"); ("arguments", JObj [])]])])
     with Ok t => [t] | Raise _ => [] end)
    [] [] [] [("eligibility", JStr "positive_candidate")].

Lemma sample_valid_episode id labels : valid_episode (sample_episode id labels).
Proof.
  apply Forall_singleton. split; [reflexivity|]. eexists. split; [reflexivity|]. apply Forall_singleton.
  eexists. split; reflexivity.
Qed.

#[local] Abbreviation sample_save :=
  (save_episode no_floats no_repr toy_hash bits_dumps bits_loads).
#[local] Abbreviation sample_step := (step no_floats no_repr toy_hash bits_dumps bits_loads).

Definition sample_first : TrainingEpisode := sample_episode "episode_1" [].
Definition sample_second : TrainingEpisode := sample_episode "episode_2" [JStr "useful_read"].
Definition sample_store : store := (sample_save sample_first empty).1.

Lemma sample_reached : rtc sample_step empty sample_store.
Proof. apply rtc_once. constructor. apply sample_valid_episode. Qed.

Lemma manifest_names_each_episode_once_witness :
  ∃ es : list (TrainingEpisode * string),
    iterate_metadata bits_loads None sample_store = (entry_text <$> es, None) ∧
    exists_ "episode_1" sample_store = (sample_store, Ok (bool_decide ("episode_1" ∈ entry_id <$> es))).
Proof.
  destruct (manifest_names_each_episode_once no_floats no_repr toy_hash bits_dumps bits_loads toy_hash_shape
    sample_store sample_reached) as (es & _ & Hi & He & _).
  exists es. split; [exact Hi|]. by apply He.
Defined.

Lemma episodes_are_immutable_witness :
  (sample_save sample_second sample_store).2 = Ok "episode_2.json" ∧
  sample_save (sample_episode "episode_1" [JStr "other"]) sample_store =
    (sample_store, Raise (TrainingStoreError "immutable episode already exists with other content")).
Proof.
  destruct (episodes_are_immutable no_floats no_repr toy_hash bits_dumps bits_loads toy_hash_shape
    sample_store sample_second sample_reached (sample_valid_episode _ _)) as [H _].
  destruct (episodes_are_immutable no_floats no_repr toy_hash bits_dumps bits_loads toy_hash_shape
    sample_store (sample_episode "episode_1" [JStr "other"]) sample_reached (sample_valid_episode _ _)) as [H' _].
  assert (E : sample_store.(episodes) !! "episode_2.json" = None) by (vm_compute; reflexivity).
  assert (E' : ∃ taken, sample_store.(episodes) !! "episode_1.json" = Some taken ∧
    String.eqb (toy_hash taken) (checksum toy_hash bits_dumps (sample_episode "episode_1" [JStr "other"])) = false)
    by (eexists; split; vm_compute; reflexivity).
  destruct E' as (taken & E' & Ec).
  change (episode_id sample_second) with "episode_2" in H.
  change (episode_id (sample_episode "episode_1" [JStr "other"])) with "episode_1" in H'.
  change (safe_id "episode_2") with true in H. change (safe_id "episode_1") with true in H'. cbv iota in H, H'.
  change ("episode_2" +:+ ".json") with "episode_2.json" in H. change ("episode_1" +:+ ".json") with "episode_1.json" in H'.
  rewrite E in H. rewrite E', Ec in H'. split; [exact (proj1 H)|exact H'].
Defined.

Lemma sample_ascii e : all_chars (in_range 0 127) (bits_dumps (metadata e (checksum toy_hash bits_dumps e))) = true.
Proof. apply bits_ascii. Qed.

Lemma empty_is_consistent : consistent toy_hash bits_dumps empty [].
Proof. apply empty_consistent. Qed.

(** The first ten bytes of the entry were written. *)
Lemma interrupted_save_is_finished_witness :
  let st1 := crashed toy_hash bits_dumps sample_first empty (InManifest 10) in
  let st2 := (sample_save sample_first st1).1 in
  load_episode no_floats no_repr toy_hash bits_loads "episode_1" st2 = (st2, Ok (canon sample_first)) ∧
  iterate_metadata bits_loads None st2 = ([], None).
Proof.
  destruct (interrupted_save_is_finished no_floats no_repr toy_hash bits_dumps bits_loads toy_hash_shape
    sample_first [] empty empty_is_consistent (sample_ascii _) (InManifest 10) (sample_valid_episode _ _)
    ltac:(reflexivity) ltac:(apply not_elem_of_nil) ltac:(reflexivity)) as (_ & _ & Hl & _ & _ & Hi & _).
  split; [exact Hl|].
  assert (Ht : torn toy_hash bits_dumps sample_first (InManifest 10) = true) by (vm_compute; reflexivity).
  rewrite Ht in Hi. exact Hi.
Defined.

Lemma cut_entry_costs_the_next_witness :
  let st1 := crashed toy_hash bits_dumps sample_first empty (InManifest 10) in
  iterate_metadata bits_loads None (sample_save sample_second st1).1 = ([], None).
Proof.
  destruct (cut_entry_costs_the_next no_floats no_repr toy_hash bits_dumps bits_loads toy_hash_shape
    sample_first [] empty empty_is_consistent (sample_ascii _) 10 sample_second
    ltac:(apply (bool_decide_unpack _); vm_compute; exact I) (sample_valid_episode _ _)
    ltac:(reflexivity) ltac:(reflexivity) ltac:(apply not_elem_of_nil) ltac:(discriminate) (sample_ascii _))
    as (_ & _ & _ & Hi).
  exact Hi.
Defined.
