(* ===== verification/TrainingRedaction.v ===== *)
(** * Redaction of training data: [TrainingRedactionPolicy] of
    [client/training/training_data.py]

    The policy's patterns are matchers: the length of a match at the start of
    a text, given the character in front of it.  The iteration order of the
    set of sensitive values is a parameter. *)

From Stdlib Require Import Ascii.
From S2P Require Import Prelude Texts Values.

Open Scope py_scope.

(** ** Matchers *)

(** The text starts with [word] whatever its case; what follows. *)
Definition after_word (word s : string) : option string :=
  if String.prefix word (py_lower s) then Some (drop (String.length word) s) else None.

Definition after_spaces (s : string) : string := (span py_isspace s).2.

Fixpoint first_some {A B} (f : A → option B) (l : list A) : option B :=
  match l with [] => None | a :: l => match f a with Some b => Some b | None => first_some f l end end.

(** The length of what was passed over to get from [s] to [rest]. *)
Definition passed (s rest : string) : nat := String.length s - String.length rest.

(** The text starts with the marker of a private key. *)
Definition after_marker (start s : string) : option string :=
  if String.prefix start s then
    let s := drop (String.length start) s in
    first_some (λ kind, let marker := kind +:+ "PRIVATE KEY-----" in
                        if String.prefix marker s then Some (drop (String.length marker) s) else None)
      ["RSA "; "EC "; "OPENSSH "; ""]
  else None.

(** The first end marker, and what follows it. *)
Fixpoint find_end (s : string) : option string :=
  match after_marker "-----END " s with
  | Some rest => Some rest
  | None => match s with EmptyString => None | String _ s' => find_end s' end
  end.

Definition match_private_key : matcher := λ _ s,
  match after_marker "-----BEGIN " s with
  | Some body => passed s <$> find_end body
  | None => None
  end.

Definition match_authorization : matcher := λ before s,
  if at_word before then
    match after_word "authorization" s with
    | Some rest =>
        match after_spaces rest with
        | String ":"%char rest =>
            let '(value, rest) := span not_space (after_spaces rest) in
            if str_true value then
              let '(second, rest') := span not_space (after_spaces rest) in
              Some (passed s (if str_true second then rest' else rest))
            else None
        | _ => None
        end
    | None => None
    end
  else None.

Definition key_char (c : ascii) : bool := is_alnum c || one_of "_-" c.

(** The longest of at least 16 key characters that ends at a word boundary:
    [run] is what was read, last character first. *)
Fixpoint longest_key (run : list ascii) (next : option ascii) : option nat :=
  match run with
  | [] => None
  | c :: run' =>
      if (length run <? 16)%nat then None
      else if xorb (is_word c) (is_word_at next) then Some (length run)
      else longest_key run' (Some c)
  end.

Definition match_api_key : matcher := λ before s,
  if at_word before then
    match first_some (λ p, if String.prefix p s then Some (drop 3 s) else None) ["sk-"; "rk-"; "pk-"] with
    | Some rest =>
        let '(run, rest) := span key_char rest in
        (λ n, 3 + n) <$> longest_key (rev (String.list_ascii_of_string run)) (Values.head rest)
    | None => None
    end
  else None.

Definition value_char (c : ascii) : bool := not_space c && negb (one_of ",;" c).

(** [\s*[signs]\s*[^\s,;]+], and what follows. *)
Definition after_assignment (signs s : string) : option string :=
  match after_spaces s with
  | String c rest =>
      if one_of signs c then
        let '(value, rest) := span value_char (after_spaces rest) in
        if str_true value then Some rest else None
      else None
  | EmptyString => None
  end.

Definition credential_words : list string :=
  ["password"; "passwd"; "api_key"; "api-key"; "apikey"; "secret"; "token"].

Definition match_credential : matcher := λ before s,
  if at_word before then
    first_some (λ w, match after_word w s with
                     | Some rest => passed s <$> after_assignment ":=" rest
                     | None => None
                     end) credential_words
  else None.

Definition ends_with (suffix s : string) : bool :=
  (String.length suffix <=? String.length s)%nat
  && String.eqb (drop (String.length s - String.length suffix) s) suffix.

(** The name is all of the letters, digits and underscores in front of the
    sign, and the keyword its end. *)
Definition match_environment : matcher := λ before s,
  if at_word before then
    let '(name, rest) := span (λ c, is_alnum c || Ascii.eqb c "_"%char) s in
    match name with
    | String c tail =>
        if (is_upper c || is_lower c)
           && existsb (λ w, ends_with w (py_lower tail)) ["token"; "secret"; "password"; "passwd"; "api_key"]
        then passed s <$> after_assignment "=" rest else None
    | EmptyString => None
    end
  else None.

(** [_PATTERNS] *)
Definition patterns : list (string * matcher) :=
  [("private_key", match_private_key); ("authorization", match_authorization); ("api_key", match_api_key);
   ("credential", match_credential); ("environment_credential", match_environment)].

(** [_KEY.search(key)]: one of the words, between separators or the ends;
    the end may be followed by one end of line. *)
Definition sensitive_words : list string := "authorization" :: credential_words ++ ["credential"].

Definition separator (c : ascii) : bool := one_of "_-" c.

Definition word_at (s : string) : bool :=
  existsb (λ w, match after_word w s with
                | Some EmptyString => true
                | Some (String c rest) => separator c || Ascii.eqb c "010"%char && String.eqb rest ""
                | None => false
                end) sensitive_words.

Fixpoint word_after (s : string) : bool :=
  match s with
  | EmptyString => false
  | String c s' => separator c && word_at s' || word_after s'
  end.

Definition sensitive_key (key : string) : bool := word_at key || word_after key.

(** ** The policy *)

(** A stable insertion sort, longest first. *)
Fixpoint insert_by_length (x : string) (l : list string) : list string :=
  match l with
  | [] => [x]
  | y :: l' => if (String.length x <? String.length y)%nat then y :: insert_by_length x l' else x :: l
  end.
Definition sort_by_length (l : list string) : list string := foldr insert_by_length [] l.

(** [__init__] *)
Definition sensitive_values (set_order : list string → list string) (values : list json) : list string :=
  sort_by_length (set_order (unique (omap (λ v, match v with
    | JStr s => if (8 <=? String.length s)%nat then Some s else None
    | _ => None
    end) values))).

(** [from_environment] *)
Definition from_environment (set_order : list string → list string) (environment : dict string string)
    : list string :=
  sensitive_values set_order
    (omap (λ kv, if sensitive_key kv.1 then Some (JStr kv.2) else None) environment).

Definition match_literal (secret : string) : matcher := λ _ s,
  if String.prefix secret s then Some (String.length secret) else None.

Definition marker (kind : string) : string := "[REDACTED:" +:+ kind +:+ "]".

Abbreviation counts := (dict string Z).

Definition add_count (kind : string) (n : nat) (c : counts) : counts :=
  if (n =? 0)%nat then c else dict_set kind (dict_get_default c kind 0 + Z.of_nat n)%Z c.

(** One pattern of [replace_text], and its count. *)
Definition apply_pattern (kind : string) (m : matcher) (p : string * counts) : string * counts :=
  let '(text, c) := p in
  let '(text', n) := subn m (marker kind) text in (text', add_count kind n c).

Section policy.
  Context (secrets : list string).

(** [replace_text] *)
Definition replace_text (text : string) (c : counts) : string * counts :=
  let p := foldl (λ p secret, apply_pattern "environment_secret" (match_literal secret) p) (text, c) secrets in
  foldl (λ p km, apply_pattern km.1 km.2 p) p patterns.

(** [walk] *)
Fixpoint walk (item : json) (key : option string) (c : counts) : json * counts :=
  if match key with Some k => sensitive_key k | None => false end
  then (JStr (marker "sensitive_field"), add_count "sensitive_field" 1 c)
  else match item with
  | JStr s => let '(t, c) := replace_text s c in (JStr t, c)
  | JObj m =>
      let '(m', c) := (fix go (m : list (string * json)) c := match m with
         | [] => ([], c)
         | (k, v) :: m =>
             let '(v', c) := walk v (Some k) c in
             let '(m', c) := go m c in ((k, v') :: m', c)
         end) m c in (JObj m', c)
  | JList l =>
      let '(l', c) := (fix go l c := match l with
         | [] => ([], c)
         | v :: l =>
             let '(v', c) := walk v None c in
             let '(l', c) := go l c in (v' :: l', c)
         end) l c in (JList l', c)
  | _ => (item, c)
  end.

Record report := mk_report { redaction_count : Z; categories : list string }.

(** [redact] *)
Definition redact (value : json) : json * report :=
  let '(redacted, c) := walk value None [] in
  (redacted, mk_report (foldr Z.add 0%Z (dict_values c)) (sort_strings (dict_keys c))).
End policy.

(** ** Correctness of redaction

    Fields whose name looks like a credential are dropped whole, a private
    key is always reported, and what is changed is counted. *)

#[local] Open Scope Z_scope.
(** ** Replacing *)

Lemma subn_zero m r s t : subn m r s = (t, 0%nat) → t = s.
Proof.
  unfold subn. generalize (@None ascii). revert t. induction s as [|c s IH]; intros t b; cbn; [by intros [= <-]|].
  assert (Hkeep : ∀ p, (let '(t, k) := subn_from m r (Some c) 0 s in (String c t, k)) = p → p = (t, 0%nat) → t = String c s).
  { intros p <-. destruct (subn_from m r (Some c) 0 s) as [u k] eqn:Hs. intros [= <- ->]. by rewrite (IH _ _ Hs). }
  destruct (m b (String c s)) as [[|n]|].
  - intros H. by eapply Hkeep.
  - destruct (subn_from m r (Some c) n s) as [u k]. discriminate.
  - intros H. by eapply Hkeep.
Qed.

(** ** Counting *)

Definition total (c : counts) : Z := foldr Z.add 0 (dict_values c).

Lemma total_set (c : counts) k v : total (dict_set k v c) = total c - dict_get_default c k 0 + v.
Proof.
  unfold total, dict_get_default, dict_values. induction c as [|[k' v'] c IH]; cbn; [lia|].
  case_decide; cbn in *; lia.
Qed.

Lemma total_add kind n c : total (add_count kind n c) = total c + Z.of_nat n.
Proof. unfold add_count. destruct (Nat.eqb_spec n 0) as [->|]; [lia|]. rewrite total_set. lia. Qed.

Lemma add_keys kind n c : dict_keys c ⊆ dict_keys (add_count kind n c).
Proof.
  unfold add_count. destruct (n =? 0)%nat; [done|]. intros k Hk. apply dict_keys_set. auto.
Qed.

Lemma add_key kind n c : (0 < n)%nat → kind ∈ dict_keys (add_count kind n c).
Proof. intros Hn. unfold add_count. destruct (Nat.eqb_spec n 0); [lia|]. apply dict_keys_set. auto. Qed.

(** What one step of the redaction does to what it is given. *)
Record accounted {A} (x : A) (c : counts) (x' : A) (c' : counts) : Prop := {
  ac_keys : dict_keys c ⊆ dict_keys c';
  ac_total : total c <= total c';
  ac_same : total c' = total c → x' = x ∧ c' = c;
}.

Lemma accounted_refl {A} (x : A) c : accounted x c x c.
Proof. split; [done|lia|done]. Qed.

Lemma accounted_trans {A} (x y z : A) c d e : accounted x c y d → accounted y d z e → accounted x c z e.
Proof.
  intros [H1 H2 H3] [K1 K2 K3]. split; [by etrans|lia|]. intros Ht.
  destruct K3 as [-> ->]; [lia|]. apply H3. lia.
Qed.

Lemma apply_pattern_accounted kind m text c :
  accounted text c (apply_pattern kind m (text, c)).1 (apply_pattern kind m (text, c)).2.
Proof.
  unfold apply_pattern. destruct (subn m (marker kind) text) as [t n] eqn:Hs. cbn [fst snd]. split.
  - apply add_keys.
  - rewrite total_add. lia.
  - rewrite total_add. intros Hn. assert (n = 0%nat) as -> by lia. by apply subn_zero in Hs as ->.
Qed.

Lemma foldl_accounted {B} (f : B → string * matcher) (l : list B) text c :
  let p := foldl (λ p b, apply_pattern (f b).1 (f b).2 p) (text, c) l in
  accounted text c p.1 p.2.
Proof.
  revert text c. induction l as [|b l IH]; intros text c; cbn [foldl]; [apply accounted_refl|].
  pose proof (apply_pattern_accounted (f b).1 (f b).2 text c) as H.
  destruct (apply_pattern _ _ _) as [text' c']. eapply accounted_trans; [exact H|apply IH].
Qed.

Section policy.
  Context (secrets : list string).

#[local] Abbreviation replace_text := (replace_text secrets).
#[local] Abbreviation walk := (walk secrets).

(** The text once the sensitive values are gone. *)
Definition without_secrets (text : string) (c : counts) : string * counts :=
  foldl (λ p secret, apply_pattern "environment_secret" (match_literal secret) p) (text, c) secrets.

Lemma replace_text_accounted text c : accounted text c (replace_text text c).1 (replace_text text c).2.
Proof.
  unfold TrainingRedaction.replace_text.
  pose proof (foldl_accounted (λ secret, ("environment_secret", match_literal secret)) secrets text c) as H.
  cbn in H. destruct (foldl _ (text, c) secrets) as [text' c']. eapply accounted_trans; [exact H|].
  apply (foldl_accounted (λ km, km)).
Qed.

(** A private key in a text. *)
Definition text_holds_key (text : string) : bool :=
  (0 <? (subn match_private_key (marker "private_key") (without_secrets text []).1).2)%nat.

Lemma without_secrets_text text c c' : (without_secrets text c).1 = (without_secrets text c').1.
Proof.
  unfold without_secrets. revert text c c'. induction secrets as [|s l IH]; intros text c c'; cbn [foldl]; [done|].
  unfold apply_pattern at 2 4. destruct (subn _ _ text) as [t n]. apply IH.
Qed.

Lemma replace_text_key text c :
  text_holds_key text = true → "private_key" ∈ dict_keys (replace_text text c).2.
Proof.
  unfold text_holds_key, TrainingRedaction.replace_text. fold (without_secrets text c).
  rewrite (without_secrets_text text [] c). intros Hn%Nat.ltb_lt.
  destruct (without_secrets text c) as [t d]. cbn [fst] in Hn. unfold patterns. cbn [foldl fst snd].
  pose proof (foldl_accounted (λ km, km)
    [("authorization", match_authorization); ("api_key", match_api_key); ("credential", match_credential);
     ("environment_credential", match_environment)]) as H. cbn [foldl fst snd] in H.
  unfold apply_pattern at 5. destruct (subn match_private_key _ t) as [t' n]. cbn [snd] in Hn.
  apply H. by apply add_key.
Qed.

(** ** Structures *)

(** Every field with a sensitive name holds the marker. *)
Fixpoint fields_dropped (v : json) : bool :=
  match v with
  | JObj m => (fix go m := match m with
      | [] => true
      | (k, v) :: m =>
          (if sensitive_key k then match v with JStr s => String.eqb s (marker "sensitive_field") | _ => false end
           else fields_dropped v) && go m
      end) m
  | JList l => (fix go l := match l with [] => true | v :: l => fields_dropped v && go l end) l
  | _ => true
  end.

(** A private key somewhere outside such a field. *)
Fixpoint holds_key (v : json) : bool :=
  match v with
  | JStr s => text_holds_key s
  | JObj m => (fix go m := match m with
      | [] => false
      | (k, v) :: m => negb (sensitive_key k) && holds_key v || go m
      end) m
  | JList l => (fix go l := match l with [] => false | v :: l => holds_key v || go l end) l
  | _ => false
  end.

Definition hidden (key : option string) : bool := match key with Some k => sensitive_key k | None => false end.

(** What a step promises of a value. *)
Record walked (v : json) (key : option string) (c : counts) (v' : json) (c' : counts) : Prop := {
  wk_accounted : accounted v c v' c';
  wk_dropped : hidden key = false → fields_dropped v' = true;
  wk_marker : hidden key = true → v' = JStr (marker "sensitive_field");
  wk_key : hidden key = false → holds_key v = true → "private_key" ∈ dict_keys c';
}.

Lemma walk_hidden v key c :
  hidden key = true → walk v key c = (JStr (marker "sensitive_field"), add_count "sensitive_field" 1 c).
Proof. unfold hidden. destruct v, key; cbn; try done; by intros ->. Qed.

Lemma walk_atom v key c :
  hidden key = false → match v with JStr _ | JObj _ | JList _ => False | _ => True end → walk v key c = (v, c).
Proof. unfold hidden. destruct v, key; cbn; try done; by intros ->. Qed.

Lemma walked_hidden v key c :
  hidden key = true → walked v key c (JStr (marker "sensitive_field")) (add_count "sensitive_field" 1 c).
Proof.
  intros Hh. split; [|congruence..|congruence]. split; [apply add_keys| |]; rewrite total_add; lia.
Qed.
Fixpoint walk_fields (m : list (string * json)) (c : counts) : list (string * json) * counts :=
  match m with
  | [] => ([], c)
  | (k, v) :: m =>
      let '(v', c) := walk v (Some k) c in
      let '(m', c) := walk_fields m c in ((k, v') :: m', c)
  end.

Fixpoint walk_items (l : list json) (c : counts) : list json * counts :=
  match l with
  | [] => ([], c)
  | v :: l =>
      let '(v', c) := walk v None c in
      let '(l', c) := walk_items l c in (v' :: l', c)
  end.

Lemma walk_obj m key c :
  hidden key = false → walk (JObj m) key c = (JObj (walk_fields m c).1, (walk_fields m c).2).
Proof.
  intros Hh. transitivity (let '(m', c') := walk_fields m c in (JObj m', c')); [|by destruct (walk_fields m c)].
  destruct key as [k|]; unfold hidden in Hh; cbn; [rewrite Hh|]; reflexivity.
Qed.

Lemma walk_list l key c :
  hidden key = false → walk (JList l) key c = (JList (walk_items l c).1, (walk_items l c).2).
Proof.
  intros Hh. transitivity (let '(l', c') := walk_items l c in (JList l', c')); [|by destruct (walk_items l c)].
  destruct key as [k|]; unfold hidden in Hh; cbn; [rewrite Hh|]; reflexivity.
Qed.

Lemma accounted_map {A B} (f : A → B) x c x' c' : accounted x c x' c' → accounted (f x) c (f x') c'.
Proof. intros [H1 H2 H3]. split; [done|done|]. intros Ht. destruct (H3 Ht) as [-> ->]. done. Qed.

Lemma accounted_cons {A B} (f : B → A) (v : A) v' c c' (l : list B) l' c'' (g : A → B) :
  accounted v c v' c' → accounted l c' l' c'' → accounted (g v :: l) c (g v' :: l') c''.
Proof.
  intros H K. eapply accounted_trans; [exact (accounted_map (λ v, g v :: l) _ _ _ _ H)|].
  exact (accounted_map (cons (g v')) _ _ _ _ K).
Qed.

Lemma walk_spec : ∀ v key c, walked v key c (walk v key c).1 (walk v key c).2.
Proof.
  fix IH 1. intros v key c. destruct (hidden key) eqn:Hh.
  { rewrite walk_hidden by done. by apply walked_hidden. }
  destruct v as [| | | |s|l|m];
    try (rewrite walk_atom by done; split; [apply accounted_refl|done|congruence|done]).
  - assert (Hw : walk (JStr s) key c = (JStr (replace_text s c).1, (replace_text s c).2)).
    { transitivity (let '(t, d) := replace_text s c in (JStr t, d)); [|by destruct (replace_text s c)].
      destruct key as [k|]; unfold hidden in Hh; cbn -[TrainingRedaction.replace_text]; [rewrite Hh|]; reflexivity. }
    rewrite Hw. cbn [fst snd]. split; [apply (accounted_map JStr), replace_text_accounted|done|congruence|].
    intros _ Hk. by apply replace_text_key.
  - rewrite walk_list by done. cbn [fst snd].
    assert (Hl : accounted l c (walk_items l c).1 (walk_items l c).2 ∧
      fields_dropped (JList (walk_items l c).1) = true ∧
      (holds_key (JList l) = true → "private_key" ∈ dict_keys (walk_items l c).2)).
    { revert c. induction l as [|v l IHl]; intros c; [split_and!; [apply accounted_refl|done..]|].
      cbn [walk_items]. pose proof (IH v None c) as [Ha Hd _ Hk]. destruct (walk v None c) as [v' c1].
      cbn [fst snd] in *. destruct (IHl c1) as (Ka & Kd & Kk). destruct (walk_items l c1) as [l' c2].
      cbn [fst snd] in *. split_and!.
      - exact (accounted_cons (λ x, x) _ _ _ _ _ _ _ (λ x, x) Ha Ka).
      - change (fields_dropped v' && fields_dropped (JList l') = true). by rewrite (Hd eq_refl), Kd.
      - change (holds_key v || holds_key (JList l) = true → "private_key" ∈ dict_keys c2).
        intros [Hv|Hv]%orb_true_iff; [|auto]. apply (ac_keys _ _ _ _ Ka). auto. }
    destruct Hl as (Ha & Hd & Hk). split; [by apply (accounted_map JList)|done|congruence|auto].
  - rewrite walk_obj by done. cbn [fst snd].
    assert (Hl : accounted m c (walk_fields m c).1 (walk_fields m c).2 ∧
      fields_dropped (JObj (walk_fields m c).1) = true ∧
      (holds_key (JObj m) = true → "private_key" ∈ dict_keys (walk_fields m c).2)).
    { revert c. induction m as [|[k v] m IHl]; intros c; [split_and!; [apply accounted_refl|done..]|].
      cbn [walk_fields]. pose proof (IH v (Some k) c) as [Ha Hd Hm Hk]. destruct (walk v (Some k) c) as [v' c1].
      cbn [fst snd hidden] in *. destruct (IHl c1) as (Ka & Kd & Kk). destruct (walk_fields m c1) as [m' c2].
      cbn [fst snd] in *. split_and!.
      - exact (accounted_cons (λ kv : string * json, kv.2) _ _ _ _ _ _ _ (λ x, (k, x)) Ha Ka).
      - change ((if sensitive_key k then match v' with JStr s => String.eqb s (marker "sensitive_field") | _ => false end
                 else fields_dropped v') && fields_dropped (JObj m') = true).
        rewrite Kd, andb_true_r. destruct (sensitive_key k); [|auto].
        by rewrite (Hm eq_refl), String.eqb_refl.
      - change (negb (sensitive_key k) && holds_key v || holds_key (JObj m) = true → "private_key" ∈ dict_keys c2).
        intros [[Hs%negb_true_iff Hv]%andb_true_iff|Hv]%orb_true_iff; [|auto].
        apply (ac_keys _ _ _ _ Ka). auto. }
    destruct Hl as (Ha & Hd & Hk). split; [by apply (accounted_map JObj)|done|congruence|auto].
Qed.

(** A redaction is complete on fields and accounts for what it does.
    In what it returns, every field at any depth whose name looks like a
    credential holds the marker and nothing else; the count is not negative,
    and it is 0 only if the value is returned unchanged and no category is
    reported; and a private key in any text outside those fields (once the
    sensitive values are replaced) is reported. *)
Theorem redaction_accounts_for_changes (value : json) :
  let '(redacted, r) := redact secrets value in
  fields_dropped redacted = true ∧
  0 <= redaction_count r ∧
  (redaction_count r = 0 → redacted = value ∧ categories r = []) ∧
  (holds_key value = true → "private_key" ∈ categories r).
Proof.
  unfold redact. destruct (walk_spec value None []) as [[Hk Ht Hs] Hd _ Hp].
  destruct (walk value None []) as [v c]. cbn [fst snd redaction_count categories] in *.
  change (foldr Z.add 0 (dict_values c)) with (total c). change (total []) with 0 in *. split_and!; auto.
  - intros H0. destruct (Hs H0) as [-> ->]. done.
  - intros Hv. apply sort_strings_elem. auto.
Qed.
End policy.
