(* ===== verification/TrainingGovernance.v ===== *)
(** * Splits and governance of training data:
    [client/training/training_splits.py] and
    [client/training/training_governance.py]

    SHA-256 (in hexadecimal), the JSON text codec and [repr] of floats and
    containers are parameters. *)

From Stdlib Require Import Ascii.
From S2P Require Import Prelude Texts Values Codec TrainingData.

Open Scope py_scope.

(** ** Data *)

Inductive exn := ValueError (msg : string) | TypeError.

Record SplitConfiguration := mk_split { train : Z; validation : Z; test : Z }.

Inductive DataOrigin :=
  | NORMAL_USAGE | BENCHMARK | TEST_FIXTURE | SYNTHETIC | MANUAL_IMPORT | LICENSED_STANDARD.

#[export] Instance DataOrigin_eq_dec : EqDecision DataOrigin.
Proof. solve_decision. Defined.

#[export] Instance DataOrigin_enum : StrEnum DataOrigin := {|
  enum_members := [NORMAL_USAGE; BENCHMARK; TEST_FIXTURE; SYNTHETIC; MANUAL_IMPORT; LICENSED_STANDARD];
  enum_value o := match o with
    | NORMAL_USAGE => "NORMAL_USAGE" | BENCHMARK => "BENCHMARK" | TEST_FIXTURE => "TEST_FIXTURE"
    | SYNTHETIC => "SYNTHETIC" | MANUAL_IMPORT => "MANUAL_IMPORT" | LICENSED_STANDARD => "LICENSED_STANDARD" end;
  enum_complete := ltac:(enum_all);
  enum_distinct := ltac:(enum_nodup) |}.

Record GovernanceDecision := mk_decision {
  allowed : bool;
  origin : string;
  project : string;
  split_group_id : string;
  reasons : list string;
}.

Record TrainingDataGovernancePolicy := mk_policy {
  include_projects : list string;
  exclude_projects : list string;
  permanent_holdout_groups : list string;
  allowed_origins : list string;
  policy_version : Z;
}.

(** ** Splits *)

(** [SplitConfiguration.__post_init__] *)
Definition SplitConfiguration_new (train validation test : json) : res exn SplitConfiguration :=
  match as_int train, as_int validation, as_int test with
  | Some a, Some b, Some c =>
      do? rguard ((0 <=? a) && (0 <=? b) && (0 <=? c))%Z
            (ValueError "split percentages must be non-negative integers") in
      do? rguard (a + b + c =? 100)%Z (ValueError "split percentages must total 100") in
      Ok (mk_split a b c)
  | _, _, _ => Raise (ValueError "split percentages must be non-negative integers")
  end.

(** [\[redacted:[^]]+\]] *)
Definition match_redacted : matcher := λ _ s,
  if String.prefix "[redacted:" s then
    let '(kind, rest) := span (λ c, negb (Ascii.eqb c "]"%char)) (drop 10 s) in
    match rest with
    | String _ _ => if str_true kind then Some (String.length kind + 11) else None
    | EmptyString => None
    end
  else None.

(** [[/\\][\w./\\-]+] *)
Definition match_tail (s : string) : option nat :=
  match s with
  | String c rest =>
      if one_of "/\" c then
        let '(run, _) := span (λ c, is_word c || one_of "./\-" c) rest in
        if str_true run then Some (S (String.length run)) else None
      else None
  | EmptyString => None
  end.

(** [(?:[a-z]:)?[/\\][\w./\\-]+] *)
Definition match_path : matcher := λ _ s,
  match s with
  | String d (String ":"%char rest) =>
      if is_lower d then match match_tail rest with Some n => Some (2 + n) | None => match_tail s end
      else match_tail s
  | _ => match_tail s
  end.

Definition is_hex_lower (c : ascii) : bool := is_digit c || in_range 97 102 c.

(** [\b[0-9a-f]{8,}\b] *)
Definition match_id : matcher := λ before s,
  let '(run, rest) := span is_hex_lower s in
  if at_word before && (8 <=? String.length run)%nat && negb (is_word_at (head rest))
  then Some (String.length run) else None.

Definition replace (m : matcher) (replacement s : string) : string := (subn m replacement s).1.

Section splits.
  Context (float_eq : string → Z → bool) (repr : json → string).
  Context (hash : string → string) (dumps : json → string).

(** [_normalize_task_text] *)
Definition normalize_task_text (value : json) : string :=
  let text := py_lower (py_str repr (py_or float_eq value (JStr ""))) in
  let text := replace match_redacted "[redacted]" text in
  let text := replace match_path "<path>" text in
  let text := replace match_id "<id>" text in
  unwords (words text).

Definition assign (c : SplitConfiguration) (group : string) : res exn string :=
  let? n := of_option (ValueError "invalid literal for int() with base 16")
              (int_of_hex (String.substring 0 16 (hash (encode_utf8 group)))) in
  let bucket := (n mod 100)%Z in
  Ok (if (bucket <? c.(train))%Z then "train"
      else if (bucket <? c.(train) + c.(validation))%Z then "validation"
      else "test").

Definition hash_value (j : json) : string := hash (encode_utf8 (dumps j)).

(** What the family of an episode is computed from. *)
Definition split_basis (e : TrainingEpisode) : res exn json :=
  let fixture := py_or float_eq (get_or_null e.(task) "fixture_id") (get_or_null e.(task) "task_identifier") in
  let? criteria := of_option TypeError
                     (py_iter (dict_get_default e.(task) "acceptance_criteria" (JList []))) in
  Ok (JObj [("project", get_or_null e.(provenance) "project");
            ("workspace", get_or_null e.(provenance) "workspace_fingerprint");
            ("fixture", fixture);
            ("objective", JStr (normalize_task_text (get_or_null e.(task) "objective")));
            ("acceptance", JList ((λ item, JStr (normalize_task_text item)) <$> criteria))]).

Definition split_group_for_episode (e : TrainingEpisode) : res exn string :=
  let? basis := split_basis e in
  Ok ("split_" +:+ String.substring 0 32 (hash_value basis)).

(** ** Governance *)

Definition known_origins : list string := enum_value <$> enum_members (A := DataOrigin).

(** [TrainingDataGovernancePolicy.__post_init__] *)
Definition policy_new (include exclude holdout origins : list string) (version : Z)
    : res exn TrainingDataGovernancePolicy :=
  do? rguard (forallb (λ o, bool_decide (o ∈ known_origins)) origins) (ValueError "unknown allowed data origin") in
  do? rguard (negb (existsb (λ p, bool_decide (p ∈ exclude)) include))
        (ValueError "project cannot be both included and excluded") in
  Ok (mk_policy include exclude holdout origins version).

Definition known_or_unknown (value : json) (dflt : DataOrigin) : string :=
  let value := py_upper (py_str repr (py_or float_eq value (JStr (enum_value dflt)))) in
  if bool_decide (value ∈ known_origins) then value else "UNKNOWN".

Definition origin_for (e : TrainingEpisode) : string :=
  match get_or_null e.(provenance) "standard_binding" with
  | JObj binding => known_or_unknown (get_or_null binding "data_origin") LICENSED_STANDARD
  | _ => known_or_unknown (get_or_null e.(provenance) "data_origin") NORMAL_USAGE
  end.

Definition origin_reason (origin : string) : string :=
  match enum_of (A := DataOrigin) origin with
  | Some BENCHMARK => "benchmark_excluded"
  | Some TEST_FIXTURE => "test_fixture_excluded"
  | Some SYNTHETIC => "synthetic_excluded"
  | Some LICENSED_STANDARD => "licensed_standard_review_required"
  | _ => "origin_not_allowed"
  end.

Definition assess (p : TrainingDataGovernancePolicy) (e : TrainingEpisode) : res exn GovernanceDecision :=
  let origin := origin_for e in
  let project := py_str repr (py_or float_eq (get_or_null e.(provenance) "project") (JStr "unknown")) in
  let? group := split_group_for_episode e in
  let reasons :=
    (if bool_decide (origin ∈ p.(allowed_origins)) then [] else [origin_reason origin]) ++
    (if match p.(include_projects) with [] => false | _ => true end
        && negb (bool_decide (project ∈ p.(include_projects))) then ["project_not_included"] else []) ++
    (if bool_decide (project ∈ p.(exclude_projects)) then ["project_excluded"] else []) ++
    (if bool_decide (group ∈ p.(permanent_holdout_groups)) then ["permanent_holdout"] else []) in
  Ok (mk_decision (match reasons with [] => true | _ => false end) origin project group (unique reasons)).

Definition policy_to_dict (p : TrainingDataGovernancePolicy) : json :=
  let list l := JList (JStr <$> l) in
  JObj [("policy_version", JInt p.(policy_version)); ("include_projects", list p.(include_projects));
        ("exclude_projects", list p.(exclude_projects));
        ("permanent_holdout_groups", list p.(permanent_holdout_groups));
        ("allowed_origins", list p.(allowed_origins))].
End splits.

(** ** Correctness of splits and governance

    Every group of episodes has one split, by its share of the hundred
    buckets, and the governance policy admits nothing it does not know. *)

(** ** Splits *)

Lemma split_new_Ok a b c cfg :
  SplitConfiguration_new a b c = Ok cfg →
  (0 <= cfg.(train))%Z ∧ (0 <= cfg.(validation))%Z ∧ (0 <= cfg.(test))%Z ∧
  (cfg.(train) + cfg.(validation) + cfg.(test) = 100)%Z.
Proof.
  unfold SplitConfiguration_new. destruct (as_int a) as [x|]; [|done]. destruct (as_int b) as [y|]; [|done].
  destruct (as_int c) as [z|]; [|done].
  intros (? & [[Hx Hy]%andb_true_iff Hz]%rguard_Ok%andb_true_iff & H)%rbind_Ok.
  apply rbind_Ok in H as (? & Hs%rguard_Ok & [= <-]). cbn. lia.
Qed.

(** The bucket of a group. *)
Definition bucket (hash : string → string) (group : string) : Z :=
  (default 0 (int_of_hex (String.substring 0 16 (hash (encode_utf8 group)))) mod 100)%Z.

Section splits.
  Context (hash : string → string).
  Hypothesis hash_shape : ∀ b, all_hex (hash b) = true ∧ String.length (hash b) = 64.

Lemma assign_bucket cfg group :
  assign hash cfg group =
    Ok (if (bucket hash group <? cfg.(train))%Z then "train"
        else if (bucket hash group <? cfg.(train) + cfg.(validation))%Z then "validation" else "test").
Proof using hash_shape.
  unfold assign, bucket. destruct (hash_shape (encode_utf8 group)) as [Hx Hl].
  assert (Ht : str_true (String.substring 0 16 (hash (encode_utf8 group))) = true)
    by (apply substring_some; [lia|by destruct (hash (encode_utf8 group))]).
  unfold int_of_hex. rewrite Ht.
  destruct (hex_from_all 0 _ (all_hex_substring _ 16 Hx) ltac:(lia)) as (n & -> & _). reflexivity.
Qed.

(** A group's split is its share of the hundred buckets.  Under any
    configuration the constructor accepts, every group is assigned, its
    bucket is between 0 and 99, the three splits take the first [train],
    the next [validation] and the last [test] buckets (so a share of 0 is
    never used and a share of 100 takes everything), and the bucket does not
    depend on the configuration: whatever the percentages become, a group
    stays in training while [train] does not shrink, and in test while
    [test] does not. *)
Theorem split_is_a_share_of_buckets (a b c a' b' c' : json) cfg cfg' group :
  SplitConfiguration_new a b c = Ok cfg → SplitConfiguration_new a' b' c' = Ok cfg' →
  (0 <= bucket hash group < 100)%Z ∧
  (assign hash cfg group = Ok "train" ↔ (bucket hash group < cfg.(train))%Z) ∧
  (assign hash cfg group = Ok "validation" ↔
     (cfg.(train) <= bucket hash group < cfg.(train) + cfg.(validation))%Z) ∧
  (assign hash cfg group = Ok "test" ↔ (100 - cfg.(test) <= bucket hash group)%Z) ∧
  (assign hash cfg group = Ok "train" ∨ assign hash cfg group = Ok "validation" ∨
   assign hash cfg group = Ok "test") ∧
  ((cfg.(train) <= cfg'.(train))%Z → assign hash cfg group = Ok "train" → assign hash cfg' group = Ok "train") ∧
  ((cfg.(test) <= cfg'.(test))%Z → assign hash cfg group = Ok "test" → assign hash cfg' group = Ok "test").
Proof using hash_shape.
  intros Hc%split_new_Ok Hc'%split_new_Ok.
  assert (Hb : (0 <= bucket hash group < 100)%Z) by (apply Z.mod_pos_bound; lia).
  rewrite !assign_bucket.
  repeat match goal with |- context [Z.ltb ?x ?y] => destruct (Z.ltb_spec x y) end;
    split_and!; auto; try lia; intros; (split; intros; try lia; done) || done || lia.
Qed.
End splits.

(** ** Governance *)

Section governance.
  Context (float_eq : string → Z → bool) (repr : json → string).
  Context (hash : string → string) (dumps : json → string).

#[local] Abbreviation assess := (assess float_eq repr hash dumps).
#[local] Abbreviation the_origin := (origin_for float_eq repr).
#[local] Abbreviation the_group := (split_group_for_episode float_eq repr hash dumps).

Definition project_of (e : TrainingEpisode) : string :=
  py_str repr (py_or float_eq (get_or_null e.(provenance) "project") (JStr "unknown")).

Lemma known_or_unknown_cases value dflt :
  known_or_unknown float_eq repr value dflt ∈ known_origins ∨ known_or_unknown float_eq repr value dflt = "UNKNOWN".
Proof. unfold known_or_unknown. case_bool_decide; auto. Qed.

Lemma origin_cases e : the_origin e ∈ known_origins ∨ the_origin e = "UNKNOWN".
Proof. unfold origin_for. destruct (get_or_null _ _); apply known_or_unknown_cases. Qed.

Lemma unknown_is_unknown : "UNKNOWN" ∉ known_origins.
Proof. apply (bool_decide_unpack _). vm_compute. exact I. Qed.

Lemma if_nil {A} (b : bool) (x : A) : (if b then [x] else []) = [] ↔ b = false.
Proof. by destruct b. Qed.

Lemma unique_nil l : unique l = [] ↔ l = [].
Proof.
  split; [|by intros ->]. intros Hu. destruct l as [|x l]; [done|]. exfalso.
  assert (Hx : x ∈ unique (x :: l)) by (apply unique_elem; constructor). rewrite Hu in Hx. by apply elem_of_nil in Hx.
Qed.

(** Governance fails closed.  Under a policy its constructor accepts, an
    episode is allowed exactly when its origin is one the policy allows, its
    project is included (if any must be) and not excluded, and its group is
    not held out; every decision that is not to allow names each ground once.
    An origin nobody can classify is never allowed, an episode bound to a
    standard has the binding's origin and not the one it claims, and unless
    the policy allows them neither benchmark, test, synthetic nor licensed
    data gets through.  No decision is made only when the acceptance criteria
    cannot be iterated. *)
Theorem governance_fails_closed include exclude holdout origins version p e :
  policy_new include exclude holdout origins version = Ok p →
  match assess p e with
  | Raise x => x = TypeError ∧ py_iter (dict_get_default e.(task) "acceptance_criteria" (JList [])) = None
  | Ok d =>
      the_group e = Ok d.(split_group_id) ∧ d.(origin) = the_origin e ∧ d.(project) = project_of e ∧
      (d.(allowed) = true ↔
         d.(origin) ∈ origins ∧ (include ≠ [] → d.(project) ∈ include) ∧ d.(project) ∉ exclude ∧
         d.(split_group_id) ∉ holdout) ∧
      (d.(reasons) = [] ↔ d.(allowed) = true) ∧ NoDup d.(reasons) ∧
      (d.(allowed) = true → d.(origin) ∈ known_origins) ∧
      (∀ binding, get_or_null e.(provenance) "standard_binding" = JObj binding →
         d.(origin) = known_or_unknown float_eq repr (get_or_null binding "data_origin") LICENSED_STANDARD) ∧
      (d.(origin) ∉ origins → origin_reason d.(origin) ∈ d.(reasons)) ∧
      (d.(split_group_id) ∈ holdout → "permanent_holdout" ∈ d.(reasons))
  end.
Proof.
  unfold policy_new. intros H. apply rbind_Ok in H as (? & Ho%rguard_Ok & H).
  apply rbind_Ok in H as (? & _ & [= <-]).
  unfold TrainingGovernance.assess.
  destruct (split_group_for_episode _ _ _ _ e) as [group|err] eqn:Hg; cbn [rbind].
  2: { unfold split_group_for_episode, split_basis in Hg.
       destruct (py_iter _); cbn in Hg; [done|]. injection Hg as <-. done. }
  cbn [allowed origin project split_group_id reasons allowed_origins include_projects exclude_projects
       permanent_holdout_groups].
  fold (project_of e). set (rs := _ ++ _).
  assert (Hrs : rs = [] ↔ the_origin e ∈ origins ∧ (include ≠ [] → project_of e ∈ include) ∧
                project_of e ∉ exclude ∧ group ∉ holdout).
  { unfold rs. rewrite !app_nil, !if_nil, !bool_decide_eq_false, andb_false_iff, negb_false_iff.
    rewrite (bool_decide_eq_true (project_of e ∈ include)).
    case_bool_decide as Hin; destruct include as [|i include]; split; intros (H1 & H2 & H3 & H4); split_and!; auto;
      try done; try (by destruct H2); right; by apply H2. }
  assert (Hall : ((match rs with [] => true | _ => false end) = true) ↔ rs = []) by (by destruct rs).
  rewrite Hall, unique_nil, Hrs. split_and!; try done.
  - apply unique_NoDup.
  - intros (Hin & _). rewrite forallb_forall in Ho.
    specialize (Ho _ (proj1 (list_elem_of_In _ _) Hin)). by apply bool_decide_eq_true in Ho.
  - intros binding Hb. unfold origin_for. by rewrite Hb.
  - intros Hn. apply unique_elem. unfold rs. rewrite bool_decide_eq_false_2 by done. left.
  - intros Hh. apply unique_elem. unfold rs. rewrite (bool_decide_eq_true_2 (group ∈ holdout)) by done.
    rewrite !elem_of_app. right. right. right. constructor.
Qed.
End governance.

(** ** Examples *)

Lemma split_is_a_share_of_buckets_witness :
  assign toy_hash (mk_split 90 5 5) "split_1" = Ok "train" ∧
  (assign toy_hash (mk_split 90 5 5) "split_1" = Ok "train" → assign toy_hash (mk_split 95 0 5) "split_1" = Ok "train").
Proof.
  destruct (split_is_a_share_of_buckets toy_hash toy_hash_shape (JInt 90) (JInt 5) (JInt 5)
    (JInt 95) (JBool false) (JInt 5) (mk_split 90 5 5) (mk_split 95 0 5) "split_1"
    ltac:(reflexivity) ltac:(reflexivity)) as (_ & Ht & _ & _ & _ & Hk & _).
  split; [apply Ht; vm_compute; reflexivity|]. apply Hk. discriminate.
Defined.

Definition sample_policy : TrainingDataGovernancePolicy :=
  mk_policy [] ["secret"] [] ["NORMAL_USAGE"; "MANUAL_IMPORT"] 1.

Definition sample_episode (provenance : dict string json) : TrainingEpisode :=
  mk_episode "e1" "t1" None "" provenance [("objective", JStr "fix /tmp/x")] [] [] [] [] [].

(** A benchmark run, and work in an excluded project. *)
Lemma governance_fails_closed_witness :
  (∃ d, assess (λ _ _, false) (λ _, "") toy_hash bits_dumps sample_policy
          (sample_episode [("data_origin", JStr "benchmark")]) = Ok d ∧
        ¬ (allowed d = true) ∧ "benchmark_excluded" ∈ reasons d).
Proof.
  pose proof (governance_fails_closed (λ _ _, false) (λ _, "") toy_hash bits_dumps [] ["secret"] []
    ["NORMAL_USAGE"; "MANUAL_IMPORT"] 1 sample_policy (sample_episode [("data_origin", JStr "benchmark")])
    ltac:(reflexivity)) as H.
  assert (E : ∃ d, assess (λ _ _, false) (λ _, "") toy_hash bits_dumps sample_policy
    (sample_episode [("data_origin", JStr "benchmark")]) = Ok d ∧ origin d = "BENCHMARK")
    by (eexists; split; vm_compute; reflexivity).
  destruct E as (d & E & Eo). rewrite E in H. exists d.
  destruct H as (_ & _ & _ & Ha & _ & _ & _ & _ & Hr & _). rewrite Eo in Ha, Hr.
  assert (Hn : "BENCHMARK" ∉ ["NORMAL_USAGE"; "MANUAL_IMPORT"]) by (apply (bool_decide_unpack _); vm_compute; exact I).
  split_and!; [exact E|by intros (? & _)%Ha|exact (Hr Hn)].
Defined.
