(* ===== verification/Trajectories.v ===== *)
(** * From recorded turns to episodes:
    [client/training/trajectory_episodes.py] and
    [client/training/training_promotion.py]

    A recorded row becomes an episode; the promotion policy decides whether
    it may be stored and imitated.  SHA-256 (in hexadecimal), the JSON text
    codec and [repr] of floats and containers are parameters; the tool
    schemas of a caller are objects by tool name. *)

From Stdlib Require Import Ascii.
From S2P Require Import Prelude Texts Values Codec TrainingData TrainingRedaction.

Open Scope py_scope.

(** ** Data *)

(** [OtherError] is an exception the readers of a file do not catch. *)
Inductive exn :=
  | TrajectoryConversionError (msg : string)
  | ValueError (msg : string)
  | OtherError (kind : string).

(** [ELIGIBILITY_BY_VERDICT] *)
Definition eligibility_by_verdict (verdict : string) : option TrainingEligibility :=
  if String.eqb verdict "pass" then Some POSITIVE_CANDIDATE
  else if String.eqb verdict "fail" then Some FAILURE_TRAJECTORY
  else if String.eqb verdict "unrated" then Some INCOMPLETE
  else None.

Definition RESULT_LIMIT : nat := N.to_nat 4000.

Record PromotionDecision := mk_promotion {
  stored : bool;
  positive : bool;
  promotion_reasons : list string;
  redactions : option report;
}.

Definition text_block (text : string) : json := JObj [("type", JStr "text"); ("text", JStr text)].

Section conversion.
  Context (float_eq : string → Z → bool) (repr : json → string).
  Context (hash : string → string) (dumps : json → string) (loads : string → option json).

#[local] Abbreviation py_or := (py_or float_eq).
#[local] Abbreviation py_str := (py_str repr).

Definition hash_value (j : json) : string := hash (encode_utf8 (dumps j)).
Definition short (j : json) : string := String.substring 0 16 (hash_value j).

Definition set_of_names (names : list string) : list string := sort_strings (unique names).

(** ** The view of the tools *)

Definition tool_entry (schemas : dict string (dict string json)) (name : string) : res exn json :=
  let schema := default [] (dict_get schemas name) in
  let? input := match dict_get_default schema "input_schema" (JObj []) with
                | JObj m => Ok m
                | v => rmap_err (λ _, OtherError "TypeError") (py_dict v)
                end in
  Ok (JObj [("name", JStr name); ("description", JStr (py_str (dict_get_default schema "description" (JStr ""))));
            ("input_schema", JObj input)]).

Definition tool_view (names : list string) (schemas : dict string (dict string json)) : res exn (string * json) :=
  let? entries := rmapM (tool_entry schemas) (set_of_names names) in
  let snapshot := JObj [("tools", JList entries)] in
  Ok (hash_value snapshot, snapshot).

(** ** Rows *)

(** [_steps] *)
Definition steps_of (row : dict string json) : res exn (list (dict string json)) :=
  match get_or_null row "steps" with
  | JNull => Ok []
  | JList steps =>
      rmapM (λ step, match step with
        | JObj m => if py_true float_eq (get_or_null m "tool") then Ok m
                    else Raise (TrajectoryConversionError "a trajectory step must name a tool")
        | _ => Raise (TrajectoryConversionError "a trajectory step must name a tool")
        end) steps
  | _ => Raise (TrajectoryConversionError "trajectory steps must be an array")
  end.

(** What a task id becomes in the name of a file. *)
Definition id_char (c : ascii) : ascii := if is_word c || one_of "-_" c then c else "-"%char.
Fixpoint map_chars (f : ascii → ascii) (s : string) : string :=
  match s with EmptyString => EmptyString | String c s' => String (f c) (map_chars f s') end.

Definition safe_task (task : string) : string := String.substring 0 40 (map_chars id_char task).

Definition episode_id_for (row : dict string json) (index : Z) : res exn string :=
  let task := py_str (py_or (get_or_null row "task_id") (JStr "turn")) in
  let? steps := steps_of row in
  let stamp := short (JList [get_or_null row "question"; get_or_null row "answer";
                             JList ((λ step, get_or_null step "action_id") <$> steps); JInt index]) in
  Ok (safe_task task +:+ String "-"%char stamp).

(** ** Turns *)

(** The texts and identifiers all turns of a row share. *)
Record row_context := mk_context {
  cx_episode_id : string;
  cx_task_id : string;
  cx_session_id : json;
  cx_system : json;
  cx_view_hash : string;
  cx_names : list string;
}.

Definition make_turn (cx : row_context) (position : nat) (purpose : string) (primary tools_enabled : bool)
    (messages : list json) (output stop_reason : string) (calls : list json) : dict string json :=
  [("turn_id", JStr (cx.(cx_episode_id) +:+ String "-"%char (pretty position)));
   ("episode_id", JStr cx.(cx_episode_id)); ("task_id", JStr cx.(cx_task_id));
   ("session_id", cx.(cx_session_id)); ("turn_index", JInt (Z.of_nat position)); ("role", JStr "assistant");
   ("purpose", JStr purpose); ("primary_candidate", JBool primary); ("system", cx.(cx_system));
   ("messages", JList messages); ("tool_view_hash", JStr cx.(cx_view_hash));
   ("tool_names", JList (JStr <$> set_of_names cx.(cx_names))); ("tools_enabled", JBool tools_enabled);
   ("assistant_output", JStr output); ("stop_reason", JStr stop_reason); ("tool_calls", JList calls);
   ("labels", JList []); ("recovers_turn_ids", JList []); ("mutation_generation_before", JInt 0);
   ("mutation_generation_after", JInt 0); ("verification_generation", JNull); ("model_action_id", JNull);
   ("usage", JNull); ("error", JNull); ("provenance", JList []); ("memory_provenance_ids", JList [])].

Definition call_id (position : nat) (step : dict string json) : string :=
  py_str (py_or (get_or_null step "action_id") (JStr ("call_" +:+ pretty position))).

Definition step_name (step : dict string json) : string := py_str (get_or_null step "tool").

Definition step_arguments (step : dict string json) : json :=
  match get_or_null step "arguments" with JObj m => JObj m | _ => JObj [] end.

Definition step_result (step : dict string json) : string :=
  String.substring 0 RESULT_LIMIT (py_str (py_or (get_or_null step "result") (JStr ""))).

Definition call_of_step (position : nat) (step : dict string json) : json :=
  JObj [("tool_call_id", JStr (call_id position step)); ("name", JStr (step_name step));
        ("arguments", step_arguments step); ("action_id", get_or_null step "action_id");
        ("status", get_or_null step "status"); ("model_content", JStr (step_result step));
        ("result_reference", get_or_null step "result_reference"); ("provenance", JStr "tool_output")].

(** What a step adds to the conversation: the call, then its result. *)
Definition exchange (position : nat) (step : dict string json) : list json :=
  [JObj [("role", JStr "assistant"); ("content", JList [JObj [("type", JStr "tool_use");
      ("id", JStr (call_id position step)); ("name", JStr (step_name step));
      ("arguments", step_arguments step)]])];
   JObj [("role", JStr "user"); ("content", JList [JObj [("type", JStr "tool_result");
      ("tool_call_id", JStr (call_id position step)); ("content", JStr (step_result step))]])]].

(** The turns of the steps from [position] on, and the conversation after
    them; [seen] is the conversation so far. *)
Fixpoint step_turns (cx : row_context) (position : nat) (seen : list json) (steps : list (dict string json))
    : list (dict string json) * list json :=
  match steps with
  | [] => ([], seen)
  | step :: steps =>
      let turn := make_turn cx position "tool_action" false true seen "" "tool_use" [call_of_step position step] in
      let '(turns, final) := step_turns cx (S position) (seen ++ exchange position step) steps in
      (turn :: turns, final)
  end.

(** ** Episodes *)

Definition opening (question : string) : json :=
  JObj [("role", JStr "user"); ("content", JList [text_block question])].

Definition verification_of (verdict : string) : string :=
  if String.eqb verdict "pass" then "passed" else if String.eqb verdict "fail" then "failed" else "unverified".

Definition reasons_of (verdict : string) : list string :=
  if String.eqb verdict "pass" then []
  else if String.eqb verdict "fail" then ["project build or tests failed"] else ["nothing judged this turn"].

Definition episode_from_row (row : json) (system : json) (session_id timestamp : option string) (index : Z)
    (schemas : dict string (dict string json)) : res exn TrainingEpisode :=
  match row with
  | JObj m =>
      let? question := match get_or_null m "question" with
                       | JStr q => if str_true (py_strip q) then Ok q
                                   else Raise (TrajectoryConversionError "a trajectory row must carry a question")
                       | _ => Raise (TrajectoryConversionError "a trajectory row must carry a question")
                       end in
      let? answer := match get_or_null m "answer" with
                     | JStr a => Ok a
                     | _ => Raise (TrajectoryConversionError "a trajectory row must carry an answer")
                     end in
      let verdict := py_str (py_or (get_or_null m "verdict") (JStr "unrated")) in
      let? eligibility := of_option (TrajectoryConversionError "unknown verdict") (eligibility_by_verdict verdict) in
      let? steps := steps_of m in
      let? id := episode_id_for m index in
      let task_id := py_str (py_or (get_or_null m "task_id") (JStr id)) in
      let time := str_or (default "" timestamp) (py_str (py_or (get_or_null m "timestamp") (JStr ""))) in
      let names := step_name <$> steps in
      let? view := tool_view names schemas in
      let cx := mk_context id task_id (match session_id with Some s => JStr s | None => JNull end) system
                  view.1 names in
      let '(turns, seen) := step_turns cx 0 [opening question] steps in
      let answering := make_turn cx (length steps) "final_response" true
                         (match names with [] => false | _ => true end) seen answer "end_turn" [] in
      let project := py_or (get_or_null m "project") (JStr "") in
      Ok (mk_episode id task_id session_id time
            [("origin", JStr "NORMAL_USAGE"); ("recorder", JStr "trajectories.jsonl");
             ("source", py_or (get_or_null m "source") (JStr "")); ("project", project)]
            [("objective", JStr question); ("project", project); ("bench", py_or (get_or_null m "bench") (JStr ""))]
            (turns ++ [answering])
            [(view.1, view.2)]
            [("tool_calls", JInt (Z.of_nat (length steps)))]
            [("final_response", JStr answer); ("verdict", JStr verdict);
             ("terminal_task_status", JStr "completed"); ("verification_status", JStr (verification_of verdict))]
            [("eligibility", JStr (enum_value eligibility)); ("verdict", JStr verdict);
             ("reasons", JList (JStr <$> reasons_of verdict))])
  | _ => Raise (TrajectoryConversionError "a trajectory row must be an object")
  end.

(** ** Files *)

Definition line_error (index : nat) : string := "line " +:+ pretty (S index).

(** [rows_from_file], on the text of the file: a row or an error for each
    line that is not blank. *)
Fixpoint rows_from (index : nat) (lines : list string) : list (json + string) :=
  match lines with
  | [] => []
  | line :: lines =>
      if str_true (py_strip line) then
        match loads line with Some row => inl row | None => inr (line_error index) end :: rows_from (S index) lines
      else rows_from (S index) lines
  end.
Definition rows_from_file (text : string) : list (json + string) := rows_from 0 (file_lines text).

(** [episodes_from_file]: what is yielded, then the exception that ends it. *)
Fixpoint episodes_from (system : json) (session_id : option string) (schemas : dict string (dict string json))
    (index : nat) (lines : list string) : list (TrainingEpisode + string) * option exn :=
  match lines with
  | [] => ([], None)
  | line :: lines =>
      let rest := episodes_from system session_id schemas (S index) lines in
      if str_true (py_strip line) then
        match loads line with
        | None => (inr (line_error index) :: rest.1, rest.2)
        | Some row =>
            match episode_from_row row system session_id None (Z.of_nat index) schemas with
            | Ok e => (inl e :: rest.1, rest.2)
            | Raise (OtherError kind) => ([], Some (OtherError kind))
            | Raise _ => (inr (line_error index) :: rest.1, rest.2)
            end
        end
      else rest
  end.
Definition episodes_from_file (system : json) (session_id : option string)
    (schemas : dict string (dict string json)) (text : string) : list (TrainingEpisode + string) * option exn :=
  episodes_from system session_id schemas 0 (file_lines text).

(** ** Promotion *)

Definition REFUSED_FINDINGS : list string := ["private_key"].

(** [decide], under a policy for the given sensitive values. *)
Definition decide_promotion (secrets : list string) (row : json) : option json * PromotionDecision :=
  match row with
  | JObj _ =>
      let '(cleaned, r) := redact secrets row in
      let refused := sort_strings (filter (λ f, f ∈ r.(categories)) REFUSED_FINDINGS) in
      match refused, cleaned with
      | [], JObj m =>
          let verdict := py_str (py_or (get_or_null m "verdict") (JStr "unrated")) in
          let reasons :=
            if negb (String.eqb verdict "pass") then
              [if String.eqb verdict "fail" then "the project did not verify this turn"
               else "nothing judged this turn"]
            else if negb (py_true float_eq (get_or_null m "steps")) then ["verified but the turn ran no tool"]
            else [] in
          let found := match r.(categories) with
                       | [] => []
                       | names => ["redacted " +:+ pretty r.(redaction_count) +:+ " value(s): "
                                   +:+ String.concat ", " names]
                       end in
          (Some cleaned,
           mk_promotion true (match reasons with [] => true | _ => false end) (reasons ++ found) (Some r))
      | _, _ =>
          (None, mk_promotion false false
             ((λ name, "refused: a " +:+ map_chars (λ c, if Ascii.eqb c "_"%char then " "%char else c) name
                       +:+ " appears in this turn") <$> refused) (Some r))
      end
  | _ => (None, mk_promotion false false ["not a recorded row"] None)
  end.

(** [_demote] *)
Definition demote (eligibility : json) : json :=
  if equals_str (enum_value POSITIVE_CANDIDATE) eligibility then JStr (enum_value INCOMPLETE) else eligibility.

Definition promotion_json (d : PromotionDecision) : json :=
  JObj [("positive", JBool d.(positive)); ("reasons", JList (JStr <$> d.(promotion_reasons)));
        ("redactions", match d.(redactions) with
                       | Some r => JObj [("categories", JList (JStr <$> r.(categories)));
                                         ("redaction_count", JInt r.(redaction_count))]
                       | None => JObj []
                       end)].

Definition promote (secrets : list string) (row : json) (system : json) (session_id : option string) (index : Z)
    (schemas : dict string (dict string json)) : res exn (option TrainingEpisode * PromotionDecision) :=
  let '(cleaned, d) := decide_promotion secrets row in
  match cleaned with
  | None => Ok (None, d)
  | Some cleaned =>
      if negb d.(stored) then Ok (None, d) else
      let? e := episode_from_row cleaned system session_id None index schemas in
      let metadata := dict_set "promotion" (promotion_json d) e.(training_metadata) in
      let metadata := if d.(positive) then metadata
                      else dict_set "eligibility" (demote (dict_get_default metadata "eligibility" (JStr ""))) metadata in
      Ok (Some (mk_episode e.(episode_id) e.(task_id) e.(TrainingData.session_id) e.(timestamp) e.(provenance)
                  e.(task) e.(turns) e.(tool_views) e.(execution) e.(outcome) metadata), d)
  end.
End conversion.
