(* ===== verification/TrajectoriesProps.v ===== *)
(** * Correctness of the conversion of recorded turns

    A turn of an episode sees what the model saw and nothing later, only
    verified work is to be imitated, and when an episode cannot be stored. *)

From Stdlib Require Import Ascii.
From S2P Require Import Prelude Texts Values Codec TrainingData TrainingStore TrainingStoreProps.
From S2P Require Import TrainingRedaction Trajectories.

Open Scope py_scope.

(** ** The conversation *)

Section conversion.
  Context (float_eq : string → Z → bool) (repr : json → string).
  Context (hash : string → string) (dumps : json → string).

#[local] Abbreviation episode_from_row := (episode_from_row float_eq repr hash dumps).
#[local] Abbreviation step_turns := (step_turns float_eq repr).
#[local] Abbreviation exchange := (exchange float_eq repr).
#[local] Abbreviation steps_of := (steps_of float_eq).

(** What the steps from [position] on add to the conversation. *)
Fixpoint conversation (position : nat) (steps : list (dict string json)) : list json :=
  match steps with [] => [] | step :: steps => exchange position step ++ conversation (S position) steps end.

Lemma step_turns_final cx position seen steps :
  (step_turns cx position seen steps).2 = seen ++ conversation position steps.
Proof.
  revert position seen. induction steps as [|step steps IH]; intros position seen; cbn [Trajectories.step_turns conversation].
  - by rewrite app_nil_r.
  - specialize (IH (S position) (seen ++ exchange position step)).
    destruct (step_turns _ _ _ steps) as [ts final]. cbn [snd] in *. by rewrite IH, app_assoc.
Qed.

Lemma step_turns_length cx position seen steps : length (step_turns cx position seen steps).1 = length steps.
Proof.
  revert position seen. induction steps as [|step steps IH]; intros position seen; cbn; [done|].
  specialize (IH (S position) (seen ++ exchange position step)).
  destruct (step_turns _ _ _ steps) as [ts final]. cbn in *. by rewrite IH.
Qed.

Lemma step_turns_lookup cx position seen steps i t :
  (step_turns cx position seen steps).1 !! i = Some t →
  ∃ step, steps !! i = Some step ∧
    t = make_turn cx (position + i) "tool_action" false true (seen ++ conversation position (take i steps)) "" "tool_use"
          [call_of_step float_eq repr (position + i) step].
Proof.
  revert position seen i. induction steps as [|step steps IH]; intros position seen i; [done|].
  cbn [Trajectories.step_turns]. specialize (IH (S position) (seen ++ exchange position step)).
  destruct (step_turns _ _ _ steps) as [ts final]. destruct i as [|i]; cbn [fst lookup list_lookup].
  - intros [= <-]. exists step. by rewrite app_nil_r, Nat.add_0_r.
  - intros Hi. destruct (IH i Hi) as (step' & Hs & ->). exists step'. split; [done|].
    change (take (S i) (step :: steps)) with (step :: take i steps). cbn [conversation].
    by rewrite app_assoc, Nat.add_succ_r.
Qed.

Lemma make_turn_valid cx position purpose primary enabled messages output stop calls :
  Forall valid_call calls →
  valid_turn (make_turn cx position purpose primary enabled messages output stop calls).
Proof. intros Hc. split; [reflexivity|]. by exists calls. Qed.

Lemma call_of_step_valid position step : valid_call (call_of_step float_eq repr position step).
Proof. eexists. split; reflexivity. Qed.

(** Everything a conversion that succeeds went through. *)
Lemma episode_from_row_Ok row system sid time index schemas e :
  episode_from_row row system sid time index schemas = Ok e →
  ∃ m question answer verdict eligibility steps view,
    row = JObj m ∧ get_or_null m "question" = JStr question ∧ get_or_null m "answer" = JStr answer ∧
    verdict = py_str repr (py_or float_eq (get_or_null m "verdict") (JStr "unrated")) ∧
    eligibility_by_verdict verdict = Some eligibility ∧ steps_of m = Ok steps ∧
    episode_id_for float_eq repr hash dumps m index = Ok e.(episode_id) ∧
    e.(tool_views) = [view] ∧
    e.(training_metadata) = [("eligibility", JStr (enum_value eligibility)); ("verdict", JStr verdict);
                             ("reasons", JList (JStr <$> reasons_of verdict))] ∧
    let cx := mk_context e.(episode_id) e.(task_id) (match sid with Some s => JStr s | None => JNull end) system
                view.1 (step_name repr <$> steps) in
    e.(turns) = (step_turns cx 0 [opening question] steps).1 ++
      [make_turn cx (length steps) "final_response" true
         (match step_name repr <$> steps with [] => false | _ => true end)
         (opening question :: conversation 0 steps) answer "end_turn" []].
Proof.
  unfold Trajectories.episode_from_row. destruct row as [| | | | | |m]; try done. intros H.
  apply rbind_Ok in H as (question & Hq & H). apply rbind_Ok in H as (answer & Ha & H).
  apply rbind_Ok in H as (eligibility & He%of_option_Ok & H). apply rbind_Ok in H as (steps & Hs & H).
  apply rbind_Ok in H as (id & Hid & H). apply rbind_Ok in H as (view & Hv & H).
  eexists m, question, answer, _, eligibility, steps, view.
  set (cx := mk_context _ _ _ _ _ _) in H. pose proof (step_turns_final cx 0 [opening question] steps) as Hf.
  fold step_turns in H. destruct (step_turns cx 0 [opening question] steps) as [ts final] eqn:Ht.
  injection H as <-. cbn [snd] in Hf. cbn [episode_id task_id tool_views training_metadata turns].
  fold cx. rewrite Ht. cbn [fst]. split_and!; try done.
  - destruct (get_or_null m "question"); try done. destruct (str_true _) in Hq; [by injection Hq as ->|done].
  - destruct (get_or_null m "answer"); try done. by injection Ha as ->.
  - by destruct view.
  - by rewrite Hf.
Qed.

(** C40: a turn never trains on hindsight.  An episode made of a row with [n]
    steps has [n + 1] turns; the context of turn [i] is the question followed
    by the calls and results of the first [i] steps, so it depends on no
    later step and not on the answer; the last turn alone is a primary
    candidate, and it gives the answer; every turn names the one view of the
    tools the episode holds; and the episode is well typed, so it is read
    back from its own dictionary. *)
Theorem no_hindsight row system sid time index schemas e :
  episode_from_row row system sid time index schemas = Ok e →
  ∃ m question answer steps,
    row = JObj m ∧ get_or_null m "question" = JStr question ∧ get_or_null m "answer" = JStr answer ∧
    steps_of m = Ok steps ∧ length e.(turns) = S (length steps) ∧
    (∀ i t, e.(turns) !! i = Some t →
       dict_get t "messages" = Some (JList (opening question :: conversation 0 (take i steps))) ∧
       dict_get t "turn_index" = Some (JInt (Z.of_nat i)) ∧
       dict_get t "primary_candidate" = Some (JBool (i =? length steps)%nat) ∧
       dict_get t "assistant_output" = Some (JStr (if (i =? length steps)%nat then answer else "")) ∧
       ∃ h, dict_get t "tool_view_hash" = Some (JStr h) ∧ dict_keys e.(tool_views) = [h]) ∧
    valid_episode e ∧ from_dict float_eq repr (to_dict e) = Ok e.
Proof.
  intros (m & question & answer & verdict & el & steps & view & -> & Hq & Ha & _ & _ & Hs & _ & Hv & _ & Ht)%episode_from_row_Ok.
  cbv zeta in Ht. set (cx := mk_context _ _ _ _ _ _) in Ht.
  assert (Hlen : length (step_turns cx 0 [opening question] steps).1 = length steps) by apply step_turns_length.
  assert (Hvalid : valid_episode e).
  { unfold valid_episode. rewrite Ht. apply Forall_app. split.
    - apply Forall_lookup. intros i t Hi. apply step_turns_lookup in Hi as (step & _ & ->).
      apply make_turn_valid, Forall_singleton, call_of_step_valid.
    - apply Forall_singleton, make_turn_valid. constructor. }
  exists m, question, answer, steps. split_and!; try done.
  - rewrite Ht, length_app, Hlen. cbn. lia.
  - intros i t Hi. rewrite Ht in Hi. apply lookup_app_Some in Hi as [Hi|[Hge Hi]].
    + assert (Hlt : i < length steps) by (rewrite <- Hlen; by eapply lookup_lt_Some).
      apply step_turns_lookup in Hi as (step & _ & ->). rewrite (proj2 (Nat.eqb_neq i (length steps))) by lia.
      split_and!; try reflexivity. exists (fst view). split; [reflexivity|]. rewrite Hv. reflexivity.
    + rewrite Hlen in Hge, Hi. apply list_lookup_singleton_Some in Hi as [Hz <-].
      assert (i = length steps) as -> by lia. rewrite Nat.eqb_refl, firstn_all.
      split_and!; try reflexivity. exists (fst view). split; [reflexivity|]. rewrite Hv. reflexivity.
  - by apply from_dict_same.
Qed.
(** ** Promotion *)

Lemma decide_promotion_cases secrets row cleaned d :
  decide_promotion float_eq repr secrets row = (cleaned, d) →
  match cleaned with
  | None => d.(stored) = false
  | Some c =>
      d.(stored) = true ∧ "private_key" ∉ (redact secrets row).2.(categories) ∧ (redact secrets row).1 = c ∧
      ∃ m, c = JObj m ∧
        (d.(positive) = true →
           py_str repr (py_or float_eq (get_or_null m "verdict") (JStr "unrated")) = "pass" ∧
           py_true float_eq (get_or_null m "steps") = true)
  end.
Proof.
  unfold decide_promotion. destruct row as [| | | | | |m0]; try by intros [= <- <-].
  destruct (redact secrets (JObj m0)) as [c r]. cbn [fst snd].
  assert (Hin : filter (λ f, f ∈ categories r) REFUSED_FINDINGS =
                if decide ("private_key" ∈ categories r) then ["private_key"] else []).
  { unfold REFUSED_FINDINGS. cbn. by destruct (decide _). }
  rewrite Hin. destruct (decide _) as [Hk|Hk]; [by intros [= <- <-]|].
  destruct c as [| | | | | |m]; try by intros [= <- <-].
  intros [= <- <-]. cbn [stored positive]. split_and!; try done. exists m. split; [done|].
  destruct (String.eqb_spec (py_str repr (py_or float_eq (get_or_null m "verdict") (JStr "unrated"))) "pass") as [->|];
    cbn [negb]; [|done].
  by destruct (py_true float_eq (get_or_null m "steps")).
Qed.

Lemma demote_not_positive v : demote v ≠ JStr "positive_candidate".
Proof.
  unfold demote, equals_str. change (enum_value POSITIVE_CANDIDATE) with "positive_candidate".
  destruct v as [| | | |s| |]; try done. destruct (String.eqb_spec s "positive_candidate"); [discriminate|congruence].
Qed.

(** Only verified work is stored to be imitated, and nothing with a
    private key is stored at all.  What is stored is the episode of the
    redacted row, in which every field named like a credential holds the
    marker.  It is a positive candidate exactly when the policy decided so,
    and then the row's verdict was a pass and steps were run; a row in whose
    texts a private key stands is never stored, whatever its verdict. *)
Theorem promotion_imitates_verified_work secrets row system sid index schemas r d :
  promote float_eq repr hash dumps secrets row system sid index schemas = Ok (r, d) →
  (d.(stored) = true ↔ is_Some r) ∧
  (holds_key secrets row = true → r = None) ∧
  ∀ e, r = Some e →
    ∃ m e0, (redact secrets row).1 = JObj m ∧ fields_dropped (JObj m) = true ∧
      episode_from_row (JObj m) system sid None index schemas = Ok e0 ∧
      (e.(episode_id), e.(turns), e.(task), e.(outcome)) = (e0.(episode_id), e0.(turns), e0.(task), e0.(outcome)) ∧
      (get_or_null e.(training_metadata) "eligibility" = JStr "positive_candidate" ↔ d.(positive) = true) ∧
      (d.(positive) = true →
         py_str repr (py_or float_eq (get_or_null m "verdict") (JStr "unrated")) = "pass" ∧
         py_true float_eq (get_or_null m "steps") = true).
Proof.
  unfold promote. destruct (decide_promotion float_eq repr secrets row) as [cleaned d'] eqn:Hd.
  pose proof (decide_promotion_cases _ _ _ _ Hd) as Hc. destruct cleaned as [c|].
  2: { intros [= <- <-]. split_and!; [|done|done]. rewrite Hc. split; [done|]. by intros [? ?]. }
  destruct Hc as (Hs & Hnk & Hr & m & -> & Hp). rewrite Hs. cbn [negb].
  intros (e0 & He & [= <- <-])%rbind_Ok.
  pose proof (redaction_accounts_for_changes secrets row) as Hred.
  destruct (redact secrets row) as [red rep]. cbn [fst snd] in *. subst red.
  destruct Hred as (Hdrop & _ & _ & Hkey). split_and!.
  - rewrite Hs. split; [by eexists|done].
  - intros Hh. destruct (Hnk (Hkey Hh)).
  - intros e [= <-]. exists m, e0. cbn [episode_id turns task outcome training_metadata]. split_and!; try done.
    assert (Helig : ∃ el, eligibility_by_verdict (py_str repr (py_or float_eq (get_or_null m "verdict") (JStr "unrated")))
        = Some el ∧ get_or_null (dict_set "promotion" (promotion_json d') (training_metadata e0)) "eligibility"
                    = JStr (enum_value el)).
    { apply episode_from_row_Ok in He as (m' & ? & ? & verdict & el & ? & ? & [= <-] & _ & _ & -> & Hel & _ & _ & _ & Hmeta & _).
      exists el. split; [done|]. rewrite Hmeta. reflexivity. }
    destruct Helig as (el & Hel & Hmeta). destruct (positive d') eqn:Hpos.
    + destruct (Hp eq_refl) as [Hv _]. rewrite Hv in Hel. injection Hel as <-. rewrite Hmeta. done.
    + split; [|done]. unfold get_or_null, dict_get_default. rewrite dict_get_set_eq. cbn [default from_option].
      intros H. exfalso. by eapply demote_not_positive.
Qed.

End conversion.

(** ** Storing what was converted *)

Definition name_char (c : ascii) : bool := is_alnum c || one_of "_-" c.

(** The task id of a row starts with, and its first forty characters are,
    what the store takes in a name. *)
Definition storable_task (task : string) : bool :=
  match safe_task task with
  | String c _ => is_alnum c && all_chars name_char (safe_task task)
  | EmptyString => false
  end.

Lemma map_chars_length f s : String.length (map_chars f s) = String.length s.
Proof. induction s as [|c s IH]; cbn; [done|]. by rewrite IH. Qed.

Lemma hex_name_chars s : all_hex s = true → all_chars name_char s = true.
Proof.
  assert (Hc : ∀ c, is_hex c = true → name_char c = true) by (intros c; by destruct c as [[] [] [] [] [] [] [] []]).
  induction s as [|c s IH]; [done|]. cbn. intros [H1 H2]%andb_true_iff. by rewrite (Hc _ H1), IH.
Qed.

Lemma safe_id_named t stamp :
  all_hex stamp = true → String.length t ≤ 40 → String.length stamp ≤ 16 → str_true t = true →
  safe_id (t +:+ String "-"%char stamp) =
    match t with String c _ => is_alnum c | EmptyString => false end && all_chars name_char t.
Proof.
  intros Hh Ht Hs Hne. destruct t as [|c t]; [done|].
  change (String c t +:+ ?x) with (String c (t +:+ x)). unfold safe_id.
  change (λ c, is_alnum c || one_of "_-" c) with name_char.
  rewrite all_chars_app. cbn [all_chars]. change (name_char "-"%char) with true.
  rewrite (hex_name_chars _ Hh), length_append. cbn [String.length] in *.
  assert (Hl : (String.length t + S (String.length stamp) <=? 127)%nat = true) by (apply Nat.leb_le; lia).
  rewrite Hl, !andb_true_r. unfold name_char at 2. by destruct (is_alnum c); rewrite ?andb_true_l.
Qed.

Section storing.
  Context (float_eq : string → Z → bool) (repr : json → string).
  Context (hash : string → string) (dumps : json → string) (loads : string → option json).
  Context `{!JsonCodec dumps loads}.
  Hypothesis hash_shape : ∀ b, all_hex (hash b) = true ∧ String.length (hash b) = 64.

(** An episode made of a row can be stored exactly when the first forty
    characters of the row's task id, each that is neither a letter nor a
    digit nor one of "-_" replaced, start with an ASCII letter or digit and
    hold no other letter than ASCII ones.  The conversion keeps every letter,
    the store takes ASCII names only: an episode whose task id holds "é", or
    starts with a sign, is made and then refused by the store, unchanged. *)
Theorem converted_episode_is_storable row m system sid time index schemas e st :
  episode_from_row float_eq repr hash dumps row system sid time index schemas = Ok e → row = JObj m →
  let task := py_str repr (py_or float_eq (get_or_null m "task_id") (JStr "turn")) in
  str_true task = true →
  safe_id e.(episode_id) = storable_task task ∧
  (storable_task task = false →
     save_episode float_eq repr hash dumps loads e st = (st, Raise (TrainingStoreError "unsafe episode id"))) ∧
  (storable_task task = true → rtc (step float_eq repr hash dumps loads) empty st →
     st.(episodes) !! (e.(episode_id) +:+ ".json") = None →
     let st' := (save_episode float_eq repr hash dumps loads e st).1 in
     load_episode float_eq repr hash loads e.(episode_id) st' = (st', Ok (canon e))).
Proof using All.
  intros He -> task Htask. pose proof He as Hok.
  apply episode_from_row_Ok in Hok as
    (m' & ? & ? & ? & ? & steps & ? & [= <-] & _ & _ & _ & _ & Hs & Hid & _ & _ & Hturns).
  assert (Hv : valid_episode e).
  { unfold valid_episode. rewrite Hturns. apply Forall_app. split.
    - apply Forall_lookup. intros i t Hi. apply step_turns_lookup in Hi as (step & _ & ->).
      apply make_turn_valid, Forall_singleton, call_of_step_valid.
    - apply Forall_singleton, make_turn_valid. constructor. }
  assert (Hsafe : safe_id e.(episode_id) = storable_task task).
  { unfold episode_id_for in Hid. fold task in Hid. rewrite Hs in Hid. cbn [rbind] in Hid. injection Hid as <-.
    unfold short, hash_value, storable_task. rewrite safe_id_named.
    - by destruct (safe_task task).
    - apply all_hex_substring, hash_shape.
    - apply substring_length.
    - apply substring_length.
    - unfold safe_task. apply substring_some; [lia|]. by destruct task. }
  split; [done|]. split.
  - intros Hf. apply save_unsafe; [done|]. by rewrite Hsafe.
  - intros Ht Hr Hfree st'. rewrite Ht in Hsafe.
    destruct (steps_consistent _ _ _ _ _ _ _ _ (empty_consistent hash dumps) Hr) as [es Hc]. cbn [app] in Hc.
    pose proof (save_consistent float_eq repr hash dumps loads st es e Hc Hv Hsafe) as Hsave.
    destruct (list_find _ es) as [[i p]|] eqn:Hp.
    + apply list_find_Some in Hp as (Hi & Hpid & _).
      destruct (Forall_lookup_1 _ _ _ _ (cs_entries _ _ _ _ Hc) Hi) as (_ & _ & _ & [Hj _]).
      unfold entry_id in Hpid. rewrite Hpid, Hfree in Hj. done.
    + unfold st'. rewrite Hsave. cbn [fst]. apply (load_stored _ _ hash dumps loads); try done.
      exact (with_files_stored hash dumps e st).
Qed.
End storing.

(** ** Examples *)

Definition sample_row (task : string) : json :=
  JObj [("question", JStr "why?"); ("answer", JStr "because"); ("verdict", JStr "pass"); ("task_id", JStr task);
        ("steps", JList [JObj [("tool", JStr "bash"); ("action_id", JStr "a1"); ("result", JStr "ok");
                               ("arguments", JObj [("api_key", JStr "x")])]])].

Definition sample_convert (row : json) : res exn TrainingEpisode :=
  episode_from_row no_floats no_repr toy_hash bits_dumps row (JStr "s") None None 0%Z [].

Definition sample_converted (task : string) : TrainingEpisode :=
  match sample_convert (sample_row task) with Ok e => e | Raise _ => sample_first end.

Lemma no_hindsight_witness :
  sample_convert (sample_row "t1") = Ok (sample_converted "t1") ∧ valid_episode (sample_converted "t1").
Proof.
  assert (H : sample_convert (sample_row "t1") = Ok (sample_converted "t1")) by (vm_compute; reflexivity).
  split; [exact H|].
  destruct (no_hindsight no_floats no_repr toy_hash bits_dumps (sample_row "t1") (JStr "s") None None 0%Z []
    (sample_converted "t1") H) as (m & q & a & steps & _ & _ & _ & _ & _ & _ & Hv & _).
  exact Hv.
Defined.

Definition sample_promotion : res exn (option TrainingEpisode * PromotionDecision) :=
  promote no_floats no_repr toy_hash bits_dumps [] (sample_row "t1") (JStr "s") None 0%Z [].

(** The field [api_key] is dropped and the row promoted. *)
Lemma promotion_imitates_verified_work_witness :
  ∃ e d, sample_promotion = Ok (Some e, d) ∧ stored d = true ∧
    get_or_null (training_metadata e) "eligibility" = JStr "positive_candidate".
Proof.
  assert (H : ∃ e d, sample_promotion = Ok (Some e, d) ∧ positive d = true)
    by (eexists _, _; split; vm_compute; reflexivity).
  destruct H as (e & d & H & Hp).
  destruct (promotion_imitates_verified_work no_floats no_repr toy_hash bits_dumps [] (sample_row "t1") (JStr "s")
    None 0%Z [] (Some e) d H) as (Hs & _ & He).
  destruct (He e eq_refl) as (m & e0 & _ & _ & _ & _ & Hiff & _).
  exists e, d. split_and!; [exact H|apply Hs; by eexists|apply Hiff; exact Hp].
Defined.

(** A task id that starts with the code point 233. *)
Lemma converted_episode_is_storable_witness :
  let e := sample_converted (String "233"%char "t") in
  sample_convert (sample_row (String "233"%char "t")) = Ok e ∧
  save_episode no_floats no_repr toy_hash bits_dumps bits_loads e empty =
    (empty, Raise (TrainingStoreError "unsafe episode id")).
Proof.
  intros e.
  assert (H : sample_convert (sample_row (String "233"%char "t")) = Ok e) by (vm_compute; reflexivity).
  split; [exact H|].
  destruct (sample_row (String "233"%char "t")) as [| | | | | |m] eqn:Hr; try discriminate Hr.
  destruct (converted_episode_is_storable no_floats no_repr toy_hash bits_dumps bits_loads toy_hash_shape
    _ m (JStr "s") None None 0%Z [] e empty H eq_refl) as (_ & Hf & _).
  - injection Hr as <-. vm_compute. reflexivity.
  - apply Hf. injection Hr as <-. vm_compute. reflexivity.
Defined.
