(* ===== verification/SessionStore.v ===== *)
(** * Session logs: [client/runtime/session_store.py]

    The append-only log of a session, its reader, the redaction of what is
    persisted, and the handle that numbers events.  A log is a file of bytes;
    the JSON text codec, [repr] and whether a float's literal is finite are
    parameters.  Snapshots and the resumption of a session are in
    [SessionResume]. *)

From Stdlib Require Import Ascii.
From S2P Require Import Prelude Texts Values Codec.

Open Scope py_scope.

(** ** Data *)

Definition SESSION_SCHEMA_VERSION : Z := 1.

(** [OtherError] is an exception the readers do not catch. *)
Inductive exn :=
  | SessionError (msg : string)
  | SessionCompatibilityError (msg : string)
  | OtherError (kind : string).

Inductive SessionEventType :=
  | SESSION_STARTED | SESSION_RESUMED | TASK_STARTED | WORKING_STATE_TRANSITION | MODEL_TURN_STARTED
  | MODEL_TURN_COMPLETED | TOOL_ACTION_STARTED | TOOL_ACTION_COMPLETED | COMPACTION_COMPLETED
  | VERIFICATION_RECORDED | CHECKPOINT_RECORDED | ROLLBACK_RECORDED | EXPLORATION_COMPLETED
  | REVIEW_COMPLETED | PLAN_RECORDED | DELEGATION_COMPLETED | BUDGET_UPDATED | TASK_INTERRUPTED
  | TASK_FAILED | TASK_COMPLETED | SESSION_CLOSED | STANDARD_BINDING_SET | STANDARD_BINDING_CLEARED
  | STANDARD_SEARCH_COMPLETED | STANDARD_SOURCE_FETCHED | STANDARD_INDEX_CHANGED
  | STANDARD_RETRIEVAL_CHANGED | STANDARD_BINDING_MISMATCH.

#[export] Instance SessionEventType_eq_dec : EqDecision SessionEventType.
Proof. solve_decision. Defined.

Definition session_event_value (t : SessionEventType) : string :=
  match t with
  | SESSION_STARTED => "session_started" | SESSION_RESUMED => "session_resumed" | TASK_STARTED => "task_started"
  | WORKING_STATE_TRANSITION => "working_state_transition" | MODEL_TURN_STARTED => "model_turn_started"
  | MODEL_TURN_COMPLETED => "model_turn_completed" | TOOL_ACTION_STARTED => "tool_action_started"
  | TOOL_ACTION_COMPLETED => "tool_action_completed" | COMPACTION_COMPLETED => "compaction_completed"
  | VERIFICATION_RECORDED => "verification_recorded" | CHECKPOINT_RECORDED => "checkpoint_recorded"
  | ROLLBACK_RECORDED => "rollback_recorded" | EXPLORATION_COMPLETED => "exploration_completed"
  | REVIEW_COMPLETED => "review_completed" | PLAN_RECORDED => "plan_recorded"
  | DELEGATION_COMPLETED => "delegation_completed" | BUDGET_UPDATED => "budget_updated"
  | TASK_INTERRUPTED => "task_interrupted" | TASK_FAILED => "task_failed" | TASK_COMPLETED => "task_completed"
  | SESSION_CLOSED => "session_closed" | STANDARD_BINDING_SET => "standard_binding_set"
  | STANDARD_BINDING_CLEARED => "standard_binding_cleared"
  | STANDARD_SEARCH_COMPLETED => "standard_search_completed" | STANDARD_SOURCE_FETCHED => "standard_source_fetched"
  | STANDARD_INDEX_CHANGED => "standard_index_changed" | STANDARD_RETRIEVAL_CHANGED => "standard_retrieval_changed"
  | STANDARD_BINDING_MISMATCH => "standard_binding_mismatch"
  end.

#[export] Instance SessionEventType_enum : StrEnum SessionEventType := {|
  enum_members := [SESSION_STARTED; SESSION_RESUMED; TASK_STARTED; WORKING_STATE_TRANSITION; MODEL_TURN_STARTED;
    MODEL_TURN_COMPLETED; TOOL_ACTION_STARTED; TOOL_ACTION_COMPLETED; COMPACTION_COMPLETED;
    VERIFICATION_RECORDED; CHECKPOINT_RECORDED; ROLLBACK_RECORDED; EXPLORATION_COMPLETED; REVIEW_COMPLETED;
    PLAN_RECORDED; DELEGATION_COMPLETED; BUDGET_UPDATED; TASK_INTERRUPTED; TASK_FAILED; TASK_COMPLETED;
    SESSION_CLOSED; STANDARD_BINDING_SET; STANDARD_BINDING_CLEARED; STANDARD_SEARCH_COMPLETED;
    STANDARD_SOURCE_FETCHED; STANDARD_INDEX_CHANGED; STANDARD_RETRIEVAL_CHANGED; STANDARD_BINDING_MISMATCH];
  enum_value := session_event_value;
  enum_complete := ltac:(enum_all);
  enum_distinct := ltac:(enum_nodup) |}.

(** The identifier and the time of an event may be any value. *)
Record SessionEvent := mk_event {
  event_type : SessionEventType;
  session_id : string;
  task_id : string;
  sequence : Z;
  payload : dict string json;
  event_id : json;
  timestamp : json;
}.

(** ** Redaction *)

(** [_redact_string] in [client/runtime/tracing.py]: a pattern gives the
    length of its match and its replacement. *)
Fixpoint replace_from (matches : option ascii → string → option (nat * string)) (before : option ascii)
    (skip : nat) (s : string) : string :=
  match s with
  | EmptyString => EmptyString
  | String c s' =>
      match skip with
      | S skip => replace_from matches (Some c) skip s'
      | O =>
          match matches before s with
          | Some (S n, r) => r +:+ replace_from matches (Some c) n s'
          | _ => String c (replace_from matches (Some c) 0 s')
          end
      end
  end.

Definition secret_words : list string :=
  ["api_key"; "api-key"; "apikey"; "authorization"; "cookie"; "password"; "secret"; "token"].

(** [\s*[:=]\s*([^\s,;]+)], and what follows. *)
Definition after_secret (s : string) : option string :=
  match (span py_isspace s).2 with
  | String c rest =>
      if one_of ":=" c then
        let '(value, rest) := span (λ c, not_space c && negb (one_of ",;" c)) (span py_isspace rest).2 in
        if str_true value then Some rest else None
      else None
  | EmptyString => None
  end.

(** [_SECRET_ASSIGNMENT] *)
Fixpoint match_words (words : list string) (s : string) : option (nat * string) :=
  match words with
  | [] => None
  | w :: words =>
      if String.prefix w (py_lower s) then
        match after_secret (drop (String.length w) s) with
        | Some rest =>
            Some (String.length s - String.length rest, String.substring 0 (String.length w) s +:+ "=[REDACTED]")
        | None => match_words words s
        end
      else match_words words s
  end.

Definition match_assignment (before : option ascii) (s : string) : option (nat * string) :=
  if at_word before then match_words secret_words s else None.

(** [_BEARER] *)
Definition match_bearer (before : option ascii) (s : string) : option (nat * string) :=
  if at_word before && String.prefix "bearer" (py_lower s) then
    let '(spaces, rest) := span py_isspace (drop 6 s) in
    let '(key, rest) := span (λ c, is_alnum c || one_of "._~+/-" c) rest in
    let signs := match rest with
                 | String "="%char (String "="%char _) => 2
                 | String "="%char _ => 1
                 | _ => 0
                 end in
    if str_true spaces && str_true key
    then Some (6 + String.length spaces + String.length key + signs, "Bearer [REDACTED]")
    else None
  else None.

Definition redact_string (s : string) : string :=
  replace_from match_bearer None 0 (replace_from match_assignment None 0 s).

Definition session_secret_keys : list string :=
  ["api_key"; "apikey"; "authorization"; "cookie"; "credential"; "passwd"; "password"; "secret"; "token";
   "access_token"; "refresh_token"].

Fixpoint dashes_to_underscores (s : string) : string :=
  match s with
  | EmptyString => EmptyString
  | String c s' => String (if Ascii.eqb c "-"%char then "_"%char else c) (dashes_to_underscores s')
  end.

Definition secret_key (key : string) : bool :=
  bool_decide (dashes_to_underscores (py_lower key) ∈ session_secret_keys).

(** [_session_safe], on decoded values. *)
Fixpoint session_safe (v : json) : json :=
  match v with
  | JStr s => JStr (redact_string s)
  | JObj m => JObj ((fix go m := match m with
      | [] => []
      | (k, v) :: m => (k, if secret_key k then JStr "[REDACTED]" else session_safe v) :: go m
      end) m)
  | JList l => JList ((fix go l := match l with [] => [] | v :: l => session_safe v :: go l end) l)
  | _ => v
  end.

(** ** Identifiers *)

Definition is_letter (c : ascii) : bool := is_lower c || is_upper c.

(** The pattern [[A-Za-z][A-Za-z0-9_-]{7,95}], matched in full. *)
Definition id_pattern (s : string) : bool :=
  match s with
  | String c s' =>
      is_letter c && all_chars (λ c, is_alnum c || one_of "_-" c) s'
      && (7 <=? String.length s')%nat && (String.length s' <=? 95)%nat
  | EmptyString => false
  end.

Definition validate_id (value name : string) : res exn unit :=
  rguard (id_pattern value) (SessionError ("invalid " +:+ name)).

(** ** Events *)

Section session.
  Context (finite : string → bool).
  Context (dumps : json → string) (loads : string → option json).

(** [_json_copy]: a value is its own copy, unless a float is not finite. *)
Fixpoint all_finite (v : json) : bool :=
  match v with
  | JFloat lit => finite lit
  | JObj m => (fix go (m : list (string * json)) :=
      match m with [] => true | (_, v) :: m => all_finite v && go m end) m
  | JList l => (fix go l := match l with [] => true | v :: l => all_finite v && go l end) l
  | _ => true
  end.

Definition json_copy (v : json) : res exn json :=
  do? rguard (all_finite v) (SessionError "session value is not JSON-compatible") in Ok v.

(** The constructor. *)
Definition SessionEvent_new (type : SessionEventType) (session task : string) (sequence : Z)
    (payload : dict string json) (event_id timestamp : json) : res exn SessionEvent :=
  do? validate_id session "session_id" in
  do? validate_id task "task_id" in
  do? rguard (1 <=? sequence)%Z (SessionError "event sequence must be positive") in
  let? copy := json_copy (session_safe (JObj payload)) in
  Ok (mk_event type session task sequence (match copy with JObj m => m | _ => [] end) event_id timestamp).

Definition SessionEvent_to_dict (e : SessionEvent) : res exn json :=
  do? json_copy (JObj e.(payload)) in
  json_copy (session_safe (JObj
    [("schema_version", JInt SESSION_SCHEMA_VERSION); ("event_id", e.(event_id));
     ("event_type", JStr (enum_value e.(event_type))); ("session_id", JStr e.(session_id));
     ("task_id", JStr e.(task_id)); ("sequence", JInt e.(sequence)); ("timestamp", e.(timestamp));
     ("payload", JObj e.(payload))])).

Definition malformed_event : exn := SessionError "malformed session event".

Definition text_id (j : json) (name : string) : res exn string :=
  match j with JStr s => Ok s | _ => Raise (SessionError ("invalid " +:+ name)) end.

(** [SessionEvent.from_dict]; a sequence that is a float is not followed. *)
Definition SessionEvent_from_dict (float_eq : string → Z → bool) (raw : json) : res exn SessionEvent :=
  match raw with
  | JObj m =>
      do? rguard (equals_int float_eq SESSION_SCHEMA_VERSION (get_or_null m "schema_version"))
            (SessionError "unsupported or malformed session event") in
      let get k := of_option malformed_event (dict_get m k) in
      let? type := get "event_type" in
      let? type := match type with
                   | JStr s => of_option malformed_event (enum_of (A := SessionEventType) s)
                   | _ => Raise malformed_event
                   end in
      let? session := get "session_id" in
      let? task := get "task_id" in
      let? sequence := get "sequence" in
      let? event_id := get "event_id" in
      let? timestamp := get "timestamp" in
      let? session := text_id session "session_id" in
      do? validate_id session "session_id" in
      let? task := text_id task "task_id" in
      do? validate_id task "task_id" in
      let? sequence := match sequence with
                       | JFloat _ => Raise (OtherError "a sequence that is a float")
                       | v => of_option malformed_event (as_int v)
                       end in
      do? rguard (1 <=? sequence)%Z (SessionError "event sequence must be positive") in
      let? payload := rmap_err (λ x, match x with
                        | NotPairs => malformed_event | KeyNotText => OtherError "a key that is not a string" end)
                        (dict_of (dict_get_default m "payload" (JObj []))) in
      SessionEvent_new type session task sequence payload event_id timestamp
  | _ => Raise (SessionError "unsupported or malformed session event")
  end.

(** ** The log *)

(** The log of each session, and the sequences the process has cached. *)
Record store := mk_store {
  logs : gmap string string;
  last_sequence : gmap string Z;
}.

#[local] Instance eta_store : Eta store := λ r, mk_store r.(logs) r.(last_sequence).

(** The lines of [bytes.splitlines(keepends=True)]: without their end, and
    whether the line ends with a newline byte. *)
Fixpoint byte_lines (current : string) (s : string) : list (string * bool) :=
  match s with
  | EmptyString => if str_true current then [(current, false)] else []
  | String c s' =>
      if Ascii.eqb c newline then (current, true) :: byte_lines "" s'
      else if Ascii.eqb c carriage then
        match s' with
        | String "010"%char s'' => (current, true) :: byte_lines "" s''
        | _ => (current, false) :: byte_lines "" s'
        end
      else byte_lines (String.append current (String c "")) s'
  end.

(** [json.loads(bytes)] *)
Definition loads_bytes (raw : string) : option json :=
  if valid_utf8 raw then loads (decode_utf8 raw) else None.

Section float_eq.
  Context (float_eq : string → Z → bool).

Fixpoint read_events (session : string) (after : Z) (last : Z) (index : nat) (lines : list (string * bool))
    : res exn (list SessionEvent) :=
  match lines with
  | [] => Ok []
  | (raw, ended) :: lines =>
      match match loads_bytes raw with
            | Some v => SessionEvent_from_dict float_eq v
            | None => Raise malformed_event
            end with
      | Raise (SessionError _ | SessionCompatibilityError _) =>
          match lines with
          | [] => if ended then Raise (SessionError ("malformed session event at line " +:+ pretty (S index)))
                  else Ok []
          | _ => Raise (SessionError ("malformed session event at line " +:+ pretty (S index)))
          end
      | Raise e => Raise e
      | Ok e =>
          do? rguard (String.eqb e.(session_id) session) (SessionError "cross-session event detected") in
          do? rguard (last <? e.(sequence))%Z (SessionError "session event sequence is not increasing") in
          let? rest := read_events session after e.(sequence) (S index) lines in
          Ok (if (after <? e.(sequence))%Z then e :: rest else rest)
      end
  end.

(** [events] *)
Definition events (session : string) (after : Z) (st : store) : res exn (list SessionEvent) :=
  do? validate_id session "session_id" in
  match st.(logs) !! session with
  | None => Ok []
  | Some bytes => read_events session after 0 0 (byte_lines "" bytes)
  end.

(** Everything up to the last newline. *)
Fixpoint to_last_newline (s : string) : string :=
  match s with
  | EmptyString => EmptyString
  | String c s' =>
      match to_last_newline s' with
      | EmptyString => if Ascii.eqb c newline then String c "" else ""
      | t => String c t
      end
  end.

Abbreviation op := (M store exn).

(** A torn last line is discarded. *)
Definition recover (session : string) : op unit :=
  let* st := get in
  match st.(logs) !! session with
  | Some raw => modify (λ st, st <| logs ::= insert session (to_last_newline raw) |>)
  | None => ret tt
  end.

(** The last sequence, cached or read from the log. *)
Definition previous_sequence (session : string) : op Z :=
  let* st := get in
  match st.(last_sequence) !! session with
  | Some n => ret n
  | None =>
      let* existing := lift (events session 0 st) in
      ret (default 0%Z (sequence <$> last existing))
  end.

Definition write_line (session : string) (n : Z) (data : string) : op unit :=
  modify (λ st, st <| logs ::= λ m, <[session := default "" (m !! session) +:+ data]> m |>
                   <| last_sequence ::= insert session n |>).

(** [append]: the log of a session is created when missing. *)
Definition append (e : SessionEvent) : op unit :=
  do* lift (validate_id e.(session_id) "session_id") in
  let* value := lift (SessionEvent_to_dict e) in
  do* recover e.(session_id) in
  let* previous := previous_sequence e.(session_id) in
  do* guard (previous <? e.(sequence))%Z (SessionError "session event sequence must increase") in
  write_line e.(session_id) e.(sequence) (encode_utf8 (dumps value +:+ String newline "")).

(** ** The handle *)

Record SessionHandle := mk_handle {
  handle_session : string;
  handle_sequence : Z;
}.

(** [SessionHandle.append] on the handle and the store; [event_id] and
    [timestamp] are what the event draws. *)
Definition handle_append (type : SessionEventType) (task : string) (data : dict string json)
    (event_id timestamp : json) : M (SessionHandle * store) exn SessionEvent := λ '(h, st),
  let n := (h.(handle_sequence) + 1)%Z in
  let h1 := mk_handle h.(handle_session) n in
  match SessionEvent_new type h.(handle_session) task n data event_id timestamp with
  | Raise e => ((h1, st), Raise e)
  | Ok event =>
      match append event st with
      | (st', Ok _) => ((h1, st'), Ok event)
      | (st', Raise e) =>
          ((h, st'), Raise (match e with
                            | OtherError _ => SessionError "could not append session event"
                            | e => e
                            end))
      end
  end.
End float_eq.
End session.
