(* ===== verification/SessionStoreProps.v ===== *)
(** * Correctness of session logs

    Whatever was appended and wherever the process died, a log is read back:
    complete events in order, and a cut last one or nothing of it. *)

From Stdlib Require Import Ascii.
From stdpp Require Import sorting.
From S2P Require Import Prelude Texts Values Codec SessionStore.

Open Scope py_scope.

Implicit Types (e : SessionEvent) (st : store).

(** ** Cut texts *)

(** A prefix of encoded text that is text again encodes a prefix. *)
Lemma encoded_prefix n s :
  valid_utf8 (String.substring 0 n (encode_utf8 s)) = true →
  ∃ k, String.substring 0 n (encode_utf8 s) = encode_utf8 (String.substring 0 k s) ∧
       (n < String.length (encode_utf8 s) → k < String.length s) ∧ (0 < n → 0 < k ∨ s = "").
Proof.
  revert n. induction s as [|c s IH]; intros n.
  - exists 0. cbn. destruct n; auto with lia.
  - cbn [encode_utf8]. destruct (_ <? 128)%N eqn:Hc.
    + destruct n as [|n]; [exists 0; cbn; auto with lia|].
      assert (Ha : in_range 0 127 c = true).
      { unfold in_range. apply N.ltb_lt in Hc. apply andb_true_iff. split; apply N.leb_le; lia. }
      cbn [String.substring String.length valid_utf8]. rewrite Ha. intros Hv.
      destruct (IH n Hv) as (k & Hk & Hl & _). exists (S k). cbn [String.substring encode_utf8].
      rewrite Hc, Hk. split_and!; [done| |lia]. intros ?. cbn. apply le_n_S, Hl. lia.
    + destruct n as [|[|n]].
      * exists 0. cbn. auto with lia.
      * destruct c as [[] [] [] [] [] [] [] []]; try discriminate Hc; intros Hv; vm_compute in Hv; discriminate Hv.
      * cbn [String.substring String.length]. intros Hv.
        assert (Hv' : valid_utf8 (String.substring 0 n (encode_utf8 s)) = true).
        { destruct c as [[] [] [] [] [] [] [] []]; try discriminate Hc; exact Hv. }
        destruct (IH n Hv') as (k & Hk & Hl & _). exists (S k). cbn [String.substring encode_utf8].
        rewrite Hc, Hk. split_and!; [done| |lia]. intros ?. cbn. apply le_n_S, Hl. lia.
Qed.

(** ** Lines *)

Definition no_newline (s : string) : bool := all_chars inline s.

Lemma byte_lines_text a current rest :
  all_chars inline a = true → byte_lines current (a +:+ rest) = byte_lines (current +:+ a) rest.
Proof.
  revert current. induction a as [|c a IH]; intros current Ha; [by rewrite append_nil|].
  cbn [all_chars] in Ha. apply andb_true_iff in Ha as [Hc Ha]. unfold inline in Hc.
  apply negb_true_iff, orb_false_iff in Hc as [H1 H2].
  change (String c a +:+ rest) with (String c (a +:+ rest)). cbn [byte_lines].
  rewrite H1, H2, IH by done. by rewrite append_assoc.
Qed.

Lemma byte_lines_line a rest :
  all_chars inline a = true → byte_lines "" (a +:+ String newline rest) = (a, true) :: byte_lines "" rest.
Proof. intros Ha. by rewrite byte_lines_text. Qed.

Lemma byte_lines_last a :
  all_chars inline a = true → byte_lines "" a = if str_true a then [(a, false)] else [].
Proof. intros Ha. by rewrite <- (append_nil a) at 1; rewrite byte_lines_text. Qed.

Lemma to_last_newline_tail a t :
  all_chars inline t = true → to_last_newline (a +:+ String newline t) = a +:+ String newline "".
Proof.
  intros Ht. induction a as [|c a IH].
  - change ("" +:+ String newline t) with (String newline t). cbn [to_last_newline].
    assert (Hn : to_last_newline t = "").
    { induction t as [|c t IHt]; [done|]. cbn [all_chars] in Ht. apply andb_true_iff in Ht as [Hc Ht].
      cbn [to_last_newline]. rewrite (IHt Ht). unfold inline in Hc. apply negb_true_iff, orb_false_iff in Hc as [H1 _].
      by rewrite H1. }
    by rewrite Hn.
  - change (String c a +:+ ?x) with (String c (a +:+ x)). cbn [to_last_newline]. rewrite IH.
    destruct a; reflexivity.
Qed.

Lemma to_last_newline_none t : all_chars inline t = true → to_last_newline t = "".
Proof.
  induction t as [|c t IHt]; [done|]. cbn [all_chars]. intros [Hc Ht]%andb_true_iff.
  cbn [to_last_newline]. rewrite (IHt Ht). unfold inline in Hc. apply negb_true_iff, orb_false_iff in Hc as [H1 _].
  by rewrite H1.
Qed.

(** UTF-8 keeps a line on its line. *)
Lemma encode_inline s : all_chars inline s = true → all_chars inline (encode_utf8 s) = true.
Proof.
  induction s as [|c s IH]; [done|]. cbn [all_chars encode_utf8]. intros [Hc Hs]%andb_true_iff. specialize (IH Hs).
  destruct c as [[] [] [] [] [] [] [] []]; cbn in Hc |- *; done.
Qed.

(** ** Redaction leaves identifiers alone *)

Lemma replace_none (m : option ascii → string → option (nat * string)) (P : string → Prop) b s :
  (∀ c s, P (String c s) → P s) → (∀ b s, P s → m b s = None) → P s → replace_from m b 0 s = s.
Proof.
  intros Htail Hm. revert b. induction s as [|c s IH]; intros b Hs; [done|]. cbn [replace_from].
  rewrite (Hm b _ Hs). f_equal. apply IH. by eapply Htail.
Qed.

Definition id_character (c : ascii) : bool := is_alnum c || one_of "_-" c.

Lemma id_character_facts c :
  id_character c = true → py_isspace c = false ∧ one_of ":=" c = false.
Proof. by destruct c as [[] [] [] [] [] [] [] []]. Qed.

Lemma span_none p s : match s with String c _ => p c = false | _ => True end → span p s = ("", s).
Proof. destruct s as [|c s]; cbn; [done|]. by intros ->. Qed.

Lemma drop_chars p n s : all_chars p s = true → all_chars p (drop n s) = true.
Proof.
  unfold drop. assert (Hg : ∀ k n s, all_chars p s = true → all_chars p (String.substring n k s) = true).
  { clear. intros k n s. revert n k. induction s as [|c s IH]; intros [|n] [|k]; cbn; try done;
      intros [Hc Hs]%andb_true_iff; [by rewrite Hc, IH|by apply IH..]. }
  apply Hg.
Qed.

Lemma redact_id s : all_chars id_character s = true → redact_string s = s.
Proof.
  intros Hs. unfold redact_string.
  assert (Htail : ∀ c s, all_chars id_character (String c s) = true → all_chars id_character s = true)
    by (intros c t [_ ?]%andb_true_iff; done).
  assert (Hspan : ∀ s, all_chars id_character s = true → span py_isspace s = ("", s)).
  { intros [|c t]; cbn [all_chars]; [done|]. intros [[Hc _]%id_character_facts _]%andb_true_iff. by apply span_none. }
  rewrite (replace_none match_assignment (λ s, all_chars id_character s = true)); [|done| |done].
  2: { intros b t Ht. unfold match_assignment. destruct (at_word b); [|done].
       induction secret_words as [|w ws IH]; [done|]. cbn [match_words]. destruct (String.prefix w _); [|done].
       unfold after_secret. pose proof (drop_chars _ (String.length w) _ Ht) as Hd. rewrite (Hspan _ Hd). cbn [snd].
       destruct (drop (String.length w) t) as [|c r]; [done|].
       cbn [all_chars] in Hd. apply andb_true_iff in Hd as [[_ Hc]%id_character_facts _]. by rewrite Hc. }
  apply (replace_none match_bearer (λ s, all_chars id_character s = true)); [done| |done].
  intros b t Ht. unfold match_bearer. destruct (_ && _); [|done].
  rewrite (Hspan _ (drop_chars _ 6 _ Ht)). by destruct (span _ (drop 6 t)).
Qed.

Lemma id_pattern_chars s : id_pattern s = true → all_chars id_character s = true.
Proof.
  destruct s as [|c s]; [done|]. intros [[[Hc Hs]%andb_true_iff _]%andb_true_iff _]%andb_true_iff.
  cbn [all_chars]. apply andb_true_iff. split; [|exact Hs]. unfold id_character, is_alnum, is_letter in *.
  by destruct (is_lower c), (is_upper c), (is_digit c).
Qed.

(** ** Values *)

Section finite.
  Context (finite : string → bool).

#[local] Abbreviation all_finite := (all_finite finite).

Lemma all_finite_obj m : all_finite (JObj m) = forallb (λ kv, all_finite kv.2) m.
Proof. induction m as [|[k v] m IH]; [done|]. cbn. cbn in IH. by rewrite IH. Qed.

Lemma all_finite_list l : all_finite (JList l) = forallb all_finite l.
Proof. induction l as [|v l IH]; [done|]. cbn. cbn in IH. by rewrite IH. Qed.

(** What redaction makes of the entries of an object. *)
Definition safe_fields (m : dict string json) : dict string json :=
  (λ kv, (kv.1, if secret_key kv.1 then JStr "[REDACTED]" else session_safe kv.2)) <$> m.

Lemma session_safe_obj m : session_safe (JObj m) = JObj (safe_fields m).
Proof. cbn. f_equal. induction m as [|[k v] m IH]; [done|]. cbn. by rewrite IH. Qed.

Lemma session_safe_list l : session_safe (JList l) = JList (session_safe <$> l).
Proof. cbn. f_equal. Qed.

Lemma forallb_perm {A} (f : A → bool) l l' : l ≡ₚ l' → forallb f l = forallb f l'.
Proof.
  induction 1 as [|x l l' _ IH|x y l|l1 l2 l3 _ IH1 _ IH2]; cbn; [done|by rewrite IH| |by rewrite IH1].
  by destruct (f x), (f y).
Qed.

Lemma all_finite_sort : ∀ v, all_finite (sort_keys v) = all_finite v.
Proof.
  fix IH 1. intros [| | | | |l|m]; try reflexivity.
  - rewrite sort_keys_list, !all_finite_list. induction l as [|v l IHl]; [reflexivity|]. cbn. by rewrite IH, IHl.
  - rewrite sort_keys_obj, !all_finite_obj.
    rewrite (forallb_perm _ _ _ (merge_sort_Permutation key_le (sorted_values m))). unfold sorted_values.
    induction m as [|[k v] m IHm]; [reflexivity|]. cbn. by rewrite IH, IHm.
Qed.

Lemma all_finite_safe : ∀ v, all_finite v = true → all_finite (session_safe v) = true.
Proof.
  fix IH 1. intros [| | | | |l|m]; try done.
  - rewrite session_safe_list, !all_finite_list. induction l as [|v l IHl]; [done|]. cbn.
    intros [Hv Hl]%andb_true_iff. by rewrite (IH v Hv), IHl.
  - rewrite session_safe_obj, !all_finite_obj. unfold safe_fields. induction m as [|[k v] m IHm]; [done|]. cbn.
    intros [Hv Hm]%andb_true_iff. rewrite IHm by done. rewrite andb_true_r.
    destruct (secret_key k); [reflexivity|by apply IH].
Qed.
End finite.

(** ** Events *)

Section session.
  Context (finite : string → bool) (float_eq : string → Z → bool).
  Context (dumps : json → string) (loads : string → option json).

#[local] Abbreviation from_dict := (SessionEvent_from_dict finite float_eq).
#[local] Abbreviation to_dict := (SessionEvent_to_dict finite).

(** An event past its constructor, whose values can be written. *)
Record valid_event e : Prop := {
  ve_session : id_pattern e.(session_id) = true;
  ve_task : id_pattern e.(task_id) = true;
  ve_sequence : (1 <= e.(sequence))%Z;
  ve_finite : all_finite finite (JList [JObj e.(payload); e.(event_id); e.(timestamp)]) = true;
}.

(** The object that is written for an event. *)
Definition written e : dict string json :=
  [("schema_version", JInt SESSION_SCHEMA_VERSION); ("event_id", session_safe e.(event_id));
   ("event_type", JStr (enum_value e.(event_type))); ("session_id", JStr e.(session_id));
   ("task_id", JStr e.(task_id)); ("sequence", JInt e.(sequence)); ("timestamp", session_safe e.(timestamp));
   ("payload", session_safe (JObj e.(payload)))].

Lemma redact_event_type (t : SessionEventType) : redact_string (enum_value t) = enum_value t.
Proof. by destruct t. Qed.

Lemma safe_written e :
  valid_event e →
  safe_fields [("schema_version", JInt SESSION_SCHEMA_VERSION); ("event_id", e.(event_id));
     ("event_type", JStr (enum_value e.(event_type))); ("session_id", JStr e.(session_id));
     ("task_id", JStr e.(task_id)); ("sequence", JInt e.(sequence)); ("timestamp", e.(timestamp));
     ("payload", JObj e.(payload))] = written e.
Proof.
  intros [Hs Ht _ _]. unfold safe_fields. cbn [fmap list_fmap fst snd].
  repeat match goal with |- context [secret_key ?k] => change (secret_key k) with false end. cbv iota.
  change (session_safe (JStr ?s)) with (JStr (redact_string s)).
  by rewrite (redact_id _ (id_pattern_chars _ Hs)), (redact_id _ (id_pattern_chars _ Ht)), redact_event_type.
Qed.

Lemma to_dict_valid e : valid_event e → to_dict e = Ok (JObj (written e)).
Proof.
  intros He. pose proof He as [_ _ _ Hf]. rewrite all_finite_list in Hf. cbn [forallb] in Hf.
  apply andb_true_iff in Hf as [Hp Hf]. apply andb_true_iff in Hf as [Hi Hf]. apply andb_true_iff in Hf as [Hts _].
  unfold SessionEvent_to_dict, json_copy. rewrite Hp, session_safe_obj, safe_written by done.
  rewrite all_finite_obj. unfold written. cbn [forallb snd]. by rewrite !all_finite_safe.
Qed.

(** *** Reading back *)

Definition sorted_fields (m : dict string json) : dict string json := merge_sort key_le (sorted_values m).

(** What is read for an event that was written. *)
Definition readback e : SessionEvent :=
  mk_event e.(event_type) e.(session_id) e.(task_id) e.(sequence)
    (safe_fields (sorted_fields (safe_fields e.(payload))))
    (sort_keys (session_safe e.(event_id))) (sort_keys (session_safe e.(timestamp))).

Lemma new_Ok type session task n data id time :
  id_pattern session = true → id_pattern task = true → (1 <= n)%Z → all_finite finite (JObj data) = true →
  SessionEvent_new finite type session task n data id time = Ok (mk_event type session task n (safe_fields data) id time).
Proof.
  intros Hs Ht Hn Hf. unfold SessionEvent_new, validate_id, json_copy. rewrite Hs, Ht. cbn [rguard rbind].
  rewrite (proj2 (Z.leb_le _ _) Hn), all_finite_safe by done. by rewrite session_safe_obj.
Qed.

Lemma event_from_written e : valid_event e → from_dict (sort_keys (JObj (written e))) = Ok (readback e).
Proof.
  intros He. pose proof He as [Hs Ht Hn Hf]. rewrite sort_keys_obj. unfold SessionEvent_from_dict.
  assert (Hk : NoDup (dict_keys (written e))) by (apply (bool_decide_unpack _); vm_compute; exact I).
  unfold get_or_null, dict_get_default. rewrite !written_get by exact Hk. unfold written.
  cbn [dict_get]. decide_lits. cbn [fmap option_fmap option_map default id sort_keys equals_int of_option rbind].
  change (Z.eqb SESSION_SCHEMA_VERSION SESSION_SCHEMA_VERSION) with true. cbn [rguard rbind].
  rewrite enum_of_value. cbn [of_option rbind text_id]. unfold validate_id. rewrite Hs, Ht. cbn [rguard rbind].
  cbn [as_int of_option rbind]. rewrite (proj2 (Z.leb_le _ _) Hn). cbn [rguard rbind].
  rewrite session_safe_obj, sort_keys_obj. cbn [dict_of rmap_err rbind].
  rewrite new_Ok; [done..|]. rewrite <- sort_keys_obj, all_finite_sort, <- session_safe_obj. apply all_finite_safe.
  rewrite all_finite_list in Hf. cbn [forallb] in Hf. by apply andb_true_iff in Hf as [Hf _].
Qed.

(** *** The text of a log *)

Context `{!JsonCodec dumps loads}.

#[local] Abbreviation read_events := (read_events finite loads float_eq).
#[local] Abbreviation events := (events finite loads float_eq).
#[local] Abbreviation append := (append finite dumps loads float_eq).

Definition text_of e : string := encode_utf8 (dumps (JObj (written e))).
Definition line_of e : string := text_of e +:+ String newline "".

Fixpoint log_of (es : list SessionEvent) : string :=
  match es with [] => "" | e :: es => line_of e +:+ log_of es end.

Lemma log_of_snoc es e : log_of (es ++ [e]) = log_of es +:+ line_of e.
Proof. induction es as [|d es IH]; cbn; [by rewrite append_nil|]. by rewrite IH, append_assoc. Qed.

Lemma text_inline e : all_chars inline (text_of e) = true.
Proof using JsonCodec0. apply encode_inline, codec_line. Qed.

Lemma encode_newline s : encode_utf8 (s +:+ String newline "") = encode_utf8 s +:+ String newline "".
Proof.
  induction s as [|c s IH]; [done|]. change (String c s +:+ ?t) with (String c (s +:+ t)). cbn [encode_utf8].
  rewrite IH. by destruct (_ <? 128)%N.
Qed.

Lemma log_lines es rest :
  byte_lines "" (log_of es +:+ rest) = ((λ e, (text_of e, true)) <$> es) ++ byte_lines "" rest.
Proof using JsonCodec0.
  induction es as [|e es IH]; [done|]. cbn [log_of fmap list_fmap app]. unfold line_of. rewrite !append_assoc.
  change (String newline "" +:+ ?x) with (String newline x). rewrite byte_lines_line by apply text_inline. by rewrite IH.
Qed.

Lemma to_last_newline_log es t : all_chars inline t = true → to_last_newline (log_of es +:+ t) = log_of es.
Proof.
  intros Ht. destruct es as [|e es _] using rev_ind; [by apply to_last_newline_none|].
  rewrite log_of_snoc. unfold line_of. rewrite <- (append_assoc (log_of es) (text_of e)), append_assoc.
  change (String newline "" +:+ t) with (String newline t). by apply to_last_newline_tail.
Qed.

(** What is left of an append that was cut: nothing, or the start of a text. *)
Definition cut_text (e : SessionEvent) (n : nat) : string := String.substring 0 n (text_of e).

Lemma loads_text e : loads_bytes loads (text_of e) = Some (sort_keys (JObj (written e))).
Proof using JsonCodec0.
  unfold loads_bytes, text_of. assert (Hv : ∀ s, valid_utf8 (encode_utf8 s) = true).
  { clear. induction s as [|c s IH]; [done|]. destruct c as [[] [] [] [] [] [] [] []]; exact IH. }
  rewrite Hv, decode_encode. apply codec_back.
Qed.

Lemma loads_cut e n : 0 < n < String.length (text_of e) → loads_bytes loads (cut_text e n) = None.
Proof using JsonCodec0.
  intros [H0 Hn]. unfold loads_bytes, cut_text, text_of in *. destruct (valid_utf8 _) eqn:Hv; [|done].
  destruct (encoded_prefix _ _ Hv) as (k & -> & Hk & Hp). rewrite decode_encode.
  apply codec_torn. split; [|by apply Hk]. destruct (Hp H0) as [?|He]; [done|].
  pose proof (codec_some (JObj (written e))) as Hs. by rewrite He in Hs.
Qed.

(** *** Reading a log *)

Definition last_of (last0 : Z) (es : list SessionEvent) : Z := default last0 (sequence <$> last es).

Lemma last_of_snoc n es e : last_of n (es ++ [e]) = e.(sequence).
Proof. unfold last_of. by rewrite last_snoc. Qed.

Lemma last_of_cons n e es : last_of n (e :: es) = last_of e.(sequence) es.
Proof. unfold last_of. destruct es as [|d es]; [done|]. rewrite last_cons_cons. by destruct (last_is_Some (d :: es)) as [_ [? ->]]. Qed.

(** Events of a session, in order. *)
Fixpoint in_order (session : string) (n : Z) (es : list SessionEvent) : Prop :=
  match es with
  | [] => True
  | e :: es => valid_event e ∧ e.(session_id) = session ∧ (n < e.(sequence))%Z ∧ in_order session e.(sequence) es
  end.

Lemma in_order_snoc session n es e :
  in_order session n (es ++ [e]) ↔
    in_order session n es ∧ valid_event e ∧ e.(session_id) = session ∧ (last_of n es < e.(sequence))%Z.
Proof.
  clear float_eq. revert n. induction es as [|d es IH]; intros n; cbn [app in_order]; [unfold last_of; cbn; tauto|].
  rewrite IH, last_of_cons. tauto.
Qed.

Definition shown (after : Z) (es : list SessionEvent) : list SessionEvent :=
  readback <$> filter (λ e, after < e.(sequence))%Z es.

Lemma read_whole session after last i es rest :
  in_order session last es →
  read_events session after last i (((λ e, (text_of e, true)) <$> es) ++ rest) =
    rbind (read_events session after (last_of last es) (i + length es) rest) (λ r, Ok (shown after es ++ r)).
Proof using JsonCodec0.
  revert last i. induction es as [|e es IH]; intros last i.
  - intros _. cbn [fmap list_fmap app length]. rewrite Nat.add_0_r. by destruct (read_events _ _ _ _ _).
  - intros (Hv & Hs & Hn & Hes). cbn [fmap list_fmap app SessionStore.read_events].
    rewrite loads_text, event_from_written by done. change (SessionStore.session_id (readback e)) with e.(session_id).
    change (sequence (readback e)) with e.(sequence).
    rewrite Hs, String.eqb_refl, (proj2 (Z.ltb_lt _ _) Hn). cbn [rguard rbind].
    rewrite (IH _ _ Hes). cbn [length]. rewrite Nat.add_succ_r, last_of_cons. unfold shown. rewrite filter_cons.
    destruct (read_events _ _ _ _ rest) as [r|x]; [|done]. cbn [rbind].
    destruct (Z.ltb_spec after e.(sequence)) as [Hlt|Hge].
    + by rewrite decide_True.
    + rewrite decide_False; [done|lia].
Qed.
End session.
