(* ===== verification/SessionLogProps.v ===== *)
(** * Session logs under appends, restarts and crashes

    A log is followed through appends that succeed or are refused, restarts of
    the process, and crashes that leave any part of what an append writes. *)

From Stdlib Require Import Ascii.
From stdpp Require Import sorting.
From S2P Require Import Prelude Texts Values Codec SessionStore SessionStoreProps.

Open Scope py_scope.

Implicit Types (e : SessionEvent) (st : store).

Section log.
  Context (finite : string → bool) (float_eq : string → Z → bool).
  Context (dumps : json → string) (loads : string → option json).
  Context `{!JsonCodec dumps loads}.
  Context (session : string).

#[local] Abbreviation events := (events finite loads float_eq).
#[local] Abbreviation append := (append finite dumps loads float_eq).
#[local] Abbreviation text_of := (text_of dumps).
#[local] Abbreviation line_of := (line_of dumps).
#[local] Abbreviation log_of := (log_of dumps).
#[local] Abbreviation cut_text := (cut_text dumps).
#[local] Abbreviation valid_event := (valid_event finite).
#[local] Abbreviation in_order := (in_order finite session 0).

Definition log st : string := default "" (st.(logs) !! session).
Definition cached st : option Z := st.(last_sequence) !! session.

(** What a cut append may have left, the events being [es]. *)
Definition left_over (es : list SessionEvent) (tail : string) : Prop :=
  ∃ e n, in_order (es ++ [e]) ∧ 0 < n ≤ String.length (text_of e) ∧ tail = cut_text e n.

Record follows st (es : list SessionEvent) (tail : string) : Prop := {
  fo_order : in_order es;
  fo_log : log st = log_of es +:+ tail;
  fo_tail : tail = "" ∨ cached st = None ∧ left_over es tail;
  fo_cache : cached st = None ∨ cached st = Some (last_of 0 es);
}.

Lemma text_length e : 0 < String.length (text_of e).
Proof using JsonCodec0.
  unfold SessionStoreProps.text_of. pose proof (codec_some (JObj (written e))).
  destruct (dumps _) as [|c t]; [done|]. cbn. destruct (_ <? _)%N; cbn; lia.
Qed.

Lemma log_of_nil es tail : "" = log_of es +:+ tail → es = [] ∧ tail = "".
Proof using JsonCodec0.
  destruct es as [|e es]; [done|]. cbn [SessionStoreProps.log_of]. unfold SessionStoreProps.line_of.
  pose proof (text_length e). by destruct (text_of e); [cbn in *; lia|].
Qed.

Lemma cut_inline e n : all_chars inline (cut_text e n) = true.
Proof using JsonCodec0. apply substring_chars, (text_inline dumps loads). Qed.

Lemma left_over_inline es tail : left_over es tail → all_chars inline tail = true.
Proof using JsonCodec0. intros (e & n & _ & _ & ->). apply cut_inline. Qed.

Lemma tail_inline st es tail : follows st es tail → all_chars inline tail = true.
Proof using JsonCodec0. intros [_ _ [->|[_ H]] _]; [done|by eapply left_over_inline]. Qed.

Lemma cut_whole e : cut_text e (String.length (text_of e)) = text_of e.
Proof. by apply substring_full. Qed.

Lemma cut_nonempty e n : 0 < n ≤ String.length (text_of e) → str_true (cut_text e n) = true.
Proof. intros Hn. apply substring_some; [lia|]. destruct (text_of e); cbn in *; [lia|done]. Qed.

Lemma read_log st es after rest :
  id_pattern session = true → in_order es → log st = log_of es +:+ rest →
  events session after st =
    rbind (read_events finite loads float_eq session after (last_of 0 es) (length es) (byte_lines "" rest))
      (λ r, Ok (shown after es ++ r)).
Proof using JsonCodec0.
  intros Hid Ho Hl. unfold SessionStore.events, validate_id. rewrite Hid. cbn [rguard rbind]. unfold log in Hl.
  assert (Hread : read_events finite loads float_eq session after 0 0 (byte_lines "" (log_of es +:+ rest)) =
    rbind (read_events finite loads float_eq session after (last_of 0 es) (length es) (byte_lines "" rest))
      (λ r, Ok (shown after es ++ r))) by (rewrite (log_lines dumps loads); by rewrite read_whole).
  destruct (logs st !! session) as [text|]; simpl in Hl.
  - by rewrite Hl.
  - apply log_of_nil in Hl as [-> ->]. done.
Qed.

(** A text cut before its end is nothing; one without its newline is an event. *)
Lemma read_cut e n after last i :
  0 < n < String.length (text_of e) →
  read_events finite loads float_eq session after last i [(cut_text e n, false)] = Ok [].
Proof using JsonCodec0. intros Hn. cbn [SessionStore.read_events]. by rewrite loads_cut. Qed.

Lemma read_unended es e after i :
  in_order (es ++ [e]) →
  read_events finite loads float_eq session after (last_of 0 es) i [(text_of e, false)] = Ok (shown after [e]).
Proof using JsonCodec0.
  intros (_ & Hv & Hs & Hl)%in_order_snoc. cbn [SessionStore.read_events].
  rewrite loads_text, event_from_written by done. change (session_id (readback e)) with e.(session_id).
  change (sequence (readback e)) with e.(sequence).
  rewrite Hs, String.eqb_refl, (proj2 (Z.ltb_lt _ _) Hl). cbn [rguard rbind]. unfold shown. rewrite filter_cons.
  destruct (Z.ltb_spec after e.(sequence)); [by rewrite decide_True|rewrite decide_False; [done|lia]].
Qed.

Lemma shown_app after es es' : shown after (es ++ es') = shown after es ++ shown after es'.
Proof. unfold shown. by rewrite filter_app, fmap_app. Qed.

Lemma read_open st es e after :
  id_pattern session = true → in_order (es ++ [e]) → log st = log_of es +:+ text_of e →
  events session after st = Ok (shown after (es ++ [e])).
Proof using JsonCodec0.
  intros Hid He Hl. rewrite (read_log st es after _ Hid (proj1 (proj1 (in_order_snoc _ _ _ _ _) He)) Hl).
  rewrite byte_lines_last by apply (text_inline dumps loads).
  assert (Ht : str_true (text_of e) = true) by (pose proof (text_length e); by destruct (text_of e); [cbn in *; lia|]).
  rewrite Ht, read_unended by done. by rewrite shown_app.
Qed.

Lemma read_ended st es after :
  id_pattern session = true → in_order es → log st = log_of es +:+ "" →
  events session after st = Ok (shown after es).
Proof using JsonCodec0. intros Hid Ho Hl. rewrite (read_log st es after "" Hid Ho Hl). cbn. by rewrite !app_nil_r. Qed.

Lemma follows_read st es tail :
  id_pattern session = true → follows st es tail →
  ∃ cut, (cut = [] ∨ ∃ e, cut = [e] ∧ tail = text_of e ∧ in_order (es ++ [e])) ∧
         ∀ after, events session after st = Ok (shown after (es ++ cut)).
Proof using JsonCodec0.
  intros Hid [Ho Hl [->|[_ (e & n & He & Hn & ->)]] _].
  - exists []. split; [by left|]. intros after. rewrite app_nil_r. by apply read_ended.
  - destruct (decide (n = String.length (text_of e))) as [->|Hne].
    + exists [e]. split; [right; exists e; split_and!; [done|apply cut_whole|done]|]. intros after.
      apply read_open; [done..|]. by rewrite <- (cut_whole e).
    + exists []. split; [by left|]. intros after.
      rewrite (read_log st es after _ Hid Ho Hl), byte_lines_last, cut_nonempty by (apply cut_inline || done).
      rewrite read_cut by lia. cbn. by rewrite !app_nil_r.
Qed.

(** ** Appending *)

(** The log of the session, cut to its whole lines. *)
Definition trimmed st : store :=
  match st.(logs) !! session with
  | Some raw => mk_store (<[session := to_last_newline raw]> st.(logs)) st.(last_sequence)
  | None => st
  end.

Definition appended st e (text : string) : store :=
  mk_store (<[session := text]> st.(logs)) (<[session := e.(sequence)]> st.(last_sequence)).

Lemma trimmed_follows st es tail : follows st es tail → follows (trimmed st) es "" ∧ cached (trimmed st) = cached st.
Proof using JsonCodec0.
  intros Hf. pose proof (tail_inline _ _ _ Hf) as Hi. destruct Hf as [Ho Hl Ht Hc]. unfold trimmed.
  unfold log in Hl. destruct (logs st !! session) as [raw|] eqn:Hr; simpl in Hl.
  - split; [|done]. split; [done| |by left|done]. unfold log. cbn [logs]. rewrite lookup_insert_eq. simpl.
    rewrite Hl, to_last_newline_log by done. by rewrite append_nil.
  - split; [|done]. destruct (log_of_nil _ _ Hl) as [-> ->]. split; [done| |by left|done]. unfold log. by rewrite Hr.
Qed.

Lemma recover_run st : recover session st = (trimmed st, Ok tt).
Proof. unfold recover, bind, get, trimmed. by destruct (logs st !! session). Qed.

Lemma last_shown es : default 0%Z (sequence <$> last (readback <$> es)) = last_of 0 es.
Proof. unfold last_of. rewrite fmap_last. by destruct (last es). Qed.

Lemma in_order_after n es : SessionStoreProps.in_order finite session n es → (0 ≤ n)%Z → shown 0 es = readback <$> es.
Proof.
  revert n. induction es as [|e es IH]; intros n; [done|]. intros (_ & _ & Hn & Hes) H0. unfold shown.
  rewrite filter_cons, decide_True by lia. cbn. f_equal. apply (IH _ Hes). lia.
Qed.

Lemma previous_run st es :
  id_pattern session = true → follows st es "" →
  previous_sequence finite loads float_eq session st = (st, Ok (last_of 0 es)).
Proof using JsonCodec0.
  intros Hid [Ho Hl _ Hc]. unfold previous_sequence, bind, get. destruct Hc as [Hc|Hc]; unfold cached in Hc; rewrite Hc; [|done].
  unfold lift. rewrite (read_log st es 0 "" Hid Ho Hl). rewrite (in_order_after 0) by done.
  change (byte_lines "" "") with (@nil (string * bool)). cbn [SessionStore.read_events rbind].
  unfold ret. rewrite app_nil_r. by rewrite last_shown.
Qed.

Lemma append_run st es tail e :
  id_pattern session = true → follows st es tail → valid_event e → e.(session_id) = session →
  append e st =
    if (last_of 0 es <? e.(sequence))%Z then (appended (trimmed st) e (log_of (es ++ [e])), Ok tt)
    else (trimmed st, Raise (SessionError "session event sequence must increase")).
Proof using JsonCodec0.
  intros Hid Hf Hv Hs. destruct (trimmed_follows _ _ _ Hf) as [Hf' _].
  unfold SessionStore.append, bind, lift. rewrite to_dict_valid by done. unfold validate_id. rewrite Hs, Hid.
  cbn [rguard]. rewrite recover_run, (previous_run _ es Hid Hf'). unfold guard, lift.
  destruct (_ <? _)%Z; [|done]. cbn [rguard]. unfold write_line, modify, appended. do 2 f_equal.
  rewrite encode_newline, log_of_snoc. destruct Hf' as [_ Hl _ _]. unfold log in Hl. rewrite append_nil in Hl.
  rewrite <- Hl. by destruct (trimmed st).
Qed.

(** ** Histories *)

(** One step of the store; the events are those whose line is whole. *)
Inductive step : store * list SessionEvent → store * list SessionEvent → Prop :=
  | step_append st es e st' r :
      valid_event e → e.(session_id) = session → append e st = (st', r) →
      step (st, es) (st', match r with Ok _ => es ++ [e] | Raise _ => es end)
  | step_other st es e st' r :
      valid_event e → e.(session_id) ≠ session → append e st = (st', r) → step (st, es) (st', es)
  | step_restart st es : step (st, es) (mk_store st.(logs) ∅, es)
  (** the process dies in an append that would have succeeded, when it has
      written the first [n] bytes of the line *)
  | step_crash st es e st' n :
      valid_event e → e.(session_id) = session → append e st = (st', Ok tt) → n ≤ String.length (line_of e) →
      step (st, es)
        (mk_store (<[session := log (trimmed st) +:+ String.substring 0 n (line_of e)]> st.(logs)) ∅,
         if decide (n = String.length (line_of e)) then es ++ [e] else es).

Definition reachable : store * list SessionEvent → Prop := rtc step (mk_store ∅ ∅, []).

(** An append to another session leaves this one alone. *)
Lemma append_other st st' e r :
  e.(session_id) ≠ session → append e st = (st', r) →
  st'.(logs) !! session = st.(logs) !! session ∧ st'.(last_sequence) !! session = st.(last_sequence) !! session.
Proof.
  intros Hne. unfold SessionStore.append, bind, lift.
  destruct (validate_id _ _) as [[]|]; [|by intros [= <- _]].
  destruct (SessionEvent_to_dict _ _); [|by intros [= <- _]].
  assert (Hr : ∃ st1, recover e.(session_id) st = (st1, Ok tt) ∧ st1.(logs) !! session = st.(logs) !! session ∧
                st1.(last_sequence) = st.(last_sequence)).
  { unfold recover, bind, get, modify, ret. destruct (logs st !! session_id e) as [raw|]; [|by exists st].
    eexists. split; [done|]. split; [|done]. cbn. by rewrite lookup_insert_ne. }
  destruct Hr as (st1 & -> & Hl & Hc). rewrite <- Hl, <- Hc.
  assert (Hp : ∃ q, previous_sequence finite loads float_eq e.(session_id) st1 = (st1, q)).
  { unfold previous_sequence, bind, get, ret, lift. destruct (last_sequence st1 !! _); [by eexists|].
    destruct (SessionStore.events _ _ _ _ _ _); by eexists. }
  destruct Hp as (q & ->). destruct q as [n|x]; [|by intros [= <- _]].
  unfold guard, lift. destruct (_ <? _)%Z; cbn [rguard]; [|by intros [= <- _]].
  unfold write_line, modify. intros [= <- _]. cbn. by rewrite !lookup_insert_ne.
Qed.

Lemma follows_other st st' es tail :
  st'.(logs) !! session = st.(logs) !! session →
  (st'.(last_sequence) !! session = st.(last_sequence) !! session ∨ st'.(last_sequence) !! session = None) →
  follows st es tail → follows st' es tail.
Proof.
  intros Hl Hc [H1 H2 H3 H4]. split; unfold log, cached in *; rewrite ?Hl; [done..| |].
  - destruct H3 as [?|[H3 ?]]; [by left|]. right. split; [|done]. destruct Hc as [->| ->]; done.
  - destruct Hc as [->| ->]; auto.
Qed.

Lemma line_length e : String.length (line_of e) = S (String.length (text_of e)).
Proof. unfold SessionStoreProps.line_of. rewrite length_append. cbn. lia. Qed.

Lemma substring_line e n : n < String.length (line_of e) → String.substring 0 n (line_of e) = cut_text e n.
Proof. rewrite line_length. intros Hn. apply substring_app. lia. Qed.

Lemma appended_follows st es e tail :
  follows st es tail → valid_event e → e.(session_id) = session → (last_of 0 es < e.(sequence))%Z →
  follows (appended (trimmed st) e (log_of (es ++ [e]))) (es ++ [e]) "".
Proof.
  intros [Ho _ _ _] Hv Hs Hn. split; [by apply in_order_snoc| |by left|].
  - unfold log, appended. cbn. rewrite lookup_insert_eq. simpl. by rewrite append_nil.
  - right. unfold cached, appended. cbn. by rewrite lookup_insert_eq, last_of_snoc.
Qed.

Lemma step_follows st es st' es' tail :
  id_pattern session = true → follows st es tail → step (st, es) (st', es') → ∃ tail', follows st' es' tail'.
Proof using JsonCodec0.
  intros Hid Hf Hstep. inversion Hstep as [? ? e ? r Hv Hs Ha|? ? e ? r Hv Hs Ha| |? ? e ? n Hv Hs Ha Hn]; subst; clear Hstep.
  - rewrite (append_run _ _ _ _ Hid Hf Hv Hs) in Ha. exists "". destruct (Z.ltb_spec (last_of 0 es) e.(sequence)).
    + injection Ha as <- <-. by eapply appended_follows.
    + injection Ha as <- <-. by eapply trimmed_follows.
  - destruct (append_other _ _ _ _ Hs Ha) as [Hl Hc]. exists tail. by eapply follows_other; [..|exact Hf]; [|left].
  - exists tail. eapply (follows_other st); [done| |exact Hf]. right. apply lookup_empty.
  - rewrite (append_run _ _ _ _ Hid Hf Hv Hs) in Ha. destruct (Z.ltb_spec (last_of 0 es) e.(sequence)) as [Hlt|]; [|done].
    destruct (trimmed_follows _ _ _ Hf) as [[Ho Hl _ _] _]. rewrite append_nil in Hl. rewrite Hl.
    case_decide as Hw.
    + subst n. exists "". rewrite substring_full by done. split; [by apply in_order_snoc| |by left|left; apply lookup_empty].
      unfold log. cbn. rewrite lookup_insert_eq. simpl. by rewrite append_nil, log_of_snoc.
    + rewrite substring_line by lia. rewrite line_length in *. exists (cut_text e n).
      split; [done| | |left; apply lookup_empty].
      * unfold log. cbn. by rewrite lookup_insert_eq.
      * destruct n as [|n]; [left; unfold SessionStoreProps.cut_text; by destruct (text_of e)|].
        right. split; [apply lookup_empty|]. exists e, (S n). split; [by apply in_order_snoc|]. split; [lia|done].
Qed.

Lemma reachable_follows st es : id_pattern session = true → reachable (st, es) → ∃ tail, follows st es tail.
Proof using JsonCodec0.
  intros Hid Hr.
  assert (Hw : ∀ w, reachable w → ∃ tail, follows w.1 w.2 tail); [|exact (Hw _ Hr)].
  apply (rtc_ind_r (λ w, ∃ tail, follows w.1 w.2 tail)).
  - exists "". by split; auto.
  - intros [st1 es1] [st2 es2] _ Hs [tail Hf]. by eapply step_follows.
Qed.

(** Whatever was appended to a session, however often the process was
    restarted and wherever it died in an append, [events] reads the log: all
    the events whose line is whole, in strictly increasing order, and at most
    one more, whose line lacks only its end. *)
Theorem session_log_is_readable st es :
  id_pattern session = true → reachable (st, es) →
  in_order es ∧
  ∃ cut, (cut = [] ∨ ∃ e, cut = [e] ∧ in_order (es ++ [e])) ∧
         ∀ after, events session after st = Ok (shown after (es ++ cut)).
Proof using JsonCodec0.
  intros Hid Hr. destruct (reachable_follows _ _ Hid Hr) as [tail Hf]. split; [by destruct Hf|].
  destruct (follows_read _ _ _ Hid Hf) as (cut & Hc & Hread). exists cut. split; [|done].
  destruct Hc as [->|(e & -> & _ & ?)]; [by left|right; by exists e].
Qed.

(** An append whose crash left all of the event but the end of its line:
    the event is read, and a resumption replays it, but the next append
    discards it, and the log never shows it again. *)
Theorem unended_event_is_lost st es e st1 d st2 after :
  id_pattern session = true → reachable (st, es) →
  valid_event e → e.(session_id) = session → append e st = (st1, Ok tt) →
  let crashed := mk_store (<[session := log (trimmed st) +:+ text_of e]> st.(logs)) ∅ in
  valid_event d → d.(session_id) = session → append d crashed = (st2, Ok tt) →
  events session after crashed = Ok (shown after (es ++ [e])) ∧
  events session after st2 = Ok (shown after (es ++ [d])).
Proof using JsonCodec0.
  intros Hid Hr Hv Hs Ha crashed Hvd Hsd Had. destruct (reachable_follows _ _ Hid Hr) as [tail Hf].
  rewrite (append_run _ _ _ _ Hid Hf Hv Hs) in Ha. destruct (Z.ltb_spec (last_of 0 es) e.(sequence)) as [Hlt|]; [|done].
  destruct (trimmed_follows _ _ _ Hf) as [[Ho Hl _ _] _]. rewrite append_nil in Hl.
  assert (He : in_order (es ++ [e])) by by apply in_order_snoc.
  assert (Hlog : log crashed = log_of es +:+ text_of e).
  { unfold log at 1, crashed. cbn [logs]. rewrite lookup_insert_eq. simpl. by rewrite Hl. }
  assert (Hc : follows crashed es (text_of e)).
  { split; [done..| |left; apply lookup_empty]. right. split; [apply lookup_empty|].
    exists e, (String.length (text_of e)). rewrite cut_whole. pose proof (text_length e). auto with lia. }
  split; [by apply read_open|]. rewrite (append_run _ _ _ _ Hid Hc Hvd Hsd) in Had.
  destruct (Z.ltb_spec (last_of 0 es) d.(sequence)); [|done]. injection Had as <-.
  apply read_ended; [done|by apply in_order_snoc|]. by eapply appended_follows.
Qed.

(** ** The handle *)

#[local] Abbreviation handle_append := (handle_append finite dumps loads float_eq).

Lemma safe_fields_finite m : all_finite finite (JObj m) = true → all_finite finite (JObj (safe_fields m)) = true.
Proof. rewrite <- session_safe_obj. apply all_finite_safe. Qed.

Lemma handle_append_run st es n type task data id time :
  id_pattern session = true → reachable (st, es) → (last_of 0 es ≤ n)%Z → (0 ≤ n)%Z →
  id_pattern task = true → all_finite finite (JList [JObj data; id; time]) = true →
  let e := mk_event type session task (n + 1) (safe_fields data) id time in
  ∃ st', handle_append type task data id time (mk_handle session n, st) =
           ((mk_handle session (n + 1), st'), Ok e) ∧
         reachable (st', es ++ [e]) ∧ ∀ after, events session after st' = Ok (shown after (es ++ [e])).
Proof using JsonCodec0.
  intros Hid Hr Hn H0 Ht Hf e. destruct (reachable_follows _ _ Hid Hr) as [tail Hfo].
  rewrite all_finite_list in Hf. cbn [forallb] in Hf. apply andb_true_iff in Hf as [Hp Hf].
  assert (Hv : valid_event e).
  { split; [done|done|cbn; lia|]. rewrite all_finite_list. cbn [forallb]. apply andb_true_iff.
    split; [by apply safe_fields_finite|exact Hf]. }
  assert (Ha : append e st = (appended (trimmed st) e (log_of (es ++ [e])), Ok tt)).
  { rewrite (append_run _ _ _ _ Hid Hfo Hv eq_refl). destruct (Z.ltb_spec (last_of 0 es) e.(sequence)); [done|cbn in *; lia]. }
  exists (appended (trimmed st) e (log_of (es ++ [e]))). split_and!.
  - unfold SessionStore.handle_append. cbn [handle_session handle_sequence].
    rewrite new_Ok; [|done|done|lia|done]. fold e. by rewrite Ha.
  - eapply rtc_r; [exact Hr|]. by apply (step_append _ _ _ _ (Ok tt)).
  - intros after. apply read_ended; [done| |].
    + apply in_order_snoc. split_and!; [by destruct Hfo|done|done|cbn; lia].
    + eapply appended_follows; [done..|cbn; lia].
Qed.

(** A handle that is not behind its log appends: what it is given becomes
    the next whole line, redacted, under the next number. *)
Theorem handle_append_extends st es n type task data id time :
  id_pattern session = true → reachable (st, es) → (last_of 0 es ≤ n)%Z → (0 ≤ n)%Z →
  id_pattern task = true → all_finite finite (JList [JObj data; id; time]) = true →
  let e := mk_event type session task (n + 1) (safe_fields data) id time in
  ∃ st', handle_append type task data id time (mk_handle session n, st) =
           ((mk_handle session (n + 1), st'), Ok e) ∧
         reachable (st', es ++ [e]) ∧ ∀ after, events session after st' = Ok (shown after (es ++ [e])).
Proof using JsonCodec0.
  by apply handle_append_run.
Qed.

(** A refusal of the event itself is not undone: the handle keeps the
    number, although nothing was written. *)
Theorem handle_refusal_uses_a_number st n type task data id time :
  id_pattern session = true → id_pattern task = false →
  handle_append type task data id time (mk_handle session n, st) =
    ((mk_handle session (n + 1), st), Raise (SessionError "invalid task_id")).
Proof.
  intros Hid Ht. unfold SessionStore.handle_append, SessionEvent_new, validate_id. cbn [handle_session handle_sequence].
  by rewrite Hid, Ht.
Qed.
End log.

(** ** Examples *)

Module Examples.
Definition all_finite_literals (_ : string) : bool := true.
Definition no_float (_ : string) (_ : Z) : bool := false.
Definition event (n : Z) : SessionEvent :=
  mk_event TASK_STARTED "session_1" "task_0001" n [("note", JStr "token=abc"); ("input_tokens", JInt 7)]
    (JStr "sessionevt_1") (JStr "now").
Definition append1 := append all_finite_literals bits_dumps bits_loads no_float.
Definition start : store := mk_store ∅ ∅.
Definition first_stored : store := (append1 (event 1) start).1.

Lemma event_valid n : (1 <= n)%Z → valid_event all_finite_literals (event n).
Proof. by split. Qed.

Lemma first_appended : append1 (event 1) start = (first_stored, Ok tt).
Proof. vm_compute. reflexivity. Qed.

Lemma first_reachable : reachable all_finite_literals no_float bits_dumps bits_loads "session_1" (first_stored, [event 1]).
Proof.
  eapply rtc_r; [apply rtc_refl|]. refine (step_append _ _ _ _ _ start [] (event 1) _ (Ok tt) _ _ _); [by apply event_valid|done|].
  exact first_appended.
Qed.

Lemma session_log_is_readable_witness :
  reachable all_finite_literals no_float bits_dumps bits_loads "session_1" (first_stored, [event 1]) ∧
  ∃ cut, (cut = [] ∨ ∃ e, cut = [e] ∧ in_order all_finite_literals "session_1" 0 ([event 1] ++ [e])) ∧
    ∀ after, events all_finite_literals bits_loads no_float "session_1" after first_stored = Ok (shown after ([event 1] ++ cut)).
Proof.
  split; [exact first_reachable|].
  exact (proj2 (session_log_is_readable _ _ bits_dumps bits_loads "session_1" first_stored [event 1] eq_refl first_reachable)).
Defined.

Definition crashed : store :=
  mk_store (<["session_1" := log "session_1" (trimmed "session_1" first_stored) +:+ text_of bits_dumps (event 2)]>
              first_stored.(logs)) ∅.

Lemma unended_event_is_lost_witness :
  events all_finite_literals bits_loads no_float "session_1" 0 crashed = Ok (shown 0 ([event 1] ++ [event 2])) ∧
  events all_finite_literals bits_loads no_float "session_1" 0 (append1 (event 3) crashed).1 =
    Ok (shown 0 ([event 1] ++ [event 3])).
Proof.
  apply (unended_event_is_lost all_finite_literals no_float bits_dumps bits_loads "session_1" first_stored [event 1]
           (event 2) (append1 (event 2) first_stored).1 (event 3) (append1 (event 3) crashed).1 0).
  - reflexivity.
  - exact first_reachable.
  - by apply event_valid.
  - reflexivity.
  - vm_compute. reflexivity.
  - by apply event_valid.
  - reflexivity.
  - vm_compute. reflexivity.
Defined.

Lemma handle_append_extends_witness :
  let data := [("note", JStr "token=abc"); ("input_tokens", JInt 7)] in
  let e := mk_event TASK_COMPLETED "session_1" "task_0001" 2 [("note", JStr "token=[REDACTED]"); ("input_tokens", JInt 7)]
             (JStr "sessionevt_2") (JStr "later") in
  ∃ st', handle_append all_finite_literals bits_dumps bits_loads no_float TASK_COMPLETED "task_0001" data
           (JStr "sessionevt_2") (JStr "later") (mk_handle "session_1" 1, first_stored) =
           ((mk_handle "session_1" 2, st'), Ok e) ∧
         reachable all_finite_literals no_float bits_dumps bits_loads "session_1" (st', [event 1] ++ [e]) ∧
         ∀ after, events all_finite_literals bits_loads no_float "session_1" after st' = Ok (shown after ([event 1] ++ [e])).
Proof.
  intros data e.
  apply (handle_append_extends all_finite_literals no_float bits_dumps bits_loads "session_1" first_stored [event 1] 1
           TASK_COMPLETED "task_0001" data (JStr "sessionevt_2") (JStr "later")); try reflexivity; try lia.
  exact first_reachable.
Defined.

Lemma handle_refusal_uses_a_number_witness :
  handle_append all_finite_literals bits_dumps bits_loads no_float TASK_COMPLETED "task" [] JNull JNull
    (mk_handle "session_1" 1, first_stored) =
  ((mk_handle "session_1" 2, first_stored), Raise (SessionError "invalid task_id")).
Proof.
  apply (handle_refusal_uses_a_number all_finite_literals no_float bits_dumps bits_loads "session_1"); reflexivity.
Defined.
End Examples.
