(* ===== verification/SessionResume.v ===== *)
(** * Resuming a session: [restore_session]

    A stored snapshot, once decoded, is continued: the configuration and the
    bound standard are checked, the events after the snapshot are replayed
    over its state, a tool in flight is cancelled, and calls without a result
    are answered.  The JSON form of snapshots is not modelled: [restore_session]
    takes what [load_snapshot] returned and gives what it saves. *)

From Stdlib Require Import Ascii.
From S2P Require Import Prelude Texts Values Codec WorkingState SessionStore.

Open Scope py_scope.

(** ** Data *)

Record SessionConfiguration := mk_configuration {
  cf_workspace : string;
  cf_project : string;
  cf_execution_mode : string;
  cf_context_policy_version : string;
  cf_tool_registry_version : string;
  cf_provider : option string;
  cf_model : option string;
}.

(** [compatible_with]: the provider and the model may change. *)
Definition compatible_with (a b : SessionConfiguration) : bool :=
  String.eqb a.(cf_workspace) b.(cf_workspace) && String.eqb a.(cf_project) b.(cf_project)
  && String.eqb a.(cf_execution_mode) b.(cf_execution_mode)
  && String.eqb a.(cf_context_policy_version) b.(cf_context_policy_version)
  && String.eqb a.(cf_tool_registry_version) b.(cf_tool_registry_version).

Record InFlightOperation := mk_in_flight {
  if_kind : string;
  if_operation_id : string;
  if_name : string;
  if_mutating : bool;
}.

(** The blocks and messages of [client/models/model_backend.py]. *)
Inductive ContentBlock :=
  | TextBlock (text : string)
  | ToolUseBlock (id name : string) (arguments : dict string json)
  | ToolResultBlock (tool_call_id content : string) (is_error : bool).

Record ConversationMessage := mk_message {
  ms_role : string;
  ms_content : list ContentBlock;
  ms_authored_by : string;
}.

(** [StandardBinding] of [client/standard/standard_schema.py]. *)
Record StandardBinding := mk_binding {
  sb_standard_id : string;
  sb_revision : string;
  sb_pdf_sha256 : string;
  sb_corpus_manifest_sha256 : string;
  sb_index_fingerprint : string;
  sb_extractor_version : string;
  sb_corpus_schema_version : Z;
  sb_bound_at : option string;
  sb_data_origin : string;
  sb_vector_index_fingerprint : option string;
  sb_cross_reference_index_fingerprint : option string;
  sb_retrieval_fingerprint : option string;
}.

(** A snapshot; the fields that a resumption only copies are JSON values. *)
Record SessionSnapshot := mk_snapshot {
  sn_session_id : string;
  sn_task_id : string;
  sn_sequence : Z;
  sn_configuration : SessionConfiguration;
  sn_working_state : WorkingState;
  sn_conversation : list ConversationMessage;
  sn_context_items : json;
  sn_compaction_artifact : json;
  sn_result_references : json;
  sn_in_flight : option InFlightOperation;
  sn_tool_log : json;
  sn_trajectory : json;
  sn_progress_state : json;
  sn_checkpoint_id : json;
  sn_checkpoint_status : json;
  sn_checkpoint_paths : json;
  sn_exploration_reports : json;
  sn_review_results : json;
  sn_budget_state : json;
  sn_delegation_results : json;
  sn_tool_exposure : json;
  sn_standard_binding : option StandardBinding;
  sn_standard_source_ids_used : json;
  sn_standard_retrieval_cache_fingerprint : option string;
}.

(** What a resumption raises: its own errors, or those of the task state. *)
Inductive failure :=
  | Session (x : SessionStore.exn)
  | State (x : WorkingState.exn).

(** The constructor of a snapshot. *)
Definition SessionSnapshot_new (s : SessionSnapshot) : res SessionStore.exn SessionSnapshot :=
  do? validate_id s.(sn_session_id) "session_id" in
  do? validate_id s.(sn_task_id) "task_id" in
  do? rguard (String.eqb s.(sn_working_state).(ws_task_id) s.(sn_task_id))
        (SessionError "snapshot WorkingState belongs to another task") in
  Ok s.

(** ** The bound standard *)

(** [retrieval_fingerprint or index_fingerprint] *)
Definition fingerprint (b : StandardBinding) : string :=
  match b.(sb_retrieval_fingerprint) with
  | Some f => if str_true f then f else b.(sb_index_fingerprint)
  | None => b.(sb_index_fingerprint)
  end.

Definition same_source (a b : StandardBinding) : bool :=
  String.eqb a.(sb_pdf_sha256) b.(sb_pdf_sha256)
  && String.eqb a.(sb_corpus_manifest_sha256) b.(sb_corpus_manifest_sha256)
  && String.eqb a.(sb_revision) b.(sb_revision).

(** The binding to continue with, and the old one when its index changed.
    [available] is the standard store, when there is one: what it holds for
    an identifier, a revision and a time, or why it has nothing. *)
Definition check_binding (stored : option StandardBinding)
    (available : option (string → string → option string → res string StandardBinding))
    : res SessionStore.exn (option StandardBinding * option StandardBinding) :=
  match stored, available with
  | Some persisted, Some binding =>
      match binding persisted.(sb_standard_id) persisted.(sb_revision) persisted.(sb_bound_at) with
      | Raise why =>
          Raise (SessionCompatibilityError "Resume blocked: bound canonical normative source is unavailable")
      | Ok found =>
          do? rguard (same_source persisted found)
                (SessionCompatibilityError "Resume blocked: canonical normative source changed") in
          Ok (if String.eqb (fingerprint persisted) (fingerprint found)
              then (stored, None) else (Some found, Some persisted))
      end
  | _, _ => Ok (stored, None)
  end.

(** ** Replay *)

Section resume.
  Context (float_eq : string → Z → bool) (repr : json → string).

Definition str_of (j : json) : string := py_str repr j.

(** The operation that is in flight after an event. *)
Definition flight_after (e : SessionEvent) (in_flight : option InFlightOperation) : option InFlightOperation :=
  match e.(event_type) with
  | TOOL_ACTION_STARTED =>
      Some (mk_in_flight "tool"
        (str_of (dict_get_default e.(payload) "tool_call_id" (JStr "unknown")))
        (str_of (dict_get_default e.(payload) "tool_name" (JStr "unknown")))
        (py_true float_eq (dict_get_default e.(payload) "mutating" (JBool false))))
  | MODEL_TURN_STARTED => Some (mk_in_flight "model" (str_of e.(event_id)) "model_complete" false)
  | TOOL_ACTION_COMPLETED | MODEL_TURN_COMPLETED => None
  | _ => in_flight
  end.

(** What an event does to the state of the task. *)
Definition replay_event (e : SessionEvent) : M WorkingState WorkingState.exn unit :=
  match e.(event_type), dict_get e.(payload) "state_event" with
  | SessionStore.WORKING_STATE_TRANSITION, Some (JObj raw) =>
      let* transition := lift (StateEvent_from_dict (JObj raw)) in
      let* state := get in
      if bool_decide (transition.(ev_event_id) ∈ state.(ws_applied_event_ids)) then ret tt
      else WorkingState.apply transition
  | _, _ => ret tt
  end.

Definition sanitized (s : string) : string :=
  (fix go s := match s with
   | EmptyString => EmptyString
   | String c s => String (if is_alnum c || one_of "_-" c then c else "_"%char) (go s)
   end) s.

(** [StateEvent.create(...)] and [state.apply(...)]; [draw] gives the
    identifier and the clocks of an event. *)
Definition create_and_apply (draw : string * string * Z) (type : StateEventType) (data : WorkingState.payload)
    : M WorkingState WorkingState.exn unit :=
  let* state := get in
  let* ev := lift (StateEvent_create draw.1.1 draw.1.2 draw.2 type state.(ws_task_id) HARNESS data) in
  WorkingState.apply ev.

Definition resume_interrupted (draw : string * string * Z) : M WorkingState WorkingState.exn unit :=
  let* state := get in
  if bool_decide (state.(ws_terminal_status) = INTERRUPTED) then create_and_apply draw TASK_RESUMED []
  else ret tt.

(** A tool in flight becomes a cancelled action. *)
Definition cancel_in_flight (draw : string * string * Z) (op : InFlightOperation)
    : M WorkingState WorkingState.exn unit :=
  let action_id := "resume_interrupted_" +:+ sanitized op.(if_operation_id) in
  let* state := get in
  if existsb (λ a, String.eqb a.(act_action_id) action_id) state.(ws_actions) then ret tt
  else create_and_apply draw ACTION_CANCELLED
    [("action_id", JStr action_id); ("kind", JStr (enum_value TOOL)); ("name", JStr op.(if_name));
     ("observed_status", JStr "cancelled"); ("category", JStr "interrupted");
     ("summary", JStr "tool outcome was not grounded before interruption");
     ("round_number", JInt state.(ws_current_round))].

Definition interrupted_result : string :=
  "ERROR: the prior tool operation was interrupted; its outcome is unknown and it was not automatically repeated.".
Definition missing_result : string :=
  "ERROR: this tool operation was interrupted; it was not automatically repeated.".

Definition user_message (content : list ContentBlock) : ConversationMessage := mk_message "user" content "operator".

Definition blocks (conversation : list ConversationMessage) : list ContentBlock :=
  mjoin (ms_content <$> conversation).

(** The identifiers of the calls, in order, and of the results. *)
Definition called (b : ContentBlock) : option string :=
  match b with ToolUseBlock id _ _ => Some id | _ => None end.
Definition answered (b : ContentBlock) : option string :=
  match b with ToolResultBlock id _ _ => Some id | _ => None end.

(** The calls that have no result are answered. *)
Definition answer_missing (conversation : list ConversationMessage) : list ConversationMessage :=
  let outstanding := omap called (blocks conversation) in
  let done := omap answered (blocks conversation) in
  match filter (λ id, id ∉ done) outstanding with
  | [] => conversation
  | missing => conversation ++ [user_message ((λ id, ToolResultBlock id missing_result true) <$> missing)]
  end.

(** ** The resumption *)

Context (finite : string → bool) (dumps : json → string) (loads : string → option json).

(** What replaying the log leaves: the state, the operation in flight and the
    last sequence. *)
Fixpoint replay (events : list SessionEvent) (in_flight : option InFlightOperation) (n : Z)
    : M WorkingState WorkingState.exn (option InFlightOperation * Z) :=
  match events with
  | [] => ret (in_flight, n)
  | e :: events =>
      do* replay_event e in
      replay events (flight_after e in_flight) e.(sequence)
  end.

Definition is_tool (op : InFlightOperation) : bool := String.eqb op.(if_kind) "tool".

(** The state, the conversation and the operation in flight that go on. *)
Definition recover_task (resumed cancelled : string * string * Z) (conversation : list ConversationMessage)
    (in_flight : option InFlightOperation)
    : M WorkingState WorkingState.exn (list ConversationMessage * option InFlightOperation) :=
  do* resume_interrupted resumed in
  match in_flight with
  | Some op =>
      if is_tool op then
        do* cancel_in_flight cancelled op in
        let conversation := conversation ++ [user_message [ToolResultBlock op.(if_operation_id) interrupted_result true]] in
        ret (answer_missing conversation, None)
      else ret (answer_missing conversation, in_flight)
  | None => ret (answer_missing conversation, in_flight)
  end.

Definition optional (s : option string) : json := match s with Some s => JStr s | None => JNull end.

Definition retrieval_changed (old found : StandardBinding) : dict string json :=
  [("old_retrieval_fingerprint", JStr (fingerprint old)); ("new_retrieval_fingerprint", JStr (fingerprint found));
   ("components", JObj [("lexical", JStr found.(sb_index_fingerprint));
                        ("vector", optional found.(sb_vector_index_fingerprint));
                        ("cross_references", optional found.(sb_cross_reference_index_fingerprint))]);
   ("canonical_source_unchanged", JBool true); ("cached_retrieval_invalidated", JBool true)].

Definition index_changed (old found : StandardBinding) : dict string json :=
  [("old_index_fingerprint", JStr old.(sb_index_fingerprint)); ("new_index_fingerprint", JStr found.(sb_index_fingerprint));
   ("canonical_source_unchanged", JBool true); ("cached_retrieval_invalidated", JBool true)].

Abbreviation op := (M (SessionHandle * store) failure).

(** [handle.append], and [draws] for the identifiers and times of the events. *)
Definition record (draw : json * json) (type : SessionEventType) (task : string) (data : dict string json) : op unit :=
  λ w, match handle_append finite dumps loads float_eq type task data draw.1 draw.2 w with
       | (w, Ok _) => (w, Ok tt)
       | (w, Raise x) => (w, Raise (Session x))
       end.

(** The events of a resumption. *)
Definition record_change (draws : nat → json * json) (task : string) (old found : option StandardBinding) : op unit :=
  match old, found with
  | Some old, Some found =>
      do* record (draws 0) STANDARD_RETRIEVAL_CHANGED task (retrieval_changed old found) in
      if String.eqb old.(sb_index_fingerprint) found.(sb_index_fingerprint) then ret tt
      else record (draws 1) STANDARD_INDEX_CHANGED task (index_changed old found)
  | _, _ => ret tt
  end.

Definition record_resumption (draws : nat → json * json) (task : string) (from : Z)
    (old found : option StandardBinding) : op unit :=
  do* record_change draws task old found in
  record (draws 2) SESSION_RESUMED task [("from_sequence", JInt from)].

(** [SessionHandle.save] refuses a snapshot that is not the handle's. *)
Definition handle_save (handle : SessionHandle) (snapshot : SessionSnapshot) : res SessionStore.exn unit :=
  rguard (String.eqb snapshot.(sn_session_id) handle.(handle_session)
          && (snapshot.(sn_sequence) =? handle.(handle_sequence))%Z)
    (SessionError "snapshot does not match session handle").
(** What a resumption continues with. *)
Record prepared := mk_prepared {
  pr_binding : option StandardBinding;
  pr_old_binding : option StandardBinding;
  pr_sequence : Z;
  pr_state : WorkingState;
  pr_conversation : list ConversationMessage;
  pr_in_flight : option InFlightOperation;
}.

(** The snapshot at a sequence. *)
Definition snapshot_of (session : string) (stored : SessionSnapshot) (current : SessionConfiguration) (p : prepared)
    (n : Z) : SessionSnapshot :=
  mk_snapshot session stored.(sn_task_id) n current p.(pr_state) p.(pr_conversation)
    stored.(sn_context_items) stored.(sn_compaction_artifact) stored.(sn_result_references) p.(pr_in_flight)
    stored.(sn_tool_log) stored.(sn_trajectory) stored.(sn_progress_state) stored.(sn_checkpoint_id)
    stored.(sn_checkpoint_status) stored.(sn_checkpoint_paths) stored.(sn_exploration_reports)
    stored.(sn_review_results) stored.(sn_budget_state) stored.(sn_delegation_results) stored.(sn_tool_exposure)
    p.(pr_binding) stored.(sn_standard_source_ids_used)
    match p.(pr_old_binding), p.(pr_binding) with
    | Some _, Some found => Some (fingerprint found)
    | _, _ => stored.(sn_standard_retrieval_cache_fingerprint)
    end.

(** [restore_session] up to the first event it appends. *)
Definition prepare (resumed cancelled : string * string * Z) (session : string) (stored : SessionSnapshot)
    (current : SessionConfiguration)
    (available : option (string → string → option string → res string StandardBinding)) (st : store)
    : res failure prepared :=
  do? rmap_err Session (rguard (compatible_with stored.(sn_configuration) current)
        (SessionCompatibilityError "workspace/project/runtime configuration mismatch")) in
  let? binding := rmap_err Session (check_binding stored.(sn_standard_binding) available) in
  let? state := rmap_err State (WorkingState_from_dict (WorkingState_to_dict stored.(sn_working_state))) in
  let? events := rmap_err Session (events finite loads float_eq session stored.(sn_sequence) st) in
  let '(state, replayed) := replay events stored.(sn_in_flight) stored.(sn_sequence) state in
  let? '(in_flight, n) := rmap_err State replayed in
  let '(state, recovered) := recover_task resumed cancelled stored.(sn_conversation) in_flight state in
  let? '(conversation, in_flight) := rmap_err State recovered in
  let p := mk_prepared binding.1 binding.2 n state conversation in_flight in
  do? rmap_err Session (SessionSnapshot_new (snapshot_of session stored current p n)) in
  Ok p.

(** [restore_session] on the decoded snapshot: the handle and the snapshot
    that is saved. *)
Definition restore_session (draws : nat → json * json) (resumed cancelled : string * string * Z)
    (session : string) (stored : SessionSnapshot) (current : SessionConfiguration)
    (available : option (string → string → option string → res string StandardBinding))
    (st : store) : store * res failure (SessionHandle * SessionSnapshot) :=
  match prepare resumed cancelled session stored current available st with
  | Raise x => (st, Raise x)
  | Ok p =>
      match record_resumption draws p.(pr_state).(ws_task_id) stored.(sn_sequence) p.(pr_old_binding) p.(pr_binding)
              (mk_handle session p.(pr_sequence), st) with
      | ((_, st), Raise x) => (st, Raise x)
      | ((handle, st), Ok _) =>
          let restored := snapshot_of session stored current p handle.(handle_sequence) in
          (st, do? rmap_err Session (handle_save handle restored) in Ok (handle, restored))
      end
  end.
End resume.
