(* ===== verification/SessionResumeProps.v ===== *)
(** * Correctness of the resumption of a session *)

From Stdlib Require Import Ascii.
From stdpp Require Import sorting.
From S2P Require Import Prelude Texts Values Codec WorkingState WorkingStateSpec WorkingStateFacts WorkingStateProps.
From S2P Require Import SessionStore SessionStoreProps SessionLogProps SessionResume.

Open Scope py_scope.

Implicit Types (s : WorkingState) (ts : list StateEvent).

(** ** The conversation *)

Lemma blocks_app c d : blocks (c ++ d) = blocks c ++ blocks d.
Proof. unfold blocks. by rewrite fmap_app, join_app. Qed.

(** A message of results that report an error. *)
Definition error_results (m : ConversationMessage) : Prop :=
  m.(ms_role) = "user" ∧ Forall (λ b, ∃ id text, b = ToolResultBlock id text true) m.(ms_content).

Definition all_answered (c : list ConversationMessage) : Prop :=
  ∀ id, id ∈ omap called (blocks c) → id ∈ omap answered (blocks c).

Lemma answer_missing_spec c :
  ∃ added, answer_missing c = c ++ added ∧ Forall error_results added ∧ all_answered (answer_missing c).
Proof.
  unfold answer_missing. destruct (filter _ _) as [|id0 ids] eqn:Hm.
  - exists []. rewrite app_nil_r. split_and!; [done..|]. intros id Hid.
    destruct (decide (id ∈ omap answered (blocks c))) as [|Hn]; [done|].
    assert (Hf : id ∈ filter (λ id, id ∉ omap answered (blocks c)) (omap called (blocks c)))
      by by apply list_elem_of_filter.
    rewrite Hm in Hf. by apply elem_of_nil in Hf.
  - set (missing := id0 :: ids). eexists. split; [done|]. split.
    + constructor; [|done]. split; [done|]. apply Forall_fmap, Forall_true. intros id. by eexists _, _.
    + intros id. rewrite blocks_app, !omap_app. intros Hid.
      assert (Hcall : ∀ ids : list string, omap called (blocks [user_message ((λ id, ToolResultBlock id missing_result true) <$> ids)]) = []).
      { intros l. unfold blocks. cbn. rewrite app_nil_r. by induction l. }
      assert (Hans : ∀ ids : list string, omap answered (blocks [user_message ((λ id, ToolResultBlock id missing_result true) <$> ids)]) = ids).
      { intros l. unfold blocks. cbn. rewrite app_nil_r. induction l as [|x l IH]; [done|]. cbn. by rewrite IH. }
      rewrite Hcall, app_nil_r in Hid. rewrite Hans.
      apply elem_of_app. destruct (decide (id ∈ omap answered (blocks c))) as [|Hn]; [by left|]. right.
      unfold missing. rewrite <- Hm. by apply list_elem_of_filter.
Qed.

(** ** The state *)

Lemma apply_ids ev s s' u :
  apply ev s = (s', Ok u) →
  ev.(ev_event_id) ∉ s.(ws_applied_event_ids) ∧
  s'.(ws_applied_event_ids) = s.(ws_applied_event_ids) ∪ {[ev.(ev_event_id)]}.
Proof. intros [(_ & Hn & _) (s1 & (_ & E & _)%log_frame & ->)]%apply_step. split; [done|]. cbn. by rewrite E. Qed.

Lemma run_fresh ts s s' u :
  for_each ts apply s = (s', Ok u) → Forall (λ t, t.(ev_event_id) ∉ s.(ws_applied_event_ids)) ts.
Proof.
  revert s. induction ts as [|t ts IH]; intros s; [constructor|]. cbn [for_each].
  intros (s1 & a & H1 & H)%bind_Ok. apply apply_ids in H1 as [Hn E]. constructor; [done|].
  eapply Forall_impl; [by eapply IH|]. intros x Hx. rewrite E in Hx. set_solver.
Qed.

(** The transition an event of the log carries, and those of a log. *)
Definition carried (e : SessionEvent) : option (res WorkingState.exn StateEvent) :=
  match e.(event_type), dict_get e.(payload) "state_event" with
  | SessionStore.WORKING_STATE_TRANSITION, Some (JObj raw) => Some (StateEvent_from_dict (JObj raw))
  | _, _ => None
  end.

Definition new_to s (t : StateEvent) : Prop := t.(ev_event_id) ∉ s.(ws_applied_event_ids).

Section resume.
  Context (float_eq : string → Z → bool) (repr : json → string).
  Context (finite : string → bool) (dumps : json → string) (loads : string → option json).

#[local] Abbreviation replay := (replay float_eq repr).

Definition flight_of (es : list SessionEvent) (f : option InFlightOperation) : option InFlightOperation :=
  foldl (λ f e, flight_after float_eq repr e f) f es.

(** Replaying applies the transitions that the state has not seen. *)
Lemma replay_run es f n s tl s' u :
  omap carried es = Ok <$> tl →
  for_each (filter (new_to s) tl) apply s = (s', Ok u) →
  replay es f n s = (s', Ok (flight_of es f, last_of n es)).
Proof.
  revert f n s tl. induction es as [|e es IH]; intros f n s tl Hc Hr.
  - cbn in Hc. symmetry in Hc. apply fmap_nil_inv in Hc as ->. cbn in Hr |- *. unfold ret in *. by injection Hr as <- _.
  - cbn [SessionResume.replay flight_of foldl]. rewrite last_of_cons. unfold bind at 1.
    assert (Hstep : ∃ tl' s1, omap carried es = Ok <$> tl' ∧ for_each (filter (new_to s1) tl') apply s1 = (s', Ok u) ∧
              replay_event e s = (s1, Ok tt)).
    { unfold replay_event. unfold carried in Hc at 1. cbn [omap list_omap] in Hc.
      destruct (event_type e); try (by exists tl, s).
      destruct (dict_get (payload e) "state_event") as [[| | | | | |raw]|]; try (by exists tl, s).
      destruct tl as [|t tl]; [discriminate Hc|]. apply cons_eq_inj in Hc as [Ht Hc]. exists tl. rewrite Ht.
      unfold bind, lift, get. rewrite filter_cons in Hr. case_decide as Hn.
      - cbn [for_each] in Hr. apply bind_Ok in Hr as (s1 & [] & H1 & Hr). exists s1.
        rewrite bool_decide_eq_false_2 by exact Hn. split_and!; [done| |done].
        replace (filter (new_to s1) tl) with (filter (new_to s) tl); [done|].
        apply apply_ids in H1 as [_ E]. pose proof (run_fresh _ _ _ _ Hr) as Hf. clear -Hf E.
        induction tl as [|x tl IHt]; [done|]. rewrite !filter_cons in *.
        destruct (decide (new_to s x)) as [Hx|Hx].
        + apply Forall_cons in Hf as [Hx1 Hf]. rewrite decide_True by done. f_equal. by apply IHt.
        + rewrite decide_False; [by apply IHt|]. unfold new_to in *. rewrite E. set_solver.
      - exists s. rewrite bool_decide_eq_true_2 by (unfold new_to in Hn; by apply dec_stable). done. }
    destruct Hstep as (tl' & s1 & Hc' & Hr' & ->). by rewrite (IH _ _ _ _ Hc' Hr').
Qed.

(** *** What recovery adds *)

Definition harness_event (t : StateEvent) : Prop :=
  t.(ev_source) = HARNESS ∧ t.(ev_event_type) ∈ [TASK_RESUMED; ACTION_CANCELLED].

Lemma create_and_apply_Ok draw type data s s' u :
  create_and_apply draw type data s = (s', Ok u) →
  ∃ t, t.(ev_source) = HARNESS ∧ t.(ev_event_type) = type ∧ apply t s = (s', Ok tt).
Proof.
  unfold create_and_apply. intros (s0 & a & Hg & H)%bind_Ok. unfold get in Hg. injection Hg as <- <-.
  apply bind_Ok in H as (s1 & ev & [-> Hev]%lift_Ok & Ha). unfold StateEvent_create, StateEvent_new in Hev.
  destruct (rguard _ _) as [[]|]; [|discriminate Hev]. cbn [rbind] in Hev.
  destruct (rguard _ _) as [[]|]; [|discriminate Hev]. cbn [rbind] in Hev. injection Hev as <-.
  destruct u. eexists. split_and!; [| |exact Ha]; done.
Qed.

(** A run of at most one event of the harness. *)
Definition adds (type : StateEventType) s s' (extra : list StateEvent) : Prop :=
  for_each extra apply s = (s', Ok tt) ∧ Forall (λ t, t.(ev_source) = HARNESS ∧ t.(ev_event_type) = type) extra.

Lemma adds_none type s : adds type s s [].
Proof. by split. Qed.

Lemma adds_created draw type data s s' u :
  create_and_apply draw type data s = (s', Ok u) → ∃ extra, adds type s s' extra.
Proof.
  intros (t & Hs & Ht & Ha)%create_and_apply_Ok. exists [t]. split; [|by repeat constructor].
  cbn. unfold bind. by rewrite Ha.
Qed.

Lemma resume_interrupted_Ok draw s s' u :
  resume_interrupted draw s = (s', Ok u) →
  ∃ extra, adds TASK_RESUMED s s' extra ∧ (s.(ws_terminal_status) ≠ INTERRUPTED → extra = []).
Proof.
  unfold resume_interrupted, bind, get. case_bool_decide.
  - intros (extra & ?)%adds_created. by exists extra.
  - unfold ret. intros [= <- _]. exists []. split; [apply adds_none|done].
Qed.

Lemma cancel_in_flight_Ok draw op s s' u :
  cancel_in_flight draw op s = (s', Ok u) → ∃ extra, adds ACTION_CANCELLED s s' extra.
Proof.
  unfold cancel_in_flight, bind, get. destruct (existsb _ _).
  - unfold ret. intros [= <- _]. exists []. apply adds_none.
  - apply adds_created.
Qed.

Definition tool_in_flight (f : option InFlightOperation) : Prop := ∃ op, f = Some op ∧ is_tool op = true.

Lemma recover_task_Ok resumed cancelled c f s s' c' f' :
  recover_task resumed cancelled c f s = (s', Ok (c', f')) →
  (∃ extra, for_each extra apply s = (s', Ok tt) ∧ Forall harness_event extra ∧
            (s.(ws_terminal_status) ≠ INTERRUPTED → ¬ tool_in_flight f → extra = [])) ∧
  (∃ added, c' = c ++ added ∧ Forall error_results added) ∧ all_answered c' ∧
  ¬ tool_in_flight f' ∧ (∀ op, f = Some op → is_tool op = true → op.(if_operation_id) ∈ omap answered (blocks c')).
Proof.
  unfold recover_task. intros (s1 & a & (e1 & [Hr1 Hf1] & Hn1)%resume_interrupted_Ok & H)%bind_Ok.
  assert (Hh1 : Forall harness_event e1).
  { eapply Forall_impl; [exact Hf1|]. intros t [? Ht]. split; [done|]. rewrite Ht. apply list_elem_of_here. }
  destruct f as [op|].
  - destruct (is_tool op) eqn:Htool.
    + apply bind_Ok in H as (s2 & b & (e2 & [Hr2 Hf2])%cancel_in_flight_Ok & H). unfold ret in H. injection H as <- <- <-.
      destruct (answer_missing_spec (c ++ [user_message [ToolResultBlock op.(if_operation_id) interrupted_result true]]))
        as (added & Heq & Hadd & Hans).
      split_and!.
      * exists (e1 ++ e2). split_and!; [by rewrite for_each_app; unfold bind; rewrite Hr1| |].
        -- apply Forall_app. split; [done|]. eapply Forall_impl; [exact Hf2|]. intros t [? Ht]. split; [done|].
           rewrite Ht. apply list_elem_of_further, list_elem_of_here.
        -- intros _ Hnot. destruct Hnot. by exists op.
      * eexists. rewrite Heq, <- app_assoc. split; [done|]. constructor; [|done].
        split; [done|]. cbn. constructor; [by eexists _, _|constructor].
      * done.
      * by intros (? & ? & _).
      * intros ? [= <-] _. rewrite Heq, <- app_assoc, !blocks_app, !omap_app. apply elem_of_app. right.
        apply elem_of_app. left. apply list_elem_of_here.
    + unfold ret in H. injection H as <- <- <-. destruct (answer_missing_spec c) as (added & -> & Hadd & Hans).
      assert (Hno : ¬ tool_in_flight (Some op)) by (intros (? & [= <-] & ?); congruence).
      split_and!; [by exists e1; eauto|by eauto|done|done|]. intros ? [= <-] ?. congruence.
  - unfold ret in H. injection H as <- <- <-. destruct (answer_missing_spec c) as (added & -> & Hadd & Hans).
    split_and!; [by exists e1; eauto|by eauto|done|by intros (? & ? & _)|done].
Qed.

(** ** The whole resumption *)

Context `{!JsonCodec dumps loads}.
Context (session : string).

#[local] Abbreviation reachable := (reachable finite float_eq dumps loads session).
#[local] Abbreviation events := (events finite loads float_eq session).
#[local] Abbreviation restore_session := (restore_session float_eq repr finite dumps loads).

(** Whether a draw can be written. *)
Definition writable (d : json * json) : Prop := all_finite finite (JList [d.1; d.2]) = true.

Lemma record_run st es n draw type task data :
  id_pattern session = true → reachable (st, es) → (last_of 0 es ≤ n)%Z → (0 ≤ n)%Z → id_pattern task = true →
  writable draw → all_finite finite (JObj data) = true →
  ∃ st' e, record float_eq finite dumps loads draw type task data (mk_handle session n, st) =
             ((mk_handle session (n + 1), st'), Ok tt) ∧
           reachable (st', es ++ [e]) ∧ e.(event_type) = type ∧ e.(sequence) = (n + 1)%Z.
Proof using JsonCodec0.
  intros Hid Hr Hn H0 Ht Hw Hf. unfold record.
  destruct (handle_append_run finite float_eq dumps loads session st es n type task data draw.1 draw.2) as (st' & -> & Hr' & _);
    [done..| |by exists st'; eexists].
  unfold writable in Hw. rewrite all_finite_list in *. cbn [forallb] in *. by rewrite Hf.
Qed.

(** The events a resumption appends. *)
Definition resumption_event (e : SessionEvent) : Prop :=
  e.(event_type) ∈ [STANDARD_RETRIEVAL_CHANGED; STANDARD_INDEX_CHANGED; SESSION_RESUMED].

Lemma record_change_run st es n draws task old found :
  id_pattern session = true → reachable (st, es) → (last_of 0 es ≤ n)%Z → (0 ≤ n)%Z → id_pattern task = true →
  (∀ i, writable (draws i)) →
  ∃ st1 es1 n1,
    record_change float_eq finite dumps loads draws task old found (mk_handle session n, st) =
      ((mk_handle session n1, st1), Ok tt) ∧
    reachable (st1, es ++ es1) ∧ (last_of 0 (es ++ es1) ≤ n1)%Z ∧ (0 ≤ n1)%Z ∧ Forall resumption_event es1.
Proof using JsonCodec0.
  intros Hid Hr Hn H0 Ht Hw. unfold record_change.
  destruct old as [old|], found as [found|]; try (exists st, [], n; rewrite app_nil_r; by auto).
  destruct (record_run st es n (draws 0) STANDARD_RETRIEVAL_CHANGED task (retrieval_changed old found))
    as (st1 & e1 & H1 & Hr1 & Ht1 & Hn1); [done..|by unfold retrieval_changed; destruct found as [? ? ? ? ? ? ? ? ? [] [] ?]|].
  unfold bind. rewrite H1.
  assert (Hl1 : last_of 0 (es ++ [e1]) = (n + 1)%Z) by by rewrite last_of_snoc.
  assert (He1 : resumption_event e1) by (unfold resumption_event; rewrite Ht1; apply list_elem_of_here).
  destruct (String.eqb _ _).
  - exists st1, [e1], (n + 1)%Z. rewrite Hl1. split_and!; [done|done|lia|lia|by apply Forall_singleton].
  - destruct (record_run st1 (es ++ [e1]) (n + 1) (draws 1) STANDARD_INDEX_CHANGED task (index_changed old found))
      as (st2 & e2 & -> & Hr2 & Ht2 & Hn2); [done..|lia|lia|done|done|done|].
    exists st2, [e1; e2], (n + 1 + 1)%Z. rewrite <- app_assoc in Hr2. split_and!; [done|done| |lia|].
    + change [e1; e2] with ([e1] ++ [e2]). rewrite app_assoc, last_of_snoc. lia.
    + apply Forall_cons. split; [done|]. apply Forall_singleton. unfold resumption_event.
      rewrite Ht2. apply list_elem_of_further, list_elem_of_here.
Qed.

Lemma record_resumption_run st es n draws task from old found :
  id_pattern session = true → reachable (st, es) → (last_of 0 es ≤ n)%Z → (0 ≤ n)%Z → id_pattern task = true →
  (∀ i, writable (draws i)) →
  ∃ st' es' e, record_resumption float_eq finite dumps loads draws task from old found (mk_handle session n, st) =
               ((mk_handle session e.(sequence), st'), Ok tt) ∧
             reachable (st', es ++ es' ++ [e]) ∧ e.(event_type) = SESSION_RESUMED ∧ Forall resumption_event es'.
Proof using JsonCodec0.
  intros Hid Hr Hn H0 Ht Hw. unfold record_resumption, bind.
  destruct (record_change_run st es n draws task old found) as (st1 & es1 & n1 & -> & Hr1 & Hl1 & H01 & Hes1); [done..|].
  destruct (record_run st1 (es ++ es1) n1 (draws 2) SESSION_RESUMED task [("from_sequence", JInt from)])
    as (st2 & e2 & -> & Hr2 & Ht2 & Hn2); [done..|]. exists st2, es1, e2. rewrite Hn2, app_assoc. done.
Qed.

(** *** What a resumption that succeeds went through *)

Lemma replay_sequence es f n s s' f' n' :
  replay es f n s = (s', Ok (f', n')) → f' = flight_of es f ∧ n' = last_of n es.
Proof.
  revert f n s. induction es as [|e es IH]; intros f n s; cbn [SessionResume.replay].
  - unfold ret. by intros [= <- <- <-].
  - intros (s1 & [] & _ & H)%bind_Ok. rewrite last_of_cons. by apply IH in H.
Qed.

#[local] Abbreviation prepare := (prepare float_eq repr finite loads).

Record prepared_by resumed cancelled (stored : SessionSnapshot) (current : SessionConfiguration) available st
    (p : prepared) (es : list SessionEvent) s0 s1 : Prop := {
  pb_compatible : compatible_with stored.(sn_configuration) current = true;
  pb_binding : check_binding stored.(sn_standard_binding) available = Ok (p.(pr_binding), p.(pr_old_binding));
  pb_stored : WorkingState_from_dict (WorkingState_to_dict stored.(sn_working_state)) = Ok s0;
  pb_events : events stored.(sn_sequence) st = Ok es;
  pb_replay : replay es stored.(sn_in_flight) stored.(sn_sequence) s0 =
                (s1, Ok (flight_of es stored.(sn_in_flight), p.(pr_sequence)));
  pb_recover : recover_task resumed cancelled stored.(sn_conversation) (flight_of es stored.(sn_in_flight)) s1 =
                 (p.(pr_state), Ok (p.(pr_conversation), p.(pr_in_flight)));
  pb_sequence : p.(pr_sequence) = last_of stored.(sn_sequence) es;
  pb_session : id_pattern session = true;
  pb_task : id_pattern p.(pr_state).(ws_task_id) = true;
}.

Lemma prepare_Ok resumed cancelled stored current available st p :
  prepare resumed cancelled session stored current available st = Ok p →
  ∃ es s0 s1, prepared_by resumed cancelled stored current available st p es s0 s1.
Proof.
  unfold SessionResume.prepare.
  intros ([] & Hc%rmap_err_Ok & (binding & Hb%rmap_err_Ok & (s0 & Hs%rmap_err_Ok & (es & He%rmap_err_Ok & H)%rbind_Ok)%rbind_Ok)%rbind_Ok)%rbind_Ok.
  destruct (SessionResume.replay _ _ _ _ _ _) as [s1 r] eqn:Hr.
  apply rbind_Ok in H as ([f n] & Hrr%rmap_err_Ok & H). subst r.
  destruct (recover_task _ _ _ _ _) as [s2 q] eqn:Hq.
  apply rbind_Ok in H as ([c f'] & Hqq%rmap_err_Ok & H). subst q.
  apply rbind_Ok in H as (sn & Hn%rmap_err_Ok & H). injection H as <-.
  destruct (replay_sequence _ _ _ _ _ _ _ Hr) as [-> ->].
  unfold SessionSnapshot_new, validate_id, snapshot_of in Hn. cbn in Hn.
  destruct (id_pattern session) eqn:Hid; [|discriminate Hn]. destruct (id_pattern (sn_task_id stored)) eqn:Ht; [|discriminate Hn].
  destruct (String.eqb_spec (ws_task_id s2) (sn_task_id stored)) as [Heq|]; [|discriminate Hn].
  exists es, s0, s1. split; try done; cbn.
  - unfold rguard in Hc. by destruct (compatible_with _ _).
  - by destruct binding.
  - by rewrite Heq.
Qed.

(** The last event that is read is no older than any of the log. *)
Lemma shown_last after es :
  (after ≤ last_of after (shown after es))%Z ∧ (∀ e, last es = Some e → e.(sequence) ≤ last_of after (shown after es))%Z.
Proof.
  induction es as [|e es [IH1 IH2]] using rev_ind; [split; [done|by intros ? ?]|].
  unfold shown. rewrite filter_app, fmap_app, last_snoc, filter_cons. case_decide as Hd.
  - change (filter _ (@nil SessionEvent)) with (@nil SessionEvent). cbn [fmap list_fmap]. rewrite last_of_snoc.
    change (sequence (readback e)) with e.(sequence). split; [lia|]. by intros ? [= ->].
  - change (filter _ (@nil SessionEvent)) with (@nil SessionEvent). cbn [fmap list_fmap]. rewrite app_nil_r.
    split; [exact IH1|]. intros ? [= ->]. fold (shown after es). lia.
Qed.

Lemma read_not_behind st es after read :
  id_pattern session = true → reachable (st, es) → (0 ≤ after)%Z → events after st = Ok read →
  (last_of 0 es ≤ last_of after read)%Z ∧ (0 ≤ last_of after read)%Z.
Proof using JsonCodec0.
  intros Hid Hr H0 He. destruct (reachable_follows _ _ _ _ _ _ _ Hid Hr) as [tail Hf].
  destruct (follows_read finite float_eq dumps loads session _ _ _ Hid Hf) as (cut & Hc & Hread). rewrite Hread in He. injection He as <-.
  pose proof (shown_last after (es ++ cut)) as [H1 H2]. split; [|lia].
  destruct Hc as [->|(e & -> & _ & (_ & _ & _ & Hlt)%in_order_snoc)].
  - rewrite app_nil_r in *. unfold last_of at 1. destruct (last es) as [e|]; cbn; [by apply H2|lia].
  - specialize (H2 e). rewrite last_snoc in H2. specialize (H2 eq_refl). lia.
Qed.

(** What restoring gives, from what was prepared, over a log. *)
Lemma restore_session_run draws resumed cancelled stored current available st es st' r :
  id_pattern session = true → reachable (st, es) → (0 ≤ stored.(sn_sequence))%Z → (∀ i, writable (draws i)) →
  restore_session draws resumed cancelled session stored current available st = (st', r) →
  (st' = st ∧ ∃ x, r = Raise x ∧ prepare resumed cancelled session stored current available st = Raise x) ∨
  ∃ p es' e, prepare resumed cancelled session stored current available st = Ok p ∧
    r = Ok (mk_handle session e.(sequence), snapshot_of session stored current p e.(sequence)) ∧
    reachable (st', es ++ es' ++ [e]) ∧ e.(event_type) = SESSION_RESUMED ∧ Forall resumption_event es'.
Proof using JsonCodec0.
  intros Hid Hr Hs Hw. unfold SessionResume.restore_session.
  destruct (SessionResume.prepare _ _ _ _ _ _ _ _ _ _ _) as [p|x] eqn:Hp; [|intros [= <- <-]; left; eauto].
  destruct (prepare_Ok _ _ _ _ _ _ _ Hp) as (read & s0 & s1 & [_ _ _ He _ _ Hn _ Ht]).
  destruct (read_not_behind _ _ _ _ Hid Hr Hs He) as [Hl H0]. rewrite <- Hn in Hl, H0.
  destruct (record_resumption_run st es p.(pr_sequence) draws p.(pr_state).(ws_task_id) stored.(sn_sequence)
              p.(pr_old_binding) p.(pr_binding)) as (st1 & es' & e & -> & Hr' & Ht' & Hes'); [done..|].
  unfold handle_save. cbn. rewrite String.eqb_refl, Z.eqb_refl. cbn. intros [= <- <-]. right. by exists p, es', e.
Qed.

(** A resumption never loses the log: one that is refused leaves it as it
    was, one that succeeds appends whole lines after all that was there,
    [SESSION_RESUMED] last, and hands out the number of that event both in the
    handle and in the snapshot it saves. *)
Theorem resume_extends_the_log draws resumed cancelled stored current available st es st' r :
  id_pattern session = true → reachable (st, es) → (0 ≤ stored.(sn_sequence))%Z → (∀ i, writable (draws i)) →
  restore_session draws resumed cancelled session stored current available st = (st', r) →
  match r with
  | Raise _ => st' = st
  | Ok (handle, snapshot) =>
      ∃ es' e, reachable (st', es ++ es' ++ [e]) ∧ e.(event_type) = SESSION_RESUMED ∧ Forall resumption_event es' ∧
               handle = mk_handle session e.(sequence) ∧ snapshot.(sn_sequence) = e.(sequence)
  end.
Proof using JsonCodec0.
  intros Hid Hr Hs Hw H.
  destruct (restore_session_run _ _ _ _ _ _ _ _ _ _ Hid Hr Hs Hw H) as [(-> & x & -> & _)|(p & es' & e & _ & -> & Hr' & Ht & Hf)];
    [done|]. by exists es', e.
Qed.

(** After a resumption every call of the conversation has a result, in
    particular the one that was in flight; what was said is kept, the added
    messages are results that report an error, and no tool is left in
    flight. *)
Theorem resume_answers_every_call draws resumed cancelled stored current available st st' handle snapshot :
  restore_session draws resumed cancelled session stored current available st = (st', Ok (handle, snapshot)) →
  (∃ added, snapshot.(sn_conversation) = stored.(sn_conversation) ++ added ∧ Forall error_results added) ∧
  all_answered snapshot.(sn_conversation) ∧ ¬ tool_in_flight snapshot.(sn_in_flight) ∧
  ∃ read, events stored.(sn_sequence) st = Ok read ∧
    ∀ op, flight_of read stored.(sn_in_flight) = Some op → is_tool op = true →
      op.(if_operation_id) ∈ omap answered (blocks snapshot.(sn_conversation)).
Proof.
  unfold SessionResume.restore_session.
  destruct (SessionResume.prepare _ _ _ _ _ _ _ _ _ _ _) as [p|x] eqn:Hp; [|done].
  destruct (prepare_Ok _ _ _ _ _ _ _ Hp) as (read & s0 & s1 & [_ _ _ He _ Hrec _ _ _]).
  destruct (record_resumption _ _ _ _ _ _ _ _ _ _) as [[h st1] [u|x]]; [|done].
  intros [= _ (sn & Hs & [= _ <-])%rbind_Ok]. cbn [snapshot_of sn_conversation sn_in_flight].
  apply recover_task_Ok in Hrec as (_ & Hadd & Hall & Hno & Hop). split_and!; [done..|]. by exists read.
Qed.

End resume.

(** ** Examples *)

Module ResumeExamples.
Import SessionLogProps.Examples.

Definition never_written (_ : json) : string := "?".
Definition state_event (type : StateEventType) (data : dict string json) (id : string) : StateEvent :=
  WorkingState.mk_event type "task_0001" HARNESS data id "now" 1.
Definition task : WorkingState :=
  (apply (WorkingState.mk_event WorkingState.TASK_STARTED "task_0001" USER [("objective", JStr "repair")] "event-1" "now" 1)
     (WorkingState_new "task_0001")).1.
Definition round : StateEvent := state_event ROUND_STARTED [("round_number", JInt 1)] "event-2".

Definition logged (n : Z) (type : SessionEventType) (data : dict string json) : SessionEvent :=
  mk_event type "session_1" "task_0001" n data (JStr "sessionevt_x") (JStr "now").
Definition transition : SessionEvent :=
  logged 2 SessionStore.WORKING_STATE_TRANSITION [("state_event", StateEvent_to_dict round)].
Definition tool_started : SessionEvent :=
  logged 3 TOOL_ACTION_STARTED [("tool_call_id", JStr "call-1"); ("tool_name", JStr "write_file"); ("mutating", JBool true)].

Definition stored2 : store := (append1 transition first_stored).1.
Definition stored3 : store := (append1 tool_started stored2).1.

Lemma stored3_reachable :
  reachable all_finite_literals no_float bits_dumps bits_loads "session_1" (stored3, [event 1; transition; tool_started]).
Proof.
  eapply rtc_r; [eapply rtc_r; [exact first_reachable|]|].
  - refine (step_append _ _ _ _ _ first_stored [event 1] transition _ (Ok tt) _ _ _); [by split|done|].
    vm_compute. reflexivity.
  - refine (step_append _ _ _ _ _ stored2 [event 1; transition] tool_started _ (Ok tt) _ _ _); [by split|done|].
    vm_compute. reflexivity.
Qed.

Definition configuration (provider : string) : SessionConfiguration :=
  mk_configuration "/work" "project" "local" "context-v1" "tools-v1" (Some provider) None.
Definition snapshot1 : SessionSnapshot :=
  mk_snapshot "session_1" "task_0001" 1 (configuration "old") task
    [mk_message "assistant" [TextBlock "editing"; ToolUseBlock "call-1" "write_file" []; ToolUseBlock "call-2" "run" []] "operator"]
    (JList []) JNull (JList []) None (JList []) (JList []) (JObj []) JNull JNull (JList []) (JList []) (JList [])
    (JObj []) (JList []) (JObj []) None (JList []) None.

Definition draws (_ : nat) : json * json := (JStr "sessionevt_y", JStr "later").
Definition resume1 :=
  restore_session no_float never_written all_finite_literals bits_dumps bits_loads draws ("id-1", "later", 2%Z)
    ("id-2", "later", 3%Z) "session_1" snapshot1 (configuration "new") None stored3.
Definition resumed1 : SessionHandle * SessionSnapshot :=
  match resume1.2 with Ok r => r | Raise _ => (mk_handle "" 0, snapshot1) end.

Lemma resume1_Ok : resume1 = (resume1.1, Ok (resumed1.1, resumed1.2)).
Proof. vm_compute. reflexivity. Qed.

Lemma resume_extends_the_log_witness :
  ∃ es' e, reachable all_finite_literals no_float bits_dumps bits_loads "session_1"
             (resume1.1, [event 1; transition; tool_started] ++ es' ++ [e]) ∧
           e.(event_type) = SESSION_RESUMED ∧ Forall resumption_event es' ∧
           resumed1.1 = mk_handle "session_1" e.(sequence) ∧ resumed1.2.(sn_sequence) = e.(sequence).
Proof.
  apply (resume_extends_the_log no_float never_written all_finite_literals bits_dumps bits_loads "session_1" draws
           ("id-1", "later", 2%Z) ("id-2", "later", 3%Z) snapshot1 (configuration "new") None stored3
           [event 1; transition; tool_started] resume1.1 (Ok (resumed1.1, resumed1.2))).
  - reflexivity.
  - exact stored3_reachable.
  - cbn. lia.
  - reflexivity.
  - exact resume1_Ok.
Defined.

Lemma resume_answers_every_call_witness :
  all_answered resumed1.2.(sn_conversation) ∧
  omap answered (blocks resumed1.2.(sn_conversation)) = ["call-1"; "call-2"].
Proof.
  split; [|vm_compute; reflexivity].
  destruct (resume_answers_every_call no_float never_written all_finite_literals bits_dumps bits_loads "session_1" draws
           ("id-1", "later", 2%Z) ("id-2", "later", 3%Z) snapshot1 (configuration "new") None stored3 resume1.1
           resumed1.1 resumed1.2 resume1_Ok) as (_ & H & _). exact H.
Defined.

Definition read1 : list SessionEvent :=
  match events all_finite_literals bits_loads no_float "session_1" 1 stored3 with Ok l => l | Raise _ => [] end.

End ResumeExamples.
