(* ===== verification/ToolRegistry.v ===== *)
(** * Declarations of tools: [client/harness/tool_registry.py]

    What the construction of a specification enforces, the registry, and the
    native tools.  Handlers are opaque, and so is the text that describes a
    tool to the model. *)

From Stdlib Require Import Ascii.
From S2P Require Import Prelude Texts Values.

Open Scope py_scope.

(** ** Data *)

Inductive ToolCategory := CAT_COMMAND | FILE_READ | FILE_WRITE | RETRIEVAL | MEMORY | WEB | OTHER.
Inductive ToolMutability := READ_ONLY | MUTATING | CONDITIONAL.

#[export] Instance ToolCategory_eq_dec : EqDecision ToolCategory.
Proof. solve_decision. Defined.
#[export] Instance ToolMutability_eq_dec : EqDecision ToolMutability.
Proof. solve_decision. Defined.

Inductive exn :=
  | ValueError (msg : string)
  | TypeError
  | KeyError (msg : string).

Record ToolResultPolicy := mk_policy { model_context_chars : Z; store_large_results : bool; preview_chars : Z }.

Definition ToolResultPolicy_new (p : ToolResultPolicy) : res exn ToolResultPolicy :=
  do? rguard ((1 <=? p.(model_context_chars)) && (1 <=? p.(preview_chars)))%Z
        (ValueError "tool result limits must be positive") in
  do? rguard (p.(preview_chars) <=? p.(model_context_chars))%Z
        (ValueError "preview_chars cannot exceed model_context_chars") in
  Ok p.

Definition default_result_policy : ToolResultPolicy := mk_policy 6000 true 2000.

Definition VALID_EXECUTION_MODES : list string := ["safe"; "ask"; "auto"].

Record ToolSpec := mk_tool {
  tl_name : string;
  tl_description : string;
  tl_input_schema : json;
  tl_category : ToolCategory;
  tl_mutability : ToolMutability;
  tl_required_capabilities : list string;
  tl_execution_modes : list string;
  tl_result_policy : ToolResultPolicy;
  tl_roles : gset string;
  tl_model_visible : bool;
  tl_handler_key : option string;
}.

(** ** What a specification must be *)

Definition name_char (c : ascii) : bool := is_alnum c || one_of "_" c.

(** The pattern of a tool's name, a dot in the middle at most. *)
Definition tool_name (s : string) : bool :=
  let '(first, rest) := span name_char s in
  str_true first &&
  match rest with
  | EmptyString => true
  | String "."%char second => str_true second && all_chars name_char second
  | _ => false
  end.

Definition schema_types : list string := ["string"; "integer"; "number"; "boolean"; "array"; "object"].

Definition as_texts (l : list json) : option (list string) :=
  mapM (λ j, match j with JStr s => Some s | _ => None end) l.

(** One entry of [properties]; a type that is a list or an object is not
    hashable. *)
Definition check_property (kv : string * json) : res exn unit :=
  match kv.2 with
  | JObj value =>
      match get_or_null value "type" with
      | JList _ | JObj _ => Raise TypeError
      | JStr t => rguard (bool_decide (t ∈ schema_types)) (ValueError ("unsupported schema type for " +:+ kv.1))
      | _ => Raise (ValueError ("unsupported schema type for " +:+ kv.1))
      end
  | _ => Raise (ValueError "tool properties must be named schemas")
  end.

(** [_validate_schema] *)
Definition validate_schema (schema : json) : res exn unit :=
  match schema with
  | JObj m =>
      do? rguard (equals_str "object" (get_or_null m "type")) (ValueError "tool input schema must be an object schema") in
      let? properties := match dict_get_default m "properties" (JObj []) with
                         | JObj p => Ok p
                         | _ => Raise (ValueError "tool schema properties must be a mapping")
                         end in
      let? required := match dict_get_default m "required" (JList []) with
                       | JList l => of_option (ValueError "tool schema required must be a string list") (as_texts l)
                       | _ => Raise (ValueError "tool schema required must be a string list")
                       end in
      do? rguard (forallb (λ name, dict_mem name properties) required)
            (ValueError "required tool arguments must exist in properties") in
      rfor properties check_property
  | _ => Raise (ValueError "tool input schema must be an object schema")
  end.

(** The constructor of a specification. *)
Definition ToolSpec_new (s : ToolSpec) : res exn ToolSpec :=
  do? rguard (tool_name s.(tl_name)) (ValueError "tool name must be a simple name or one-level dotted namespace") in
  do? rguard (str_true (py_strip s.(tl_description))) (ValueError "tool description cannot be empty") in
  do? validate_schema s.(tl_input_schema) in
  do? rguard (negb (bool_decide (s.(tl_roles) = ∅))) (ValueError "tool roles cannot be empty") in
  do? rguard (forallb (λ m, bool_decide (m ∈ VALID_EXECUTION_MODES)) s.(tl_execution_modes))
        (ValueError ("unknown execution mode(s) for tool " +:+ s.(tl_name))) in
  do? (if bool_decide (s.(tl_mutability) = MUTATING) then
         do? rguard (negb (bool_decide (s.(tl_execution_modes) = [])))
               (ValueError ("mutating tool must declare execution_modes: " +:+ s.(tl_name))) in
         rguard (negb (bool_decide ("safe" ∈ s.(tl_execution_modes))))
           (ValueError ("mutating tool cannot declare 'safe': " +:+ s.(tl_name)))
       else Ok tt) in
  Ok s.

(** ** The registry *)

Section registry.
  Context {Handler : Type}.

(** The entries in the order of registration. *)
Definition ToolRegistry : Type := dict string (ToolSpec * option Handler).

Definition register (spec : ToolSpec) (handler : option Handler) (r : ToolRegistry) : res exn ToolRegistry :=
  do? rguard (negb (dict_mem spec.(tl_name) r)) (ValueError ("duplicate tool: " +:+ spec.(tl_name))) in
  do? rguard (bool_decide (spec.(tl_category) = CAT_COMMAND) || bool_decide (is_Some handler))
        (ValueError ("tool requires a handler: " +:+ spec.(tl_name))) in
  Ok (dict_set spec.(tl_name) (spec, handler) r).

Definition get_spec (name : string) (r : ToolRegistry) : res exn ToolSpec :=
  let? entry := of_option (KeyError ("unknown tool: " +:+ name)) (dict_get r name) in Ok entry.1.

Definition get_handler (name : string) (r : ToolRegistry) : res exn (option Handler) :=
  let? entry := of_option (KeyError ("unknown tool: " +:+ name)) (dict_get r name) in Ok entry.2.

(** [list_specs]: an absent filter lets everything through. *)
Definition list_specs (role : option string) (model_visible : option bool) (names : option (gset string))
    (r : ToolRegistry) : list ToolSpec :=
  omap (λ entry : string * (ToolSpec * option Handler),
    let '(name, (spec, _)) := entry in
    if match role with Some role => bool_decide (role ∈ spec.(tl_roles)) | None => true end
       && match model_visible with Some v => Bool.eqb spec.(tl_model_visible) v | None => true end
       && match names with Some names => bool_decide (name ∈ names) | None => true end
    then Some spec else None) r.

Record ToolDefinition := mk_definition { td_name : string; td_description : string; td_input_schema : json }.

Definition definitions_for_model (role : string) (names : option (gset string)) (r : ToolRegistry) : list ToolDefinition :=
  (λ spec, mk_definition spec.(tl_name) spec.(tl_description) spec.(tl_input_schema)) <$> list_specs (Some role) (Some true) names r.

Definition openai_definitions_for_model (role : string) (names : option (gset string)) (r : ToolRegistry) : list json :=
  (λ d, JObj [("type", JStr "function");
              ("function", JObj [("name", JStr d.(td_name)); ("description", JStr d.(td_description));
                                 ("parameters", d.(td_input_schema))])]) <$> definitions_for_model role names r.
End registry.
Arguments ToolRegistry Handler : clear implicits.

(** ** The tools of the program *)

(** The texts shown to the model: what describes a tool or one of its
    arguments. *)
Section native.
  Context (describe : string → string) (explain : string → string → option string).

Definition text_schema (tool argument : string) : json :=
  JObj (("type", JStr "string") ::
        match explain tool argument with
        | Some text => if str_true text then [("description", JStr text)] else []
        | None => []
        end).

Definition object_schema (tool : string) (properties required : list string) : json :=
  JObj [("type", JStr "object"); ("properties", JObj ((λ p, (p, text_schema tool p)) <$> properties));
        ("required", JList (JStr <$> required))].

Definition everyone : gset string := list_to_set ["main"; "explorer"; "reviewer"; "planning"].
Definition only_main : gset string := {["main"]}.

Definition native (name : string) (properties required : list string) (category : ToolCategory)
    (mutability : ToolMutability) (capabilities modes : list string) (roles : gset string) (key : string) : ToolSpec :=
  mk_tool name (describe name) (object_schema name properties required) category mutability capabilities modes
    default_result_policy roles true (Some key).

Definition native_tool_specs : list ToolSpec :=
  [native "bash" ["command"] ["command"] CAT_COMMAND CONDITIONAL ["dynamic_command_policy"] ["safe"; "ask"; "auto"] everyone "bash";
   native "edit_file" ["path"; "old_text"; "new_text"; "scope_reason"] ["path"; "old_text"; "new_text"]
     FILE_WRITE MUTATING ["workspace_write"] ["ask"; "auto"] only_main "edit_file";
   native "write_file" ["path"; "content"; "scope_reason"] ["path"; "content"]
     FILE_WRITE MUTATING ["workspace_write"] ["ask"; "auto"] only_main "write_file";
   native "append_file" ["path"; "content"] ["path"; "content"]
     FILE_WRITE MUTATING ["workspace_write"] ["ask"; "auto"] only_main "append_file";
   native "delete_file" ["path"; "reason"] ["path"; "reason"]
     FILE_WRITE MUTATING ["workspace_write"] ["ask"; "auto"] only_main "delete_file";
   native "remember" ["note"] ["note"] MEMORY MUTATING ["persistent_memory_write"] ["ask"; "auto"] only_main "remember";
   native "plan_change"
     ["requirement"; "requirement_evidence"; "current_behaviour"; "implementation_evidence"; "gap"; "correction";
      "validation"; "disposition"; "supersedes"; "reason"; "new_evidence"]
     ["requirement"; "requirement_evidence"; "current_behaviour"; "implementation_evidence"; "gap"; "correction";
      "validation"]
     OTHER READ_ONLY [] [] only_main "plan_change";
   native "search_corpus" ["query"] ["query"] RETRIEVAL READ_ONLY [] [] everyone "search_corpus";
   native "search_internet" ["query"] ["query"] WEB READ_ONLY ["network"] [] only_main "search_internet";
   native "fetch_url" ["url"; "pages"; "save_as"] ["url"] WEB READ_ONLY ["network"] [] only_main "fetch_url"].

(** The coding tools; their schemas are read from a file. *)
Definition coding_tool_specs (schema_of : string → json) : list ToolSpec :=
  let coding name category mutability capabilities modes roles :=
    mk_tool name (describe name) (schema_of name) category mutability capabilities modes default_result_policy roles true (Some name) in
  [coding "read_file" FILE_READ READ_ONLY ["workspace_read"] ["safe"; "ask"; "auto"] everyone;
   coding "search_files" FILE_READ READ_ONLY ["workspace_read"] ["safe"; "ask"; "auto"] everyone;
   coding "patch" FILE_WRITE MUTATING ["workspace_write"] ["ask"; "auto"] only_main;
   coding "terminal" CAT_COMMAND CONDITIONAL ["dynamic_command_policy"] ["safe"; "ask"; "auto"] everyone].

Definition plain_schema (properties required : list string) : json :=
  JObj [("type", JStr "object"); ("properties", JObj ((λ p, (p, JObj [("type", JStr "string")])) <$> properties));
        ("required", JList (JStr <$> required))].

Definition hidden_tool_specs : list ToolSpec :=
  [mk_tool "save_skill" "Save a reusable skill." (plain_schema ["name"; "content"; "description"] ["name"; "content"])
     MEMORY MUTATING ["persistent_memory_write"] ["ask"; "auto"] default_result_policy only_main false (Some "save_skill");
   mk_tool "search_history" "Search conversation history." (plain_schema ["query"] ["query"])
     RETRIEVAL READ_ONLY [] [] default_result_policy only_main false (Some "search_history");
   mk_tool "web_search" "Compatibility alias for internet search." (plain_schema ["query"] ["query"])
     WEB READ_ONLY [] [] default_result_policy only_main false (Some "web_search")].

(** Every specification is constructed, then registered with its handler. *)
Fixpoint register_all {H} (handler : string → option H) (specs : list ToolSpec) (r : ToolRegistry H) : res exn (ToolRegistry H) :=
  match specs with
  | [] => Ok r
  | spec :: specs =>
      let? spec := ToolSpec_new spec in
      let? r := register spec (handler spec.(tl_name)) r in
      register_all handler specs r
  end.

(** [build_tool_registry] of [client/cli/tool_routing.py], before the tools of
    the standards: a command has no handler. *)
Definition build_tool_registry {H} (schema_of : string → json) (handler : string → H) : res exn (ToolRegistry H) :=
  register_all (λ name, if bool_decide (name ∈ ["bash"; "terminal"]) then None else Some (handler name))
    (native_tool_specs ++ coding_tool_specs schema_of ++ hidden_tool_specs) [].
End native.

(** ** Correctness of the tool registry

    What is registered is well formed and keeps its name, a tool that writes
    never runs in safe mode, and the program's own tools register. *)

(** ** What a constructed specification is *)

Definition known_modes (s : ToolSpec) : Prop := ∀ m, m ∈ s.(tl_execution_modes) → m ∈ VALID_EXECUTION_MODES.

(** A tool that writes says where it runs, and not in safe mode. *)
Definition guarded (s : ToolSpec) : Prop :=
  s.(tl_mutability) = MUTATING →
  s.(tl_execution_modes) ≠ [] ∧ ∀ m, m ∈ s.(tl_execution_modes) → m = "ask" ∨ m = "auto".

Record valid_spec (s : ToolSpec) : Prop := {
  vs_name : tool_name s.(tl_name) = true;
  vs_description : py_strip s.(tl_description) ≠ "";
  vs_schema : validate_schema s.(tl_input_schema) = Ok tt;
  vs_roles : s.(tl_roles) ≠ ∅;
  vs_modes : known_modes s;
  vs_guarded : guarded s;
}.

Lemma known_modes_spec s :
  forallb (λ m, bool_decide (m ∈ VALID_EXECUTION_MODES)) s.(tl_execution_modes) = true ↔ known_modes s.
Proof. rewrite forallb_elem_of. unfold known_modes. by setoid_rewrite bool_decide_eq_true. Qed.

Lemma guarded_spec s :
  known_modes s →
  (if bool_decide (s.(tl_mutability) = MUTATING) then
     do? rguard (negb (bool_decide (s.(tl_execution_modes) = [])))
           (ValueError ("mutating tool must declare execution_modes: " +:+ s.(tl_name))) in
     rguard (negb (bool_decide ("safe" ∈ s.(tl_execution_modes))))
       (ValueError ("mutating tool cannot declare 'safe': " +:+ s.(tl_name)))
   else Ok tt) = Ok tt ↔ guarded s.
Proof.
  intros Hk. unfold guarded. case_bool_decide as Hm; [|by split].
  split.
  - intros (? & Hne%rguard_Ok & Hs%rguard_Ok)%rbind_Ok _. apply negb_true_iff, bool_decide_eq_false in Hne, Hs.
    split; [done|]. intros m Hin. specialize (Hk m Hin). unfold VALID_EXECUTION_MODES in Hk.
    rewrite !elem_of_cons, elem_of_nil in Hk. naive_solver.
  - intros H. destruct (H Hm) as [Hne Hall]. rewrite bool_decide_eq_false_2 by done. cbn [negb rguard rbind].
    rewrite bool_decide_eq_false_2; [done|]. intros Hs. by destruct (Hall _ Hs).
Qed.

Lemma ToolSpec_new_Ok s s' : ToolSpec_new s = Ok s' ↔ s' = s ∧ valid_spec s.
Proof.
  unfold ToolSpec_new. split.
  - intros (? & Hn%rguard_Ok & (? & Hd%rguard_Ok & ([] & Hsch & (? & Hr%rguard_Ok & (? & Hk%rguard_Ok & ([] & Hg & H)%rbind_Ok)%rbind_Ok)%rbind_Ok)%rbind_Ok)%rbind_Ok)%rbind_Ok.
    injection H as <-. apply known_modes_spec in Hk. apply guarded_spec in Hg; [|done].
    apply negb_true_iff, bool_decide_eq_false in Hr. split; [done|]. split; try done. by apply str_true_spec.
  - intros [-> [Hn Hd Hs Hr Hk Hg]]. rewrite Hn, (proj2 (str_true_spec _) Hd), Hs. cbn [rguard rbind].
    rewrite bool_decide_eq_false_2 by done. rewrite (proj2 (known_modes_spec _) Hk). cbn [negb rguard rbind].
    by rewrite (proj2 (guarded_spec _ Hk) Hg).
Qed.

(** ** The registry *)

Section registry.
  Context {H : Type}.
  Implicit Types (r : ToolRegistry H).

(** Every entry is under the name of its specification, which is valid, and
    only a command is without a handler. *)
Record registry_wf r : Prop := {
  rw_names : NoDup (dict_keys r);
  rw_entries name spec handler : (name, (spec, handler)) ∈ r →
    name = spec.(tl_name) ∧ valid_spec spec ∧ (spec.(tl_category) = CAT_COMMAND ∨ is_Some handler);
}.

(** A registry built from nothing by registering constructed specifications. *)
Inductive registered : ToolRegistry H → Prop :=
  | registered_nil : registered []
  | registered_add r spec handler r' :
      registered r → ToolSpec_new spec = Ok spec → register spec handler r = Ok r' → registered r'.

Lemma register_Ok spec handler r r' :
  register spec handler r = Ok r' ↔
  spec.(tl_name) ∉ dict_keys r ∧ (spec.(tl_category) = CAT_COMMAND ∨ is_Some handler) ∧
  r' = r ++ [(spec.(tl_name), (spec, handler))].
Proof.
  unfold register. split.
  - intros (? & Hn%rguard_Ok & (? & Hc%rguard_Ok & Hr)%rbind_Ok)%rbind_Ok. injection Hr as <-.
    apply negb_true_iff, dict_mem_false in Hn. split; [done|]. split; [|by apply dict_set_new].
    apply orb_true_iff in Hc. by rewrite !bool_decide_eq_true in Hc.
  - intros (Hn & Hc & ->). rewrite (proj2 (dict_mem_false _ _) Hn). cbn [negb rguard rbind].
    assert (bool_decide (spec.(tl_category) = CAT_COMMAND) || bool_decide (is_Some handler) = true) as ->
      by by apply orb_true_iff; rewrite !bool_decide_eq_true.
    cbn [rguard rbind]. by rewrite dict_set_new.
Qed.

Lemma registered_wf r : registered r → registry_wf r.
Proof.
  induction 1 as [|r spec handler r' _ [Hn He] [_ Hv]%ToolSpec_new_Ok (Hnew & Hc & ->)%register_Ok].
  - split; [apply NoDup_nil_2|by intros ? ? ? ?%elem_of_nil].
  - split.
    + unfold dict_keys in *. rewrite map_app. apply NoDup_app. split_and!; [done| |apply NoDup_singleton].
      intros x Hx Hin%list_elem_of_singleton. by subst.
    + intros name s h [Hin|Hin%list_elem_of_singleton]%elem_of_app; [by eapply He|]. by injection Hin as -> -> ->.
Qed.

Lemma list_specs_elem role visible names r spec :
  spec ∈ list_specs role visible names r ↔
  ∃ name handler, (name, (spec, handler)) ∈ r ∧ (∀ x, role = Some x → x ∈ spec.(tl_roles)) ∧
    (∀ v, visible = Some v → spec.(tl_model_visible) = v) ∧ (∀ ns, names = Some ns → name ∈ ns).
Proof.
  unfold list_specs. rewrite list_elem_of_omap. split.
  - intros ([name [s h]] & Hin & Hf). destruct (_ && _) eqn:Hb in Hf; [|done]. injection Hf as ->. exists name, h.
    apply andb_true_iff in Hb as [[Hr Hv]%andb_true_iff Hn]. split; [done|]. split_and!.
    + intros x ->. by apply bool_decide_eq_true in Hr.
    + intros v ->. by apply eqb_prop in Hv.
    + intros ns ->. by apply bool_decide_eq_true in Hn.
  - intros (name & h & Hin & Hr & Hv & Hn). exists (name, (spec, h)). split; [done|].
    assert (Hb : match role with Some role => bool_decide (role ∈ spec.(tl_roles)) | None => true end
       && match visible with Some v => Bool.eqb spec.(tl_model_visible) v | None => true end
       && match names with Some names => bool_decide (name ∈ names) | None => true end = true); [|by rewrite Hb].
    apply andb_true_iff. split; [apply andb_true_iff; split|].
    + destruct role; [|done]. by apply bool_decide_eq_true, Hr.
    + destruct visible; [|done]. rewrite (Hv _ eq_refl). apply eqb_reflx.
    + destruct names; [|done]. by apply bool_decide_eq_true, Hn.
Qed.

(** Whatever is registered stays under its own name, once, is found by
    that name, and no specification that writes is without execution modes or
    runs in safe mode; a duplicate, and a tool without a handler that is not
    a command, are refused. *)
Theorem registered_tools_are_guarded r spec handler :
  registered r →
  (∀ name s h, (name, (s, h)) ∈ r →
     get_spec name r = Ok s ∧ get_handler name r = Ok h ∧ s.(tl_name) = name ∧ guarded s ∧
     (s.(tl_category) = CAT_COMMAND ∨ is_Some h)) ∧
  (valid_spec spec →
   ((∃ r', register spec handler r = Ok r' ∧ registered r') ↔
    (∀ s, get_spec spec.(tl_name) r ≠ Ok s) ∧ (spec.(tl_category) = CAT_COMMAND ∨ is_Some handler))).
Proof.
  intros Hreg. pose proof (registered_wf _ Hreg) as [Hnd He]. split.
  - intros name s h Hin. destruct (He _ _ _ Hin) as (-> & Hv & Hc). unfold get_spec, get_handler.
    rewrite (dict_elem_get _ _ _ Hnd Hin). by destruct Hv.
  - intros Hv. unfold get_spec. split.
    + intros (r' & (Hnew & Hc & ->)%register_Ok & _). split; [|done]. intros s.
      by rewrite (proj2 (dict_get_None _ _) Hnew).
    + intros [Hn Hc]. eexists. rewrite register_Ok. split.
      * split; [|by split]. apply dict_get_None. destruct (dict_get r _) as [[s h]|]; [|done]. by destruct (Hn s).
      * eapply registered_add; [exact Hreg|by apply ToolSpec_new_Ok|]. apply register_Ok. split; [|by split].
        apply dict_get_None. destruct (dict_get r _) as [[s h]|]; [|done]. by destruct (Hn s).
Qed.
End registry.

Section native.
  Context (describe : string → string) (explain : string → string → option string) (schema_of : string → json).
  Hypothesis described : ∀ name, str_true (py_strip (describe name)) = true.
  Hypothesis coding_schemas : ∀ name, name ∈ ["read_file"; "search_files"; "patch"; "terminal"] → validate_schema (schema_of name) = Ok tt.

Lemma all_constructed :
  Forall (λ s, ToolSpec_new s = Ok s) (native_tool_specs describe explain ++ coding_tool_specs describe schema_of ++ hidden_tool_specs).
Proof using All.
  repeat apply Forall_cons_2; try apply Forall_nil_2; unfold ToolSpec_new; cbn [native tl_name tl_description tl_input_schema];
    rewrite ?described, ?coding_schemas by (apply (bool_decide_unpack _); vm_compute; exact I);
    vm_compute; reflexivity.
Qed.

Definition entry {H} (handler : string → option H) (s : ToolSpec) : string * (ToolSpec * option H) :=
  (s.(tl_name), (s, handler s.(tl_name))).

Lemma register_all_run {H} (handler : string → option H) specs r :
  Forall (λ s, ToolSpec_new s = Ok s) specs → NoDup (dict_keys r ++ (tl_name <$> specs)) →
  Forall (λ s, s.(tl_category) = CAT_COMMAND ∨ is_Some (handler s.(tl_name))) specs →
  register_all handler specs r = Ok (r ++ (entry handler <$> specs)) ∧
  (registered r → registered (r ++ (entry handler <$> specs))).
Proof.
  revert r. induction specs as [|s specs IH]; intros r Hnew Hnd Hh; [by rewrite app_nil_r|].
  apply Forall_cons in Hnew as [Hs Hnew]. apply Forall_cons in Hh as [Hc Hh].
  assert (Hreg : register s (handler s.(tl_name)) r = Ok (r ++ [entry handler s])).
  { apply register_Ok. split_and!; [|done|done]. apply NoDup_app in Hnd as (_ & Hd & _). intros Hin.
    apply (Hd _ Hin). apply list_elem_of_here. }
  cbn [register_all]. rewrite Hs. cbn [rbind]. rewrite Hreg. cbn [rbind fmap list_fmap].
  destruct (IH (r ++ [entry handler s])) as [-> Hr]; [done| |done|].
  { unfold dict_keys in *. rewrite map_app, <- app_assoc. exact Hnd. }
  rewrite <- app_assoc. split; [done|]. intros Hr0. rewrite <- app_assoc in Hr. apply Hr. by eapply registered_add.
Qed.

(** The program's own registry is built: each of its tools is constructed
    and registered, under its own name, and what the program can run in safe
    mode, or without a declared mode, never writes. *)
Theorem program_registry_is_built {H} (handler : string → H) :
  let specs := native_tool_specs describe explain ++ coding_tool_specs describe schema_of ++ hidden_tool_specs in
  let handlers name := if bool_decide (name ∈ ["bash"; "terminal"]) then None else Some (handler name) in
  build_tool_registry describe explain schema_of handler = Ok (entry handlers <$> specs) ∧
  registered (entry handlers <$> specs) ∧ Forall guarded specs ∧
  (λ s, s.(tl_name)) <$> filter (λ s, s.(tl_mutability) = MUTATING) specs =
    ["edit_file"; "write_file"; "append_file"; "delete_file"; "remember"; "patch"; "save_skill"].
Proof using All.
  intros specs handlers. pose proof all_constructed as Hall. fold specs in Hall.
  destruct (register_all_run handlers specs []) as [Hrun Hreg].
  - exact Hall.
  - apply (bool_decide_unpack _). vm_compute. exact I.
  - unfold specs. repeat apply Forall_cons_2; try apply Forall_nil_2;
      first [by left|right; unfold handlers; rewrite bool_decide_eq_false_2 by (apply (bool_decide_unpack _); vm_compute; exact I); done].
  - split_and!; [exact Hrun|exact (Hreg registered_nil)| |vm_compute; reflexivity].
    eapply Forall_impl; [exact Hall|]. intros s [_ Hv]%ToolSpec_new_Ok. by destruct Hv.
Qed.
End native.

(** ** An example *)

Lemma registered_tools_are_guarded_witness :
  let spec := mk_tool "read" "Read." (JObj [("type", JStr "object")]) FILE_READ READ_ONLY [] [] default_result_policy
                {["main"]} true None in
  ∃ r', register spec (Some tt) [] = Ok r' ∧ registered r'.
Proof.
  intros spec. apply (registered_tools_are_guarded (H := unit) [] spec (Some tt) registered_nil).
  - apply (ToolSpec_new_Ok spec spec). vm_compute. reflexivity.
  - split; [by vm_compute|right; by eexists].
Defined.

Lemma program_registry_is_built_witness :
  ∃ r, build_tool_registry (λ _, "A tool.") (λ _ _, None) (λ _, JObj [("type", JStr "object")]) (λ _, tt) = Ok r ∧ registered r.
Proof.
  destruct (program_registry_is_built (λ _, "A tool.") (λ _ _, None) (λ _, JObj [("type", JStr "object")])
              (λ _, eq_refl) (λ _ _, eq_refl) (λ _, tt)) as (H & Hr & _).
  by eexists.
Defined.
