(* ===== verification/Delegation.v ===== *)
(** * Delegation to trusted roles: [agent_roles.py] and [DelegationManager]

    The roles and what their construction enforces, requests and results
    ([client/runtime/agent_roles.py], [client/runtime/orchestration.py]), and
    [DelegationManager.delegate] over the budgets of [Budgets].  What a child
    does is its handler, an argument here as it is in the code; so is the
    recording of a session event, which may fail. *)

From S2P Require Import Prelude Texts Values ToolRegistry Budgets BudgetsFacts.

Open Scope py_scope.

(** ** Roles *)

Inductive AgentRole := MAIN | EXPLORER | REVIEWER | PLANNING.

#[export] Instance AgentRole_eq_dec : EqDecision AgentRole.
Proof. solve_decision. Defined.

Definition role_value (r : AgentRole) : string :=
  match r with MAIN => "main" | EXPLORER => "explorer" | REVIEWER => "reviewer" | PLANNING => "planning" end.

Record AgentRoleSpec := mk_spec {
  rl_role : AgentRole;
  rl_prompt_addition : string;
  rl_allowed_tool_names : gset string;
  rl_execution_mode : string;
  rl_max_model_turns : Z;
  rl_max_tool_calls : Z;
  rl_context_limit : Z;
  rl_can_write_memory : bool;
  rl_web_access : bool;
  rl_checkpoint_access : bool;
  rl_recursive_delegation : bool;
  rl_model_override : option string;
}.

(** What leaves an operation: a refusal, an error of the budgets, or an error
    of a part that is an argument, by its kind and message. *)
Inductive failure :=
  | Refused (msg : string)
  | BudgetFailure (x : Budgets.exn)
  | Escaped (kind msg : string).

Definition specialized (r : AgentRole) : bool := bool_decide (r ∈ [EXPLORER; REVIEWER; PLANNING]).

(** [AgentRoleSpec.__post_init__] *)
Definition AgentRoleSpec_new (s : AgentRoleSpec) : res failure AgentRoleSpec :=
  do? rguard (1 <=? Z.min (Z.min s.(rl_max_model_turns) s.(rl_max_tool_calls)) s.(rl_context_limit))%Z
        (Refused "role budgets must be positive") in
  do? (if specialized s.(rl_role) then
         do? rguard (String.eqb s.(rl_execution_mode) "safe")
               (Refused (role_value s.(rl_role) +:+ " must use safe execution mode")) in
         do? rguard (negb (s.(rl_can_write_memory) || s.(rl_web_access) || s.(rl_checkpoint_access)))
               (Refused (role_value s.(rl_role) +:+ " cannot receive write, web, or checkpoint access")) in
         rguard (negb s.(rl_recursive_delegation))
           (Refused (role_value s.(rl_role) +:+ " cannot recursively delegate"))
       else Ok tt) in
  Ok s.

(** [validate_registry] *)
Definition exposes (role : AgentRoleSpec) (spec : ToolSpec) : res failure unit :=
  do? rguard (negb (bool_decide (spec.(tl_mutability) = MUTATING)))
        (Refused ("role exposes mutating tool: " +:+ spec.(tl_name))) in
  do? rguard (negb (bool_decide (spec.(tl_category) = WEB) && negb role.(rl_web_access)))
        (Refused ("role exposes web tool: " +:+ spec.(tl_name))) in
  rguard (negb (bool_decide (spec.(tl_category) = MEMORY) && negb role.(rl_can_write_memory)))
    (Refused ("role exposes memory-write tool: " +:+ spec.(tl_name))).

Definition validate_registry {H} (role : AgentRoleSpec) (registry : ToolRegistry H) : res failure unit :=
  let specs := list_specs (Some (role_value role.(rl_role))) None (Some role.(rl_allowed_tool_names)) registry in
  do? rguard (bool_decide (list_to_set (tl_name <$> specs) = role.(rl_allowed_tool_names)))
        (Refused "role tools are not registered/visible") in
  rfor specs (exposes role).

(** The trusted roles, with their defaults; the instructions are texts. *)
Definition read_only_tools : gset string := {["bash"; "search_corpus"]}.

Definition trusted_role (role : AgentRole) (instructions : string) (turns calls context : Z) (model : option string)
    : res failure AgentRoleSpec :=
  AgentRoleSpec_new (mk_spec role instructions read_only_tools "safe" turns calls context false false false false model).

Definition explorer_role (instructions : string) := trusted_role EXPLORER instructions 8 16 32768 None.
Definition reviewer_role (instructions : string) := trusted_role REVIEWER instructions 8 16 32768 None.
Definition planning_role (instructions : string) := trusted_role PLANNING instructions 2 6 16384 None.

(** ** Requests and results *)

Inductive DelegationStatus := COMPLETED | PARTIAL | FAILED | CANCELLED | BLOCKED | EXHAUSTED.

#[export] Instance DelegationStatus_eq_dec : EqDecision DelegationStatus.
Proof. solve_decision. Defined.

Definition delegation_status_value (s : DelegationStatus) : string :=
  match s with
  | COMPLETED => "completed" | PARTIAL => "partial" | FAILED => "failed" | CANCELLED => "cancelled"
  | BLOCKED => "blocked" | EXHAUSTED => "budget_exhausted"
  end.

Record DelegationRequest := mk_request {
  dr_parent_task_id : string;
  dr_role : AgentRole;
  dr_objective : string;
  dr_scope : list string;
  dr_context_manifest : list string;
  dr_expected_deliverable_type : string;
  dr_tool_policy : string;
  dr_execution_mode : string;
  dr_model_override : option string;
  dr_context_budget : Z;
  dr_model_turn_budget : Z;
  dr_tool_call_budget : Z;
  dr_wall_time_ms : option Z;
  dr_cancellation_relationship : string;
  dr_recursion_allowed : bool;
  dr_delegation_id : string;
}.

Definition DelegationRequest_new (r : DelegationRequest) : res failure DelegationRequest :=
  do? rguard (bool_decide (r.(dr_role) ∈ [EXPLORER; REVIEWER])) (Refused "delegation role is not trusted/supported") in
  do? rguard (String.eqb r.(dr_execution_mode) "safe" && negb r.(dr_recursion_allowed))
        (Refused "delegated roles must be safe and non-recursive") in
  do? rguard (1 <=? Z.min (Z.min r.(dr_context_budget) r.(dr_model_turn_budget)) r.(dr_tool_call_budget))%Z
        (Refused "delegation budgets must be positive") in
  Ok r.

Record DelegationUsage := mk_usage { us_model_turns : Z; us_tool_calls : Z; us_input_tokens : Z; us_output_tokens : Z }.
Definition no_usage : DelegationUsage := mk_usage 0 0 0 0.

(** What is read of a deliverable: its identifiers, where it has them. *)
Record Deliverable := mk_deliverable { dl_exploration_id : option string; dl_review_id : option string }.

Record DelegationResult := mk_result {
  rs_delegation_id : string;
  rs_role : AgentRole;
  rs_status : DelegationStatus;
  rs_deliverable : option Deliverable;
  rs_evidence_references : list string;
  rs_usage : DelegationUsage;
  rs_terminal_reason : string;
  rs_uncertainties : list string;
  rs_errors : list string;
}.

Definition reference_of (d : Deliverable) : json :=
  match d.(dl_exploration_id) with
  | Some id => if str_true id then JStr id else match d.(dl_review_id) with Some r => JStr r | None => JNull end
  | None => match d.(dl_review_id) with Some r => JStr r | None => JNull end
  end.

Definition usage_json (u : DelegationUsage) : json :=
  JObj [("model_turns", JInt u.(us_model_turns)); ("tool_calls", JInt u.(us_tool_calls));
        ("input_tokens", JInt u.(us_input_tokens)); ("output_tokens", JInt u.(us_output_tokens))].

(** [persistence_record] *)
Definition persistence_record (r : DelegationResult) : dict string json :=
  [("delegation_id", JStr r.(rs_delegation_id)); ("role", JStr (role_value r.(rs_role)));
   ("status", JStr (delegation_status_value r.(rs_status)));
   ("deliverable_reference", match r.(rs_deliverable) with Some d => reference_of d | None => JNull end);
   ("evidence_references", JList (JStr <$> r.(rs_evidence_references)));
   ("usage", usage_json r.(rs_usage)); ("terminal_reason", JStr r.(rs_terminal_reason));
   ("uncertainty_count", JInt (Z.of_nat (length r.(rs_uncertainties))));
   ("error_count", JInt (Z.of_nat (length r.(rs_errors))))].

(** ** The runtime context of the parent, as delegation uses it *)

Inductive TraceEvent := BUDGET_ALLOCATED | BUDGET_EXHAUSTED | DELEGATION_STARTED | DELEGATION_FINISHED.

Record parent := mk_parent {
  pt_task_id : string;
  pt_max_model_rounds : Z;
  pt_max_tool_actions : Z;
  pt_budget : option addr;
  pt_budgets : Budgets.store;
  pt_delegation_results : list (dict string json);
  pt_trace : list (TraceEvent * dict string json);
}.

#[export] Instance eta_parent : Eta parent := λ r,
  mk_parent r.(pt_task_id) r.(pt_max_model_rounds) r.(pt_max_tool_actions) r.(pt_budget) r.(pt_budgets)
    r.(pt_delegation_results) r.(pt_trace).

(** How a handler ends when it does not return. *)
Inductive child_error :=
  | ChildExhausted (kind : BudgetKind) (component : string)
  | ChildError (kind msg : string).

Abbreviation op := (M parent failure).
Definition DelegationHandler : Type := DelegationRequest → addr → M parent child_error DelegationResult.

Section manager.
  Context (explorer_instructions reviewer_instructions : string).
  (** [persist_session_event(parent, DELEGATION_COMPLETED, record)] *)
  Context (persist : dict string json → op unit).

(** [TrustedRoleRegistry.resolve] *)
Definition resolve (role : AgentRole) : res failure AgentRoleSpec :=
  match role with
  | EXPLORER => explorer_role explorer_instructions
  | REVIEWER => reviewer_role reviewer_instructions
  | _ => Raise (Refused "untrusted delegation role")
  end.

(** [register], on the handlers of a manager. *)
Definition register_handler (role : AgentRole) (handler : DelegationHandler) (handlers : dict AgentRole DelegationHandler)
    : res failure (dict AgentRole DelegationHandler) :=
  do? resolve role in
  do? rguard (negb (dict_mem role handlers)) (Refused "delegation handler already registered") in
  Ok (dict_set role handler handlers).

Definition on_budgets {A} (m : M Budgets.store Budgets.exn A) : op A := λ p,
  let '(st, r) := m p.(pt_budgets) in (p <| pt_budgets := st |>, rmap_err BudgetFailure r).

Definition emit (event : TraceEvent) (metadata : dict string json) : op unit :=
  modify (λ p, p <| pt_trace ::= λ l, l ++ [(event, metadata)] |>).

(** The parent's manager, made from its limits when it has none. *)
Definition parent_budget (started : Z) : op addr :=
  let* p := get in
  match p.(pt_budget) with
  | Some a => ret a
  | None =>
      let* root := lift (rmap_err BudgetFailure
        (from_legacy "main" p.(pt_max_model_rounds) p.(pt_max_tool_actions) None started)) in
      do* modify (λ p, p <| pt_budget := Some (length p.(pt_budgets)) |> <| pt_budgets ::= λ st, st ++ [root] |>) in
      ret (length p.(pt_budgets))
  end.

Definition child_limits (request : DelegationRequest) : res failure (dict BudgetKind limit_request) :=
  rmap_err BudgetFailure
    (let? turns := BudgetLimit_new request.(dr_model_turn_budget) false in
     let? tools := BudgetLimit_new request.(dr_tool_call_budget) false in
     let? input := BudgetLimit_new request.(dr_context_budget) true in
     let limits := [(MODEL_TURNS, LimitValue turns); (PRIMARY_MODEL_CALLS, LimitValue turns);
                    (TOOL_CALLS, LimitValue tools); (INPUT_TOKENS, LimitValue input)] in
     match request.(dr_wall_time_ms) with
     | Some ms => let? wall := BudgetLimit_new ms false in Ok (dict_set WALL_TIME_MS (LimitValue wall) limits)
     | None => Ok limits
     end).

Definition exceeded_message (kind : BudgetKind) (component : string) : string :=
  component +:+ " " +:+ kind_value kind +:+ " budget exhausted".

Definition exhausted_result (request : DelegationRequest) (usage : DelegationUsage) (kind : BudgetKind) (component : string)
    : DelegationResult :=
  mk_result request.(dr_delegation_id) request.(dr_role) EXHAUSTED None [] usage (kind_value kind) []
    [exceeded_message kind component].

(** What may only narrow the role: the checks before anything is charged. *)
Definition admitted (request : DelegationRequest) (role : AgentRoleSpec) : res failure unit :=
  do? rguard (String.eqb role.(rl_execution_mode) request.(dr_execution_mode) && negb role.(rl_recursive_delegation))
        (Refused "delegation cannot override trusted role policy") in
  do? rguard (String.eqb request.(dr_tool_policy) "trusted_role_default")
        (Refused "delegation cannot override trusted tool policy") in
  do? rguard (String.eqb request.(dr_cancellation_relationship) "parent_to_child")
        (Refused "delegation cannot override cancellation relationship") in
  do? rguard ((request.(dr_model_turn_budget) <=? role.(rl_max_model_turns))
              && (request.(dr_tool_call_budget) <=? role.(rl_max_tool_calls))
              && (request.(dr_context_budget) <=? role.(rl_context_limit)))%Z
        (Refused "delegation allocation exceeds trusted role limits") in
  rguard (match request.(dr_model_override) with
          | Some m => negb (str_true m) || bool_decide (role.(rl_model_override) = Some m)
          | None => true
          end) (Refused "delegation cannot select an unconfigured model").

Definition record_result (result : DelegationResult) : op unit :=
  do* modify (λ p, p <| pt_delegation_results ::= λ l, l ++ [persistence_record result] |>) in
  persist (persistence_record result).

Definition identified (request : DelegationRequest) (more : dict string json) : dict string json :=
  ("delegation_id", JStr request.(dr_delegation_id)) :: ("role", JStr (role_value request.(dr_role))) :: more.

(** The handler, whose errors are results. *)
Definition run_handler (handler : DelegationHandler) (request : DelegationRequest) (child : addr) : op DelegationResult := λ p,
  match handler request child p with
  | (p, Ok result) => (p, Ok result)
  | (p, Raise (ChildExhausted kind component)) =>
      let m := Budgets.manager p.(pt_budgets) child in
      (p, Ok (exhausted_result request
                (mk_usage (used m MODEL_TURNS) (used m TOOL_CALLS) (used m INPUT_TOKENS) (used m OUTPUT_TOKENS))
                kind component))
  | (p, Raise (ChildError kind msg)) =>
      (p, Ok (mk_result request.(dr_delegation_id) request.(dr_role) FAILED None [] no_usage kind []
                [String.substring 0 240 msg]))
  end.

Definition finished (request : DelegationRequest) (result : DelegationResult) : dict string json :=
  identified request
    [("status", JStr (delegation_status_value result.(rs_status))); ("model_turns", JInt result.(rs_usage).(us_model_turns));
     ("tool_calls", JInt result.(rs_usage).(us_tool_calls)); ("raw_content_recorded", JBool false)].

(** The checks of [delegate], which change nothing: the request may only narrow
    what the trusted role allows. *)
Definition check_request (handlers : dict AgentRole DelegationHandler) (request : DelegationRequest) (p : parent)
    : res failure DelegationHandler :=
  do? rguard (String.eqb request.(dr_parent_task_id) p.(pt_task_id))
        (Refused "delegation parent task does not match runtime context") in
  let? role := resolve request.(dr_role) in
  do? admitted request role in
  of_option (Refused "no trusted handler for delegation role") (dict_get handlers request.(dr_role)).

Definition allocated (request : DelegationRequest) : dict string json :=
  [("delegation_id", JStr request.(dr_delegation_id)); ("component", JStr (role_value request.(dr_role)));
   ("model_turns", JInt request.(dr_model_turn_budget)); ("tool_calls", JInt request.(dr_tool_call_budget));
   ("context_tokens", JInt request.(dr_context_budget)); ("context_tokens_approximate", JBool true);
   ("raw_content_recorded", JBool false)].

(** A result when the parent has nothing left to allocate. *)
Definition report_exhausted (request : DelegationRequest) (kind : BudgetKind) (component : string) : op DelegationResult :=
  let result := exhausted_result request no_usage kind component in
  do* record_result result in
  do* emit BUDGET_EXHAUSTED
        (identified request [("reason", JStr (kind_value kind)); ("raw_content_recorded", JBool false)]) in
  do* emit DELEGATION_FINISHED
        (identified request [("status", JStr (delegation_status_value result.(rs_status)));
                             ("raw_content_recorded", JBool false)]) in
  ret result.

Definition run_child (handler : DelegationHandler) (request : DelegationRequest) (child : addr) : op DelegationResult :=
  do* emit DELEGATION_STARTED
        (identified request [("recursion", JBool false); ("raw_content_recorded", JBool false)]) in
  let* result := run_handler handler request child in
  do* record_result result in
  do* emit DELEGATION_FINISHED (finished request result) in
  ret result.

(** [delegate]; [clock] and the two times are read by the budgets. *)
Definition delegate (handlers : dict AgentRole DelegationHandler) (clock : addr → Z) (started started_child : Z)
    (request : DelegationRequest) : op DelegationResult :=
  let* p := get in
  let* handler := lift (check_request handlers request p) in
  let* budget := parent_budget started in
  let* limits := lift (child_limits request) in
  do* emit BUDGET_ALLOCATED (allocated request) in
  λ p, match on_budgets (allocate_child clock started_child budget request.(dr_delegation_id)
                           (role_value request.(dr_role)) limits) p with
       | (p, Raise (BudgetFailure (BudgetExceeded kind component))) => report_exhausted request kind component p
       | (p, Raise x) => (p, Raise x)
       | (p, Ok child) => run_child handler request child p
       end.
End manager.

(** ** Correctness of delegation

    A role sees no tool it must not have, a request only narrows its role,
    every admitted delegation is recorded once, and whatever a child does the
    budgets of the task stay within their limits. *)

(** ** Roles and their tools *)

(** A role is given exactly the tools it names, registered and visible to it,
    and none of them writes, reaches the web or the memory without the right. *)
Definition may_have (role : AgentRoleSpec) (spec : ToolSpec) : Prop :=
  spec.(tl_mutability) ≠ MUTATING ∧ (spec.(tl_category) = WEB → role.(rl_web_access) = true) ∧
  (spec.(tl_category) = MEMORY → role.(rl_can_write_memory) = true).

Lemma exposes_Ok role spec : exposes role spec = Ok tt ↔ may_have role spec.
Proof.
  unfold exposes, may_have. case_bool_decide as Hm; cbn [negb rguard rbind]; [naive_solver|].
  case_bool_decide as Hw; case_bool_decide as Hy; destruct (rl_web_access role), (rl_can_write_memory role);
    cbn; naive_solver.
Qed.

(** A registry serves a role exactly when the tools it lists for the role
    are those the role names, and none of them writes, or reaches the web or
    the memory without the right; a specialized role has none of the rights. *)
Theorem registry_serves_role {H} (role : AgentRoleSpec) (r : ToolRegistry H) :
  (validate_registry role r = Ok tt ↔
   (∀ name, name ∈ role.(rl_allowed_tool_names) ↔
      ∃ spec, spec ∈ list_specs (Some (role_value role.(rl_role))) None (Some role.(rl_allowed_tool_names)) r ∧
              spec.(tl_name) = name) ∧
   Forall (may_have role) (list_specs (Some (role_value role.(rl_role))) None (Some role.(rl_allowed_tool_names)) r)) ∧
  (AgentRoleSpec_new role = Ok role → specialized role.(rl_role) = true →
   role.(rl_execution_mode) = "safe" ∧ role.(rl_web_access) = false ∧ role.(rl_can_write_memory) = false ∧
   role.(rl_checkpoint_access) = false ∧ role.(rl_recursive_delegation) = false).
Proof.
  split.
  - unfold validate_registry. set (specs := list_specs _ _ _ _). clearbody specs. case_bool_decide as Heq; cbn [rguard rbind].
    + rewrite rfor_Ok. setoid_rewrite exposes_Ok. split; [|by intros [_ ?]]. intros Hall. split; [|done].
      intros name. rewrite <- Heq, elem_of_list_to_set, list_elem_of_fmap. naive_solver.
    + split; [done|]. intros [Hn _]. destruct Heq. apply set_eq. intros name.
      rewrite elem_of_list_to_set, list_elem_of_fmap, Hn. naive_solver.
  - unfold AgentRoleSpec_new. intros Hok Hs. rewrite Hs in Hok.
    destruct (rguard _ _) as [[]|]; cbn in Hok; [|done].
    destruct (String.eqb_spec (rl_execution_mode role) "safe"); cbn in Hok; [|done].
    destruct (rl_can_write_memory role), (rl_web_access role), (rl_checkpoint_access role), (rl_recursive_delegation role);
      cbn in Hok; done.
Qed.

(** ** Budgets *)

Implicit Types (p : parent).

Section manager.
  Context (explorer_instructions reviewer_instructions : string) (persist : dict string json → op unit).
  Context (handlers : dict AgentRole DelegationHandler).

#[local] Abbreviation delegate := (delegate explorer_instructions reviewer_instructions persist handlers).

(** What a child may do to the budgets of its task: their operations. *)
Definition spends_through_budgets (handler : DelegationHandler) : Prop :=
  ∀ request child p, rtc budget_step p.(pt_budgets) (fst (handler request child p)).(pt_budgets).

(** Recording changes neither the budgets nor the results, and only adds to
    the trace. *)
Definition records_only : Prop :=
  ∀ record p, let p' := fst (persist record p) in
    p'.(pt_budgets) = p.(pt_budgets) ∧ p'.(pt_delegation_results) = p.(pt_delegation_results) ∧
    ∃ more, p'.(pt_trace) = p.(pt_trace) ++ more.

Definition has_budget p : Prop := ∀ a, p.(pt_budget) = Some a → (a < length p.(pt_budgets))%nat.

Lemma limit_nonneg n b l : BudgetLimit_new n b = Ok l → (0 ≤ l.(amount))%Z.
Proof. unfold BudgetLimit_new. intros (? & H%rguard_Ok & [= <-])%rbind_Ok. by apply Z.leb_le. Qed.

Lemma from_legacy_root comp turns tools started m :
  from_legacy comp turns tools None started = Ok m →
  ∃ lims, m = new_manager comp lims None started ∧ ∀ k l, dict_get lims k = Some l → (0 ≤ l.(amount))%Z.
Proof.
  unfold from_legacy. intros (l1 & H1%limit_nonneg & (l2 & H2%limit_nonneg & (l3 & H3%limit_nonneg & H)%rbind_Ok)%rbind_Ok)%rbind_Ok.
  injection H as <-. eexists. split; [done|]. intros k l Hk%dict_get_elem.
  rewrite !elem_of_cons, elem_of_nil in Hk. naive_solver.
Qed.

(** The parent's manager is one of the task, made when there was none. *)
Lemma parent_budget_run started p :
  has_budget p →
  ∃ p' r, parent_budget started p = (p', r) ∧ rtc budget_step p.(pt_budgets) p'.(pt_budgets) ∧
    p'.(pt_delegation_results) = p.(pt_delegation_results) ∧ p'.(pt_trace) = p.(pt_trace) ∧
    match r with
    | Ok a => (a < length p'.(pt_budgets))%nat
    | Raise x => p' = p ∧ ∃ y, x = BudgetFailure y
    end.
Proof.
  intros Hb. unfold parent_budget, bind, get, lift, modify, ret. destruct (pt_budget p) as [a|] eqn:Ha.
  - exists p, (Ok a). split_and!; try done. by apply Hb.
  - destruct (from_legacy _ _ _ _ _) as [m|x] eqn:Hm; cbn; [|exists p, (Raise (BudgetFailure x)); split_and!; try done; by exists x].
    destruct (from_legacy_root _ _ _ _ _ Hm) as (lims & -> & Hl).
    eexists _, _. split; [done|]. cbn. split_and!; [|done|done|rewrite length_app; cbn; lia].
    apply rtc_once. by apply step_root.
Qed.

(** The limits a child is given. *)
Definition limits_of (request : DelegationRequest) : dict BudgetKind BudgetLimit :=
  [(MODEL_TURNS, mk_limit request.(dr_model_turn_budget) false);
   (PRIMARY_MODEL_CALLS, mk_limit request.(dr_model_turn_budget) false);
   (TOOL_CALLS, mk_limit request.(dr_tool_call_budget) false);
   (INPUT_TOKENS, mk_limit request.(dr_context_budget) true)] ++
  match request.(dr_wall_time_ms) with Some ms => [(WALL_TIME_MS, mk_limit ms false)] | None => [] end.

Lemma BudgetLimit_new_Ok n b l : BudgetLimit_new n b = Ok l → l = mk_limit n b.
Proof. unfold BudgetLimit_new. by intros (? & _ & [= <-])%rbind_Ok. Qed.

Lemma child_limits_Ok request limits :
  child_limits request = Ok limits →
  limits = (λ kl, (kl.1, LimitValue kl.2)) <$> limits_of request ∧
  ∀ k l, (k, LimitValue l) ∈ limits → (0 ≤ l.(amount))%Z.
Proof.
  unfold child_limits, limits_of. intros H%rmap_err_Ok. minv.
  repeat match goal with H : BudgetLimit_new _ _ = Ok _ |- _ =>
    pose proof (limit_nonneg _ _ _ H); apply BudgetLimit_new_Ok in H; subst end.
  destruct (dr_wall_time_ms request) as [ms|].
  - minv. repeat match goal with H : BudgetLimit_new _ _ = Ok _ |- _ =>
      pose proof (limit_nonneg _ _ _ H); apply BudgetLimit_new_Ok in H; subst end.
    split; [done|]. intros k l Hin. cbn in Hin. rewrite !elem_of_cons, elem_of_nil in Hin. naive_solver.
  - simplify_eq. split; [done|]. intros k l Hin. cbn in Hin. rewrite !elem_of_cons, elem_of_nil in Hin. naive_solver.
Qed.

Lemma trace_two {A} (t m : list A) a b : ((t ++ m) ++ [a]) ++ [b] = t ++ (m ++ [a]) ++ [b].
Proof. by rewrite !app_assoc. Qed.

Lemma trace_three {A} (t m m' : list A) a b : (((t ++ [a]) ++ m) ++ m') ++ [b] = t ++ ([a] ++ m ++ m') ++ [b].
Proof. by rewrite !app_assoc. Qed.

(** *** Recording *)

Lemma record_result_run result p :
  records_only →
  ∃ p' r, record_result persist result p = (p', r) ∧ p'.(pt_budgets) = p.(pt_budgets) ∧
    p'.(pt_delegation_results) = p.(pt_delegation_results) ++ [persistence_record result] ∧
    (∃ more, p'.(pt_trace) = p.(pt_trace) ++ more).
Proof.
  intros Hp. unfold record_result, bind, modify.
  set (p1 := p <| pt_delegation_results ::= λ l, l ++ [persistence_record result] |>).
  destruct (persist (persistence_record result) p1) as [p' r] eqn:Hr. exists p', r. split; [done|].
  destruct (Hp (persistence_record result) p1) as (Hb & Hd & Ht). rewrite Hr in *. cbn in Hb, Hd, Ht. by split_and!.
Qed.

(** What ends a delegation that began: one record, and a trace that ends with
    [DELEGATION_FINISHED] when recording succeeded. *)
Definition reported p p' (r : res failure DelegationResult) : Prop :=
  ∃ result, p'.(pt_delegation_results) = p.(pt_delegation_results) ++ [persistence_record result] ∧
    match r with
    | Ok result' => result' = result ∧ ∃ more metadata, p'.(pt_trace) = p.(pt_trace) ++ more ++ [(DELEGATION_FINISHED, metadata)]
    | Raise _ => ∃ more, p'.(pt_trace) = p.(pt_trace) ++ more
    end.

Lemma report_exhausted_run request kind component p p' r :
  records_only → report_exhausted persist request kind component p = (p', r) →
  p'.(pt_budgets) = p.(pt_budgets) ∧ reported p p' r ∧
  (∀ result, r = Ok result → result = exhausted_result request no_usage kind component).
Proof.
  intros Hp. unfold report_exhausted, bind.
  destruct (record_result_run (exhausted_result request no_usage kind component) p Hp) as (p1 & r1 & -> & Hb & Hd & more & Ht).
  destruct r1 as [[]|x].
  - unfold emit, modify, ret. intros [= <- <-]. cbn. split_and!; [done| |by intros ? [= <-]].
    eexists. cbn. split; [exact Hd|]. split; [done|]. rewrite Ht. eexists _, _. apply trace_two.
  - intros [= <- <-]. split_and!; [done| |done]. eexists. split; [exact Hd|]. by exists more.
Qed.

(** *** A child *)

Lemma run_handler_run handler request child p :
  ∃ p' result, run_handler handler request child p = (p', Ok result) ∧ p' = fst (handler request child p).
Proof.
  unfold run_handler. destruct (handler request child p) as [p' [result|[kind comp|kind msg]]]; by eexists _, _.
Qed.

Definition leaves_results (handler : DelegationHandler) : Prop :=
  ∀ request child p, let p' := fst (handler request child p) in
    p'.(pt_delegation_results) = p.(pt_delegation_results) ∧ ∃ more, p'.(pt_trace) = p.(pt_trace) ++ more.

Lemma run_child_run handler request child p p' r :
  records_only → run_child persist handler request child p = (p', r) →
  ∃ p1 p2 result, p1 = p <| pt_trace := p1.(pt_trace) |> ∧
    run_handler handler request child p1 = (p2, Ok result) ∧ p2 = fst (handler request child p1) ∧
    p'.(pt_budgets) = p2.(pt_budgets) ∧ (∀ result', r = Ok result' → result' = result) ∧
    (leaves_results handler → reported p p' r).
Proof.
  intros Hp. unfold run_child, bind at 1, emit at 1, modify. cbn.
  set (p1 := p <| pt_trace ::= _ |>). destruct (run_handler_run handler request child p1) as (p2 & result & Hh & Hp2).
  unfold bind at 1. rewrite Hh. destruct (record_result_run result p2 Hp) as (p3 & r3 & Hr & Hb & Hd & more & Ht).
  unfold bind at 1. rewrite Hr. intros H. exists p1, p2, result. split_and!; [done|done|done| | |].
  - destruct r3 as [[]|x]; [|by injection H as <- _]. unfold bind, emit, modify, ret in H. by injection H as <- _.
  - intros ? ->. destruct r3 as [[]|x]; [|done]. unfold bind, emit, modify, ret in H. by injection H as _ <-.
  - intros Hl. destruct (Hl request child p1) as [Hl1 [more1 Hl2]]. rewrite <- Hp2 in Hl1, Hl2.
    exists result. destruct r3 as [[]|x].
    + unfold bind, emit, modify, ret in H. injection H as <- <-. cbn. rewrite Hd, Hl1. split; [done|]. split; [done|].
      rewrite Ht, Hl2. eexists _, _. apply trace_three.
    + injection H as <- <-. rewrite Hd, Hl1. split; [done|]. rewrite Ht, Hl2. cbn. eexists. rewrite <- !(app_assoc (pt_trace p)). reflexivity.
Qed.

(** *** The whole delegation *)

Definition not_exceeded (x : failure) : Prop := ∀ kind comp, x ≠ BudgetFailure (BudgetExceeded kind comp).

(** The same parent but for its budgets, which were used, and its trace. *)
Record used_by p p' : Prop := {
  ub_budgets : rtc budget_step p.(pt_budgets) p'.(pt_budgets);
  ub_results : p'.(pt_delegation_results) = p.(pt_delegation_results);
  ub_trace : ∃ more, p'.(pt_trace) = p.(pt_trace) ++ more;
}.

Lemma used_by_refl p : used_by p p.
Proof. split; [done|done|]. exists []. by rewrite app_nil_r. Qed.

Lemma BudgetLimit_new_Raise n b x : BudgetLimit_new n b = Raise x → ∃ msg, x = ValueError msg.
Proof. unfold BudgetLimit_new. destruct (0 <=? n)%Z; cbn; [done|]. intros [= <-]. by eexists. Qed.

Lemma rbind_Raise_inv {E A B} (r : res E A) (k : A → res E B) x :
  rbind r k = Raise x → r = Raise x ∨ ∃ a, r = Ok a ∧ k a = Raise x.
Proof. destruct r as [a|y]; cbn; [right; by exists a|intros [= ->]; by left]. Qed.

Lemma child_limits_Raise request x : child_limits request = Raise x → not_exceeded x.
Proof.
  unfold child_limits. intros H kind comp ->. destruct (rbind _ _) as [?|y] eqn:Hr; cbn in H; [done|]. injection H as ->.
  repeat (apply rbind_Raise_inv in Hr as [[? Hr]%BudgetLimit_new_Raise|(? & _ & Hr)]; [done|]).
  destruct (dr_wall_time_ms request); [|done].
  apply rbind_Raise_inv in Hr as [[? Hr]%BudgetLimit_new_Raise|(? & _ & Hr)]; done.
Qed.

Lemma from_legacy_Raise comp turns tools started x :
  from_legacy comp turns tools None started = Raise x → ∃ msg, x = ValueError msg.
Proof.
  unfold from_legacy. intros Hr.
  repeat (apply rbind_Raise_inv in Hr as [Hr%BudgetLimit_new_Raise|(? & _ & Hr)]; [done|]). done.
Qed.

Lemma parent_budget_Raise started p p' x : parent_budget started p = (p', Raise x) → not_exceeded x.
Proof.
  unfold parent_budget, bind, get, lift, modify, ret. destruct (pt_budget p); [done|].
  destruct (from_legacy _ _ _ _ _) as [m|y] eqn:Hm; cbn; [done|]. apply from_legacy_Raise in Hm as [msg ->].
  by intros [= _ <-] ? ?.
Qed.

(** Every check refuses with a message. *)
Lemma rguard_Refused b msg x : rguard b (Refused msg) = Raise x → ∃ m, x = Refused m.
Proof. destruct b; cbn; [done|]. intros [= <-]. by eexists. Qed.

Ltac refusals :=
  repeat match goal with
  | H : rbind _ _ = Raise _ |- _ => apply rbind_Raise_inv in H as [H|(? & _ & H)]
  | H : rguard _ _ = Raise _ |- _ => exact (rguard_Refused _ _ _ H)
  | H : Ok _ = Raise _ |- _ => discriminate H
  | H : (if ?b then _ else _) = Raise _ |- _ => destruct b
  end.

Lemma resolve_Raise role x : resolve explorer_instructions reviewer_instructions role = Raise x → ∃ m, x = Refused m.
Proof.
  unfold resolve, explorer_role, reviewer_role, trusted_role, AgentRoleSpec_new.
  destruct role; intros H; try (injection H as <-; by eexists); refusals.
Qed.

Lemma admitted_Raise request role x : admitted request role = Raise x → ∃ m, x = Refused m.
Proof. unfold admitted. intros H. refusals. Qed.

Lemma check_request_Raise request p x :
  check_request explorer_instructions reviewer_instructions handlers request p = Raise x → ∃ m, x = Refused m.
Proof.
  unfold check_request. intros H. refusals; [by eapply resolve_Raise|by eapply admitted_Raise|].
  destruct (dict_get handlers _); [done|]. injection H as <-. by eexists.
Qed.

Lemma normalize_values (l : dict BudgetKind BudgetLimit) :
  rmapM normalize_limit ((λ kl, (kl.1, LimitValue kl.2)) <$> l) = Ok l.
Proof. induction l as [|[k v] l IH]; [done|]. cbn. cbn in IH. by rewrite IH. Qed.

(** The manager of a child at its birth. *)
Definition newborn (request : DelegationRequest) (st : Budgets.store) (child : addr) : Prop :=
  (child < length st)%nat ∧ limits (manager st child) = limits_of request ∧ consumed (manager st child) = [] ∧
  is_Some (Budgets.parent (manager st child)).

Lemma allocated_newborn request st1 a started :
  (a < length st1)%nat →
  newborn request (add_child st1 a request.(dr_delegation_id) (role_value request.(dr_role)) (limits_of request) started) (length st1).
Proof.
  intros Ha. set (st := add_child _ _ _ _ _ _).
  assert (Hm : manager st (length st1) = new_manager (role_value request.(dr_role)) (limits_of request) (Some a) started).
  { unfold st, add_child, manager. rewrite list_lookup_alter_ne by lia. by rewrite lookup_app_r, Nat.sub_diag by lia. }
  unfold newborn. rewrite Hm. split_and!; try done. unfold st, add_child. rewrite length_alter, length_app. cbn. lia.
Qed.

Lemma rtc_budget_inv st st' : budget_inv st → rtc budget_step st st' → budget_inv st'.
Proof. intros H Hs. revert H. induction Hs as [|st st1 st' H1 _ IH]; [done|]. intros H. by eapply IH, budget_step_inv. Qed.

(** Everything a delegation can do. *)
Lemma delegate_cases clock started started_child request p p' r :
  budget_inv p.(pt_budgets) → has_budget p → delegate clock started started_child request p = (p', r) →
  (∃ x, r = Raise x ∧ not_exceeded x ∧ used_by p p' ∧
        (check_request explorer_instructions reviewer_instructions handlers request p = Raise x → p' = p)) ∨
  (∃ p1 kind comp, used_by p p1 ∧ report_exhausted persist request kind comp p1 = (p', r)) ∨
  (∃ handler p1 child, check_request explorer_instructions reviewer_instructions handlers request p = Ok handler ∧
     used_by p p1 ∧ newborn request p1.(pt_budgets) child ∧ run_child persist handler request child p1 = (p', r)).
Proof.
  intros Hinv Hb. unfold Delegation.delegate, bind at 1, get. unfold bind at 1, lift.
  destruct (check_request _ _ _ _ _) as [handler|x] eqn:Hc.
  2: { intros [= <- <-]. left. exists x. split; [done|]. split; [|by split; [apply used_by_refl|]].
       destruct (check_request_Raise _ _ _ Hc) as [m ->]. by intros ? ?. }
  unfold bind at 1. destruct (parent_budget_run started p Hb) as (p1 & rb & Hrun & Hu & Hr1 & Ht1 & Hrb). rewrite Hrun.
  assert (H1 : used_by p p1) by (split; [done|done|exists []; by rewrite app_nil_r]).
  destruct rb as [a|x].
  2: { intros [= <- <-]. left. exists x. split_and!; [done|by eapply parent_budget_Raise|done|done]. }
  unfold bind at 1. destruct (child_limits request) as [limits|x] eqn:Hl.
  2: { intros [= <- <-]. left. exists x. split_and!; [done|by eapply child_limits_Raise|done|done]. }
  destruct (child_limits_Ok _ _ Hl) as [Hlims Hpos].
  unfold bind at 1, emit, modify. set (p2 := p1 <| pt_trace ::= _ |>).
  assert (H2 : used_by p p2).
  { split; [done|done|]. cbn. rewrite Ht1. by eexists. }
  assert (Hb2 : pt_budgets p2 = pt_budgets p1) by done. clearbody p2. unfold on_budgets. rewrite Hb2.
  destruct (allocate_child _ _ _ _ _ _ _) as [st' ra] eqn:Ha.
  assert (H3 : used_by p (p2 <| pt_budgets := st' |>)).
  { destruct H2 as [Hst Hres Htr]. split; [|exact Hres|exact Htr]. eapply rtc_r; [exact Hst|]. rewrite Hb2.
    pose proof (step_allocate (pt_budgets p1) clock started_child a request.(dr_delegation_id) (role_value request.(dr_role)) limits Hrb Hpos) as Hs.
    by rewrite Ha in Hs. }
  destruct ra as [child|e]; cbn [rmap_err].
  - intros Hrun2. right. right. exists handler, (p2 <| pt_budgets := st' |>), child. split_and!; [done|done| |exact Hrun2].
    destruct (allocate_child_cases _ _ _ _ _ _ _ _ _ Ha) as [(_ & ?)|[(e & _ & ?)|(st1 & Hcons & [(e & _ & ? & _)|(norm & Hn & _ & _ & _ & -> & Hch)])]];
      try done. injection Hch as ->. rewrite Hlims, normalize_values in Hn. injection Hn as <-. apply allocated_newborn.
    apply consume_inv in Hcons as (_ & -> & _); [done| |done|lia]. by eapply rtc_budget_inv.
  - destruct e as [msg|kind comp|msg|]; intros H; try (injection H as <- <-; left; eexists; split_and!; [done|by intros ? ?|exact H3|done]).
    right. left. exists (p2 <| pt_budgets := st' |>), kind, comp. by split.
Qed.

(** Whatever a delegation is asked and however its child ends, as long as
    the child spends through its budgets, every counter of the task stays
    within its limit; a delegation that is refused before it begins leaves the
    parent as it was. *)
Theorem delegation_stays_within_budgets clock started started_child request p p' r :
  reachable p.(pt_budgets) → has_budget p → records_only →
  (∀ role handler, dict_get handlers role = Some handler → spends_through_budgets handler) →
  delegate clock started started_child request p = (p', r) →
  store_wf p'.(pt_budgets) ∧ within_limits p'.(pt_budgets) ∧
  (∀ x, check_request explorer_instructions reviewer_instructions handlers request p = Raise x → p' = p).
Proof.
  intros Hr%reachable_inv Hb Hrec Hsp Hd.
  assert (Hstep : rtc budget_step p.(pt_budgets) p'.(pt_budgets)).
  { destruct (delegate_cases _ _ _ _ _ _ _ Hr Hb Hd) as [(x & _ & _ & [? _ _] & _)|[(p1 & k & c & [? _ _] & He)|(h & p1 & ch & Hc & [? _ _] & _ & Hrun)]].
    - done.
    - by destruct (report_exhausted_run _ _ _ _ _ _ Hrec He) as (-> & _).
    - destruct (run_child_run _ _ _ _ _ _ Hrec Hrun) as (p2 & p3 & res & Hp2 & _ & Hp3 & Hbud & _). rewrite Hbud, Hp3.
      etrans; [done|]. replace (pt_budgets p1) with (pt_budgets p2) by (rewrite Hp2; done).
      eapply Hsp. unfold check_request in Hc. minv. destruct (dict_get handlers _) eqn:Hh; [|done]. injection Hc as <-. exact Hh. }
  destruct (rtc_budget_inv _ _ Hr Hstep) as [Hw Hl]. split_and!; [done|done|].
  intros x Hx. unfold Delegation.delegate, bind at 1, get in Hd. unfold bind at 1, lift in Hd. rewrite Hx in Hd. by injection Hd as <- _.
Qed.

(** A delegation that is admitted is recorded exactly once, whatever its
    child does: it answers with a result, never with an exhausted budget, and
    a child runs only for a request within its role, on a new manager with
    the limits that were asked for. *)
Theorem delegation_is_reported_once clock started started_child request p p' r :
  reachable p.(pt_budgets) → has_budget p → records_only →
  (∀ role handler, dict_get handlers role = Some handler → leaves_results handler) →
  delegate clock started started_child request p = (p', r) →
  (∃ x, r = Raise x ∧ not_exceeded x ∧ p'.(pt_delegation_results) = p.(pt_delegation_results)) ∨
  (∃ p1, used_by p p1 ∧ reported p1 p' r ∧
    ∀ result, r = Ok result →
      (∃ kind comp, result = exhausted_result request no_usage kind comp) ∨
      ∃ handler p2 p3 child, check_request explorer_instructions reviewer_instructions handlers request p = Ok handler ∧
        newborn request p2.(pt_budgets) child ∧ run_handler handler request child p2 = (p3, Ok result)).
Proof.
  intros Hr%reachable_inv Hb Hrec Hl Hd.
  destruct (delegate_cases _ _ _ _ _ _ _ Hr Hb Hd) as [(x & -> & Hx & [_ ? _] & _)|[(p1 & k & c & Hu & He)|(h & p1 & ch & Hc & Hu & Hn & Hrun)]].
  - left. by exists x.
  - right. exists p1. destruct (report_exhausted_run _ _ _ _ _ _ Hrec He) as (_ & Hrep & Hres). split_and!; [done|done|].
    intros result Hok. left. by exists k, c; apply Hres.
  - right. exists p1. destruct (run_child_run _ _ _ _ _ _ Hrec Hrun) as (p2 & p3 & res & Hp2 & Hh & _ & _ & Hres & Hrep).
    split_and!; [done| |].
    + apply Hrep. unfold check_request in Hc. minv. destruct (dict_get handlers _) eqn:Hg; [|done]. injection Hc as <-. by eapply Hl.
    + intros result Hok. right. exists h, p2, p3, ch. rewrite (Hres _ Hok). split_and!; [done| |exact Hh].
      rewrite Hp2. exact Hn.
Qed.

(** What is admitted is within the trusted role: the parent's own task, a
    specialized role in safe mode, no more turns, calls or context than the
    role has, no model of the request's choosing. *)
Theorem admitted_request_is_within_its_role request p handler :
  check_request explorer_instructions reviewer_instructions handlers request p = Ok handler →
  dict_get handlers request.(dr_role) = Some handler ∧ request.(dr_parent_task_id) = p.(pt_task_id) ∧
  request.(dr_role) ∈ [EXPLORER; REVIEWER] ∧ request.(dr_execution_mode) = "safe" ∧
  (request.(dr_model_turn_budget) ≤ 8 ∧ request.(dr_tool_call_budget) ≤ 16 ∧ request.(dr_context_budget) ≤ 32768)%Z ∧
  (∀ model, request.(dr_model_override) = Some model → model = "").
Proof.
  unfold check_request. intros H. minv.
  match goal with H : resolve _ _ _ = Ok ?role |- _ => rename H into Hrole; rename role into spec end.
  match goal with H : admitted _ _ = Ok _ |- _ => unfold admitted in H end. minv. bools.
  assert (Hspec : request.(dr_role) ∈ [EXPLORER; REVIEWER] ∧ spec.(rl_execution_mode) = "safe" ∧
    spec.(rl_max_model_turns) = 8%Z ∧ spec.(rl_max_tool_calls) = 16%Z ∧ spec.(rl_context_limit) = 32768%Z ∧
    spec.(rl_model_override) = None).
  { unfold resolve in Hrole. destruct (dr_role request); try discriminate Hrole; vm_compute in Hrole; injection Hrole as <-;
      (split; [apply (bool_decide_unpack _); vm_compute; exact I|done]). }
  destruct Hspec as (Hin & Hm & T1 & T2 & T3 & T4). rewrite Hm, T1, T2, T3, T4 in *.
  repeat match goal with
  | H : (_ =? _)%string = true |- _ => apply String.eqb_eq in H
  | H : (_ <=? _)%Z = true |- _ => apply Z.leb_le in H
  end.
  split_and!; try done. intros model Hmo. rewrite Hmo in *.
  match goal with H : negb _ || _ = true |- _ => apply orb_true_iff in H as [Hn|Hn] end.
  - apply negb_true_iff in Hn. by destruct model.
  - by apply bool_decide_eq_true in Hn.
Qed.
End manager.

(** ** Examples *)

Module DelegationExamples.
Definition not_recorded (_ : dict string json) : op unit := ret tt.

(** A child that takes one turn of its own budget. *)
Definition one_turn : DelegationHandler := λ request child p,
  if decide (child < length p.(pt_budgets))%nat then
    match consume (S child) (λ _, 0%Z) child MODEL_TURNS 1 false p.(pt_budgets) with
    | (st, Ok _) =>
        (p <| pt_budgets := st |>,
         Ok (mk_result request.(dr_delegation_id) request.(dr_role) COMPLETED None [] (mk_usage 1 0 0 0) "completed" [] []))
    | (st, Raise (BudgetExceeded kind comp)) => (p <| pt_budgets := st |>, Raise (ChildExhausted kind comp))
    | (st, Raise _) => (p <| pt_budgets := st |>, Raise (ChildError "BudgetError" ""))
    end
  else (p, Raise (ChildError "BudgetError" "")).

Definition one_handler : dict AgentRole DelegationHandler := [(EXPLORER, one_turn)].
Definition asking : DelegationRequest :=
  mk_request "task_0001" EXPLORER "look around" [] [] "ExplorationReport" "trusted_role_default" "safe" None
    1000 2 3 None "parent_to_child" false "delegate_1".
Definition fresh : parent := mk_parent "task_0001" 10 20 None [] [] [].
Definition one_delegation := delegate "look" "judge" not_recorded one_handler (λ _, 0%Z) 0 0 asking fresh.

Lemma one_turn_spends : spends_through_budgets one_turn ∧ leaves_results one_turn.
Proof.
  split.
  - intros request child p. unfold one_turn. case_decide as Hc; [|done].
    pose proof (step_consume p.(pt_budgets) (λ _, 0%Z) child MODEL_TURNS 1 false Hc) as Hs.
    destruct (consume _ _ _ _ _ _ _) as [st [?|[]]]; cbn in *; by apply rtc_once.
  - intros request child p. unfold one_turn. case_decide; [|cbn; split; [done|exists []; by rewrite app_nil_r]].
    destruct (consume _ _ _ _ _ _ _) as [st [?|[]]]; cbn; (split; [done|exists []; by rewrite app_nil_r]).
Qed.

Lemma not_recorded_only : records_only not_recorded.
Proof. intros record p. cbn. split_and!; [done|done|]. exists []. by rewrite app_nil_r. Qed.

Lemma one_handler_only role handler : dict_get one_handler role = Some handler → handler = one_turn.
Proof. unfold one_handler. cbn. case_decide; [by intros [= <-]|done]. Qed.

Lemma fresh_budget : reachable fresh.(pt_budgets) ∧ has_budget fresh.
Proof. split; [apply rtc_refl|by intros ? ?]. Qed.

Lemma delegation_stays_within_budgets_witness :
  within_limits one_delegation.1.(pt_budgets) ∧ length one_delegation.1.(pt_budgets) = 2%nat.
Proof.
  split; [|vm_compute; reflexivity].
  apply (delegation_stays_within_budgets "look" "judge" not_recorded one_handler (λ _, 0%Z) 0 0 asking fresh
           one_delegation.1 one_delegation.2).
  - apply fresh_budget.
  - apply fresh_budget.
  - exact not_recorded_only.
  - intros role handler ->%one_handler_only. apply one_turn_spends.
  - unfold one_delegation. by destruct (delegate _ _ _ _ _ _ _ _ _).
Defined.

Lemma delegation_is_reported_once_witness :
  (∃ result, one_delegation.2 = Ok result) ∧ ∃ p1, used_by fresh p1 ∧ reported p1 one_delegation.1 one_delegation.2.
Proof.
  split; [eexists; vm_compute; reflexivity|].
  destruct (delegation_is_reported_once "look" "judge" not_recorded one_handler (λ _, 0%Z) 0 0 asking fresh
           one_delegation.1 one_delegation.2) as [(x & Hx & _)|(p1 & Hu & Hrep & _)].
  - apply fresh_budget.
  - apply fresh_budget.
  - exact not_recorded_only.
  - intros role handler ->%one_handler_only. apply one_turn_spends.
  - unfold one_delegation. by destruct (delegate _ _ _ _ _ _ _ _ _).
  - vm_compute in Hx. discriminate Hx.
  - by exists p1.
Defined.

Lemma admitted_request_is_within_its_role_witness :
  (asking.(dr_model_turn_budget) ≤ 8 ∧ asking.(dr_tool_call_budget) ≤ 16 ∧ asking.(dr_context_budget) ≤ 32768)%Z.
Proof.
  apply (admitted_request_is_within_its_role "look" "judge" one_handler asking fresh one_turn). vm_compute. reflexivity.
Defined.

Lemma registry_serves_role_witness :
  let role := mk_spec EXPLORER "look" read_only_tools "safe" 8 16 32768 false false false false None in
  role.(rl_execution_mode) = "safe" ∧ role.(rl_web_access) = false ∧ role.(rl_can_write_memory) = false ∧
  role.(rl_checkpoint_access) = false ∧ role.(rl_recursive_delegation) = false.
Proof. intros role. by apply (registry_serves_role (H := unit) role []). Defined.

(** The trusted roles are served by the program's own registry. *)
Lemma program_registry_serves_the_roles :
  ∃ r, build_tool_registry (λ _, "A tool.") (λ _ _, None) (λ _, JObj [("type", JStr "object")]) (λ _, tt) = Ok r ∧
  ∀ role, role ∈ [explorer_role "look"; reviewer_role "judge"; planning_role "plan"] →
    ∃ spec, role = Ok spec ∧ validate_registry spec r = Ok tt.
Proof.
  eexists. split; [vm_compute; reflexivity|]. intros role. rewrite !elem_of_cons, elem_of_nil.
  intros [-> |[-> |[-> |[]]]]; eexists; (split; [vm_compute; reflexivity|vm_compute; reflexivity]).
Qed.
End DelegationExamples.
