(* ===== verification/ContextEngine.v ===== *)
(** * Composition of the model's context: [client/context/context_engine.py]

    Items, requests, the eviction of groups and the truncation of what is
    left, and the projection of a task's state.  The text of an item is a list
    of code points. *)

From Stdlib Require Import Ascii.
From S2P Require Import Prelude Texts Values WorkingState.

Open Scope py_scope.
#[local] Open Scope Z_scope.

(** ** Text *)

Definition text : Type := list N.

(** A text of Latin characters. *)
Fixpoint latin (s : string) : text :=
  match s with EmptyString => [] | String c s => N_of_ascii c :: latin s end.

Definition text_length (t : text) : Z := Z.of_nat (length t).

(** [text[:n]] for a natural number. *)
Definition text_prefix (n : Z) (t : text) : text := take (Z.to_nat n) t.

(** ** Data *)

Inductive exn := ContextError (msg : string).

Inductive ContextLayer :=
  | SYSTEM_RULES | PROJECT_RULES | DURABLE_MEMORY | TASK_WORKING_STATE | CONVERSATION_SUMMARY
  | RECENT_CONVERSATION | RETRIEVED_CONTEXT | TOOL_EVIDENCE.

Inductive Freshness := STALE | RECENT | CURRENT.

#[export] Instance ContextLayer_eq_dec : EqDecision ContextLayer.
Proof. solve_decision. Defined.
#[export] Instance Freshness_eq_dec : EqDecision Freshness.
Proof. solve_decision. Defined.

Definition layers : list ContextLayer :=
  [SYSTEM_RULES; PROJECT_RULES; DURABLE_MEMORY; TASK_WORKING_STATE; CONVERSATION_SUMMARY;
   RECENT_CONVERSATION; RETRIEVED_CONTEXT; TOOL_EVIDENCE].

Definition freshness_order (f : Freshness) : Z := match f with STALE => 0 | RECENT => 1 | CURRENT => 2 end.

Definition eviction_tier (l : ContextLayer) : Z :=
  match l with
  | CONVERSATION_SUMMARY | RECENT_CONVERSATION => 0
  | TOOL_EVIDENCE => 1 | RETRIEVED_CONTEXT => 2 | DURABLE_MEMORY => 3
  | TASK_WORKING_STATE => 4 | PROJECT_RULES => 5 | SYSTEM_RULES => 6
  end.

Record ContextItem := mk_item {
  item_id : string;
  layer : ContextLayer;
  source : string;
  content : text;
  priority : Z;
  freshness : Freshness;
  protected : bool;
  token_estimate : option Z;
  token_overhead : Z;
  inclusion_reason : string;
  reference : option json;
  eviction_group : option string;
  truncatable : bool;
}.

#[export] Instance eta_ContextItem : Eta ContextItem := λ r,
  mk_item r.(item_id) r.(layer) r.(source) r.(content) r.(priority) r.(freshness) r.(protected)
    r.(token_estimate) r.(token_overhead) r.(inclusion_reason) r.(reference) r.(eviction_group) r.(truncatable).

Definition has_text (t : text) : bool := match t with [] => false | _ => true end.

(** [ContextItem.__post_init__] *)
Definition ContextItem_new (i : ContextItem) : res exn ContextItem :=
  do? rguard (str_true (py_strip i.(item_id))) (ContextError "context item id must be a non-empty string") in
  do? rguard (str_true (py_strip i.(source))) (ContextError "context item source must be a non-empty string") in
  do? rguard (has_text i.(content) || bool_decide (is_Some i.(reference)))
        (ContextError "context item needs content or a reference") in
  do? rguard ((0 <=? i.(priority)) && (i.(priority) <=? 100))
        (ContextError "context item priority must be between 0 and 100") in
  do? rguard (match i.(token_estimate) with Some n => 0 <=? n | None => true end)
        (ContextError "token estimate must be null or non-negative") in
  do? rguard (0 <=? i.(token_overhead)) (ContextError "token overhead must be non-negative") in
  do? rguard (str_true i.(inclusion_reason)) (ContextError "inclusion reason must be a non-empty string") in
  do? rguard (match i.(eviction_group) with Some g => str_true g | None => true end)
        (ContextError "eviction group must be null or non-empty text") in
  Ok i.

Record ContextRequest := mk_request {
  items : list ContextItem;
  context_limit : Z;
  output_reserve : Z;
  safety_margin : Z;
  fixed_input_tokens : Z;
}.

Definition ContextRequest_new (r : ContextRequest) : res exn ContextRequest :=
  do? rguard (0 <=? r.(context_limit)) (ContextError "context_limit must be a non-negative integer") in
  do? rguard (0 <=? r.(output_reserve)) (ContextError "output_reserve must be a non-negative integer") in
  do? rguard (0 <=? r.(safety_margin)) (ContextError "safety_margin must be a non-negative integer") in
  do? rguard (0 <=? r.(fixed_input_tokens)) (ContextError "fixed_input_tokens must be a non-negative integer") in
  do? rguard (1 <=? r.(context_limit)) (ContextError "context_limit must be positive") in
  Ok r.

Record TruncationDecision := mk_truncation {
  td_item_id : string; td_original_tokens : Z; td_selected_tokens : Z; td_reason : string;
}.

Record LayerStatistics := mk_statistics { included_items : Z; excluded_items : Z; estimated_tokens : Z }.

Record ContextSnapshot := mk_snapshot {
  sn_selected_items : list ContextItem;
  sn_excluded_items : list (ContextItem * string);
  sn_estimated_input_tokens : Z;
  sn_available_input_tokens : Z;
  sn_fixed_input_tokens : Z;
  sn_layer_statistics : dict ContextLayer LayerStatistics;
  sn_truncation_decisions : list TruncationDecision;
  sn_estimate_is_approximate : bool;
  sn_overflow_tokens : Z;
  sn_context_limit : Z;
  sn_output_reserve : Z;
  sn_safety_margin : Z;
}.

Definition within_budget (s : ContextSnapshot) : bool := s.(sn_overflow_tokens) =? 0.

(** ** Selection *)

Section engine.
  (** [ApproximateTokenEstimator.chars_per_token] *)
  Context (chars_per_token : Z).

Definition estimate (t : text) : Z := if has_text t then text_length t / chars_per_token + 1 else 0.

Definition tokens (i : ContextItem) : Z := default 0 i.(token_estimate).

(** [_normalize] *)
Fixpoint normalize_from (ids : list string) (l : list ContextItem) : res exn (list ContextItem) :=
  match l with
  | [] => Ok []
  | i :: l =>
      do? rguard (negb (bool_decide (i.(item_id) ∈ ids))) (ContextError ("duplicate context item id: " +:+ i.(item_id))) in
      let n := match i.(token_estimate) with Some n => n | None => estimate i.(content) + i.(token_overhead) end in
      let? rest := normalize_from (i.(item_id) :: ids) l in
      Ok (i <| token_estimate := Some n |> :: rest)
  end.
Definition normalize (l : list ContextItem) : res exn (list ContextItem) := normalize_from [] l.

Definition sum_tokens (l : list ContextItem) : Z := foldr (λ i n, tokens i + n) 0 l.

Definition estimate_request_tokens (r : ContextRequest) : res exn Z :=
  let? l := normalize r.(items) in Ok (r.(fixed_input_tokens) + sum_tokens l).

(** The selected items by their position. *)
Abbreviation selection := (list (nat * ContextItem)).

Definition total (fixed : Z) (selected : selection) : Z := fixed + sum_tokens (selected.*2).

(** *** Eviction *)

Definition group_of (entry : nat * ContextItem) : string :=
  match entry.2.(eviction_group) with
  | Some g => if str_true g then g else "item:" +:+ pretty entry.1
  | None => "item:" +:+ pretty entry.1
  end.

(** [grouped.setdefault(group, []).append(...)] over the selection. *)
Fixpoint grouped (groups : dict string selection) (selected : selection) : dict string selection :=
  match selected with
  | [] => groups
  | entry :: selected =>
      grouped (dict_set (group_of entry) (dict_get_default groups (group_of entry) [] ++ [entry]) groups) selected
  end.

Definition minimum (l : list Z) : Z := match l with [] => 0 | n :: l => foldr Z.min n l end.

Definition group_key (members : selection) : list Z :=
  [minimum ((λ e, eviction_tier e.2.(layer)) <$> members); minimum ((λ e, e.2.(priority)) <$> members);
   minimum ((λ e, freshness_order e.2.(freshness)) <$> members); minimum ((λ e, Z.of_nat e.1) <$> members)].

Definition evictable (members : selection) : bool := negb (existsb (λ e, e.2.(protected)) members).

(** [_evictable_groups] *)
Definition evictable_groups (selected : selection) : list (list Z * list nat) :=
  omap (λ group, if evictable group.2 then Some (group_key group.2, group.2.*1) else None) (grouped [] selected).

(** Tuples are compared in order. *)
Fixpoint key_ltb (a b : list Z) : bool :=
  match a, b with
  | x :: a, y :: b => (x <? y) || (x =? y) && key_ltb a b
  | _, _ => false
  end.

(** [min] with a key: the first of the smallest. *)
Fixpoint min_by {A} (key : A → list Z) (best : A) (l : list A) : A :=
  match l with
  | [] => best
  | a :: l => min_by key (if key_ltb (key a) (key best) then a else best) l
  end.

Definition exclusion_reason (l : ContextLayer) : string :=
  match l with
  | RECENT_CONVERSATION | CONVERSATION_SUMMARY => "obsolete_conversation_evicted"
  | TOOL_EVIDENCE => "redundant_tool_evidence_evicted"
  | RETRIEVED_CONTEXT => "low_value_retrieval_evicted"
  | _ => "lower_priority_item_evicted"
  end.

(** The indexes of a group leave the selection. *)
Definition without (indexes : list nat) (selected : selection) : selection :=
  filter (λ e, e.1 ∉ indexes) selected.
Definition taken (indexes : list nat) (selected : selection) : selection :=
  filter (λ e, e.1 ∈ indexes) selected.

(** The first loop; one group leaves in each turn. *)
Fixpoint evict (fuel : nat) (fixed available : Z) (selected excluded : selection) : selection * selection :=
  match fuel with
  | O => (selected, excluded)
  | S fuel =>
      if total fixed selected <=? available then (selected, excluded)
      else match evictable_groups selected with
           | [] => (selected, excluded)
           | group :: groups =>
               let indexes := (min_by fst group groups).2 in
               evict fuel fixed available (without indexes selected) (excluded ++ taken indexes selected)
           end
  end.

(** *** Truncation *)

(** A newline, an ellipsis and a notice. *)
Definition truncation_marker : text := 10%N :: 8230%N :: latin "[context truncated to fit budget]".

Definition truncate (content : text) (target_tokens : Z) : text :=
  let target_chars := Z.max 1 (target_tokens * chars_per_token - 1) in
  if target_chars <=? text_length truncation_marker then text_prefix target_chars truncation_marker
  else text_prefix (target_chars - text_length truncation_marker) content ++ truncation_marker.

Definition truncation_candidate (i : ContextItem) : bool :=
  i.(truncatable) && has_text i.(content) && (i.(token_overhead) + 1 <? tokens i).

Definition truncation_key (e : nat * ContextItem) : list Z :=
  [e.2.(priority); freshness_order e.2.(freshness); - tokens e.2; Z.of_nat e.1].

(** The second loop; [None] when its bound was too small. *)
Fixpoint shorten (fuel : nat) (fixed available : Z) (selected : selection) (done : list TruncationDecision)
    : option (selection * list TruncationDecision) :=
  match fuel with
  | O => None
  | S fuel =>
      if total fixed selected <=? available then Some (selected, done)
      else match filter (λ e, truncation_candidate e.2 = true) selected with
           | [] => Some (selected, done)
           | c :: cs =>
               let '(index, item) := min_by truncation_key c cs in
               let excess := total fixed selected - available in
               let target := Z.max 1 (tokens item - excess) in
               let truncated := truncate item.(content) (Z.max 1 (target - item.(token_overhead))) in
               let n := estimate truncated + item.(token_overhead) in
               if tokens item <=? n then Some (selected, done)
               else shorten fuel fixed available
                      (dict_set index (item <| content := truncated |> <| token_estimate := Some n |>) selected)
                      (done ++ [mk_truncation item.(item_id) (tokens item) n "protected_or_required_item_truncated"])
           end
  end.

(** *** The snapshot *)

Definition count_in (st : dict ContextLayer LayerStatistics) (l : ContextLayer)
    (f : LayerStatistics → LayerStatistics) : dict ContextLayer LayerStatistics :=
  dict_set l (f (dict_get_default st l (mk_statistics 0 0 0))) st.

Definition layer_statistics (selected : list ContextItem) (excluded : list (ContextItem * string))
    : dict ContextLayer LayerStatistics :=
  let start := (λ l, (l, mk_statistics 0 0 0)) <$> layers in
  let included := foldl (λ st i, count_in st i.(layer) (λ c,
    mk_statistics (c.(included_items) + 1) c.(excluded_items) (c.(estimated_tokens) + tokens i))) start selected in
  foldl (λ st e, count_in st e.1.(layer) (λ c,
    mk_statistics c.(included_items) (c.(excluded_items) + 1) c.(estimated_tokens))) included excluded.

(** [sorted(excluded.items())], on distinct positions. *)
Fixpoint insert_position (e : nat * ContextItem) (l : selection) : selection :=
  match l with
  | [] => [e]
  | d :: l => if (e.1 <=? d.1)%nat then e :: d :: l else d :: insert_position e l
  end.
Definition by_position (l : selection) : selection := foldr insert_position [] l.

(** [compose]; [None] never happens. *)
Definition compose (r : ContextRequest) : res exn (option ContextSnapshot) :=
  let? normalized := normalize r.(items) in
  let available := Z.max 0 (r.(context_limit) - r.(output_reserve) - r.(safety_margin)) in
  let fixed := r.(fixed_input_tokens) in
  let start := zip (seq 0 (length normalized)) normalized in
  let '(kept, evicted) := evict (length normalized) fixed available start [] in
  Ok (match shorten (S (length normalized)) fixed available kept [] with
      | None => None
      | Some (selected, truncations) =>
          let selected_items := (by_position selected).*2 in
          let excluded := (λ e, (e.2, exclusion_reason e.2.(layer))) <$> by_position evicted in
          let estimated := total fixed selected in
          Some (mk_snapshot selected_items excluded estimated available fixed
                  (layer_statistics selected_items excluded) truncations true (Z.max 0 (estimated - available))
                  r.(context_limit) r.(output_reserve) r.(safety_margin))
      end).
End engine.

(** ** The projection of a task's state *)

Definition named (l : list string) : bool := match l with [] => false | _ => true end.
Definition commas (l : list string) : string := String.concat ", " l.

(** [value or ""], where only its truth matters. *)
Definition given (o : option string) : bool := match o with Some s => str_true s | None => false end.

Definition section_lines (title : string) (lines : list string) : list string :=
  if named lines then "" :: title :: lines else [].

Definition active_line (s : PlanStep) : string :=
  "- [active] " +:+ s.(ps_description) +:+
  (if named s.(ps_completion_criteria) then "; done when: " +:+ commas s.(ps_completion_criteria) else "").

Definition pending_line (s : PlanStep) : string :=
  "- [" +:+ plan_status_value s.(ps_status) +:+ "] " +:+ s.(ps_description) +:+
  (if named s.(ps_dependencies) then "; depends on: " +:+ commas s.(ps_dependencies) else "").

Definition plan_lines (st : WorkingState) : list string :=
  let pending := filter (λ s, s.(ps_status) = PENDING ∨ s.(ps_status) = BLOCKED) (dict_values st.(ws_plan_steps)) in
  section_lines "Plan:"
    (match current_step st with Some s => [active_line s] | None => [] end ++ (pending_line <$> pending)).

Definition discovery_line (d : Discovery) : string :=
  "- " +:+ d.(disc_summary) +:+
  (if given d.(disc_file_path) then
     " (" +:+ default "" d.(disc_file_path) +:+
     (if given d.(disc_symbol) then ": " +:+ default "" d.(disc_symbol) else "") +:+ ")"
   else "").

(** The line has an em dash before the summary. *)
Definition verification_line (st : WorkingState) (v : VerificationRecord) : text :=
  latin ("- " +:+ v.(ver_kind) +:+ ": " +:+ outcome_value v.(ver_outcome) +:+ " (" +:+ v.(ver_coverage) +:+
         " coverage, mutation generation " +:+ pretty v.(ver_mutation_generation) +:+ "/" +:+
         pretty st.(ws_mutation_generation) +:+ ")") ++
  (if given v.(ver_summary) then latin " " ++ 8212%N :: latin (" " +:+ default "" v.(ver_summary)) else []).

Definition join_lines (l : list text) : text :=
  match l with [] => [] | t :: l => t ++ mjoin ((λ t, 10%N :: t) <$> l) end.

(** The first line starts with two empty lines of its own. *)
Definition working_state_projection (st : WorkingState) : text :=
  let bullets := fmap (λ item, "- " +:+ item) in
  let before := section_lines "Constraints:" (bullets st.(ws_user_constraints)) ++
    section_lines "Acceptance criteria:" (bullets st.(ws_acceptance_criteria)) ++
    plan_lines st ++
    section_lines "Unresolved failures:"
      ((λ f, "- " +:+ f.(fl_category) +:+ ": " +:+ f.(fl_summary)) <$> unresolved_failures st) ++
    section_lines "Grounded discoveries:" (discovery_line <$> st.(ws_discoveries)) in
  join_lines (
    [10%N :: 10%N :: latin "## Current task state"; []; latin ("Objective: " +:+ st.(ws_objective))] ++
    (latin <$> before) ++
    match last st.(ws_verifications) with
    | Some v => [[]; latin "Verification:"; verification_line st v]
    | None => []
    end ++
    (if given st.(ws_checkpoint_id) then
       [[]; latin "Recovery:";
        latin ("- checkpoint " +:+ (if given st.(ws_checkpoint_status) then default "" st.(ws_checkpoint_status) else "unknown"))]
     else [])).

Definition working_state_context_item (st : WorkingState) : res exn ContextItem :=
  ContextItem_new (mk_item ("working-state:" +:+ st.(ws_task_id)) TASK_WORKING_STATE "working_state_projection"
    (working_state_projection st) 100 CURRENT true None 0 "authoritative task truth" None None true).
