(* ===== verification/ContextEngineFacts.v ===== *)
(** * Facts about the composition of the context

    The estimate of a truncated text, the groups of a selection, and the two
    loops. *)

From Stdlib Require Import Ascii.
From stdpp Require Import sorting.
From S2P Require Import Prelude Texts Values ContextEngine.

Open Scope py_scope.
#[local] Open Scope Z_scope.

Implicit Types (i : ContextItem) (e : nat * ContextItem) (sel : list (nat * ContextItem)).

(** ** Orders on keys *)

Lemma key_ltb_irrefl a : key_ltb a a = false.
Proof. induction a as [|x a IH]; [done|]. cbn. by rewrite Z.ltb_irrefl, Z.eqb_refl, IH. Qed.

Lemma key_ltb_trans a b c : key_ltb a b = true → key_ltb b c = true → key_ltb a c = true.
Proof.
  revert b c. induction a as [|x a IH]; intros [|y b] [|z c]; cbn; try done.
  rewrite !orb_true_iff, !andb_true_iff, !Z.ltb_lt, !Z.eqb_eq.
  intros [?|[-> ?]] [?|[<- ?]]; [left; lia|left; lia|left; lia|right; split; [done|by eapply IH]].
Qed.

(** On tuples of one length: smaller, larger or equal. *)
Lemma key_ltb_total a b : length a = length b → key_ltb a b = false → key_ltb b a = false → a = b.
Proof.
  revert b. induction a as [|x a IH]; intros [|y b]; cbn; try done. intros [= Hl].
  rewrite !orb_false_iff, !andb_false_iff, !Z.ltb_ge, !Z.eqb_neq.
  intros [H1 [?|H2]] [H3 [?|H4]]; try lia. assert (x = y) as -> by lia. f_equal. by apply IH.
Qed.

Lemma min_by_spec {A} (key : A → list Z) n best l :
  length (key best) = n → (∀ a, a ∈ l → length (key a) = n) →
  min_by key best l ∈ best :: l ∧ ∀ a, a ∈ best :: l → key_ltb (key a) (key (min_by key best l)) = false.
Proof.
  revert best. induction l as [|a l IH]; intros best Hb Hl; cbn [min_by].
  - split; [apply list_elem_of_here|]. intros a ->%list_elem_of_singleton. apply key_ltb_irrefl.
  - set (b := if key_ltb (key a) (key best) then a else best).
    assert (Hlen : length (key b) = n) by (unfold b; destruct (key_ltb _ _); [apply Hl, list_elem_of_here|done]).
    destruct (IH b Hlen) as [Hin Hmin]; [by intros x ?; apply Hl, list_elem_of_further|].
    split.
    + apply elem_of_cons in Hin as [->|?]; [unfold b; destruct (key_ltb _ _); set_solver|set_solver].
    + assert (Hbm : key_ltb (key b) (key (min_by key b l)) = false) by apply Hmin, list_elem_of_here.
      assert (Hcase : (key_ltb (key a) (key best) = true ∧ b = a) ∨ (key_ltb (key a) (key best) = false ∧ b = best))
        by (unfold b; destruct (key_ltb _ _); auto).
      assert (Hla : length (key a) = n) by apply Hl, list_elem_of_here.
      generalize dependent (min_by key b l). clearbody b. intros m Hin Hmin Hbm x. rewrite !elem_of_cons.
      intros [->|[->|Hx]]; [| |by apply Hmin, list_elem_of_further]; apply not_true_is_false; intros Hlt.
      * destruct Hcase as [[Hab ->]|[_ ->]]; [|congruence]. by rewrite (key_ltb_trans _ _ _ Hab Hlt) in Hbm.
      * destruct Hcase as [[_ ->]|[Hab ->]]; [congruence|].
        destruct (key_ltb (key best) (key a)) eqn:Hba; [by rewrite (key_ltb_trans _ _ _ Hba Hlt) in Hbm|].
        rewrite (key_ltb_total (key a) (key best)) in Hlt; [congruence|congruence|done|done].
Qed.

(** ** Sums *)

Lemma sum_tokens_app l l' : sum_tokens (l ++ l') = sum_tokens l + sum_tokens l'.
Proof. unfold sum_tokens. induction l as [|i l IH]; cbn; [done|]. rewrite IH. lia. Qed.

Lemma sum_tokens_perm l l' : l ≡ₚ l' → sum_tokens l = sum_tokens l'.
Proof. unfold sum_tokens. induction 1; cbn; lia. Qed.

(** Setting a position that is there replaces its entry. *)
Lemma dict_set_replace {V} (d : list (nat * V)) k v v0 :
  NoDup (dict_keys d) → dict_get d k = Some v0 →
  Forall2 (λ a b, b.1 = a.1 ∧ ((a.1 = k ∧ a.2 = v0 ∧ b.2 = v) ∨ (a.1 ≠ k ∧ b = a))) d (dict_set k v d).
Proof.
  induction d as [|[k' v'] d IH]; [done|]. rewrite dict_keys_cons. intros [Hn Hnd]%NoDup_cons. cbn.
  case_decide as Hk.
  - intros [= ->]. subst. constructor; [cbn; auto|].
    apply Forall2_same_length_lookup_2; [done|]. intros j a b Ha Hb. rewrite Ha in Hb. injection Hb as Heq. subst b. split; [done|]. right.
    split; [|done]. intros Heq. apply Hn. rewrite <- Heq. apply list_elem_of_lookup. exists j. unfold dict_keys. by rewrite list_lookup_fmap, Ha.
  - intros Hg. constructor; [cbn; auto|by apply IH].
Qed.

Lemma Forall2_then {A B C} (P : A → B → Prop) (Q : B → C → Prop) (R : A → C → Prop) l l' l'' :
  (∀ x y z, P x y → Q y z → R x z) → Forall2 P l l' → Forall2 Q l' l'' → Forall2 R l l''.
Proof.
  intros HPQ HP. revert l''. induction HP as [|x y l l' Hxy _ IH]; intros l'' HQ; inversion HQ; subst; constructor; eauto.
Qed.

(** ** Truncation *)

Section truncation.
  Context (chars_per_token : Z) (Hc : 2 ≤ chars_per_token).

#[local] Abbreviation estimate := (estimate chars_per_token).
#[local] Abbreviation truncate := (truncate chars_per_token).

Lemma prefix_length n (t : text) : 0 ≤ n → text_length (text_prefix n t) = Z.min n (text_length t).
Proof. intros Hn. unfold text_length, text_prefix. rewrite length_take. lia. Qed.

Lemma text_length_app (t t' : text) : text_length (t ++ t') = text_length t + text_length t'.
Proof. unfold text_length. rewrite length_app. lia. Qed.

Lemma text_length_nonneg (t : text) : 0 ≤ text_length t.
Proof. unfold text_length. lia. Qed.

Lemma truncate_length t n : 1 ≤ n → 1 ≤ text_length (truncate t n) ≤ n * chars_per_token - 1.
Proof using Hc.
  intros Hn. unfold ContextEngine.truncate. assert (H2 : 2 ≤ n * chars_per_token) by nia.
  rewrite Z.max_r by lia. assert (Hm : text_length truncation_marker = 35) by reflexivity. rewrite Hm.
  pose proof (text_length_nonneg t). destruct (Z.leb_spec (n * chars_per_token - 1) 35) as [H'|H'].
  - rewrite prefix_length, Hm by lia. lia.
  - rewrite text_length_app, prefix_length, Hm by lia. lia.
Qed.

Lemma has_text_length t : has_text t = true ↔ 1 ≤ text_length t.
Proof. unfold text_length. destruct t; cbn [has_text length]; (split; [intros ?; try done; lia|intros ?; try done; lia]). Qed.

(** A truncated text costs at most the tokens it was truncated to. *)
Lemma estimate_truncate t n : 1 ≤ n → 1 ≤ estimate (truncate t n) ≤ n.
Proof using Hc.
  intros Hn. pose proof (truncate_length t n Hn) as [H1 H2]. unfold ContextEngine.estimate.
  rewrite (proj2 (has_text_length _) H1).
  assert (text_length (truncate t n) / chars_per_token < n) by (apply Z.div_lt_upper_bound; lia).
  assert (0 ≤ text_length (truncate t n) / chars_per_token) by (apply Z.div_pos; lia). lia.
Qed.

(** What is kept of a text: a start of it before the notice, or a start of
    the notice alone. *)
Definition cut_of (t t' : text) : Prop :=
  ∃ k, t' = text_prefix k t ++ truncation_marker ∨ t' = text_prefix k truncation_marker.

Lemma truncate_cut t n : cut_of t (truncate t n).
Proof. unfold ContextEngine.truncate, cut_of. case_match; eexists; [by right|by left]. Qed.

(** *** The second loop *)

(** An entry is left alone, or was a candidate and is cut and cheaper. *)
Definition shortened e e' : Prop :=
  e' = e ∨
  (truncation_candidate e.2 = true ∧ e'.1 = e.1 ∧
   e'.2 = e.2 <| content := e'.2.(content) |> <| token_estimate := Some (tokens e'.2) |> ∧
   cut_of e.2.(content) e'.2.(content) ∧ 0 ≤ tokens e'.2 < tokens e.2).

Definition candidates sel : list (nat * ContextItem) := filter (λ e, truncation_candidate e.2 = true) sel.

(** The item that is cut, and its new estimate. *)
Definition cut_item i (excess : Z) : ContextItem :=
  let target := Z.max 1 (tokens i - excess) in
  let t := truncate i.(content) (Z.max 1 (target - i.(token_overhead))) in
  i <| content := t |> <| token_estimate := Some (estimate t + i.(token_overhead)) |>.

Lemma cut_item_tokens i excess :
  truncation_candidate i = true → 0 ≤ i.(token_overhead) → 1 ≤ excess →
  0 ≤ tokens (cut_item i excess) < tokens i ∧
  (tokens (cut_item i excess) ≤ tokens i - excess ∨ truncation_candidate (cut_item i excess) = false).
Proof using Hc.
  unfold truncation_candidate. intros [_ Hlt%Z.ltb_lt]%andb_true_iff Ho He. unfold cut_item.
  set (target := Z.max 1 (tokens i - excess)). set (n := Z.max 1 (target - i.(token_overhead))).
  pose proof (estimate_truncate i.(content) n ltac:(lia)) as [H1 H2]. cbn.
  change (tokens (i <| content := truncate i.(content) n |> <| token_estimate := Some (estimate (truncate i.(content) n) + i.(token_overhead)) |>))
    with (estimate (truncate i.(content) n) + i.(token_overhead)).
  split; [lia|]. destruct (decide (estimate (truncate (content i) n) + token_overhead i ≤ tokens i - excess)); [by left|].
  right. apply andb_false_iff. right. apply Z.ltb_ge. cbn. lia.
Qed.

Lemma total_update fixed sel index i i' :
  NoDup (dict_keys sel) → dict_get sel index = Some i →
  total fixed (dict_set index i' sel) = total fixed sel - tokens i + tokens i'.
Proof.
  clear Hc. unfold total, sum_tokens. induction sel as [|[k v] sel IH]; [done|]. rewrite dict_keys_cons. intros [Hn Hnd]%NoDup_cons.
  cbn. case_decide.
  - intros [= ->]. cbn. lia.
  - intros Hg. cbn. specialize (IH Hnd Hg). lia.
Qed.

Lemma candidates_cons e sel :
  candidates (e :: sel) = if truncation_candidate e.2 then e :: candidates sel else candidates sel.
Proof. clear Hc. unfold candidates. rewrite filter_cons. by destruct (truncation_candidate e.2). Qed.

Lemma candidates_update sel index i i' :
  NoDup (dict_keys sel) → dict_get sel index = Some i → truncation_candidate i = true →
  (length (candidates (dict_set index i' sel)) ≤ length (candidates sel))%nat ∧
  (truncation_candidate i' = false → (length (candidates (dict_set index i' sel)) < length (candidates sel))%nat).
Proof.
  clear Hc. intros Hnd Hg Hi. revert Hnd Hg.
  induction sel as [|[k v] sel IH]; [done|]. rewrite dict_keys_cons. intros [Hn Hnd]%NoDup_cons. cbn [dict_get dict_set].
  case_decide.
  - intros [= ->]. rewrite !candidates_cons. cbn [snd]. rewrite Hi. destruct (truncation_candidate i'); cbn [length]; split; lia || done.
  - intros Hg. rewrite !candidates_cons. cbn [snd]. destruct (IH Hnd Hg) as [H1 H2]. destruct (truncation_candidate v); cbn [length]; split; try intros Hf; try specialize (H2 Hf); lia.
Qed.

Lemma dict_get_entry sel e : NoDup (dict_keys sel) → e ∈ sel → dict_get sel e.1 = Some e.2.
Proof. clear Hc. intros Hnd He. apply dict_elem_get; [done|]. by destruct e. Qed.

Lemma shortened_set sel index i i' :
  NoDup (dict_keys sel) → dict_get sel index = Some i → shortened (index, i) (index, i') →
  Forall2 shortened sel (dict_set index i' sel).
Proof.
  clear Hc. intros Hnd Hg Hs. eapply Forall2_impl; [by apply dict_set_replace|].
  intros [k v] [k' v'] [Hk [(H1 & H2 & H3)|[_ H]]]; cbn in *; subst; [exact Hs|]. left. exact H.
Qed.

Lemma shortened_then sel index i i' sel' :
  NoDup (dict_keys sel) → dict_get sel index = Some i → shortened (index, i) (index, i') →
  truncation_candidate i' = false → Forall2 shortened (dict_set index i' sel) sel' → Forall2 shortened sel sel'.
Proof.
  clear Hc. intros Hnd Hg Hs Hno Hf. eapply Forall2_then; [|by apply (dict_set_replace sel index i' i)|exact Hf].
  intros [k v] [k1 v1] e' [Hk [(H1 & H2 & H3)|[_ H]]] He'; cbn in *; simplify_eq; [|done].
  destruct He' as [->|[Hcand _]]; [exact Hs|]. cbn in Hcand. congruence.
Qed.

Lemma shortened_overhead sel sel' :
  Forall2 shortened sel sel' → Forall (λ e, 0 ≤ e.2.(token_overhead)) sel → Forall (λ e, 0 ≤ e.2.(token_overhead)) sel'.
Proof.
  clear Hc. induction 1 as [|e e' l l' He _ IH]; [done|]. intros [Ho1 Ho]%Forall_cons. constructor; [|auto].
  destruct He as [->|(_ & _ & Heq & _)]; [done|]. by rewrite Heq.
Qed.

Lemma shorten_step fuel fixed available sel done :
  shorten chars_per_token (S fuel) fixed available sel done =
    if total fixed sel <=? available then Some (sel, done)
    else match candidates sel with
         | [] => Some (sel, done)
         | c :: cs =>
             let e := min_by truncation_key c cs in
             let i' := cut_item e.2 (total fixed sel - available) in
             if tokens e.2 <=? tokens i' then Some (sel, done)
             else shorten chars_per_token fuel fixed available (dict_set e.1 i' sel)
                    (done ++ [mk_truncation e.2.(item_id) (tokens e.2) (tokens i') "protected_or_required_item_truncated"])
         end.
Proof.
  clear Hc. cbn [shorten]. fold (candidates sel). destruct (_ <=? _); [done|]. destruct (candidates sel) as [|c cs]; [done|].
  cbn zeta. destruct (min_by truncation_key c cs) as [index item]. done.
Qed.

Lemma truncation_key_min c cs : min_by truncation_key c cs ∈ c :: cs.
Proof. clear Hc. by apply (min_by_spec truncation_key 4). Qed.

Definition fits fixed available sel : Prop := total fixed sel ≤ available ∨ candidates sel = [].

Lemma shorten_spec fuel fixed available sel done :
  NoDup (dict_keys sel) → Forall (λ e, 0 ≤ e.2.(token_overhead)) sel → (length (candidates sel) < fuel)%nat →
  ∃ sel' done', shorten chars_per_token fuel fixed available sel done = Some (sel', done') ∧
    Forall2 shortened sel sel' ∧ fits fixed available sel' ∧
    (total fixed sel ≤ available → sel' = sel ∧ done' = done).
Proof using Hc.
  revert sel done. induction fuel as [|fuel IH]; intros sel dn Hnd Ho Hfuel; [lia|]. rewrite shorten_step.
  assert (Hrefl : Forall2 shortened sel sel) by (apply Forall_Forall2_diag, Forall_true; by left).
  destruct (Z.leb_spec (total fixed sel) available) as [Hle|Hgt].
  { exists sel, dn. split_and!; [done|done|by left|done]. }
  destruct (candidates sel) as [|c cs] eqn:Hcand.
  { exists sel, dn. split_and!; [done|done|by right|lia]. }
  cbn zeta. pose proof (truncation_key_min c cs) as Hin. rewrite <- Hcand in Hin.
  destruct (min_by truncation_key c cs) as [index i]. cbn [fst snd]. unfold candidates in Hin.
  apply list_elem_of_filter in Hin as [Hi Hin]. cbn in Hi.
  pose proof (dict_get_entry _ _ Hnd Hin) as Hg. cbn in Hg.
  assert (Hov : 0 ≤ i.(token_overhead)) by (rewrite Forall_forall in Ho; exact (Ho _ Hin)).
  set (excess := total fixed sel - available). set (i' := cut_item i excess).
  destruct (cut_item_tokens i excess Hi Hov ltac:(unfold excess; lia)) as [Hlt Hor]. fold i' in Hlt, Hor.
  destruct (Z.leb_spec (tokens i) (tokens i')); [lia|].
  set (sel1 := dict_set index i' sel). set (dn1 := dn ++ _).
  assert (Hsh : shortened (index, i) (index, i')).
  { right. split; [exact Hi|]. split; [done|]. split; [done|]. split; [apply truncate_cut|exact Hlt]. }
  assert (Hf1 : Forall2 shortened sel sel1) by by eapply shortened_set.
  pose proof (candidates_update sel index i i' Hnd Hg Hi) as [Hc1 Hc2].
  destruct Hor as [Hfit|Hno].
  - exists sel1, dn1. assert (Ht : total fixed sel1 ≤ available).
    { unfold sel1. rewrite (total_update _ _ _ _ _ Hnd Hg). unfold excess in Hfit. lia. }
    split_and!; [|done|by left|lia]. destruct fuel as [|fuel]; [cbn in Hfuel; lia|]. rewrite shorten_step.
    by rewrite (proj2 (Z.leb_le _ _) Ht).
  - destruct (IH sel1 dn1) as (sel' & dn' & Hrun & Hsh' & Hfits & _).
    + unfold sel1. rewrite dict_keys_set_old; [done|]. apply dict_get_is_Some. by eexists.
    + by eapply shortened_overhead.
    + specialize (Hc2 Hno). rewrite Hcand in Hc2. cbn in Hc2, Hfuel. unfold sel1. lia.
    + exists sel', dn'. split_and!; [done| |done|lia]. by eapply shortened_then.
Qed.
End truncation.

(** ** Eviction *)

(** The entries of a group, and those of no group of a list. *)
Definition members (g : string) sel : list (nat * ContextItem) := filter (λ e, group_of e = g) sel.
Definition outside (gs : list string) sel : list (nat * ContextItem) := filter (λ e, group_of e ∉ gs) sel.
Definition inside (gs : list string) sel : list (nat * ContextItem) := filter (λ e, group_of e ∈ gs) sel.

Lemma grouped_keys groups sel : NoDup (dict_keys groups) → NoDup (dict_keys (grouped groups sel)).
Proof. revert groups. induction sel as [|e sel IH]; intros groups Hn; [done|]. cbn [grouped]. by apply IH, NoDup_dict_set. Qed.

Lemma grouped_get groups sel g :
  dict_get_default (grouped groups sel) g [] = dict_get_default groups g [] ++ members g sel.
Proof.
  revert groups. induction sel as [|e sel IH]; intros groups; [by rewrite app_nil_r|]. cbn [grouped]. rewrite IH.
  unfold members. rewrite filter_cons. unfold dict_get_default. destruct (decide (group_of e = g)) as [<-|Hd].
  - rewrite dict_get_set_eq. cbn. by rewrite <- app_assoc.
  - by rewrite dict_get_set_ne.
Qed.

Lemma grouped_in groups sel g :
  g ∈ dict_keys (grouped groups sel) ↔ g ∈ dict_keys groups ∨ members g sel ≠ [].
Proof.
  revert groups. induction sel as [|e sel IH]; intros groups; [cbn; tauto|]. cbn [grouped]. rewrite IH, dict_keys_set.
  unfold members. rewrite filter_cons. destruct (decide (group_of e = g)) as [<-|Hd]; [|by split; [intros [[->|?]|?]; auto|intros [?|?]; auto]].
  split; [by right|]. intros _. left. by left.
Qed.

Lemma grouped_elem sel g M : (g, M) ∈ grouped [] sel ↔ M = members g sel ∧ M ≠ [].
Proof.
  pose proof (grouped_keys [] sel (NoDup_nil_2)) as Hn. pose proof (grouped_get [] sel g) as Hg.
  pose proof (grouped_in [] sel g) as Hin. unfold dict_get_default in Hg. cbn in Hg. split.
  - intros H. pose proof (dict_elem_get _ _ _ Hn H) as Hd. rewrite Hd in Hg. cbn in Hg. subst M. split; [done|].
    assert (g ∈ dict_keys (grouped [] sel)) as [?|?]%Hin by (apply list_elem_of_fmap; by exists (g, members g sel)); [set_solver|done].
  - intros [-> Hne]. destruct (dict_get (grouped [] sel) g) as [M|] eqn:Hd.
    + cbn in Hg. subst M. by apply dict_get_elem.
    + exfalso. by apply Hne.
Qed.

(** A group that may leave, and one that no other such group is below. *)
Definition may_leave sel (g : string) : Prop := members g sel ≠ [] ∧ evictable (members g sel) = true.

Definition cheapest sel (g : string) : Prop :=
  may_leave sel g ∧ ∀ g', may_leave sel g' → key_ltb (group_key (members g' sel)) (group_key (members g sel)) = false.

Lemma evictable_groups_elem sel k ixs :
  (k, ixs) ∈ evictable_groups sel ↔ ∃ g, may_leave sel g ∧ k = group_key (members g sel) ∧ ixs = (members g sel).*1.
Proof.
  unfold evictable_groups, may_leave. rewrite list_elem_of_omap. split.
  - intros ([g M] & [-> Hne]%grouped_elem & H). cbn in H. destruct (evictable _) eqn:He; [|done]. simplify_eq. eauto 6.
  - intros (g & [Hne He] & -> & ->). exists (g, members g sel). split; [by apply grouped_elem|]. cbn. by rewrite He.
Qed.

Lemma no_evictable_groups sel : evictable_groups sel = [] ↔ ∀ g, ¬ may_leave sel g.
Proof.
  split.
  - intros Hn g Hg. assert ((group_key (members g sel), (members g sel).*1) ∈ evictable_groups sel) as Hin
      by (apply evictable_groups_elem; eauto). rewrite Hn in Hin. by apply elem_of_nil in Hin.
  - intros Hn. destruct (evictable_groups sel) as [|[k ixs] l] eqn:Hl; [done|].
    destruct (proj1 (evictable_groups_elem sel k ixs)) as (g & Hg & _); [rewrite Hl; apply list_elem_of_here|by destruct (Hn g)].
Qed.

Lemma cheapest_of_groups sel p l :
  evictable_groups sel = p :: l → ∃ g, cheapest sel g ∧ (min_by fst p l).2 = (members g sel).*1.
Proof.
  intros Hl. destruct (min_by_spec fst 4 p l) as [Hin Hmin].
  - assert (Hp : p ∈ evictable_groups sel) by (rewrite Hl; apply list_elem_of_here). destruct p.
    apply evictable_groups_elem in Hp as (g & _ & -> & _). done.
  - intros [k ixs] Ha. assert (Hp : (k, ixs) ∈ evictable_groups sel) by (rewrite Hl; by apply list_elem_of_further).
    apply evictable_groups_elem in Hp as (g & _ & -> & _). done.
  - rewrite <- Hl in Hin, Hmin. destruct (min_by fst p l) as [k ixs].
    apply evictable_groups_elem in Hin as (g & Hg & -> & ->). exists g. split; [|done]. split; [done|].
    intros g' Hg'. apply (Hmin (_, (members g' sel).*1)). apply evictable_groups_elem. eauto.
Qed.

(** A position stands for its entry. *)
Lemma members_positions g sel e :
  NoDup (dict_keys sel) → e ∈ sel → e.1 ∈ (members g sel).*1 ↔ group_of e = g.
Proof.
  intros Hnd He. unfold members. rewrite list_elem_of_fmap. split; [|intros ?; exists e; split; [done|by apply list_elem_of_filter]].
  intros (e' & Heq & [Hg He']%list_elem_of_filter). rewrite <- Hg. f_equal.
  pose proof (dict_get_entry _ _ Hnd He) as H1. pose proof (dict_get_entry _ _ Hnd He') as H2.
  destruct e as [j i], e' as [j' i']. cbn in *. congruence.
Qed.

Lemma filter_same {A} (P Q : A → Prop) `{∀ a, Decision (P a)} `{∀ a, Decision (Q a)} (l : list A) :
  (∀ a, a ∈ l → P a ↔ Q a) → filter P l = filter Q l.
Proof.
  induction l as [|a l IH]; intros Hl; [done|]. rewrite !filter_cons. pose proof (Hl a (list_elem_of_here _ _)) as Ha.
  rewrite IH by (intros b Hb; by apply Hl, list_elem_of_further). case_decide; case_decide; tauto || done.
Qed.

Lemma without_members g sel : NoDup (dict_keys sel) → without (members g sel).*1 sel = outside [g] sel.
Proof. intros Hnd. apply filter_same. intros e He. rewrite (members_positions g sel e) by done. by rewrite list_elem_of_singleton. Qed.

Lemma taken_members g sel : NoDup (dict_keys sel) → taken (members g sel).*1 sel = members g sel.
Proof. intros Hnd. apply filter_same. intros e He. by rewrite (members_positions g sel e). Qed.

Lemma filter_filter {A} (P Q R : A → Prop) `{∀ a, Decision (P a)} `{∀ a, Decision (Q a)} `{∀ a, Decision (R a)} (l : list A) :
  (∀ a, P a ∧ Q a ↔ R a) → filter P (filter Q l) = filter R l.
Proof.
  intros HR. induction l as [|a l IH]; [done|]. rewrite !filter_cons. pose proof (HR a).
  destruct (decide (Q a)); [rewrite filter_cons|]; repeat case_decide; rewrite ?IH; tauto || done.
Qed.

Lemma outside_cons g gs sel : outside (g :: gs) sel = outside gs (outside [g] sel).
Proof. symmetry. apply filter_filter. intros e. rewrite (elem_of_cons gs), (list_elem_of_singleton (group_of e) g). tauto. Qed.

Lemma members_outside g gs sel : g ∉ gs → members g (outside gs sel) = members g sel.
Proof. intros Hg. apply filter_filter. intros e. split; [by intros [? _]|]. by intros <-. Qed.

Lemma members_left g gs sel : g ∈ gs → members g (outside gs sel) = [].
Proof.
  intros Hg. destruct (members g (outside gs sel)) as [|e l] eqn:Hm; [done|]. exfalso.
  assert (e ∈ members g (outside gs sel)) as [<- [Hn _]%list_elem_of_filter]%list_elem_of_filter by (rewrite Hm; apply list_elem_of_here).
  done.
Qed.

Lemma NoDup_outside gs sel : NoDup (dict_keys sel) → NoDup (dict_keys (outside gs sel)).
Proof. intros Hnd. eapply sublist_NoDup; [exact Hnd|]. apply fmap_sublist, sublist_filter. Qed.

(** *** The first loop, as turns *)

Inductive evictions (fixed available : Z) : list (nat * ContextItem) → list string → list (nat * ContextItem) → Prop :=
  | evictions_end sel :
      total fixed sel ≤ available ∨ (∀ g, ¬ may_leave sel g) → evictions fixed available sel [] sel
  | evictions_turn sel g gs sel' :
      available < total fixed sel → cheapest sel g → evictions fixed available (outside [g] sel) gs sel' →
      evictions fixed available sel (g :: gs) sel'.

Lemma outside_shorter g sel : members g sel ≠ [] → (length (outside [g] sel) < length sel)%nat.
Proof.
  intros Hm. unfold outside. destruct (members g sel) as [|e l] eqn:He; [done|].
  assert (e ∈ members g sel) as [Hg Hin]%list_elem_of_filter by (rewrite He; apply list_elem_of_here).
  apply length_filter_lt with e; [done|]. rewrite list_elem_of_singleton. by intros Hn.
Qed.

Lemma evict_step fuel fixed available sel excluded :
  NoDup (dict_keys sel) →
  (evict (S fuel) fixed available sel excluded = (sel, excluded) ∧
     (total fixed sel ≤ available ∨ ∀ g, ¬ may_leave sel g)) ∨
  ∃ g, available < total fixed sel ∧ cheapest sel g ∧
    evict (S fuel) fixed available sel excluded =
      evict fuel fixed available (outside [g] sel) (excluded ++ members g sel).
Proof.
  intros Hnd. cbn [evict]. destruct (Z.leb_spec (total fixed sel) available) as [Hle|Hgt]; [by left; auto|].
  destruct (evictable_groups sel) as [|p l] eqn:Hl; [left; split; [done|right; by apply no_evictable_groups]|].
  destruct (cheapest_of_groups _ _ _ Hl) as (g & Hg & Heq). right. exists g. split; [done|]. split; [done|].
  cbn zeta. by rewrite Heq, without_members, taken_members.
Qed.

Lemma outside_nil sel : outside [] sel = sel.
Proof. unfold outside. induction sel as [|e sel IH]; [done|]. rewrite filter_cons, decide_True by apply not_elem_of_nil. by rewrite IH. Qed.

Lemma may_leave_outside sel gs g : may_leave (outside gs sel) g ↔ (g ∉ gs) ∧ may_leave sel g.
Proof.
  unfold may_leave. destruct (decide (g ∈ gs)) as [Hin|Hout]; [|rewrite members_outside by done; tauto].
  rewrite members_left by done. tauto.
Qed.

(** The groups that left are distinct, could leave, and are all that left. *)
Lemma evictions_groups fixed available sel gs sel' :
  evictions fixed available sel gs sel' → NoDup gs ∧ sel' = outside gs sel ∧ ∀ g, g ∈ gs → may_leave sel g.
Proof.
  induction 1 as [sel Hend|sel g gs sel' Hgt Hg _ (Hnd & -> & Hall)].
  - split_and!; [constructor|by rewrite outside_nil|by intros g ?%elem_of_nil].
  - assert (Hgs : g ∉ gs) by (intros [Hn _]%Hall%may_leave_outside; apply Hn, list_elem_of_singleton; done).
    split_and!; [by constructor|by rewrite <- outside_cons|]. intros g' [->|[_ H]%Hall%may_leave_outside]%elem_of_cons; [apply Hg|done].
Qed.

(** Each left while the rest did not fit, and was the cheapest of the rest. *)
Lemma evictions_order fixed available sel gs sel' :
  evictions fixed available sel gs sel' →
  ∀ gs1 g gs2, gs = gs1 ++ g :: gs2 →
    available < total fixed (outside gs1 sel) ∧
    ∀ g', g' ∉ gs1 → may_leave sel g' → key_ltb (group_key (members g' sel)) (group_key (members g sel)) = false.
Proof.
  induction 1 as [sel Hend|sel g0 gs sel' Hgt Hg Hev IH]; intros gs1 g gs2 Heq; [by destruct gs1|].
  destruct gs1 as [|g1 gs1]; apply cons_eq_inj in Heq as [-> Heq].
  - split; [by rewrite outside_nil|]. intros g' _. apply Hg.
  - destruct (IH _ _ _ Heq) as [Ht Hmin]. rewrite outside_cons. split; [done|].
    intros g' [Hne Hn]%not_elem_of_cons Hg'. destruct (evictions_groups _ _ _ _ _ Hev) as (_ & _ & Hall).
    destruct (proj1 (may_leave_outside sel [g1] g) (Hall g ltac:(rewrite Heq; set_solver))) as [Hgg _].
    rewrite <- (members_outside g' [g1]), <- (members_outside g [g1]) by set_solver.
    apply Hmin; [done|]. apply may_leave_outside. split; [set_solver|done].
Qed.

Lemma evictions_stop fixed available sel gs sel' :
  evictions fixed available sel gs sel' → total fixed sel' ≤ available ∨ ∀ g, ¬ may_leave sel' g.
Proof. by induction 1. Qed.

Lemma evict_run fuel fixed available sel excluded :
  NoDup (dict_keys sel) → (length sel ≤ fuel)%nat →
  ∃ gs sel', evict fuel fixed available sel excluded = (sel', excluded ++ concat ((λ g, members g sel) <$> gs)) ∧
    evictions fixed available sel gs sel'.
Proof.
  revert sel excluded. induction fuel as [|fuel IH]; intros sel excluded Hnd Hf.
  - destruct sel; [|cbn in Hf; lia]. exists [], []. cbn. rewrite app_nil_r. split; [done|]. constructor. right.
    intros g [Hne _]. by apply Hne.
  - destruct (evict_step fuel fixed available sel excluded Hnd) as [[-> Hend]|(g & Hgt & Hg & ->)].
    + exists [], sel. cbn. rewrite app_nil_r. split; [done|]. by constructor.
    + pose proof (outside_shorter g sel (proj1 (proj1 Hg))) as Hs.
      destruct (IH (outside [g] sel) (excluded ++ members g sel)) as (gs & sel' & -> & Hev); [by apply NoDup_outside|lia|].
      exists (g :: gs), sel'. split; [|by econstructor]. f_equal. rewrite <- app_assoc, fmap_cons. cbn [concat]. do 3 f_equal.
      apply list_fmap_ext. intros k g' Hk. apply members_outside. destruct (evictions_groups _ _ _ _ _ Hev) as (_ & _ & Hall).
      by apply (may_leave_outside sel [g] g'), Hall, list_elem_of_lookup_2 with k.
Qed.

(** ** The caller's order *)

Definition before e e' : Prop := (e.1 < e'.1)%nat.
Definition entries (l : list ContextItem) : list (nat * ContextItem) := zip (seq 0 (length l)) l.

#[export] Instance before_antisymm : AntiSymm (=) before.
Proof. intros [j i] [j' i']. unfold before. cbn. intros ??. exfalso. lia. Qed.

Lemma entries_snd l : (entries l).*2 = l.
Proof. unfold entries. apply snd_zip. by rewrite length_seq. Qed.

Lemma entries_fst l : dict_keys (entries l) = seq 0 (length l).
Proof. unfold entries. apply fst_zip. by rewrite length_seq. Qed.

Lemma entries_NoDup l : NoDup (dict_keys (entries l)).
Proof. rewrite entries_fst. apply NoDup_seq. Qed.

Lemma dict_keys_cons_fst e sel : dict_keys (e :: sel) = e.1 :: dict_keys sel.
Proof. done. Qed.

Lemma StronglySorted_fst sel : StronglySorted before sel ↔ StronglySorted lt (dict_keys sel).
Proof.
  induction sel as [|e sel IH]; [by split; constructor|]. rewrite (dict_keys_cons_fst e).
  split; intros [Hs Hall]%StronglySorted_inv; (constructor; [by apply IH|]).
  - exact (proj2 (List.Forall_map _ _ _) Hall).
  - exact (proj1 (List.Forall_map _ _ _) Hall).
Qed.

Lemma StronglySorted_filter {A} (R : A → A → Prop) (P : A → Prop) `{∀ a, Decision (P a)} l :
  StronglySorted R l → StronglySorted R (filter P l).
Proof.
  induction 1 as [|a l _ IH Ha]; [constructor|]. rewrite filter_cons. case_decide; [|done].
  constructor; [done|]. rewrite Forall_forall in *. intros b [_ Hb]%list_elem_of_filter. by apply Ha.
Qed.

Lemma seq_sorted n m : StronglySorted lt (seq n m).
Proof.
  revert n. induction m as [|m IH]; intros n; cbn; constructor; [done|]. apply Forall_forall. intros j Hj%elem_of_seq. lia.
Qed.

Lemma entries_sorted l : StronglySorted before (entries l).
Proof. apply StronglySorted_fst. rewrite entries_fst. apply seq_sorted. Qed.

Lemma insert_position_perm e sel : insert_position e sel ≡ₚ e :: sel.
Proof. induction sel as [|d sel IH]; cbn; [done|]. case_match; [done|]. rewrite IH. by apply Permutation_swap. Qed.

Lemma by_position_perm sel : by_position sel ≡ₚ sel.
Proof. unfold by_position. induction sel as [|e sel IH]; cbn; [done|]. by rewrite insert_position_perm, IH. Qed.

Lemma insert_position_sorted e sel :
  e.1 ∉ dict_keys sel → StronglySorted before sel → StronglySorted before (insert_position e sel).
Proof.
  intros He. induction 1 as [|d sel Hs IH Hd]; cbn; [by repeat constructor|]. rewrite (dict_keys_cons_fst d) in He.
  apply not_elem_of_cons in He as [Hne He]. destruct (Nat.leb_spec e.1 d.1).
  - constructor; [by constructor|]. constructor; [unfold before; lia|].
    eapply Forall_impl; [exact Hd|]. unfold before. intros ?. lia.
  - constructor; [by apply IH|]. rewrite insert_position_perm. constructor; [unfold before; lia|done].
Qed.

Lemma by_position_sorted sel : NoDup (dict_keys sel) → StronglySorted before (by_position sel).
Proof.
  induction sel as [|e sel IH]; [constructor|]. rewrite (dict_keys_cons_fst e). intros [He Hnd]%NoDup_cons. cbn.
  apply insert_position_sorted; [|by apply IH]. unfold dict_keys. change (foldr insert_position [] sel) with (by_position sel).
  by rewrite by_position_perm.
Qed.

(** Sorting gives the one sorted list of these entries. *)
Lemma by_position_eq sel sel' : StronglySorted before sel' → NoDup (dict_keys sel) → sel ≡ₚ sel' → by_position sel = sel'.
Proof.
  intros Hs Hnd Hp. apply (StronglySorted_unique before); [by apply by_position_sorted|done|]. by rewrite by_position_perm.
Qed.

Lemma outside_sorted gs l : StronglySorted before (outside gs (entries l)).
Proof. apply StronglySorted_filter, entries_sorted. Qed.

Lemma members_concat gs sel : NoDup gs → concat ((λ g, members g sel) <$> gs) ≡ₚ inside gs sel.
Proof.
  induction 1 as [|g gs Hg _ IH]; cbn.
  - unfold inside. induction sel as [|e sel IH]; [done|]. rewrite filter_cons, decide_False by apply not_elem_of_nil. done.
  - rewrite IH. clear IH. unfold inside, members. induction sel as [|e sel IH]; [done|]. rewrite !filter_cons.
    destruct (decide (group_of e = g)) as [<-|Hne].
    + rewrite (decide_True (P := _ ∈ _ :: _)) by apply list_elem_of_here. rewrite decide_False by done. cbn. by rewrite IH.
    + destruct (decide (group_of e ∈ gs)).
      * rewrite (decide_True (P := _ ∈ _ :: _)) by by apply list_elem_of_further. by rewrite <- Permutation_middle, IH.
      * by rewrite (decide_False (P := _ ∈ _ :: _)) by by apply not_elem_of_cons.
Qed.

(** ** Composition *)

Lemma normalize_from_spec c ids l l' :
  normalize_from c ids l = Ok l' →
  Forall2 (λ i i', i' = i <| token_estimate := Some (tokens i') |> ∧
                   tokens i' = match i.(token_estimate) with
                               | Some n => n | None => estimate c i.(content) + i.(token_overhead) end) l l'.
Proof.
  revert ids l'. induction l as [|i l IH]; intros ids l'; cbn [normalize_from]; [by intros [= <-]|].
  intros (_ & _ & H)%rbind_Ok. apply rbind_Ok in H as (rest & Hrest & [= <-]). constructor; [done|by eapply IH].
Qed.

(** Distinct identifiers are what normalization asks for. *)
Lemma normalize_from_Ok c ids l :
  NoDup ((item_id <$> l) ++ ids) → ∃ l', normalize_from c ids l = Ok l'.
Proof.
  revert ids. induction l as [|i l IH]; intros ids; cbn [normalize_from fmap list_fmap app]; [by eexists|].
  intros [Hi Hnd]%NoDup_cons. rewrite bool_decide_false by set_solver. cbn [negb rguard rbind].
  destruct (IH (i.(item_id) :: ids)) as [l' ->]; [|by eexists]. rewrite <- Permutation_middle. by apply NoDup_cons.
Qed.

Lemma candidates_length sel : (length (candidates sel) ≤ length sel)%nat.
Proof. apply length_filter. Qed.

Lemma length_outside gs sel : (length (outside gs sel) ≤ length sel)%nat.
Proof. apply length_filter. Qed.

Lemma length_entries l : length (entries l) = length l.
Proof. unfold entries. rewrite length_zip, length_seq. lia. Qed.

Lemma shortened_keys sel sel' : Forall2 shortened sel sel' → dict_keys sel' = dict_keys sel.
Proof.
  induction 1 as [|e e' l l' He _ IH]; [done|]. rewrite !dict_keys_cons_fst, IH. f_equal.
  by destruct He as [->|(_ & -> & _)].
Qed.

Definition available_of (r : ContextRequest) : Z := Z.max 0 (r.(context_limit) - r.(output_reserve) - r.(safety_margin)).

Definition excluded_of (gs : list string) (l : list ContextItem) : list (ContextItem * string) :=
  (λ e, (e.2, exclusion_reason e.2.(layer))) <$> inside gs (entries l).

Lemma compose_run c r l :
  2 ≤ c → normalize c r.(items) = Ok l → Forall (λ i, 0 ≤ i.(token_overhead)) l →
  ∃ gs sel dn,
    evictions r.(fixed_input_tokens) (available_of r) (entries l) gs (outside gs (entries l)) ∧
    Forall2 shortened (outside gs (entries l)) sel ∧
    fits r.(fixed_input_tokens) (available_of r) sel ∧
    (total r.(fixed_input_tokens) (outside gs (entries l)) ≤ available_of r → sel = outside gs (entries l) ∧ dn = []) ∧
    compose c r = Ok (Some (mk_snapshot sel.*2 (excluded_of gs l) (total r.(fixed_input_tokens) sel) (available_of r)
      r.(fixed_input_tokens) (layer_statistics sel.*2 (excluded_of gs l)) dn true
      (Z.max 0 (total r.(fixed_input_tokens) sel - available_of r)) r.(context_limit) r.(output_reserve) r.(safety_margin))).
Proof.
  intros Hc Hl Ho. set (fixed := r.(fixed_input_tokens)). set (available := available_of r).
  destruct (evict_run (length l) fixed available (entries l) [] (entries_NoDup l)) as (gs & kept & Hrun & Hev); [by rewrite length_entries|].
  destruct (evictions_groups _ _ _ _ _ Hev) as (Hnd & -> & _).
  assert (Hok : Forall (λ e, 0 ≤ e.2.(token_overhead)) (outside gs (entries l))).
  { apply Forall_forall. intros e [_ He]%list_elem_of_filter. refine (proj1 (Forall_forall _ _) Ho _ _). rewrite <- entries_snd. by apply list_elem_of_fmap_2. }
  destruct (shorten_spec c Hc (S (length l)) fixed available (outside gs (entries l)) []) as (sel & dn & Hsh & Hf & Hfits & Hsame).
  { apply NoDup_outside, entries_NoDup. }
  { exact Hok. }
  { pose proof (candidates_length (outside gs (entries l))). pose proof (length_outside gs (entries l)). rewrite length_entries in *. lia. }
  exists gs, sel, dn. split_and!; [done..|]. unfold compose. rewrite Hl. cbn [rbind]. fold (entries l).
  change (Z.max 0 (context_limit r - output_reserve r - safety_margin r)) with available. fold fixed.
  rewrite app_nil_l in Hrun. rewrite Hrun. rewrite Hsh. cbn zeta. unfold excluded_of.
  rewrite (by_position_eq (concat _) (inside gs (entries l))).
  - rewrite (by_position_eq sel sel); [done| |by rewrite (shortened_keys _ _ Hf); apply NoDup_outside, entries_NoDup|done].
    by rewrite StronglySorted_fst, (shortened_keys _ _ Hf), <- StronglySorted_fst; apply outside_sorted.
  - apply StronglySorted_filter, entries_sorted.
  - unfold dict_keys. rewrite (members_concat gs) by done. eapply sublist_NoDup; [apply (entries_NoDup l)|].
    apply fmap_sublist, sublist_filter.
  - by apply members_concat.
Qed.
