(* ===== verification/ContextEngineProps.v ===== *)
(** * Properties of the composition of the context

    What leaves and in which order, what is cut, and when the result fits. *)

From Stdlib Require Import Ascii.
From stdpp Require Import sorting.
From S2P Require Import Prelude Texts Values WorkingState ContextEngine ContextEngineFacts.

Open Scope py_scope.
#[local] Open Scope Z_scope.

(** A constructed item, and a request of such items with distinct identifiers. *)
Definition valid_item (i : ContextItem) : Prop := ContextItem_new i = Ok i.

Record valid_request (r : ContextRequest) : Prop := {
  vr_items : Forall valid_item r.(items);
  vr_ids : NoDup (item_id <$> r.(items));
}.

Lemma valid_overhead i : valid_item i → 0 ≤ i.(token_overhead).
Proof.
  unfold valid_item, ContextItem_new. intros H. minv. by apply Z.leb_le.
Qed.

Lemma valid_normalize c r :
  valid_request r → ∃ l, normalize c r.(items) = Ok l ∧ Forall (λ i, 0 ≤ i.(token_overhead)) l.
Proof.
  intros [Hv Hids]. destruct (normalize_from_Ok c [] r.(items)) as [l Hl]; [by rewrite app_nil_r|]. exists l. split; [done|].
  apply normalize_from_spec in Hl. generalize dependent (items r). intros items Hv Hids Hl. induction Hl as [|i i' l0 l' [Heq _] _ IH]; [done|].
  apply Forall_cons in Hv as [Hi Hv]. rewrite fmap_cons in Hids. apply NoDup_cons in Hids as [_ Hids].
  constructor; [|by apply IH]. rewrite Heq. exact (valid_overhead i Hi).
Qed.

(** ** The snapshot *)

(** Cutting an entry changes neither its group nor its protection. *)
Lemma shortened_may_leave sel sel' g : Forall2 shortened sel sel' → may_leave sel' g → may_leave sel g.
Proof.
  intros Hf. assert (Hm : Forall2 (λ e e', e'.2.(protected) = e.2.(protected)) (members g sel) (members g sel')).
  { unfold members. induction Hf as [|e e' l l' He _ IH]; [constructor|]. rewrite !filter_cons.
    assert (group_of e' = group_of e ∧ e'.2.(protected) = e.2.(protected)) as [-> Hp].
    { destruct He as [->|(_ & H1 & H2 & _)]; [done|]. unfold group_of. rewrite H1, H2. done. }
    case_decide; [by constructor|done]. }
  unfold may_leave, evictable. intros [Hne He]. split.
  - intros Hn. rewrite Hn in Hm. apply Hne. by apply Forall2_nil_inv_l in Hm.
  - rewrite <- He. f_equal. clear -Hm. induction Hm as [|e e' l l' Hp _ IH]; [done|]. cbn. by rewrite Hp, IH.
Qed.

(** C34: composing a request of valid items always ends, and its account is
    exact: the estimate is the fixed input and the items that are left, and the
    overflow is what is above the window once the reply and the margin are set
    aside.  The result fits, or there is nothing more to give: every group
    that is left holds a protected item, and no item that is left can be cut. *)
Theorem compose_fits_or_has_nothing_left c r :
  2 ≤ c → valid_request r →
  ∃ snap sel,
    compose c r = Ok (Some snap) ∧
    snap.(sn_selected_items) = sel.*2 ∧ StronglySorted lt sel.*1 ∧
    snap.(sn_available_input_tokens) = Z.max 0 (r.(context_limit) - r.(output_reserve) - r.(safety_margin)) ∧
    snap.(sn_estimated_input_tokens) = r.(fixed_input_tokens) + sum_tokens snap.(sn_selected_items) ∧
    snap.(sn_overflow_tokens) = Z.max 0 (snap.(sn_estimated_input_tokens) - snap.(sn_available_input_tokens)) ∧
    (within_budget snap = true ∨
     (∀ g, ¬ may_leave sel g) ∧ Forall (λ i, truncation_candidate i = false) snap.(sn_selected_items)).
Proof.
  intros Hc Hr. destruct (valid_normalize c r Hr) as (l & Hl & Ho).
  destruct (compose_run c r l Hc Hl Ho) as (gs & sel & dn & Hev & Hsh & Hfits & Hsame & Hrun).
  eexists _, sel. split; [exact Hrun|]. cbn. split_and!; try done.
  - apply (StronglySorted_fst sel).
    rewrite StronglySorted_fst, (shortened_keys _ _ Hsh), <- StronglySorted_fst. apply outside_sorted.
  - unfold within_budget. cbn. destruct Hfits as [Hle|Hnone].
    + left. apply Z.eqb_eq. lia.
    + destruct (Z.le_gt_cases (total r.(fixed_input_tokens) sel) (available_of r)) as [Hle|Hgt]; [left; apply Z.eqb_eq; lia|].
      right. split.
      * intros g Hg. destruct (evictions_stop _ _ _ _ _ Hev) as [Hle|Hno]; [by destruct (Hsame Hle) as [-> _]; lia|].
        by apply (Hno g), (shortened_may_leave _ sel).
      * apply Forall_fmap, Forall_forall. intros e He. cbn. apply not_true_is_false. intros Ht.
        assert (e ∈ candidates sel) as Hin by (by apply list_elem_of_filter). rewrite Hnone in Hin. by apply elem_of_nil in Hin.
Qed.

Lemma evictions_none fixed available sel gs sel' :
  evictions fixed available sel gs sel' → total fixed sel ≤ available → gs = [].
Proof. intros Hev Hle. inversion Hev; [done|]. lia. Qed.

(** What is composed is a partition of the caller's items into whole
    groups.  The items of the groups that left are reported, unchanged, in the
    caller's order, each with the reason of its layer, and a group with a
    protected member never leaves.  The others are kept in the caller's order,
    each as it was or, if it could be cut, with a cut text and a smaller
    estimate and nothing else changed.  When everything fits nothing happens. *)
Theorem compose_partitions_items c r l snap :
  2 ≤ c → valid_request r → normalize c r.(items) = Ok l → compose c r = Ok (Some snap) →
  ∃ gs sel,
    (∀ g, g ∈ gs → may_leave (entries l) g) ∧
    Forall2 shortened (outside gs (entries l)) sel ∧ snap.(sn_selected_items) = sel.*2 ∧
    snap.(sn_excluded_items) = (λ e, (e.2, exclusion_reason e.2.(layer))) <$> inside gs (entries l) ∧
    (r.(fixed_input_tokens) + sum_tokens l ≤ snap.(sn_available_input_tokens) →
     snap.(sn_selected_items) = l ∧ snap.(sn_excluded_items) = [] ∧ snap.(sn_truncation_decisions) = []).
Proof.
  intros Hc Hr Hl Hsnap. destruct (valid_normalize c r Hr) as (l' & Hl' & Ho).
  rewrite Hl in Hl'. injection Hl' as <-.
  destruct (compose_run c r l Hc Hl Ho) as (gs & sel & dn & Hev & Hsh & _ & Hsame & Hrun).
  rewrite Hrun in Hsnap. injection Hsnap as <-. exists gs, sel. cbn.
  split; [by apply (evictions_groups _ _ _ _ _ Hev)|]. split; [done|]. split; [done|]. split; [done|].
  intros Hfit. assert (total (fixed_input_tokens r) (entries l) ≤ available_of r) as Hle by (unfold total; by rewrite entries_snd).
  pose proof (evictions_none _ _ _ _ _ Hev Hle) as ->. rewrite outside_nil in Hsame. destruct (Hsame Hle) as [-> ->].
  rewrite entries_snd. split_and!; [done| |done]. unfold excluded_of, inside.
  rewrite (filter_same _ (λ _, False)) by (intros e _; split; [apply not_elem_of_nil|done]).
  clear. induction (entries l) as [|e l' IH]; done.
Qed.

(** Eviction takes whole groups, cheapest first, and no more than it needs.
    The groups leave one after the other while what is left does not fit;
    each is, by tier, priority, freshness and position, no dearer than any
    other group without a protected member that is still there; it stops
    when the rest fits or no such group is left. *)
Theorem eviction_is_cheapest_first fixed available l kept evicted :
  evict (length l) fixed available (entries l) [] = (kept, evicted) →
  ∃ gs,
    NoDup gs ∧ kept = outside gs (entries l) ∧ evicted = concat ((λ g, members g (entries l)) <$> gs) ∧
    (∀ gs1 g gs2, gs = gs1 ++ g :: gs2 →
       may_leave (entries l) g ∧ available < total fixed (outside gs1 (entries l)) ∧
       ∀ g', g' ∉ gs1 → may_leave (entries l) g' →
         key_ltb (group_key (members g' (entries l))) (group_key (members g (entries l))) = false) ∧
    (total fixed kept ≤ available ∨ ∀ g, ¬ may_leave kept g).
Proof.
  intros Hrun.
  destruct (evict_run (length l) fixed available (entries l) [] (entries_NoDup l)) as (gs & sel & Heq & Hev); [by rewrite length_entries|].
  rewrite Hrun in Heq. injection Heq as -> ->. destruct (evictions_groups _ _ _ _ _ Hev) as (Hnd & -> & Hall).
  exists gs. split_and!; [done..| |by eapply evictions_stop]. intros gs1 g gs2 Heq.
  destruct (evictions_order _ _ _ _ _ Hev _ _ _ Heq) as [Ht Hmin]. split_and!; [|done..]. apply Hall. rewrite Heq. set_solver.
Qed.

Lemma protected_stays sel e g : e ∈ sel → e.2.(protected) = true → may_leave sel g → group_of e ≠ g.
Proof.
  intros He Hp [_ Hev] Hg. unfold evictable in Hev. apply negb_true_iff in Hev.
  assert (existsb (λ e, (e.2).(protected)) (members g sel) = true) as Ht; [|congruence].
  apply existsb_exists. exists e. split; [|done]. apply list_elem_of_In. by apply list_elem_of_filter.
Qed.

(** The task's own state reaches the model whatever the size of the
    window: its item is never evicted, and its text is whole or cut at the end
    with the notice that says so. *)
Theorem task_state_is_never_dropped c r st i snap :
  2 ≤ c → valid_request r → working_state_context_item st = Ok i → i ∈ r.(items) → compose c r = Ok (Some snap) →
  ∃ i', i' ∈ snap.(sn_selected_items) ∧ i'.(item_id) = "working-state:" +:+ st.(ws_task_id) ∧
        i'.(layer) = TASK_WORKING_STATE ∧
        (i'.(content) = working_state_projection st ∨ cut_of (working_state_projection st) i'.(content)).
Proof.
  intros Hc Hr Hi Hin Hsnap. unfold working_state_context_item, ContextItem_new in Hi. minv. subst i.
  destruct (valid_normalize c r Hr) as (l & Hl & Ho). pose proof (normalize_from_spec _ _ _ _ Hl) as Hn.
  destruct (compose_run c r l Hc Hl Ho) as (gs & sel & dn & Hev & Hsh & _ & _ & Hrun).
  rewrite Hrun in Hsnap. injection Hsnap as <-. cbn.
  apply list_elem_of_lookup in Hin as [k Hk]. destruct (Forall2_lookup_l _ _ _ _ _ Hn Hk) as (i2 & Hk2 & Heq & _).
  assert (He : i2 ∈ (entries l).*2) by (rewrite entries_snd; by apply list_elem_of_lookup_2 in Hk2).
  apply list_elem_of_fmap in He as ([k' i3] & -> & He). cbn in Heq.
  destruct (evictions_groups _ _ _ _ _ Hev) as (_ & _ & Hall).
  assert (Hout : (k', i3) ∈ outside gs (entries l)).
  { apply list_elem_of_filter. split; [|done]. intros Hg. eapply (protected_stays (entries l) (k', i3)); [done| |by apply Hall|done].
    cbn. by rewrite Heq. }
  apply list_elem_of_lookup in Hout as [j Hj]. destruct (Forall2_lookup_l _ _ _ _ _ Hsh Hj) as (e' & Hj' & Hs).
  exists e'.2. split; [apply list_elem_of_fmap; exists e'; split; [done|by eapply list_elem_of_lookup_2]|].
  destruct Hs as [->|(_ & _ & Hs & Hcut & _)]; cbn in *; [rewrite Heq; auto|]. rewrite Heq in Hcut. cbn in Hcut.
  split_and!; [by rewrite Hs, Heq|by rewrite Hs, Heq|by right].
Qed.

(** ** A request that does not fit *)

Module Examples.

Definition started : WorkingState :=
  (WorkingState_new "t") <| ws_objective := "fix the parser" |> <| ws_user_constraints := ["do not touch the lexer"] |>.

Definition plain (id : string) (l : ContextLayer) (text : string) (priority : Z) (group : option string) : ContextItem :=
  mk_item id l "example" (latin text) priority RECENT false None 0 "available context" None group true.

Definition state_item : ContextItem :=
  match working_state_context_item started with Ok i => i | Raise _ => plain "" SYSTEM_RULES "" 0 None end.

Definition request (limit : Z) : ContextRequest :=
  mk_request
    [(plain "rules" SYSTEM_RULES "never write outside of the checkout of the task, and say so" 100 None) <| protected := true |>;
     state_item;
     plain "call" TOOL_EVIDENCE "grep" 90 (Some "pair");
     plain "result" TOOL_EVIDENCE "parser.py:12: def parse(self):" 10 (Some "pair");
     plain "hit" TOOL_EVIDENCE "lexer.py:40: def scan(self):" 20 None;
     plain "old" RECENT_CONVERSATION "please look at the parser" 50 None]
    limit 5 5 10.

Lemma request_valid limit : valid_request (request limit).
Proof. split; [|apply (bool_decide_unpack _); vm_compute; exact I]. repeat (constructor; [reflexivity|]). constructor. Qed.

Lemma compose_fits_or_has_nothing_left_witness :
  2 ≤ 3 ∧ valid_request (request 60) ∧ ∃ snap, compose 3 (request 60) = Ok (Some snap) ∧ within_budget snap = true.
Proof.
  split; [lia|]. split; [exact (request_valid 60)|].
  destruct (compose_fits_or_has_nothing_left 3 (request 60) ltac:(lia) (request_valid 60)) as (snap & _ & H & _).
  exists snap. split; [exact H|]. vm_compute in H. injection H as <-. reflexivity.
Defined.

Definition names (r : ContextRequest) : list string * list string :=
  match compose 3 r with
  | Ok (Some s) => (item_id <$> s.(sn_selected_items), (λ e, e.1.(item_id)) <$> s.(sn_excluded_items))
  | _ => ([], [])
  end.

(** The conversation leaves first, and then the pair before the single hit,
    although its call is worth more: the least valuable member decides. *)
Example order_of_leaving :
  (λ n, names (request n)) <$> [110; 100; 90; 60] =
  [(["rules"; "working-state:t"; "call"; "result"; "hit"; "old"], []);
   (["rules"; "working-state:t"; "call"; "result"; "hit"], ["old"]);
   (["rules"; "working-state:t"; "hit"], ["call"; "result"; "old"]);
   (["rules"; "working-state:t"], ["call"; "result"; "hit"; "old"])].
Proof. vm_compute. reflexivity. Qed.

Definition normalized : list ContextItem := match normalize 3 (items (request 60)) with Ok l => l | Raise _ => [] end.

Definition composed (limit : Z) : option ContextSnapshot :=
  match compose 3 (request limit) with Ok snap => snap | Raise _ => None end.

Lemma compose_partitions_items_witness :
  normalize 3 (items (request 60)) = Ok normalized ∧
  match composed 60 with
  | Some snap =>
      length (sn_excluded_items snap) = 4%nat ∧
      ∃ gs : list string, ∀ g, g ∈ gs → may_leave (entries normalized) g
  | None => False
  end.
Proof.
  split; [vm_compute; reflexivity|]. destruct (composed 60) as [snap|] eqn:Hs; [|vm_compute in Hs; discriminate Hs].
  split; [vm_compute in Hs; injection Hs as <-; reflexivity|].
  destruct (compose_partitions_items 3 (request 60) normalized snap ltac:(lia) (request_valid 60)) as (gs & _ & H & _);
    [vm_compute; reflexivity|vm_compute in Hs |- *; injection Hs as <-; reflexivity|].
  exists gs. exact H.
Defined.

Lemma eviction_is_cheapest_first_witness :
  let run := evict 6 10 50 (entries normalized) [] in
  length run.2 = 4%nat ∧ ∃ gs, NoDup gs ∧ run.2 = concat ((λ g, members g (entries normalized)) <$> gs).
Proof.
  split; [vm_compute; reflexivity|].
  destruct (eviction_is_cheapest_first 10 50 normalized (evict 6 10 50 (entries normalized) []).1
              (evict 6 10 50 (entries normalized) []).2) as (gs & Hnd & _ & H & _); [vm_compute; reflexivity|].
  exists gs. split; [exact Hnd|exact H].
Defined.

Lemma task_state_is_never_dropped_witness :
  match composed 30 with
  | Some snap =>
      within_budget snap = true ∧
      ∃ i', i' ∈ snap.(sn_selected_items) ∧ i'.(item_id) = "working-state:t"
  | None => False
  end.
Proof.
  destruct (composed 30) as [snap|] eqn:Hs; [|vm_compute in Hs; discriminate Hs].
  split; [vm_compute in Hs; injection Hs as <-; reflexivity|].
  destruct (task_state_is_never_dropped 3 (request 30) started state_item snap ltac:(lia) (request_valid 30)) as (i' & H & Hid & _).
  - vm_compute. reflexivity.
  - apply list_elem_of_further, list_elem_of_here.
  - vm_compute in Hs |- *. injection Hs as <-. reflexivity.
  - exists i'. split; [exact H|exact Hid].
Defined.
End Examples.
