(* ===== verification/Shell.v ===== *)
(** * Shell text: what [client/harness/command_policy.py] reads of a command

    [shlex.split], the shell stages of a command, here-documents and
    redirections, and the paths of the standard library.  A command is a text
    of code points below 256. *)

From Stdlib Require Import Ascii.
From stdpp Require Import gmap.
From S2P Require Import Prelude Texts Values.

Open Scope py_scope.

(** ** Characters *)

Definition newline : ascii := "010"%char.
Definition single_quote : ascii := "'"%char.
Definition double_quote : ascii := "034"%char.
Definition backslash : ascii := "\"%char.
Definition is_quote (c : ascii) : bool := Ascii.eqb c single_quote || Ascii.eqb c double_quote.

Definition snoc (s : string) (c : ascii) : string := String.append s (String c "").

(** [value.startswith(prefix)] *)
Definition starts_with (prefix s : string) : bool := String.prefix prefix s.

Definition starts_with_any (prefixes : list string) (s : string) : bool := existsb (λ p, starts_with p s) prefixes.

(** [sep.join(parts)] *)
Definition join (sep : string) (l : list string) : string := String.concat sep l.

(** ** [shlex.split(text, posix=True)] *)

Inductive lex_error := NO_CLOSING_QUOTATION | NO_ESCAPED_CHARACTER.

(** The state of the lexer between two characters; an escape returns to the
    quotes or to the word it interrupted. *)
Inductive lex_state := Between | InWord | InQuotes (q : ascii) | Escaped (inside : option ascii).

Definition lex_space (c : ascii) : bool := one_of (String " " (String "009" (String "013" (String "010" "")))) c.

Definition add_token (token : string) (r : res lex_error (list string)) : res lex_error (list string) :=
  let? l := r in Ok (token :: l).

Fixpoint lex (state : lex_state) (token s : string) : res lex_error (list string) :=
  match s with
  | EmptyString =>
      match state with
      | Between => Ok []
      | InWord => Ok [token]
      | InQuotes _ => Raise NO_CLOSING_QUOTATION
      | Escaped _ => Raise NO_ESCAPED_CHARACTER
      end
  | String c s =>
      match state with
      | Between =>
          if lex_space c then lex Between "" s
          else if Ascii.eqb c backslash then lex (Escaped None) "" s
          else if is_quote c then lex (InQuotes c) "" s
          else lex InWord (String c "") s
      | InWord =>
          if lex_space c then add_token token (lex Between "" s)
          else if is_quote c then lex (InQuotes c) token s
          else if Ascii.eqb c backslash then lex (Escaped None) token s
          else lex InWord (snoc token c) s
      | InQuotes q =>
          if Ascii.eqb c q then lex InWord token s
          else if Ascii.eqb c backslash && Ascii.eqb q double_quote then lex (Escaped (Some q)) token s
          else lex (InQuotes q) (snoc token c) s
      | Escaped None => lex InWord (snoc token c) s
      | Escaped (Some q) =>
          lex (InQuotes q) (snoc (if Ascii.eqb c backslash || Ascii.eqb c q then token else snoc token backslash) c) s
      end
  end.
Definition shlex_split (s : string) : res lex_error (list string) := lex Between "" s.

(** ** Paths *)

Definition slash : ascii := "/"%char.

(** [Path(value).name] *)
Definition path_name (value : string) : string :=
  default "" (last (filter (λ part, part ≠ "" ∧ part ≠ ".") (split_on slash value))).

(** [os.path.normpath] *)
Definition norm_step (absolute : bool) (kept : list string) (part : string) : list string :=
  if bool_decide (part = "") || bool_decide (part = ".") then kept
  else if negb (bool_decide (part = ".."))
          || (negb absolute && bool_decide (kept = []))
          || bool_decide (last kept = Some "..") then kept ++ [part]
  else removelast kept.

Definition normpath (value : string) : string :=
  if negb (str_true value) then "." else
  let slashes := if starts_with "/" value then
                   (if starts_with "//" value && negb (starts_with "///" value) then "//" else "/")
                 else "" in
  let path := String.append slashes (join "/" (foldl (norm_step (str_true slashes)) [] (split_on slash value))) in
  str_or path ".".

Definition has_dotdot (value : string) : bool := bool_decide (".." ∈ split_on slash value).

(** [value.rstrip("/")] *)
Fixpoint rstrip_slash (s : string) : string :=
  match s with
  | EmptyString => EmptyString
  | String c s =>
      match rstrip_slash s with
      | EmptyString => if Ascii.eqb c slash then EmptyString else String c EmptyString
      | t => String c t
      end
  end.

(** [value.startswith(directory.rstrip("/") + "/")] *)
Definition below (directory value : string) : bool := starts_with (snoc (rstrip_slash directory) slash) value.

(** ** Stages *)

Definition operator_chars : string := "|;&()<>".

(** [_shell_stages]: texts and operators interleaved; operators inside quotes
    or after a backslash are text. *)
Fixpoint stages_from (quote : option ascii) (current s : string) : list string :=
  match s with
  | EmptyString => [current]
  | String c s1 =>
      match quote with
      | Some q => stages_from (if Ascii.eqb c q then None else Some q) (snoc current c) s1
      | None =>
          if is_quote c then stages_from (Some c) (snoc current c) s1
          else match s1 with
               | String d s2 =>
                   if Ascii.eqb c backslash then stages_from None (snoc (snoc current c) d) s2
                   else if Ascii.eqb c d && one_of "|&" c then current :: String c (String d "") :: stages_from None "" s2
                   else if one_of operator_chars c then current :: String c "" :: stages_from None "" s1
                   else stages_from None (snoc current c) s1
               | EmptyString =>
                   if one_of operator_chars c then current :: String c "" :: stages_from None "" s1
                   else stages_from None (snoc current c) s1
               end
      end
  end.
Definition shell_stages (command : string) : list string := stages_from None "" command.

(** ** Redirections *)

Definition redirect_sinks : list string := ["/dev/null"; "/dev/stdout"; "/dev/stderr"].

Fixpoint last_char (c : ascii) (s : string) : ascii := match s with EmptyString => c | String d s => last_char d s end.

(** A match of the redirection pattern here: its target and what follows. *)
Definition redirection_at (before : option ascii) (s : string) : option (string * option ascii * string) :=
  if bool_decide (before = Some "="%char) then None else
  match (span is_digit s).2 with
  | String ">" rest =>
      let rest := match rest with String ">" rest' => rest' | _ => rest end in
      let '(spaces, rest') := span py_isspace rest in
      let '(target, after) := span not_space rest' in
      Some (target, Some (last_char ">"%char (String.append spaces target)), after)
  | _ => None
  end.

(** [_writes_via_redirection]; each step shortens the text. *)
Fixpoint writes_from (fuel : nat) (before : option ascii) (s : string) : bool :=
  match fuel with
  | O => false
  | S fuel =>
      match redirection_at before s with
      | Some (target, before', after) => negb (bool_decide (target ∈ redirect_sinks)) || writes_from fuel before' after
      | None => match s with EmptyString => false | String c s => writes_from fuel (Some c) s end
      end
  end.
Definition writes_via_redirection (command : string) : bool := writes_from (S (String.length command)) None command.

(** ** Here-documents *)

Definition word_start (c : ascii) : bool := is_lower c || is_upper c || Ascii.eqb c "_"%char.
Definition word_rest (c : ascii) : bool := is_word c || Ascii.eqb c "-"%char.

(** A match of [_HEREDOC_RE] here: the delimiter and what follows. *)
Definition heredoc_at (s : string) : option (string * string) :=
  match s with
  | String "<" (String "<" rest) =>
      let rest := match rest with String "-" rest' => rest' | _ => rest end in
      let rest := (span py_isspace rest).2 in
      let '(quote, rest) := match rest with
                            | String c rest' => if is_quote c then (Some c, rest') else (None, rest)
                            | EmptyString => (None, rest)
                            end in
      let '(delimiter, after) := span word_rest rest in
      match delimiter with
      | String c _ =>
          if word_start c then
            match quote, after with
            | None, _ => Some (delimiter, after)
            | Some q, String c' after => if Ascii.eqb c' q then Some (delimiter, after) else None
            | Some _, EmptyString => None
            end
          else None
      | EmptyString => None
      end
  | _ => None
  end.

(** [_HEREDOC_RE.findall(line)], the delimiters. *)
Fixpoint heredocs_from (fuel : nat) (s : string) : list string :=
  match fuel with
  | O => []
  | S fuel =>
      match heredoc_at s with
      | Some (delimiter, after) => delimiter :: heredocs_from fuel after
      | None => match s with EmptyString => [] | String _ s => heredocs_from fuel s end
      end
  end.
Definition heredocs (line : string) : list string := heredocs_from (S (String.length line)) line.

Definition heredoc_interpreters : list string :=
  ["sh"; "bash"; "dash"; "zsh"; "ksh"; "python"; "python3"; "perl"; "ruby"; "node"; "eval"].

(** [_mentions_interpreter] *)
Definition mentions_interpreter (line : string) : bool :=
  match shlex_split line with
  | Raise _ => true
  | Ok tokens => existsb (λ t, bool_decide (path_name t ∈ heredoc_interpreters)) tokens
  end.

(** The lines up to the delimiter leave; the delimiter's line stays. *)
Fixpoint skip_body (delimiter : string) (lines : list string) : list string * list string :=
  match lines with
  | [] => ([], [])
  | line :: lines => if bool_decide (py_strip line = delimiter) then ([line], lines) else skip_body delimiter lines
  end.

Fixpoint skip_bodies (delimiters : list string) (lines : list string) : list string * list string :=
  match delimiters with
  | [] => ([], lines)
  | d :: delimiters =>
      let '(kept, rest) := skip_body d lines in
      let '(kept', rest') := skip_bodies delimiters rest in (kept ++ kept', rest')
  end.

(** [_strip_heredoc_bodies]; each step consumes a line. *)
Fixpoint strip_lines (fuel : nat) (lines : list string) : list string :=
  match fuel, lines with
  | S fuel, line :: lines =>
      let delimiters := heredocs line in
      if bool_decide (delimiters = []) || mentions_interpreter line then line :: strip_lines fuel lines
      else let '(kept, rest) := skip_bodies delimiters lines in line :: kept ++ strip_lines fuel rest
  | _, _ => []
  end.
Definition strip_heredoc_bodies (command : string) : string :=
  let lines := split_on newline command in join (String newline "") (strip_lines (length lines) lines).

(** ** Other patterns *)

Definition shell_syntax_chars : string := String newline "|&;<>`$()".
Definition has_shell_syntax (command : string) : bool := negb (all_chars (λ c, negb (one_of shell_syntax_chars c)) command).

(** [_SED_IN_PLACE.match] *)
Definition sed_in_place (arg : string) : bool :=
  starts_with "--in-place" arg ||
  match arg with
  | String "-" rest =>
      starts_with "i" (span (λ c, (is_lower c || is_upper c) && negb (Ascii.eqb c "i"%char)) rest).2
  | _ => false
  end.

(** [_ASSIGNMENT.match] *)
Definition is_assignment (arg : string) : bool :=
  match arg with
  | String c rest =>
      word_start c && starts_with "=" (span (λ c, is_alnum c || Ascii.eqb c "_"%char) rest).2
  | EmptyString => false
  end.

(** [_SECRET_PATHS.search]: a component that is a credential store. *)
Definition secret_component (c : string) : bool :=
  bool_decide (c ∈ [".ssh"; ".gnupg"; ".aws"; ".docker"; ".kube"; ".netrc"; ".pgpass"; ".git-credentials"; "shadow"; "gshadow"; "sudoers"])
  || starts_with "id_" c && str_true (drop 3 c) && all_chars (λ c, is_lower c || is_digit c) (drop 3 c).

(** At the end of the text the pattern's [$] also matches before a newline. *)
Definition chomp (s : string) : string :=
  let n := String.length s in
  if String.eqb (String.substring (n - 1) 1 s) (String newline "") then String.substring 0 (n - 1) s else s.

Definition secret_path (value : string) : bool :=
  existsb secret_component (split_on slash value) || existsb secret_component (split_on slash (chomp value)).

(** ** Modes, capabilities and results: [client/harness/tool_primitives.py] *)

Inductive ExecutionMode := SAFE | ASK | AUTO.
Inductive CommandClassification := READ_ONLY | WORKSPACE_MUTATING | SHELL_COMPLEX | DANGEROUS.
Inductive Capability :=
  | FILESYSTEM_READ | HOST_READ | WORKSPACE_WRITE | SHELL | NETWORK | GPU | SSH | REMOTE_WRITE
  | CONTAINER_RUNTIME | SECRETS.

#[export] Instance ExecutionMode_eq_dec : EqDecision ExecutionMode.
Proof. solve_decision. Defined.
#[export] Instance CommandClassification_eq_dec : EqDecision CommandClassification.
Proof. solve_decision. Defined.
#[export] Instance Capability_eq_dec : EqDecision Capability.
Proof. solve_decision. Defined.

Definition mode_value (m : ExecutionMode) : string := match m with SAFE => "safe" | ASK => "ask" | AUTO => "auto" end.

Definition classification_value (c : CommandClassification) : string :=
  match c with
  | READ_ONLY => "read_only" | WORKSPACE_MUTATING => "workspace_mutating" | SHELL_COMPLEX => "shell_complex"
  | DANGEROUS => "dangerous"
  end.

Definition capability_value (c : Capability) : string :=
  match c with
  | FILESYSTEM_READ => "filesystem:read" | HOST_READ => "host:read" | WORKSPACE_WRITE => "workspace:write"
  | SHELL => "shell:complex" | NETWORK => "network" | GPU => "gpu" | SSH => "ssh" | REMOTE_WRITE => "remote:write"
  | CONTAINER_RUNTIME => "container-runtime" | SECRETS => "secrets"
  end.

#[export] Instance Capability_enum : StrEnum Capability := {|
  enum_members :=
    [FILESYSTEM_READ; HOST_READ; WORKSPACE_WRITE; SHELL; NETWORK; GPU; SSH; REMOTE_WRITE; CONTAINER_RUNTIME; SECRETS];
  enum_value := capability_value;
  enum_complete := ltac:(enum_all);
  enum_distinct := ltac:(enum_nodup) |}.

#[export] Instance Capability_countable : Countable Capability.
Proof. refine (inj_countable capability_value enum_of _). intros c. by apply (enum_of_Some _ c). Defined.

Abbreviation capabilities := (gset Capability).

Record CapabilityPolicy := mk_policy { safe : capabilities; ask : capabilities; auto : capabilities }.

Definition for_mode (p : CapabilityPolicy) (mode : ExecutionMode) : capabilities :=
  match mode with SAFE => p.(safe) | ASK => p.(ask) | AUTO => p.(auto) end.

Definition without_network (p : CapabilityPolicy) : CapabilityPolicy :=
  mk_policy (p.(safe) ∖ {[NETWORK]}) (p.(ask) ∖ {[NETWORK]}) (p.(auto) ∖ {[NETWORK]}).

Definition DEFAULT_CAPABILITY_POLICY : CapabilityPolicy :=
  mk_policy (list_to_set [FILESYSTEM_READ; HOST_READ; SHELL])
    (list_to_set [FILESYSTEM_READ; HOST_READ; WORKSPACE_WRITE; SHELL; NETWORK])
    (list_to_set [FILESYSTEM_READ; HOST_READ; WORKSPACE_WRITE; SHELL; NETWORK]).

Record ToolResult := mk_result {
  status : string;
  summary : string;
  stdout : string;
  stderr : string;
  exit_code : option Z;
  changed_paths : list string;
}.

(** [ToolResult(status, summary)] *)
Definition ToolResult_new (status summary : string) : ToolResult := mk_result status summary "" "" None [].

Definition ok (r : ToolResult) : bool := String.eqb r.(status) "ok".

Definition to_legacy_text (r : ToolResult) : string :=
  if String.eqb r.(status) "cancelled" then "CANCELLED"
  else
    String.concat (String "010"%char "")
      ([(if ok r then "OK" else "ERROR") +:+ ": " +:+ r.(summary)] ++
       (if str_true r.(stdout) then [r.(stdout)] else []) ++
       (if str_true r.(stderr) then [r.(stderr)] else []) ++
       match r.(exit_code) with
       | Some n => if (n =? 0)%Z then [] else ["(exit " +:+ pretty n +:+ ")"]
       | None => []
       end).
