(* ===== verification/CommandPolicy.v ===== *)
(** * Classification and authorization of commands: [client/harness/command_policy.py]

    What a command needs and whether a mode grants it; nothing is run.  The
    file system is two arguments, what [Path.resolve] and [Path.exists] answer.
    A command is a text of code points below 256; the dashes of the messages
    are written in UTF-8. *)

From Stdlib Require Import Ascii.
From stdpp Require Import gmap.
From S2P Require Import Prelude Texts Values Shell.

Open Scope py_scope.

(** ** Data *)

Record CommandAssessment := mk_assessment {
  command : string;
  argv : list string;
  classification : CommandClassification;
  reason : string;
  required_capabilities : capabilities;
  host_read_paths : list string;
}.

Record AuthorizationResult := mk_authorization { result : option ToolResult; granted_capabilities : capabilities }.

Definition allowed (a : AuthorizationResult) : bool := bool_decide (a.(result) = None).

(** ** Programs *)

Definition READ_ONLY_BINS : list string :=
  ["cat"; "ls"; "rg"; "grep"; "egrep"; "fgrep"; "find"; "head"; "tail"; "wc"; "stat"; "file"; "pwd"; "tree"; "du";
   "df"; "which"; "type"; "readlink"; "basename"; "dirname"; "md5sum"; "sha256sum"; "diff"; "sort"; "uniq"; "cut"; "sed"].
Definition GIT_READ_ONLY : list string :=
  ["status"; "log"; "diff"; "show"; "branch"; "ls-files"; "blame"; "describe"; "rev-parse"; "reflog"].
Definition WORKSPACE_MUTATING_BINS : list string :=
  ["make"; "cmake"; "ninja"; "pytest"; "tee"; "gcc"; "cc"; "g++"; "c++"; "clang"; "clang++"].
Definition PYTHON_BINS : list string := ["python"; "python3"].
Definition PYTHON_TEST_MODULES : list string := ["pytest"; "unittest"].
Definition DANGEROUS_BINS : list string :=
  ["sudo"; "su"; "doas"; "rm"; "mv"; "dd"; "mkfs"; "mount"; "umount"; "chmod"; "chown"; "kill"; "pkill"; "shutdown";
   "reboot"; "rsync"; "python"; "python3"; "bash"; "sh"; "zsh"; "fish"; "env"].
Definition SHELL_BUILTINS : list string :=
  ["cd"; "."; "source"; "export"; "set"; "unset"; "echo"; "true"; "false"; "test"; "["].
Definition NETWORK_BINS : list string := ["curl"; "wget"].
Definition SSH_BINS : list string := ["ssh"; "scp"; "sftp"].
Definition CONTAINER_BINS : list string := ["docker"; "podman"].
Definition GPU_BINS : list string := ["nvidia-smi"].
Definition GIT_NETWORK_WRITE : list string := ["clone"; "fetch"; "pull"].
Definition GIT_NETWORK_ONLY : list string := ["push"].
Definition REMOVAL_BINS : list string := ["rm"; "rmdir"; "unlink"; "shred"; "mv"; "rename"].

Definition one_in (s : string) (l : list string) : bool := bool_decide (s ∈ l).

Definition PYTHON_HINT : string :=
  "run tests with `python3 -m unittest discover -s tests` (or `python3 -m pytest` where pytest is installed). `python3 -c` and running a script directly are refused: the interpreter runs arbitrary code, and the two module forms above are the only ones that run here".
Definition NO_DELETE_HINT : string :=
  " — no tool can delete or rename a file. Nothing here can do it: say which file should go and why, and leave it to the operator. Emptying it instead leaves a file behind.".
Definition SED_HINT : string :=
  "in-place sed edits outside the checkpoint, so it cannot be rolled back: use edit_file. To insert a line, pass the existing surrounding line(s) as old_text and those same lines plus the new one as new_text.".

(** [_is_module_test_run] *)
Definition is_module_test_run (argv : list string) : bool :=
  match argv with
  | program :: "-m" :: module :: _ =>
      negb (contains "/" program) && one_in program PYTHON_BINS && one_in module PYTHON_TEST_MODULES
  | _ => false
  end.

(** [_is_known_binary] *)
Definition is_known_binary (binary : string) : bool :=
  one_in binary READ_ONLY_BINS || one_in binary WORKSPACE_MUTATING_BINS || one_in binary NETWORK_BINS ||
  one_in binary SSH_BINS || one_in binary CONTAINER_BINS || one_in binary GPU_BINS || one_in binary DANGEROUS_BINS ||
  one_in binary SHELL_BUILTINS || bool_decide (binary = "git").

(** The program a command names. *)
Definition program_of (argv : list string) : string := hd "" argv.
Definition binary_of (argv : list string) : string := path_name (program_of argv).

(** [_curl_remote_write], on the arguments. *)
Fixpoint curl_remote_write (args : list string) : bool :=
  match args with
  | [] => false
  | arg :: rest =>
      let mutating m := one_in (py_upper m) ["POST"; "PUT"; "PATCH"; "DELETE"] in
      one_in arg ["-d"; "--data"; "--data-raw"; "--data-binary"; "-F"; "--form"] ||
      starts_with_any ["--data="; "--data-raw="; "--data-binary="; "--form="] arg ||
      (starts_with "-d" arg && negb (bool_decide (arg = "-d"))) ||
      (starts_with "-F" arg && negb (bool_decide (arg = "-F"))) ||
      match rest with next :: _ => one_in arg ["-X"; "--request"] && mutating next | [] => false end ||
      (starts_with "-X" arg && mutating (drop 2 arg)) ||
      (starts_with "--request=" arg && mutating (drop 10 arg)) ||
      curl_remote_write rest
  end.

Definition scp_capabilities (args : list string) : capabilities :=
  let operands := filter (λ arg, starts_with "-" arg = false) args in
  let both := list_to_set [FILESYSTEM_READ; WORKSPACE_WRITE; SSH; NETWORK; REMOTE_WRITE] in
  if (2 <=? length operands)%nat then
    let from_remote := existsb (contains ":") (removelast operands) in
    let to_remote := contains ":" (List.last operands "") in
    if to_remote && negb from_remote then list_to_set [SSH; NETWORK; FILESYSTEM_READ; REMOTE_WRITE]
    else if from_remote && negb to_remote then list_to_set [SSH; NETWORK; WORKSPACE_WRITE]
    else both
  else both.

(** [_simple_capabilities] *)
Definition simple_capabilities (argv : list string) (stdin_from_pipeline : bool) : capabilities :=
  match argv with
  | [] => ∅
  | program :: args =>
      let binary := path_name program in
      if is_module_test_run argv then {[FILESYSTEM_READ; WORKSPACE_WRITE]}
      else if bool_decide (binary = "wget") then {[NETWORK; WORKSPACE_WRITE]}
      else if bool_decide (binary = "curl") then
        let writes := existsb (λ arg, one_in arg ["-o"; "--output"; "-O"; "--remote-name"] || starts_with "--output=" arg) args in
        {[NETWORK]} ∪ (if writes then {[WORKSPACE_WRITE]} else ∅) ∪ (if curl_remote_write args then {[REMOTE_WRITE]} else ∅)
      else if one_in binary NETWORK_BINS then {[NETWORK]}
      else if bool_decide (binary = "scp") then scp_capabilities args
      else if one_in binary SSH_BINS then {[SSH; NETWORK; REMOTE_WRITE]}
      else if one_in binary CONTAINER_BINS then {[CONTAINER_RUNTIME]}
      else if one_in binary GPU_BINS then {[GPU]}
      else if one_in binary WORKSPACE_MUTATING_BINS then {[FILESYSTEM_READ; WORKSPACE_WRITE]}
      else if bool_decide (binary = "git") then
        let subcommand := hd "" args in
        if one_in subcommand GIT_NETWORK_WRITE then {[FILESYSTEM_READ; WORKSPACE_WRITE; NETWORK]}
        else if one_in subcommand GIT_NETWORK_ONLY then {[FILESYSTEM_READ; NETWORK; REMOTE_WRITE]}
        else if one_in subcommand GIT_READ_ONLY then {[FILESYSTEM_READ]}
        else ∅
      else if one_in binary READ_ONLY_BINS then
        if stdin_from_pipeline && bool_decide (args = []) && one_in binary ["cat"; "head"; "tail"; "wc"; "sort"; "uniq"; "cut"]
        then ∅ else {[FILESYSTEM_READ]}
      else ∅
  end.

(** [_sensitive_classification] *)
Definition sensitive_classification (argv : list string) : CommandClassification :=
  let binary := binary_of argv in
  let writes := bool_decide (WORKSPACE_WRITE ∈ simple_capabilities argv false) in
  if bool_decide (binary = "wget") || bool_decide (binary = "curl") && writes || bool_decide (binary = "scp") && writes
  then WORKSPACE_MUTATING else READ_ONLY.

(** [_path_operands]: all arguments, but for [sed]. *)
Fixpoint sed_operands (expect_script script_seen : bool) (args : list string) : list string :=
  match args with
  | [] => []
  | arg :: args =>
      if expect_script then sed_operands false script_seen args
      else if one_in arg ["-e"; "--expression"] then sed_operands true true args
      else if starts_with "--expression=" arg then sed_operands false true args
      else if one_in arg ["-f"; "--file"] then sed_operands false true args
      else if starts_with "-" arg && negb (bool_decide (arg = "-")) then sed_operands false script_seen args
      else if negb script_seen then sed_operands false true args
      else arg :: sed_operands false script_seen args
  end.
Definition path_operands (argv : list string) : list string :=
  if bool_decide (binary_of argv = "sed") then sed_operands false false (tl argv) else tl argv.

(** ** The policy *)

(** [CommandPolicy]'s attributes; of the bound workspace only its hint is
    used. *)
Record CommandPolicy := mk_command_policy {
  capability_policy : CapabilityPolicy;
  mount_roots : list string;
  workspace_hint : option string;
}.

Definition SANDBOX_WORKSPACE : string := "/workspace".
Definition SANDBOX_HOME : string := "/home/sandbox".
Definition SANDBOX_TMPDIR : string := "/tmp".
Definition FIXED_SANDBOX_MOUNT_POINTS : list string := ["/proc"; "/dev"; "/usr"; "/bin"; "/lib"; "/lib64"; "/etc"].

Definition SENSITIVE_CAPABILITIES : capabilities :=
  list_to_set [HOST_READ; NETWORK; REMOTE_WRITE; SSH; GPU; CONTAINER_RUNTIME; SECRETS].

(** [_glob_base] *)
Definition is_pattern (part : string) : bool := negb (all_chars (λ c, negb (one_of "*?[" c)) part).

Fixpoint before_pattern (parts : list string) : list string :=
  match parts with
  | [] => []
  | part :: parts => if is_pattern part then [] else part :: before_pattern parts
  end.

Definition glob_base (value : string) : string :=
  let parts := split_on slash value in
  let kept := before_pattern parts in
  if (length kept =? length parts)%nat then value else str_or (join "/" kept) "/".

Section policy.
  (** [Path(p).resolve(strict=False)], [None] for an [OSError], and
      [Path(p).exists()]. *)
  Context (resolve : string → option string) (exists_path : string → bool) (p : CommandPolicy).

(** [boundary_hint] *)
Definition boundary_hint : string :=
  match p.(workspace_hint) with
  | Some hint => hint
  | None =>
      if bool_decide (p.(mount_roots) = []) then ""
      else " Writable trees: " +:+ join ", " (take 3 p.(mount_roots)) +:+ "."
  end.

(** [_inside_sandbox] *)
Definition inside_sandbox (value : string) : bool :=
  if has_dotdot value then false
  else bool_decide (value = "/workspace") || starts_with_any ["/workspace/"; "/workspaces/"] value ||
       below SANDBOX_TMPDIR value || existsb (λ m, bool_decide (value = m) || below m value) p.(mount_roots).

Definition sandbox_mounts : list string :=
  FIXED_SANDBOX_MOUNT_POINTS ++ [SANDBOX_HOME; SANDBOX_TMPDIR; SANDBOX_WORKSPACE].

(** A mount of the sandbox, or a directory that holds one. *)
Definition covers_mount (spelling : string) : bool :=
  existsb (λ m, bool_decide (spelling = m) || below spelling m) sandbox_mounts.

(** [_outside_read_target] *)
Definition outside_read_target (value : string) : option string * string :=
  let literal := normpath (glob_base value) in
  match resolve literal with
  | None => (None, "path cannot be resolved")
  | Some resolved =>
      if secret_path literal || secret_path resolved then (None, literal +:+ " holds credentials and is never read.")
      else if covers_mount literal || covers_mount resolved then
        (None, literal +:+ " contains the sandbox's own mounts and cannot be exposed — name a subdirectory.")
      else if exists_path literal then (Some literal, "") else (None, "")
  end.

(** [_outside_reads] *)
Fixpoint outside_reads_from (binds : list string) (operands : list string) : list string * string :=
  match operands with
  | [] => (binds, "")
  | operand :: operands =>
      if negb (starts_with "/" operand) || inside_sandbox operand then outside_reads_from binds operands
      else
        let '(target, refusal) := outside_read_target operand in
        if str_true refusal then ([], refusal)
        else match target with
             | Some t =>
                 if negb (one_in t binds) && negb (inside_sandbox t) then outside_reads_from (binds ++ [t]) operands
                 else outside_reads_from binds operands
             | None => outside_reads_from binds operands
             end
  end.
Definition outside_reads (operands : list string) : list string * string := outside_reads_from [] operands.

(** [_is_workspace_program] *)
Definition is_workspace_program (value : string) : bool :=
  if has_dotdot value then false
  else if starts_with "./" value then true
  else starts_with "/" value && inside_sandbox value.

(** A program that is dangerous, or named by a path outside the workspace. *)
Definition unapproved (argv : list string) : bool :=
  one_in (binary_of argv) DANGEROUS_BINS ||
  contains "/" (program_of argv) && negb (is_workspace_program (program_of argv)).

(** *** The stages of a script *)

Record scan := mk_scan {
  sc_capabilities : capabilities;
  sc_outside : list string;
  sc_refusal : string;
  sc_danger : string;
  sc_stdin : bool;
  sc_target : bool;
  sc_reads : bool;
}.

#[export] Instance eta_scan : Eta scan := λ r,
  mk_scan r.(sc_capabilities) r.(sc_outside) r.(sc_refusal) r.(sc_danger) r.(sc_stdin) r.(sc_target) r.(sc_reads).

Definition operators : list string := ["|"; "||"; "&&"; ";"; "&"; "("; ")"; "<"; ">"].

(** [outside.extend(path for path in found if path not in outside)]: the test
    sees what is being added. *)
Fixpoint extend_new (l found : list string) : list string :=
  match found with
  | [] => l
  | x :: found => extend_new (if one_in x l then l else l ++ [x]) found
  end.

Definition read_outside (operands : list string) (s : scan) : scan :=
  let '(found, denied) := outside_reads operands in
  s <| sc_refusal := str_or s.(sc_refusal) denied |> <| sc_outside := extend_new s.(sc_outside) found |>.

Definition escapes (target : string) : bool :=
  negb (one_in target redirect_sinks) && negb (inside_sandbox target) &&
  (starts_with "/" target || starts_with "../" target || contains "/../" target || bool_decide (target = "..")).

(** The file after a redirection operator. *)
Definition check_target (target : string) (s : scan) : scan :=
  if escapes target then
    if s.(sc_reads) && starts_with "/" target then read_outside [target] s
    else s <| sc_danger := str_or s.(sc_danger) ("a redirection would write outside the workspace: '" +:+ target +:+ "'.") |>
  else s.

Fixpoint skip_assignments (argv : list string) : list string :=
  match argv with
  | arg :: rest => if is_assignment arg then skip_assignments rest else argv
  | [] => []
  end.

Definition in_place (argv : list string) : bool :=
  bool_decide (binary_of argv = "sed") && existsb sed_in_place (tl argv).

Definition stage_danger (argv : list string) : string :=
  str_or (if in_place argv then SED_HINT else "")
    (if negb (is_module_test_run argv) && unapproved argv then
       if one_in (binary_of argv) PYTHON_BINS then PYTHON_HINT +:+ " — so this command cannot run."
       else "'" +:+ program_of argv +:+ "' is not allowlisted, so the pipeline that contains it cannot run."
     else "").

Definition stage_capabilities (argv : list string) (stdin_from_pipeline : bool) : capabilities :=
  if is_known_binary (binary_of argv) then simple_capabilities argv stdin_from_pipeline
  else {[FILESYSTEM_READ; WORKSPACE_WRITE]}.

(** A text that is a command. *)
Definition scan_command (argv : list string) (s : scan) : scan :=
  let s := s <| sc_danger := str_or s.(sc_danger) (stage_danger argv) |>
             <| sc_capabilities := s.(sc_capabilities) ∪ stage_capabilities argv s.(sc_stdin) |> in
  (read_outside (path_operands argv) s) <| sc_stdin := false |>.

Definition scan_text (token : string) (s : scan) : scan :=
  match shlex_split token with
  | Raise _ => s
  | Ok words => match skip_assignments words with [] => s | argv => scan_command argv s end
  end.

Definition scan_stage (s : scan) (stage : string) : scan :=
  let token := py_strip stage in
  if negb (str_true token) then s
  else if one_in token operators then
    s <| sc_stdin := bool_decide (token = "|") |> <| sc_target := one_in token ["<"; ">"] |>
      <| sc_reads := bool_decide (token = "<") |>
  else if s.(sc_target) then
    let target := hd "" (words token) in
    let s := check_target target (s <| sc_target := false |>) in
    let token := py_strip (drop (String.length target) token) in
    if str_true token then scan_text token s else s
  else scan_text token s.

(** [_shell_capabilities] *)
Definition scan_start (command : string) : scan :=
  mk_scan ({[SHELL; FILESYSTEM_READ]} ∪ (if writes_via_redirection command then {[FILESYSTEM_READ; WORKSPACE_WRITE]} else ∅))
    [] "" "" false false false.

Definition shell_scan (command : string) : scan := foldl scan_stage (scan_start command) (shell_stages command).

Definition shell_capabilities (command : string) : capabilities * string * list string * string :=
  let s := shell_scan command in
  (s.(sc_capabilities) ∪ (if bool_decide (s.(sc_outside) = []) then ∅ else {[HOST_READ]}), s.(sc_danger), s.(sc_outside),
   s.(sc_refusal)).

(** *** Classification *)

Definition assess (command : string) (argv : list string) (kind : CommandClassification) (reason : string)
    (caps : capabilities) (host_reads : list string) : CommandAssessment :=
  mk_assessment command argv kind reason caps host_reads.

Definition refused (command : string) (argv : list string) (reason : string) : CommandAssessment :=
  assess command argv DANGEROUS reason ∅ [].

(** [_classify_argv] *)
Definition find_actions : list string := ["-exec"; "-execdir"; "-delete"; "-fprint"; "-fprintf"].

Definition unapproved_reason (argv : list string) : string :=
  let binary := binary_of argv in
  if one_in binary PYTHON_BINS then PYTHON_HINT +:+ " — so '" +:+ program_of argv +:+ "' as written is refused"
  else "unapproved executable: '" +:+ program_of argv +:+ "'" +:+
       (if one_in binary REMOVAL_BINS then NO_DELETE_HINT
        else if contains "/" (program_of argv) then " — only a program built inside a declared tree may be run by path"
        else " — use edit_file/write_file to change files, and make/pytest to build and test").

Definition not_listed (binary : string) : string :=
  "build and test with make, cmake, ninja, gcc, pytest or `python3 -m unittest discover -s tests`; read with cat, ls, grep, find, sed -n, head, tail, wc, stat, diff and read-only git; change files with edit_file/write_file. '"
  +:+ binary +:+ "' is none of those, so it is not allowlisted.".

Definition classify_argv (command : string) (argv : list string) : CommandAssessment :=
  let binary := binary_of argv in
  let with_kind kind := assess command argv kind "" (simple_capabilities argv false) [] in
  if is_module_test_run argv then with_kind WORKSPACE_MUTATING
  else if unapproved argv then refused command argv (unapproved_reason argv)
  else if contains "/" (program_of argv) then
    assess command argv WORKSPACE_MUTATING "" {[FILESYSTEM_READ; WORKSPACE_WRITE]} []
  else if bool_decide (binary = "git") then
    match tl argv with
    | sub :: _ =>
        if one_in sub GIT_READ_ONLY || one_in sub GIT_NETWORK_ONLY then with_kind READ_ONLY
        else if one_in sub GIT_NETWORK_WRITE then with_kind WORKSPACE_MUTATING
        else refused command argv "non-read-only git command"
    | [] => refused command argv "non-read-only git command"
    end
  else if one_in binary (NETWORK_BINS ++ SSH_BINS ++ CONTAINER_BINS ++ GPU_BINS) then with_kind (sensitive_classification argv)
  else if one_in binary READ_ONLY_BINS then
    if bool_decide (binary = "find") && existsb (λ option, one_in option argv) find_actions then
      refused command argv "mutating find action"
    else if in_place argv then refused command argv SED_HINT
    else with_kind READ_ONLY
  else if one_in binary WORKSPACE_MUTATING_BINS then with_kind WORKSPACE_MUTATING
  else if one_in binary REMOVAL_BINS then refused command argv ("'" +:+ binary +:+ "' is not allowlisted" +:+ NO_DELETE_HINT)
  else refused command argv (not_listed binary).

(** [_with_host_reads] *)
Definition with_host_reads (a : CommandAssessment) (host_reads : list string) : CommandAssessment :=
  if bool_decide (host_reads = []) || bool_decide (a.(classification) = DANGEROUS) then a
  else assess a.(command) a.(argv) a.(classification) a.(reason) (a.(required_capabilities) ∪ {[HOST_READ]}) host_reads.

(** A relative path that leaves its directory. *)
Definition traverses (arg : string) : bool :=
  negb (starts_with "/" arg) && (bool_decide (arg = "..") || contains "/../" arg || starts_with "../" arg).

Definition lex_message (e : lex_error) : string :=
  match e with NO_CLOSING_QUOTATION => "No closing quotation" | NO_ESCAPED_CHARACTER => "No escaped character" end.

Definition has_nul (command : string) : bool := contains (String "000" "") command.

Definition classify (command : string) : CommandAssessment :=
  if negb (str_true (py_strip command)) then refused command [] "empty command"
  else if has_nul command then refused command [] "NUL byte"
  else
    let command := strip_heredoc_bodies command in
    if has_shell_syntax command then
      let '(caps, danger, outside, refusal) := shell_capabilities command in
      if str_true danger then refused command [] (danger +:+ boundary_hint)
      else if str_true refusal then refused command [] (refusal +:+ boundary_hint)
      else assess command [] SHELL_COMPLEX "shell syntax" caps outside
    else
      match shlex_split command with
      | Raise e => assess command [] SHELL_COMPLEX (lex_message e) {[SHELL]} []
      | Ok [] => refused command [] "empty argv"
      | Ok argv =>
          let operands := path_operands argv in
          match List.find traverses operands with
          | Some arg =>
              refused command argv ("relative path leaves the workspace: '" +:+ arg
                +:+ "' — name it by absolute path instead." +:+ boundary_hint)
          | None =>
              let '(host_reads, refusal) := outside_reads operands in
              if str_true refusal then refused command argv (refusal +:+ boundary_hint)
              else with_host_reads (classify_argv command argv) host_reads
          end
      end.

(** [classify_script]: a refused simple command, judged as a script. *)
Definition classify_script (command : string) : CommandAssessment :=
  let assessment := classify command in
  if negb (bool_decide (assessment.(classification) = DANGEROUS)) || negb (str_true (py_strip command))
     || has_nul command || has_shell_syntax (strip_heredoc_bodies command)
  then assessment
  else
    let '(caps, danger, outside, refusal) := shell_capabilities (strip_heredoc_bodies command) in
    if str_true danger || str_true refusal then assessment
    else assess command [] SHELL_COMPLEX "session script" caps outside.

(** *** Authorization *)

Definition available_capabilities (mode : ExecutionMode) : capabilities := for_mode p.(capability_policy) mode.

(** [capability_hint] *)
Definition granting_modes (missing : capabilities) (mode : ExecutionMode) : list ExecutionMode :=
  filter (λ m, m ≠ mode ∧ missing ⊆ available_capabilities m) [ASK; AUTO; SAFE].

Definition capability_hint (missing : capabilities) (mode : ExecutionMode) : string :=
  match granting_modes missing mode with
  | [] => " No mode grants that combination here; say so rather than trying another spelling of the same command."
  | grants =>
      " Granted in " +:+ join " or " ((λ m, "--" +:+ mode_value m) <$> grants) +:+
      " mode, which is the user's call at launch — say what you need it for instead of retrying." +:+
      (if bool_decide (NETWORK ∈ missing) then
         " To READ a web page or a document, use the fetch_url tool instead: it is a native tool, needs no shell capability, and works in every mode."
       else "")
  end.

Definition deny (status summary : string) : AuthorizationResult := mk_authorization (Some (ToolResult_new status summary)) ∅.
Definition grant (a : CommandAssessment) : AuthorizationResult := mk_authorization None a.(required_capabilities).

Definition requires_confirmation (a : CommandAssessment) : bool :=
  negb (bool_decide (a.(classification) = READ_ONLY)) ||
  negb (bool_decide (a.(required_capabilities) ∩ SENSITIVE_CAPABILITIES = ∅)).

(** [authorize]; [approve] is the user's answer to the question, when someone
    can be asked. *)
Definition authorize (a : CommandAssessment) (mode : ExecutionMode) (approve : option (string → bool)) : AuthorizationResult :=
  let kind := a.(classification) in
  if bool_decide (kind = DANGEROUS) then deny "denied" ("command denied: " +:+ a.(reason))
  else if bool_decide (mode = SAFE) && bool_decide (kind = WORKSPACE_MUTATING) then
    deny "denied" (classification_value kind +:+ " commands are disabled in safe mode")
  else
    let unavailable := a.(required_capabilities) ∖ available_capabilities mode in
    if negb (bool_decide (unavailable = ∅)) then
      deny "denied" ("required capabilities are not allowed: "
        +:+ join ", " (sort_strings (capability_value <$> elements unavailable))
        +:+ (if bool_decide (HOST_READ ∈ unavailable) then boundary_hint else "") +:+ capability_hint unavailable mode)
    else match mode with
         | SAFE | AUTO => grant a
         | ASK =>
             if negb (requires_confirmation a) then grant a
             else match approve with
                  | Some ask => if ask ("Run: " +:+ a.(command) +:+ " ?") then grant a
                                else deny "cancelled" "command was not approved"
                  | None => deny "cancelled" "command was not approved"
                  end
         end.
End policy.

(** [ToolPolicy.authorize_mutation] *)
Definition authorize_mutation (mode : ExecutionMode) (approve : option (string → bool)) (description : string) : option ToolResult :=
  match mode with
  | SAFE => Some (ToolResult_new "denied" "mutations are disabled in safe mode")
  | AUTO => None
  | ASK =>
      match approve with
      | Some ask => if ask description then None else Some (ToolResult_new "cancelled" "mutation was not approved")
      | None => Some (ToolResult_new "cancelled" "mutation was not approved")
      end
  end.
