(* ===== verification/CommandPolicyProps.v ===== *)
(** * Properties of the classification and authorization of commands *)

From Stdlib Require Import Ascii.
From stdpp Require Import gmap.
From S2P Require Import Prelude Texts Values Shell CommandPolicy.

Open Scope py_scope.

(** ** Stages *)

(** Texts without an operator of their own, separated by operators. *)
Definition single (t : string) : Prop := shell_stages t = [t].

Inductive staged : list string → Prop :=
  | staged_last t : single t → staged [t]
  | staged_more t op rest : single t → op ∈ operators → staged rest → staged (t :: op :: rest).

Lemma concat_cons (t : string) l : String.concat "" (t :: l) = String.append t (String.concat "" l).
Proof. destruct l; cbn; [by rewrite append_nil|done]. Qed.

Lemma append_snoc (a : string) c (b : string) : String.append (snoc a c) b = String.append a (String c b).
Proof. unfold snoc. by rewrite append_assoc. Qed.

Lemma operator_single c : one_of operator_chars c = true → String c "" ∈ operators.
Proof. destruct c as [[] [] [] [] [] [] [] []]; intros [=]; apply (bool_decide_unpack _); vm_compute; exact I. Qed.

Lemma operator_double c : one_of "|&" c = true → String c (String c "") ∈ operators.
Proof. destruct c as [[] [] [] [] [] [] [] []]; intros [=]; apply (bool_decide_unpack _); vm_compute; exact I. Qed.

(** What is cut off first, and the rest. *)
Definition cut (quote : option ascii) (current s : string) : Prop :=
  ∃ u rest, stages_from quote current s = String.append current u :: rest ∧
    stages_from quote current u = [String.append current u] ∧
    ((rest = [] ∧ s = u) ∨
     ∃ op s', op ∈ operators ∧ s = String.append u (String.append op s') ∧ rest = op :: stages_from None "" s').

(** One character that is kept moves into the current text. *)
Lemma cut_keep quote quote' current c s :
  (∀ u, stages_from quote current (String c u) = stages_from quote' (snoc current c) u) →
  cut quote' (snoc current c) s → cut quote current (String c s).
Proof.
  intros Hstep (u & rest & H1 & H2 & H3). exists (String c u), rest. rewrite !Hstep, H1, H2, append_snoc. split_and!; [done|done|].
  destruct H3 as [[-> ->]|(op & s' & Hop & -> & ->)]; [by left|]. right. by exists op, s'.
Qed.

Lemma cut_operator current op s' s :
  op ∈ operators → s = String.append op s' → stages_from None current s = current :: op :: stages_from None "" s' →
  cut None current s.
Proof.
  intros Hop -> Hs. exists "", (op :: stages_from None "" s'). rewrite append_nil. split_and!; [done|done|]. right. by exists op, s'.
Qed.

Lemma cut_always quote current s : cut quote current s.
Proof.
  remember (String.length s) as n eqn:Hn. revert quote current s Hn. induction (lt_wf n) as [n _ IH].
  intros quote current [|c s] ->; [by exists "", []; rewrite append_nil; split_and!; [done|done|left]|].
  assert (IHs : ∀ quote current, cut quote current s) by (intros; apply (IH (String.length s)); [cbn; lia|done]).
  destruct quote as [q|]; [eapply cut_keep; [intros u; reflexivity|apply IHs]|].
  destruct (is_quote c) eqn:Hq; [eapply cut_keep; [intros u; cbn [stages_from]; rewrite Hq; reflexivity|apply IHs]|].
  destruct (one_of operator_chars c) eqn:Ho.
  { assert (Hb : Ascii.eqb c backslash = false) by (destruct c as [[] [] [] [] [] [] [] []]; done).
    destruct s as [|d s]; [apply (cut_operator _ (String c "") ""); [by apply operator_single|done|cbn [stages_from]; by rewrite Hq, Ho]|].
    destruct (Ascii.eqb c d && one_of "|&" c) eqn:Hd.
    - pose proof Hd as [Hcd Hc]%andb_true_iff. apply Ascii.eqb_eq in Hcd as <-.
      apply (cut_operator _ (String c (String c "")) s); [by apply operator_double|done|]. cbn [stages_from]. by rewrite Hq, Hb, Hd.
    - apply (cut_operator _ (String c "") (String d s)); [by apply operator_single|done|]. cbn [stages_from]. by rewrite Hq, Hb, Hd, Ho. }
  destruct s as [|d s].
  { exists (String c ""), []. cbn [stages_from]. rewrite Hq, Ho. split_and!; [done|done|by left]. }
  destruct (Ascii.eqb c backslash) eqn:Hb.
  - destruct (IH (String.length s)) with (quote := None (A := ascii)) (current := snoc (snoc current c) d) (s := s)
      as (u & rest & H1 & H2 & H3); [cbn; lia|done|].
    exists (String c (String d u)), rest. cbn [stages_from]. rewrite Hq, Hb, H1, H2, !append_snoc. split_and!; [done|done|].
    destruct H3 as [[-> ->]|(op & s' & Hop & -> & ->)]; [by left|]. right. by exists op, s'.
  - eapply cut_keep; [|apply IHs]. intros u. cbn [stages_from]. rewrite Hq, Ho, Hb. destruct u as [|e u]; [done|].
    assert (Hp : one_of "|&" c = false) by (destruct c as [[] [] [] [] [] [] [] []]; done). by rewrite Hp, andb_false_r.
Qed.

(** Splitting a command into stages loses nothing and splits exactly at the
    operators: the stages put together are the command, they alternate
    between texts and operators, and no text has an operator outside quotes. *)
Theorem shell_stages_are_exact command :
  String.concat "" (shell_stages command) = command ∧ staged (shell_stages command).
Proof.
  unfold shell_stages. remember (String.length command) as n eqn:Hn. revert command Hn. induction (lt_wf n) as [n _ IH].
  intros s ->. destruct (cut_always None "" s) as (u & rest & H1 & H2 & H3). rewrite H1. cbn [String.append] in *.
  destruct H3 as [[-> ->]|(op & s' & Hop & -> & ->)]; [by split; [|apply staged_last]|].
  destruct (IH (String.length s')) with (command := s') as [Hc Hs]; [rewrite !length_append|done|].
  - assert (0 < String.length op) by (repeat apply elem_of_cons in Hop as [->|Hop]; cbn; try lia; by apply elem_of_nil in Hop). lia.
  - split; [by rewrite !concat_cons, Hc|by apply staged_more].
Qed.

(** ** Reads outside of the workspace *)

Lemma starts_with_slash s : starts_with "/" s = true ↔ ∃ s', s = String slash s'.
Proof.
  destruct s as [|c s]; [by split; [|intros [? ?]]|]. unfold starts_with. cbn [String.prefix].
  destruct (ascii_dec "/" c) as [<-|Hne]; split; try done.
  - intros _. by exists s.
  - intros _. by destruct s.
  - intros [s' Heq]. destruct Hne. by injection Heq as -> _.
Qed.

Lemma normpath_absolute s : starts_with "/" s = true → starts_with "/" (normpath s) = true.
Proof.
  intros Hs. unfold normpath. rewrite Hs. apply starts_with_slash in Hs as [s' ->]. cbn [str_true String.eqb negb].
  destruct (starts_with "//" _ && _); cbn [str_true]; apply starts_with_slash; eexists; reflexivity.
Qed.

Lemma glob_base_absolute s : starts_with "/" s = true → starts_with "/" (glob_base s) = true.
Proof.
  intros Hs. unfold glob_base. destruct (_ =? _); [done|]. apply starts_with_slash in Hs as [s' ->].
  cbn [split_on]. rewrite Ascii.eqb_refl. cbn [before_pattern is_pattern all_chars negb].
  apply starts_with_slash. destruct (before_pattern (split_on slash s')) as [|k l]; [by eexists|].
  cbn. by eexists.
Qed.

Lemma one_in_elem s l : one_in s l = true ↔ s ∈ l.
Proof. unfold one_in. apply bool_decide_eq_true. Qed.

Lemma one_in_not s l : one_in s l = false ↔ s ∉ l.
Proof. unfold one_in. apply bool_decide_eq_false. Qed.

Lemma extend_new_elem l found x : x ∈ extend_new l found ↔ x ∈ l ∨ x ∈ found.
Proof.
  revert l. induction found as [|y found IH]; intros l; cbn [extend_new]; [set_solver|]. rewrite IH.
  destruct (one_in y l) eqn:Hy; [apply one_in_elem in Hy|]; set_solver.
Qed.

Lemma extend_new_NoDup l found : NoDup l → NoDup (extend_new l found).
Proof.
  revert l. induction found as [|y found IH]; intros l Hl; cbn [extend_new]; [done|]. apply IH.
  destruct (one_in y l) eqn:Hy; [done|]. apply one_in_not in Hy. apply NoDup_app. split_and!; [done|set_solver|apply NoDup_singleton].
Qed.

Lemma str_or_true a b : str_true (str_or a b) = str_true a || str_true b.
Proof. unfold str_or. by destruct (str_true a) eqn:H. Qed.

Lemma simple_no_host argv stdin : HOST_READ ∉ simple_capabilities argv stdin.
Proof. unfold simple_capabilities, scp_capabilities. repeat case_match; set_solver. Qed.

Lemma stage_no_host argv stdin : HOST_READ ∉ stage_capabilities argv stdin.
Proof. unfold stage_capabilities. case_match; [apply simple_no_host|set_solver]. Qed.

Section policy.
  Context (resolve : string → option string) (exists_path : string → bool) (p : CommandPolicy).

#[local] Abbreviation outside_reads := (outside_reads resolve exists_path p).
#[local] Abbreviation inside_sandbox := (inside_sandbox p).
#[local] Abbreviation scan_stage := (scan_stage resolve exists_path p).
#[local] Abbreviation shell_scan := (shell_scan resolve exists_path p).
#[local] Abbreviation classify := (classify resolve exists_path p).
#[local] Abbreviation classify_script := (classify_script resolve exists_path p).
#[local] Abbreviation classify_argv := (classify_argv p).
#[local] Abbreviation stage_danger := (stage_danger p).
#[local] Abbreviation escapes := (escapes p).

(** A path that may be exposed: it is there, absolute and outside the
    workspace, and neither it nor what it resolves to holds credentials or one
    of the sandbox's own mounts. *)
Record vetted (path : string) : Prop := {
  v_absolute : starts_with "/" path = true;
  v_exists : exists_path path = true;
  v_outside : inside_sandbox path = false;
  v_literal : secret_path path = false ∧ covers_mount path = false;
  v_resolved : ∃ target, resolve path = Some target ∧ secret_path target = false ∧ covers_mount target = false;
}.

Lemma outside_read_target_vetted operand path :
  starts_with "/" operand = true → outside_read_target resolve exists_path operand = (Some path, "") →
  inside_sandbox path = false → vetted path.
Proof.
  intros Ha. unfold outside_read_target. set (literal := normpath (glob_base operand)).
  destruct (resolve literal) as [target|] eqn:Hr; [|done].
  destruct (secret_path literal) eqn:H1, (secret_path target) eqn:H2; cbn [orb]; try done.
  destruct (covers_mount literal) eqn:H3, (covers_mount target) eqn:H4; cbn [orb]; try done.
  destruct (exists_path literal) eqn:He; [|done]. intros [= <-] Hi.
  split; [by apply normpath_absolute, glob_base_absolute|done|done|done|by exists target].
Qed.

Lemma outside_reads_from_spec binds operands found :
  outside_reads_from resolve exists_path p binds operands = (found, "") →
  Forall vetted binds → NoDup binds → Forall vetted found ∧ NoDup found.
Proof.
  revert binds. induction operands as [|operand operands IH]; intros binds; cbn [outside_reads_from]; [by intros [= <-]|].
  destruct (starts_with "/" operand) eqn:Ha; cbn [negb orb]; [|by apply IH]. destruct (inside_sandbox operand); [by apply IH|].
  destruct (outside_read_target resolve exists_path operand) as [target refusal] eqn:Ht.
  destruct refusal as [|c refusal]; cbn [str_true String.eqb negb]; [|done]. destruct target as [t|]; [|by apply IH].
  destruct (one_in t binds) eqn:Hin; cbn [negb andb]; [by apply IH|]. destruct (inside_sandbox t) eqn:Hi; cbn [negb]; [by apply IH|].
  intros Hf Hv Hnd. apply (IH _ Hf).
  - apply Forall_app. split; [done|]. apply Forall_singleton. by eapply outside_read_target_vetted.
  - apply NoDup_app. split_and!; [done| |apply NoDup_singleton]. intros x Hx ->%list_elem_of_singleton. by apply one_in_not in Hin.
Qed.

(** What was found is vetted, and nothing is found with a refusal. *)
Lemma outside_reads_spec operands : Forall vetted (outside_reads operands).1 ∧ NoDup (outside_reads operands).1.
Proof.
  destruct (outside_reads operands) as [found refusal] eqn:Hr. destruct refusal as [|c refusal].
  - eapply outside_reads_from_spec; [exact Hr|constructor|constructor].
  - assert (Hno : ∀ binds, outside_reads_from resolve exists_path p binds operands = (found, String c refusal) → found = []).
    { clear Hr. induction operands as [|operand operands IH]; intros binds; cbn [outside_reads_from]; [done|].
      destruct (_ || _); [by apply IH|]. destruct (outside_read_target _ _ _) as [t r]. destruct (str_true r); [by intros [= <- _]|].
      destruct t as [t|]; [|by apply IH]. destruct (_ && _); by apply IH. }
    rewrite (Hno _ Hr). by split; constructor.
Qed.

(** ** The scan of a script only grows *)

(** [s'] keeps what [s] found. *)
Record kept (s s' : scan) : Prop := {
  k_danger : str_true s.(sc_danger) = true → str_true s'.(sc_danger) = true;
  k_refusal : str_true s.(sc_refusal) = true → str_true s'.(sc_refusal) = true;
  k_capabilities : s.(sc_capabilities) ⊆ s'.(sc_capabilities);
  k_outside : ∀ x, x ∈ s.(sc_outside) → x ∈ s'.(sc_outside);
  k_vetted : Forall vetted s.(sc_outside) → Forall vetted s'.(sc_outside);
}.

#[local] Instance kept_preorder : PreOrder kept.
Proof.
  split.
  - intros s. by split.
  - intros s1 s2 s3 [] []. split; [by eauto..|set_solver|by eauto|by eauto].
Qed.

Lemma read_outside_kept operands s : kept s (read_outside resolve exists_path p operands s).
Proof.
  unfold read_outside. pose proof (outside_reads_spec operands) as [Hv _]. destruct (outside_reads operands) as [found denied].
  split; cbn; [done|by rewrite str_or_true; intros ->|done|intros x Hx; apply extend_new_elem; by left|].
  rewrite !Forall_forall. intros Hs x [?|?]%extend_new_elem; [by apply Hs|]. by rewrite Forall_forall in Hv; apply Hv.
Qed.

Lemma check_target_kept target s : kept s (check_target resolve exists_path p target s).
Proof.
  unfold check_target. destruct (escapes target); [|done]. destruct (_ && _); [apply read_outside_kept|].
  split; cbn; try done. by rewrite str_or_true; intros ->.
Qed.

Definition before_reads (argv : list string) (s : scan) : scan :=
  s <| sc_danger := str_or s.(sc_danger) (stage_danger argv) |>
    <| sc_capabilities := s.(sc_capabilities) ∪ stage_capabilities argv s.(sc_stdin) |>.

Lemma before_reads_kept argv s : kept s (before_reads argv s).
Proof. split; cbn; try done; [by rewrite str_or_true; intros ->|set_solver]. Qed.

Lemma stdin_kept s b : kept s (s <| sc_stdin := b |>).
Proof. by split. Qed.

Lemma scan_command_kept argv s : kept s (scan_command resolve exists_path p argv s).
Proof.
  change (scan_command resolve exists_path p argv s)
    with ((read_outside resolve exists_path p (path_operands argv) (before_reads argv s)) <| sc_stdin := false |>).
  etrans; [apply before_reads_kept|]. etrans; [apply read_outside_kept|]. apply stdin_kept.
Qed.

Lemma scan_text_kept token s : kept s (scan_text resolve exists_path p token s).
Proof.
  unfold scan_text. destruct (shlex_split token) as [ws|]; [|done]. destruct (skip_assignments ws); [done|]. apply scan_command_kept.
Qed.

Lemma scan_stage_kept s stage : kept s (scan_stage s stage).
Proof.
  unfold CommandPolicy.scan_stage. destruct (negb _); [done|]. destruct (one_in _ operators); [by split|].
  destruct (sc_target s); [|apply scan_text_kept]. set (s1 := s <| sc_target := false |>).
  assert (H1 : kept s s1) by by split. etrans; [exact H1|]. etrans; [apply check_target_kept|].
  destruct (str_true (py_strip _)); [apply scan_text_kept|done].
Qed.

Lemma scan_stages_kept s stages : kept s (foldl scan_stage s stages).
Proof. revert s. induction stages as [|stage stages IH]; intros s; cbn [foldl]; [done|]. etrans; [apply scan_stage_kept|apply IH]. Qed.

(** Only stages and redirections ask for capabilities. *)
Definition no_host (s : scan) : Prop := HOST_READ ∉ s.(sc_capabilities).

Lemma read_outside_no_host operands s : no_host s → no_host (read_outside resolve exists_path p operands s).
Proof. unfold read_outside, no_host. by destruct (outside_reads operands). Qed.

Lemma scan_text_no_host token s : no_host s → no_host (scan_text resolve exists_path p token s).
Proof.
  intros Hs. unfold scan_text. destruct (shlex_split token) as [ws|]; [|done]. destruct (skip_assignments ws) as [|w ws']; [done|].
  unfold no_host, scan_command. cbn. apply read_outside_no_host. unfold no_host. cbn.
  apply not_elem_of_union. split; [exact Hs|apply stage_no_host].
Qed.

Lemma scan_stage_no_host s stage : no_host s → no_host (scan_stage s stage).
Proof.
  intros Hs. unfold CommandPolicy.scan_stage. destruct (negb _); [done|]. destruct (one_in _ operators); [done|].
  destruct (sc_target s); [|by apply scan_text_no_host].
  assert (Hc : no_host (check_target resolve exists_path p (hd "" (words (py_strip stage))) (s <| sc_target := false |>))).
  { unfold check_target. destruct (escapes _); [|done]. destruct (_ && _); [by apply read_outside_no_host|done]. }
  destruct (str_true (py_strip _)); [by apply scan_text_no_host|done].
Qed.

Lemma shell_scan_no_host command : no_host (shell_scan command).
Proof.
  unfold CommandPolicy.shell_scan. assert (H0 : no_host (scan_start command)).
  { unfold no_host, scan_start. cbn [sc_capabilities]. destruct (writes_via_redirection command); set_solver. }
  revert H0. generalize (scan_start command). induction (shell_stages command) as [|stage l IH]; intros s Hs; [done|].
  cbn [foldl]. by apply IH, scan_stage_no_host.
Qed.

Lemma shell_scan_vetted command : Forall vetted (sc_outside (shell_scan command)).
Proof. apply (k_vetted _ _ (scan_stages_kept (scan_start command) (shell_stages command))). constructor. Qed.

(** What an assessment exposes. *)
Definition exposes_vetted (a : CommandAssessment) : Prop :=
  Forall vetted a.(host_read_paths) ∧ (HOST_READ ∈ a.(required_capabilities) ↔ a.(host_read_paths) ≠ []) ∧
  (a.(classification) = DANGEROUS → a.(host_read_paths) = [] ∧ a.(required_capabilities) = ∅).

Lemma refused_exposes command argv reason : exposes_vetted (refused command argv reason).
Proof. split_and!; [constructor|set_solver|done]. Qed.

Lemma script_exposes command scanned reason :
  exposes_vetted (assess command [] SHELL_COMPLEX reason
    (sc_capabilities (shell_scan scanned) ∪ (if bool_decide (sc_outside (shell_scan scanned) = []) then ∅ else {[HOST_READ]}))
    (sc_outside (shell_scan scanned))).
Proof.
  split_and!; [apply shell_scan_vetted| |done]. cbn [required_capabilities host_read_paths assess]. pose proof (shell_scan_no_host scanned) as Hn. unfold no_host in Hn.
  case_bool_decide as He; [rewrite He|]; set_solver.
Qed.

Lemma classify_argv_exposes command argv : exposes_vetted (classify_argv command argv) ∧ host_read_paths (classify_argv command argv) = [].
Proof.
  assert (Hk : ∀ kind, kind ≠ DANGEROUS → exposes_vetted (assess command argv kind "" (simple_capabilities argv false) [])).
  { intros kind Hkind. pose proof (simple_no_host argv false). split_and!; [constructor| |done]. cbn [required_capabilities host_read_paths assess]. set_solver. }
  assert (Hr : ∀ reason, exposes_vetted (refused command argv reason)) by (intros; apply refused_exposes).
  unfold CommandPolicy.classify_argv, sensitive_classification. repeat case_match; (split; [|done]); try first [by apply Hk|apply Hr].
  split_and!; [constructor| |done]. cbn [required_capabilities host_read_paths assess]. set_solver.
Qed.

Lemma with_host_reads_exposes a reads :
  exposes_vetted a → host_read_paths a = [] → Forall vetted reads → exposes_vetted (with_host_reads a reads).
Proof.
  intros (H1 & H2 & H3) Hn Hv. unfold with_host_reads. case_bool_decide as Hr; cbn [orb]; [by split_and!|].
  case_bool_decide as Hd; cbn [orb]; [by split_and!|]. split_and!; [done| |done]. cbn [required_capabilities host_read_paths assess]. set_solver.
Qed.

Lemma classify_exposes command : exposes_vetted (classify command).
Proof.
  unfold CommandPolicy.classify. destruct (negb _); [apply refused_exposes|]. destruct (has_nul _); [apply refused_exposes|].
  destruct (has_shell_syntax _).
  - unfold shell_capabilities. destruct (str_true _); [apply refused_exposes|]. destruct (str_true _); [apply refused_exposes|].
    apply script_exposes.
  - destruct (shlex_split _) as [[|w ws]|e]; [apply refused_exposes| |by split_and!; [constructor|set_solver|done]].
    destruct (List.find _ _); [apply refused_exposes|].
    destruct (outside_reads (path_operands (w :: ws))) as [reads refusal] eqn:Ho. destruct (str_true refusal); [apply refused_exposes|].
    destruct (classify_argv_exposes (strip_heredoc_bodies command) (w :: ws)) as [He Hn].
    apply with_host_reads_exposes; [done|done|]. pose proof (outside_reads_spec (path_operands (w :: ws))) as [Hv _]. by rewrite Ho in Hv.
Qed.

(** Whatever a command is, what its assessment exposes of the host was
    vetted: each path is there, absolute and outside the workspace, and
    neither it nor its target holds credentials or a mount of the sandbox; the
    capability to read the host is asked for exactly when a path is exposed,
    and a refused command exposes and asks for nothing. *)
Theorem outside_reads_are_vetted command :
  exposes_vetted (classify command) ∧ exposes_vetted (classify_script command).
Proof.
  split; [apply classify_exposes|]. unfold CommandPolicy.classify_script.
  destruct (_ || has_shell_syntax _); [apply classify_exposes|]. unfold shell_capabilities.
  destruct (_ || _); [apply classify_exposes|]. apply script_exposes.
Qed.

(** ** Every stage counts *)

(** The file and the command of a stage, after the stages before it. *)
Definition stage_target (s : scan) (stage : string) : option string :=
  let token := py_strip stage in
  if str_true token && negb (one_in token operators) && s.(sc_target) then Some (hd "" (words token)) else None.

Definition stage_text (s : scan) (stage : string) : string :=
  let token := py_strip stage in
  if negb (str_true token) || one_in token operators then ""
  else if s.(sc_target) then py_strip (drop (String.length (hd "" (words token))) token) else token.

(** What a command that is not refused must be. *)
Record harmless (argv : list string) : Prop := {
  h_in_place : in_place argv = false;
  h_program : is_module_test_run argv = true ∨
    ((binary_of argv ∉ DANGEROUS_BINS) ∧
     (contains "/" (program_of argv) = true → is_workspace_program p (program_of argv) = true));
}.

Lemma stage_danger_harmless argv : str_true (stage_danger argv) = false → harmless argv.
Proof.
  unfold CommandPolicy.stage_danger. rewrite str_or_true, orb_false_iff. intros [H1 H2]. split.
  - destruct (in_place argv); [|done]. done.
  - destruct (is_module_test_run argv); [by left|]. right. cbn [negb andb] in H2.
    destruct (unapproved p argv) eqn:Hu; [destruct (one_in _ PYTHON_BINS); discriminate H2|].
    unfold unapproved in Hu. apply orb_false_iff in Hu as [Hd Hs]. split; [by apply one_in_not|]. intros Hc. rewrite Hc in Hs.
    by apply negb_false_iff in Hs.
Qed.

(** What [read_outside] records. *)
Lemma read_outside_records operands s :
  str_true (sc_refusal (read_outside resolve exists_path p operands s)) = false →
  (outside_reads operands).2 = "" ∧
  ∀ x, x ∈ (outside_reads operands).1 → x ∈ sc_outside (read_outside resolve exists_path p operands s).
Proof.
  unfold read_outside. destruct (outside_reads operands) as [found denied]. cbn. rewrite str_or_true, orb_false_iff.
  intros [_ Hd]. split; [by destruct denied|]. intros x Hx. apply extend_new_elem. by right.
Qed.

(** What is recorded of a command, and of the file of a redirection. *)
Definition recorded (argv : list string) (final : scan) : Prop :=
  ∃ stdin, harmless argv ∧ stage_capabilities argv stdin ⊆ final.(sc_capabilities) ∧
    (outside_reads (path_operands argv)).2 = "" ∧ ∀ x, x ∈ (outside_reads (path_operands argv)).1 → x ∈ final.(sc_outside).

Definition argv_of (token : string) : option (list string) :=
  match shlex_split token with
  | Ok words => match skip_assignments words with [] => None | argv => Some argv end
  | Raise _ => None
  end.

Lemma quiet s final : kept s final → str_true final.(sc_danger) = false → str_true final.(sc_refusal) = false →
  str_true s.(sc_danger) = false ∧ str_true s.(sc_refusal) = false.
Proof.
  intros Hk Hd Hr. split; apply not_true_is_false; intros H.
  - apply (k_danger _ _ Hk) in H. congruence.
  - apply (k_refusal _ _ Hk) in H. congruence.
Qed.

Lemma scan_text_records token s final argv :
  kept (scan_text resolve exists_path p token s) final → str_true final.(sc_danger) = false → str_true final.(sc_refusal) = false →
  argv_of token = Some argv → recorded argv final.
Proof.
  unfold scan_text, argv_of. intros Hk Hd Hr. destruct (shlex_split token) as [ws|]; [|done].
  destruct (skip_assignments ws) as [|w ws'] eqn:Hw; [done|]. intros [= <-]. exists s.(sc_stdin).
  set (argv' := w :: ws') in *. set (s1 := before_reads argv' s).
  set (s2 := read_outside resolve exists_path p (path_operands argv') s1).
  assert (Hk2 : kept s2 final) by (etrans; [apply (stdin_kept s2 false)|exact Hk]).
  assert (Hk1 : kept s1 final) by (etrans; [apply read_outside_kept|exact Hk2]).
  destruct (read_outside_records _ _ (proj2 (quiet _ _ Hk2 Hd Hr))) as [Hn Hin].
  split; [|split; [|split]].
  - apply stage_danger_harmless. pose proof (proj1 (quiet _ _ Hk1 Hd Hr)) as Hno.
    change (sc_danger s1) with (str_or (sc_danger s) (stage_danger argv')) in Hno. rewrite str_or_true in Hno.
    by apply orb_false_iff in Hno as [_ ?].
  - pose proof (k_capabilities _ _ Hk1) as Hc.
    change (sc_capabilities s1) with (sc_capabilities s ∪ stage_capabilities argv' (sc_stdin s)) in Hc. set_solver.
  - done.
  - intros x Hx. by apply (k_outside _ _ Hk2), Hin.
Qed.

Definition recorded_read (s final : scan) (target : string) : Prop :=
  s.(sc_reads) = true ∧ starts_with "/" target = true ∧ (outside_reads [target]).2 = "" ∧
  ∀ x, x ∈ (outside_reads [target]).1 → x ∈ final.(sc_outside).

Lemma check_target_records target s final :
  kept (check_target resolve exists_path p target s) final → str_true final.(sc_danger) = false → str_true final.(sc_refusal) = false →
  escapes target = true → recorded_read s final target.
Proof.
  intros Hk Hd Hr He. unfold check_target in Hk. rewrite He in Hk. unfold recorded_read.
  destruct (sc_reads s && starts_with "/" target) eqn:Hread.
  - apply andb_true_iff in Hread as [-> ->]. split; [done|]. split; [done|].
    destruct (read_outside_records _ _ (proj2 (quiet _ _ Hk Hd Hr))) as [Hn Hin]. split; [done|].
    intros x Hx. by apply (k_outside _ _ Hk), Hin.
  - exfalso. pose proof (proj1 (quiet _ _ Hk Hd Hr)) as Hno. cbn [sc_danger] in Hno.
    match type of Hno with str_true (sc_danger (_ <| sc_danger := ?d |>)) = _ => change (str_true d = false) in Hno end.
    rewrite str_or_true in Hno. apply orb_false_iff in Hno as [_ Hno]. discriminate Hno.
Qed.

(** What a stage adds is in what follows. *)
Lemma scan_stage_records s stage final :
  kept (scan_stage s stage) final → str_true final.(sc_danger) = false → str_true final.(sc_refusal) = false →
  (∀ argv, str_true (stage_text s stage) = true → argv_of (stage_text s stage) = Some argv → recorded argv final) ∧
  (∀ target, stage_target s stage = Some target → escapes target = true → recorded_read s final target).
Proof.
  intros Hk Hd Hr. unfold stage_text, stage_target. unfold CommandPolicy.scan_stage in Hk.
  destruct (str_true (py_strip stage)); cbn [negb orb andb] in *; [|by split].
  destruct (one_in (py_strip stage) operators); cbn [negb orb andb] in *; [by split|].
  destruct (sc_target s); [|by split; [|done]; intros argv _; by eapply scan_text_records].
  set (target := hd "" (words (py_strip stage))) in *. set (s0 := s <| sc_target := false |>) in *.
  assert (Hk1 : kept (check_target resolve exists_path p target s0) final).
  { destruct (str_true (py_strip (drop _ _))); [etrans; [apply scan_text_kept|exact Hk]|exact Hk]. }
  split.
  - intros argv Ht. rewrite Ht in Hk. by eapply scan_text_records.
  - intros t [= <-] He. by apply (check_target_records target s0 final).
Qed.

(** A command that is judged by its stages: it has shell syntax, or it was
    refused as a simple command and is judged again. *)
Inductive judged_as_script (command : string) : CommandAssessment → Prop :=
  | script_syntax :
      has_shell_syntax (strip_heredoc_bodies command) = true → judged_as_script command (classify command)
  | script_again :
      has_shell_syntax (strip_heredoc_bodies command) = false → classification (classify command) = DANGEROUS →
      judged_as_script command (classify_script command).

Lemma script_scan command a :
  judged_as_script command a → a.(classification) ≠ DANGEROUS →
  str_true (sc_danger (shell_scan (strip_heredoc_bodies command))) = false ∧
  str_true (sc_refusal (shell_scan (strip_heredoc_bodies command))) = false ∧
  sc_capabilities (shell_scan (strip_heredoc_bodies command)) ⊆ a.(required_capabilities) ∧
  a.(host_read_paths) = sc_outside (shell_scan (strip_heredoc_bodies command)).
Proof.
  intros [Hs|Hs Hd] Ha.
  - unfold CommandPolicy.classify in *. destruct (negb _); [done|]. destruct (has_nul _); [done|]. rewrite Hs in *.
    unfold shell_capabilities in *. destruct (str_true _); [done|]. destruct (str_true _); [done|]. split_and!; try done.
    cbn [required_capabilities assess]. set_solver.
  - unfold CommandPolicy.classify_script in *. cbv zeta in *. rewrite (bool_decide_true (classification (classify command) = DANGEROUS)) in * by exact Hd. rewrite Hs in *.
    cbn [negb orb] in *. destruct (negb (str_true (py_strip command)) || has_nul command || false); [by destruct (Ha Hd)|].
    unfold shell_capabilities in *. destruct (str_true _); cbn [orb] in *; [by destruct (Ha Hd)|].
    destruct (str_true (sc_refusal _)); [by destruct (Ha Hd)|]. split_and!; try done.
    cbn [required_capabilities assess]. set_solver.
Qed.


(** ** Authorization *)

Lemma empty_difference (x y : capabilities) : x ∖ y = ∅ ↔ x ⊆ y.
Proof.
  split; [|apply subseteq_empty_difference_L]. intros He c Hc. destruct (decide (c ∈ y)) as [|Hn]; [done|].
  assert (c ∈ x ∖ y) as Hd by by apply elem_of_difference. rewrite He in Hd. by apply not_elem_of_empty in Hd.
Qed.

Lemma requires_confirmation_false a :
  requires_confirmation a = false ↔ a.(classification) = READ_ONLY ∧ a.(required_capabilities) ## SENSITIVE_CAPABILITIES.
Proof.
  unfold requires_confirmation. rewrite orb_false_iff, !negb_false_iff, !bool_decide_eq_true. by rewrite <- disjoint_intersection_L.
Qed.

Lemma safe_is_harmless x :
  p.(capability_policy) = DEFAULT_CAPABILITY_POLICY → x ⊆ available_capabilities p SAFE → x ⊆ {[FILESYSTEM_READ; HOST_READ; SHELL]}.
Proof.
  intros Hp. unfold available_capabilities. rewrite Hp. cbn [for_mode safe DEFAULT_CAPABILITY_POLICY]. set_solver.
Qed.

End policy.

(** ** Examples *)

Module CommandExamples.

Definition policy (mounts : list string) (hint : option string) : CommandPolicy :=
  mk_command_policy DEFAULT_CAPABILITY_POLICY mounts hint.

(** A line break separates commands for the shell and not for the stages:
    the second line of a script is taken for arguments of the first, so that a
    removal that is refused on its own, or after a semicolon, is authorized
    without a question after a build. *)
Theorem second_line_is_not_a_stage resolve exists_path mounts hint :
  let p := policy mounts hint in
  let script := "make" +:+ String "010" "rm -rf src" in
  let kind c := classification (classify resolve exists_path p c) in
  kind "rm -rf src" = DANGEROUS ∧ kind "make; rm -rf src" = DANGEROUS ∧ kind script = SHELL_COMPLEX ∧
  allowed (authorize p (classify resolve exists_path p script) AUTO None) = true ∧
  WORKSPACE_WRITE ∈ granted_capabilities (authorize p (classify resolve exists_path p script) AUTO None).
Proof. split_and!; vm_compute; reflexivity. Qed.

Definition here (s : string) : option string := Some s.
Definition there (s : string) : bool := true.
Definition p := policy ["/home/me/project"] None.
Definition script : string := "grep -n main /opt/notes/a.md | head; ./build.sh > log.txt".


Example outside_read_is_exposed :
  let a := classify here there p script in
  (classification a, host_read_paths a) = (SHELL_COMPLEX, ["/opt/notes/a.md"]) ∧ HOST_READ ∈ required_capabilities a.
Proof. split; [vm_compute; reflexivity|apply (bool_decide_unpack _); vm_compute; exact I]. Qed.
End CommandExamples.
