(* ===== verification/ToolRouter.v ===== *)
(** * The router of tool calls: [client/harness/tool_router.py]

    One call goes through the gates of the turn, the ledger of repetitions,
    the handler or the command boundary, and comes back as an envelope sized
    for the model, traced and shown to the hooks.  Handlers, the command
    boundary, the gates the caller supplies and the two components that know
    the request are answers over an opaque world; times are left out. *)

From Stdlib Require Import Ascii.
From S2P Require Import Prelude Texts Values ToolRegistry ResultStore.

#[local] Open Scope Z_scope.
Open Scope py_scope.

(** ** Results *)

Inductive ToolResultStatus :=
  | OK | FAILED | CANCELLED | DENIED | INVALID_ARGUMENTS | UNKNOWN_TOOL | TIMEOUT | CACHED.

#[export] Instance ToolResultStatus_eq_dec : EqDecision ToolResultStatus.
Proof. solve_decision. Defined.

Definition status_value (s : ToolResultStatus) : string :=
  match s with
  | OK => "ok" | FAILED => "failed" | CANCELLED => "cancelled" | DENIED => "denied"
  | INVALID_ARGUMENTS => "invalid_arguments" | UNKNOWN_TOOL => "unknown_tool"
  | TIMEOUT => "timeout" | CACHED => "cached"
  end.

Definition category_value (c : ToolCategory) : string :=
  match c with
  | CAT_COMMAND => "command" | ToolRegistry.FILE_READ => "file_read" | FILE_WRITE => "file_write" | RETRIEVAL => "retrieval"
  | MEMORY => "memory" | WEB => "web" | OTHER => "other"
  end.

Record ToolHandlerResult := mk_result {
  hr_text : content;
  hr_status : ToolResultStatus;
  hr_exit_code : option Z;
  hr_stdout : option string;
  hr_stderr : option string;
  hr_metadata : dict string json;
  hr_mutation : bool;
  hr_affected_paths : list string;
  hr_read_paths : list string;
  hr_error_category : option string;
  hr_error_summary : option string;
  hr_model_text : option string;
}.

(** A result of a text and a status, what it observed being absent. *)
Definition plain_result (text : string) (status : ToolResultStatus) (category summary : option string) : ToolHandlerResult :=
  mk_result (Text text) status None None None [] false [] [] category summary None.

Record ToolResultEnvelope := mk_envelope {
  tool_call_id : string;
  action_id : string;
  tool_name : string;
  success : bool;
  status : ToolResultStatus;
  text : string;
  model_content : string;
  category : string;
  output_bytes : Z;
  exit_code : option Z;
  stdout : option string;
  stderr : option string;
  metadata : dict string json;
  truncated_for_model : bool;
  mutation : bool;
  affected_paths : list string;
  read_paths : list string;
  error_category : option string;
  error_summary : option string;
  result_reference : option string;
}.

#[export] Instance ToolResultEnvelope_eta : Eta ToolResultEnvelope :=
  λ e, mk_envelope e.(tool_call_id) e.(action_id) e.(tool_name) e.(success) e.(status) e.(text) e.(model_content)
         e.(category) e.(output_bytes) e.(exit_code) e.(stdout) e.(stderr) e.(metadata) e.(truncated_for_model)
         e.(mutation) e.(affected_paths) e.(read_paths) e.(error_category) e.(error_summary) e.(result_reference).

Definition NOT_EXECUTED : list ToolResultStatus := [DENIED; CANCELLED; INVALID_ARGUMENTS; UNKNOWN_TOOL].

Definition invalidates_reads (float_eq : string → Z → bool) (status : ToolResultStatus) (mutation : bool)
    (metadata : dict string json) : bool :=
  if bool_decide (status ∈ NOT_EXECUTED) then false else
  let count := as_int (get_or_null metadata "mutation_count") in
  if mutation || match count with Some n => 0 <? n | None => false end then true else
  match count with
  | Some _ => false
  | None => py_true float_eq (get_or_null metadata "potentially_mutating")
  end.

Definition MAX_FAILED_REPEATS : Z := 2.
Definition MAX_CACHED_REPEATS : Z := 1.

(** ** What a handler may answer *)

(** What it returns, or what it raises: a cancellation, or anything else with
    the name of its class and its text. *)
Inductive handler_value := Structured (r : ToolHandlerResult) | Legacy (c : content) | Unsupported.
Inductive outcome := Returned (v : handler_value) | Interrupted (reason : string) | Raised (class message : string).

(** The pattern [\(exit\s+(-?\d+)\)] at the head of a text. *)
Definition exit_at (s : string) : option Z :=
  if negb (String.prefix "(exit" s) then None else
  let '(blank, rest) := span py_isspace (drop 5 s) in
  if negb (str_true blank) then None else
  let '(sign, rest) := match rest with String "-"%char r => (true, r) | r => (false, r) end in
  let '(digits, rest) := span is_digit rest in
  if str_true digits && String.prefix ")" rest
  then (λ n, if sign then - n else n) <$> int_of_str digits else None.

Fixpoint exit_match (s : string) : option Z :=
  match exit_at s with
  | Some n => Some n
  | None => match s with EmptyString => None | String _ s' => exit_match s' end
  end.

Definition legacy_status (text : string) (exit_code : option Z) : ToolResultStatus :=
  if String.prefix "CANCELLED" text then CANCELLED
  else if String.prefix "ERROR" text then if contains "timed out" (py_lower text) then TIMEOUT else FAILED
  else if match exit_code with None | Some 0 => false | _ => true end then FAILED
  else if String.prefix "(ALREADY EXECUTED" text then CACHED
  else OK.

Definition is_success (s : ToolResultStatus) : bool := bool_decide (s = OK ∨ s = CACHED).

Definition first_line (text : string) : string := hd "" (splitlines text).

Section normalize.
  (** [bytes.decode] in UTF-8, what is not being replaced. *)
  Context (decode : string → string).

Definition content_text (c : content) : string := match c with Text s => s | Bytes b => decode b end.

(** [_normalize_handler_result]; [None] is a [TypeError].  A text that is not
    a success is not empty. *)
Definition normalize_handler_result (v : handler_value) : option ToolHandlerResult :=
  match v with
  | Structured r => Some r
  | Legacy c =>
      let text := content_text c in
      let exit_code := exit_match text in
      let status := legacy_status text exit_code in
      let failed := negb (is_success status) in
      Some (mk_result c status exit_code None None [] false [] []
              (if failed then Some (status_value status) else None)
              (if failed then Some (String.substring 0 240 (first_line text)) else None) None)
  | Unsupported => None
  end.
End normalize.

(** ** Arguments *)

Definition type_matches (expected : string) (value : json) : bool :=
  match value with
  | JStr _ => String.eqb expected "string"
  | JInt _ => String.eqb expected "integer" || String.eqb expected "number"
  | JFloat _ => String.eqb expected "number"
  | JBool _ => String.eqb expected "boolean"
  | JList _ => String.eqb expected "array"
  | JObj _ => String.eqb expected "object"
  | JNull => false
  end.

(** The mapping in a value: the schema of a specification has been validated
    when it was constructed. *)
Definition mapping (j : json) : dict string json := match j with JObj m => m | _ => [] end.

Definition required_of (schema : json) : list string :=
  match dict_get_default (mapping schema) "required" (JList []) with
  | JList l => omap (λ j, match j with JStr s => Some s | _ => None end) l
  | _ => []
  end.

Definition properties_of (schema : json) : dict string json :=
  mapping (dict_get_default (mapping schema) "properties" (JObj [])).

(** What is wrong with one argument. *)
Definition argument_error (properties : dict string json) (argument : string * json) : option string :=
  match get_or_null (mapping (get_or_null properties argument.1)) "type" with
  | JStr expected =>
      if bool_decide (expected ∈ schema_types) && negb (type_matches expected argument.2)
      then Some ("argument '" +:+ argument.1 +:+ "' must be " +:+ expected) else None
  | _ => None
  end.

Definition head_of {A B} (f : A → option B) (l : list A) : option B := hd_error (omap f l).

Definition validate_arguments (spec : ToolSpec) (arguments : json) : option string :=
  match arguments with
  | JObj given =>
      match head_of (λ name, if dict_mem name given then None else Some ("missing required argument '" +:+ name +:+ "'"))
              (required_of spec.(tl_input_schema)) with
      | Some missing => Some missing
      | None => head_of (argument_error (properties_of spec.(tl_input_schema))) given
      end
  | _ => Some "arguments must be an object"
  end.

Definition target_keys : list string := ["path"; "file_path"; "file"].

(** The file the call names. *)
Definition target_of (arguments : json) : string :=
  default "" (head_of (λ key, match get_or_null (mapping arguments) key with JStr s => Some s | _ => None end) target_keys).

Definition stated_reason (arguments : json) : string :=
  match get_or_null (mapping arguments) "scope_reason" with JStr s => py_strip s | _ => "" end.

Definition without_scope_reason (arguments : json) : json :=
  match arguments with
  | JObj m => JObj (List.filter (λ kv, negb (String.eqb kv.1 "scope_reason")) m)
  | j => j
  end.

Definition argument_keys_of (arguments : json) : list string := sort_strings (dict_keys (mapping arguments)).

Definition command_of (arguments : json) : option string :=
  match get_or_null (mapping arguments) "command" with JStr c => Some c | _ => None end.

(** ** What surrounds a call *)

(** The two components that read the request and the tree, asked about the
    world as it is: what a tool may write ([request_scope]), where a command
    may look and what it writes, and the files no tool may change
    ([target_policy]).  An empty text allows. *)
Class RequestPolicy (W Scope : Type) := {
  sibling_write_refusal : W → Scope → string → string;
  outside_project_refusal : W → string → Scope → string;
  shell_write_refusal : W → string → Scope → option string → string;
  shell_write_targets : W → string → Scope → option string → list string;
  target_refusal : W → string → string;
}.

Record gate_decision := mk_decision { gd_allowed : bool; gd_reason : string; gd_message : string }.

(** What a handler may change: the world, and the reasons kept in the part of
    the cache that has text keys. *)
Record shared (W : Type) := mk_shared { world : W; scope_reasons : list (string * string) }.
Arguments mk_shared {W} world scope_reasons.
Arguments world {W} s.
Arguments scope_reasons {W} s.
#[export] Instance shared_eta W : Eta (shared W) := λ s, mk_shared s.(world) s.(scope_reasons).

Abbreviation Handler W := (string → json → shared W → shared W * outcome).

Record ToolExecutionContext (W Scope : Type) := mk_context {
  task_id : string;
  has_result_store : bool;
  command_executor : option (string → shared W → shared W * outcome);
  command_cwd : option string;
  is_cancelled : W → option string;
  role : string;
  evidence_available : option (W → string → option bool);
  read_only : bool;
  advisory : bool;
  scope : option Scope;
  write_gate : option (W → string → option gate_decision);
  execution_mode : string;
}.
Arguments task_id {W Scope} t.
Arguments has_result_store {W Scope} t.
Arguments command_executor {W Scope} t.
Arguments command_cwd {W Scope} t.
Arguments is_cancelled {W Scope} t.
Arguments role {W Scope} t.
Arguments evidence_available {W Scope} t.
Arguments read_only {W Scope} t.
Arguments advisory {W Scope} t.
Arguments scope {W Scope} t.
Arguments write_gate {W Scope} t.
Arguments execution_mode {W Scope} t.

Record evidence_record := mk_evidence { ev_call : string; ev_content : string; ev_reference : option string }.

(** The tally of a task: how often a call failed, how often an observation
    was repeated, what was observed, and how often something was written. *)
Record repeat_ledger := mk_ledger {
  failed : gmap string Z;
  cached : gmap string Z;
  evidence : gmap string evidence_record;
  generation : Z;
}.
#[export] Instance repeat_ledger_eta : Eta repeat_ledger :=
  λ l, mk_ledger l.(failed) l.(cached) l.(evidence) l.(generation).

Definition empty_ledger : repeat_ledger := mk_ledger ∅ ∅ ∅ 0.

Record trace_fields := mk_fields {
  tf_output_bytes : Z; tf_exit_code : option Z; tf_truncated : bool; tf_stored : bool; tf_mutation_count : Z;
}.

Inductive trace_event :=
  | TOOL_CALL_STARTED (tool action category : string) (keys : list string)
  | TOOL_CALL_FINISHED (tool action : string) (fields : trace_fields)
  | TOOL_CALL_FAILED (tool action category summary : string) (cancelled : bool) (fields : option trace_fields)
  | REPEATED_ACTION_DETECTED (tool action kind : string) (count : Z) (terminal : bool)
  | TRACE_FILE_READ (tool action path : string)
  | FILE_MODIFIED (tool action path : string).

Record ToolHookEvent := mk_hook {
  phase : string; hk_action : string; hk_tool : string; hk_category : string; hk_keys : list string;
  hk_success : option bool; hk_status : option string;
}.

(** The state a call changes: what handlers share, the ledger (an absent one
    is empty), the result store, the trace and what the hooks were told. *)
Record state (W : Type) := mk_state {
  cache : shared W; ledger : repeat_ledger; results : store; trace : list trace_event; hook_log : list ToolHookEvent;
}.
Arguments mk_state {W} cache ledger results trace hook_log.
Arguments cache {W} s.
Arguments ledger {W} s.
Arguments results {W} s.
Arguments trace {W} s.
Arguments hook_log {W} s.
#[export] Instance state_eta W : Eta (state W) :=
  λ s, mk_state s.(cache) s.(ledger) s.(results) s.(trace) s.(hook_log).

(** What escapes from a call. *)
Inductive exn := IndexError | StoreError (e : ResultStore.exn).

(** A call refused before it runs. *)
Record refusal := mk_refusal {
  rf_status : ToolResultStatus; rf_kind : string; rf_text : string; rf_category : string; rf_keys : list string;
}.

Record admitted := mk_admitted { ad_spec : ToolSpec; ad_arguments : json; ad_keys : list string }.

Definition count_of (m : gmap string Z) (k : string) : Z := default 0 (m !! k).
Definition bump (k : string) (m : gmap string Z) : gmap string Z := <[k := count_of m k + 1]> m.

Definition REPEAT_REFUSAL (count : Z) : string :=
  "ERROR: this exact call has already failed " +:+ pretty count +:+ " times and was not run again. "
  +:+ "Repeating it will not change the result. Take a different route: use the tools that act on this workspace "
  +:+ "(bash, edit_file, write_file, search_corpus), or say what is blocking you and stop.".

Definition CACHED_REFUSAL : string :=
  "ERROR: this exact observation is already present in the context and no state has changed. "
  +:+ "Use the existing evidence and answer the user, or choose an action that obtains genuinely new information.".

Definition read_only_refusal (advisory : bool) (name : string) : string :=
  if advisory
  then "ERROR: this task is read-only -- the user asked whether or how something could change, not for the change, so '"
       +:+ name +:+ "' is refused. Nothing in this turn can write: answer with what would have to change, where, and why."
  else "ERROR: this task is read-only -- you were asked not to change anything, so '"
       +:+ name +:+ "' is refused. Nothing in this turn can write: answer from what you have read.".

Definition SHELL_HINT : string :=
  ". A shell command is not a way around this: the same file is refused to every tool.".

Section router.
  Context {W Scope : Type} `{RequestPolicy W Scope}.
  Context (float_eq : string → Z → bool) (repr : json → string) (decode : string → string).
  (** JSON with sorted keys, and the parameters of the result store. *)
  Context (canonical : json → string) (hash : string → string) (dumps : json → string).
  Context (registry : ToolRegistry (Handler W)).
  Implicit Types (ctx : ToolExecutionContext W Scope) (s : state W).

Abbreviation op := (M (state W) exn).
Abbreviation gate_op := (M (state W) refusal).

(** [action_signature]: decoded arguments are always serializable. *)
Definition action_signature (name : string) (arguments : json) (generation : Z) : string :=
  pretty generation +:+ ":" +:+ name +:+ ":" +:+ canonical arguments.

Definition emit {E} (e : trace_event) : M (state W) E unit := modify (λ s, s <| trace ::= λ t, t ++ [e] |>).
Definition notify {E} (e : ToolHookEvent) : M (state W) E unit := modify (λ s, s <| hook_log ::= λ t, t ++ [e] |>).

(** ** The gates *)

Definition deny (status : ToolResultStatus) (kind text category : string) : refusal :=
  mk_refusal status kind text category [].

Definition cancellation_gate ctx : gate_op unit :=
  let* s := get in
  guard (bool_decide (ctx.(is_cancelled) s.(cache).(world) = None))
    (deny CANCELLED "interrupted" "ERROR: tool execution cancelled before start" "other").

Definition tool_gate (name : string) : gate_op ToolSpec :=
  lift (match get_spec name registry with
        | Ok spec => Ok spec
        | Raise _ => Raise (deny UNKNOWN_TOOL "unknown_tool" ("ERROR: unknown tool: " +:+ name) "other")
        end).

Definition role_gate ctx (spec : ToolSpec) (name : string) : gate_op unit :=
  guard (bool_decide (ctx.(role) ∈ spec.(tl_roles)))
    (deny DENIED "permission_denied" ("ERROR: tool '" +:+ name +:+ "' is unavailable to role '" +:+ ctx.(role) +:+ "'")
       (category_value spec.(tl_category))).

Definition is_mutating (spec : ToolSpec) : bool := bool_decide (spec.(tl_mutability) = MUTATING).

Definition read_only_gate ctx (spec : ToolSpec) (name : string) : gate_op unit :=
  guard (negb (ctx.(read_only) && is_mutating spec))
    (deny DENIED "read_only_task" (read_only_refusal ctx.(advisory) name) (category_value spec.(tl_category))).

Definition is_mapping (j : json) : bool := match j with JObj _ => true | _ => false end.

(** A write next to what was asked about needs a stated reason, which is
    kept. *)
Definition sibling_gate ctx (spec : ToolSpec) (name : string) (arguments : json) : gate_op unit :=
  match ctx.(scope) with
  | Some sc =>
      if is_mapping arguments && is_mutating spec then
        let* s := get in
        let target := target_of arguments in
        let reason := stated_reason arguments in
        let why := sibling_write_refusal s.(cache).(world) sc target in
        do* guard (negb (str_true why && negb (str_true reason)))
              (deny DENIED "outside_requested_scope" ("ERROR: '" +:+ name +:+ "' refused: " +:+ why)
                 (category_value spec.(tl_category))) in
        if str_true why
        then modify (λ s, s <| cache ::= λ c, c <| scope_reasons ::= λ l, l ++ [(target, String.substring 0 500 reason)] |> |>)
        else ret tt
      else ret tt
  | None => ret tt
  end.

(** Why a command is refused, and under which category. *)
Definition command_refusal ctx (w : W) (sc : Scope) (command : string) : option (string * string) :=
  let why := outside_project_refusal w command sc in
  if str_true why then Some (why, "outside_project") else
  let why := shell_write_refusal w command sc ctx.(command_cwd) in
  if str_true why then Some (why, "outside_requested_scope") else
  match List.find str_true (target_refusal w <$> shell_write_targets w command sc ctx.(command_cwd)) with
  | Some why => Some (why +:+ SHELL_HINT, "protected_target")
  | None => None
  end.

Definition command_gate ctx (spec : ToolSpec) (arguments : json) : gate_op unit :=
  match ctx.(scope), command_of arguments with
  | Some sc, Some command =>
      if bool_decide (spec.(tl_category) = CAT_COMMAND) then
        let* s := get in
        match command_refusal ctx s.(cache).(world) sc command with
        | Some (why, kind) =>
            raise (deny DENIED kind ("ERROR: command refused: " +:+ why) (category_value spec.(tl_category)))
        | None => ret tt
        end
      else ret tt
  | _, _ => ret tt
  end.

Definition write_gate_decision ctx (w : W) (target : string) : option gate_decision :=
  match ctx.(write_gate) with Some ask => ask w target | None => None end.

Definition turn_gate ctx (spec : ToolSpec) (arguments : json) : gate_op unit :=
  if is_mutating spec then
    let* s := get in
    match write_gate_decision ctx s.(cache).(world) (target_of arguments) with
    | Some d => guard d.(gd_allowed)
                  (deny DENIED (str_or d.(gd_reason) "investigation_incomplete")
                     ("ERROR: " +:+ str_or d.(gd_message) "investigation incomplete")
                     (category_value spec.(tl_category)))
    | None => ret tt
    end
  else ret tt.

Definition mode_allows ctx (spec : ToolSpec) : bool :=
  negb (negb (bool_decide (spec.(tl_execution_modes) = [])) && str_true ctx.(execution_mode)
        && negb (bool_decide (ctx.(execution_mode) ∈ spec.(tl_execution_modes)))).

Definition mode_gate ctx (spec : ToolSpec) (name : string) : gate_op unit :=
  guard (mode_allows ctx spec)
    (deny DENIED "execution_mode_denied"
       ("ERROR: '" +:+ name +:+ "' is unavailable in " +:+ ctx.(execution_mode) +:+ " mode.")
       (category_value spec.(tl_category))).

Definition argument_gate (spec : ToolSpec) (name : string) (arguments : json) : gate_op unit :=
  match validate_arguments spec arguments with
  | Some wrong =>
      if str_true wrong
      then raise (mk_refusal INVALID_ARGUMENTS "invalid_arguments"
                    ("ERROR: invalid arguments for " +:+ name +:+ ": " +:+ wrong)
                    (category_value spec.(tl_category)) (argument_keys_of arguments))
      else ret tt
  | None => ret tt
  end.

(** [_policy_gate], up to the refusal. *)
Definition policy_gate ctx (name : string) (arguments : json) : gate_op admitted :=
  do* cancellation_gate ctx in
  let* spec := tool_gate name in
  do* role_gate ctx spec name in
  do* read_only_gate ctx spec name in
  do* sibling_gate ctx spec name arguments in
  let arguments := without_scope_reason arguments in
  do* command_gate ctx spec arguments in
  do* turn_gate ctx spec arguments in
  do* mode_gate ctx spec name in
  do* argument_gate spec name arguments in
  ret (mk_admitted spec arguments (argument_keys_of arguments)).

(** ** Refusing *)

(** [_early_failure] *)
Definition early_failure (call action name : string) (r : refusal) : op ToolResultEnvelope :=
  do* emit (TOOL_CALL_STARTED name action r.(rf_category) r.(rf_keys)) in
  do* emit (TOOL_CALL_FAILED name action r.(rf_kind) (String.substring 0 240 r.(rf_text)) false None) in
  do* notify (mk_hook "on_tool_failure" action name r.(rf_category) r.(rf_keys) (Some false) (Some (status_value r.(rf_status)))) in
  ret (mk_envelope call action name false r.(rf_status) r.(rf_text) r.(rf_text) r.(rf_category)
         (Z.of_nat (String.length (encode_utf8 r.(rf_text)))) None None None [] false false [] []
         (Some r.(rf_kind)) (Some r.(rf_text)) None).

(** [_suppressed_repeat] *)
Definition suppressed_repeat (call action name category : string) (keys : list string) (count : Z) (kind text : string)
    (terminal : bool) : op ToolResultEnvelope :=
  do* emit (REPEATED_ACTION_DETECTED name action kind count terminal) in
  let* e := early_failure call action name (mk_refusal DENIED kind text category keys) in
  ret (e <| metadata := [("suppressed_repeat", JBool true); ("repeat_count", JInt count); ("repeat_kind", JStr kind);
                         ("terminal_repeat", JBool terminal); ("category", JStr category)] |>).

(** The gates of a call: the refusal's envelope, or what was admitted. *)
Definition gated ctx (call action name : string) (arguments : json) : op (ToolResultEnvelope + admitted) :=
  λ s, match policy_gate ctx name arguments s with
       | (s, Ok a) => (s, Ok (inr a))
       | (s, Raise r) => (let* e := early_failure call action name r in ret (inl e)) s
       end.

Definition authorize ctx (action name : string) (arguments : json) : op (option string) :=
  let* verdict := gated ctx "authorize" action name arguments in
  ret (match verdict with inl e => Some e.(text) | inr _ => None end).

(** ** Running *)

Definition evidence_visible ctx (w : W) (l : repeat_ledger) (fingerprint : string) : bool :=
  match ev_call <$> l.(evidence) !! fingerprint, ctx.(evidence_available) with
  | Some marker, Some available => default true (available w marker)
  | _, _ => true
  end.

(** A handler on its arguments, or a command across the boundary. *)
Definition dispatch ctx (action name : string) (spec : ToolSpec) (arguments : json) (c : shared W) : shared W * outcome :=
  if bool_decide (spec.(tl_category) = CAT_COMMAND) then
    match ctx.(command_executor) with
    | None => (c, Returned (Structured (plain_result "ERROR: command execution boundary unavailable" DENIED
                (Some "security_boundary_unavailable") (Some "command execution boundary unavailable"))))
    | Some run =>
        match dict_get (mapping arguments) "command" with
        | Some command => run (py_str repr command) c
        | None => (c, Raised "KeyError" "'command'")
        end
    end
  else
    match get_handler name registry with
    | Ok (Some handler) => handler action arguments c
    | Ok None => (c, Raised "RuntimeError" "registered tool has no handler")
    | Raise _ => (c, Raised "KeyError" ("'unknown tool: " +:+ name +:+ "'"))
    end.

(** The whole protected part: cancelled before, run, cancelled after. *)
Definition run_handler ctx (action name : string) (spec : ToolSpec) (arguments : json) (c : shared W) : shared W * outcome :=
  match ctx.(is_cancelled) c.(world) with
  | Some reason => (c, Interrupted reason)
  | None =>
      let '(c, o) := dispatch ctx action name spec arguments c in
      match o with
      | Returned _ => match ctx.(is_cancelled) c.(world) with Some reason => (c, Interrupted reason) | None => (c, o) end
      | _ => (c, o)
      end
  end.

Definition normalized_outcome (name : string) (o : outcome) : ToolHandlerResult :=
  let raised class message :=
    plain_result ("ERROR: tool '" +:+ name +:+ "' failed: " +:+ message) FAILED (Some class)
      (Some (str_or (String.substring 0 240 message) class)) in
  match o with
  | Returned v =>
      match normalize_handler_result decode v with
      | Some r => r
      | None => raised "TypeError" "tool handler must return ToolHandlerResult, str, or bytes"
      end
  | Interrupted reason => plain_result ("ERROR: " +:+ reason) CANCELLED (Some "interrupted") (Some reason)
  | Raised class message => raised class message
  end.

Definition length_of (s : string) : Z := Z.of_nat (String.length s).

(** What a preview ends with. *)
Definition limit_suffix (bytes : Z) (reference : option string) : string :=
  String "010" (String "010" ("[tool output limited for model context: " +:+ pretty bytes +:+ " bytes; ")) +:+
  match reference with
  | Some r => if str_true r then "full result reference " +:+ r +:+ "]" else "no result store configured]"
  | None => "no result store configured]"
  end.

Definition model_content_of (policy : ToolResultPolicy) (shown : string) (bytes : Z) (reference : option string) : string :=
  if policy.(model_context_chars) <? length_of shown
  then String.substring 0 (Z.to_nat policy.(preview_chars)) shown +:+ limit_suffix bytes reference
  else shown.

Definition lift_store {A} (m : ResultStore.op A) : op A := λ s,
  match m s.(results) with
  | (st, Ok a) => (s <| results := st |>, Ok a)
  | (st, Raise e) => (s <| results := st |>, Raise (StoreError e))
  end.

(** [_envelope] *)
Definition envelope_of ctx (spec : ToolSpec) (call action : string) (r : ToolHandlerResult) : op ToolResultEnvelope :=
  let text := content_text decode r.(hr_text) in
  let bytes := length_of (payload_of r.(hr_text)) in
  let policy := spec.(tl_result_policy) in
  let shown := default text r.(hr_model_text) in
  let oversize := policy.(model_context_chars) <? length_of text in
  let* reference :=
    if oversize && policy.(store_large_results) && ctx.(has_result_store)
    then let* stored := lift_store (ResultStore.put hash dumps (Bytes (payload_of r.(hr_text))) (Some ctx.(task_id))
                                      [("tool_name", VStr spec.(tl_name)); ("action_id", VStr action)]) in
         ret (Some stored.(reference))
    else ret None in
  ret (mk_envelope call action spec.(tl_name) (is_success r.(hr_status)) r.(hr_status) text
         (model_content_of policy shown bytes reference) (category_value spec.(tl_category)) bytes
         r.(hr_exit_code) r.(hr_stdout) r.(hr_stderr) r.(hr_metadata) (policy.(model_context_chars) <? length_of shown)
         r.(hr_mutation) r.(hr_affected_paths) r.(hr_read_paths) r.(hr_error_category) r.(hr_error_summary) reference).

(** [_rehydrated] *)
Definition rehydrated (e : ToolResultEnvelope) (l : repeat_ledger) (fingerprint : string) : ToolResultEnvelope :=
  match l.(evidence) !! fingerprint with
  | Some r =>
      if str_true r.(ev_content)
      then e <| text := r.(ev_content) |> <| model_content := r.(ev_content) |> <| result_reference := r.(ev_reference) |>
             <| metadata ::= dict_set "rehydrated_evidence" (JBool true) |>
      else e
  | None => e
  end.

(** The ledger after a call has run. *)
Definition settle ctx (call action name fingerprint failure_key : string) (e : ToolResultEnvelope) : op ToolResultEnvelope :=
  let* s := get in
  let l := s.(ledger) in
  if bool_decide (e.(status) = CACHED) then
    let l := l <| cached ::= bump fingerprint |> in
    do* modify (λ s, s <| ledger := l |>) in
    ret (if evidence_visible ctx s.(cache).(world) l fingerprint then e else rehydrated e l fingerprint)
  else if e.(success) then
    let seen := bool_decide (is_Some (l.(evidence) !! fingerprint)) in
    let record := mk_evidence call e.(model_content) e.(result_reference) in
    let l := l <| failed ::= delete failure_key |> <| evidence ::= insert fingerprint record |> in
    let l := if seen then l <| cached ::= bump fingerprint |> else l in
    do* modify (λ s, s <| ledger := l |>) in
    do* (if seen then emit (REPEATED_ACTION_DETECTED name action "observation_repeated" (count_of l.(cached) fingerprint) false)
         else ret tt) in
    ret e
  else
    do* modify (λ s, s <| ledger := l <| failed ::= bump failure_key |> |>) in ret e.

Definition fields_of (e : ToolResultEnvelope) : trace_fields :=
  mk_fields e.(output_bytes) e.(exit_code) e.(truncated_for_model) (bool_decide (is_Some e.(result_reference)))
    (Z.of_nat (length e.(affected_paths))).

(** [envelope.error_summary or envelope.text.splitlines()[0]] *)
Definition failure_summary (e : ToolResultEnvelope) : res exn string :=
  let summary := default "" e.(error_summary) in
  if str_true summary then Ok summary
  else of_option IndexError (hd_error (splitlines e.(text))).

(** The trace and the hooks at the end of a call. *)
Definition conclude (action name : string) (a : admitted) (e : ToolResultEnvelope) : op unit :=
  let tool_category := category_value a.(ad_spec).(tl_category) in
  do* (if e.(success) then
         do* emit (TOOL_CALL_FINISHED name action (fields_of e)) in
         notify (mk_hook "after_tool" action name tool_category a.(ad_keys) (Some true) (Some (status_value e.(status))))
       else
         let* summary := lift (failure_summary e) in
         do* emit (TOOL_CALL_FAILED name action (str_or (default "" e.(error_category)) (status_value e.(status))) summary
                     (bool_decide (e.(status) = CANCELLED)) (Some (fields_of e))) in
         notify (mk_hook "on_tool_failure" action name tool_category a.(ad_keys) (Some false) (Some (status_value e.(status))))) in
  do* (if bool_decide (e.(status) = CACHED) then emit (REPEATED_ACTION_DETECTED name action "cached_tool_call" 0 false) else ret tt) in
  do* for_each e.(read_paths) (λ path, emit (TRACE_FILE_READ name action path)) in
  for_each e.(affected_paths) (λ path, emit (FILE_MODIFIED name action path)).

(** From the opening of the span on. *)
Definition run_tool ctx (call action name : string) (a : admitted) (fingerprint failure_key : string) : op ToolResultEnvelope :=
  let tool_category := category_value a.(ad_spec).(tl_category) in
  do* emit (TOOL_CALL_STARTED name action tool_category a.(ad_keys)) in
  do* notify (mk_hook "before_tool" action name tool_category a.(ad_keys) None None) in
  let* s := get in
  let '(c, o) := run_handler ctx action name a.(ad_spec) a.(ad_arguments) s.(cache) in
  do* modify (λ s, s <| cache := c |>) in
  let* e := envelope_of ctx a.(ad_spec) call action (normalized_outcome name o) in
  let* e := settle ctx call action name fingerprint failure_key e in
  do* modify (λ s, s <| ledger ::= λ l,
        if invalidates_reads float_eq e.(status) e.(mutation) e.(metadata) then l <| generation ::= Z.add 1 |> else l |>) in
  do* conclude action name a e in
  ret e.

(** The two identities of a call: an observation's carries the generation. *)
Definition fingerprint_of (l : repeat_ledger) (name : string) (arguments : json) : string :=
  action_signature name arguments l.(generation).
Definition failure_key_of (name : string) (arguments : json) : string := action_signature name arguments 0.

(** An admitted call, unless it is a repetition. *)
Definition run_admitted ctx (call action name : string) (a : admitted) : op ToolResultEnvelope :=
  let* s := get in
  let l := s.(ledger) in
  let fingerprint := fingerprint_of l name a.(ad_arguments) in
  let failure_key := failure_key_of name a.(ad_arguments) in
  let tool_category := category_value a.(ad_spec).(tl_category) in
  if MAX_FAILED_REPEATS <=? count_of l.(failed) failure_key then
    do* modify (λ s, s <| ledger ::= λ l, l <| failed ::= bump failure_key |> |>) in
    let count := count_of l.(failed) failure_key + 1 in
    suppressed_repeat call action name tool_category a.(ad_keys) count "failed_action_repeated" (REPEAT_REFUSAL count)
      (MAX_FAILED_REPEATS + 1 <? count)
  else if (MAX_CACHED_REPEATS <=? count_of l.(cached) fingerprint)
          && evidence_visible ctx s.(cache).(world) l fingerprint then
    do* modify (λ s, s <| ledger ::= λ l, l <| cached ::= bump fingerprint |> |>) in
    let count := count_of l.(cached) fingerprint + 1 in
    suppressed_repeat call action name tool_category a.(ad_keys) count "cached_action_repeated" CACHED_REFUSAL
      (MAX_CACHED_REPEATS + 1 <? count)
  else run_tool ctx call action name a fingerprint failure_key.

Definition execute ctx (call action name : string) (arguments : json) : op ToolResultEnvelope :=
  let* verdict := gated ctx call action name arguments in
  match verdict with
  | inl e => ret e
  | inr a => run_admitted ctx call action name a
  end.
End router.

(** [_forget_cached_reads] of [client/cli/session_workspace.py]: after a write
    the entries with text keys are dropped from the cache. *)
Definition forget_cached_reads {W} (c : shared W) : shared W := c <| scope_reasons := [] |>.
