(* ===== verification/ToolRouterFacts.v ===== *)
(** * The gates of the tool router, declaratively, and what each stage of a
    call leaves alone *)

From S2P Require Import Prelude Texts Values ToolRegistry ResultStore ToolRouter.

#[local] Open Scope Z_scope.
Open Scope py_scope.

(** ** What a call must satisfy *)

Section admissible.
  Context {W Scope : Type} `{RequestPolicy W Scope}.

(** A call that no gate refuses in the world [w]. *)
Record admissible (registry : ToolRegistry (Handler W)) (ctx : ToolExecutionContext W Scope) (w : W)
    (name : string) (arguments : json) (spec : ToolSpec) : Prop := {
  adm_live : ctx.(is_cancelled) w = None;
  adm_registered : get_spec name registry = Ok spec;
  adm_role : ctx.(role) ∈ spec.(tl_roles);
  adm_read_only : ctx.(read_only) = true → spec.(tl_mutability) ≠ MUTATING;
  adm_sibling : ∀ sc, ctx.(scope) = Some sc → is_mapping arguments = true → spec.(tl_mutability) = MUTATING →
    sibling_write_refusal w sc (target_of arguments) = "" ∨ stated_reason arguments ≠ "";
  adm_command : ∀ sc command, ctx.(scope) = Some sc → spec.(tl_category) = CAT_COMMAND →
    command_of (without_scope_reason arguments) = Some command →
    outside_project_refusal w command sc = "" ∧ shell_write_refusal w command sc ctx.(command_cwd) = "" ∧
    ∀ target, target ∈ shell_write_targets w command sc ctx.(command_cwd) → target_refusal w target = "";
  adm_earned : ∀ d, spec.(tl_mutability) = MUTATING →
    write_gate_decision ctx w (target_of (without_scope_reason arguments)) = Some d → d.(gd_allowed) = true;
  adm_mode : spec.(tl_execution_modes) = [] ∨ ctx.(execution_mode) = "" ∨ ctx.(execution_mode) ∈ spec.(tl_execution_modes);
  adm_arguments : default "" (validate_arguments spec (without_scope_reason arguments)) = "";
}.

(** The state with the reason of a write outside the request kept. *)
Definition noted (ctx : ToolExecutionContext W Scope) (spec : ToolSpec) (arguments : json) (s : state W) : state W :=
  match ctx.(scope) with
  | Some sc =>
      if is_mapping arguments && is_mutating spec
         && str_true (sibling_write_refusal s.(cache).(world) sc (target_of arguments))
      then s <| cache ::= λ c, c <| scope_reasons ::= λ l,
             l ++ [(target_of arguments, String.substring 0 500 (stated_reason arguments))] |> |>
      else s
  | None => s
  end.

Definition admit_call (spec : ToolSpec) (arguments : json) : admitted :=
  mk_admitted spec (without_scope_reason arguments) (argument_keys_of (without_scope_reason arguments)).
End admissible.

Lemma find_none_forall {A} (f : A → bool) l : List.find f l = None ↔ ∀ x, x ∈ l → f x = false.
Proof.
  split.
  - intros Hf x Hx. by apply (List.find_none f l Hf), list_elem_of_In.
  - induction l as [|y l IH]; cbn; [done|]. intros Hl. rewrite (Hl y) by apply list_elem_of_here.
    apply IH. intros x Hx. apply Hl. by apply list_elem_of_further.
Qed.

Section gates.
  Context {W Scope : Type} `{RequestPolicy W Scope}.
  Context (registry : ToolRegistry (Handler W)).
  Implicit Types (ctx : ToolExecutionContext W Scope) (s : state W) (spec : ToolSpec).

Lemma noted_world ctx spec args s : (noted ctx spec args s).(cache).(world) = s.(cache).(world).
Proof. unfold noted. destruct ctx.(scope); [|done]. by destruct (_ && _). Qed.

Lemma noted_rest ctx spec args s :
  let s' := noted ctx spec args s in
  s'.(ledger) = s.(ledger) ∧ s'.(results) = s.(results) ∧ s'.(trace) = s.(trace) ∧ s'.(hook_log) = s.(hook_log).
Proof. unfold noted. destruct ctx.(scope); [|done]. by destruct (_ && _). Qed.

Lemma is_mutating_true spec : is_mutating spec = true ↔ spec.(tl_mutability) = MUTATING.
Proof. unfold is_mutating. by rewrite bool_decide_eq_true. Qed.

(** Each gate lets through exactly what its clause says. *)
Lemma guard_run {S E} b (e : E) (s : S) : guard b e s = (s, if b then Ok tt else Raise e).
Proof. by destruct b. Qed.

Lemma sibling_gate_ok ctx spec name args s s' u :
  sibling_gate ctx spec name args s = (s', Ok u) ↔
  s' = noted ctx spec args s ∧
  (∀ sc, ctx.(scope) = Some sc → is_mapping args = true → spec.(tl_mutability) = MUTATING →
     sibling_write_refusal s.(cache).(world) sc (target_of args) = "" ∨ stated_reason args ≠ "").
Proof.
  unfold sibling_gate, noted. pose proof (is_mutating_true spec). destruct u, ctx.(scope) as [sc|]; [|unfold ret; naive_solver].
  destruct (is_mapping args), (is_mutating spec); cbn [andb]; try (unfold ret; naive_solver).
  unfold bind, get, modify, ret. rewrite guard_run.
  pose proof (str_true_false (sibling_write_refusal s.(cache).(world) sc (target_of args))) as Hw.
  pose proof (str_true_spec (stated_reason args)) as Hr.
  destruct (str_true (sibling_write_refusal _ _ _)), (str_true (stated_reason args)); cbn; naive_solver.
Qed.

Lemma command_refusal_none ctx w sc command :
  command_refusal ctx w sc command = None ↔
  outside_project_refusal w command sc = "" ∧ shell_write_refusal w command sc ctx.(command_cwd) = "" ∧
  ∀ target, target ∈ shell_write_targets w command sc ctx.(command_cwd) → target_refusal w target = "".
Proof.
  unfold command_refusal. rewrite <- !str_true_false.
  destruct (str_true (outside_project_refusal _ _ _)); [naive_solver|].
  destruct (str_true (shell_write_refusal _ _ _ _)); [naive_solver|].
  destruct (List.find _ _) as [why|] eqn:Hf.
  - split; [done|]. intros (_ & _ & Hall). apply List.find_some in Hf as [Hin Hw].
    apply list_elem_of_In, list_elem_of_fmap in Hin as (t & -> & Ht). rewrite (Hall t Ht) in Hw. done.
  - split; [intros _|done]. split_and!; [done..|]. intros t Ht. apply str_true_false.
    rewrite find_none_forall in Hf. apply Hf. by apply list_elem_of_fmap_2.
Qed.

Lemma command_gate_ok ctx spec args s s' u :
  command_gate ctx spec args s = (s', Ok u) ↔
  s' = s ∧ ∀ sc command, ctx.(scope) = Some sc → spec.(tl_category) = CAT_COMMAND → command_of args = Some command →
    outside_project_refusal s.(cache).(world) command sc = "" ∧
    shell_write_refusal s.(cache).(world) command sc ctx.(command_cwd) = "" ∧
    ∀ target, target ∈ shell_write_targets s.(cache).(world) command sc ctx.(command_cwd) →
      target_refusal s.(cache).(world) target = "".
Proof.
  unfold command_gate. destruct u, ctx.(scope) as [sc|]; [|unfold ret; naive_solver].
  destruct (command_of args) as [command|]; [|unfold ret; naive_solver].
  case_bool_decide as Hc; [|unfold ret; naive_solver].
  unfold bind, get. pose proof (command_refusal_none ctx s.(cache).(world) sc command) as Hn.
  destruct (command_refusal _ _ _ _) as [[why kind]|].
  - split; [done|]. intros [_ Hall]. pose proof (proj2 Hn (Hall _ _ eq_refl Hc eq_refl)). done.
  - unfold ret. split; [|naive_solver]. intros [= <-]. split; [done|]. intros ? ? [= <-] _ [= <-]. by apply Hn.
Qed.

Lemma turn_gate_ok ctx spec args s s' u :
  turn_gate ctx spec args s = (s', Ok u) ↔
  s' = s ∧ ∀ d, spec.(tl_mutability) = MUTATING → write_gate_decision ctx s.(cache).(world) (target_of args) = Some d →
    d.(gd_allowed) = true.
Proof.
  unfold turn_gate. pose proof (is_mutating_true spec). destruct u, (is_mutating spec); [|unfold ret; naive_solver].
  unfold bind, get. destruct (write_gate_decision _ _ _) as [d|];
    [|by unfold ret; split; [intros [= <-]|intros [-> _]]].
  rewrite guard_run. destruct (gd_allowed d) eqn:Hd; split.
  - intros [= <-]. split; [done|]. by intros ? _ [= <-].
  - by intros [-> _].
  - done.
  - intros [_ Hall]. rewrite (Hall d) in Hd by tauto. done.
Qed.

Lemma mode_allows_true ctx spec :
  mode_allows ctx spec = true ↔
  spec.(tl_execution_modes) = [] ∨ ctx.(execution_mode) = "" ∨ ctx.(execution_mode) ∈ spec.(tl_execution_modes).
Proof.
  unfold mode_allows. rewrite !negb_andb, !orb_true_iff, !negb_involutive, !bool_decide_eq_true.
  rewrite negb_true_iff, str_true_false. tauto.
Qed.

Lemma argument_gate_ok spec name args s s' u :
  argument_gate (W:=W) spec name args s = (s', Ok u) ↔ s' = s ∧ default "" (validate_arguments spec args) = "".
Proof.
  unfold argument_gate. destruct u, (validate_arguments spec args) as [wrong|]; cbn [default from_option];
    [|unfold ret; naive_solver].
  unfold id. rewrite <- str_true_false. destruct (str_true wrong); unfold raise, ret; naive_solver.
Qed.

Lemma tool_gate_ok name spec s s' :
  tool_gate registry name s = (s', Ok spec) ↔ s' = s ∧ get_spec name registry = Ok spec.
Proof. unfold tool_gate. rewrite lift_Ok. destruct (get_spec name registry); naive_solver. Qed.

Lemma cancellation_gate_ok ctx s s' u :
  cancellation_gate ctx s = (s', Ok u) ↔ s' = s ∧ ctx.(is_cancelled) s.(cache).(world) = None.
Proof. unfold cancellation_gate, bind, get. by rewrite guard_Ok, bool_decide_eq_true. Qed.

(** The gates together. *)
Lemma policy_gate_ok ctx name args s s' a :
  policy_gate registry ctx name args s = (s', Ok a) ↔
  ∃ spec, admissible registry ctx s.(cache).(world) name args spec ∧ s' = noted ctx spec args s ∧ a = admit_call spec args.
Proof.
  unfold policy_gate, role_gate, read_only_gate, mode_gate. split.
  - intros Hg. repeat (apply bind_Ok in Hg as (? & ? & ? & Hg)). repeat match goal with
    | Hx : cancellation_gate _ _ = _ |- _ => apply cancellation_gate_ok in Hx as [-> Hx]
    | Hx : guard _ _ _ = _ |- _ => apply guard_Ok in Hx as [-> Hx]
    | Hx : tool_gate _ _ _ = _ |- _ => apply tool_gate_ok in Hx as [-> Hx]
    | Hx : sibling_gate _ _ _ _ _ = _ |- _ => apply sibling_gate_ok in Hx as [-> Hx]
    | Hx : command_gate _ _ _ _ = _ |- _ => apply command_gate_ok in Hx as [-> Hx]
    | Hx : turn_gate _ _ _ _ = _ |- _ => apply turn_gate_ok in Hx as [-> Hx]
    | Hx : argument_gate _ _ _ _ = _ |- _ => apply argument_gate_ok in Hx as [-> Hx]
    | Hx : ret _ _ = _ |- _ => unfold ret in Hx; simplify_eq
    end.
    bools. rewrite mode_allows_true in *. rewrite !noted_world in *. eexists. split; [|done]. split; try done.
    intros Hro. rewrite Hro in *. cbn in *. intros Hm%is_mutating_true. congruence.
  - intros (spec & [Hlive Hreg Hrole Hro Hsib Hcmd Hearn Hmode Hargs] & -> & ->).
    unfold bind. rewrite (proj2 (cancellation_gate_ok ctx s s tt)) by done.
    rewrite (proj2 (tool_gate_ok name spec s s)) by done.
    rewrite guard_run, bool_decide_eq_true_2 by done.
    assert (negb (ctx.(read_only) && is_mutating spec) = true) as Hm.
    { destruct (read_only ctx), (is_mutating spec) eqn:E; try done. apply is_mutating_true in E. naive_solver. }
    rewrite guard_run, Hm. rewrite (proj2 (sibling_gate_ok ctx spec name args s _ tt)) by (split; [done|assumption]).
    rewrite (proj2 (command_gate_ok ctx spec (without_scope_reason args) (noted ctx spec args s) (noted ctx spec args s) tt)) by (split; [reflexivity|rewrite noted_world; exact Hcmd]).
    rewrite (proj2 (turn_gate_ok ctx spec (without_scope_reason args) (noted ctx spec args s) (noted ctx spec args s) tt)) by (split; [reflexivity|rewrite noted_world; exact Hearn]).
    apply mode_allows_true in Hmode. rewrite guard_run, Hmode.
    by rewrite (proj2 (argument_gate_ok spec name (without_scope_reason args) (noted ctx spec args s) _ tt)) by done.
Qed.
End gates.

(** ** What a stage leaves alone *)

(** Two states that agree on what a call works with; what they may differ in
    is the reasons kept and what observers were told. *)
Definition same_work {W} (s s' : state W) : Prop :=
  s'.(cache).(world) = s.(cache).(world) ∧ s'.(ledger) = s.(ledger) ∧ s'.(results) = s.(results).

(** Two states that agree on all but what observers were told. *)
Definition same_core {W} (s s' : state W) : Prop :=
  s'.(cache) = s.(cache) ∧ s'.(ledger) = s.(ledger) ∧ s'.(results) = s.(results).

Lemma same_core_work {W} (s s' : state W) : same_core s s' → same_work s s'.
Proof. intros (Hc & ? & ?). unfold same_work. by rewrite Hc. Qed.

Lemma same_work_trans {W} (s1 s2 s3 : state W) : same_work s1 s2 → same_work s2 s3 → same_work s1 s3.
Proof. unfold same_work. intuition congruence. Qed.

#[export] Hint Resolve same_core_work : py.

(** A computation that tells the observers [ts] and [hs] and does no more. *)
Definition observes {W E} (m : M (state W) E unit) (ts : list trace_event) (hs : list ToolHookEvent) : Prop :=
  ∀ s, m s = (s <| trace ::= λ t, t ++ ts |> <| hook_log ::= λ t, t ++ hs |>, Ok tt).

Lemma observed_core {W} (s : state W) ts hs : same_core s (s <| trace ::= λ t, t ++ ts |> <| hook_log ::= λ t, t ++ hs |>).
Proof. by destruct s. Qed.

(** [Quiet m]: [m] changes at most the reasons that are kept. *)
Class Quiet {W E A} (m : M (state W) E A) :=
  quiet_run : ∀ s s' r, m s = (s', r) → same_work s s' ∧ s'.(trace) = s.(trace) ∧ s'.(hook_log) = s.(hook_log).

#[export] Instance read_only_quiet {W E A} (m : M (state W) E A) : ReadOnly m → Quiet m | 5.
Proof. by intros Hm s s' r ->%Hm. Qed.
#[export] Instance bind_quiet {W E A B} (m : M (state W) E A) (k : A → M (state W) E B) :
  Quiet m → (∀ a, Quiet (k a)) → Quiet (bind m k) | 4.
Proof.
  intros Hm Hk s s' r. unfold bind. destruct (m s) as [s1 [a|e]] eqn:E1; apply Hm in E1 as (Hw & Ht & Hh).
  - intros (? & ? & ?)%Hk. split; [by eapply same_work_trans|split; congruence].
  - by intros [= <- _].
Qed.

Section stages.
  Context {W Scope : Type} `{RequestPolicy W Scope}.
  Context (float_eq : string → Z → bool) (repr : json → string) (decode : string → string).
  Context (canonical : json → string) (hash : string → string) (dumps : json → string).
  Context (registry : ToolRegistry (Handler W)).
  Implicit Types (ctx : ToolExecutionContext W Scope) (s : state W) (spec : ToolSpec) (e : ToolResultEnvelope).

Lemma state_eq s : mk_state s.(cache) s.(ledger) s.(results) s.(trace) s.(hook_log) = s.
Proof. by destruct s. Qed.

Lemma emit_observes {E} ev : observes (E:=E) (emit (W:=W) ev) [ev] [].
Proof. intros []. cbn. unfold emit, modify, set_field; cbn. by rewrite app_nil_r. Qed.
Lemma notify_observes {E} ev : observes (E:=E) (notify (W:=W) ev) [] [ev].
Proof. intros []. cbn. unfold notify, modify, set_field; cbn. by rewrite app_nil_r. Qed.
Lemma ret_observes {E} : observes (W:=W) (E:=E) (ret tt) [] [].
Proof. intros []. cbn. unfold ret, set_field; cbn. by rewrite !app_nil_r. Qed.
Lemma bind_observes {E} (m : M (state W) E unit) k ts hs ts' hs' :
  observes m ts hs → observes k ts' hs' → observes (bind m (λ _, k)) (ts ++ ts') (hs ++ hs').
Proof. intros Hm Hk []. unfold bind. rewrite Hm, Hk. unfold set_field; cbn. by rewrite !app_assoc. Qed.

Lemma for_each_observes {E A} (l : list A) (f : A → trace_event) :
  observes (E:=E) (for_each l (λ x, emit (W:=W) (f x))) (f <$> l) [].
Proof.
  induction l as [|x l IH]; cbn [for_each]; [apply ret_observes|].
  exact (bind_observes _ _ [f x] [] (f <$> l) [] (emit_observes _) IH).
Qed.

(** A gate changes at most the reasons. *)
#[local] Instance sibling_gate_quiet ctx spec name args : Quiet (sibling_gate ctx spec name args).
Proof.
  intros s s' r. unfold sibling_gate. destruct ctx.(scope) as [sc|]; [|by intros [= <- _]].
  destruct (_ && _); [|by intros [= <- _]]. unfold bind, get. rewrite guard_run.
  destruct (negb _); [|by intros [= <- _]].
  destruct (str_true _); [|by intros [= <- _]]. unfold modify. intros [= <- _]. by destruct s.
Qed.
#[local] Instance command_gate_quiet ctx spec args : Quiet (command_gate ctx spec args).
Proof.
  unfold command_gate. destruct ctx.(scope), (command_of args); [destruct (bool_decide _)|..]; [|apply _..].
  apply bind_quiet; [apply _|]. intros st. destruct (command_refusal _ _ _ _) as [[]|]; apply _.
Qed.
#[local] Instance turn_gate_quiet ctx spec args : Quiet (turn_gate ctx spec args).
Proof.
  unfold turn_gate. destruct (is_mutating spec); [|apply _]. apply bind_quiet; [apply _|]. intros st.
  destruct (write_gate_decision _ _ _); apply _.
Qed.
#[local] Instance argument_gate_quiet spec name args : Quiet (argument_gate (W:=W) spec name args).
Proof. unfold argument_gate. destruct (validate_arguments spec args); [destruct (str_true _)|]; apply _. Qed.

#[export] Instance policy_gate_quiet ctx name args : Quiet (policy_gate registry ctx name args).
Proof.
  unfold policy_gate, cancellation_gate, tool_gate, role_gate, read_only_gate, mode_gate. cbv zeta.
  repeat (apply bind_quiet; [apply _|]; intros ?). apply _.
Qed.
End stages.

(** ** Each stage as a function of the state it finds *)

(** What observers are told of a refusal. *)
Definition refusal_trace (action name : string) (r : refusal) : list trace_event :=
  [TOOL_CALL_STARTED name action r.(rf_category) r.(rf_keys);
   TOOL_CALL_FAILED name action r.(rf_kind) (String.substring 0 240 r.(rf_text)) false None].

Definition refusal_hooks (action name : string) (r : refusal) : list ToolHookEvent :=
  [mk_hook "on_tool_failure" action name r.(rf_category) r.(rf_keys) (Some false) (Some (status_value r.(rf_status)))].

Definition refusal_envelope (call action name : string) (r : refusal) : ToolResultEnvelope :=
  mk_envelope call action name false r.(rf_status) r.(rf_text) r.(rf_text) r.(rf_category)
    (Z.of_nat (String.length (encode_utf8 r.(rf_text)))) None None None [] false false [] []
    (Some r.(rf_kind)) (Some r.(rf_text)) None.

(** The ledger after an outcome. *)
Definition settled (call fingerprint failure_key : string) (e : ToolResultEnvelope) (l : repeat_ledger) : repeat_ledger :=
  if bool_decide (e.(status) = CACHED) then l <| cached ::= bump fingerprint |>
  else if e.(success) then
    let l' := l <| failed ::= delete failure_key |>
                <| evidence ::= insert fingerprint (mk_evidence call e.(model_content) e.(result_reference)) |> in
    if bool_decide (is_Some (l.(evidence) !! fingerprint)) then l' <| cached ::= bump fingerprint |> else l'
  else l <| failed ::= bump failure_key |>.

Definition moved (float_eq : string → Z → bool) (e : ToolResultEnvelope) (l : repeat_ledger) : repeat_ledger :=
  if invalidates_reads float_eq e.(status) e.(mutation) e.(metadata) then l <| generation ::= Z.add 1 |> else l.

(** What the last stage tells observers, on an outcome whose failure is
    summed up as [summary]. *)
Definition closing_event (action name : string) (e : ToolResultEnvelope) (summary : string) : trace_event :=
  if e.(success) then TOOL_CALL_FINISHED name action (fields_of e)
  else TOOL_CALL_FAILED name action (str_or (default "" e.(error_category)) (status_value e.(status))) summary
         (bool_decide (e.(status) = CANCELLED)) (Some (fields_of e)).

Definition path_events (action name : string) (e : ToolResultEnvelope) : list trace_event :=
  (if bool_decide (e.(status) = CACHED) then [REPEATED_ACTION_DETECTED name action "cached_tool_call" 0 false] else []) ++
  (TRACE_FILE_READ name action <$> e.(read_paths)) ++ (FILE_MODIFIED name action <$> e.(affected_paths)).

Definition closing_hook (action name : string) (a : admitted) (e : ToolResultEnvelope) : ToolHookEvent :=
  mk_hook (if e.(success) then "after_tool" else "on_tool_failure") action name (category_value a.(ad_spec).(tl_category))
    a.(ad_keys) (Some e.(success)) (Some (status_value e.(status))).

Section runs.
  Context {W Scope : Type} `{RequestPolicy W Scope}.
  Context (float_eq : string → Z → bool) (repr : json → string) (decode : string → string).
  Context (canonical : json → string) (hash : string → string) (dumps : json → string).
  Context (registry : ToolRegistry (Handler W)).
  Implicit Types (ctx : ToolExecutionContext W Scope) (s : state W) (spec : ToolSpec) (e : ToolResultEnvelope).

Lemma early_failure_run call action name r s :
  early_failure call action name r s =
  (s <| trace ::= λ t, t ++ refusal_trace action name r |> <| hook_log ::= λ t, t ++ refusal_hooks action name r |>,
   Ok (refusal_envelope call action name r)).
Proof. destruct s. unfold early_failure, bind, emit, notify, modify, ret, set_field; cbn. by rewrite <- app_assoc. Qed.

Lemma suppressed_repeat_run call action name category keys count kind text terminal s :
  ∃ md, suppressed_repeat call action name category keys count kind text terminal s =
  (s <| trace ::= λ t, t ++ REPEATED_ACTION_DETECTED name action kind count terminal
                         :: refusal_trace action name (mk_refusal DENIED kind text category keys) |>
     <| hook_log ::= λ t, t ++ refusal_hooks action name (mk_refusal DENIED kind text category keys) |>,
   Ok ((refusal_envelope call action name (mk_refusal DENIED kind text category keys)) <| metadata := md |>)).
Proof.
  eexists. unfold suppressed_repeat, bind at 1, emit, modify. unfold bind at 1. rewrite early_failure_run.
  destruct s. unfold ret, set_field; cbn. by rewrite <- app_assoc.
Qed.

Lemma observes_run (m : M (state W) exn unit) ts hs s s' r : observes m ts hs → m s = (s', r) →
  r = Ok tt ∧ same_core s s' ∧ s'.(trace) = s.(trace) ++ ts ∧ s'.(hook_log) = s.(hook_log) ++ hs.
Proof. intros ->. intros [= <- <-]. by destruct s. Qed.

(** A call is refused by the gates, or admitted. *)
Lemma gated_cases ctx call action name args s s' v : gated registry ctx call action name args s = (s', v) →
  (∃ spec, admissible registry ctx s.(cache).(world) name args spec ∧ s' = noted ctx spec args s
           ∧ v = Ok (inr (admit_call spec args))) ∨
  ((¬ ∃ spec, admissible registry ctx s.(cache).(world) name args spec) ∧ same_work s s' ∧
   ∃ r, s'.(trace) = s.(trace) ++ refusal_trace action name r ∧ s'.(hook_log) = s.(hook_log) ++ refusal_hooks action name r
        ∧ v = Ok (inl (refusal_envelope call action name r))).
Proof.
  unfold gated. destruct (policy_gate _ _ _ _ _) as [s1 [a|r]] eqn:E.
  - apply policy_gate_ok in E as (spec & Ha & -> & ->). intros [= <- <-]. left. eauto.
  - pose proof (quiet_run _ _ _ E) as (Hw & Ht & Hh). unfold bind. rewrite early_failure_run. cbn.
    intros [= <- <-]. right. split; [|split].
    + intros (spec & Ha). assert (policy_gate registry ctx name args s = (noted ctx spec args s, Ok (admit_call spec args)))
        as E' by (apply policy_gate_ok; eauto). congruence.
    + eapply same_work_trans; [done|]. by destruct s1.
    + exists r. destruct s1; cbn in *. by rewrite Ht, Hh.
Qed.

Lemma conclude_run action name a e s s' r : conclude action name a e s = (s', r) →
  same_core s s' ∧
  ((∃ summary, r = Ok tt ∧ s'.(trace) = s.(trace) ++ closing_event action name e summary :: path_events action name e ∧
      s'.(hook_log) = s.(hook_log) ++ [closing_hook action name a e]) ∨
   (r = Raise IndexError ∧ e.(success) = false ∧ s' = s)).
Proof.
  unfold conclude. set (tail := bind _ (λ _, bind (for_each (read_paths e) _) _)).
  assert (observes (E:=exn) (W:=W) tail (path_events action name e) []) as Htail.
  { unfold tail, path_events. apply (bind_observes _ _ _ [] _ []); [case_bool_decide; [apply emit_observes|apply ret_observes]|].
    apply (bind_observes _ _ _ [] _ []); apply for_each_observes. }
  assert (∀ ev h, observes (do* (do* emit ev in notify h) in tail) (ev :: path_events action name e) [h]) as Hend.
  { intros ev h. apply (bind_observes _ _ [ev] [h] (path_events action name e) []); [|done].
    apply (bind_observes _ _ [ev] [] [] [h]); [apply emit_observes|apply notify_observes]. }
  unfold closing_event, closing_hook. destruct e.(success) eqn:Hs.
  - intros (-> & ? & ? & ?)%(observes_run _ _ _ _ _ _ (Hend _ _)). split; [done|]. left. by exists "".
  - unfold bind at 1 2, lift. destruct (failure_summary e) as [summary|x] eqn:Hf.
    + intros Hrun. refine (_ (observes_run _ _ _ s s' r (Hend (TOOL_CALL_FAILED _ _ _ _ _ _) (mk_hook _ _ _ _ _ _ _)) Hrun)).
      intros (-> & ? & ? & ?). split; [done|]. left. by exists summary.
    + intros [= <- <-]. split; [done|]. right. split_and!; [|done..]. revert Hf. unfold failure_summary.
      destruct (str_true _); [done|]. by destruct (hd_error _); intros [= <-].
Qed.

Lemma envelope_of_run ctx spec call action r s s' v :
  (∀ m, all_hex (hash m) = true ∧ String.length (hash m) = 64%nat) →
  envelope_of decode hash dumps ctx spec call action r s = (s', v) →
  s'.(cache) = s.(cache) ∧ s'.(ledger) = s.(ledger) ∧ s'.(trace) = s.(trace) ∧ s'.(hook_log) = s.(hook_log) ∧
  ∃ e, v = Ok e ∧ e.(status) = r.(hr_status) ∧ e.(success) = is_success r.(hr_status) ∧ e.(mutation) = r.(hr_mutation) ∧
       e.(metadata) = r.(hr_metadata).
Proof.
  intros Hh. unfold envelope_of. unfold bind at 1. destruct (_ && _ && _).
  - unfold bind at 1, lift_store. rewrite ResultStore.put_run by done.
    unfold ret. intros [= <- <-]. destruct s; cbn. split_and!; try done. eexists. split; [done|]. done.
  - unfold ret. intros [= <- <-]. split_and!; try done. eexists. split; [done|]. done.
Qed.

Lemma rehydrated_same e l fp :
  let e' := rehydrated e l fp in
  e'.(status) = e.(status) ∧ e'.(success) = e.(success) ∧
  invalidates_reads float_eq e'.(status) e'.(mutation) e'.(metadata) = invalidates_reads float_eq e.(status) e.(mutation) e.(metadata).
Proof.
  unfold rehydrated. destruct (evidence l !! fp) as [r|]; [|done]. destruct (str_true _); [|done].
  destruct e; unfold set_field; cbn. split_and!; [done..|].
  unfold invalidates_reads, get_or_null, dict_get_default. by rewrite !dict_get_set_ne.
Qed.
End runs.

(** ** A call that runs *)

(** The events that open and close a call. *)
Definition is_span (ev : trace_event) : bool :=
  match ev with TOOL_CALL_STARTED _ _ _ _ | TOOL_CALL_FINISHED _ _ _ | TOOL_CALL_FAILED _ _ _ _ _ _ => true | _ => false end.

(** [span_events s s']: what was traced between, of opening and closing. *)
Definition traced {W} (s s' : state W) (ts : list trace_event) : Prop :=
  ∃ l, s'.(trace) = s.(trace) ++ l ∧ List.filter is_span l = ts.

Lemma traced_trans {W} (s1 s2 s3 : state W) ts ts' : traced s1 s2 ts → traced s2 s3 ts' → traced s1 s3 (ts ++ ts').
Proof.
  intros (l & Hl & <-) (l' & Hl' & <-). exists (l ++ l'). split; [by rewrite Hl', Hl, app_assoc|]. by rewrite List.filter_app.
Qed.

Lemma traced_same {W} (s s' : state W) : s'.(trace) = s.(trace) → traced s s' [].
Proof. intros E. exists []. by rewrite app_nil_r. Qed.

Lemma path_events_quiet action name e : List.filter is_span (path_events action name e) = [].
Proof.
  unfold path_events. rewrite !List.filter_app. case_bool_decide; cbn; induction e.(read_paths); cbn; try done;
    by induction e.(affected_paths).
Qed.

Section running.
  Context {W Scope : Type} `{RequestPolicy W Scope}.
  Context (float_eq : string → Z → bool) (repr : json → string) (decode : string → string).
  Context (canonical : json → string) (hash : string → string) (dumps : json → string).
  Context (registry : ToolRegistry (Handler W)).
  Context (hash_shape : ∀ m, all_hex (hash m) = true ∧ String.length (hash m) = 64%nat).
  Implicit Types (ctx : ToolExecutionContext W Scope) (s : state W) (spec : ToolSpec) (e : ToolResultEnvelope).

(** What stays of an envelope while it is restored from the ledger. *)
Definition same_outcome (e e' : ToolResultEnvelope) : Prop :=
  e'.(status) = e.(status) ∧ e'.(success) = e.(success) ∧
  invalidates_reads float_eq e'.(status) e'.(mutation) e'.(metadata) = invalidates_reads float_eq e.(status) e.(mutation) e.(metadata).

Lemma settle_run ctx call action name fp fk e s s' v : settle ctx call action name fp fk e s = (s', v) →
  s'.(cache) = s.(cache) ∧ s'.(results) = s.(results) ∧ s'.(hook_log) = s.(hook_log) ∧
  s'.(ledger) = settled call fp fk e s.(ledger) ∧ traced s s' [] ∧ ∃ e', v = Ok e' ∧ same_outcome e e'.
Proof.
  unfold settle, settled. unfold bind at 1, get. case_bool_decide.
  - unfold bind, modify, ret. intros [= <- <-]. destruct s; cbn. split_and!; try done; [by apply traced_same|].
    destruct (evidence_visible _ _ _ _); eexists; (split; [done|]); [done|apply rehydrated_same].
  - destruct (success e); [destruct (bool_decide _)|]; unfold emit, bind, modify, ret; intros [= <- <-]; destruct s; cbn;
      (split_and!; [done..| |eexists; split; [done|]; done]); [|by apply traced_same..].
    by eexists [_].
Qed.

Lemma suppressed_repeat_inv call action name category keys count kind refused terminal s s' v :
  suppressed_repeat call action name category keys count kind refused terminal s = (s', v) →
  same_core s s' ∧
  traced s s' [TOOL_CALL_STARTED name action category keys; TOOL_CALL_FAILED name action kind (String.substring 0 240 refused) false None] ∧
  (∃ h, s'.(hook_log) = s.(hook_log) ++ [h] ∧ h.(phase) = "on_tool_failure") ∧
  ∃ e, v = Ok e ∧ e.(success) = false ∧ e.(error_summary) = Some e.(text).
Proof.
  destruct (suppressed_repeat_run call action name category keys count kind refused terminal s) as [md ->].
  intros [= <- <-]. destruct s; cbn. split_and!; try done; [|by eexists..].
  eexists. split; [done|]. done.
Qed.

(** What a running call tells of its outcome. *)
Lemma run_tool_run ctx call action name a fp fk s s' v :
  run_tool float_eq repr decode hash dumps registry ctx call action name a fp fk s = (s', v) →
  let '(c, o) := run_handler repr registry ctx action name a.(ad_spec) a.(ad_arguments) s.(cache) in
  let r := normalized_outcome decode name o in
  s'.(cache) = c ∧
  (∃ e, e.(status) = r.(hr_status) ∧ e.(success) = is_success r.(hr_status) ∧ e.(mutation) = r.(hr_mutation) ∧
        e.(metadata) = r.(hr_metadata) ∧
        s'.(ledger) = moved float_eq e (settled call fp fk e s.(ledger))) ∧
  ∃ started, started = TOOL_CALL_STARTED name action (category_value a.(ad_spec).(tl_category)) a.(ad_keys) ∧
  ∃ before, before = mk_hook "before_tool" action name (category_value a.(ad_spec).(tl_category)) a.(ad_keys) None None ∧
  ((∃ e summary, v = Ok e ∧ e.(status) = r.(hr_status) ∧ e.(success) = is_success r.(hr_status) ∧
      traced s s' [started; closing_event action name e summary] ∧
      s'.(hook_log) = s.(hook_log) ++ [before; closing_hook action name a e]) ∨
   (v = Raise IndexError ∧ is_success r.(hr_status) = false ∧ traced s s' [started] ∧ s'.(hook_log) = s.(hook_log) ++ [before])).
Proof using hash_shape.
  unfold run_tool. set (c0 := category_value _). unfold bind at 1, emit, modify. unfold bind at 1, notify, modify.
  unfold bind at 1, get. unfold set_field at 1 2. cbn [cache state_eta eta].
  destruct (run_handler _ _ _ _ _ _ _ _) as [c o]. unfold bind at 1, modify.
  set (s1 := set_field cache _ _). intros Hrun.
  assert (s1.(ledger) = s.(ledger) ∧ s1.(cache) = c ∧ traced s s1 [TOOL_CALL_STARTED name action c0 a.(ad_keys)] ∧
    s1.(hook_log) = s.(hook_log) ++ [mk_hook "before_tool" action name c0 a.(ad_keys) None None]) as (Hl1 & Hc1 & Ht1 & Hh1).
  { subst s1. destruct s; cbn. split_and!; try done. by eexists [_]. }
  clearbody s1. unfold bind at 1 in Hrun.
  destruct (envelope_of _ _ _ _ _ _ _ _ s1) as [s2 v2] eqn:E2.
  apply envelope_of_run in E2 as (Hc2 & Hl2 & Ht2 & Hh2 & e & -> & He1 & He2 & He3 & He4); [|done].
  unfold bind at 1 in Hrun. destruct (settle _ _ _ _ _ _ _ s2) as [s3 v3] eqn:E3.
  apply settle_run in E3 as (Hc3 & _ & Hh3 & Hl3 & Ht3 & e' & -> & Hs1 & Hs2 & Hs3).
  unfold bind at 1, modify in Hrun. unfold bind at 1 in Hrun.
  destruct (conclude _ _ _ _ _) as [s5 v5] eqn:E5. apply conclude_run in E5 as [(Hc5 & Hl5 & _) Hend].
  set (s4 := set_field ledger _ s3) in *.
  assert (s4.(trace) = s3.(trace) ∧ s4.(hook_log) = s3.(hook_log) ∧ s4.(cache) = s3.(cache) ∧
          s4.(ledger) = moved float_eq e s3.(ledger)) as (Ht4 & Hh4 & Hc4 & Hl4).
  { unfold s4, moved. rewrite <- Hs3. by destruct s3. }
  clearbody s4. assert (s' = s5) as -> by (destruct v5; by injection Hrun as <- _).
  assert (traced s s4 [TOOL_CALL_STARTED name action c0 (ad_keys a)]) as Ht.
  { eapply (traced_trans _ s1 _ [_] []); [done|]. eapply (traced_trans _ s2 _ [] []); [by apply traced_same|].
    eapply (traced_trans _ s3 _ [] []); [done|]. by apply traced_same. }
  split; [congruence|]. split; [exists e; split_and!; congruence|].
  eexists; split; [reflexivity|]. eexists; split; [reflexivity|].
  destruct Hend as [(summary & -> & Ht5 & Hh5)|(-> & Hf & ->)].
  - left. exists e', summary. split_and!; try congruence.
    + unfold ret in Hrun. congruence.
    + apply (traced_trans _ _ _ [_] [_] Ht). eexists. split; [exact Ht5|]. cbn [List.filter].
      assert (is_span (closing_event action name e' summary) = true) as -> by (unfold closing_event; by destruct (success e')).
      by rewrite path_events_quiet.
    + rewrite Hh5, Hh4, Hh3, Hh2, Hh1, <- app_assoc. done.
  - right. split_and!; congruence.
Qed.
End running.
