(* ===== verification/ToolRouterProps.v ===== *)
(** * The router of tool calls: what runs, how often, and what is kept *)

From Stdlib Require Import Ascii.
From S2P Require Import Prelude Texts Values Codec ToolRegistry ResultStore ToolRouter ToolRouterFacts.

#[local] Open Scope Z_scope.
Open Scope py_scope.

(** ** When a call starts *)

(** The call has failed as often as it may. *)
Definition exhausted (l : repeat_ledger) (failure_key : string) : bool :=
  MAX_FAILED_REPEATS <=? count_of l.(failed) failure_key.

(** A handler was begun: the hooks were told before it. *)
Definition started {W} (s s' : state W) : Prop :=
  ∃ h hs, s'.(hook_log) = s.(hook_log) ++ h :: hs ∧ h.(phase) = "before_tool".

Section calls.
  Context {W Scope : Type} `{RequestPolicy W Scope}.
  Context (canonical : json → string) (registry : ToolRegistry (Handler W)).
  Implicit Types (ctx : ToolExecutionContext W Scope) (s : state W) (spec : ToolSpec) (e : ToolResultEnvelope).

Abbreviation key name args := (failure_key_of canonical name (without_scope_reason args)).
Abbreviation print_of l name args := (fingerprint_of canonical l name (without_scope_reason args)).

(** The observation was repeated and can still be seen. *)
Definition observed ctx (w : W) (l : repeat_ledger) (fingerprint : string) : bool :=
  (MAX_CACHED_REPEATS <=? count_of l.(cached) fingerprint) && evidence_visible ctx w l fingerprint.

Definition unrepeated ctx s (name : string) (args : json) : Prop :=
  exhausted s.(ledger) (key name args) = false ∧
  observed ctx s.(cache).(world) s.(ledger) (print_of s.(ledger) name args) = false.

(** A call the gates let through that is no repetition, as a computation. *)
Definition starts ctx (name : string) (args : json) s : bool :=
  is_ok (policy_gate registry ctx name args s).2
  && negb (exhausted s.(ledger) (key name args))
  && negb (observed ctx s.(cache).(world) s.(ledger) (print_of s.(ledger) name args)).

Lemma starts_true ctx name args s :
  starts ctx name args s = true ↔
  ∃ spec, admissible registry ctx s.(cache).(world) name args spec ∧ unrepeated ctx s name args.
Proof.
  unfold starts, unrepeated. rewrite !andb_true_iff, !negb_true_iff.
  destruct (policy_gate registry ctx name args s) as [s1 [a|r]] eqn:E; cbn [snd is_ok].
  - apply policy_gate_ok in E as (spec & Ha & _). naive_solver.
  - split; [naive_solver|]. intros (spec & Ha & _).
    assert (policy_gate registry ctx name args s = (noted ctx spec args s, Ok (admit_call spec args))) as E'
      by (apply policy_gate_ok; eauto). congruence.
Qed.

(** A refused or suppressed call leaves the work alone but for the counts. *)
Definition counted (l l' : repeat_ledger) : Prop :=
  (∃ k, l' = l <| failed ::= bump k |>) ∨ (∃ k, l' = l <| cached ::= bump k |>) ∨ l' = l.

Record refused_call (call action name : string) (s s' : state W) (v : res exn ToolResultEnvelope) : Prop := {
  rc_world : s'.(cache).(world) = s.(cache).(world);
  rc_results : s'.(results) = s.(results);
  rc_ledger : counted s.(ledger) s'.(ledger);
  rc_answer : ∃ e, v = Ok e ∧ e.(success) = false ∧ e.(error_summary) = Some e.(text);
  rc_traced : ∃ keys category kind summary,
    traced s s' [TOOL_CALL_STARTED name action category keys; TOOL_CALL_FAILED name action kind summary false None];
  rc_hooks : ∃ h, s'.(hook_log) = s.(hook_log) ++ [h] ∧ h.(phase) = "on_tool_failure";
}.

Context (float_eq : string → Z → bool) (repr : json → string) (decode : string → string).
Context (hash : string → string) (dumps : json → string).
Abbreviation run_call := (execute float_eq repr decode canonical hash dumps registry).

Lemma suppressed_refused (f : repeat_ledger → repeat_ledger) call action name category keys count kind text terminal s0 s s' v :
  counted s0.(ledger) (f s0.(ledger)) →
  s.(cache).(world) = s0.(cache).(world) → s.(ledger) = s0.(ledger) → s.(results) = s0.(results) →
  s.(trace) = s0.(trace) → s.(hook_log) = s0.(hook_log) →
  (do* modify (λ s, s <| ledger ::= f |>) in
   suppressed_repeat call action name category keys count kind text terminal) s = (s', v) →
  refused_call call action name s0 s' v.
Proof.
  intros Hc Hw Hl Hr Ht Hh. unfold bind, modify.
  intros ((Hc' & Hl' & Hr') & (l & Hl2 & Hf) & (h & Hh2 & Hp) & He)%suppressed_repeat_inv. destruct s; cbn in *.
  split; [congruence..|by rewrite Hl', Hl|done| |].
  - do 4 eexists. exists l. split; [by rewrite Hl2, Ht|exact Hf].
  - exists h. by rewrite Hh2, Hh.
Qed.

(** A call starts, or is refused. *)
Lemma execute_cases ctx call action name args s s' v : run_call ctx call action name args s = (s', v) →
  (starts ctx name args s = false ∧ refused_call call action name s s' v) ∨
  (starts ctx name args s = true ∧ ∃ spec, admissible registry ctx s.(cache).(world) name args spec ∧
     run_tool float_eq repr decode hash dumps registry ctx call action name (admit_call spec args)
       (print_of s.(ledger) name args) (key name args) (noted ctx spec args s) = (s', v)).
Proof.
  unfold execute. unfold bind at 1. destruct (gated _ _ _ _ _ _ s) as [s1 v1] eqn:E1.
  apply gated_cases in E1 as [(spec & Ha & -> & ->)|(Hno & (Hw & Hl & Hr) & r & Ht & Hh & ->)].
  - pose proof (noted_world ctx spec args s) as Hw. destruct (noted_rest ctx spec args s) as (Hl & Hr & Ht & Hh).
    unfold run_admitted. unfold bind at 1, get. rewrite Hl, Hw. cbn [ad_arguments admit_call].
    fold (exhausted s.(ledger) (key name args)). fold (observed ctx s.(cache).(world) s.(ledger) (print_of s.(ledger) name args)).
    assert (starts ctx name args s = negb (exhausted s.(ledger) (key name args))
      && negb (observed ctx s.(cache).(world) s.(ledger) (print_of s.(ledger) name args))) as Hst.
    { unfold starts. by rewrite (proj2 (policy_gate_ok registry ctx name args s _ _) (ex_intro _ spec (conj Ha (conj eq_refl eq_refl)))). }
    destruct (exhausted _ _); [|destruct (observed _ _ _ _)].
    + intros Hs. left. split; [done|]. revert Hs. apply (suppressed_refused (λ l, l <| failed ::= bump _ |>)); [|done..].
      left. eauto.
    + intros Hs. left. split; [done|]. revert Hs. apply (suppressed_refused (λ l, l <| cached ::= bump _ |>)); [|done..].
      right. left. eauto.
    + intros Hs. right. split; [done|]. by exists spec.
  - unfold ret. intros [= <- <-]. left. split.
    + apply not_true_iff_false. intros (spec & ? & _)%starts_true. naive_solver.
    + split; try done; try congruence.
      * rewrite Hl. by right; right.
      * eexists. split; [done|]. done.
      * do 4 eexists. exists (refusal_trace action name r). split; [done|]. done.
      * eexists. split; [exact Hh|]. done.
Qed.
Context (hash_shape : ∀ m, all_hex (hash m) = true ∧ String.length (hash m) = 64%nat).

(** What a started call does to the ledger and to the observers. *)
Lemma started_call ctx call action name args s s' v :
  run_call ctx call action name args s = (s', v) → starts ctx name args s = true →
  ∃ spec e, admissible registry ctx s.(cache).(world) name args spec ∧ e.(success) = is_success e.(status) ∧
    s'.(ledger) = moved float_eq e (settled call (print_of s.(ledger) name args) (key name args) e s.(ledger)) ∧
    started s s' ∧
    let opened := TOOL_CALL_STARTED name action (category_value spec.(tl_category))
                    (argument_keys_of (without_scope_reason args)) in
    ((∃ e' summary, v = Ok e' ∧ e'.(status) = e.(status) ∧ e'.(success) = e.(success) ∧
        traced s s' [opened; closing_event action name e' summary]) ∨
     (v = Raise IndexError ∧ e.(success) = false ∧ traced s s' [opened])).
Proof using hash_shape.
  intros Hrun Hst. apply execute_cases in Hrun as [[Hns _]|(_ & spec & Ha & Hrun)]; [congruence|].
  apply run_tool_run in Hrun; [|done]. destruct (run_handler _ _ _ _ _ _ _ _) as [c o].
  destruct (noted_rest ctx spec args s) as (Hl & _ & Ht & Hh).
  destruct Hrun as (_ & (e & He1 & He2 & He3 & He4 & Hl') & ? & -> & ? & -> & Hend).
  rewrite Hl in Hl'. exists spec, e. split; [done|]. split; [congruence|]. split; [done|].
  unfold traced in *. rewrite Ht in Hend. rewrite Hh in Hend. cbn [ad_spec ad_keys admit_call] in Hend.
  destruct Hend as [(e' & summary & -> & Hs1 & Hs2 & Htr & Hhk)|(-> & Hf & Htr & Hhk)].
  - split; [do 2 eexists; split; [exact Hhk|done]|]. left. exists e', summary. split_and!; congruence || done.
  - split; [do 2 eexists; split; [exact Hhk|done]|]. right. split_and!; congruence || done.
Qed.

(** C8: a handler is begun exactly for the calls that every gate of the turn
    lets through -- not cancelled, a registered tool, for this role, not a
    write in a turn that may not write, within the request, earned, in a mode
    the tool declares, with arguments its schema accepts -- and that neither
    failed twice before nor repeat an observation still in view.  Any other
    call leaves the world, the stored results and the generation as they
    were and is answered with a failure that says why. *)
Theorem only_admissible_calls_run ctx call action name args s s' v :
  run_call ctx call action name args s = (s', v) →
  (started s s' ↔ ∃ spec, admissible registry ctx s.(cache).(world) name args spec ∧ unrepeated ctx s name args) ∧
  (¬ started s s' → s'.(cache).(world) = s.(cache).(world) ∧ s'.(results) = s.(results) ∧
     s'.(ledger).(generation) = s.(ledger).(generation) ∧
     ∃ e, v = Ok e ∧ e.(success) = false ∧ e.(error_summary) = Some e.(text)).
Proof using hash_shape.
  intros Hrun. rewrite <- starts_true. destruct (starts ctx name args s) eqn:Hst.
  - destruct (started_call _ _ _ _ _ _ _ _ Hrun Hst) as (spec & e & Ha & _ & _ & Hs & _). tauto.
  - apply execute_cases in Hrun as [[_ [Hw Hr Hl He _ (h & Hh & Hp)]]|[? _]]; [|congruence].
    assert (¬ started s s') as Hno.
    { intros (h' & hs & Hh' & Hp'). rewrite Hh in Hh'. apply app_inv_head in Hh'. simplify_eq. congruence. }
    split; [split; [tauto|done]|]. intros _. split_and!; try done.
    destruct Hl as [[k ->]|[[k ->]| ->]]; by destruct s.(ledger).
Qed.

(** What a core that runs its own tools is told is what the router would
    have done: [authorize] changes nothing but what observers saw and the
    reasons kept; it allows exactly the calls that no gate refuses; and what
    it refuses, [execute] refuses with the same text, running nothing. *)
Theorem authorize_agrees_with_execute ctx call action action' name args s :
  let '(s1, answer) := authorize registry ctx action name args s in
  let '(s2, v) := run_call ctx call action' name args s in
  same_work s s1 ∧ ∃ verdict, answer = Ok verdict ∧
  match verdict with
  | None => ∃ spec, admissible registry ctx s.(cache).(world) name args spec
  | Some refusal =>
      (¬ ∃ spec, admissible registry ctx s.(cache).(world) name args spec) ∧ same_work s s2 ∧
      ∃ e, v = Ok e ∧ e.(text) = refusal ∧ e.(success) = false
  end.
Proof using Type.
  unfold authorize, execute, bind at 1, bind at 1, gated.
  destruct (policy_gate registry ctx name args s) as [s1 [a|r]] eqn:E.
  - pose proof (quiet_run _ _ _ E) as (Hw & _ & _). apply policy_gate_ok in E as (spec & Ha & -> & ->).
    destruct (run_admitted _ _ _ _ _ _ _ _ _ _ _ _ _) as [s2 v]. split; [done|]. exists None. eauto.
  - assert (¬ ∃ spec, admissible registry ctx s.(cache).(world) name args spec) as Hno.
    { intros (spec & Ha). rewrite (proj2 (policy_gate_ok registry ctx name args s _ _)
        (ex_intro _ spec (conj Ha (conj eq_refl eq_refl)))) in E. done. }
    pose proof (quiet_run _ _ _ E) as (Hw & _ & _).
    unfold bind. rewrite !early_failure_run. unfold ret. cbn [text refusal_envelope].
    assert (∀ ts hs, same_work s (s1 <| trace ::= λ t, t ++ ts |> <| hook_log ::= λ t, t ++ hs |>)) as Hsame
      by (intros ts hs; destruct s1; exact Hw).
    split; [apply Hsame|]. exists (Some r.(rf_text)). split; [done|]. split; [done|]. split; [apply Hsame|].
    by eexists.
Qed.

(** A call is opened and closed once: whatever it answers, the trace
    gains the start of the call and one end, a success or a failure as the
    answer says.  The one exception is a failure that cannot be summed up: it
    escapes as an error and leaves the call open. *)
Theorem calls_are_opened_and_closed ctx call action name args s s' v :
  run_call ctx call action name args s = (s', v) →
  ∃ opened, (∃ category keys, opened = TOOL_CALL_STARTED name action category keys) ∧
  ((∃ e closed, v = Ok e ∧ traced s s' [opened; closed] ∧
      if e.(success) then ∃ fields, closed = TOOL_CALL_FINISHED name action fields
      else ∃ kind summary cancelled fields, closed = TOOL_CALL_FAILED name action kind summary cancelled fields) ∨
   (v = Raise IndexError ∧ traced s s' [opened])).
Proof using hash_shape.
  intros Hrun. destruct (starts ctx name args s) eqn:Hst.
  - destruct (started_call _ _ _ _ _ _ _ _ Hrun Hst) as (spec & e & _ & _ & _ & _ & Hend).
    eexists. split; [by do 2 eexists|]. destruct Hend as [(e' & summary & -> & _ & _ & Ht)|(-> & _ & Ht)]; [left|by right].
    do 2 eexists. split; [done|]. split; [exact Ht|]. unfold closing_event. destruct (success e'); by repeat eexists.
  - apply execute_cases in Hrun as [[_ [_ _ _ (e & -> & He & _) (keys & category & kind & summary & Ht) _]]|[? _]]; [|congruence].
    eexists. split; [by do 2 eexists|]. left. do 2 eexists. split; [done|]. split; [exact Ht|]. rewrite He. by repeat eexists.
Qed.
End calls.
