(* ===== verification/ToolRouterSessions.v ===== *)
(** * Calls in a session: how often an identical call runs, what identifies
    a call, and what of a result the model is shown *)

From Stdlib Require Import Ascii.
From S2P Require Import Prelude Texts Values Codec ToolRegistry ResultStore.
From S2P Require Import ToolRouter ToolRouterFacts ToolRouterProps.

#[local] Open Scope Z_scope.
Open Scope py_scope.

(** ** Counting along a run *)

Section counting.
  Context {S A : Type} (perform : A → S → S).

(** How many steps of a run a test holds for. *)
Fixpoint occurrences (test : S → A → bool) (steps : list A) (s : S) : Z :=
  match steps with
  | [] => 0
  | st :: steps => (if test s st then 1 else 0) + occurrences test steps (perform st s)
  end.

(** A potential that a counted step uses up and that none gives back bounds
    the count, as long as nothing excepted happens. *)
Lemma occurrences_bounded (test except : S → A → bool) (potential : S → Z) steps s :
  (∀ s, 0 <= potential s) →
  (∀ s st, except s st = false → potential (perform st s) <= potential s - (if test s st then 1 else 0)) →
  occurrences except steps s = 0 → occurrences test steps s <= potential s.
Proof.
  intros Hpos Hstep. revert s. induction steps as [|st steps IH]; intros s; cbn [occurrences]; [intros _; apply Hpos|].
  assert (∀ l s0, 0 <= occurrences except l s0) as Hnn.
  { intros l. induction l as [|x l IHl]; intros s0; cbn [occurrences]; [done|]. specialize (IHl (perform x s0)).
    destruct (except s0 x); lia. }
  intros Hex. specialize (Hnn steps (perform st s)). specialize (Hstep s st).
  destruct (except s st); [lia|]. specialize (IH (perform st s) ltac:(lia)). specialize (Hstep eq_refl). lia.
Qed.
End counting.

(** ** Counters *)

Lemma count_of_bump m k k' : count_of (bump k m) k' = count_of m k' + (if decide (k = k') then 1 else 0).
Proof.
  unfold count_of, bump. case_decide; subst; [by rewrite lookup_insert_eq|]. rewrite lookup_insert_ne by done. lia.
Qed.

Lemma moved_counts float_eq e l :
  (moved float_eq e l).(failed) = l.(failed) ∧ (moved float_eq e l).(cached) = l.(cached) ∧
  (moved float_eq e l).(evidence) = l.(evidence).
Proof. unfold moved. by destruct (invalidates_reads _ _ _ _), l. Qed.

Lemma settled_failed_ne call fp fk e l k :
  fk ≠ k → count_of (settled call fp fk e l).(failed) k = count_of l.(failed) k.
Proof.
  intros Hne. unfold settled. case_bool_decide; [by destruct l|]. destruct (success e).
  - case_bool_decide; destruct l; cbn; unfold count_of; by rewrite lookup_delete_ne.
  - destruct l; cbn. rewrite count_of_bump, decide_False by done. lia.
Qed.

Section sessions.
  Context {W Scope : Type} `{RequestPolicy W Scope}.
  Context (canonical : json → string) (registry : ToolRegistry (Handler W)).
  Context (float_eq : string → Z → bool) (repr : json → string) (decode : string → string).
  Context (hash : string → string) (dumps : json → string).
  Implicit Types (ctx : ToolExecutionContext W Scope) (s : state W).

(** What happens during a task: a call, under whatever gates the turn has by
    then, or anything else that changes the world. *)
Inductive step :=
  | Call (ctx : ToolExecutionContext W Scope) (call action name : string) (args : json)
  | Meanwhile (f : shared W → shared W).

Abbreviation run_call := (execute float_eq repr decode canonical hash dumps registry).

Definition perform (st : step) (s : state W) : state W :=
  match st with
  | Call ctx call action name args => (run_call ctx call action name args s).1
  | Meanwhile f => s <| cache ::= f |>
  end.

(** A call with this failure key is begun. *)
Definition attempts (key : string) (s : state W) (st : step) : bool :=
  match st with
  | Call ctx _ _ name args => starts canonical registry ctx name args s
                              && String.eqb (failure_key_of canonical name (without_scope_reason args)) key
  | Meanwhile _ => false
  end.

Definition answered (p : ToolResultEnvelope → bool) (s : state W) (st : step) : bool :=
  match st with
  | Call ctx call action name args =>
      match (run_call ctx call action name args s).2 with Ok e => p e | Raise _ => false end
  | Meanwhile _ => false
  end.

(** It is begun and succeeds. *)
Definition succeeds (key : string) (s : state W) (st : step) : bool := attempts key s st && answered success s st.

(** A call with this fingerprint is begun and observes something: it
    succeeds, or is served from a cache. *)
Definition observes_again (fingerprint : string) (s : state W) (st : step) : bool :=
  match st with
  | Call ctx _ _ name args =>
      starts canonical registry ctx name args s
      && String.eqb (fingerprint_of canonical s.(ledger) name (without_scope_reason args)) fingerprint
      && answered success s st
  | Meanwhile _ => false
  end.

(** The evidence of a call is out of view. *)
Definition loses_evidence (fingerprint : string) (s : state W) (st : step) : bool :=
  match st with
  | Call ctx _ _ _ _ => negb (evidence_visible ctx s.(cache).(world) s.(ledger) fingerprint)
  | Meanwhile _ => false
  end.

Context (hash_shape : ∀ m, all_hex (hash m) = true ∧ String.length (hash m) = 64%nat).

(** What a step does to the ledger: nothing, one more of a count, or what an
    outcome that starts leaves. *)
Lemma step_ledger st s :
  counted s.(ledger) (perform st s).(ledger) ∧ (∀ key, attempts key s st = false) ∧ (∀ fp, observes_again fp s st = false) ∨
  ∃ ctx call action name args spec e, st = Call ctx call action name args ∧
    let key := failure_key_of canonical name (without_scope_reason args) in
    let fp := fingerprint_of canonical s.(ledger) name (without_scope_reason args) in
    admissible registry ctx s.(cache).(world) name args spec ∧ unrepeated canonical ctx s name args ∧
    e.(success) = is_success e.(status) ∧ answered success s st = e.(success) ∧
    (∀ key', attempts key' s st = String.eqb key key') ∧
    (∀ fp', observes_again fp' s st = String.eqb fp fp' && e.(success)) ∧
    (perform st s).(ledger) = moved float_eq e (settled call fp key e s.(ledger)).
Proof using hash_shape.
  destruct st as [ctx call action name args|f]; [|left; split_and!; [right; right; by destruct s|done..]].
  cbn [perform attempts observes_again answered]. destruct (run_call ctx call action name args s) as [s' v] eqn:Hrun. cbn [fst snd].
  destruct (starts canonical registry ctx name args s) eqn:Hst.
  - right. pose proof (started_call _ _ _ _ _ _ _ hash_shape _ _ _ _ _ _ _ _ Hrun Hst) as (spec & e & Ha & He & Hl & _ & Hend).
    apply starts_true in Hst as (_ & _ & Hun).
    assert (match v with Ok e => success e | Raise _ => false end = success e) as Hans
      by (destruct Hend as [(e' & ? & -> & _ & -> & _)|(-> & -> & _)]; done).
    exists ctx, call, action, name, args, spec, e. rewrite Hans.
    by split_and!.
  - left. apply execute_cases in Hrun as [[_ [_ _ Hl _ _ _]]|[? _]]; [|congruence]. done.
Qed.

(** C20: an identical call that keeps failing is run at most twice, whatever
    else happens in the task: other calls, writes, or changes of the world.
    Only a success of the same call starts the count again. *)
Theorem failing_calls_run_at_most_twice key steps s :
  s.(ledger).(failed) !! key = None →
  occurrences perform (succeeds key) steps s = 0 →
  occurrences perform (attempts key) steps s <= MAX_FAILED_REPEATS.
Proof using hash_shape.
  intros Hnew Hsucc.
  assert (occurrences perform (attempts key) steps s <= Z.max 0 (MAX_FAILED_REPEATS - count_of s.(ledger).(failed) key)) as Hle.
  { revert Hsucc. apply (occurrences_bounded perform _ _ (λ s, Z.max 0 (MAX_FAILED_REPEATS - count_of s.(ledger).(failed) key)));
      [intros; lia|]. clear - hash_shape. intros s st Hex.
    destruct (step_ledger st s) as [(Hc & Ha & _)|(ctx & call & action & name & args & spec & e & -> & _ & [Hun _] & Hsuc & Hans & Ha & _ & Hl)].
    - rewrite Ha. destruct Hc as [[k ->]|[[k ->]| ->]]; destruct s.(ledger); cbn -[Z.max]; try lia.
      rewrite count_of_bump. case_decide; lia.
    - unfold succeeds in Hex. rewrite Ha in *. rewrite Hans, Hsuc in Hex. rewrite Hl, (proj1 (moved_counts _ _ _)).
      unfold exhausted in Hun. unfold settled. rewrite Hsuc.
      destruct (String.eqb_spec (failure_key_of canonical name (without_scope_reason args)) key) as [<-|Hne].
      + cbn [andb] in Hex. rewrite Hex. rewrite bool_decide_eq_false_2 by (intros Hc; by rewrite Hc in Hex).
        destruct s.(ledger); cbn -[Z.max]. rewrite count_of_bump, decide_True by done. cbn in Hun. lia.
      + pose proof (settled_failed_ne call (fingerprint_of canonical s.(ledger) name (without_scope_reason args))
          _ e s.(ledger) _ Hne) as Hs. unfold settled in Hs. rewrite Hsuc in Hs. rewrite Hs. cbn. lia. }
  unfold count_of in Hle. rewrite Hnew in Hle. cbn in Hle. unfold MAX_FAILED_REPEATS in *. lia.
Qed.

(** An observation is taken at most twice while nothing is written and
    its evidence stays in view: the third identical call is answered without
    running, whatever happens in between. *)
Theorem observations_are_taken_at_most_twice fingerprint steps s :
  s.(ledger).(cached) !! fingerprint = None → s.(ledger).(evidence) !! fingerprint = None →
  occurrences perform (loses_evidence fingerprint) steps s = 0 →
  occurrences perform (observes_again fingerprint) steps s <= MAX_CACHED_REPEATS + 1.
Proof using hash_shape.
  intros Hc0 He0 Hlost.
  set (potential := λ s : state W,
    Z.max 0 (MAX_CACHED_REPEATS - count_of s.(ledger).(cached) fingerprint)
    * (if bool_decide (is_Some (s.(ledger).(evidence) !! fingerprint)) then 1 else 2)).
  assert (occurrences perform (observes_again fingerprint) steps s <= potential s) as Hle.
  { revert Hlost. apply (occurrences_bounded perform _ _ potential); [intros; unfold potential; case_bool_decide; lia|].
      clear - hash_shape potential. intros s st Hex.
    destruct (step_ledger st s) as [(Hc & _ & Ha)|(ctx & call & action & name & args & spec & e & -> & _ & [_ Hun] & Hsuc & _ & _ & Ha & Hl)].
    - rewrite Ha. unfold potential. destruct Hc as [[k ->]|[[k ->]| ->]]; destruct s.(ledger); cbn -[Z.max Z.mul]; try lia.
      rewrite count_of_bump. case_bool_decide; case_decide; lia.
    - rewrite Ha. unfold potential. rewrite Hl. destruct (moved_counts float_eq e (settled call
        (fingerprint_of canonical s.(ledger) name (without_scope_reason args))
        (failure_key_of canonical name (without_scope_reason args)) e s.(ledger))) as (_ & -> & ->).
      cbn [loses_evidence] in Hex. apply negb_false_iff in Hex. unfold observed in Hun.
      unfold settled. rewrite Hsuc.
      destruct (String.eqb_spec (fingerprint_of canonical s.(ledger) name (without_scope_reason args)) fingerprint) as [<-|Hne].
      + rewrite Hex, andb_true_r in Hun. cbn [andb].
        set (fp := fingerprint_of _ _ _ _) in *. clearbody fp. set (fk := failure_key_of _ _ _). clearbody fk.
        case_bool_decide as Hca; [|destruct (is_success _) eqn:Hok; [case_bool_decide as Hseen|]].
        * rewrite Hca. destruct s.(ledger); cbn -[Z.max Z.mul] in *. rewrite count_of_bump, decide_True by done.
          change (is_success CACHED) with true. cbn -[Z.max Z.mul]. case_bool_decide; lia.
        * destruct s.(ledger); cbn -[Z.max Z.mul] in *. rewrite count_of_bump, decide_True, lookup_insert_eq by done.
          rewrite !bool_decide_eq_true_2 by eauto. lia.
        * destruct s.(ledger); cbn -[Z.max Z.mul] in *. rewrite lookup_insert_eq.
          repeat case_bool_decide; try lia; naive_solver.
        * destruct s.(ledger); cbn -[Z.max Z.mul] in *. lia.
      + cbn [andb]. set (fp := fingerprint_of _ _ _ _) in *. clearbody fp.
        case_bool_decide as Hca; [|destruct (is_success _) eqn:Hok; [case_bool_decide as Hseen|]];
          destruct s.(ledger); cbn -[Z.max Z.mul] in *;
          rewrite ?count_of_bump, ?decide_False, ?lookup_insert_ne by done; lia. }
  unfold potential, count_of in Hle. rewrite Hc0, He0, bool_decide_eq_false_2 in Hle by apply is_Some_None. cbn in Hle.
  unfold MAX_CACHED_REPEATS in *. lia.
Qed.
End sessions.

(** ** What identifies a call *)

Definition not_colon (c : ascii) : bool := negb (Ascii.eqb c ":"%char).

Lemma pretty_Z_not_colon (z : Z) : all_chars not_colon (pretty z) = true.
Proof.
  assert (∀ d, not_colon (pretty_N_char d) = true) as Hd.
  { intros d. unfold pretty_N_char. repeat (case_match; try done). }
  assert (∀ n : N, all_chars not_colon (pretty n) = true) as Hn.
  { intros n. unfold pretty, pretty_N. case_decide; [done|]. by apply pretty_N_go_chars. }
  destruct z as [|p|p]; [done|apply Hn|]. change (all_chars not_colon (String.append "-" (pretty (N.pos p))) = true).
  cbn. apply Hn.
Qed.

Lemma name_not_colon n : ToolRegistry.tool_name n = true → all_chars not_colon n = true.
Proof.
  unfold ToolRegistry.tool_name. destruct (span name_char n) as [first rest] eqn:Hs. intros [_ Hr]%andb_true_iff.
  assert (∀ c, name_char c = true → not_colon c = true) as Hc.
  { intros c. unfold not_colon. destruct (Ascii.eqb_spec c ":"%char) as [->|]; [by vm_compute|done]. }
  assert (∀ m f r, span name_char m = (f, r) → m = f +:+ r ∧ all_chars not_colon f = true) as Hspan.
  { clear - Hc. induction m as [|c m IH]; intros f r; cbn; [by intros [= <- <-]|].
    destruct (name_char c) eqn:E; [|by intros [= <- <-]]. destruct (span name_char m) as [f' r'].
    intros [= <- <-]. destruct (IH _ _ eq_refl) as [-> Hf]. split; [done|]. cbn. by rewrite Hc. }
  destruct (Hspan _ _ _ Hs) as [-> Hf]. rewrite all_chars_app, Hf. cbn.
  destruct rest as [|c rest]; [done|]. destruct c as [[] [] [] [] [] [] [] []]; try done.
  apply andb_true_iff in Hr as [_ Hr]. cbn. by apply (all_chars_impl name_char).
Qed.

(** The fingerprint of a call tells calls apart exactly as it should: for
    the tools a registry accepts, two calls share one precisely when they are
    of the same generation, of the same tool, and with the same arguments
    whatever the order of their keys.  That the JSON text determines the
    arguments up to that order is assumed. *)
Theorem signature_identifies_the_call canonical name name' args args' g g' :
  (∀ j j', canonical j = canonical j' ↔ sort_keys j = sort_keys j') →
  ToolRegistry.tool_name name = true → ToolRegistry.tool_name name' = true →
  action_signature canonical name args g = action_signature canonical name' args' g' ↔
  g = g' ∧ name = name' ∧ sort_keys args = sort_keys args'.
Proof.
  intros Hc Hn%name_not_colon Hn'%name_not_colon. rewrite <- Hc. unfold action_signature. split; [|by intros (-> & -> & ->)].
  intros Heq. apply (sep_split ":"%char) in Heq as [Hg Heq]; [|apply pretty_Z_not_colon..].
  apply (sep_split ":"%char) in Heq as [-> Ha]; [|done..]. apply (inj pretty) in Hg. done.
Qed.

(** ** What the model is shown of a result *)

Section envelopes.
  Context {W Scope : Type} `{RequestPolicy W Scope}.
  Context (decode : string → string) (hash : string → string) (dumps : json → string) (loads : string → option json).
  Implicit Types (ctx : ToolExecutionContext W Scope) (s : state W).

(** C37: a result is kept whole and shown within bounds.  What the model reads
    is at most the preview and its note, or what fits the window of the tool;
    and of a result too long for the window of a tool whose results are
    stored, the reference gives back exactly the bytes, to this task. *)
Theorem long_results_are_kept_and_cut ctx spec call action r s s' e :
  (∀ m, all_hex (hash m) = true ∧ String.length (hash m) = 64%nat) →
  (∀ j, loads (encode_utf8 (dumps j)) = Some (sort_keys j)) →
  0 <= spec.(tl_result_policy).(preview_chars) →
  envelope_of decode hash dumps ctx spec call action r s = (s', Ok e) →
  let policy := spec.(tl_result_policy) in
  e.(text) = content_text decode r.(hr_text) ∧
  (if e.(truncated_for_model)
   then length_of e.(model_content) <= policy.(preview_chars) + length_of (limit_suffix e.(output_bytes) e.(result_reference))
   else length_of e.(model_content) <= policy.(model_context_chars)) ∧
  (is_Some e.(result_reference) ↔
     policy.(model_context_chars) < length_of e.(text) ∧ policy.(store_large_results) = true ∧ ctx.(has_result_store) = true) ∧
  (∀ reference, e.(result_reference) = Some reference →
     get_bytes hash loads reference (Some ctx.(task_id)) s'.(results) = (s'.(results), Ok (payload_of r.(hr_text)))).
Proof.
  intros Hh Hcodec Hp. unfold envelope_of. unfold bind at 1.
  set (m := if _ && _ && _ then _ else _). destruct (m s) as [s1 [ref|x]] eqn:Hm; [|done].
  unfold ret. intros [= <- <-]. cbv zeta. cbn [text truncated_for_model model_content output_bytes result_reference].
  split; [done|]. split; [|split].
  - clear Hm m. unfold model_content_of. destruct (_ <? _) eqn:Hlt; [|apply Z.ltb_ge in Hlt; exact Hlt]. unfold length_of. rewrite length_append.
    pose proof (substring_length (Z.to_nat (preview_chars (tl_result_policy spec))) (default (content_text decode (hr_text r)) (hr_model_text r))). lia.
  - revert Hm. unfold m. destruct (_ && _ && _) eqn:Hc.
    + apply andb_true_iff in Hc as [[Hc%Z.ltb_lt Hst]%andb_true_iff Hrs]. unfold bind. destruct (lift_store _ s) as [s2 [st|]]; [|done].
      unfold ret. intros [= <- <-]. naive_solver.
    + unfold ret. intros [= <- <-]. split; [by intros []|]. intros (Hlt%Z.ltb_lt & Hst & Hrs). by rewrite Hlt, Hst, Hrs in Hc.
  - intros reference ->. revert Hm. unfold m. destruct (_ && _ && _); [|done].
    unfold bind, lift_store. rewrite put_run by done. unfold ret. intros [= <- <-].
    pose proof (get_stored hash dumps loads Hh) as Hg. destruct s; cbn.
    match goal with |- get_bytes _ _ (reference_of _ ?t ?p) _ (stored _ _ ?c _ ?md _) = _ =>
      specialize (Hg c t md (Some ctx.(task_id))) end.
    cbn zeta in Hg. rewrite Hg; [|done|unfold stored; apply lookup_insert_eq|].
    + unfold readable. by rewrite String.eqb_refl.
    + unfold stored. rewrite lookup_insert_ne, lookup_insert_eq; [done|].
      intros Heq. by apply names_apart in Heq as [_ ?]; [|apply reference_ok..].
Qed.
End envelopes.

(** ** Examples

    Two tools over a world that is the list of the files written; a write of
    [stop] also interrupts the task, one of [crash] raises. *)

Module RouterExamples.

#[local] Instance sample_policy : RequestPolicy (list string) unit := {
  sibling_write_refusal _ _ target := if String.eqb target "sibling.c" then "it belongs to another member" else "";
  outside_project_refusal _ _ _ := "";
  shell_write_refusal _ _ _ _ := "";
  shell_write_targets _ _ _ _ := [];
  target_refusal _ _ := "";
}.

Definition path_schema : json :=
  JObj [("type", JStr "object"); ("properties", JObj [("path", JObj [("type", JStr "string")])]);
        ("required", JList [JStr "path"])].

Definition read_spec : ToolSpec :=
  mk_tool "read_file" "Read a file." path_schema ToolRegistry.FILE_READ READ_ONLY [] [] (mk_policy 30 true 10) only_main true None.
Definition write_spec : ToolSpec :=
  mk_tool "write_file" "Write a file." path_schema FILE_WRITE MUTATING [] ["ask"; "auto"] default_result_policy only_main true None.

Definition found (text : string) (model_text : option string) : outcome :=
  Returned (Structured (mk_result (Text text) OK None None None [] false [] [] None None model_text)).

Definition read_handler : Handler (list string) := λ _ args c,
  (c, match target_of args with
      | "missing" => Returned (Legacy (Text "ERROR: no such file"))
      | "silent" => Returned (Structured (plain_result "" FAILED None None))
      | "rendered" => found "short" (Some "a rendering longer than the window of the tool")
      | "long" => found "a file longer than the window of the tool" None
      | _ => found "contents" None
      end).

(** A write records its mutation, which drops what is cached under a text. *)
Definition write_handler : Handler (list string) := λ _ args c,
  let path := target_of args in
  let c := (forget_cached_reads c) <| world ::= λ w, w ++ [path] |> in
  (c, if String.eqb path "crash" then Raised "OSError" "disk full"
      else Returned (Structured (mk_result (Text "written") OK None None None [] true [path] [] None None None))).

Definition sample_registry : ToolRegistry (Handler (list string)) :=
  match register_all (λ name, Some (if String.eqb name "read_file" then read_handler else write_handler))
          [read_spec; write_spec] [] with
  | Ok r => r | Raise _ => [] end.

Definition sample_context : ToolExecutionContext (list string) unit :=
  mk_context _ _ "task" true None None (λ w, if bool_decide ("stop" ∈ w) then Some "operator" else None) "main" None
    false false (Some tt) None "auto".

Definition sample_state : state (list string) := mk_state (mk_shared [] []) empty_ledger ∅ [] [].

Definition path_args (path : string) : json := JObj [("path", JStr path)].

Abbreviation sample_run := (execute (λ _ _, false) (λ _, "") (λ s, s) bits_dumps toy_hash bits_dumps sample_registry sample_context).
Definition sample_loads (s : string) : option json := bits_loads (decode_utf8 s).

Definition reading (path : string) : step (W:=list string) (Scope:=unit) :=
  Call sample_context "call" "action" "read_file" (path_args path).

Lemma only_admissible_calls_run_witness : started sample_state (sample_run "call" "action" "write_file" (path_args "a.c") sample_state).1.
Proof.
  destruct (only_admissible_calls_run bits_dumps sample_registry (λ _ _, false) (λ _, "") (λ s, s) toy_hash bits_dumps
    toy_hash_shape sample_context "call" "action" "write_file" (path_args "a.c") sample_state _ _ (surjective_pairing _)) as [Hs _].
  apply Hs. apply starts_true. vm_compute. reflexivity.
Defined.

Lemma calls_are_opened_and_closed_witness :
  ∃ category keys, head_of Some (sample_run "call" "action" "read_file" (path_args "a.c") sample_state).1.(trace)
                   = Some (TOOL_CALL_STARTED "read_file" "action" category keys).
Proof.
  destruct (calls_are_opened_and_closed bits_dumps sample_registry (λ _ _, false) (λ _, "") (λ s, s) toy_hash bits_dumps
    toy_hash_shape sample_context "call" "action" "read_file" (path_args "a.c") sample_state _ _ (surjective_pairing _)) as (opened & Ho & _).
  do 2 eexists. vm_compute. reflexivity.
Defined.

Lemma failing_calls_run_at_most_twice_witness :
  let steps := [reading "missing"; Meanwhile (λ c, c <| world := ["b.c"] |>); reading "missing"; reading "a.c"; reading "missing"] in
  let key := failure_key_of bits_dumps "read_file" (path_args "missing") in
  let run := perform bits_dumps sample_registry (λ _ _, false) (λ _, "") (λ s, s) toy_hash bits_dumps in
  occurrences run (attempts bits_dumps sample_registry key) steps sample_state = 2 ∧
  occurrences run (attempts bits_dumps sample_registry key) steps sample_state <= 2.
Proof.
  intros steps key run. split; [vm_compute; reflexivity|].
  apply (failing_calls_run_at_most_twice bits_dumps sample_registry (λ _ _, false) (λ _, "") (λ s, s) toy_hash bits_dumps
    toy_hash_shape key steps sample_state); vm_compute; reflexivity.
Defined.

Lemma observations_are_taken_at_most_twice_witness :
  let steps := [reading "a.c"; reading "b.c"; reading "a.c"; reading "a.c"; reading "a.c"] in
  let fp := fingerprint_of bits_dumps empty_ledger "read_file" (path_args "a.c") in
  let run := perform bits_dumps sample_registry (λ _ _, false) (λ _, "") (λ s, s) toy_hash bits_dumps in
  let again := observes_again bits_dumps sample_registry (λ _ _, false) (λ _, "") (λ s, s) toy_hash bits_dumps fp in
  occurrences run again steps sample_state = 2 ∧ occurrences run again steps sample_state <= 2.
Proof.
  intros steps fp run again. split; [vm_compute; reflexivity|].
  apply (observations_are_taken_at_most_twice bits_dumps sample_registry (λ _ _, false) (λ _, "") (λ s, s) toy_hash bits_dumps
    toy_hash_shape fp steps sample_state); vm_compute; reflexivity.
Defined.

Lemma bits_dumps_determines j j' : bits_dumps j = bits_dumps j' ↔ sort_keys j = sort_keys j'.
Proof.
  split; [|unfold bits_dumps; by intros ->]. intros Heq.
  assert (Some (sort_keys j) = Some (sort_keys j')) as [=]; [|done]. by rewrite <- !(codec_back (dumps:=bits_dumps)), Heq.
Qed.

Lemma signature_identifies_the_call_witness :
  action_signature bits_dumps "edit" (JObj [("a", JInt 1); ("b", JInt 2)]) 0
  = action_signature bits_dumps "edit" (JObj [("b", JInt 2); ("a", JInt 1)]) 0.
Proof.
  apply (signature_identifies_the_call bits_dumps "edit" "edit" (JObj [("a", JInt 1); ("b", JInt 2)])
    (JObj [("b", JInt 2); ("a", JInt 1)]) 0 0 bits_dumps_determines);
    [vm_compute; reflexivity..|split; [reflexivity|split; [reflexivity|vm_compute; reflexivity]]].
Defined.

Lemma sample_text_codec j : sample_loads (encode_utf8 (bits_dumps j)) = Some (sort_keys j).
Proof. unfold sample_loads. rewrite decode_encode. apply codec_back. Qed.

Definition long_result : ToolHandlerResult := plain_result "a file longer than the window of the tool" OK None None.
Abbreviation long_run := (envelope_of (λ s, s) toy_hash bits_dumps sample_context read_spec "call" "action" long_result sample_state).

Lemma long_results_are_kept_and_cut_witness :
  ∃ e reference, long_run.2 = Ok e ∧ e.(result_reference) = Some reference ∧
  get_bytes toy_hash sample_loads reference (Some "task") long_run.1.(results)
    = (long_run.1.(results), Ok "a file longer than the window of the tool").
Proof.
  destruct long_run as [s' [e|x]] eqn:Hrun; [|vm_compute in Hrun; discriminate Hrun].
  destruct (long_results_are_kept_and_cut (λ s, s) toy_hash bits_dumps sample_loads sample_context read_spec "call" "action"
    long_result sample_state s' e toy_hash_shape sample_text_codec ltac:(vm_compute; discriminate) Hrun) as (_ & _ & _ & Hget).
  destruct (result_reference e) as [reference|] eqn:Hr; [|vm_compute in Hrun; injection Hrun as _ <-; discriminate Hr].
  exists e, reference. split; [reflexivity|]. split; [exact Hr|]. exact (Hget reference eq_refl).
Defined.

(** A failure with neither text nor summary escapes, and the call stays
    open. *)
Example silent_failure_escapes :
  let '(s, v) := sample_run "call" "action" "read_file" (path_args "silent") sample_state in
  v = Raise IndexError ∧ s.(trace) = [TOOL_CALL_STARTED "read_file" "action" "file_read" ["path"]].
Proof. vm_compute. done. Qed.

(** A write that is interrupted, or that raises, after it changed the tree
    does not move the generation: a read of the file taken before is still
    called current. *)
Example interrupted_write_goes_unnoticed :
  let s := (sample_run "call" "action" "write_file" (path_args "stop") sample_state).1 in
  s.(cache).(world) = ["stop"] ∧ s.(ledger).(generation) = 0.
Proof. vm_compute. done. Qed.

Example raising_write_goes_unnoticed :
  let s := (sample_run "call" "action" "write_file" (path_args "crash") sample_state).1 in
  s.(cache).(world) = ["crash"] ∧ s.(ledger).(generation) = 0.
Proof. vm_compute. done. Qed.

(** A rendering that is cut while the text itself is short names no store,
    though there is one. *)
Example cut_rendering_denies_the_store :
  match (sample_run "call" "action" "read_file" (path_args "rendered") sample_state).2 with
  | Ok e => contains "no result store configured" e.(model_content) = true ∧ sample_context.(has_result_store) = true
  | Raise _ => False
  end.
Proof. vm_compute. done. Qed.

(** The reason stated for a write outside the request is dropped by the very
    write it allowed. *)
Example reason_is_lost_with_its_write :
  let args := JObj [("path", JStr "sibling.c"); ("scope_reason", JStr "shared source")] in
  let '(s, v) := sample_run "call" "action" "write_file" args sample_state in
  s.(cache).(world) = ["sibling.c"] ∧ s.(cache).(scope_reasons) = [].
Proof. vm_compute. done. Qed.
End RouterExamples.
