(* ===== verification/Regex.v ===== *)
(** * Regular expressions: the module [re] of the standard library

    What the program's patterns use of it: a pattern is parsed from its own
    text, and matched by backtracking, leftmost first, greedy or lazy, with
    groups, anchors, word boundaries and assertions about what follows or
    comes before.  Texts are of code points below 256.  Back references and
    verbose patterns are not used by the patterns that are modelled. *)

From Stdlib Require Import Ascii.
From S2P Require Import Prelude Texts Values.

Open Scope py_scope.

(** ** Positions *)

(** What was read, last character first, and what is left. *)
Abbreviation pos := (string * string)%type.

Definition captures : Type := list (nat * string).

(** The text between two positions of one text. *)
Definition taken (p q : pos) : string := String.substring 0 (String.length p.2 - String.length q.2) p.2.

Definition left_of (p q : pos) : bool := (String.length q.2 <? String.length p.2)%nat.

Definition advance (p : pos) : option pos := match p.2 with String c s => Some (String c p.1, s) | EmptyString => None end.

Fixpoint back (n : nat) (p : pos) : option pos :=
  match n, p with
  | O, _ => Some p
  | S n, (String c before, s) => back n (before, String c s)
  | S _, (EmptyString, _) => None
  end.

(** ** Patterns *)

Inductive regex :=
  | RNone
  | REmpty
  | RSet (f : ascii → bool)
  | RTest (t : pos → bool)
  | RSeq (a b : regex)
  | RAlt (a b : regex)
  | RStar (greedy : bool) (a : regex)
  | RGroup (n : nat) (a : regex)
  | RAhead (positive : bool) (a : regex)
  | RBehind (positive : bool) (width : nat) (a : regex).

Section orelse.
  Context {X : Type}.
Definition orelse (a : option X) (b : unit → option X) : option X := match a with Some x => Some x | None => b tt end.
End orelse.

(** All ways to match are tried in order until the continuation accepts one.
    A repetition that reads nothing is not repeated. *)
Fixpoint exec (r : regex) {X : Type} (p : pos) (c : captures) (k : pos → captures → option X) {struct r} : option X :=
  match r with
  | RNone => None
  | REmpty => k p c
  | RSet f => match p.2 with String ch s => if f ch then k (String ch p.1, s) c else None | EmptyString => None end
  | RTest t => if t p then k p c else None
  | RSeq a b => exec a p c (λ p c, exec b p c k)
  | RAlt a b => orelse (exec a p c k) (λ _, exec b p c k)
  | RStar greedy a =>
      (fix loop (n : nat) (p : pos) (c : captures) {struct n} : option X :=
        match n with
        | O => k p c
        | S n =>
            let more (_ : unit) := exec a p c (λ q c, if left_of p q then loop n q c else None) in
            if greedy then orelse (more tt) (λ _, k p c) else orelse (k p c) more
        end) (String.length p.2) p c
  | RGroup n a => exec a p c (λ q c, k q ((n, taken p q) :: c))
  | RAhead positive a =>
      match exec a p c (λ _ c, Some c), positive with
      | Some c, true => k p c
      | None, false => k p c
      | _, _ => None
      end
  | RBehind positive width a =>
      match back width p ≫= λ p0, exec a p0 c (λ q c, if left_of p q || left_of q p then None else Some c), positive with
      | Some c, true => k p c
      | None, false => k p c
      | _, _ => None
      end
  end.

(** ** What a pattern means *)

Fixpoint denotes (r : regex) (p q : pos) : Prop :=
  match r with
  | RNone => False
  | REmpty => q = p
  | RSet f => ∃ ch, advance p = Some q ∧ head p.2 = Some ch ∧ f ch = true
  | RTest t => q = p ∧ t p = true
  | RSeq a b => ∃ m, denotes a p m ∧ denotes b m q
  | RAlt a b => denotes a p q ∨ denotes b p q
  | RStar _ a => rtc (denotes a) p q
  | RGroup _ a => denotes a p q
  | RAhead true a => q = p ∧ ∃ m, denotes a p m
  | RAhead false a => q = p ∧ ¬ ∃ m, denotes a p m
  | RBehind true width a => q = p ∧ ∃ p0, back width p = Some p0 ∧ denotes a p0 p
  | RBehind false width a => q = p ∧ ¬ ∃ p0, back width p = Some p0 ∧ denotes a p0 p
  end.

(** ** Parsing a pattern *)

Record flags := mk_flags { IGNORECASE : bool; MULTILINE : bool; DOTALL : bool }.
Definition plain : flags := mk_flags false false false.
Definition I : flags := mk_flags true false false.

Definition newline : ascii := "010"%char.

(** [str.upper] of a character, where it is one below 256. *)
Definition upper_char (c : ascii) : ascii :=
  let n := N_of_ascii c in
  if ((97 <=? n) && (n <=? 122) || (224 <=? n) && (n <=? 254) && negb (n =? 247))%N then ascii_of_N (n - 32) else c.

Definition folded (fl : flags) (f : ascii → bool) : ascii → bool :=
  if fl.(IGNORECASE) then λ c, f c || f (lower_char c) || f (upper_char c) else f.

Definition char_is (a : ascii) : ascii → bool := λ c, Ascii.eqb a c.

Definition escaped_set (c : ascii) : option (ascii → bool) :=
  match c with
  | "d"%char => Some is_digit
  | "D"%char => Some (λ c, negb (is_digit c))
  | "w"%char => Some is_word
  | "W"%char => Some (λ c, negb (is_word c))
  | "s"%char => Some py_isspace
  | "S"%char => Some (λ c, negb (py_isspace c))
  | _ => None
  end.

(** The character an escape stands for; other letters and digits are not
    used. *)
Definition escaped_char (c : ascii) : option ascii :=
  match c with
  | "n"%char => Some newline
  | "t"%char => Some "009"%char
  | "r"%char => Some "013"%char
  | _ => if is_alnum c then None else Some c
  end.

Definition word_boundary (p : pos) : bool := xorb (is_word_at (head p.1)) (is_word_at (head p.2)).

Definition escape (fl : flags) (c : ascii) : option regex :=
  match c with
  | "b"%char => Some (RTest word_boundary)
  | "B"%char => Some (RTest (λ p, negb (word_boundary p)))
  | "A"%char => Some (RTest (λ p, String.eqb p.1 ""))
  | "Z"%char => Some (RTest (λ p, String.eqb p.2 ""))
  | _ => match escaped_set c with
         | Some f => Some (RSet f)
         | None => RSet ∘ folded fl ∘ char_is <$> escaped_char c
         end
  end.

Definition at_line_start (fl : flags) (p : pos) : bool :=
  match head p.1 with None => true | Some c => fl.(MULTILINE) && Ascii.eqb c newline end.

Definition at_line_end (fl : flags) (p : pos) : bool :=
  match p.2 with
  | EmptyString => true
  | String c s => Ascii.eqb c newline && (fl.(MULTILINE) || String.eqb s "")
  end.

(** One member of a class in brackets, a character being the start of a range
    when a dash follows. *)
Definition class_char (s : string) : option ((ascii → bool) + ascii) * string :=
  match s with
  | String "\"%char (String c s) =>
      (match escaped_set c with Some f => Some (inl f) | None => inr <$> escaped_char c end, s)
  | String c s => (Some (inr c), s)
  | EmptyString => (None, EmptyString)
  end.

(** The members up to the closing bracket. *)
Fixpoint class_members (fuel : nat) (fl : flags) (f : ascii → bool) (s : string) : option ((ascii → bool) * string) :=
  match fuel with
  | O => None
  | S fuel =>
      match s with
      | String "]"%char s => Some (f, s)
      | _ =>
          match class_char s with
          | (Some (inl g), s) => class_members fuel fl (λ c, f c || g c) s
          | (Some (inr a), s) =>
              match s with
              | String "-"%char (String b s') =>
                  if Ascii.eqb b "]"%char then class_members fuel fl (λ c, f c || folded fl (char_is a) c) s
                  else match class_char (String b s') with
                       | (Some (inr b), s') =>
                           class_members fuel fl (λ c, f c || folded fl (in_range (N_of_ascii a) (N_of_ascii b)) c) s'
                       | _ => None
                       end
              | _ => class_members fuel fl (λ c, f c || folded fl (char_is a) c) s
              end
          | (None, _) => None
          end
      end
  end.

(** A class after its opening bracket; a bracket that comes first is one of
    its members. *)
Definition class (fl : flags) (s : string) : option (regex * string) :=
  let '(negated, s) := match s with String "^"%char s => (true, s) | s => (false, s) end in
  '(f, s) ← match s with
            | String "]"%char s => class_members (S (String.length s)) fl (char_is "]"%char) s
            | s => class_members (S (String.length s)) fl (λ _, false) s
            end;
  Some (RSet (if negated then λ c, negb (f c) else f), s).

(** *** Repetition *)

Definition maybe (greedy : bool) (a : regex) : regex := if greedy then RAlt a REmpty else RAlt REmpty a.

Fixpoint at_most (greedy : bool) (n : nat) (a : regex) : regex :=
  match n with O => REmpty | S n => maybe greedy (RSeq a (at_most greedy n a)) end.

Fixpoint exactly (n : nat) (a rest : regex) : regex := match n with O => rest | S n => RSeq a (exactly n a rest) end.

Definition repeated (greedy : bool) (least : nat) (most : option nat) (a : regex) : regex :=
  exactly least a (match most with Some most => at_most greedy (most - least) a | None => RStar greedy a end).

Fixpoint number (acc : nat) (s : string) : nat * string :=
  match s with
  | String c s' => match digit_value c with Some d => number (acc * 10 + Z.to_nat d) s' | None => (acc, s) end
  | EmptyString => (acc, s)
  end.

(** The bounds of a repetition: [{m}], [{m,}], [{,n}] or [{m,n}]. *)
Definition bounds (s : string) : option ((nat * option nat) * string) :=
  let '(least, rest) := number 0 s in
  match rest with
  | String "}"%char rest' => if String.eqb rest s then None else Some ((least, Some least), rest')
  | String ","%char rest' =>
      let '(most, rest'') := number 0 rest' in
      match rest'' with
      | String "}"%char s => Some ((least, if String.eqb rest'' rest' then None else Some most), s)
      | _ => None
      end
  | _ => None
  end.

Definition quantifier (s : string) : option ((nat * option nat) * string) :=
  match s with
  | String "*"%char s => Some ((0, None), s)
  | String "+"%char s => Some ((1, None), s)
  | String "?"%char s => Some ((0, Some 1), s)
  | String "{"%char s => bounds s
  | _ => None
  end%nat.

Definition quantified (a : regex) (s : string) : regex * string :=
  match quantifier s with
  | Some ((least, most), String "?"%char s) => (repeated false least most a, s)
  | Some ((least, most), s) => (repeated true least most a, s)
  | None => (a, s)
  end.

(** The length of what a pattern matches, for an assertion about what came
    before. *)
Fixpoint width (r : regex) : option nat :=
  match r with
  | RSet _ => Some 1
  | RSeq a b => m ← width a; n ← width b; Some (m + n)
  | RAlt a b => m ← width a; n ← width b; if (m =? n)%nat then Some m else None
  | RGroup _ a => width a
  | RNone | RStar _ _ => None
  | _ => Some 0
  end%nat.

Definition starts (prefix s : string) : option string := if String.prefix prefix s then Some (drop (String.length prefix) s) else None.

(** What a group opens with: its kind. *)
Inductive opening := Capturing | Grouping | Ahead (positive : bool) | Behind (positive : bool).

Definition group_name (s : string) : string := match span (λ c, negb (Ascii.eqb c ">"%char)) s with (_, String _ s) => s | _ => s end.

Definition opened (s : string) : opening * string :=
  match starts "?:" s with Some s => (Grouping, s) | None =>
  match starts "?=" s with Some s => (Ahead true, s) | None =>
  match starts "?!" s with Some s => (Ahead false, s) | None =>
  match starts "?<=" s with Some s => (Behind true, s) | None =>
  match starts "?<!" s with Some s => (Behind false, s) | None =>
  match starts "?P<" s with Some s => (Capturing, group_name s) | None => (Capturing, s) end end end end end end.

Definition closed (kind : opening) (n : nat) (a : regex) : option regex :=
  match kind with
  | Capturing => Some (RGroup n a)
  | Grouping => Some a
  | Ahead positive => Some (RAhead positive a)
  | Behind positive => n ← width a; Some (RBehind positive n a)
  end.

(** Alternatives, sequences and atoms; [n] is the number of the next group. *)
Fixpoint alternatives (fuel : nat) (fl : flags) (n : nat) (s : string) : option (regex * nat * string) :=
  match fuel with
  | O => None
  | S fuel =>
      '(a, n, s) ← sequence fuel fl n s;
      match s with
      | String "|"%char s => '(b, n, s) ← alternatives fuel fl n s; Some (RAlt a b, n, s)
      | _ => Some (a, n, s)
      end
  end
with sequence (fuel : nat) (fl : flags) (n : nat) (s : string) : option (regex * nat * string) :=
  match fuel with
  | O => None
  | S fuel =>
      match s with
      | EmptyString | String "|"%char _ | String ")"%char _ => Some (REmpty, n, s)
      | _ =>
          '(a, n, s) ← atom fuel fl n s;
          let '(a, s) := quantified a s in
          '(b, n, s) ← sequence fuel fl n s;
          Some (RSeq a b, n, s)
      end
  end
with atom (fuel : nat) (fl : flags) (n : nat) (s : string) : option (regex * nat * string) :=
  match fuel with
  | O => None
  | S fuel =>
      match s with
      | String "("%char s =>
          let '(kind, s) := opened s in
          let inner := match kind with Capturing => S n | _ => n end in
          '(a, m, s) ← alternatives fuel fl inner s;
          match s with
          | String ")"%char s => r ← closed kind n a; Some (r, m, s)
          | _ => None
          end
      | String "["%char s => '(r, s) ← class fl s; Some (r, n, s)
      | String "\"%char (String c s) => r ← escape fl c; Some (r, n, s)
      | String "."%char s => Some (RSet (λ c, fl.(DOTALL) || negb (Ascii.eqb c newline)), n, s)
      | String "^"%char s => Some (RTest (at_line_start fl), n, s)
      | String "$"%char s => Some (RTest (at_line_end fl), n, s)
      | String c s => Some (RSet (folded fl (char_is c)), n, s)
      | EmptyString => None
      end
  end.

(** [re.compile(text, flags)] *)
Definition compile (fl : flags) (s : string) : option regex :=
  match alternatives (3 * String.length s + 3) fl 1 s with
  | Some (r, _, EmptyString) => Some r
  | _ => None
  end.

(** A pattern of the program, which is known to parse. *)
Definition pattern (fl : flags) (s : string) : regex := default RNone (compile fl s).

(** ** Using a pattern *)

Record found := mk_found { m_from : pos; m_to : pos; m_groups : captures }.

Definition m_text (m : found) : string := taken m.(m_from) m.(m_to).

(** [match.group(n)]; [None] where the group took no part. *)
Definition group (n : nat) (m : found) : option string := snd <$> List.find (λ x, (x.1 =? n)%nat) m.(m_groups).

(** A match that begins here, of at least one character if it [must]. *)
Definition match_at (r : regex) (must : bool) (p : pos) : option found :=
  exec r p [] (λ q c, if must && negb (left_of p q) then None else Some (mk_found p q c)).

Fixpoint search_from (fuel : nat) (r : regex) (must : bool) (p : pos) : option found :=
  match match_at r must p with
  | Some m => Some m
  | None => match fuel, advance p with
            | S fuel, Some p => search_from fuel r false p
            | _, _ => None
            end
  end.

Definition start (s : string) : pos := ("", s).

Definition search (r : regex) (s : string) : option found := search_from (String.length s) r false (start s).
Definition searches (r : regex) (s : string) : bool := bool_decide (is_Some (search r s)).
Definition match_ (r : regex) (s : string) : option found := match_at r false (start s).
Definition fullmatch (r : regex) (s : string) : option found :=
  exec r (start s) [] (λ q c, if String.eqb q.2 "" then Some (mk_found (start s) q c) else None).

(** [re.finditer]: after a match that read nothing the next one must read
    something. *)
Fixpoint finditer_from (fuel : nat) (r : regex) (must : bool) (p : pos) : list found :=
  match fuel with
  | O => []
  | S fuel =>
      match search_from (String.length p.2) r must p with
      | Some m => m :: finditer_from fuel r (negb (left_of m.(m_from) m.(m_to))) m.(m_to)
      | None => []
      end
  end.

Definition finditer (r : regex) (s : string) : list found := finditer_from (2 * String.length s + 2) r false (start s).

(** [re.findall] of a pattern without groups, and of one with a group. *)
Definition findall (r : regex) (s : string) : list string := m_text <$> finditer r s.
Definition findall_group (n : nat) (r : regex) (s : string) : list string := (λ m, default "" (group n m)) <$> finditer r s.

(** The text between the matches: [re.split], and [re.sub] with what each
    match is replaced by. *)
Fixpoint pieces (p : pos) (l : list found) : list string :=
  match l with
  | [] => [p.2]
  | m :: l => taken p m.(m_from) :: pieces m.(m_to) l
  end.

Definition re_split (r : regex) (s : string) : list string := pieces (start s) (finditer r s).

Fixpoint sub_from (replacement : found → string) (p : pos) (l : list found) : string :=
  match l with
  | [] => p.2
  | m :: l => taken p m.(m_from) +:+ replacement m +:+ sub_from replacement m.(m_to) l
  end.

Definition re_sub (r : regex) (replacement : found → string) (s : string) : string :=
  sub_from replacement (start s) (finditer r s).

(** ** Regular expressions: the matcher decides what a pattern means *)

(** ** Moving forward in a text *)

Fixpoint rev_onto (u before : string) : string :=
  match u with EmptyString => before | String c u => rev_onto u (String c before) end.

(** [q] is further in the text of [p]. *)
Definition forward (p q : pos) : Prop := ∃ u, p.2 = String.append u q.2 ∧ q.1 = rev_onto u p.1.

Lemma forward_refl p : forward p p.
Proof. by exists "". Qed.

Lemma rev_onto_app u v b : rev_onto (String.append u v) b = rev_onto v (rev_onto u b).
Proof. revert b. induction u as [|c u IH]; intros b; [done|]. apply IH. Qed.

Lemma forward_trans p q r : forward p q → forward q r → forward p r.
Proof.
  intros (u & Hu & Hu') (v & Hv & Hv'). exists (String.append u v).
  by rewrite append_assoc, <- Hv, Hu, rev_onto_app, <- Hu', Hv'.
Qed.

Lemma forward_length p q : forward p q → String.length q.2 ≤ String.length p.2.
Proof. intros (u & -> & _). rewrite length_append. lia. Qed.

Lemma forward_stay p q : forward p q → left_of p q = false → q = p.
Proof.
  intros (u & Hu & Hb). unfold left_of. rewrite Nat.ltb_ge, Hu, length_append. intros Hl.
  destruct u; [|cbn in Hl; lia]. destruct p, q; cbn in *. by subst.
Qed.

Lemma advance_forward p q : advance p = Some q → forward p q.
Proof. destruct p as [b [|c s]]; [done|]. intros [= <-]. by exists (String c ""). Qed.

(** Positions of one text are told apart by what is left. *)
Lemma forward_unique p q q' : forward p q → forward p q' → left_of q q' || left_of q' q = false → q' = q.
Proof.
  intros (u & Hu & Hb) (v & Hv & Hb') Hl. apply orb_false_iff in Hl as [H1 H2]. unfold left_of in *.
  rewrite Nat.ltb_ge in H1, H2. assert (u = v ∧ q.2 = q'.2) as [-> Hq].
  { rewrite Hu in Hv. apply append_cancel in Hv; [done|]. apply (f_equal String.length) in Hv. rewrite !length_append in Hv. lia. }
  destruct q, q'; cbn in *. by subst.
Qed.

Lemma back_forward n p p0 : back n p = Some p0 → forward p0 p.
Proof.
  revert p. induction n as [|n IH]; intros [b s]; [intros [= <-]; apply forward_refl|].
  destruct b as [|c b]; [done|]. intros H%IH. eapply forward_trans; [exact H|]. by exists (String c "").
Qed.

Lemma back_unique n p p0 m : back n p = Some p0 → forward p0 m → left_of p m || left_of m p = false → m = p.
Proof. intros Hb%back_forward Hm Hl. by eapply forward_unique. Qed.

#[export] Hint Resolve forward_refl advance_forward : py.

Lemma denotes_forward r p q : denotes r p q → forward p q.
Proof.
  revert p q. induction r as [| |f|t|a IHa b IHb|a IHa b IHb|g a IHa|n a IHa|[] a IHa|[] w a IHa]; intros p q; cbn.
  - done.
  - intros ->. apply forward_refl.
  - intros (ch & Ha & _). by apply advance_forward.
  - intros [-> _]. apply forward_refl.
  - intros (m & ? & ?). eapply forward_trans; eauto.
  - naive_solver.
  - induction 1 as [|p m q Hpm _ IH]; [apply forward_refl|]. eapply forward_trans; eauto.
  - apply IHa.
  - intros [-> _]. apply forward_refl.
  - intros [-> _]. apply forward_refl.
  - intros [-> _]. apply forward_refl.
  - intros [-> _]. apply forward_refl.
Qed.

(** ** The matcher *)

Lemma orelse_Some {X} (a : option X) b x : orelse a b = Some x ↔ a = Some x ∨ (a = None ∧ b tt = Some x).
Proof. destruct a; cbn; naive_solver. Qed.

Lemma orelse_is_Some {X} (a : option X) b : is_Some (orelse a b) ↔ is_Some a ∨ is_Some (b tt).
Proof.
  destruct a as [x|]; cbn.
  - split; [by left|]. intros _. by eexists.
  - split; [by right|]. intros [[]|?]; done.
Qed.

(** The loop of a repetition, named. *)
Section loop.
  Context {X : Type} (a : regex) (greedy : bool) (k : pos → captures → option X).
Fixpoint loop (n : nat) (p : pos) (c : captures) : option X :=
  match n with
  | O => k p c
  | S n =>
      let more (_ : unit) := exec a p c (λ q c, if left_of p q then loop n q c else None) in
      if greedy then orelse (more tt) (λ _, k p c) else orelse (k p c) more
  end.
End loop.

(** What the matcher finds is a match, and it finds one when there is one
    that the continuation accepts whatever was captured. *)
Definition sound (r : regex) : Prop := ∀ X p c (k : pos → captures → option X) x, exec r p c k = Some x →
  ∃ q c', denotes r p q ∧ k q c' = Some x.
Definition complete (r : regex) : Prop := ∀ X p q c (k : pos → captures → option X),
  denotes r p q → (∀ c, is_Some (k q c)) → is_Some (exec r p c k).

Lemma loop_sound {X} a g (k : pos → captures → option X) n p c x : sound a →
  loop a g k n p c = Some x → ∃ q c', rtc (denotes a) p q ∧ k q c' = Some x.
Proof.
  intros Ha. revert p c. induction n as [|n IH]; intros p c; cbn [loop].
  { intros Hk. by exists p, c. }
  assert (exec a p c (λ q c, if left_of p q then loop a g k n q c else None) = Some x →
    ∃ q c', rtc (denotes a) p q ∧ k q c' = Some x) as Hmore.
  { intros (m & c1 & Hm & Hl)%Ha. destruct (left_of p m); [|done].
    apply IH in Hl as (q & c' & Hq & Hk). exists q, c'. split; [by eapply rtc_l|done]. }
  assert (k p c = Some x → ∃ q c', rtc (denotes a) p q ∧ k q c' = Some x) as Hstop by (intros Hk; by exists p, c).
  destruct g; intros [?|[_ ?]]%orelse_Some; auto.
Qed.

Lemma loop_complete {X} a g (k : pos → captures → option X) n p q c : complete a →
  rtc (denotes a) p q → String.length p.2 ≤ n → (∀ c, is_Some (k q c)) → is_Some (loop a g k n p c).
Proof.
  intros Ha Hr Hn Hk. revert n c Hn. induction Hr as [q|p m q Hpm Hmq IH]; intros n c Hn.
  - destruct n; cbn [loop]; [apply Hk|]. destruct g; rewrite orelse_is_Some; auto.
  - destruct (left_of p m) eqn:Hl.
    + pose proof Hl as Hlt. unfold left_of in Hlt. apply Nat.ltb_lt in Hlt. destruct n as [|n]; [lia|]. cbn [loop].
      assert (is_Some (exec a p c (λ q c, if left_of p q then loop a g k n q c else None))) as Hmore.
      { apply (Ha _ p m); [done|]. intros c1. rewrite Hl. apply IH; [done|lia]. }
      destruct g; rewrite orelse_is_Some; auto.
    + apply denotes_forward in Hpm as ->%forward_stay; [|done]. by apply IH.
Qed.

Lemma exec_sound_complete r : sound r ∧ complete r.
Proof.
  induction r as [| |f|t|a [Sa Ca] b [Sb Cb]|a [Sa Ca] b [Sb Cb]|g a [Sa Ca]|n a [Sa Ca]|positive a [Sa Ca]|positive w a [Sa Ca]];
    (split; [intros X p c k x|intros X p q c k]); cbn [exec denotes].
  - done.
  - done.
  - intros Hk. by exists p, c.
  - intros -> Hk. apply Hk.
  - destruct p as [b [|ch s]]; cbn; [done|]. destruct (f ch) eqn:Hf; [|done]. intros Hk. do 2 eexists. split; [|done]. by exists ch.
  - intros (ch & Ha & Hh & Hf) Hk. destruct p as [b [|ch' s]]; [done|]. cbn in *. simplify_eq. rewrite Hf. apply Hk.
  - destruct (t p) eqn:Ht; [|done]. intros Hk. by exists p, c.
  - intros [-> ->] Hk. apply Hk.
  - intros (m & c1 & Hm & (q & c2 & Hq & Hk)%Sb)%Sa. exists q, c2. split; [by exists m|done].
  - intros (m & Hm & Hq) Hk. apply (Ca _ p m); [done|]. intros c1. by eapply Cb.
  - intros [(q & c' & Hq & Hk)%Sa|[_ (q & c' & Hq & Hk)%Sb]]%orelse_Some; exists q, c'; auto.
  - intros Hd Hk. apply orelse_is_Some. destruct Hd; [left; by eapply Ca|right; by eapply Cb].
  - exact (loop_sound a g k (String.length p.2) p c x Sa).
  - intros Hd Hk. exact (loop_complete a g k (String.length p.2) p q c Ca Hd (le_n _) Hk).
  - intros (q & c' & Hq & Hk)%Sa. by exists q, ((n, taken p q) :: c').
  - intros Hd Hk. by eapply Ca.
  - destruct (exec a p c _) as [c1|] eqn:E; destruct positive; try done; intros Hk.
    + apply Sa in E as (m & ? & Hm & _). exists p, c1. split; [|done]. split; [done|by exists m].
    + exists p, c. split; [|done]. split; [done|]. intros (m & Hm).
      destruct (Ca _ p m c (λ _ c, Some c) Hm) as [? E']; [by eexists|]. congruence.
  - intros Hd Hk. destruct positive.
    + destruct Hd as [-> (m & Hm)]. destruct (Ca _ p m c (λ _ c, Some c) Hm) as [c1 ->]; [by eexists|]. apply Hk.
    + destruct Hd as [-> Hno]. destruct (exec a p c _) as [c1|] eqn:E; [|apply Hk].
      apply Sa in E as (m & ? & Hm & _). destruct Hno. by exists m.
  - set (stay := λ (q : pos) (c : captures), if left_of p q || left_of q p then None else Some c).
    destruct (back w p ≫= _) as [c1|] eqn:E; destruct positive; try done; intros Hk.
    + apply bind_Some in E as (p0 & Hb & (m & c2 & Hm & Hst)%Sa). exists p, c1. split; [|done]. split; [done|].
      exists p0. split; [done|]. unfold stay in Hst. destruct (left_of p m || left_of m p) eqn:Hl; [done|].
      by rewrite <- (back_unique w p p0 m Hb (denotes_forward _ _ _ Hm) Hl).
    + exists p, c. split; [|done]. split; [done|]. intros (p0 & Hb & Hm). rewrite Hb in E. cbn in E.
      destruct (Ca _ p0 p c stay Hm) as [? E']; [|congruence].
      intros c1. unfold stay, left_of. rewrite Nat.ltb_irrefl. by eexists.
  - intros Hd Hk. set (stay := λ (q : pos) (c : captures), if left_of p q || left_of q p then None else Some c).
    assert (∀ c, is_Some (stay p c)) as Hstay by (intros c1; unfold stay, left_of; rewrite Nat.ltb_irrefl; by eexists).
    destruct positive.
    + destruct Hd as [-> (p0 & Hb & Hm)]. rewrite Hb. cbn. destruct (Ca _ p0 p c stay Hm Hstay) as [c1 ->]. apply Hk.
    + destruct Hd as [-> Hno]. destruct (back w p ≫= _) as [c1|] eqn:E; [|apply Hk].
      apply bind_Some in E as (p0 & Hb & (m & c2 & Hm & Hst)%Sa). destruct Hno. exists p0. split; [done|].
      unfold stay in Hst. destruct (left_of p m || left_of m p) eqn:Hl; [done|].
      by rewrite <- (back_unique w p p0 m Hb (denotes_forward _ _ _ Hm) Hl).
Qed.

(** ** Searching *)

Lemma match_at_spec r must p m : match_at r must p = Some m →
  m.(m_from) = p ∧ denotes r p m.(m_to) ∧ (must = true → left_of p m.(m_to) = true).
Proof.
  unfold match_at. intros (q & c & Hq & Hk)%(proj1 (exec_sound_complete r)).
  destruct must, (left_of p q) eqn:Hl; cbn in Hk; try done; injection Hk as <-; cbn; by split_and!.
Qed.

Lemma match_at_none r p : match_at r false p = None ↔ ¬ ∃ q, denotes r p q.
Proof.
  split.
  - intros Hn (q & Hq). destruct (proj2 (exec_sound_complete r) _ p q [] (λ q c, Some (mk_found p q c)) Hq) as [x Hx]; [by eexists|].
    unfold match_at in Hn. cbn in Hn. congruence.
  - intros Hno. destruct (match_at r false p) as [m|] eqn:E; [|done]. apply match_at_spec in E as (_ & Hq & _). destruct Hno. by eexists.
Qed.

(** The positions of a text, from the first on. *)
Definition reaches (p q : pos) : Prop := rtc (λ p q, advance p = Some q) p q.

Lemma reaches_inv p q : reaches p q → q = p ∨ ∃ p', advance p = Some p' ∧ reaches p' q.
Proof. inversion 1; eauto. Qed.

Lemma reaches_forward p q : reaches p q → forward p q.
Proof. induction 1 as [|p m q Hpm _ IH]; eauto using forward_trans with py. Qed.

Lemma advance_length p p' : advance p = Some p' → String.length p.2 = S (String.length p'.2).
Proof. destruct p as [b [|c s]]; [done|]. by intros [= <-]. Qed.

Lemma search_from_spec fuel r p : String.length p.2 ≤ fuel →
  match search_from fuel r false p with
  | Some m => reaches p m.(m_from) ∧ denotes r m.(m_from) m.(m_to) ∧
              ∀ q, reaches p q → left_of q m.(m_from) = true → ¬ ∃ x, denotes r q x
  | None => ∀ q, reaches p q → ¬ ∃ x, denotes r q x
  end.
Proof.
  revert p. induction fuel as [|fuel IH]; intros p Hf; cbn [search_from];
    (destruct (match_at r false p) as [m|] eqn:E;
      [apply match_at_spec in E as (-> & Hd & _); split; [apply rtc_refl|]; split; [done|];
       intros q Hq%reaches_forward%forward_length Hl%Nat.ltb_lt; lia|apply match_at_none in E]).
  - intros q [->|(p' & Ha%advance_length & _)]%reaches_inv; [done|lia].
  - destruct (advance p) as [p'|] eqn:Ha.
    + pose proof (advance_length _ _ Ha). specialize (IH p' ltac:(lia)). destruct (search_from fuel r false p') as [m|].
      * destruct IH as (Hm & Hd & Hleft). split; [by eapply rtc_l|]. split; [done|].
        intros q [->|(p1 & Ha1 & Hq)]%reaches_inv Hl; [done|]. rewrite Ha in Ha1. simplify_eq. by apply Hleft.
      * intros q [->|(p1 & Ha1 & Hq)]%reaches_inv; [done|]. rewrite Ha in Ha1. simplify_eq. by apply IH.
    + intros q [->|(p1 & Ha1 & Hq)]%reaches_inv; [done|]. by rewrite Ha in Ha1.
Qed.

(** Searching for a pattern finds the leftmost place where it matches, and
    finds nothing only when it matches nowhere: the backtracking matcher,
    with its bounded repetitions, decides what the pattern means. *)
Theorem search_is_leftmost r s :
  match search r s with
  | Some m => reaches (start s) m.(m_from) ∧ denotes r m.(m_from) m.(m_to) ∧
              ∀ q, reaches (start s) q → left_of q m.(m_from) = true → ¬ ∃ x, denotes r q x
  | None => ∀ q, reaches (start s) q → ¬ ∃ x, denotes r q x
  end.
Proof. unfold search. by apply search_from_spec. Qed.

(** A search as a proposition. *)
Lemma searches_true r s : searches r s = true ↔ ∃ p q, reaches (start s) p ∧ denotes r p q.
Proof.
  unfold searches. rewrite bool_decide_eq_true. pose proof (search_from_spec (String.length s) r (start s) (le_n _)) as Hs.
  fold (search r s) in Hs. destruct (search r s) as [m|].
  - destruct Hs as (Hm & Hd & _). split; [|by eexists]. intros _. eauto.
  - split; [by intros [? [=]]|]. intros (p & q & Hp & Hd). destruct (Hs p Hp). eauto.
Qed.
