(* ===== verification/RequirementSet.v ===== *)
(** * The contract a turn hands the next: [client/normative/requirement_set.py]

    The provisions an answer established, how a citation refers to one, and
    what becomes of each.  A retrieved provision is its fields in the ledger
    of evidence; the texts are those of [re], of code points below 256. *)

From Stdlib Require Import Ascii.
From S2P Require Import Prelude Texts Values Regex.

#[local] Open Scope Z_scope.
Open Scope py_scope.

(** ** Dispositions *)

Inductive Disposition :=
  | SATISFIED_ALREADY | CHANGE_PLANNED | CODE_CHANGED_AWAITING_VALIDATION | CHANGE_IMPLEMENTED
  | EXPLICITLY_OUT_OF_SCOPE | UNDETERMINED.

#[export] Instance Disposition_eq_dec : EqDecision Disposition.
Proof. solve_decision. Defined.

Definition disposition_value (d : Disposition) : string :=
  match d with
  | SATISFIED_ALREADY => "satisfied_already" | CHANGE_PLANNED => "change_planned"
  | CODE_CHANGED_AWAITING_VALIDATION => "code_changed_awaiting_validation"
  | CHANGE_IMPLEMENTED => "change_implemented"
  | EXPLICITLY_OUT_OF_SCOPE => "explicitly_out_of_scope" | UNDETERMINED => "undetermined"
  end.

#[export] Instance Disposition_enum : StrEnum Disposition := {|
  enum_members := [SATISFIED_ALREADY; CHANGE_PLANNED; CODE_CHANGED_AWAITING_VALIDATION; CHANGE_IMPLEMENTED;
                   EXPLICITLY_OUT_OF_SCOPE; UNDETERMINED];
  enum_value := disposition_value;
  enum_complete := ltac:(enum_all);
  enum_distinct := ltac:(enum_nodup) |}.

Abbreviation dv := disposition_value.

Definition UNFINISHED : list Disposition := [CHANGE_PLANNED; CODE_CHANGED_AWAITING_VALIDATION; UNDETERMINED].
Definition STATED : list Disposition := [SATISFIED_ALREADY; CHANGE_PLANNED; EXPLICITLY_OUT_OF_SCOPE; UNDETERMINED].
Definition CARRY_LIMIT : nat := 12.

(** ** Patterns *)

(** The sign of a section is one character. *)
Definition section_sign : string := String "167" "".

Definition CITED : regex := pattern I
  ("(?:\b(?:rule|observation|recommendation|permission|definition|requirement|table|figure|section|clause)\s*|"
   +:+ section_sign +:+ "\s*)(\d+(?:\.\d+)*(?:-\d+)?)").
Definition HANDLE : regex := pattern plain "\b[a-z]{2,4}-[0-9a-f]{8,}\b".
Definition BARE : regex := pattern plain "\b(\d+(?:\.\d+)+(?:-\d+)?)\b".

Definition WORD : string := "[A-Za-z][\w\-]{1,31}".
Definition FAMILY : regex := pattern plain
  ("\b" +:+ WORD +:+ "\b(?:\s*,\s*\b" +:+ WORD +:+ "\b)+\s*,?\s+(?:or|and)\s+\b" +:+ WORD +:+ "\b"
   +:+ "|\b" +:+ WORD +:+ "\b\s*,\s*\b" +:+ WORD +:+ "\b\s*,\s*\b" +:+ WORD +:+ "\b").
Definition FAMILY_MEMBER : regex := pattern plain "\b[A-Za-z][\w\-]{1,31}\b".
Definition NOT_A_MEMBER : list string :=
  ["the"; "a"; "an"; "and"; "or"; "of"; "to"; "in"; "for"; "with"; "by"; "is"; "are"; "be"; "shall"; "should"; "may"; "must";
   "will"; "not"; "one"; "each"; "any"; "all"; "more"; "than"; "when"; "that"; "this"; "packet"; "packets"; "bit"; "bits";
   "field"; "fields"; "set"; "sent"].

Definition TRIGGER : regex := pattern I
  ("\b(?:when|whenever|after|before|prior\s+to|upon|once|while|during|if|unless|in\s+response\s+to|as\s+a\s+result\s+of|following)\b"
   +:+ "[^.;]{0,200}").

Definition DIGITS : regex := pattern plain "\d+".

Definition REFERS_BACK : regex := pattern I
  ("\b(?:with|to|against|for|per|following|using)\s+(?:this|that|these|those|it)\b"
   +:+ "|\b(?:this|that|these|those)\s+(?:requirement|requirements|rule|rules|clause|clauses|provision|provisions|spec|specification|standard|answer|finding|findings|analysis)\b"
   +:+ "|\b(?:implement|apply|do|make|bring)\s+(?:it|this|that|these|those)\b"
   +:+ "|\bcomply\s+with\s+(?:this|that|these|those|it)\b"
   +:+ "|\b(?:as|like)\s+(?:described|stated|explained|said)\s+above\b"
   +:+ "|\b(?:the\s+)?above\b").

Definition citations_in (text : string) : gset string := list_to_set (py_lower <$> findall_group 1 CITED text).

Definition trigger_of (text : string) : string :=
  match search TRIGGER text with
  | Some m => String.substring 0 200 (unwords (words (m_text m)))
  | None => ""
  end.

(** The members of a listed family, each once, in order. *)
Definition family_members (listed : string) : list string :=
  foldl (λ members token, if bool_decide (py_lower token ∈ NOT_A_MEMBER) || bool_decide (token ∈ members)
                          then members else members ++ [token]) [] (findall FAMILY_MEMBER listed).

Definition family_of (text : string) : list string :=
  match search FAMILY text with
  | Some m => let members := family_members (m_text m) in if (1 <? length members)%nat then members else []
  | None => []
  end.

Definition refers_back (question : string) : bool := searches REFERS_BACK question.

(** ** Requirements *)

Record Requirement := mk_requirement {
  rq_key : string;
  rq_section : string;
  rq_source_id : string;
  rq_force : string;
  rq_statement : string;
  rq_members : list json;
  rq_trigger : string;
  rq_origin : string;
  rq_disposition : string;
  rq_note : string;
  rq_stated : bool;
  rq_history : list (dict string json);
}.
#[export] Instance Requirement_eta : Eta Requirement :=
  λ r, mk_requirement r.(rq_key) r.(rq_section) r.(rq_source_id) r.(rq_force) r.(rq_statement) r.(rq_members) r.(rq_trigger)
         r.(rq_origin) r.(rq_disposition) r.(rq_note) r.(rq_stated) r.(rq_history).

Definition NOT_REQUIRED : string := "retrieved,".

Definition required (r : Requirement) : bool := negb (String.prefix NOT_REQUIRED r.(rq_origin)).
Definition unfinished (disposition : string) : bool := bool_decide (disposition ∈ dv <$> UNFINISHED).
Definition open (r : Requirement) : bool := required r && unfinished r.(rq_disposition).

Record RequirementSet := mk_set { items : list Requirement; set_origin : string }.
#[export] Instance RequirementSet_eta : Eta RequirementSet := λ s, mk_set s.(items) s.(set_origin).

Definition empty_set_ : RequirementSet := mk_set [] "".

Definition in_scope (s : RequirementSet) : list Requirement := List.filter required s.(items).
Definition excluded (s : RequirementSet) : list Requirement := List.filter (λ r, negb (required r)) s.(items).
Definition open_items (s : RequirementSet) : list Requirement := List.filter open s.(items).
Definition unstated (s : RequirementSet) : list Requirement := List.filter (λ r, required r && negb r.(rq_stated)) s.(items).
Definition keys (s : RequirementSet) : list string := rq_key <$> in_scope s.
Definition set_length (s : RequirementSet) : nat := length (in_scope s).

(** ** Which requirement a text names *)

Fixpoint find_index {A} (p : A → bool) (l : list A) : option nat :=
  match l with [] => None | x :: l => if p x then Some O else S <$> find_index p l end.

(** Where the requirement with this key is. *)
Definition get_index (key : string) (s : RequirementSet) : option nat :=
  find_index (λ r, String.eqb (py_lower r.(rq_key)) (py_lower (py_strip key))) s.(items).

Definition get_item (key : string) (s : RequirementSet) : option Requirement := i ← get_index key s; s.(items) !! i.

(** The last word of the key, which is its number; a key of spaces only is
    not one. *)
Definition bare_key (r : Requirement) : string := default "" (last (words (py_lower r.(rq_key)))).

(** [s.rsplit("-", 1)[0]] *)
Fixpoint before_last_dash (s : string) : option string :=
  match s with
  | EmptyString => None
  | String c s' =>
      match before_last_dash s' with
      | Some t => Some (String c t)
      | None => if Ascii.eqb c "-"%char then Some "" else None
      end
  end.
Definition without_ordinal (s : string) : string := default s (before_last_dash s).

Definition owning (r : Requirement) : list string :=
  List.filter str_true [without_ordinal (bare_key r); py_lower r.(rq_section)].

Definition under (r : Requirement) : string := str_or (py_lower r.(rq_section)) (without_ordinal (bare_key r)).

Definition wanted_in (citation : string) : gset string :=
  citations_in citation ∪ list_to_set (py_lower <$> findall_group 1 BARE citation).
Definition handles_in (citation : string) : gset string := list_to_set (py_lower <$> findall HANDLE citation).

Definition named_by (wanted : gset string) (s : string) : bool := bool_decide (s ∈ wanted).

(** The passes of [match], the strongest signal first. *)
Definition by_handle (handles : gset string) (r : Requirement) : bool :=
  str_true r.(rq_source_id) && named_by handles (py_lower r.(rq_source_id)).
Definition by_key (wanted : gset string) (r : Requirement) : bool := named_by wanted (py_lower r.(rq_key)).
Definition by_number (wanted : gset string) (r : Requirement) : bool :=
  str_true (bare_key r) && named_by wanted (bare_key r)
  || str_true r.(rq_section) && named_by wanted (py_lower r.(rq_section)).
Definition by_section (wanted : gset string) (r : Requirement) : bool := existsb (named_by wanted) (owning r).
Definition by_chapter (wanted : gset string) (r : Requirement) : bool :=
  str_true (under r) && existsb (λ candidate, String.prefix (candidate +:+ ".") (under r)) (elements wanted).

Definition first_of (passes : list (Requirement → bool)) (l : list Requirement) : option nat :=
  foldr (λ p rest, match find_index p l with Some i => Some i | None => rest end) None passes.

Definition match_index (citation : string) (s : RequirementSet) : option nat :=
  let wanted := wanted_in citation in
  first_of (by_handle (handles_in citation) ::
            (if bool_decide (wanted = ∅) then [] else [by_key wanted; by_number wanted; by_section wanted; by_chapter wanted]))
    s.(items).

Definition match_item (citation : string) (s : RequirementSet) : option Requirement := i ← match_index citation s; s.(items) !! i.

(** ** What becomes of a requirement *)

Definition history_entry (disposition note by_ : string) : dict string json :=
  [("disposition", JStr disposition); ("note", JStr note); ("by", JStr by_)].

Definition disposed (disposition note by_ : string) (r : Requirement) : Requirement :=
  r <| rq_disposition := disposition |> <| rq_note := str_or note r.(rq_note) |> <| rq_stated := true |>
    <| rq_history ::= λ h, h ++ [history_entry disposition (String.substring 0 200 note) by_] |>.

(** [dispose]: the item found is the first that equals itself. *)
Definition target_index (key : string) (s : RequirementSet) : option nat :=
  match get_index key s with Some i => Some i | None => match_index key s end.

Definition dispose (key disposition note by_ : string) (s : RequirementSet) : option Requirement * RequirementSet :=
  match target_index key s with
  | Some i => let s' := s <| items ::= alter (disposed disposition note by_) i |> in (s'.(items) !! i, s')
  | None => (None, s)
  end.

(** ** The text form *)

Definition Requirement_to_dict (r : Requirement) : json :=
  JObj [("key", JStr r.(rq_key)); ("section", JStr r.(rq_section)); ("source_id", JStr r.(rq_source_id));
        ("force", JStr r.(rq_force)); ("statement", JStr r.(rq_statement)); ("members", JList r.(rq_members));
        ("trigger", JStr r.(rq_trigger)); ("origin", JStr r.(rq_origin)); ("disposition", JStr r.(rq_disposition));
        ("note", JStr r.(rq_note)); ("stated", JBool r.(rq_stated)); ("history", JList (JObj <$> r.(rq_history)))].

Definition RequirementSet_to_dict (s : RequirementSet) : json :=
  JObj [("schema_version", JInt 1); ("origin", JStr s.(set_origin)); ("items", JList (Requirement_to_dict <$> s.(items)))].

Inductive exn := NotIterable | NotMapping (e : dict_error).

Section from_dict.
  Context (float_eq : string → Z → bool) (repr : json → string).

(** [str(raw.get(key) or other)] *)
Definition text_or (d : dict string json) (key other : string) : string :=
  py_str repr (py_or float_eq (get_or_null d key) (JStr other)).

(** [raw.get(key) or ()], iterated over. *)
Definition list_or (d : dict string json) (key : string) : res exn (list json) :=
  let v := get_or_null d key in
  if py_true float_eq v then of_option NotIterable (py_iter v) else Ok [].

Definition Requirement_from_dict (raw : json) : res exn Requirement :=
  let d := match raw with JObj d => d | _ => [] end in
  let? members := list_or d "members" in
  let? history := list_or d "history" in
  let? history := rmapM (λ entry, rmap_err NotMapping (dict_of entry)) history in
  Ok (mk_requirement (text_or d "key" "") (text_or d "section" "") (text_or d "source_id" "") (text_or d "force" "requirement")
        (text_or d "statement" "") members (text_or d "trigger" "") (text_or d "origin" "cited")
        (text_or d "disposition" (dv UNDETERMINED)) (text_or d "note" "") (py_true float_eq (get_or_null d "stated")) history).

Definition RequirementSet_from_dict (raw : json) : res exn RequirementSet :=
  match raw with
  | JObj d =>
      if equals_int float_eq 1 (get_or_null d "schema_version") then
        let? l := list_or d "items" in
        let? l := rmapM Requirement_from_dict l in
        Ok (mk_set l (text_or d "origin" ""))
      else Ok empty_set_
  | _ => Ok empty_set_
  end.

(** ** Reports *)

Definition said_by_model (r : Requirement) : list (dict string json) :=
  List.filter (λ entry, equals_str "model" (dict_get_default entry "by" (JStr "model"))) r.(rq_history).

Definition stated_revisions (r : Requirement) : nat := length (said_by_model r).

(** Every entry [dispose] makes has a disposition; for one that has none the
    code raises, and this gives null.  Requirements the turn changed its mind
    about; later ones replace earlier
    ones of the same key. *)
Definition revisions (s : RequirementSet) : dict string (list json) :=
  foldl (λ found r, let said := (λ entry, get_or_null entry "disposition") <$> said_by_model r in
                    if (1 <? length said)%nat then dict_set r.(rq_key) said found else found) [] s.(items).

Definition matrix (s : RequirementSet) : list json :=
  (λ r, JObj [("requirement", JStr r.(rq_key)); ("revisions", JInt (Z.of_nat (length r.(rq_history)))); ("force", JStr r.(rq_force));
              ("evidence", JStr (str_or r.(rq_source_id) r.(rq_section))); ("statement", JStr r.(rq_statement));
              ("disposition", JStr r.(rq_disposition)); ("note", JStr r.(rq_note)); ("stated", JBool r.(rq_stated))]) <$> s.(items).
End from_dict.

(** ** Publishing *)

(** A retrieved provision in the ledger of evidence; its force, unless asking
    for it raises. *)
Record provision := mk_provision { pv_key : string; pv_section : string; pv_source : string; pv_force : option Z; pv_text : string }.

Definition REQUIREMENT_FORCE : Z := 3.

Definition binding (records : list provision) : list Requirement :=
  omap (λ p, match p.(pv_force) with
             | Some force => if force <? REQUIREMENT_FORCE then None else
                 let text := unwords (words p.(pv_text)) in
                 Some (mk_requirement p.(pv_key) p.(pv_section) p.(pv_source) "requirement" (String.substring 0 400 text)
                         (JStr <$> family_of text) (trigger_of text) "cited" (dv UNDETERMINED) "" false [])
             | None => None
             end) records.

(** Sections are ordered by their numbers, then by key; equal ones keep their
    order. *)
Definition sort_key (r : Requirement) : list Z * string :=
  (default 0 ∘ int_of_str <$> findall DIGITS r.(rq_section), r.(rq_key)).

Fixpoint numbers_compare (a b : list Z) : comparison :=
  match a, b with
  | [], [] => Eq
  | [], _ => Lt
  | _, [] => Gt
  | x :: a, y :: b => match Z.compare x y with Eq => numbers_compare a b | c => c end
  end.

Definition key_leb (a b : list Z * string) : bool :=
  match numbers_compare a.1 b.1 with Lt => true | Gt => false | Eq => String.leb a.2 b.2 end.

Fixpoint insert_ordered (r : Requirement) (l : list Requirement) : list Requirement :=
  match l with
  | [] => [r]
  | x :: l' => if key_leb (sort_key r) (sort_key x) then r :: l else x :: insert_ordered r l'
  end.
Definition ordered (l : list Requirement) : list Requirement := foldr insert_ordered [] l.

Definition is_cited (named : gset string) (r : Requirement) : bool :=
  bool_decide (py_lower r.(rq_key) ∈ named) || bool_decide (bare_key r ∈ named).

Definition NOT_NAMED : string := "retrieved, not named in the answer".

(** [publish]; [None] is a turn without a ledger of provisions. *)
Definition publish (records : option (list provision)) (answer origin : string) (limit : nat) : RequirementSet :=
  match records with
  | None => empty_set_
  | Some records =>
      let bound := binding records in
      if bool_decide (length bound = 0%nat) then empty_set_ else
      let named := citations_in answer in
      let chosen := if bool_decide (named = ∅) then [] else List.filter (is_cited named) bound in
      match chosen with
      | [] => mk_set (take limit (ordered bound)) origin
      | _ =>
          let rest := (λ r, r <| rq_origin := NOT_NAMED |>) <$> List.filter (λ r, negb (is_cited named r)) bound in
          mk_set (ordered chosen ++ take limit (ordered rest)) origin
      end
  end.
