(* ===== verification/RequirementSetProps.v ===== *)
(** * The contract between turns: what is published, cited, and stored *)

From Stdlib Require Import Ascii.
From S2P Require Import Prelude Texts Values Regex RequirementSet.

#[local] Open Scope Z_scope.
Open Scope py_scope.

Lemma find_index_some {A} (p : A → bool) l i : find_index p l = Some i ↔
  ∃ earlier x later, l = earlier ++ x :: later ∧ length earlier = i ∧ p x = true ∧ Forall (λ y, p y = false) earlier.
Proof.
  revert i. induction l as [|x l IH]; intros i; cbn.
  - split; [done|]. by intros ([|? ?] & ? & ? & ? & _).
  - destruct (p x) eqn:Hp.
    + split.
      * intros [= <-]. exists [], x, l. split_and!; [done..|constructor].
      * intros ([|y earlier] & x' & later & [= <- ->] & <- & Hx & Hf); [done|]. inversion Hf; congruence.
    + split.
      * intros (j & Hj & ->)%fmap_Some. apply IH in Hj as (earlier & x' & later & -> & <- & Hx & Hf).
        exists (x :: earlier), x', later. split_and!; [done..|]. by constructor.
      * intros ([|y earlier] & x' & later & [= <- ->] & <- & Hx & Hf); [congruence|]. inversion Hf; subst.
        apply fmap_Some. exists (length earlier). split; [|done]. apply IH. by exists earlier, x', later.
Qed.

Lemma find_index_none {A} (p : A → bool) l : find_index p l = None ↔ Forall (λ y, p y = false) l.
Proof.
  induction l as [|x l IH]; cbn; [by split|]. rewrite Forall_cons. destruct (p x); [naive_solver|]. rewrite fmap_None, IH. naive_solver.
Qed.

(** ** What a citation refers to *)

(** The signals by which a citation names a requirement, the strongest
    first. *)
Definition signals (citation : string) : list (Requirement → bool) :=
  by_handle (handles_in citation) ::
  (if bool_decide (wanted_in citation = ∅) then []
   else (λ p, p (wanted_in citation)) <$> [by_key; by_number; by_section; by_chapter]).

Lemma first_of_spec passes l :
  match first_of passes l with
  | Some i => ∃ stronger p weaker earlier r later, passes = stronger ++ p :: weaker ∧ l = earlier ++ r :: later ∧ length earlier = i ∧
      p r = true ∧ Forall (λ r', p r' = false) earlier ∧ Forall (λ q : Requirement → bool, Forall (λ r', q r' = false) l) stronger
  | None => Forall (λ q : Requirement → bool, Forall (λ r', q r' = false) l) passes
  end.
Proof.
  induction passes as [|p passes IH]; cbn [first_of foldr]; [constructor|]. fold (first_of passes l).
  destruct (find_index p l) as [i|] eqn:Hf.
  - apply find_index_some in Hf as (earlier & r & later & -> & <- & Hp & He). exists [], p, passes, earlier, r, later.
    split_and!; [done..|constructor].
  - apply find_index_none in Hf. destruct (first_of passes l) as [i|]; [|by constructor].
    destruct IH as (stronger & q & weaker & earlier & r & later & -> & -> & Hn & Hq & He & Hs).
    exists (p :: stronger), q, weaker, earlier, r, later. split_and!; [done..|]. by constructor.
Qed.

(** A citation refers to the first requirement that the strongest of its
    signals names -- its handle, its key, its number, its section, its
    chapter -- and to none only when none of them names any. *)
Theorem citations_refer_by_the_strongest_signal citation s :
  match match_item citation s with
  | Some r => ∃ stronger p weaker earlier later, signals citation = stronger ++ p :: weaker ∧ s.(items) = earlier ++ r :: later ∧
      p r = true ∧ Forall (λ r', p r' = false) earlier ∧ Forall (λ q : Requirement → bool, Forall (λ r', q r' = false) s.(items)) stronger
  | None => Forall (λ q : Requirement → bool, Forall (λ r', q r' = false) s.(items)) (signals citation)
  end.
Proof.
  unfold match_item, match_index. cbv zeta.
  assert (signals citation = by_handle (handles_in citation) :: (if bool_decide (wanted_in citation = ∅) then []
    else [by_key (wanted_in citation); by_number (wanted_in citation); by_section (wanted_in citation); by_chapter (wanted_in citation)])) as ->.
  { unfold signals. by case_bool_decide. }
  match goal with |- context [first_of ?ps ?l] => pose proof (first_of_spec ps l) as Hf; destruct (first_of ps l) as [i|] end; cbn [mbind option_bind]; [|done].
  destruct Hf as (stronger & p & weaker & earlier & r & later & Hp & Hl & <- & H1 & H2 & H3).
  rewrite Hl, list_lookup_middle by done. rewrite <- Hl. exists stronger, p, weaker, earlier, later. by split_and!.
Qed.

(** ** What is published *)

(** A requirement that binds: of a record of requirement force. *)
Definition of_record (p : provision) (r : Requirement) : Prop :=
  (∃ force, p.(pv_force) = Some force ∧ REQUIREMENT_FORCE <= force) ∧ r.(rq_key) = p.(pv_key) ∧ r.(rq_section) = p.(pv_section) ∧
  r.(rq_source_id) = p.(pv_source) ∧ r.(rq_disposition) = dv UNDETERMINED ∧ r.(rq_stated) = false.

Lemma binding_spec records r : r ∈ binding records → r.(rq_origin) = "cited" ∧ ∃ p, p ∈ records ∧ of_record p r.
Proof.
  unfold binding. rewrite list_elem_of_omap. intros (p & Hp & Hr). destruct (pv_force p) as [force|] eqn:Hf; [|done].
  destruct (force <? REQUIREMENT_FORCE) eqn:Hlt; [done|]. apply Z.ltb_ge in Hlt. injection Hr as <-. split; [done|]. exists p.
  split; [done|]. split; [by exists force|]. done.
Qed.

Lemma insert_ordered_perm r l : insert_ordered r l ≡ₚ r :: l.
Proof.
  induction l as [|x l IH]; cbn [insert_ordered]; [done|]. case_match; [done|]. rewrite IH. by apply perm_swap.
Qed.

Lemma ordered_perm l : ordered l ≡ₚ l.
Proof. induction l as [|x l IH]; cbn; [done|]. by rewrite insert_ordered_perm, IH. Qed.

Lemma binding_required records r : r ∈ binding records → required r = true.
Proof. intros [Ho _]%binding_spec. unfold required. by rewrite Ho. Qed.

Definition named_in_answer (records : list provision) (answer : string) : list Requirement :=
  List.filter (is_cited (citations_in answer)) (binding records).

Lemma publish_cases records answer origin limit :
  publish (Some records) answer origin limit =
  match named_in_answer records answer with
  | [] => mk_set (take limit (ordered (binding records))) (if bool_decide (binding records = []) then "" else origin)
  | chosen => mk_set (ordered chosen ++ take limit (ordered ((λ r, r <| rq_origin := NOT_NAMED |>)
                <$> List.filter (λ r, negb (is_cited (citations_in answer) r)) (binding records)))) origin
  end.
Proof.
  unfold publish, named_in_answer. destruct (binding records) as [|r rs] eqn:Hb; [cbn; rewrite take_nil; by case_bool_decide|]. cbv zeta.
  rewrite (bool_decide_eq_false_2 (length (r :: rs) = 0%nat)), (bool_decide_eq_false_2 (r :: rs = [])) by done.
  case_bool_decide as Hn; [|by destruct (List.filter _ _)]. rewrite Hn, filter_nil; [done|]. intros x _. unfold is_cited.
  by rewrite !bool_decide_eq_false_2 by set_solver.
Qed.


(** ** The stored form *)

(** A requirement whose fields with a default are not empty. *)
Record storable (r : Requirement) : Prop := {
  st_force : r.(rq_force) ≠ "";
  st_origin : r.(rq_origin) ≠ "";
  st_disposition : r.(rq_disposition) ≠ "";
}.

Section stored.
  Context (float_eq : string → Z → bool) (repr : json → string).

Lemma text_or_str d key other v : dict_get d key = Some (JStr v) → (v ≠ "" ∨ other = "") → text_or float_eq repr d key other = v.
Proof.
  intros Hd Hv. unfold text_or, get_or_null, dict_get_default. rewrite Hd. cbn. unfold py_or. cbn.
  destruct (str_true v) eqn:E; [done|]. apply str_true_false in E. naive_solver.
Qed.

Lemma history_read h : rmapM (λ entry, rmap_err NotMapping (dict_of entry)) (JObj <$> h) = Ok h.
Proof. induction h as [|e h IH]; cbn; [done|]. cbn in IH. by rewrite IH. Qed.

Lemma list_or_list d key l : dict_get d key = Some (JList l) → list_or float_eq d key = Ok l.
Proof. intros Hd. unfold list_or, get_or_null, dict_get_default. rewrite Hd. by destruct l. Qed.

Lemma requirement_read_back r : storable r → Requirement_from_dict float_eq repr (Requirement_to_dict r) = Ok r.
Proof.
  intros [Hf Ho Hd]. unfold Requirement_from_dict, Requirement_to_dict. set (d := [_; _; _; _; _; _; _; _; _; _; _; _]).
  rewrite (list_or_list d "members" r.(rq_members)), (list_or_list d "history" (JObj <$> r.(rq_history))) by done.
  unfold rbind at 1 2. rewrite history_read. cbn [rbind].
  rewrite (text_or_str d "key" "" r.(rq_key)), (text_or_str d "section" "" r.(rq_section)), (text_or_str d "source_id" "" r.(rq_source_id)),
    (text_or_str d "force" _ r.(rq_force)), (text_or_str d "statement" "" r.(rq_statement)), (text_or_str d "trigger" "" r.(rq_trigger)),
    (text_or_str d "origin" _ r.(rq_origin)), (text_or_str d "disposition" _ r.(rq_disposition)), (text_or_str d "note" "" r.(rq_note))
    by auto. by destruct r as [? ? ? ? ? ? ? ? ? ? [] ?].
Qed.

(** C32: a contract is carried from one turn to the next as it was: reading
    what was stored gives the same requirements, in the same order, with
    their dispositions and their history. *)
Theorem a_stored_contract_is_read_back s : Forall storable s.(items) →
  RequirementSet_from_dict float_eq repr (RequirementSet_to_dict s) = Ok s.
Proof.
  intros Hs. unfold RequirementSet_from_dict, RequirementSet_to_dict. set (d := [_; _; _]).
  rewrite (list_or_list d "items" (Requirement_to_dict <$> s.(items))) by done. unfold get_or_null. cbn [equals_int].
  rewrite (text_or_str d "origin" "" s.(set_origin)) by auto.
  assert (rmapM (Requirement_from_dict float_eq repr) (Requirement_to_dict <$> s.(items)) = Ok s.(items)) as Hl.
  { induction Hs as [|r l Hr _ IH]; cbn; [done|]. rewrite requirement_read_back by done. cbn in *. by rewrite IH. }
  cbn. cbn in Hl. rewrite Hl. by destruct s.
Qed.
End stored.
