(* ===== verification/WorkPhase.v ===== *)
(** * The lifecycle of a change that must meet a document:
    [client/runtime/work_phase.py]

    What the turn was shown on both sides of the gap, the plan it may record,
    the work items that authorise its edits, the write gate, and what
    validation settles.  The ledger is the state of every operation. *)

From Stdlib Require Import Ascii.
From S2P Require Import Prelude Texts Values Regex RequirementSet.

#[local] Open Scope Z_scope.
Open Scope py_scope.

(** ** Constants and patterns *)

Inductive Phase := INVESTIGATE | PLAN | EDIT | TEST | REVIEW | DONE.
#[export] Instance Phase_eq_dec : EqDecision Phase.
Proof. solve_decision. Defined.

Definition phase_value (p : Phase) : string :=
  match p with
  | INVESTIGATE => "investigate" | PLAN => "plan" | EDIT => "edit" | TEST => "test" | REVIEW => "review" | DONE => "done"
  end.

Definition WRITE_BLOCKED : string :=
  "Complete investigation and establish an evidence-backed implementation plan before modifying files.".
Definition PLAN_TOOL : string := "plan_change".
Definition NO_AUTHORITY : string := "authority_evidence_missing".
Definition NO_IMPLEMENTATION : string := "implementation_evidence_missing".
Definition NO_PLAN : string := "plan_missing".
Definition OUTSIDE_WORK_ITEM : string := "outside_the_planned_change".
Definition PLAN_INCOMPLETE : string := "plan_does_not_cover_the_requirements".
Definition REVIEW_IS_READ_ONLY : string := "review_is_read_only".
Definition REPETITION_LIMIT : Z := 2.
Definition MAX_SYNTHESES : Z := 2.
Definition FAILED_VALIDATION_LIMIT : Z := 2.
Definition PLAN_PATIENCE : Z := 8.
Definition MAX_PLAN_DEMANDS : Z := 2.

Definition SECTION : regex := pattern plain "\b(\d+(?:\.\d+)+)(?:-\d+)?\b".
Definition HANDLE : regex := pattern plain "\b[a-z]{2,4}-[0-9a-f]{8,}\b".
Definition TEST_PATH : regex := pattern plain "(^|/)tests?/|(^|/)test[_\-][\w.\-]+$|(^|/)[\w.\-]+[_\-]tests?\.\w+$".
Definition NEGATIVE_BRANCH : regex := pattern I
  ("\b(?:and\s+when\s+not|when\s+(?:it\s+is\s+)?not|if\s+not|otherwise|unless|but\s+not|neither|no\s+\w+\s+is|nothing\s+is|does\s+not|"
   +:+ "is\s+not|only\s+(?:when|if)|exactly\s+one|absent|omitted|cleared|rejected|refused|fails?|failure|negative|opposite|conversely|"
   +:+ "whereas|while\s+the\s+other)\b").
Definition NAMES_A_PATH : regex := pattern plain "[\w.\-/]*\w\.[A-Za-z0-9_+]{1,8}\b|\b\w+\(\)".
Definition MOVES_A_CALL : regex := pattern I
  ("\b(?:call|calling|invoke|invoking|move|moving|relocate|hoist|reuse|trigger)\b[^.;]{0,80}"
   +:+ "\b(?:from|into|in|at|inside|within|to)\b").
Definition SCENARIO : regex := pattern I
  ("\b(?:when|if|after|before|given|upon|once|with|for\s+a|in\s+the\s+case|send(?:s|ing)?|request(?:s|ing)?|set(?:s|ting)?|"
   +:+ "call(?:s|ing)?|provid(?:e|es|ing)|constructs?|build(?:s|ing)?)\b").
Definition OUTCOME : regex := pattern I
  ("\b(?:expect(?:s|ed|ing)?|assert(?:s|ion|ed|ing)?|check(?:s|ed|ing)?\s+that|verif(?:y|ies|ied|ying)\s+that|"
   +:+ "should\s+(?:be|contain|carry|return|produce|emit|send|set|equal|have|fail|reject)|must\s+(?:be|contain|return|produce|equal)|"
   +:+ "result(?:s|ing)?\s+in|returns?\s+|produces?\s+|emits?\s+|yields?\s+|is\s+(?:set|cleared|present|absent|rejected)|"
   +:+ "exactly\s+one|no\s+\w+\s+is\s+sent)\b").
Definition RUN_THE_SUITE : regex := pattern I
  ("^\W*(?:the\s+|existing\s+|project'?s?\s+|current\s+)*(?:fix\s+will\s+be\s+validated\s+by\s+)?"
   +:+ "(?:run(?:ning)?|execut(?:e|ing)|use|using|extend(?:ing)?|add(?:ing)?)?\s*(?:the\s+)?"
   +:+ "(?:existing\s+|project'?s?\s+|current\s+|full\s+)*(?:unit\s+)?(?:test\s+suite|tests?|ctest|make\s+test|suite|test\s+cases?)\b"
   +:+ "[^.]{0,60}$").
Definition PLANS_NEW_TEST : regex := pattern I "\b(?:add|adding|write|writing|new|extend|extending|create|creating)\b".
Definition NO_TEST_POSSIBLE : regex := pattern I
  ("\bno\s+(?:automated\s+|executable\s+)?test\b|\bcannot\s+be\s+(?:automatically\s+)?tested\b|\bnot\s+testable\b|\buntestable\b"
   +:+ "|\brequires?\s+(?:real\s+)?hardware\b").
Definition PATH : regex := pattern plain "[\w.\-/]*\w\.[A-Za-z0-9_+]{1,8}\b".
Definition CALL : regex := pattern plain "\b\w+\(\)".
Definition FUNCTION_SYMBOL : regex := pattern plain "\b[A-Za-z_]\w{2,}\s*\(\)".
Definition CONSTANT_SYMBOL : regex := pattern plain "\b[A-Z][A-Za-z0-9]*_[A-Z0-9_]{2,}\b".
Definition ABBREVIATION : regex := pattern I "(?:e\.g|i\.e|etc)\.?".
Definition LONG_WORD : regex := pattern plain "\b[A-Za-z_]\w{3,}\b".
Definition NON_WORD : regex := pattern plain "\W+".

(** The patterns are texts of the language that is modelled. *)
Definition wording : list regex :=
  [SECTION; HANDLE; TEST_PATH; NEGATIVE_BRANCH; NAMES_A_PATH; MOVES_A_CALL; SCENARIO; OUTCOME; RUN_THE_SUITE; PLANS_NEW_TEST;
   NO_TEST_POSSIBLE; PATH; CALL; FUNCTION_SYMBOL; CONSTANT_SYMBOL; ABBREVIATION; LONG_WORD; NON_WORD;
   CITED; RequirementSet.HANDLE; BARE; FAMILY; FAMILY_MEMBER; TRIGGER; DIGITS; REFERS_BACK].

(** ** Texts *)

Fixpoint after_last_slash (s : string) : option string :=
  match s with
  | EmptyString => None
  | String c s' => match after_last_slash s' with Some t => Some t | None => if Ascii.eqb c "/"%char then Some s' else None end
  end.

Definition basename (path : string) : string :=
  let p := rstrip_chars "/" path in default p (after_last_slash p).

Definition paths_of (text : string) : list string := basename <$> findall PATH text.

Definition forward_slashes (s : string) : string := String.concat "/" (split_on "\"%char s).

Definition looks_like_a_test (path : string) : bool := searches TEST_PATH (py_lower (forward_slashes path)).

Definition sections (text : string) : list string := findall_group 1 SECTION text.
Definition handles (text : string) : list string := py_lower <$> findall HANDLE text.

Definition symbols_in (text : string) : gset string :=
  list_to_set (rstrip_chars "()" <$> findall FUNCTION_SYMBOL text) ∪ list_to_set (findall CONSTANT_SYMBOL text).

Definition is_abbreviation (s : string) : bool := bool_decide (is_Some (fullmatch ABBREVIATION s)).

Definition paths_in (text : string) : gset string :=
  list_to_set (List.filter (λ name, contains "." name && negb (is_abbreviation name)) (paths_of text)).

(** *** Validation designs *)

Definition FOCUSED_PLANNED : string := "focused_test_planned".
Definition EXISTING_PROVEN : string := "existing_test_proven_to_cover".
Definition NOT_PRACTICAL : string := "automated_test_not_practical".

Definition validation_design (statement : string) (read_files : gset string) : string :=
  let text := py_strip statement in
  if negb (str_true text) then "" else
  if searches NO_TEST_POSSIBLE text then
    if searches SCENARIO text || contains " because " (py_lower text) then NOT_PRACTICAL else ""
  else if negb (searches SCENARIO text && searches OUTCOME text) then ""
  else
    let opened : gset string := set_map basename read_files in
    if existsb (λ name, bool_decide (name ∈ opened)) (paths_of text) && negb (searches PLANS_NEW_TEST text)
    then EXISTING_PROVEN else FOCUSED_PLANNED.

(** ** Evidence *)

Record EvidenceState := mk_evidence {
  authority_keys : gset string;
  authority_units : Z;
  implementation_files : gset string;
  root : string;
}.
#[export] Instance EvidenceState_eta : Eta EvidenceState :=
  λ e, mk_evidence e.(authority_keys) e.(authority_units) e.(implementation_files) e.(root).

Definition no_evidence : EvidenceState := mk_evidence ∅ 0 ∅ "".

Definition observe_authority (found : list string) (units : Z) (e : EvidenceState) : EvidenceState :=
  e <| authority_keys ::= union (list_to_set (py_lower <$> List.filter str_true found)) |>
    <| authority_units ::= Z.add (Z.max 0 units) |>.

Definition inside (e : EvidenceState) (path : string) : bool :=
  if negb (str_true e.(root)) || negb (String.prefix "/" path) then true else
  let r := rstrip_chars "/" e.(root) in
  String.eqb path r || String.prefix (r +:+ "/") path.

Definition observe_implementation (paths : list string) (e : EvidenceState) : EvidenceState :=
  e <| implementation_files ::= union (list_to_set (List.filter (inside e) (List.filter str_true paths))) |>.

Definition has_authority (e : EvidenceState) : bool := negb (bool_decide (e.(authority_keys) = ∅)) || (0 <? e.(authority_units)).
Definition has_implementation (e : EvidenceState) : bool := negb (bool_decide (e.(implementation_files) = ∅)).

Definition numbered (key : string) : bool := match key with String c _ => is_digit c | EmptyString => false end.

Definition backs_requirement (citation : string) (e : EvidenceState) : bool :=
  existsb (λ h, bool_decide (h ∈ e.(authority_keys))) (handles citation)
  || let read := List.filter numbered (elements e.(authority_keys)) in
     existsb (λ section, bool_decide (section ∈ read) || existsb (String.prefix (section +:+ ".")) read) (sections citation).

Definition backs_implementation (citation : string) (e : EvidenceState) : bool :=
  existsb (λ name, str_true name && bool_decide (name ∈ (set_map basename e.(implementation_files) : gset string))) (paths_of citation).

Definition evidence_summary (found : gset string) (limit : nat) : string :=
  let l := sort_strings (elements found) in
  match l with
  | [] => "(nothing read yet)"
  | _ => String.concat ", " (take limit l)
         +:+ (if (limit <? length l)%nat then " and " +:+ pretty (Z.of_nat (length l - limit)) +:+ " more" else "")
  end.

Definition Evidence_to_dict (e : EvidenceState) : json :=
  JObj [("authority_units", JInt e.(authority_units));
        ("authority_keys", JList (JStr <$> sort_strings (elements e.(authority_keys))));
        ("implementation_files", JList (JStr <$> sort_strings (elements e.(implementation_files))))].

(** ** Plan items *)

Record GapItem := mk_item {
  requirement : string;
  requirement_evidence : string;
  current_behaviour : string;
  implementation_evidence : string;
  gap : string;
  correction : string;
  validation : string;
  disposition : string;
  bound_to : string;
  branch_gap : string;
  testability : string;
}.
#[export] Instance GapItem_eta : Eta GapItem :=
  λ g, mk_item g.(requirement) g.(requirement_evidence) g.(current_behaviour) g.(implementation_evidence) g.(gap)
         g.(correction) g.(validation) g.(disposition) g.(bound_to) g.(branch_gap) g.(testability).

Definition FIELDS : list (string * (GapItem → string)) :=
  [("requirement", requirement); ("requirement_evidence", requirement_evidence); ("current_behaviour", current_behaviour);
   ("implementation_evidence", implementation_evidence); ("gap", gap); ("correction", correction); ("validation", validation)].

(** [from_mapping]: what the call says, an unknown disposition being an
    ordinary change.  The values a call gives are texts or nothing. *)
Definition from_mapping (raw : dict string string) : GapItem :=
  let field name := py_strip (default "" (dict_get raw name)) in
  let stated := py_lower (field "disposition") in
  mk_item (field "requirement") (field "requirement_evidence") (field "current_behaviour") (field "implementation_evidence")
    (field "gap") (field "correction") (field "validation")
    (if bool_decide (stated ∈ dv <$> STATED) then stated else dv CHANGE_PLANNED) "" "" "".

Definition missing (g : GapItem) : list string := (List.filter (λ f, negb (str_true (f.2 g))) FIELDS).*1.

Definition settled_disposition (g : GapItem) : string :=
  if negb (String.eqb g.(disposition) (dv UNDETERMINED)) then g.(disposition) else
  if (searches PATH g.(correction) || searches CALL g.(correction)) && str_true g.(gap) then dv CHANGE_PLANNED else g.(disposition).

Definition identity (g : GapItem) : string :=
  str_or g.(bound_to) (String.substring 0 120 (unwords (words (py_lower g.(requirement_evidence))))).

(** [item.bound_to or item.identity] *)
Definition item_key (g : GapItem) : string := str_or g.(bound_to) (identity g).

Definition GapItem_fields (g : GapItem) : list (string * json) :=
  ((λ f, (f.1, JStr (f.2 g))) <$> FIELDS) ++ [("disposition", JStr g.(disposition)); ("bound_to", JStr g.(bound_to))].

Definition GapItem_to_dict (g : GapItem) : json := JObj (GapItem_fields g).

Record WorkItem := mk_work {
  work_key : string;
  requirements_of : gset string;
  paths : gset string;
  symbols : gset string;
  coupled : gset string;
  depends_on : gset string;
  closed : bool;
  reopened : Z;
}.
#[export] Instance WorkItem_eta : Eta WorkItem :=
  λ w, mk_work w.(work_key) w.(requirements_of) w.(paths) w.(symbols) w.(coupled) w.(depends_on) w.(closed) w.(reopened).

Definition covers (path : string) (w : WorkItem) : bool := bool_decide (basename path ∈ w.(paths)).

Definition sorted_set (s : gset string) : json := JList (JStr <$> sort_strings (elements s)).

Definition WorkItem_to_dict (w : WorkItem) : json :=
  JObj [("key", JStr w.(work_key)); ("requirements", sorted_set w.(requirements_of)); ("paths", sorted_set w.(paths));
        ("symbols", sorted_set w.(symbols)); ("coupled", sorted_set w.(coupled)); ("depends_on", sorted_set w.(depends_on));
        ("closed", JBool w.(closed)); ("reopened", JInt w.(reopened))].

Record ItemVerdict := mk_verdict { vd_item : GapItem; vd_accepted : bool; vd_reason : string }.
Record WriteDecision := mk_decision { allowed : bool; reason : string; message : string }.
Record Replan := mk_replan { rp_reason : string; rp_invalidated : string; rp_evidence : string }.
Record revision := mk_revision { rv_requirement : string; rv_from : string; rv_to : string; rv_new_evidence : bool }.
Record validation_run := mk_run { run_command : string; run_status : string; run_covers : list string; run_generation : Z }.

(** What the turn knows, by counts. *)
Definition evidence_mark : Type := nat * Z * nat * nat.
#[export] Instance evidence_mark_eq_dec : EqDecision evidence_mark := _.

(** ** The ledger *)

Record WorkPhaseLedger := mk_ledger {
  engaged : bool;
  phase : Phase;
  evidence : EvidenceState;
  contract : RequirementSet;
  plan_items : list GapItem;
  rejected : list ItemVerdict;
  replans : list Replan;
  revised : list revision;
  idle_revisions : Z;
  replan_pending : bool;
  planned_at : gmap string evidence_mark;
  work_items : list WorkItem;
  branch_asked : gset string;
  context_asked : gset string;
  point_asked : gset string;
  first_write_phase : string;
  writes : Z;
  refusals : Z;
  validations : list validation_run;
  failed_validations : dict string Z;
  written : gset string;
  consecutive_without_evidence : Z;
  syntheses_forced : Z;
  calls_since_investigated : Z;
  plan_demands : Z;
}.
#[export] Instance WorkPhaseLedger_eta : Eta WorkPhaseLedger :=
  λ l, mk_ledger l.(engaged) l.(phase) l.(evidence) l.(contract) l.(plan_items) l.(rejected) l.(replans) l.(revised)
         l.(idle_revisions) l.(replan_pending) l.(planned_at) l.(work_items) l.(branch_asked) l.(context_asked) l.(point_asked)
         l.(first_write_phase) l.(writes) l.(refusals) l.(validations) l.(failed_validations) l.(written)
         l.(consecutive_without_evidence) l.(syntheses_forced) l.(calls_since_investigated) l.(plan_demands).

Definition fresh_ledger : WorkPhaseLedger :=
  mk_ledger false INVESTIGATE no_evidence empty_set_ [] [] [] [] 0 false ∅ [] ∅ ∅ ∅ "" 0 0 [] [] ∅ 0 0 0 0.

(** *** Engagement *)

(** What the carried requirements may be cited by. *)
Definition carried_citations (s : RequirementSet) : gset string :=
  let named : gset string := ⋃ ((λ r, citations_in r.(rq_key) ∪ list_to_set (List.filter str_true [r.(rq_section); r.(rq_source_id)]))
                                <$> s.(items)) in
  named ∪ list_to_set (omap before_last_dash (elements named)).

Definition engage (authority_bound write_requested : bool) (root_ : string) (prior_authority : list string)
    (requirements : option RequirementSet) (l : WorkPhaseLedger) : WorkPhaseLedger :=
  let l := l <| engaged := authority_bound && write_requested |> <| evidence ::= λ e, e <| root := root_ |> |> in
  let l := l <| evidence ::= observe_authority prior_authority 0 |> in
  match requirements with
  | Some s =>
      if l.(engaged) then l <| contract := s |> <| evidence ::= observe_authority (elements (carried_citations s)) 0 |> else l
  | None => l
  end.

(** *** Observation *)

Definition evidence_counts (e : EvidenceState) : nat * Z * nat :=
  (size e.(authority_keys), e.(authority_units), size e.(implementation_files)).

Definition open_plan (l : WorkPhaseLedger) : WorkPhaseLedger :=
  if l.(engaged) && bool_decide (l.(phase) = INVESTIGATE) && has_authority l.(evidence) && has_implementation l.(evidence)
  then l <| phase := PLAN |> else l.

Definition count_progress (gained : bool) (l : WorkPhaseLedger) : WorkPhaseLedger :=
  if gained then l <| consecutive_without_evidence := 0 |> else l <| consecutive_without_evidence ::= Z.add 1 |>.

Definition observe_call (found : list string) (units : Z) (files : list string) (l : WorkPhaseLedger) : WorkPhaseLedger :=
  let before := evidence_counts l.(evidence) in
  let l := l <| evidence ::= observe_authority found 0 |> in
  let l := l <| evidence ::= λ e, e <| authority_units ::= Z.max units |> |> in
  let l := l <| evidence ::= observe_implementation files |> in
  let l := count_progress (negb (bool_decide (before = evidence_counts l.(evidence)))) l in
  let planning := bool_decide (l.(phase) = PLAN) in
  let l := open_plan l in
  if planning then l <| calls_since_investigated ::= Z.add 1 |> else l.

Definition investigation_gaps (l : WorkPhaseLedger) : list string :=
  (if has_authority l.(evidence) then [] else [NO_AUTHORITY])
  ++ (if has_implementation l.(evidence) then [] else [NO_IMPLEMENTATION]).

Definition investigation_complete (l : WorkPhaseLedger) : bool := bool_decide (investigation_gaps l = []).

(** *** Judging a plan item *)

Definition mark_of (l : WorkPhaseLedger) : evidence_mark :=
  (size l.(evidence).(authority_keys), l.(evidence).(authority_units), size l.(evidence).(implementation_files),
   length l.(validations)).

Definition bound (l : WorkPhaseLedger) (g : GapItem) : GapItem :=
  let g := g <| testability := validation_design g.(validation) l.(evidence).(implementation_files) |> in
  match match_item g.(requirement_evidence) l.(contract) with
  | Some found => g <| bound_to := found.(rq_key) |>
  | None => g
  end.

Definition standing_for (id : string) (l : WorkPhaseLedger) : option GapItem :=
  List.find (λ known, String.eqb (identity known) id) l.(plan_items).

Definition finished_for (key : string) (l : WorkPhaseLedger) : option WorkItem :=
  List.find (λ w, w.(closed) && bool_decide (key ∈ w.(requirements_of))) l.(work_items).

Definition quoted (s : string) : string := String "034" s +:+ String "034" "".

Section judge.
  (** [repr] of a text. *)
  Context (repr : string → string).

(** Why a plan item that already stands may not be replaced. *)
Definition settled_reason (g : GapItem) (declared : bool) (l : WorkPhaseLedger) : option string :=
  match standing_for (identity g) l with
  | Some standing =>
      if declared then None else
      match finished_for (item_key g) l with
      | Some done =>
          Some (done.(work_key) +:+ " is finished: the change was made, it built and its validation passed. If something you have found since makes that wrong, say what it is -- pass `supersedes` and `new_evidence` -- and it will be reopened. Otherwise there are other requirements still open.")
      | None =>
          if bool_decide (l.(planned_at) !! identity g = Some (mark_of l)) then
            if String.eqb standing.(disposition) g.(disposition) && String.eqb standing.(correction) g.(correction)
               && String.eqb standing.(validation) g.(validation)
            then Some "this is the entry that already stands, word for word. It is recorded; nothing further is needed for it."
            else Some "nothing has been read, retrieved or run since this requirement was last planned, so there is no new evidence to revise it on. Go and establish the fact that would change it, or leave the entry as it stands."
          else None
      end
  | None => None
  end.

(** What the evidence says against an item: an empty field, or a provision
    that was not retrieved. *)
Definition unbacked_reason (g : GapItem) (l : WorkPhaseLedger) : option string :=
  match missing g with
  | [] =>
      if str_true g.(bound_to) || backs_requirement g.(requirement_evidence) l.(evidence) then None
      else Some ("the cited provision " +:+ repr g.(requirement_evidence) +:+ " is not among the evidence this session holds. Retrieve it, or cite one of: " +:+ evidence_summary l.(evidence).(authority_keys) 12)
  | fields => Some ("missing: " +:+ String.concat ", " fields)
  end.

Definition carried_trigger (g : GapItem) (l : WorkPhaseLedger) : string :=
  match match_item g.(requirement_evidence) l.(contract) with Some found => found.(rq_trigger) | None => "" end.

Definition sites (g : GapItem) : gset string := list_to_set (paths_of g.(implementation_evidence)).

Definition moves_without_sites (g : GapItem) : bool := searches MOVES_A_CALL g.(correction) && (size (sites g) <? 2)%nat.

Definition plans_a_change (g : GapItem) : bool := String.eqb g.(disposition) (dv CHANGE_PLANNED).

Definition design_of (g : GapItem) (l : WorkPhaseLedger) : string :=
  validation_design g.(validation) l.(evidence).(implementation_files).

Definition tests_one_side (g : GapItem) (l : WorkPhaseLedger) : bool :=
  plans_a_change g && String.eqb (design_of g l) FOCUSED_PLANNED && str_true (carried_trigger g l)
  && negb (searches NEGATIVE_BRANCH g.(validation)).

(** The gaps an item is accepted with, the later one in place of the
    earlier. *)
Definition with_gaps (g : GapItem) (l : WorkPhaseLedger) : GapItem :=
  let g := if moves_without_sites g
           then g <| branch_gap ::= λ b, (if str_true b then b +:+ "; " else "")
                  +:+ "moves a call without evidence from the site it is called from today" |> else g in
  if tests_one_side g l
  then g <| branch_gap := "tests only the case where the condition holds (" +:+ String.substring 0 60 (carried_trigger g l) +:+ ")" |>
  else g.

(** [_judge]; the dash of its first question is not of the character set of
    the model and is written as two. *)
Definition judge (g : GapItem) (declared : bool) (l : WorkPhaseLedger) : ItemVerdict * WorkPhaseLedger :=
  let refuse why := (mk_verdict g false why, l) in
  let id := identity g in
  match settled_reason g declared l with
  | Some why => refuse why
  | None =>
  match unbacked_reason g l with
  | Some why => refuse why
  | None =>
  let trigger := carried_trigger g l in
  if str_true trigger && negb (searches NAMES_A_PATH g.(correction)) && negb (bool_decide (id ∈ l.(point_asked))) then
    (mk_verdict g false ("this provision conditions its obligation -- " +:+ quoted trigger +:+ " -- so the correction has to name the point in the code where that condition is reached: the function or file the change lands in, not only what it will do"),
     l <| point_asked ::= union {[id]} |>)
  else if moves_without_sites g && negb (bool_decide (id ∈ l.(context_asked))) then
    (mk_verdict g false "this change calls something from a place it is not called from today. Name BOTH files in `implementation_evidence` -- where the thing being called is defined and where the new call goes -- and say in `current_behaviour` what the existing callers assume about thread, lock or lifetime. A function that is safe where it is called now is not safe from anywhere.",
     l <| context_asked ::= union {[id]} |>)
  else
  let accepted := with_gaps g l in
  let seen := if moves_without_sites g
              then g <| branch_gap ::= λ b, (if str_true b then b +:+ "; " else "")
                     +:+ "moves a call without evidence from the site it is called from today" |> else g in
  if tests_one_side g l && negb (bool_decide (id ∈ l.(branch_asked))) then
    (mk_verdict seen false ("this provision only applies " +:+ quoted (String.substring 0 80 trigger) +:+ ", so a test of the case where it does apply can pass while the condition itself is ignored. Say what the test expects in the other case too -- when the condition does not hold, or when only one of the cases is asked for. If that is genuinely not distinguishable here, say so and this will be recorded as a gap in the coverage."),
     l <| branch_asked ::= union {[id]} |>)
  else if plans_a_change g && negb (str_true (design_of g l)) then
    (mk_verdict seen false ("this behaviour has no validation design yet. " +:+
       (if searches RUN_THE_SUITE g.(validation)
        then quoted (String.substring 0 70 g.(validation)) +:+ " names no scenario and no expected result"
        else "Say what makes the behaviour happen and what result proves it worked")
       +:+ ". A suite that already passes without entering your new branch proves nothing about it. Give the condition, the expected result, and where the check belongs -- or say plainly that no automated test can reach it, and why, and what you will do instead."), l)
  else if negb (backs_implementation g.(implementation_evidence) l.(evidence)) then
    (mk_verdict accepted false ("no file named by " +:+ repr g.(implementation_evidence) +:+ " was read this turn. Read the implementation before planning a change to it, or name one of: " +:+ evidence_summary l.(evidence).(implementation_files) 12), l)
  else (mk_verdict accepted true "", l)
  end
  end.

Fixpoint judge_all (declared : bool) (raw : list (dict string string)) (l : WorkPhaseLedger) : list ItemVerdict * WorkPhaseLedger :=
  match raw with
  | [] => ([], l)
  | r :: raw =>
      let '(v, l) := judge (bound l (from_mapping r)) declared l in
      let '(vs, l) := judge_all declared raw l in (v :: vs, l)
  end.

(** *** Work items *)

Definition paths_touched (g : GapItem) : gset string :=
  filter (λ path, looks_like_a_test path = false) (paths_in g.(implementation_evidence) ∪ paths_in g.(correction)).
Definition symbols_touched (g : GapItem) : gset string := symbols_in g.(correction) ∪ symbols_in g.(current_behaviour).

Definition meets (a b : gset string) : bool := negb (bool_decide (a ∩ b = ∅)).

(** [_place]: the index of the work item. *)
Definition place (g : GapItem) (l : WorkPhaseLedger) : nat * WorkPhaseLedger :=
  let ps := paths_touched g in
  let ss := symbols_touched g in
  match find_index (λ w, meets ps w.(paths) || meets ss w.(symbols)) l.(work_items) with
  | Some i => (i, l <| work_items ::= alter (λ w, w <| requirements_of ::= union {[item_key g]} |> <| paths ::= union ps |>
                                               <| symbols ::= union ss |>) i |>)
  | None =>
      let n := length l.(work_items) in
      (n, l <| work_items ::= λ ws, ws ++ [mk_work ("work-" +:+ pretty (Z.of_nat (S n))) {[item_key g]} ps ss ∅ ∅ false 0] |>)
  end.

Definition named_in (r : Requirement) : gset string :=
  let text := r.(rq_statement) +:+ " " +:+ r.(rq_trigger) in symbols_in text ∪ list_to_set (findall LONG_WORD text).

(** [couple] on one work item. *)
Definition couple_work (s : RequirementSet) (w : WorkItem) : WorkItem :=
  foldl (λ w r, if bool_decide (r.(rq_key) ∈ w.(requirements_of)) then w
                else if meets w.(symbols) (named_in r)
                     then w <| requirements_of ::= union {[r.(rq_key)]} |> <| coupled ::= union {[r.(rq_key)]} |> else w)
    w (in_scope s).

Definition couple (i : nat) (l : WorkPhaseLedger) : WorkPhaseLedger :=
  l <| work_items ::= alter (couple_work l.(contract)) i |>.

Definition place_and_couple (g : GapItem) (l : WorkPhaseLedger) : WorkPhaseLedger :=
  let '(i, l) := place g l in couple i l.

(** The last plan item of this identity. *)
Definition known_at (id : string) (l : WorkPhaseLedger) : option nat :=
  foldl (λ found p, if String.eqb (identity p.2) id then Some p.1 else found) None (imap pair l.(plan_items)).

(** One accepted item enters the plan. *)
Definition enter (g : GapItem) (l : WorkPhaseLedger) : WorkPhaseLedger :=
  let id := identity g in
  let mark := mark_of l in
  match known_at id l with
  | None => place_and_couple g (l <| plan_items ::= λ gs, gs ++ [g] |> <| planned_at ::= insert id mark |>)
  | Some at_ =>
      let fresh := negb (bool_decide (l.(planned_at) !! id = Some mark)) in
      let old := default "" (disposition <$> l.(plan_items) !! at_) in
      let l := l <| revised ::= λ rs, rs ++ [mk_revision id old g.(disposition) fresh] |> in
      let l := if fresh then l else l <| idle_revisions ::= Z.add 1 |> in
      place_and_couple g (l <| plan_items ::= <[at_ := g]> |> <| planned_at ::= insert id mark |>)
  end.

Definition dispose_item (g : GapItem) (s : RequirementSet) : RequirementSet :=
  (dispose g.(requirement_evidence) (settled_disposition g) (String.substring 0 200 g.(correction)) "model" s).2.

Definition without_requirement (r : string) (gs : list GapItem) : list GapItem :=
  List.filter (λ g, negb (String.eqb g.(requirement) r)) gs.

Record PlanAcceptance := mk_acceptance { accepted_items : list ItemVerdict; rejected_items : list ItemVerdict }.

Definition any_accepted (a : PlanAcceptance) : bool := negb (bool_decide (length a.(accepted_items) = 0%nat)).

(** [PlanAcceptance.report] *)
Definition report (a : PlanAcceptance) : string :=
  match a.(rejected_items) with
  | [] => ""
  | rs =>
      String.concat (String "010" "")
        ((pretty (Z.of_nat (length rs)) +:+ " plan item(s) were not accepted:")
         :: imap (λ i v, "  " +:+ pretty (Z.of_nat (S i)) +:+ ". "
                  +:+ String.substring 0 90 (str_or v.(vd_item).(requirement) "(unnamed requirement)") +:+ " -- " +:+ v.(vd_reason)) rs)
  end.

(** The plan is accepted, and moves the lifecycle on. *)
Definition conclude_plan (accepted refused : list ItemVerdict) (l : WorkPhaseLedger) : WorkPhaseLedger :=
  let some := negb (bool_decide (length accepted = 0%nat)) in
  let l := l <| rejected ::= λ rs, rs ++ refused |> in
  let l := if some then l <| replan_pending := false |> else l in
  let l := l <| contract ::= λ s, foldl (λ s v, dispose_item v.(vd_item) s) s accepted |> in
  let l := if negb (bool_decide (length l.(plan_items) = 0%nat)) && bool_decide (l.(phase) ∈ [INVESTIGATE; PLAN; REVIEW])
           then l <| phase := EDIT |> else l in
  l <| consecutive_without_evidence := 0 |>.

Definition record_plan (raw : list (dict string string)) (supersedes reason_ new_evidence : string) (l : WorkPhaseLedger)
    : PlanAcceptance * WorkPhaseLedger :=
  let declared := str_true supersedes || str_true new_evidence in
  let '(verdicts, l) := judge_all declared raw l in
  let accepted := List.filter vd_accepted verdicts in
  let refused := List.filter (λ v, negb v.(vd_accepted)) verdicts in
  let some := negb (bool_decide (length accepted = 0%nat)) in
  let l := if str_true supersedes || str_true reason_
           then l <| replans ::= λ rs, rs ++ [mk_replan (str_or reason_ "replanned") supersedes new_evidence] |> else l in
  let l := if str_true supersedes && some then l <| plan_items ::= without_requirement supersedes |> else l in
  let l := foldl (λ l v, enter v.(vd_item) l) l accepted in
  (mk_acceptance accepted refused, conclude_plan accepted refused l).
End judge.

Definition has_plan (l : WorkPhaseLedger) : bool := negb (bool_decide (length l.(plan_items) = 0%nat)).

(** *** Replanning *)

Definition invalidate (reason_ invalidated evidence_ : string) (l : WorkPhaseLedger) : WorkPhaseLedger :=
  let l := l <| replans ::= λ rs, rs ++ [mk_replan reason_ invalidated evidence_] |> <| replan_pending := true |> in
  let l := l <| work_items ::= fmap (λ w, w <| closed := false |> <| reopened ::= Z.add 1 |>) |> in
  let l := if str_true invalidated then l <| plan_items ::= without_requirement invalidated |> else l in
  l <| phase := PLAN |> <| consecutive_without_evidence := 0 |>.

(** *** The write gate *)

(** Carried requirements the turn has said nothing about. *)
Definition uncovered_requirements (l : WorkPhaseLedger) : list Requirement := unstated l.(contract).

Definition work_item_for (path : string) (l : WorkPhaseLedger) : option nat := find_index (covers path) l.(work_items).

Definition open_work_items (l : WorkPhaseLedger) : list nat :=
  omap (λ p, if p.2.(closed) then None else Some p.1) (imap pair l.(work_items)).

Definition planned_for (key : string) (l : WorkPhaseLedger) : option GapItem :=
  List.find (λ g, String.eqb (item_key g) key) l.(plan_items).

(** What one requirement of a work item still owes. *)
Definition owed (l : WorkPhaseLedger) (key : string) : option (string * string) :=
  match get_item key l.(contract) with
  | None => None
  | Some found =>
      if negb found.(rq_stated) then Some (key, "no disposition")
      else if negb (String.eqb found.(rq_disposition) (dv CHANGE_PLANNED)) then None
      else match planned_for key l with
           | Some planned => if str_true planned.(testability) then None else Some (key, "no validation design")
           | None => Some (key, "no validation design")
           end
  end.

Definition local_gaps (w : WorkItem) (l : WorkPhaseLedger) : list (string * string) :=
  omap (owed l) (sort_strings (elements w.(requirements_of))).

Definition gaps_at (i : nat) (l : WorkPhaseLedger) : list (string * string) :=
  match l.(work_items) !! i with Some w => local_gaps w l | None => [] end.

Definition investigation_detail (missing_ : list string) : string :=
  if bool_decide (NO_AUTHORITY ∈ missing_) && bool_decide (NO_IMPLEMENTATION ∈ missing_)
  then "Neither the authoritative requirements nor the current implementation has been read this turn."
  else if bool_decide (NO_AUTHORITY ∈ missing_)
  then "The implementation has been read, but no requirement has been retrieved from the authoritative source, so there is nothing to be compliant with."
  else "Requirements have been retrieved, but no source file has been read, so what the code does today is unknown and the gap cannot be stated.".

Definition rejection_hint (l : WorkPhaseLedger) : string :=
  match last l.(rejected) with Some v => "(Last plan item refused: " +:+ v.(vd_reason) +:+ ")" | None => "" end.

Definition hinted (l : WorkPhaseLedger) (text : string) : string :=
  if bool_decide (length l.(rejected) = 0%nat) then text else text +:+ " " +:+ rejection_hint l.

Definition allow : WriteDecision := mk_decision true "" "".
Definition refuse (reason_ message_ : string) : WriteDecision := mk_decision false reason_ message_.

(** Each candidate is coupled, then asked, until one owes nothing. *)
Fixpoint first_ready (candidates : list nat) (l : WorkPhaseLedger) : bool * WorkPhaseLedger :=
  match candidates with
  | [] => (false, l)
  | i :: candidates =>
      let l := couple i l in
      match gaps_at i l with [] => (true, l) | _ => first_ready candidates l end
  end.

(** Members are texts where [publish] made them; others are left out. *)
Definition members_text (r : Requirement) : string :=
  String.concat ", " (omap (λ j, match j with JStr s => Some s | _ => None end) r.(rq_members)).

Definition gap_text (l : WorkPhaseLedger) (gap_ : string * string) : string :=
  gap_.1 +:+ " (" +:+ gap_.2 +:+ ")" +:+
  match get_item gap_.1 l.(contract) with
  | Some found => if bool_decide (length found.(rq_members) = 0%nat) then "" else " [covers each of: " +:+ members_text found +:+ "]"
  | None => ""
  end.

(** The refusal that lists what the first candidate owes. *)
Definition incomplete (i : nat) (l : WorkPhaseLedger) : WriteDecision :=
  let gaps := gaps_at i l in
  let governed := match l.(work_items) !! i with Some w => size w.(requirements_of) | None => 0%nat end in
  refuse PLAN_INCOMPLETE (hinted l (WRITE_BLOCKED +:+ " This change is governed by " +:+ pretty (Z.of_nat governed)
    +:+ " requirement(s) and " +:+ pretty (Z.of_nat (length gaps)) +:+ " of them are not answered yet: "
    +:+ String.concat "; " (gap_text l <$> take 6 gaps)
    +:+ ". Only these -- the rest of the contract does not block this edit.")).

(** [may_write]: asking couples the candidates. *)
Definition may_write (path : string) (l : WorkPhaseLedger) : WriteDecision * WorkPhaseLedger :=
  if negb l.(engaged) then (allow, l) else
  if bool_decide (l.(phase) = REVIEW) then
    (refuse REVIEW_IS_READ_ONLY "The normative review is read-only. If it found something the implementation must answer, record the replan and the new evidence first; the write gate reopens with the plan.", l)
  else
  match investigation_gaps l with
  | gap_ :: _ => (refuse gap_ (WRITE_BLOCKED +:+ " " +:+ investigation_detail (investigation_gaps l)), l)
  | [] =>
      if l.(replan_pending) then
        (refuse NO_PLAN (hinted l (WRITE_BLOCKED +:+ " New evidence has made the current plan wrong and nothing has replaced it. Record what you now intend with `" +:+ PLAN_TOOL +:+ "` before changing anything further.")), l)
      else if bool_decide (length l.(work_items) = 0%nat) then
        (refuse NO_PLAN (hinted l (WRITE_BLOCKED +:+ " Nothing has been planned yet. Call `" +:+ PLAN_TOOL +:+ "` for the requirement you intend to satisfy first -- not for all of them: plan the one change you are about to make, with the provision, what the code does now, the gap, the change, and how it will be proved. The rest of the contract stays open and is asked for at the end.")), l)
      else
      let work := if str_true path then work_item_for path l else None in
      match work with
      | None =>
          if str_true path then
            let known := sort_strings (elements (⋃ (paths <$> l.(work_items)) : gset string)) in
            (refuse OUTSIDE_WORK_ITEM ("no planned change covers " +:+ basename path +:+ ". The work planned so far touches: "
               +:+ str_or (String.concat ", " known) "nothing" +:+ ". If this file is part of the change you planned, say so in a `"
               +:+ PLAN_TOOL +:+ "` call naming it; if it is a different change, plan that one."), l)
          else
            let candidates := open_work_items l in
            let '(ready, l) := first_ready candidates l in
            if ready then (allow, l) else
            match candidates with
            | [] => (refuse OUTSIDE_WORK_ITEM ("every planned change is finished and none of them covers this. If there is more to do, plan it with `" +:+ PLAN_TOOL +:+ "`."), l)
            | i :: _ => (incomplete i l, l)
            end
      | Some i =>
          let '(ready, l) := first_ready [i] l in
          if ready then (allow, l) else (incomplete i l, l)
      end
  end.

Definition refuse_write (l : WorkPhaseLedger) : WorkPhaseLedger := l <| refusals ::= Z.add 1 |>.

(** *** Writes and validation *)

Definition named_paths (g : GapItem) : gset string :=
  list_to_set (paths_of (g.(implementation_evidence) +:+ " " +:+ g.(correction))).

(** A planned requirement whose file was written is changed, and waits for
    its proof. *)
Definition note_item (touched : gset string) (s : RequirementSet) (g : GapItem) : RequirementSet :=
  if meets (named_paths g) touched then
    match match_item g.(requirement_evidence) s with
    | Some carried =>
        if bool_decide (carried.(rq_disposition) ∈ [dv CHANGE_PLANNED; dv UNDETERMINED])
        then (dispose carried.(rq_key) (dv CODE_CHANGED_AWAITING_VALIDATION) carried.(rq_note) "harness" s).2 else s
    | None => s
    end
  else s.

Definition note_write (paths_ : list string) (l : WorkPhaseLedger) : WorkPhaseLedger :=
  let l := l <| writes ::= Z.add 1 |> in
  let l := if str_true l.(first_write_phase) then l else l <| first_write_phase := phase_value l.(phase) |> in
  let named := List.filter str_true paths_ in
  let touched : gset string := list_to_set (basename <$> named) in
  let l := l <| written ::= union (list_to_set named) |> in
  if bool_decide (touched = ∅) then l
  else l <| contract ::= λ s, foldl (note_item touched) s l.(plan_items) |>.

Definition passed (r : validation_run) : bool := String.eqb r.(run_status) "passed".

Definition already_validated (command : string) (l : WorkPhaseLedger) : bool :=
  existsb (λ r, String.eqb r.(run_command) command && passed r && (r.(run_generation) =? l.(writes))) l.(validations).

(** A validation that passed; no matter when. *)
Definition validated (l : WorkPhaseLedger) : bool := existsb passed l.(validations).

Definition proves (wrote_a_test : bool) (l : WorkPhaseLedger) (g : GapItem) : bool :=
  String.eqb g.(testability) NOT_PRACTICAL
  || String.eqb g.(testability) EXISTING_PROVEN && validated l
  || String.eqb g.(testability) FOCUSED_PLANNED && validated l && wrote_a_test.

Definition wrote_a_test (l : WorkPhaseLedger) : bool := existsb looks_like_a_test (elements l.(written)).

Definition proven (l : WorkPhaseLedger) : list string := item_key <$> List.filter (proves (wrote_a_test l) l) l.(plan_items).

Definition awaits_proof (r : Requirement) : bool :=
  bool_decide (r.(rq_disposition) ∈ [dv CHANGE_IMPLEMENTED; dv CODE_CHANGED_AWAITING_VALIDATION]).

Definition governs (l : WorkPhaseLedger) : bool := l.(engaged) && negb (bool_decide (set_length l.(contract) = 0%nat)).

Definition unvalidated_requirements (l : WorkPhaseLedger) : list Requirement :=
  if negb (governs l) then [] else
  let awaiting : gset string := list_to_set (rq_key <$> List.filter awaits_proof l.(contract).(items)) in
  let owing := awaiting ∖ list_to_set (proven l) in
  List.filter (λ r, bool_decide (r.(rq_key) ∈ owing)) l.(contract).(items).

Definition settle_one (unproven : list string) (s : RequirementSet) (i : nat) : RequirementSet :=
  match s.(items) !! i with
  | Some found =>
      if String.eqb found.(rq_disposition) (dv CODE_CHANGED_AWAITING_VALIDATION) && negb (bool_decide (found.(rq_key) ∈ unproven))
      then (dispose found.(rq_key) (dv CHANGE_IMPLEMENTED) found.(rq_note) "harness" s).2 else s
  | None => s
  end.

(** The list is replaced in place while it is walked. *)
Definition settle_validated (l : WorkPhaseLedger) : WorkPhaseLedger :=
  if negb (governs l) then l else
  let unproven := rq_key <$> unvalidated_requirements l in
  l <| contract ::= λ s, foldl (settle_one unproven) s (seq 0 (length s.(items))) |>.

Definition close_work_item (w : WorkItem) : WorkItem := w <| closed := true |>.

Definition is_finished (unproven : gset string) (s : RequirementSet) (w : WorkItem) : bool :=
  negb (meets w.(requirements_of) unproven)
  && forallb (λ r, r.(rq_stated) && negb (open r)) (omap (λ key, get_item key s) (elements w.(requirements_of))).

Definition close_finished (l : WorkPhaseLedger) : WorkPhaseLedger :=
  let unproven : gset string := list_to_set (rq_key <$> unvalidated_requirements l) in
  l <| work_items ::= fmap (λ w, if negb w.(closed) && is_finished unproven l.(contract) w then close_work_item w else w) |>.

Definition dict_pop {V} (k : string) (d : dict string V) : dict string V := List.filter (λ kv, negb (String.eqb kv.1 k)) d.

Definition note_validation (command status : string) (covers_ : list string) (l : WorkPhaseLedger) : WorkPhaseLedger :=
  let run := mk_run command status covers_ l.(writes) in
  let l := l <| validations ::= λ rs, rs ++ [run] |> in
  let l := l <| failed_validations ::= λ d,
             if passed run then dict_pop command d else dict_set command (dict_get_default d command 0 + 1) d |> in
  let l := if passed run then close_finished (settle_validated l) else l in
  let l := if bool_decide (l.(phase) = EDIT) then l <| phase := TEST |> else l in
  l <| consecutive_without_evidence := 0 |>.

Definition validation_exhausted (command : string) (l : WorkPhaseLedger) : bool :=
  FAILED_VALIDATION_LIMIT <=? dict_get_default l.(failed_validations) command 0.

Definition lower_words (s : string) : list string := List.filter str_true (re_split NON_WORD (py_lower s)).

Definition answered (l : WorkPhaseLedger) (g : GapItem) : bool :=
  bool_decide (g.(requirement) ∈ l.(validations) ≫= run_covers)
  || let ran := List.filter passed l.(validations) ≫= λ r, lower_words r.(run_command) in
     existsb (λ w, (4 <=? String.length w)%nat && bool_decide (w ∈ ran)) (re_split NON_WORD (py_lower g.(validation))).

Definition unresolved_items (l : WorkPhaseLedger) : list GapItem := List.filter (λ g, negb (answered l g)) l.(plan_items).

(** *** Repetition, and what is left *)

Definition repeating (l : WorkPhaseLedger) : bool :=
  (REPETITION_LIMIT <=? l.(consecutive_without_evidence)) && (l.(syntheses_forced) <? MAX_SYNTHESES).

Definition owes_a_plan (after : Z) (l : WorkPhaseLedger) : bool * WorkPhaseLedger :=
  if negb l.(engaged) || negb (bool_decide (l.(phase) = PLAN)) || (MAX_PLAN_DEMANDS <=? l.(plan_demands))
     || (l.(calls_since_investigated) <? after)
  then (false, l)
  else (true, l <| plan_demands ::= Z.add 1 |> <| calls_since_investigated := 0 |>).

Definition plan_demand_ignored (l : WorkPhaseLedger) : bool :=
  l.(engaged) && (MAX_PLAN_DEMANDS <=? l.(plan_demands)) && bool_decide (l.(phase) = PLAN).

Definition branch_gaps (l : WorkPhaseLedger) : dict string string :=
  foldl (λ d g, if str_true g.(branch_gap) then dict_set (item_key g) g.(branch_gap) d else d) [] l.(plan_items).

Definition awaiting_validation (l : WorkPhaseLedger) : list Requirement :=
  List.filter (λ r, String.eqb r.(rq_disposition) (dv CODE_CHANGED_AWAITING_VALIDATION)) l.(contract).(items).

Definition build_broken_for (l : WorkPhaseLedger) : list Requirement :=
  if bool_decide (length l.(failed_validations) = 0%nat) then [] else awaiting_validation l.

Definition next_open_requirements (l : WorkPhaseLedger) : list Requirement :=
  let taken : gset string := ⋃ (requirements_of <$> l.(work_items)) in
  List.filter (λ r, negb (bool_decide (r.(rq_key) ∈ taken)) && open r) (in_scope l.(contract)).

Definition contract_closed (l : WorkPhaseLedger) : bool :=
  governs l && bool_decide (length (open_items l.(contract)) = 0%nat) && bool_decide (length (unstated l.(contract)) = 0%nat)
  && bool_decide (length (unvalidated_requirements l) = 0%nat) && bool_decide (length l.(failed_validations) = 0%nat).

Definition blocked_work_items (l : WorkPhaseLedger) : gmap string (gset string) :=
  let done : gset string := list_to_set (work_key <$> List.filter closed l.(work_items)) in
  foldl (λ m w, foldl (λ m key, <[key := {[w.(work_key)]} ∪ default ∅ (m !! key)]> m) m (elements (w.(depends_on) ∖ done)))
    ∅ (List.filter (λ w, negb w.(closed)) l.(work_items)).

Definition force_synthesis (l : WorkPhaseLedger) : Phase * WorkPhaseLedger :=
  (l.(phase), l <| syntheses_forced ::= Z.add 1 |> <| consecutive_without_evidence := 0 |>).

Definition begin_review (l : WorkPhaseLedger) : WorkPhaseLedger :=
  if l.(engaged) && bool_decide (l.(phase) ∈ [EDIT; TEST]) then l <| phase := REVIEW |> else l.

Definition finish (l : WorkPhaseLedger) : WorkPhaseLedger := if l.(engaged) then l <| phase := DONE |> else l.

Definition WorkPhaseLedger_to_dict (l : WorkPhaseLedger) : json :=
  JObj [("schema_version", JInt 1); ("engaged", JBool l.(engaged)); ("phase", JStr (phase_value l.(phase)));
        ("evidence", Evidence_to_dict l.(evidence)); ("plan_items", JList (GapItem_to_dict <$> l.(plan_items)));
        ("rejected_items", JList ((λ v, JObj (("reason", JStr v.(vd_reason)) :: GapItem_fields v.(vd_item))) <$> l.(rejected)));
        ("replans", JList ((λ r, JObj [("reason", JStr r.(rp_reason)); ("invalidated", JStr r.(rp_invalidated));
                                       ("evidence", JStr r.(rp_evidence))]) <$> l.(replans)));
        ("first_write_phase", JStr l.(first_write_phase)); ("writes", JInt l.(writes)); ("write_refusals", JInt l.(refusals));
        ("validations", JList ((λ r, JObj [("command", JStr r.(run_command)); ("status", JStr r.(run_status));
                                           ("covers", JList (JStr <$> r.(run_covers))); ("generation", JInt r.(run_generation))])
                               <$> l.(validations)));
        ("unresolved_items", JList (JStr ∘ requirement <$> unresolved_items l)); ("syntheses_forced", JInt l.(syntheses_forced));
        ("work_items", JList (WorkItem_to_dict <$> l.(work_items))); ("requirements", RequirementSet_to_dict l.(contract));
        ("requirement_matrix", JList (matrix l.(contract)));
        ("requirements_open", JList (JStr ∘ rq_key <$> open_items l.(contract)))].
