(* ===== verification/WorkPhaseFacts.v ===== *)
(** * The lifecycle of a change: what each operation leaves alone *)

From Stdlib Require Import Ascii.
From S2P Require Import Prelude Texts Values Regex RequirementSet RequirementSetProps WorkPhase.

#[local] Open Scope Z_scope.
Open Scope py_scope.

(** ** What the evidence backs stays backed *)

(** [e'] shows at least what [e] shows. *)
Definition shows_more (e e' : EvidenceState) : Prop :=
  e.(authority_keys) ⊆ e'.(authority_keys) ∧ e.(implementation_files) ⊆ e'.(implementation_files) ∧
  e.(authority_units) <= e'.(authority_units).

Lemma shows_more_refl e : shows_more e e.
Proof. unfold shows_more. set_solver by lia. Qed.

Lemma shows_more_trans e1 e2 e3 : shows_more e1 e2 → shows_more e2 e3 → shows_more e1 e3.
Proof. intros (? & ? & ?) (? & ? & ?). split_and!; [set_solver..|lia]. Qed.

Lemma observe_authority_more found units e : shows_more e (observe_authority found units e).
Proof. destruct e. unfold shows_more, observe_authority, set_field; cbn. split_and!; [set_solver..|lia]. Qed.

Lemma observe_implementation_more files e : shows_more e (observe_implementation files e).
Proof. destruct e. unfold shows_more, observe_implementation, set_field; cbn. split_and!; [set_solver..|lia]. Qed.

Lemma backs_requirement_more c e e' : shows_more e e' → backs_requirement c e = true → backs_requirement c e' = true.
Proof.
  intros (Hk & _ & _). unfold backs_requirement. rewrite !orb_true_iff. cbv zeta.
  assert (∀ s, s ∈ List.filter numbered (elements e.(authority_keys)) → s ∈ List.filter numbered (elements e'.(authority_keys))) as Hread.
  { intros s. rewrite !elem_of_filter_list, !elem_of_elements. set_solver. }
  intros [Hh|Hs]; [left|right].
  - revert Hh. apply existsb_impl. intros h _. rewrite !bool_decide_eq_true. set_solver.
  - revert Hs. apply existsb_impl. intros s _. rewrite !orb_true_iff, !bool_decide_eq_true.
    intros [?|?]; [left; auto|right; by eapply existsb_subset].
Qed.

Lemma backs_implementation_more c e e' : shows_more e e' → backs_implementation c e = true → backs_implementation c e' = true.
Proof.
  intros (_ & Hf & _). unfold backs_implementation. apply existsb_impl. intros n _. rewrite !andb_true_iff, !bool_decide_eq_true.
  set_solver.
Qed.

(** ** Which requirements a set holds *)

(** What never changes of a requirement, and a history that only grows. *)
Record advanced (r r' : Requirement) : Prop := {
  adv_key : r'.(rq_key) = r.(rq_key);
  adv_section : r'.(rq_section) = r.(rq_section);
  adv_source : r'.(rq_source_id) = r.(rq_source_id);
  adv_statement : r'.(rq_statement) = r.(rq_statement);
  adv_trigger : r'.(rq_trigger) = r.(rq_trigger);
  adv_origin : r'.(rq_origin) = r.(rq_origin);
  adv_stated : r.(rq_stated) = true → r'.(rq_stated) = true;
  adv_history : r.(rq_history) `prefix_of` r'.(rq_history);
}.

#[export] Instance advanced_preorder : PreOrder advanced.
Proof.
  split.
  - intros r. by split.
  - intros r1 r2 r3 [] []. split; try congruence; [naive_solver|by etrans].
Qed.

Lemma disposed_advanced d n b r : advanced r (disposed d n b r).
Proof. destruct r. split; try done. by apply prefix_app_r. Qed.

(** The same requirements, in the same order, each no younger. *)
Definition keeps (s s' : RequirementSet) : Prop := Forall2 advanced s.(items) s'.(items) ∧ s'.(set_origin) = s.(set_origin).

#[export] Instance keeps_preorder : PreOrder keeps.
Proof.
  split.
  - intros s. split; [|done]. induction s.(items); constructor; [reflexivity|done].
  - intros s1 s2 s3 [H1 E1] [H2 E2]. split; [|congruence]. revert H1 H2. generalize s1.(items), s2.(items), s3.(items).
    intros l1 l2 l3 H12 H23. revert l3 H23. induction H12 as [|x y l1 l2 Hxy _ IH]; intros l3 H23; inversion H23; subst; constructor; [by etrans|auto].
Qed.

Lemma Forall2_alter_r {A} (R : relation A) `{Reflexive A R} (f : A → A) i l : (∀ x, R x (f x)) → Forall2 R l (alter f i l).
Proof.
  intros Hf. assert (∀ l, Forall2 R l l) as Hr by (intros l'; induction l'; constructor; auto).
  revert i. induction l as [|x l IH]; intros [|i]; cbn; [constructor..| |]; constructor; auto.
Qed.

Lemma dispose_keeps k d n b s : keeps s (dispose k d n b s).2.
Proof.
  unfold dispose. destruct (target_index k s) as [i|]; [|reflexivity]. destruct s. split; [|done].
  unfold set_field; cbn. apply Forall2_alter_r; [apply _|]. intros r. apply disposed_advanced.
Qed.

(** Disposing gives one requirement the disposition and leaves the others. *)
Lemma dispose_lookup k d n b s i r' : (dispose k d n b s).2.(items) !! i = Some r' →
  s.(items) !! i = Some r' ∨ (target_index k s = Some i ∧ ∃ r, s.(items) !! i = Some r ∧ r' = disposed d n b r).
Proof.
  unfold dispose. destruct (target_index k s) as [j|]; [|by left]. destruct s as [l o]. unfold set_field; cbn.
  destruct (decide (j = i)) as [->|Hne].
  - rewrite list_lookup_alter_eq. intros (r & Hr & Hd)%fmap_Some. right. eauto.
  - rewrite list_lookup_alter_ne by done. by left.
Qed.

Lemma foldl_keeps {B} (f : RequirementSet → B → RequirementSet) l s : (∀ s b, keeps s (f s b)) → keeps s (foldl f s l).
Proof. intros Hf. apply (foldl_invariant (keeps s)); [reflexivity|]. intros a b _ Ha. by etrans. Qed.

(** ** Judging *)

Section judging.
  Context (repr : string → string).

(** An accepted item, and the state it is judged in. *)
Record backed_item (e : EvidenceState) (g : GapItem) : Prop := {
  bk_fields : missing g = [];
  bk_requirement : g.(bound_to) ≠ "" ∨ backs_requirement g.(requirement_evidence) e = true;
  bk_implementation : backs_implementation g.(implementation_evidence) e = true;
  bk_design : plans_a_change g = true → g.(testability) ≠ "";
}.

Lemma backed_item_more e e' g : shows_more e e' → backed_item e g → backed_item e' g.
Proof.
  intros He [H1 H2 H3 H4]. split; [done| |by eapply backs_implementation_more|done].
  destruct H2; [by left|right]. by eapply backs_requirement_more.
Qed.

(** What changes of a ledger when an item is judged: what was asked. *)
Record asks_only (l l' : WorkPhaseLedger) : Prop := {
  ao_rest : ∃ b c p, l' = l <| branch_asked := b |> <| context_asked := c |> <| point_asked := p |>;
}.

Lemma asks_only_refl l : asks_only l l.
Proof. split. exists l.(branch_asked), l.(context_asked), l.(point_asked). by destruct l. Qed.

Lemma asks_only_trans l1 l2 l3 : asks_only l1 l2 → asks_only l2 l3 → asks_only l1 l3.
Proof. intros [(b & c & p & ->)] [(b' & c' & p' & ->)]. split. exists b', c', p'. by destruct l1. Qed.

Lemma asks_point l f : asks_only l (l <| point_asked ::= f |>).
Proof. split. exists l.(branch_asked), l.(context_asked), (f l.(point_asked)). by destruct l. Qed.
Lemma asks_context l f : asks_only l (l <| context_asked ::= f |>).
Proof. split. exists l.(branch_asked), (f l.(context_asked)), l.(point_asked). by destruct l. Qed.
Lemma asks_branch l f : asks_only l (l <| branch_asked ::= f |>).
Proof. split. exists (f l.(branch_asked)), l.(context_asked), l.(point_asked). by destruct l. Qed.

Lemma with_gaps_same g l : ∃ b, with_gaps g l = g <| branch_gap := b |>.
Proof.
  unfold with_gaps. destruct (moves_without_sites g), (tests_one_side _ _); destruct g; eexists; reflexivity.
Qed.

Lemma judge_asks g declared l : asks_only l (judge repr g declared l).2.
Proof.
  unfold judge. destruct (settled_reason _ _ _); [apply asks_only_refl|]. destruct (unbacked_reason _ _ _); [apply asks_only_refl|].
  cbv zeta. repeat case_match; first [apply asks_only_refl|apply asks_point|apply asks_context|apply asks_branch].
Qed.

Lemma unbacked_none g l : unbacked_reason repr g l = None ↔
  missing g = [] ∧ (g.(bound_to) ≠ "" ∨ backs_requirement g.(requirement_evidence) l.(evidence) = true).
Proof.
  unfold unbacked_reason. rewrite <- str_true_spec. destruct (missing g); [|naive_solver].
  destruct (str_true (bound_to g)), (backs_requirement _ _); cbn; naive_solver.
Qed.

(** An item is accepted when the facts are for it and each of the three
    judgements of wording was met or asked before. *)
Lemma judge_accepts g declared l : (judge repr g declared l).1.(vd_accepted) = true →
  (judge repr g declared l).2 = l ∧ (judge repr g declared l).1.(vd_item) = with_gaps g l ∧
  settled_reason g declared l = None ∧ unbacked_reason repr g l = None ∧
  (plans_a_change g = true → design_of g l ≠ "") ∧ backs_implementation g.(implementation_evidence) l.(evidence) = true.
Proof.
  unfold judge. destruct (settled_reason _ _ _); [done|]. destruct (unbacked_reason _ _ _) eqn:Hu; [done|]. cbv zeta.
  rewrite <- str_true_spec.
  destruct (str_true (carried_trigger g l) && _ && _); [done|]. destruct (moves_without_sites g && _); [done|].
  destruct (tests_one_side g l && _); [done|]. destruct (plans_a_change g), (str_true (design_of g l)); cbn [andb negb]; try done;
    destruct (backs_implementation _ _); cbn; naive_solver.
Qed.
End judging.

(** ** Recording a plan *)

(** Two ledgers that differ in the plan and its work items at most. *)
Record plans_only (l l' : WorkPhaseLedger) : Prop := {
  po_engaged : l'.(engaged) = l.(engaged);
  po_phase : l'.(phase) = l.(phase);
  po_evidence : l'.(evidence) = l.(evidence);
  po_contract : l'.(contract) = l.(contract);
  po_pending : l'.(replan_pending) = l.(replan_pending);
  po_validations : l'.(validations) = l.(validations);
  po_failed : l'.(failed_validations) = l.(failed_validations);
  po_written : l'.(written) = l.(written);
  po_writes : l'.(writes) = l.(writes);
  po_demands : l'.(plan_demands) = l.(plan_demands);
}.

#[export] Instance plans_only_preorder : PreOrder plans_only.
Proof. split; [by split|]. intros l1 l2 l3 [] []. split; congruence. Qed.

Lemma asks_plans_only l l' : asks_only l l' → plans_only l l'.
Proof. intros [(b & c & p & ->)]. by destruct l. Qed.

Lemma plans_only_plan l f g h : plans_only l (l <| plan_items ::= f |> <| planned_at ::= g |> <| work_items ::= h |>).
Proof. by destruct l. Qed.

Lemma place_and_couple_frame g l :
  plans_only l (place_and_couple g l) ∧ (place_and_couple g l).(plan_items) = l.(plan_items)
  ∧ (place_and_couple g l).(planned_at) = l.(planned_at) ∧ (place_and_couple g l).(work_items) ≠ [].
Proof.
  unfold place_and_couple, place, couple. destruct (find_index _ _) as [i|] eqn:Hi.
  - destruct l; unfold set_field; cbn in *. split; [by split|]. split; [done|]. split; [done|].
    destruct work_items; [done|]. by destruct i.
  - destruct l; unfold set_field; cbn. split; [by split|]. split; [done|]. split; [done|].
    intros Hn%(f_equal length). rewrite length_alter, length_app in Hn. cbn in Hn. lia.
Qed.

Lemma known_at_spec id l :
  match known_at id l with
  | Some i => ∃ g, l.(plan_items) !! i = Some g ∧ identity g = id
  | None => ∀ g, g ∈ l.(plan_items) → identity g ≠ id
  end.
Proof.
  unfold known_at. set (f := λ (found : option nat) (p : nat * GapItem), _).
  assert (∀ gs k acc, match foldl f acc (imap (λ i g, (k + i, g)%nat) gs) with
    | Some i => acc = Some i ∨ ∃ j g, i = (k + j)%nat ∧ gs !! j = Some g ∧ identity g = id
    | None => acc = None ∧ ∀ g, g ∈ gs → identity g ≠ id end) as Hgen.
  { clear l. intros gs. induction gs as [|g gs IH]; intros k acc; cbn [imap foldl].
    - destruct acc; [by left|]. split; [done|]. by intros g ?%elem_of_nil.
    - rewrite Nat.add_0_r. change (imap _ gs) with (imap (λ i g, (k + S i, g)%nat) gs).
      rewrite (imap_ext _ (λ i g, (S k + i, g)%nat)) by (intros; f_equal; lia). specialize (IH (S k) (f acc (k, g))).
      destruct (foldl _ _ _) as [i|].
      + destruct IH as [IH|(j & g' & -> & Hj & Hid)]; [|right; exists (S j), g'; split; [lia|done]].
        unfold f in IH. cbn in IH. destruct (String.eqb_spec (identity g) id) as [Heq|]; [|by left].
        right. exists 0%nat, g. split; [|done]. injection IH as <-. lia.
      + destruct IH as [Ha IH]. unfold f in Ha. cbn in Ha. destruct (String.eqb_spec (identity g) id); [done|].
        split; [done|]. intros g' [->|?]%elem_of_cons; auto. }
  specialize (Hgen l.(plan_items) 0%nat None). change (imap (λ i g, (0 + i, g)%nat) (plan_items l)) with (imap pair (plan_items l)) in Hgen.
  destruct (foldl _ _ _) as [i|].
  - destruct Hgen as [|(j & g & -> & Hg)]; [done|]. by exists g.
  - by destruct Hgen.
Qed.

Lemma enter_frame g l :
  plans_only l (enter g l) ∧ (enter g l).(work_items) ≠ [] ∧
  (∃ old, (enter g l).(plan_items) = old ++ [g] ∧ old = l.(plan_items) ∧ (∀ g', g' ∈ l.(plan_items) → identity g' ≠ identity g)) ∨
  plans_only l (enter g l) ∧ (enter g l).(work_items) ≠ [] ∧
  (∃ i g', l.(plan_items) !! i = Some g' ∧ identity g' = identity g ∧ (enter g l).(plan_items) = <[i := g]> l.(plan_items)).
Proof.
  unfold enter. pose proof (known_at_spec (identity g) l) as Hk. destruct (known_at (identity g) l) as [i|]; [right|left].
  - destruct Hk as (g' & Hg' & Hid). cbv zeta.
    match goal with |- context [place_and_couple g ?l'] => destruct (place_and_couple_frame g l') as (Hp & Hpl & _ & Hw); set (l1 := l') in * end.
    assert (plans_only l l1 ∧ l1.(plan_items) = <[i := g]> l.(plan_items)) as [Hl Hi].
    { unfold l1. destruct (negb _); destruct l; by split. }
    split; [by etrans|]. split; [done|]. exists i, g'. split_and!; [done..|]. by rewrite Hpl.
  - match goal with |- context [place_and_couple g ?l'] => destruct (place_and_couple_frame g l') as (Hp & Hpl & _ & Hw); set (l1 := l') in * end.
    assert (plans_only l l1 ∧ l1.(plan_items) = l.(plan_items) ++ [g]) as [Hl Hi] by (unfold l1; destruct l; by split).
    split; [by etrans|]. split; [done|]. exists l.(plan_items). split_and!; [by rewrite Hpl|done..].
Qed.

(** The items of a plan: of the facts, and one per provision. *)
Lemma enter_invariant (P : GapItem → Prop) g l :
  P g → Forall P l.(plan_items) → NoDup (identity <$> l.(plan_items)) →
  Forall P (enter g l).(plan_items) ∧ NoDup (identity <$> (enter g l).(plan_items)) ∧ plans_only l (enter g l).
Proof.
  intros Hg HP Hnd. destruct (enter_frame g l) as [(Hp & _ & old & -> & -> & Hnew)|(Hp & _ & i & g' & Hi & Hid & ->)].
  - split_and!; [apply Forall_app; auto| |done]. rewrite fmap_app. apply NoDup_app. split_and!; [done| |apply NoDup_singleton].
    intros id (g' & -> & Hg')%list_elem_of_fmap. cbn. rewrite list_elem_of_singleton. by apply Hnew.
  - split_and!; [by apply Forall_insert| |done]. rewrite list_fmap_insert, list_insert_id; [done|].
    rewrite list_lookup_fmap, Hi. cbn. by f_equal.
Qed.

Section recording.
  Context (repr : string → string).

Lemma judge_all_spec declared raw l :
  asks_only l (judge_all repr declared raw l).2 ∧
  ∀ v, v ∈ (judge_all repr declared raw l).1 →
    ∃ l1 r, asks_only l l1 ∧ v = (judge repr (bound l1 (from_mapping r)) declared l1).1.
Proof.
  revert l. induction raw as [|r raw IH]; intros l; cbn [judge_all].
  - split; [apply asks_only_refl|]. by intros v ?%elem_of_nil.
  - destruct (judge repr _ _ l) as [v l1] eqn:Hj. pose proof (judge_asks repr (bound l (from_mapping r)) declared l) as Ha.
    rewrite Hj in Ha. cbn in Ha. specialize (IH l1). destruct (judge_all repr declared raw l1) as [vs l2]. cbn in *.
    destruct IH as [IH1 IH2]. split; [by eapply asks_only_trans|]. intros v' [->|Hv]%elem_of_cons.
    + exists l, r. split; [apply asks_only_refl|]. by rewrite Hj.
    + destruct (IH2 v' Hv) as (l3 & r' & H3 & ->). exists l3, r'. split; [by eapply asks_only_trans|done].
Qed.

Lemma conclude_plan_frame accepted refused l :
  let l' := conclude_plan accepted refused l in
  l'.(contract) = foldl (λ s v, dispose_item v.(vd_item) s) l.(contract) accepted ∧
  l'.(replan_pending) = (if negb (bool_decide (length accepted = 0%nat)) then false else l.(replan_pending)) ∧
  l'.(plan_items) = l.(plan_items) ∧ l'.(work_items) = l.(work_items) ∧ l'.(evidence) = l.(evidence) ∧
  l'.(engaged) = l.(engaged) ∧ l'.(validations) = l.(validations) ∧ l'.(failed_validations) = l.(failed_validations) ∧
  l'.(written) = l.(written) ∧ l'.(writes) = l.(writes) ∧ l'.(plan_demands) = l.(plan_demands).
Proof.
  unfold conclude_plan. cbv zeta. destruct (negb (bool_decide (length accepted = 0%nat))), (negb _ && _); destruct l; by split_and!.
Qed.

(** What a recorded plan is made of. *)
Lemma record_plan_spec raw supersedes why evidence_ l :
  let '(a, l') := record_plan repr raw supersedes why evidence_ l in
  let declared := str_true supersedes || str_true evidence_ in
  (∀ v, v ∈ a.(accepted_items) → v.(vd_accepted) = true ∧
     ∃ l1 r, asks_only l l1 ∧ v = (judge repr (bound l1 (from_mapping r)) declared l1).1) ∧
  l'.(contract) = foldl (λ s v, dispose_item v.(vd_item) s) l.(contract) a.(accepted_items) ∧
  l'.(evidence) = l.(evidence) ∧ l'.(engaged) = l.(engaged) ∧ l'.(validations) = l.(validations) ∧
  l'.(failed_validations) = l.(failed_validations) ∧ l'.(written) = l.(written) ∧ l'.(writes) = l.(writes) ∧
  l'.(plan_demands) = l.(plan_demands) ∧
  l'.(replan_pending) = (if any_accepted a then false else l.(replan_pending)) ∧
  (∃ kept, (∀ P, Forall P l.(plan_items) → Forall P kept) ∧ (NoDup (identity <$> l.(plan_items)) → NoDup (identity <$> kept)) ∧
     (a.(accepted_items) = [] → kept = l.(plan_items)) ∧
     ∃ l2, plans_only l l2 ∧ l2.(plan_items) = kept ∧ (a.(accepted_items) = [] → l2.(work_items) = l.(work_items)) ∧
           l'.(plan_items) = (foldl (λ l v, enter v.(vd_item) l) l2 a.(accepted_items)).(plan_items) ∧
           l'.(work_items) = (foldl (λ l v, enter v.(vd_item) l) l2 a.(accepted_items)).(work_items)).
Proof.
  unfold record_plan. destruct (judge_all repr _ raw l) as [verdicts l1] eqn:Hj.
  pose proof (judge_all_spec (str_true supersedes || str_true evidence_) raw l) as [Ha Hv]. rewrite Hj in Ha, Hv. cbn [fst snd] in Ha, Hv.
  cbv zeta. set (accepted := List.filter vd_accepted verdicts). set (some := negb (bool_decide (length accepted = 0%nat))).
  set (l2 := if str_true supersedes && some then _ else _).
  assert (plans_only l l2 ∧ l2.(work_items) = l.(work_items) ∧
    l2.(plan_items) = if str_true supersedes && some then without_requirement supersedes l.(plan_items) else l.(plan_items)) as (Hp2 & Hw2 & Hi2).
  { destruct Ha as [(b & c & p & ->)]. unfold l2. destruct (str_true supersedes || str_true why), (str_true supersedes && some); by destruct l. }
  clearbody l2. set (l3 := foldl _ l2 accepted).
  assert (plans_only l2 l3) as Hp3.
  { unfold l3. apply (foldl_invariant (plans_only l2)); [reflexivity|]. intros l4 v _ H4. etrans; [exact H4|].
    destruct (enter_frame v.(vd_item) l4) as [[? _]|[? _]]; done. }
  assert (some = negb (bool_decide (length accepted = 0%nat))) as Hsome by done.
  assert (any_accepted (mk_acceptance accepted (List.filter (λ v, negb (vd_accepted v)) verdicts)) = some) as Hany by done.
  destruct Hp2 as [H1 H2 H3 H4 H5 H6 H7 H8 H9 H10], Hp3 as [K1 K2 K3 K4 K5 K6 K7 K8 K9 K10].
  match goal with |- context [mk_acceptance accepted ?r] => set (refused := r) in * end.
  split.
  { intros v [Hva Hvin]%elem_of_filter_list. split; [done|]. by apply Hv. }
  rewrite Hany. clear Hany.
  assert (∃ kept, (∀ P, Forall P l.(plan_items) → Forall P kept) ∧ (NoDup (identity <$> l.(plan_items)) → NoDup (identity <$> kept)) ∧
     (accepted = [] → kept = l.(plan_items)) ∧ l2.(plan_items) = kept) as (kept & Hk1 & Hk2 & Hk3 & Hk4).
  { exists l2.(plan_items). rewrite Hi2. destruct (str_true supersedes && some) eqn:Hs.
    - split_and!; try done.
      + intros P HP. apply Forall_forall. intros g [_ Hg]%elem_of_filter_list. by eapply Forall_forall in HP.
      + apply NoDup_fmap_filter.
      + intros ->. apply andb_true_iff in Hs as [_ Hs]. done.
    - done. }
  destruct (conclude_plan_frame accepted refused l3) as (-> & -> & -> & -> & -> & -> & -> & -> & -> & -> & ->).
  cbn [accepted_items]. fold some. split_and!.
  all: try (etrans; eassumption).
  { by rewrite K4, H4. }
  { by rewrite K5, H5. }
  exists kept. split; [exact Hk1|]. split; [exact Hk2|]. split; [exact Hk3|]. exists l2. split; [by split|].
  split; [exact Hk4|]. split; [by intros _|]. by split.
Qed.
End recording.
