(* ===== verification/WorkPhaseProps.v ===== *)
(** * The lifecycle of a change: what a turn guarantees

    The plan is backed by what was read, requirements are never lost, their
    dispositions follow one lifecycle, and an invalidated plan is replaced
    before anything is written. *)

From Stdlib Require Import Ascii.
From S2P Require Import Prelude Texts Values Regex RequirementSet RequirementSetProps WorkPhase WorkPhaseFacts.

#[local] Open Scope Z_scope.
Open Scope py_scope.

Section turns.
  Context (repr : string → string).

(** ** The operations of a turn *)

Inductive operation :=
  | Observe (found : list string) (units : Z) (files : list string)
  | RecordPlan (raw : list (dict string string)) (supersedes why evidence_ : string)
  | Invalidate (why invalidated evidence_ : string)
  | MayWrite (path : string)
  | RefuseWrite
  | NoteWrite (paths_ : list string)
  | NoteValidation (command status : string) (covers_ : list string)
  | SettleValidated
  | OwesAPlan (after : Z)
  | ForceSynthesis
  | BeginReview
  | Finish.

Definition step (o : operation) (l : WorkPhaseLedger) : WorkPhaseLedger :=
  match o with
  | Observe found units files => observe_call found units files l
  | RecordPlan raw supersedes why evidence_ => (record_plan repr raw supersedes why evidence_ l).2
  | Invalidate why invalidated evidence_ => invalidate why invalidated evidence_ l
  | MayWrite path => (may_write path l).2
  | RefuseWrite => refuse_write l
  | NoteWrite paths_ => note_write paths_ l
  | NoteValidation command status covers_ => note_validation command status covers_ l
  | SettleValidated => settle_validated l
  | OwesAPlan after => (owes_a_plan after l).2
  | ForceSynthesis => (force_synthesis l).2
  | BeginReview => begin_review l
  | Finish => finish l
  end.

Definition turn (l : WorkPhaseLedger) (ops : list operation) : WorkPhaseLedger := foldl (λ l o, step o l) l ops.

Lemma turn_invariant (P : WorkPhaseLedger → Prop) l ops : P l → (∀ o l, P l → P (step o l)) → P (turn l ops).
Proof. intros Hl Hs. apply (foldl_invariant P); [done|]. intros l' o _. apply Hs. Qed.

(** ** What each leaves alone *)

(** What no operation but those on the plan and its evidence changes. *)
Record quiet (l l' : WorkPhaseLedger) : Prop := {
  qt_plan : l'.(plan_items) = l.(plan_items);
  qt_evidence : l'.(evidence) = l.(evidence);
  qt_engaged : l'.(engaged) = l.(engaged);
  qt_pending : l'.(replan_pending) = l.(replan_pending);
  qt_contract : keeps l.(contract) l'.(contract);
  qt_demands : l'.(plan_demands) = l.(plan_demands);
}.

#[export] Instance quiet_preorder : PreOrder quiet.
Proof. split; [by split|]. intros l1 l2 l3 [] []. split; [congruence..|by etrans|congruence]. Qed.

#[local] Ltac solve_quiet l := destruct l; split; reflexivity.

Lemma quiet_work f l : quiet l (l <| work_items ::= f |>).
Proof. by destruct l. Qed.
Lemma quiet_phase p l : quiet l (l <| phase := p |>).
Proof. by destruct l. Qed.
Lemma quiet_progress n l : quiet l (l <| consecutive_without_evidence := n |>).
Proof. by destruct l. Qed.
Lemma quiet_contract f l : keeps l.(contract) (f l.(contract)) → quiet l (l <| contract ::= f |>).
Proof. by destruct l. Qed.

Lemma first_ready_quiet candidates l : quiet l (first_ready candidates l).2.
Proof.
  revert l. induction candidates as [|i candidates IH]; intros l; cbn [first_ready]; [reflexivity|].
  assert (quiet l (couple i l)) as Hc by apply quiet_work. destruct (gaps_at i _); [done|]. etrans; [exact Hc|apply IH].
Qed.

Lemma may_write_quiet path l : quiet l (may_write path l).2.
Proof.
  unfold may_write. destruct (engaged l); [|reflexivity]. cbn [negb]. case_bool_decide; [reflexivity|].
  destruct (investigation_gaps l); [|reflexivity]. destruct (replan_pending l); [reflexivity|]. case_bool_decide; [reflexivity|].
  destruct (if str_true path then work_item_for path l else None) as [i|].
  - pose proof (first_ready_quiet [i] l) as Hq. destruct (first_ready [i] l) as [[] l']; exact Hq.
  - destruct (str_true path); [reflexivity|]. pose proof (first_ready_quiet (open_work_items l) l) as Hq.
    destruct (first_ready _ l) as [[] l']; [exact Hq|]. destruct (open_work_items l); exact Hq.
Qed.

(** Two ledgers that differ in what was seen at most. *)
Record seen_more (l l' : WorkPhaseLedger) : Prop := {
  sm_contract : l'.(contract) = l.(contract);
  sm_plan : l'.(plan_items) = l.(plan_items);
  sm_work : l'.(work_items) = l.(work_items);
  sm_engaged : l'.(engaged) = l.(engaged);
  sm_pending : l'.(replan_pending) = l.(replan_pending);
  sm_demands : l'.(plan_demands) = l.(plan_demands);
  sm_evidence : shows_more l.(evidence) l'.(evidence);
}.

Lemma seen_more_trans l1 l2 l3 : seen_more l1 l2 → seen_more l2 l3 → seen_more l1 l3.
Proof. intros [] []. split; try congruence. by eapply shows_more_trans. Qed.

Lemma seen_evidence f l : shows_more l.(evidence) (f l.(evidence)) → seen_more l (l <| evidence ::= f |>).
Proof. by destruct l; split. Qed.

Lemma count_progress_seen gained l : seen_more l (count_progress gained l).
Proof. destruct gained, l; split; try done; apply shows_more_refl. Qed.

Lemma open_plan_seen l : seen_more l (open_plan l).
Proof. unfold open_plan. case_match; destruct l; split; try done; apply shows_more_refl. Qed.

Lemma observe_call_frame found units files l : seen_more l (observe_call found units files l).
Proof.
  unfold observe_call. set (l1 := set_field evidence (observe_authority found 0) l). set (l2 := set_field evidence _ l1).
  set (l3 := set_field evidence (observe_implementation files) l2). cbv zeta.
  assert (seen_more l l3) as H3.
  { eapply seen_more_trans; [apply seen_evidence, (observe_authority_more found 0)|].
    eapply seen_more_trans; [|apply seen_evidence, observe_implementation_more].
    apply (seen_evidence (set_field authority_units (Z.max units))). destruct l1.(evidence).
    split_and!; [done..|apply Z.le_max_r]. }
  clearbody l3. set (l4 := count_progress _ l3). assert (seen_more l l4) as H4 by (eapply seen_more_trans; [exact H3|apply count_progress_seen]).
  clearbody l4. set (l5 := open_plan l4). assert (seen_more l l5) as H5 by (eapply seen_more_trans; [exact H4|apply open_plan_seen]).
  clearbody l5. case_match; [|done]. eapply seen_more_trans; [exact H5|]. destruct l5; split; try done; apply shows_more_refl.
Qed.

Lemma settle_keeps unproven s l : keeps s (foldl (settle_one unproven) s l).
Proof.
  apply foldl_keeps. intros s' i. unfold settle_one. destruct (_ !! i); [|reflexivity].
  case_match; [apply dispose_keeps|reflexivity].
Qed.

Lemma note_items_keeps touched gs s : keeps s (foldl (note_item touched) s gs).
Proof.
  apply foldl_keeps. intros s' g. unfold note_item. repeat case_match; first [apply dispose_keeps|reflexivity].
Qed.

Lemma settle_validated_quiet l : quiet l (settle_validated l).
Proof. unfold settle_validated. destruct (negb _); [reflexivity|]. apply quiet_contract, settle_keeps. Qed.

Lemma note_validation_quiet command status covers_ l : quiet l (note_validation command status covers_ l).
Proof.
  unfold note_validation. set (run := mk_run _ _ _ _). set (l1 := set_field validations _ l). set (l2 := set_field failed_validations _ l1).
  cbv zeta. assert (quiet l l2) as H2 by by destruct l. clearbody l2.
  set (l3 := if passed run then _ else l2). assert (quiet l l3) as H3.
  { unfold l3. destruct (passed run); [|done]. etrans; [exact H2|]. etrans; [apply settle_validated_quiet|]. apply quiet_work. }
  clearbody l3. etrans; [exact H3|]. etrans; [|apply quiet_progress]. case_bool_decide; [apply quiet_phase|reflexivity].
Qed.

Lemma note_write_quiet paths_ l : quiet l (note_write paths_ l).
Proof.
  unfold note_write. set (l1 := set_field writes _ l). assert (quiet l l1) as H1 by by destruct l. clearbody l1.
  set (l2 := if str_true _ then l1 else _). assert (quiet l l2) as H2.
  { unfold l2. destruct (str_true _); [done|]. etrans; [exact H1|]. by destruct l1. }
  clearbody l2. cbv zeta. set (l3 := set_field written _ l2). assert (quiet l l3) as H3 by (etrans; [exact H2|]; by destruct l2).
  clearbody l3. case_bool_decide; [done|]. etrans; [exact H3|]. apply quiet_contract, note_items_keeps.
Qed.

(** The operations that are about the plan, its evidence or the demand for it. *)
Definition plans (o : operation) : bool :=
  match o with Observe _ _ _ | RecordPlan _ _ _ _ | Invalidate _ _ _ | OwesAPlan _ => true | _ => false end.

Lemma quiet_step o l : plans o = false → quiet l (step o l).
Proof.
  destruct o as [| | |path| |paths_|command status covers_| |after| | |]; intros Ho; try discriminate Ho; cbn [step]; clear Ho.
  - apply may_write_quiet.
  - solve_quiet l.
  - apply note_write_quiet.
  - apply note_validation_quiet.
  - apply settle_validated_quiet.
  - solve_quiet l.
  - unfold begin_review. case_match; solve_quiet l.
  - unfold finish. case_match; solve_quiet l.
Qed.

Lemma owes_a_plan_frame after l :
  let l' := (owes_a_plan after l).2 in
  l'.(contract) = l.(contract) ∧ l'.(evidence) = l.(evidence) ∧ l'.(engaged) = l.(engaged) ∧
  l'.(replan_pending) = l.(replan_pending) ∧ l'.(plan_items) = l.(plan_items) ∧
  l'.(plan_demands) = l.(plan_demands) + (if (owes_a_plan after l).1 then 1 else 0) ∧
  ((owes_a_plan after l).1 = true → l.(plan_demands) < MAX_PLAN_DEMANDS).
Proof.
  unfold owes_a_plan. destruct (_ || _) eqn:E; cbn [fst snd]; [split_and!; try done; lia|].
  rewrite !orb_false_iff in E. destruct E as [[_ Hd%Z.leb_gt] _]. destruct l; split_and!; try done. cbn. lia.
Qed.

Lemma invalidate_frame why invalidated evidence_ l :
  let l' := invalidate why invalidated evidence_ l in
  l'.(contract) = l.(contract) ∧ l'.(evidence) = l.(evidence) ∧ l'.(engaged) = l.(engaged) ∧ l'.(replan_pending) = true ∧
  l'.(plan_items) = (if str_true invalidated then without_requirement invalidated l.(plan_items) else l.(plan_items)) ∧
  l'.(plan_demands) = l.(plan_demands).
Proof. unfold invalidate. cbv zeta. by destruct (str_true invalidated), l. Qed.

(** *** One requirement after the other *)

Lemma step_keeps o l : keeps l.(contract) (step o l).(contract).
Proof.
  destruct (plans o) eqn:Ho; [|by apply quiet_step].
  destruct o as [found units files|raw supersedes why evidence_|why invalidated evidence_| | | | | |after| | |]; try done; cbn [step].
  - destruct (observe_call_frame found units files l) as [-> _ _ _ _ _ _]. reflexivity.
  - pose proof (record_plan_spec repr raw supersedes why evidence_ l) as Hs. destruct (record_plan _ _ _ _ _ l) as [a l']. cbv zeta in Hs.
    destruct Hs as (_ & Hc & _). cbn [snd]. rewrite Hc. apply foldl_keeps. intros s v. apply dispose_keeps.
  - destruct (invalidate_frame why invalidated evidence_ l) as (-> & _). reflexivity.
  - destruct (owes_a_plan_frame after l) as (-> & _). reflexivity.
Qed.

(** C33: whatever a turn does, no requirement of its contract is dropped,
    reordered or rewritten: each keeps its key, section, source, statement
    and trigger, and its history is only added to. *)
Theorem requirements_are_never_lost l ops : keeps l.(contract) (turn l ops).(contract).
Proof. apply turn_invariant; [reflexivity|]. intros o l' Hl. etrans; [exact Hl|apply step_keeps]. Qed.

(** ** The plan is backed *)

(** Every item is of the facts, and no provision has two. *)
Definition backed_plan (e : EvidenceState) (gs : list GapItem) : Prop := Forall (backed_item e) gs ∧ NoDup (identity <$> gs).

Lemma without_backed e r gs : backed_plan e gs → backed_plan e (without_requirement r gs).
Proof.
  intros [HP Hnd]. split; [|by apply NoDup_fmap_filter]. apply Forall_forall. intros g [_ Hg]%elem_of_filter_list.
  by eapply Forall_forall in HP.
Qed.

Lemma more_backed e e' gs : shows_more e e' → backed_plan e gs → backed_plan e' gs.
Proof. intros He [HP Hnd]. split; [|done]. eapply Forall_impl; [exact HP|]. intros g. by apply backed_item_more. Qed.

(** An accepted item is of the facts of the ledger it is judged in. *)
Lemma accepted_backed g declared l : g.(testability) = design_of g l →
  (judge repr g declared l).1.(vd_accepted) = true → backed_item l.(evidence) (judge repr g declared l).1.(vd_item).
Proof.
  intros Hd Ha. apply judge_accepts in Ha as (_ & -> & _ & (Hm & Hr)%unbacked_none & Hp & Hi).
  destruct (with_gaps_same g l) as [b ->]. rewrite <- Hd in Hp. by destruct g.
Qed.

Lemma bound_design l r : testability (bound l (from_mapping r)) = design_of (bound l (from_mapping r)) l.
Proof. unfold bound. set (g := from_mapping r). destruct (match_item _ _); by destruct g. Qed.

Lemma asks_evidence l l' : asks_only l l' → l'.(evidence) = l.(evidence).
Proof. intros [(b & c & p & ->)]. by destruct l. Qed.

Lemma record_plan_backed raw supersedes why evidence_ l :
  backed_plan l.(evidence) l.(plan_items) →
  backed_plan l.(evidence) (record_plan repr raw supersedes why evidence_ l).2.(plan_items).
Proof.
  intros [HP Hnd]. pose proof (record_plan_spec repr raw supersedes why evidence_ l) as Hs.
  destruct (record_plan _ _ _ _ _ l) as [a l']. cbv zeta in Hs.
  destruct Hs as (Hv & _ & _ & _ & _ & _ & _ & _ & _ & _ & kept & HkP & Hknd & _ & l2 & _ & Hl2 & _ & Hitems & _). cbn [snd].
  rewrite Hitems. apply (foldl_invariant (λ l3, backed_plan l.(evidence) l3.(plan_items))).
  - rewrite Hl2. split; [by apply HkP|by apply Hknd].
  - intros l3 v Hin [H3P H3nd]. destruct (Hv v Hin) as (Hacc & l1 & r & Ha & ->).
    apply asks_evidence in Ha. rewrite <- Ha in *.
    destruct (enter_invariant (backed_item l1.(evidence)) (vd_item (judge repr (bound l1 (from_mapping r))
      (str_true supersedes || str_true evidence_) l1).1) l3) as (? & ? & _); [|done..|by split].
    apply accepted_backed; [apply bound_design|done].
Qed.

Lemma step_backed o l : backed_plan l.(evidence) l.(plan_items) → backed_plan (step o l).(evidence) (step o l).(plan_items).
Proof.
  intros Hl. destruct (plans o) eqn:Ho; [|by destruct (quiet_step o l Ho) as [-> -> _ _ _ _]].
  destruct o as [found units files|raw supersedes why evidence_|why invalidated evidence_| | | | | |after| | |]; try done; cbn [step].
  - destruct (observe_call_frame found units files l) as [_ -> _ _ _ _ He]. by eapply more_backed.
  - pose proof (record_plan_spec repr raw supersedes why evidence_ l) as Hs.
    pose proof (record_plan_backed raw supersedes why evidence_ l Hl) as Hb. destruct (record_plan _ _ _ _ _ l) as [a l']. cbv zeta in Hs.
    destruct Hs as (_ & _ & He & _). cbn [snd] in *. by rewrite He.
  - apply (without_backed _ invalidated) in Hl as Hw. destruct (invalidate_frame why invalidated evidence_ l) as (_ & -> & _ & _ & -> & _).
    by destruct (str_true invalidated).
  - by destruct (owes_a_plan_frame after l) as (_ & -> & _ & _ & -> & _).
Qed.


(** ** A plan that was found wrong *)

Definition plan_recorded (o : operation) (l : WorkPhaseLedger) : bool :=
  match o with
  | RecordPlan raw supersedes why evidence_ => any_accepted (record_plan repr raw supersedes why evidence_ l).1
  | _ => false
  end.

(** Neither half of the gate opens by itself. *)
Lemma step_pending o l : l.(engaged) = true → l.(replan_pending) = true → plan_recorded o l = false →
  (step o l).(engaged) = true ∧ (step o l).(replan_pending) = true.
Proof.
  intros He Hr Hn. destruct (plans o) eqn:Ho; [|by destruct (quiet_step o l Ho) as [_ _ -> -> _ _]].
  destruct o as [found units files|raw supersedes why evidence_|why invalidated evidence_| | | | | |after| | |]; try done; cbn [step plan_recorded] in *.
  - destruct (observe_call_frame found units files l) as [_ _ _ -> -> _ _]. done.
  - pose proof (record_plan_spec repr raw supersedes why evidence_ l) as Hs. destruct (record_plan _ _ _ _ _ l) as [a l']. cbv zeta in Hs.
    destruct Hs as (_ & _ & _ & Hl & _ & _ & _ & _ & _ & Hp & _). cbn [fst snd] in *. by rewrite Hl, Hp, Hn.
  - destruct (invalidate_frame why invalidated evidence_ l) as (_ & _ & -> & -> & _). done.
  - by destruct (owes_a_plan_frame after l) as (_ & _ & -> & -> & _).
Qed.

Lemma pending_refuses path l : l.(engaged) = true → l.(replan_pending) = true → (may_write path l).1.(allowed) = false.
Proof. unfold may_write. intros -> ->. cbn [negb]. by repeat case_match. Qed.

(** C30: after the plan was found wrong, no write passes the gate, whatever
    the turn does in between, until a recorded plan had an item accepted. *)
Theorem a_wrong_plan_blocks_writes l ops why invalidated evidence_ path : l.(engaged) = true →
  (may_write path (turn (invalidate why invalidated evidence_ l) ops)).1.(allowed) = true →
  ∃ ops1 o ops2, ops = ops1 ++ o :: ops2 ∧ plan_recorded o (turn (invalidate why invalidated evidence_ l) ops1) = true.
Proof.
  intros He Hw. set (l0 := invalidate why invalidated evidence_ l) in *.
  assert (l0.(engaged) = true ∧ l0.(replan_pending) = true) as Hl0
    by (destruct (invalidate_frame why invalidated evidence_ l) as (_ & _ & He' & Hp & _); unfold l0; by rewrite He').
  clearbody l0. clear l He. revert l0 Hl0 Hw. induction ops as [|o ops IH]; intros l [He Hr] Hw; cbn in *.
  - by rewrite pending_refuses in Hw.
  - destruct (plan_recorded o l) eqn:Ho; [by exists [], o, ops|].
    destruct (IH (step o l)) as (ops1 & o' & ops2 & -> & H); [by apply step_pending|done|]. by exists (o :: ops1), o', ops2.
Qed.

End turns.
