(* ===== verification/WorkPhaseGate.v ===== *)
(** * The write gate of a change: exactly when it opens, and what it keeps out *)

From Stdlib Require Import Ascii.
From S2P Require Import Prelude Texts Values Regex RequirementSet RequirementSetProps WorkPhase WorkPhaseFacts.
From S2P Require Import Codec ToolRegistry ToolRouter ToolRouterFacts ToolRouterProps.

#[local] Open Scope Z_scope.
Open Scope py_scope.
Import WorkPhase.

(** ** The specification of the gate *)

(** A requirement is answered: it has a disposition, and when a change is
    planned for it, a way to prove the change. *)
Definition answers (l : WorkPhaseLedger) (key : string) : Prop :=
  ∀ r, get_item key l.(contract) = Some r →
    r.(rq_stated) = true ∧
    (r.(rq_disposition) = dv CHANGE_PLANNED → ∃ g, planned_for key l = Some g ∧ g.(testability) ≠ "").

(** The requirements of a change: those it was planned for, and those of the
    contract that name a symbol it touches. *)
Definition governed (s : RequirementSet) (w : WorkItem) (key : string) : Prop :=
  key ∈ w.(requirements_of) ∨ ∃ r, r ∈ in_scope s ∧ r.(rq_key) = key ∧ meets w.(symbols) (named_in r) = true.

Definition ready (l : WorkPhaseLedger) (w : WorkItem) : Prop := ∀ key, governed l.(contract) w key → answers l key.

(** The change a write belongs to: the first that covers its path, or, for a
    write that names none, one that is not finished. *)
Definition belongs (path : string) (l : WorkPhaseLedger) (w : WorkItem) : Prop :=
  if str_true path
  then ∃ earlier later, l.(work_items) = earlier ++ w :: later ∧ covers path w = true ∧ Forall (λ w', covers path w' = false) earlier
  else w ∈ l.(work_items) ∧ w.(closed) = false.

Record gate_open (path : string) (l : WorkPhaseLedger) : Prop := {
  go_phase : l.(WorkPhase.phase) ≠ REVIEW;
  go_authority : has_authority l.(WorkPhase.evidence) = true;
  go_implementation : has_implementation l.(WorkPhase.evidence) = true;
  go_plan : l.(replan_pending) = false;
  go_change : ∃ w, belongs path l w ∧ ready l w;
}.

(** ** The gate meets it *)

Lemma couple_work_spec s w :
  (couple_work s w).(symbols) = w.(symbols) ∧ (couple_work s w).(closed) = w.(closed) ∧
  ∀ key, key ∈ (couple_work s w).(requirements_of) ↔ governed s w key.
Proof.
  unfold couple_work, governed. generalize (in_scope s). intros rs. revert w.
  induction rs as [|r rs IH]; intros w; cbn [foldl].
  - split_and!; [done..|]. intros key. split; [by left|]. intros [|(r & []%elem_of_nil & _)]; done.
  - set (w1 := if bool_decide _ then w else _).
    assert (w1.(symbols) = w.(symbols) ∧ w1.(closed) = w.(closed) ∧ ∀ key, key ∈ w1.(requirements_of) ↔
      key ∈ w.(requirements_of) ∨ (r.(rq_key) = key ∧ meets w.(symbols) (named_in r) = true)) as (Hs & Hc & Hk).
    { unfold w1. case_bool_decide as Hin; [split_and!; [done..|]; naive_solver|].
      destruct (meets _ _); destruct w; unfold set_field; cbn in *; (split_and!; [done..|]); intros key; set_solver. }
    destruct (IH w1) as (-> & -> & Hr). split_and!; [done..|]. intros key. rewrite Hr, Hk, Hs.
    setoid_rewrite elem_of_cons. naive_solver.
Qed.

Lemma owed_none l key : owed l key = None ↔ answers l key.
Proof.
  unfold owed, answers. destruct (get_item key l.(contract)) as [r|]; [|naive_solver].
  destruct (rq_stated r) eqn:Hst; cbn [negb]; [|split; [done|]; intros Ha; destruct (Ha r eq_refl); congruence].
  destruct (String.eqb_spec r.(rq_disposition) (dv CHANGE_PLANNED)) as [Hd|Hd]; cbn [negb]; [|naive_solver].
  destruct (planned_for key l) as [g|]; [destruct (str_true g.(testability)) eqn:Ht|].
  - apply str_true_spec in Ht. naive_solver.
  - apply str_true_false in Ht. split; [done|]. intros Ha. destruct (Ha r eq_refl) as [_ (? & [= <-] & ?)]; done.
  - split; [done|]. intros Ha. destruct (Ha r eq_refl) as [_ (? & [=] & ?)]; done.
Qed.

Lemma gaps_at_none i w l : l.(work_items) !! i = Some w →
  gaps_at i (couple i l) = [] ↔ ready l w.
Proof.
  intros Hw. unfold gaps_at, couple. destruct l as [? ? ? s ? ? ? ? ? ? ? ws]; unfold set_field; cbn in *.
  rewrite list_lookup_alter_eq, Hw. cbn. unfold local_gaps. rewrite omap_nil. setoid_rewrite sort_strings_elem.
  setoid_rewrite elem_of_elements. destruct (couple_work_spec s w) as (_ & _ & Hk). setoid_rewrite Hk. setoid_rewrite owed_none. done.
Qed.

(** Coupling one change says nothing of another. *)
Lemma ready_couple i l w : ready (couple i l) w ↔ ready l w.
Proof. by destruct l. Qed.

Lemma couple_lookup_ne i j l : i ≠ j → (couple i l).(work_items) !! j = l.(work_items) !! j.
Proof. intros Hne. destruct l; unfold couple, set_field; cbn. by apply list_lookup_alter_ne. Qed.

(** One of the candidates is ready. *)
Lemma first_ready_spec candidates l : NoDup candidates → (∀ i, i ∈ candidates → is_Some (l.(work_items) !! i)) →
  (first_ready candidates l).1 = true ↔ ∃ i w, i ∈ candidates ∧ l.(work_items) !! i = Some w ∧ ready l w.
Proof.
  revert l. induction candidates as [|i candidates IH]; intros l Hnd Hin; cbn [first_ready].
  - split; [done|]. intros (i & w & []%elem_of_nil & _).
  - apply NoDup_cons in Hnd as [Hi Hnd]. destruct (Hin i) as [w Hw]; [apply list_elem_of_here|]. pose proof (gaps_at_none i w l Hw) as Hg.
    destruct (gaps_at i (couple i l)) as [|gap gaps].
    + split; [|done]. intros _. exists i, w. split; [apply list_elem_of_here|]. split; [done|]. by apply Hg.
    + rewrite IH; [|done|].
      * setoid_rewrite elem_of_cons. setoid_rewrite ready_couple. split.
        -- intros (j & w' & Hj & Hw' & Hr). rewrite couple_lookup_ne in Hw' by (intros ->; done).
           exists j, w'. split_and!; [by right|done..].
        -- intros (j & w' & [->|Hj] & Hw' & Hr).
           ++ rewrite Hw in Hw'. simplify_eq. by apply Hg in Hr.
           ++ exists j, w'. rewrite couple_lookup_ne by (intros ->; done). done.
      * intros j Hj. rewrite couple_lookup_ne by (intros ->; done). apply Hin. by apply list_elem_of_further.
Qed.

Lemma open_work_items_spec l : NoDup (open_work_items l) ∧
  ∀ i, i ∈ open_work_items l ↔ ∃ w, l.(work_items) !! i = Some w ∧ w.(closed) = false.
Proof.
  unfold open_work_items. change (imap pair l.(work_items)) with (imap (λ j y, (0 + j, y)%nat) l.(work_items)). split.
  - generalize 0%nat. induction l.(work_items) as [|w ws IH]; intros k; cbn; [constructor|].
    rewrite (imap_ext _ (λ i g, (S k + i, g)%nat)) by (intros; cbn; f_equal; lia).
    destruct (closed w); cbn; [exact (IH (S k))|].
    apply NoDup_cons. split; [|exact (IH (S k))]. intros ([j w'] & Hj & Hc)%list_elem_of_omap. cbn in Hc.
    destruct (closed w'); [done|]. apply (imap_pair_elem ws j w' (S k)) in Hj as (j' & -> & _). injection Hc. lia.
  - intros i. rewrite list_elem_of_omap. split.
    + intros ([j w] & Hj & Hc). cbn in Hc. destruct (closed w) eqn:Hw; [done|]. injection Hc as <-.
      apply (imap_pair_elem _ j w 0) in Hj as (j' & -> & Hl). by exists w.
    + intros (w & Hl & Hc). exists (i, w). cbn. rewrite Hc. split; [|done]. apply (imap_pair_elem _ i w 0). by exists i.
Qed.

Lemma investigation_gaps_none l : investigation_gaps l = [] ↔ has_authority l.(evidence) = true ∧ has_implementation l.(evidence) = true.
Proof. unfold investigation_gaps. destruct (has_authority _), (has_implementation _); cbn; naive_solver. Qed.

(** The change a write belongs to, as the gate looks for it. *)
Lemma belongs_lookup path l : str_true path = true →
  match work_item_for path l with
  | Some i => ∃ w, l.(work_items) !! i = Some w ∧ ∀ w', belongs path l w' ↔ w' = w
  | None => ∀ w, ¬ belongs path l w
  end.
Proof.
  intros Hp. unfold belongs, work_item_for. rewrite Hp. destruct (find_index _ _) as [i|] eqn:Hf.
  - pose proof Hf as (earlier & w & later & Hl & Hn & Hc & He)%find_index_some. exists w.
    split; [rewrite Hl, <- Hn; by apply list_lookup_middle|]. intros w'. split; [|intros ->; eauto].
    intros (e' & l' & Hl' & Hc' & He'). assert (find_index (covers path) l.(work_items) = Some (length e')) as Hf'
      by (apply find_index_some; eauto 8). rewrite Hf in Hf'. simplify_eq.
    assert (l.(work_items) !! length e' = Some w') as H1 by (rewrite Hl'; by apply list_lookup_middle).
    assert (l.(work_items) !! length e' = Some w) as H2 by (rewrite Hl, <- Hf'; by apply list_lookup_middle). congruence.
  - apply find_index_none in Hf. intros w (e & l' & Hl & Hc & _). rewrite Hl, Forall_app, Forall_cons in Hf.
    destruct Hf as (_ & Hf & _). congruence.
Qed.

Lemma may_write_allowed path l : (may_write path l).1.(allowed) = true ↔ (l.(engaged) = true → gate_open path l).
Proof.
  unfold may_write. destruct (engaged l); cbn [negb]; [|by split].
  assert ((true = true → gate_open path l) ↔ gate_open path l) as -> by tauto.
  case_bool_decide as Hph; [split; [done|by intros []]|].
  destruct (investigation_gaps l) as [|gap gaps] eqn:Hgaps;
    [|split; [done|]; intros [_ Ha Hi _ _]; by rewrite (proj2 (investigation_gaps_none l) (conj Ha Hi)) in Hgaps].
  apply investigation_gaps_none in Hgaps as [Ha Hi].
  destruct (replan_pending l) eqn:Hrp; [split; [done|intros []; congruence]|].
  assert (gate_open path l ↔ ∃ w, belongs path l w ∧ ready l w) as -> by (split; [by intros []|by intros; split]).
  case_bool_decide as Hn.
  { apply nil_length_inv in Hn. split; [done|]. intros (w & Hb & _). unfold belongs in Hb. rewrite Hn in Hb.
    destruct (str_true path); [by destruct Hb as ([|? ?] & ? & ? & _)|by destruct Hb as [?%elem_of_nil _]]. }
  destruct (str_true path) eqn:Hp.
  - pose proof (belongs_lookup path l Hp) as Hb. destruct (work_item_for path l) as [i|].
    + destruct Hb as (w & Hw & Hb). pose proof (first_ready_spec [i] l (NoDup_singleton i)) as Hf.
      destruct (first_ready [i] l) as [r l']. cbn [fst] in Hf.
      assert ((if r then (allow, l') else (incomplete i l', l')).1.(allowed) = r) as -> by by destruct r.
      rewrite Hf; [|by intros j ->%list_elem_of_singleton]. setoid_rewrite Hb. setoid_rewrite list_elem_of_singleton. naive_solver.
    + split; [done|]. intros (w & Hw & _). by destruct (Hb w).
  - destruct (open_work_items_spec l) as [Hnd Ho]. pose proof (first_ready_spec (open_work_items l) l Hnd) as Hf.
    destruct (first_ready (open_work_items l) l) as [r l']. cbn [fst] in Hf.
    match goal with |- allowed (fst ?e) = true ↔ _ => assert (e.1.(allowed) = r) as -> by (destruct r, (open_work_items l); done) end.
    rewrite Hf by (intros j (w & -> & _)%Ho; done). unfold belongs. rewrite Hp. setoid_rewrite Ho.
    setoid_rewrite list_elem_of_lookup. naive_solver.
Qed.


(** C7: the write gate opens exactly when the turn owes nothing: outside
    review, with both halves of the evidence, a plan that was not found
    wrong, and a planned change for this file each of whose requirements
    -- those it was planned for and those its symbols reach -- is answered. *)
Theorem write_gate_is_exact path l :
  (may_write path l).1.(allowed) = true ↔ (l.(engaged) = true → gate_open path l).
Proof. apply may_write_allowed. Qed.

(** ** Behind the router of tools *)

Section routed.
  Context {W Scope : Type} `{RequestPolicy W Scope}.
  (** Where the world keeps the ledger of the turn. *)
  Context (ledger_of : W → WorkPhaseLedger).

Definition asked (d : WriteDecision) : gate_decision := ToolRouter.mk_decision d.(allowed) d.(reason) d.(message).

(** [route_tool]: the gate a call is given. *)
Definition phase_gate (l : WorkPhaseLedger) : option (W → string → option gate_decision) :=
  if l.(engaged) then Some (λ w path, Some (asked (may_write path (ledger_of w)).1)) else None.

  Context (canonical : json → string) (registry : ToolRegistry (Handler W)).
  Context (float_eq : string → Z → bool) (repr : json → string) (decode : string → string).
  Context (hash : string → string) (dumps : json → string).
  Implicit Types (ctx : ToolExecutionContext W Scope).

Lemma refused_not_started call action name (s s' : state W) v : refused_call call action name s s' v → ¬ started s s'.
Proof.
  intros [_ _ _ _ _ (h & Hh & Hp)] (h' & hs & Hh' & Hp'). rewrite Hh in Hh'. apply app_inv_head in Hh'. simplify_eq. congruence.
Qed.

(** C24: in a turn that must meet a document, no tool that writes is begun
    before its change is planned: whatever the call, when its handler is
    begun and the tool writes, the gate was open for the file the call
    names. *)
Theorem no_edit_before_its_plan ctx call action name args s s' v :
  (ledger_of s.(cache).(world)).(engaged) = true →
  ctx.(write_gate) = phase_gate (ledger_of s.(cache).(world)) →
  execute float_eq repr decode canonical hash dumps registry ctx call action name args s = (s', v) → started s s' →
  ∃ spec, get_spec name registry = Ok spec ∧
    (spec.(tl_mutability) = MUTATING → gate_open (target_of (without_scope_reason args)) (ledger_of s.(cache).(world))).
Proof.
  intros He Hg Hrun Hs. apply execute_cases in Hrun as [[_ Hr]|(_ & spec & [_ Hspec _ _ _ _ Hearned _ _] & _)].
  - by apply refused_not_started in Hr.
  - exists spec. split; [done|]. intros Hm. unfold write_gate_decision, phase_gate in Hearned. rewrite Hg in Hearned.
    unfold phase_gate in Hearned. rewrite He in Hearned. specialize (Hearned _ Hm eq_refl). cbn in Hearned.
    by apply may_write_allowed in Hearned.
Qed.
End routed.
