(* ===== verification/WorkPhaseLifecycle.v ===== *)
(** * The lifecycle of a requirement, and what a plan costs to record *)

From Stdlib Require Import Ascii.
From S2P Require Import Prelude Texts Values Regex RequirementSet RequirementSetProps WorkPhase WorkPhaseFacts WorkPhaseProps.

#[local] Open Scope Z_scope.
Open Scope py_scope.

(** ** Keys that name one requirement *)

(** No two keys differ in case only, and none has spaces around it. *)
Definition well_keyed (s : RequirementSet) : Prop :=
  NoDup (py_lower ∘ rq_key <$> s.(items)) ∧ Forall (λ r, py_strip r.(rq_key) = r.(rq_key)) s.(items).

Lemma well_keyed_keeps s s' : keeps s s' → well_keyed s → well_keyed s'.
Proof.
  intros [Hk _] [Hnd Hst]. assert (rq_key <$> s'.(items) = rq_key <$> s.(items)) as He.
  { clear -Hk. induction Hk as [|r r' l l' [Hr _ _ _ _ _ _ _] _ IH]; cbn; congruence. }
  split.
  - by rewrite list_fmap_compose, He, <- list_fmap_compose.
  - change (Forall ((λ k, py_strip k = k) ∘ rq_key) s'.(items)). by rewrite <- Forall_fmap, He, Forall_fmap.
Qed.

Lemma get_index_own s i r : well_keyed s → s.(items) !! i = Some r → get_index r.(rq_key) s = Some i.
Proof.
  intros [Hnd Hst] Hi. unfold get_index. rewrite (proj1 (Forall_lookup _ _) Hst i r Hi). apply find_index_some.
  exists (take i s.(items)), r, (skipn (S i) s.(items)). split_and!.
  - symmetry. by apply take_drop_middle.
  - apply lookup_lt_Some in Hi. rewrite length_take. lia.
  - by apply String.eqb_eq.
  - apply Forall_lookup. intros j r' (Hj & Hlt)%lookup_take_Some. apply String.eqb_neq. intros He.
    assert (j = i) as ->; [|lia]. eapply (NoDup_lookup _ j i (py_lower r.(rq_key)) Hnd); rewrite list_lookup_fmap.
    + rewrite Hj. cbn. by rewrite He.
    + by rewrite Hi.
Qed.

(** Disposing of a requirement by its key is disposing of that requirement. *)
Lemma dispose_own s i r d n b j r' : well_keyed s → s.(items) !! i = Some r → (dispose r.(rq_key) d n b s).2.(items) !! j = Some r' →
  s.(items) !! j = Some r' ∨ (j = i ∧ r' = disposed d n b r).
Proof.
  intros Hw Hi [?|(Ht & r1 & Hr1 & ->)]%dispose_lookup; [by left|right]. unfold target_index in Ht.
  rewrite (get_index_own s i r Hw Hi) in Ht. simplify_eq. done.
Qed.

(** ** What each operation may do to a requirement *)

Section lifecycle.
  Context (repr : string → string).

Inductive transition (o : operation) (l : WorkPhaseLedger) (r : Requirement) : Requirement → Prop :=
  | Unmoved : transition o l r r
  | Stated raw supersedes why evidence_ r' :
      o = RecordPlan raw supersedes why evidence_ → r'.(rq_disposition) ∈ dv <$> STATED → transition o l r r'
  | Changed paths_ g r' :
      o = NoteWrite paths_ → g ∈ l.(plan_items) → meets (named_paths g) (list_to_set (basename <$> List.filter str_true paths_)) = true →
      r.(rq_disposition) ∈ [dv CHANGE_PLANNED; dv UNDETERMINED] → r'.(rq_disposition) = dv CODE_CHANGED_AWAITING_VALIDATION →
      transition o l r r'
  | Proved g r' :
      o = SettleValidated ∨ (∃ command covers_, o = NoteValidation command "passed" covers_) →
      g ∈ l.(plan_items) → item_key g = r.(rq_key) → proves (wrote_a_test (step repr o l)) (step repr o l) g = true →
      r.(rq_disposition) = dv CODE_CHANGED_AWAITING_VALIDATION → r'.(rq_disposition) = dv CHANGE_IMPLEMENTED →
      transition o l r r'.

Lemma from_mapping_stated raw : (from_mapping raw).(disposition) ∈ dv <$> STATED.
Proof. unfold from_mapping. cbv zeta. cbn [disposition]. case_bool_decide; [done|]. vm_compute. right. left. Qed.

Lemma settled_stated g : g.(disposition) ∈ dv <$> STATED → settled_disposition g ∈ dv <$> STATED.
Proof.
  intros Hg. unfold settled_disposition. repeat case_match; try done. apply list_elem_of_fmap_2. right. left.
Qed.

Lemma judged_stated declared l r : (judge repr (bound l (from_mapping r)) declared l).1.(vd_accepted) = true →
  (judge repr (bound l (from_mapping r)) declared l).1.(vd_item).(disposition) ∈ dv <$> STATED.
Proof.
  intros (_ & -> & _)%judge_accepts. destruct (with_gaps_same (bound l (from_mapping r)) l) as [b ->].
  pose proof (from_mapping_stated r) as Hm. unfold bound. revert Hm. generalize (from_mapping r). intros g Hg.
  destruct (match_item _ _); by destruct g.
Qed.

Lemma record_plan_transition raw supersedes why evidence_ l i r r' :
  l.(contract).(items) !! i = Some r → (record_plan repr raw supersedes why evidence_ l).2.(contract).(items) !! i = Some r' →
  r' = r ∨ r'.(rq_disposition) ∈ dv <$> STATED.
Proof.
  intros Hi. pose proof (record_plan_spec repr raw supersedes why evidence_ l) as Hs.
  destruct (record_plan _ _ _ _ _ l) as [a l']. cbv zeta in Hs. destruct Hs as (Hv & Hc & _). cbn [snd]. rewrite Hc.
  revert r'. apply (foldl_invariant (λ s, ∀ r', s.(items) !! i = Some r' → r' = r ∨ r'.(rq_disposition) ∈ dv <$> STATED)).
  - intros r' Hr. left. congruence.
  - intros s v Hin IH r' [Hr|(_ & r1 & _ & ->)]%dispose_lookup; [by apply IH|right].
    destruct (Hv v Hin) as (Hacc & l1 & raw1 & _ & ->). apply settled_stated, judged_stated, Hacc.
Qed.

Lemma match_item_lookup citation s r : match_item citation s = Some r → ∃ j, s.(items) !! j = Some r.
Proof. intros (j & _ & Hj)%bind_Some. by exists j. Qed.

Lemma note_items_transition touched gs s i r r' : well_keyed s → s.(items) !! i = Some r →
  (foldl (note_item touched) s gs).(items) !! i = Some r' →
  r' = r ∨ (r.(rq_disposition) ∈ [dv CHANGE_PLANNED; dv UNDETERMINED] ∧
            r'.(rq_disposition) = dv CODE_CHANGED_AWAITING_VALIDATION ∧ ∃ g, g ∈ gs ∧ meets (named_paths g) touched = true).
Proof.
  intros Hw Hi. set (moved := λ r' : Requirement, r' = r ∨ (r.(rq_disposition) ∈ [dv CHANGE_PLANNED; dv UNDETERMINED] ∧
    r'.(rq_disposition) = dv CODE_CHANGED_AWAITING_VALIDATION ∧ ∃ g, g ∈ gs ∧ meets (named_paths g) touched = true)).
  revert r'. change (∀ r', (foldl (note_item touched) s gs).(items) !! i = Some r' → moved r').
  cut (keeps s (foldl (note_item touched) s gs) ∧ ∀ r', (foldl (note_item touched) s gs).(items) !! i = Some r' → moved r'); [intros []; auto|].
  apply (foldl_invariant (λ s1, keeps s s1 ∧ ∀ r', s1.(items) !! i = Some r' → moved r')).
  - split; [reflexivity|]. intros r1 Hr1. left. congruence.
  - intros s1 g Hg [Hk IH]. unfold note_item. destruct (meets _ touched) eqn:Hm; [|done].
    destruct (match_item _ s1) as [carried|] eqn:Hc; [|done]. case_bool_decide as Hd; [|done].
    split; [etrans; [exact Hk|apply dispose_keeps]|]. intros r1 Hr1. apply match_item_lookup in Hc as [j Hj].
    apply (dispose_own s1 j carried) in Hr1 as [Hr1|[-> ->]]; [by apply IH| |by eapply well_keyed_keeps|done].
    right. destruct (IH carried Hj) as [->|(_ & Ha & _)]; [by eauto|].
    rewrite Ha, !elem_of_cons, elem_of_nil in Hd. by destruct Hd as [|[|]].
Qed.

Lemma settle_transition unproven s idx i r r' : well_keyed s → s.(items) !! i = Some r →
  (foldl (settle_one unproven) s idx).(items) !! i = Some r' →
  r' = r ∨ (r.(rq_disposition) = dv CODE_CHANGED_AWAITING_VALIDATION ∧ r'.(rq_disposition) = dv CHANGE_IMPLEMENTED ∧
            r.(rq_key) ∉ unproven).
Proof.
  intros Hw Hi. set (moved := λ r' : Requirement, r' = r ∨ (r.(rq_disposition) = dv CODE_CHANGED_AWAITING_VALIDATION ∧
    r'.(rq_disposition) = dv CHANGE_IMPLEMENTED ∧ r.(rq_key) ∉ unproven)).
  revert r'. change (∀ r', (foldl (settle_one unproven) s idx).(items) !! i = Some r' → moved r').
  cut (keeps s (foldl (settle_one unproven) s idx) ∧ ∀ r', (foldl (settle_one unproven) s idx).(items) !! i = Some r' → moved r');
    [intros []; auto|].
  apply (foldl_invariant (λ s1, keeps s s1 ∧ ∀ r', s1.(items) !! i = Some r' → moved r')).
  - split; [reflexivity|]. intros r1 Hr1. left. congruence.
  - intros s1 j _ [Hk IH]. unfold settle_one. destruct (s1.(items) !! j) as [found|] eqn:Hj; [|done].
    destruct (String.eqb_spec found.(rq_disposition) (dv CODE_CHANGED_AWAITING_VALIDATION)) as [Hd|]; [|done].
    case_bool_decide as Hu; [done|]. split; [etrans; [exact Hk|apply dispose_keeps]|]. intros r1 Hr1.
    apply (dispose_own s1 j found) in Hr1 as [Hr1|[-> ->]]; [by apply IH| |by eapply well_keyed_keeps|done].
    right. destruct (IH found Hj) as [->|(_ & Ha & _)]; [done|]. by rewrite Ha in Hd.
Qed.

(** A change that waits for its proof and is not owed one was proven. *)
Lemma not_owed_proven l r : governs l = true → r ∈ l.(contract).(items) →
  r.(rq_disposition) = dv CODE_CHANGED_AWAITING_VALIDATION → (r.(rq_key) ∉ rq_key <$> unvalidated_requirements l) →
  ∃ g, g ∈ l.(plan_items) ∧ item_key g = r.(rq_key) ∧ proves (wrote_a_test l) l g = true.
Proof.
  intros Hg Hr Hd Hn. unfold unvalidated_requirements in Hn. rewrite Hg in Hn. cbn [negb] in Hn.
  destruct (decide (r.(rq_key) ∈ proven l)) as [Hp|Hp].
  - apply list_elem_of_fmap in Hp as (g & -> & [Hpr Hin]%elem_of_filter_list). eauto.
  - exfalso. apply Hn, list_elem_of_fmap_2. apply elem_of_filter_list. split; [|done].
    apply bool_decide_eq_true_2, elem_of_difference. rewrite !elem_of_list_to_set. split; [|done].
    apply list_elem_of_fmap_2, elem_of_filter_list. split; [|done]. unfold awaits_proof. apply bool_decide_eq_true_2. rewrite Hd. right. left.
Qed.

Lemma settle_validated_transition l i r r' : well_keyed l.(contract) → l.(contract).(items) !! i = Some r →
  (settle_validated l).(contract).(items) !! i = Some r' →
  r' = r ∨ (r.(rq_disposition) = dv CODE_CHANGED_AWAITING_VALIDATION ∧ r'.(rq_disposition) = dv CHANGE_IMPLEMENTED ∧
            ∃ g, g ∈ l.(plan_items) ∧ item_key g = r.(rq_key) ∧ proves (wrote_a_test l) l g = true).
Proof.
  intros Hw Hi. unfold settle_validated. destruct (governs l) eqn:Hg; cbn [negb]; [|left; congruence].
  assert ((l <| contract ::= λ s, foldl (settle_one (rq_key <$> unvalidated_requirements l)) s (seq 0 (length s.(items))) |>).(contract)
    = foldl (settle_one (rq_key <$> unvalidated_requirements l)) l.(contract) (seq 0 (length l.(contract).(items)))) as -> by by destruct l.
  intros [->|(Hd & Hd' & Hu)]%(settle_transition _ _ _ i r r' Hw Hi); [by left|]. right. split_and!; [done..|].
  apply not_owed_proven; try done. by eapply list_elem_of_lookup_2.
Qed.
(** Nothing but what ran and what was written is asked of a proof. *)
Lemma proves_same l l' g : l'.(validations) = l.(validations) → l'.(written) = l.(written) →
  proves (wrote_a_test l') l' g = proves (wrote_a_test l) l g.
Proof. intros Hv Hw. unfold proves, validated, wrote_a_test. by rewrite Hv, Hw. Qed.

Lemma settle_validated_proofs l : (settle_validated l).(validations) = l.(validations) ∧ (settle_validated l).(written) = l.(written).
Proof. unfold settle_validated. by destruct (negb _), l. Qed.

Lemma close_finished_frame l : (close_finished l).(contract) = l.(contract) ∧ (close_finished l).(validations) = l.(validations) ∧
  (close_finished l).(written) = l.(written).
Proof. by destruct l. Qed.

Lemma note_validation_settles command status covers_ l :
  let l' := note_validation command status covers_ l in
  ∃ l2, l2.(contract) = l.(contract) ∧ l2.(plan_items) = l.(plan_items) ∧
    l'.(contract) = (if String.eqb status "passed" then (settle_validated l2).(contract) else l.(contract)) ∧
    l'.(validations) = l2.(validations) ∧ l'.(written) = l2.(written).
Proof.
  unfold note_validation. set (run := mk_run _ _ _ _). set (l1 := set_field validations _ l). set (l2 := set_field failed_validations _ l1).
  cbv zeta. assert (l2.(contract) = l.(contract) ∧ l2.(plan_items) = l.(plan_items)) as [Hc Hp] by by destruct l. clearbody l2.
  exists l2. split; [done|]. split; [done|]. change (passed run) with (String.eqb status "passed").
  set (l3 := if String.eqb status "passed" then _ else l2).
  assert (l3.(contract) = (if String.eqb status "passed" then (settle_validated l2).(contract) else l.(contract)) ∧
    l3.(validations) = l2.(validations) ∧ l3.(written) = l2.(written)) as (<- & <- & <-).
  { unfold l3. destruct (String.eqb _ _); [|done]. destruct (close_finished_frame (settle_validated l2)) as (-> & -> & ->).
    by destruct (settle_validated_proofs l2) as [-> ->]. }
  clearbody l3. case_bool_decide; by destruct l3.
Qed.

Lemma note_validation_transition command status covers_ l i r r' : well_keyed l.(contract) → l.(contract).(items) !! i = Some r →
  (note_validation command status covers_ l).(contract).(items) !! i = Some r' →
  r' = r ∨ (status = "passed" ∧ r.(rq_disposition) = dv CODE_CHANGED_AWAITING_VALIDATION ∧ r'.(rq_disposition) = dv CHANGE_IMPLEMENTED ∧
    let l' := note_validation command status covers_ l in
    ∃ g, g ∈ l.(plan_items) ∧ item_key g = r.(rq_key) ∧ proves (wrote_a_test l') l' g = true).
Proof.
  intros Hw Hi. destruct (note_validation_settles command status covers_ l) as (l2 & Hc & Hp & Hset & Hv & Hwr). cbv zeta.
  rewrite Hset. destruct (String.eqb_spec status "passed") as [->|]; [|left; congruence]. intros Hr.
  rewrite <- Hc in Hw, Hi. destruct (settle_validated_transition l2 i r r' Hw Hi Hr) as [->|(Hd & Hd' & g & Hg & Hk & Hpr)]; [by left|].
  right. split_and!; [done..|]. exists g. rewrite <- Hp. split_and!; [done..|]. by rewrite (proves_same l2) by done.
Qed.

(** *** The operations that dispose of a requirement *)

Definition disposes (o : operation) : bool :=
  match o with RecordPlan _ _ _ _ | NoteWrite _ | NoteValidation _ _ _ | SettleValidated => true | _ => false end.

Lemma first_ready_contract candidates l : (first_ready candidates l).2.(contract) = l.(contract).
Proof.
  revert l. induction candidates as [|i candidates IH]; intros l; cbn [first_ready]; [done|].
  assert ((couple i l).(contract) = l.(contract)) as Hc by by destruct l. destruct (gaps_at i _); [done|]. by rewrite IH.
Qed.

Lemma may_write_contract path l : (may_write path l).2.(contract) = l.(contract).
Proof.
  unfold may_write. destruct (engaged l); [|done]. cbn [negb]. case_bool_decide; [done|].
  destruct (investigation_gaps l); [|done]. destruct (replan_pending l); [done|]. case_bool_decide; [done|].
  destruct (if str_true path then work_item_for path l else None) as [i|].
  - pose proof (first_ready_contract [i] l) as Hq. destruct (first_ready [i] l) as [[] l']; exact Hq.
  - destruct (str_true path); [done|]. pose proof (first_ready_contract (open_work_items l) l) as Hq.
    destruct (first_ready _ l) as [[] l']; [exact Hq|]. destruct (open_work_items l); exact Hq.
Qed.

Lemma step_contract o l : disposes o = false → (step repr o l).(contract) = l.(contract).
Proof.
  destruct o as [found units files| |why invalidated evidence_|path| | | | |after| | |]; intros Ho; try discriminate Ho; cbn [step].
  - apply observe_call_frame.
  - apply invalidate_frame.
  - apply may_write_contract.
  - by destruct l.
  - apply owes_a_plan_frame.
  - by destruct l.
  - unfold begin_review. case_match; by destruct l.
  - unfold finish. case_match; by destruct l.
Qed.

Lemma note_write_contract paths_ l :
  (note_write paths_ l).(contract) = l.(contract) ∨
  (note_write paths_ l).(contract)
    = foldl (note_item (list_to_set (basename <$> List.filter str_true paths_))) l.(contract) l.(plan_items).
Proof.
  unfold note_write. set (l1 := set_field writes _ l). set (l2 := if str_true _ then l1 else _). cbv zeta. set (l3 := set_field written _ l2).
  assert (l3.(contract) = l.(contract) ∧ l3.(plan_items) = l.(plan_items)) as [<- <-].
  { unfold l3, l2. destruct (str_true _); by destruct l. }
  clearbody l3. case_bool_decide; [by left|right]. by destruct l3.
Qed.

(** C23: a requirement only moves along its lifecycle.  A plan gives it one of
    the four dispositions a plan may state; a write to a file its plan names
    turns a planned or undetermined one into a change awaiting validation;
    and only a validation that passed, or settling after one, turns that
    into an implemented change -- when a plan item for it is proven by what
    ran and what was written.  No other operation moves it. *)
Theorem dispositions_follow_the_lifecycle o l i r r' : well_keyed l.(contract) →
  l.(contract).(items) !! i = Some r → (step repr o l).(contract).(items) !! i = Some r' → transition o l r r'.
Proof.
  intros Hw Hi. destruct (disposes o) eqn:Ho; [|rewrite (step_contract o l Ho); intros Hr; assert (r' = r) as -> by congruence; constructor].
  destruct o as [|raw supersedes why evidence_| | | |paths_|command status covers_| | | | |]; try discriminate Ho; cbn [step].
  - intros [->|Hd]%(record_plan_transition _ _ _ _ _ _ r); [constructor| |done]. by eapply Stated.
  - intros Hr. destruct (note_write_contract paths_ l) as [Hc|Hc]; rewrite Hc in Hr; [assert (r' = r) as -> by congruence; constructor|].
    destruct (note_items_transition _ _ _ i r r' Hw Hi Hr) as [->|(Hd & Hd' & g & Hg & Hm)]; [constructor|]. by eapply Changed.
  - intros Hr. destruct (note_validation_transition command status covers_ l i r r' Hw Hi Hr) as [->|(-> & Hd & Hd' & g & Hg & Hk & Hp)];
      [constructor|]. eapply Proved; eauto.
  - intros Hr. destruct (settle_validated_transition l i r r' Hw Hi Hr) as [->|(Hd & Hd' & g & Hg & Hk & Hp)]; [constructor|].
    destruct (settle_validated_proofs l). eapply Proved; eauto. cbn [step]. by rewrite (proves_same l).
Qed.
End lifecycle.

(** ** What a plan costs to record *)

(** The judgements of wording that were not met and not asked yet. *)
Definition unasked (id : string) (l : WorkPhaseLedger) : nat :=
  (if bool_decide (id ∈ l.(point_asked)) then 0 else 1) + (if bool_decide (id ∈ l.(context_asked)) then 0 else 1)
  + (if bool_decide (id ∈ l.(branch_asked)) then 0 else 1).

Lemma unasked_bound id l : (unasked id l <= 3)%nat.
Proof. unfold unasked. repeat case_bool_decide; lia. Qed.

Lemma asked_point id l : id ∉ l.(point_asked) → (unasked id (l <| point_asked ::= union {[id]} |>) < unasked id l)%nat.
Proof.
  intros Hp. destruct l; unfold unasked, set_field; cbn in *. rewrite (bool_decide_eq_false_2 _ Hp), bool_decide_eq_true_2 by set_solver. lia.
Qed.
Lemma asked_context id l : id ∉ l.(context_asked) → (unasked id (l <| context_asked ::= union {[id]} |>) < unasked id l)%nat.
Proof.
  intros Hp. destruct l; unfold unasked, set_field; cbn in *.
  rewrite (bool_decide_eq_false_2 _ Hp), (bool_decide_eq_true_2 (id ∈ {[id]} ∪ _)) by set_solver. lia.
Qed.
Lemma asked_branch id l : id ∉ l.(branch_asked) → (unasked id (l <| branch_asked ::= union {[id]} |>) < unasked id l)%nat.
Proof.
  intros Hp. destruct l; unfold unasked, set_field; cbn in *.
  rewrite (bool_decide_eq_false_2 _ Hp), (bool_decide_eq_true_2 (id ∈ {[id]} ∪ _)) by set_solver. lia.
Qed.

Section recorded.
  Context (repr : string → string).

(** One item, submitted by itself. *)
Definition submit (raw : dict string string) (l : WorkPhaseLedger) : PlanAcceptance * WorkPhaseLedger :=
  record_plan repr [raw] "" "" "" l.

Definition submitted (raw : dict string string) (l : WorkPhaseLedger) : GapItem := bound l (from_mapping raw).

(** An item that is of the facts: none stands for its provision, and the
    evidence is there. *)
Record supported (raw : dict string string) (l : WorkPhaseLedger) : Prop := {
  sp_new : standing_for (identity (submitted raw l)) l = None;
  sp_backed : unbacked_reason repr (submitted raw l) l = None;
  sp_design : plans_a_change (submitted raw l) = true → design_of (submitted raw l) l ≠ "";
  sp_implementation : backs_implementation (submitted raw l).(implementation_evidence) l.(evidence) = true;
}.

(** A supported item is accepted, or one judgement more is behind it. *)
Lemma judge_supported raw l : supported raw l →
  let '(v, l') := judge repr (submitted raw l) false l in
  v.(vd_accepted) = true ∨ (unasked (identity (submitted raw l)) l' < unasked (identity (submitted raw l)) l)%nat.
Proof.
  intros [Hn Hb Hd Hi]. unfold judge, settled_reason. rewrite Hn, Hb. cbv zeta. set (g := submitted raw l) in *.
  assert (∀ b P `{Decision P}, b && negb (bool_decide P) = true → ¬ P) as Hask
    by (intros b P ? [_ Hp%negb_true_iff]%andb_true_iff; by apply bool_decide_eq_false in Hp).
  destruct (_ && negb (bool_decide (identity g ∈ l.(point_asked)))) eqn:E1; [right; apply asked_point; by eapply Hask|].
  destruct (_ && negb (bool_decide (identity g ∈ l.(context_asked)))) eqn:E2; [right; apply asked_context; by eapply Hask|].
  destruct (_ && negb (bool_decide (identity g ∈ l.(branch_asked)))) eqn:E3; [right; apply asked_branch; by eapply Hask|].
  assert (plans_a_change g && negb (str_true (design_of g l)) = false) as ->.
  { destruct (plans_a_change g); [|done]. by rewrite (proj2 (str_true_spec _) (Hd eq_refl)). }
  rewrite Hi. by left.
Qed.

(** A refused item leaves what it was judged by. *)
Lemma submit_refused raw l : any_accepted (submit raw l).1 = false →
  let l1 := (judge repr (submitted raw l) false l).2 in
  let l' := (submit raw l).2 in
  (judge repr (submitted raw l) false l).1.(vd_accepted) = false ∧
  l'.(point_asked) = l1.(point_asked) ∧ l'.(context_asked) = l1.(context_asked) ∧ l'.(branch_asked) = l1.(branch_asked) ∧
  l'.(evidence) = l.(evidence) ∧ l'.(contract) = l.(contract) ∧ l'.(plan_items) = l.(plan_items).
Proof.
  unfold submit, record_plan. cbn [judge_all str_true String.eqb negb orb andb]. fold (submitted raw l).
  pose proof (judge_asks repr (submitted raw l) false l) as [(b & c & p & Hl1)].
  destruct (judge repr (submitted raw l) false l) as [v l1]. cbn [fst snd] in *. subst l1.
  cbn [List.filter]. destruct (vd_accepted v); cbn [negb]; [done|]. intros _. split; [done|].
  cbn [foldl]. set (l1 := l <| branch_asked := b |> <| context_asked := c |> <| point_asked := p |>).
  assert (l1.(evidence) = l.(evidence) ∧ l1.(contract) = l.(contract) ∧ l1.(plan_items) = l.(plan_items)) as (<- & <- & <-) by by destruct l.
  clearbody l1. cbn [length]. unfold conclude_plan. cbv zeta. destruct (negb _ && _); by destruct l1.
Qed.

Lemma submitted_same raw l l' : l'.(evidence) = l.(evidence) → l'.(contract) = l.(contract) → submitted raw l' = submitted raw l.
Proof. intros He Hc. unfold submitted, bound. by rewrite He, Hc. Qed.

Lemma supported_same raw l l' : l'.(evidence) = l.(evidence) → l'.(contract) = l.(contract) → l'.(plan_items) = l.(plan_items) →
  supported raw l → supported raw l'.
Proof.
  intros He Hc Hp [H1 H2 H3 H4]. pose proof (submitted_same raw l l' He Hc) as Hs.
  split; rewrite ?Hs; unfold standing_for, unbacked_reason, design_of in *; by rewrite ?Hp, ?He.
Qed.

Lemma unasked_same id l l' : l'.(point_asked) = l.(point_asked) → l'.(context_asked) = l.(context_asked) →
  l'.(branch_asked) = l.(branch_asked) → unasked id l' = unasked id l.
Proof. unfold unasked. by intros -> -> ->. Qed.

Lemma submit_until n raw l : (unasked (identity (submitted raw l)) l <= n)%nat → supported raw l →
  ∃ k, (k <= n)%nat ∧ any_accepted (submit raw (Nat.iter k (λ l, (submit raw l).2) l)).1 = true.
Proof.
  revert l. induction n as [|n IH]; intros l Hn Hs; (destruct (any_accepted (submit raw l).1) eqn:Ha; [exists 0%nat; split; [lia|done]|]);
    pose proof (judge_supported raw l Hs) as Hj; apply submit_refused in Ha as (Hv & H1 & H2 & H3 & He & Hc & Hp);
    destruct (judge repr (submitted raw l) false l) as [v l1]; cbn [fst snd] in *; (destruct Hj as [|Hlt]; [congruence|]); [lia|].
  destruct (IH (submit raw l).2) as (k & Hk & Hacc).
  - rewrite (submitted_same raw l) by done. rewrite (unasked_same _ l1) by done. lia.
  - by apply (supported_same raw l).
  - exists (S k). split; [lia|]. by rewrite Nat.iter_succ_r.
Qed.

(** C29: a plan item that is of the facts is not put off for ever: submitted
    again and again, as it is, it is accepted by the fourth time, since each
    of the three judgements of wording refuses it at most once. *)
Theorem a_supported_item_is_accepted raw l : supported raw l →
  ∃ k, (k <= 3)%nat ∧ any_accepted (submit raw (Nat.iter k (λ l, (submit raw l).2) l)).1 = true.
Proof. apply submit_until, unasked_bound. Qed.

(** *** Demands for a plan *)

(** What the turn answers when it is asked whether it owes a plan. *)
Definition demanded (o : operation) (l : WorkPhaseLedger) : nat :=
  match o with OwesAPlan after => if (owes_a_plan after l).1 then 1 else 0 | _ => 0 end.

Fixpoint demands (ops : list operation) (l : WorkPhaseLedger) : nat :=
  match ops with [] => 0 | o :: ops => demanded o l + demands ops (step repr o l) end.

Lemma step_demands o l : (step repr o l).(plan_demands) = l.(plan_demands) + Z.of_nat (demanded o l) ∧
  ((0 < demanded o l)%nat → l.(plan_demands) < MAX_PLAN_DEMANDS).
Proof.
  destruct (plans o) eqn:Ho; [|rewrite (qt_demands _ _ (quiet_step repr o l Ho)); destruct o; try done; cbn; lia].
  destruct o as [found units files|raw supersedes why evidence_|why invalidated evidence_| | | | | |after| | |]; try done; cbn [step demanded].
  - destruct (observe_call_frame found units files l) as [_ _ _ _ _ -> _]. lia.
  - pose proof (record_plan_spec repr raw supersedes why evidence_ l) as Hs. destruct (record_plan _ _ _ _ _ l) as [a l']. cbv zeta in Hs.
    destruct Hs as (_ & _ & _ & _ & _ & _ & _ & _ & Hd & _). cbn [snd]. lia.
  - destruct (invalidate_frame why invalidated evidence_ l) as (_ & _ & _ & _ & _ & ->). lia.
  - destruct (owes_a_plan_frame after l) as (_ & _ & _ & _ & _ & -> & Hb). destruct (owes_a_plan after l) as [[] l']; cbn [fst] in *; [auto|lia].
Qed.

(** A turn is asked for a plan no more than twice, however long it goes on
    reading. *)
Theorem a_plan_is_demanded_at_most_twice ops bound_ requested root_ prior requirements :
  (demands ops (engage bound_ requested root_ prior requirements fresh_ledger) <= 2)%nat.
Proof.
  assert (∀ l, l.(plan_demands) <= MAX_PLAN_DEMANDS →
    Z.of_nat (demands ops l) <= MAX_PLAN_DEMANDS - l.(plan_demands)) as Hgen.
  { induction ops as [|o ops IH]; intros l Hl; cbn [demands]; [lia|]. destruct (step_demands o l) as [Hd Hb].
    assert (demanded o l <= 1)%nat as H1 by (unfold demanded; repeat case_match; lia).
    specialize (IH (step repr o l)). rewrite Hd in IH. unfold MAX_PLAN_DEMANDS in *. lia. }
  set (l := engage _ _ _ _ _ _). assert (l.(plan_demands) = 0) as Hl by (unfold l, engage; by repeat case_match).
  specialize (Hgen l). rewrite Hl in Hgen. unfold MAX_PLAN_DEMANDS in Hgen. lia.
Qed.
End recorded.
