(* ===== verification/WorkPhaseExamples.v ===== *)
(** * The lifecycle of a change, on a small contract *)

From Stdlib Require Import Ascii.
From S2P Require Import Prelude Texts Values Regex RequirementSet RequirementSetProps WorkPhase WorkPhaseFacts WorkPhaseProps.
From S2P Require Import Codec ToolRegistry ResultStore ToolRouter ToolRouterProps ToolRouterSessions WorkPhaseGate WorkPhaseLifecycle.

#[local] Open Scope Z_scope.
Open Scope py_scope.
Import WorkPhase.

Module ChangeExamples.

Definition reply_rule : Requirement :=
  mk_requirement "rule 4.3-1" "4.3" "std-0123abcd" "requirement" "The device shall reply when it is asked." [] "when it is asked" "cited"
    (dv UNDETERMINED) "" false [].
Definition name_rule : Requirement :=
  mk_requirement "rule 5.1-2" "5.1" "std-0123abce" "requirement" "The device shall keep its name." [] "" "cited" (dv UNDETERMINED) "" false [].
Definition sample_contract : RequirementSet := mk_set [reply_rule; name_rule] "an answer".

Definition started_turn : WorkPhaseLedger :=
  observe_call [] 0 ["src/reply.c"] (engage true true "" [] (Some sample_contract) fresh_ledger).

Definition reply_item : dict string string :=
  [("requirement", "Reply when asked"); ("requirement_evidence", "Rule 4.3-1"); ("current_behaviour", "nothing is sent");
   ("implementation_evidence", "reply.c"); ("gap", "no reply"); ("correction", "send the reply in reply.c");
   ("validation", "When asked, expect a reply in a new test")].

Abbreviation no_repr := (λ _ : string, "").
Definition plan_reply : operation := RecordPlan [reply_item] "" "" "".
Definition planned_turn : WorkPhaseLedger := turn no_repr started_turn [plan_reply; plan_reply].

(** The plan is refused once, for what the test expects otherwise, then
    accepted, and the gate opens for its file and no other. *)
Example plan_refused_then_accepted :
  (length (WorkPhaseProps.step no_repr plan_reply started_turn).(plan_items), length planned_turn.(plan_items)) = (0%nat, 1%nat).
Proof. vm_compute. reflexivity. Qed.

Example gate_opens_for_the_planned_file :
  (λ path, (may_write path planned_turn).1.(allowed)) <$> ["src/reply.c"; "src/other.c"; ""] = [true; false; true].
Proof. vm_compute. reflexivity. Qed.
(** Every pattern is read in full; what is not read matches nothing. *)
Example wording_is_read : forallb (λ r, match r with RNone => false | _ => true end) wording = true.
Proof. vm_compute. reflexivity. Qed.

(** ** Witnesses *)

Lemma a_wrong_plan_blocks_writes_witness :
  ∃ ops1 o ops2, [plan_reply; plan_reply] = ops1 ++ o :: ops2 ∧
    plan_recorded no_repr o (turn no_repr (invalidate "wrong" "Reply when asked" "" planned_turn) ops1) = true.
Proof. apply (a_wrong_plan_blocks_writes no_repr planned_turn _ "wrong" "Reply when asked" "" "src/reply.c"); vm_compute; reflexivity. Defined.

Lemma dispositions_follow_the_lifecycle_witness : ∃ r r',
  planned_turn.(contract).(items) !! 0%nat = Some r ∧
  transition no_repr (NoteWrite ["src/reply.c"]) planned_turn r r' ∧ r'.(rq_disposition) = dv CODE_CHANGED_AWAITING_VALIDATION.
Proof.
  eexists _, _. split; [vm_compute; reflexivity|]. split.
  - eapply (dispositions_follow_the_lifecycle no_repr (NoteWrite ["src/reply.c"]) planned_turn 0); [|vm_compute; reflexivity..].
    split; [apply (bool_decide_unpack _); vm_compute; exact Logic.I|]. vm_compute. repeat constructor.
  - reflexivity.
Defined.

Lemma a_supported_item_is_accepted_witness :
  ∃ k, (k <= 3)%nat ∧ any_accepted (submit no_repr reply_item (Nat.iter k (λ l, (submit no_repr reply_item l).2) started_turn)).1 = true.
Proof.
  apply (a_supported_item_is_accepted no_repr reply_item started_turn).
  split; [vm_compute; reflexivity..|vm_compute; discriminate|vm_compute; reflexivity].
Defined.

Lemma a_stored_contract_is_read_back_witness :
  RequirementSet_from_dict (λ _ _, false) (λ _, "") (RequirementSet_to_dict sample_contract) = Ok sample_contract.
Proof. apply a_stored_contract_is_read_back. repeat (constructor; [by split|]). constructor. Defined.

(** A router whose world is the ledger of the turn. *)
#[local] Instance open_policy : RequestPolicy WorkPhaseLedger unit := {
  sibling_write_refusal _ _ _ := ""; outside_project_refusal _ _ _ := ""; shell_write_refusal _ _ _ _ := "";
  shell_write_targets _ _ _ _ := []; target_refusal _ _ := "";
}.

Definition noting_handler : Handler WorkPhaseLedger := λ _ args c,
  (c <| ToolRouter.world ::= note_write [target_of args] |>, Returned (Legacy (Text "written"))).

Definition edit_registry : ToolRegistry (Handler WorkPhaseLedger) :=
  match register_all (λ _, Some noting_handler) [RouterExamples.write_spec] [] with Ok r => r | Raise _ => [] end.

Definition edit_context : ToolExecutionContext WorkPhaseLedger unit :=
  mk_context _ _ "task" true None None (λ _, None) "main" None false false (Some tt) (phase_gate id planned_turn) "auto".

Definition edit_state : state WorkPhaseLedger := mk_state (mk_shared planned_turn []) empty_ledger ∅ [] [].

Abbreviation edit_run path := (execute (λ _ _, false) (λ _, "") (λ s, s) bits_dumps toy_hash bits_dumps edit_registry edit_context
  "call" "action" "write_file" (RouterExamples.path_args path) edit_state).

Lemma edit_context_gate : edit_context.(write_gate) = phase_gate id (id edit_state.(cache).(ToolRouter.world)).
Proof. unfold edit_context, edit_state. cbn [write_gate cache ToolRouter.world]. unfold id. reflexivity. Qed.

Lemma no_edit_before_its_plan_witness :
  gate_open (target_of (without_scope_reason (RouterExamples.path_args "src/reply.c"))) (id edit_state.(cache).(ToolRouter.world)).
Proof.
  destruct (no_edit_before_its_plan id bits_dumps edit_registry (λ _ _, false) (λ _, "") (λ s, s) toy_hash bits_dumps
    edit_context "call" "action" "write_file" (RouterExamples.path_args "src/reply.c") edit_state _ _ ltac:(vm_compute; reflexivity)
    edit_context_gate (surjective_pairing (edit_run "src/reply.c"))) as (spec & Hs & Hg).
  - eexists _, _. split; [vm_compute; reflexivity|reflexivity].
  - apply Hg. assert (get_spec "write_file" edit_registry = Ok RouterExamples.write_spec) as He by (vm_compute; reflexivity).
    rewrite He in Hs. injection Hs as <-. reflexivity.
Defined.

(** ** What the model shows of the code *)

(** A validation that passed before the last write still counts. *)
Example validated_before_the_write :
  let l := turn no_repr planned_turn [NoteValidation "make test" "passed" []; NoteWrite ["src/reply.c"]] in
  (validated l, already_validated "make test" l) = (true, false).
Proof. vm_compute. reflexivity. Qed.

Definition moving_item : dict string string :=
  dict_set "correction" "call send() from the handler in reply.c" reply_item.

(** The gap that a call moved without evidence is not kept when there is a
    second one. *)
Example the_second_gap_replaces_the_first :
  let l := turn no_repr started_turn [RecordPlan [moving_item] "" "" ""; RecordPlan [moving_item] "" "" ""; RecordPlan [moving_item] "" "" ""] in
  (moves_without_sites <$> l.(plan_items), branch_gap <$> l.(plan_items))
  = ([true], ["tests only the case where the condition holds (when it is asked)"]).
Proof. vm_compute. reflexivity. Qed.

(** Provisions past the limit are left out without a trace. *)
Example provisions_past_the_limit_are_dropped :
  let p n := mk_provision n n "" (Some 3) "The device shall." in
  rq_key <$> (publish (Some [p "1.1"; p "1.2"; p "1.3"]) "" "" 2).(items) = ["1.1"; "1.2"].
Proof. vm_compute. reflexivity. Qed.
End ChangeExamples.
