(* ===== verification/RequestIntent.v ===== *)
(** * Whether the operator asked for a change: [context/request_intent.py]

    The deterministic reading of a message, and how a model's reading is
    combined with it.  Texts have code points below 256; folding is that of
    [str.lower] but for the sharp s, and the micro sign folds to itself. *)

From Stdlib Require Import Ascii.
From S2P Require Import Prelude Texts Values Regex.

Open Scope py_scope.

(** ** Patterns *)

Definition ADVISORY_OPENER : regex := pattern I
  ("^\W*(?:"
   +:+ "(?:and|so|but|then|also|ok|okay|hmm|well)\W+)?(?:"
   +:+ "(?:could|can|should|shall|may|might|would|must)\s+(?:we|i|one|it|this|"
   +:+ "that|these|those|there|the\b)"
   +:+ "|(?:would|will|is|was)\s+it\s+(?:be\s+)?(?:possible|feasible|better|"
   +:+ "wise|reasonable|a\s+good\s+idea|make\s+sense|sensible|worth)"
   +:+ "|(?:does|would|will)\s+it\s+make\s+sense"
   +:+ "|is\s+there\s+(?:a|any)\s+(?:way|reason|chance|option)"
   +:+ "|how\s+(?:could|can|would|should|might|shall)\s+(?:we|i|one|this|"
   +:+ "that|it|these|those)\b"
   +:+ "|how\s+(?:hard|difficult|easy|risky|much\s+work)\b"
   +:+ "|what\s+(?:would|could|if|about|should\s+we|do\s+we\s+need|"
   +:+ "(?:is|are)\s+(?:needed|required)\s+to|(?:would|does)\s+it\s+take)\b"
   +:+ "|why\s+(?:not|don'?t\s+we|do\s+we)\b"
   +:+ "|(?:i\s+)?wonder(?:ing)?\s+(?:if|whether)"
   +:+ "|(?:pourrait|peut|devrait|faudrait)[-\s](?:on|il)\b"
   +:+ "|(?:serait|est)[-\s]il\s+(?:possible|envisageable|faisable|utile)"
   +:+ "|est[-\s]ce\s+qu"
   +:+ "|comment\s+(?:pourrait|peut|faudrait|faire)"
   +:+ "|et\s+si\b"
   +:+ ")").

(** One letter, of code point 238. *)
Definition i_circumflex : string := String "238" "".

Definition FOLLOW_UP : regex := pattern I
  ("^\W*(?:(?:yes|yep|yeah|ok(?:ay)?|sure|fine|good|great|right|oui|"
   +:+ "d'accord|parfait|ok\s+go)\b[\s,.!]*)*(?:please\s+|s'il\s+te\s+pla[i" +:+ i_circumflex +:+ "]t\s+)?"
   +:+ "(?:(?:do|apply|make|implement|go\s+(?:for|with))\s+(?:it|that|this|them|"
   +:+ "those|these|so)\b"
   +:+ "|go\s+ahead|proceed|let'?s\s+(?:do|go)|ship\s+it|make\s+it\s+so"
   +:+ "|vas[-\s]y|allez[-\s]y|fais[-\s](?:le|la|les)|applique[-\s](?:le|la)"
   +:+ "|on\s+y\s+va)\b"
   +:+ "|^\W*(?:yes|yep|yeah|oui)(?:\s+please|\s+s'il\s+te\s+pla[i" +:+ i_circumflex +:+ "]t)?\W*$").

Definition POLITE_REQUEST : regex := pattern I
  "^\W*(?:please\s+)?(?:could|can|would|will)\s+you\s+(?:please\s+)?".

Definition SENTENCE : regex := pattern plain "[^.?!\n]+(?:[.?!]+|$)".

(** ** The message, sentence by sentence *)

Definition sentence_marks : string := " " +:+ String "009" ".?!".

Definition sentences (text : string) : list string :=
  py_strip <$> List.filter (λ item, str_true (strip_chars sentence_marks item)) (findall SENTENCE text).

Definition advisory_sentence (sentence : string) : bool := searches ADVISORY_OPENER sentence.

Definition follow_up (text : string) : bool := existsb (searches FOLLOW_UP) (sentences text).

(** What is left of a sentence after a polite opening. *)
Definition polite (item : string) : option string := (λ m, (m_to m).2) <$> match_ POLITE_REQUEST item.

Inductive intent := WRITE | ADVISORY | UNKNOWN.
#[export] Instance intent_eq_dec : EqDecision intent.
Proof. solve_decision. Defined.

Section reading.
  (** The pattern of a request to write. *)
  Context (write_pattern : regex).

Fixpoint read_sentences (answered advisory : bool) (items : list string) : intent :=
  match items with
  | [] => if advisory then ADVISORY else UNKNOWN
  | item :: items =>
      if answered && searches FOLLOW_UP item then WRITE else
      match polite item with
      | Some rest => if searches write_pattern rest then WRITE else read_sentences answered advisory items
      | None => if advisory_sentence item then read_sentences answered true items
                else if searches write_pattern item then WRITE else read_sentences answered advisory items
      end
  end.

Definition mutation_intent (text : string) (answered : bool) : intent := read_sentences answered false (sentences text).

Definition advisory (text : string) : bool := bool_decide (mutation_intent text false = ADVISORY).
End reading.

(** ** Whether there is an answer to accept *)

(** A message: who it is from, who wrote it, and the texts of its blocks. *)
Record message := mk_message { role : string; authored_by : string; texts : list string }.

Definition by_operator (m : message) : bool :=
  String.eqb m.(role) "user" && String.eqb m.(authored_by) "operator" && existsb str_true m.(texts).

Fixpoint answered_from (seen_operator : bool) (newest_first : list message) : bool :=
  match newest_first with
  | [] => false
  | m :: rest =>
      if by_operator m then if seen_operator then false else answered_from true rest
      else if String.eqb m.(role) "assistant" && seen_operator then true else answered_from seen_operator rest
  end.

Definition answered (conversation : list message) : bool := answered_from false (rev conversation).

(** ** The model's reading *)

Definition YES : string := "write".
Definition NO : string := "ask".

Definition verdict_marks : string := ".,:;!?*_`" +:+ String "034" "'".

Definition verdict (text : string) : option bool :=
  match words text with
  | [] => None
  | first :: _ =>
      let word := py_casefold (strip_chars verdict_marks first) in
      if String.eqb word YES then Some true else if String.eqb word NO then Some false else None
  end.

(** What a backend does with the question: it raises, or gives a turn with an
    error, or a text. *)
Inductive completion := Raises | Errs | Says (text : string).

(** [judge]: [charged] is how the budget answers, where there is one. *)
Definition judge (backend : option (string → completion)) (question : string) (charged : option bool) : option bool :=
  match backend with
  | None => None
  | Some ask =>
      if negb (str_true (py_strip question)) then None else
      if bool_decide (charged = Some false) then None else
      match ask (String.substring 0 2000 question) with
      | Raises | Errs => None
      | Says text => verdict text
      end
  end.

(** The floor, raised by the reading. *)
Definition resolve (pattern_says : bool) (model_says : option bool) : bool := pattern_says || bool_decide (model_says = Some true).
