(* ===== verification/AgentNotes.v ===== *)
(** * What a turn is told, and what it may do: [client/runtime/agent_notes.py]

    The reading of a request as one to write, decided once per turn; the
    guard on results that come back again; the claims an answer makes.  Two
    signs of the messages are not of the character set of the model: the
    warning sign is left out and a dash is written as two. *)

From Stdlib Require Import Ascii.
From S2P Require Import Prelude Texts Values Codec Regex ToolRouter RequirementSet WorkPhase RequestIntent.

#[local] Open Scope Z_scope.
Open Scope py_scope.

(** ** The tools of a round narrowed to writing *)

Definition WRITE_TOOLS : list string := ["edit_file"; "patch"; "write_file"; "append_file"].
Definition COMMAND_TOOLS : list string := ["bash"; "terminal"].

(** Asking the gate couples the candidates, as any question to it does. *)
Definition write_round_tools (phase : option WorkPhaseLedger) : list string * option WorkPhaseLedger :=
  match phase with
  | None => (WRITE_TOOLS, None)
  | Some l =>
      if l.(engaged) then
        let '(d, l) := may_write "" l in (if d.(allowed) then WRITE_TOOLS else WRITE_TOOLS ++ [PLAN_TOOL], Some l)
      else (WRITE_TOOLS, Some l)
  end.

(** ** Results that come back *)

Definition REPEAT_NOTICE : nat := 2.
Definition REPEAT_REFUSE : nat := 3.
Definition REPEAT_MIN_CHARS : nat := 200.

(** What the guard asks of an envelope. *)
Record delivery := mk_delivery { dv_text : string; dv_mutation : bool; dv_success : bool; dv_call : string }.

Section repeats.
  Context (hash : string → string).

Definition exempt (e : delivery) : bool :=
  e.(dv_mutation) || negb e.(dv_success) || (String.length e.(dv_text) <? REPEAT_MIN_CHARS)%nat.

Definition repeat_key (e : delivery) : string := hash (encode_utf8 e.(dv_text)).

(** The calls a result was delivered to, under its hash. *)
Abbreviation deliveries := (gmap string (list string)).

Definition repeated_result (visible : string → bool) (e : delivery) (seen : deliveries) : nat * deliveries :=
  if exempt e then (O, seen) else
  let key := repeat_key e in
  let delivered := List.filter visible (default [] (seen !! key)) in
  let count := S (length delivered) in
  (count, <[key := if (count <? REPEAT_REFUSE)%nat then delivered ++ [e.(dv_call)] else delivered]> seen).
End repeats.

Definition with_repeat_note (content : string) (count : nat) : string :=
  let earlier := pretty (Z.of_nat count - 1) in
  if (REPEAT_REFUSE <=? count)%nat
  then "REFUSED: this call returns a result you have already been given " +:+ earlier +:+ " times. Nothing about it has changed. Use what you have, or do something different -- and if the task asks you to change the code, change it."
  else content +:+ String newline (String newline "") +:+ "[the same result as " +:+ earlier +:+ " earlier call(s) this turn: reading it again will not add anything]".

(** ** Rounds and budgets *)

Definition INTENT_RE : regex := pattern I
  ("\b(let me|let's|let us|i'?ll|i will|i'?m going to|going to|"
   +:+ "first,? (?:let|i|read|check)|now (?:let|i)|here'?s what)\b").

Definition MULTI : flags := mk_flags false true false.
Definition FABRICATION_RE : regex := pattern MULTI "^\s*\[tool\].*$".

Definition strip_fabrications (text : string) : string := re_sub FABRICATION_RE (λ _, "") text.

Definition REFUSED : list ToolResultStatus := [DENIED; UNKNOWN_TOOL; INVALID_ARGUMENTS].

Definition round_was_all_refused (round : list ToolResultStatus) : bool :=
  negb (bool_decide (length round = 0%nat)) && forallb (λ s, bool_decide (s ∈ REFUSED)) round.

(** [configured]: the ceiling of the environment, 40 where there is none. *)
Definition investigation_ceiling (configured round_limit : Z) : Z := Z.min configured (Z.max 12 (round_limit / 5)).

(** Four fifths of the limit; the product is exact below 2^53. *)
Definition past_wall_fraction (limit consumed : option Z) : bool :=
  match limit with
  | Some amount => (0 <? amount) && (8 * amount <=? 10 * default 0 consumed)
  | None => false
  end.

Definition blank_line : string := String newline (String newline "").

(** The operator's own words of this turn. *)
Definition asked (conversation : list RequestIntent.message) : string :=
  match List.find by_operator (rev conversation) with
  | Some m => String.concat (String newline "") (List.filter str_true m.(texts))
  | None => ""
  end.

Definition looks_like_preamble (text : string) : bool :=
  let value := py_strip text in
  (0 <? String.length value)%nat && (String.length value <=? 400)%nat && searches INTENT_RE value.

(** ** What an answer claims *)

Definition DONE_VERB : string :=
  "(?:created|written|added|updated|modified|fixed|implemented|completed|applied|done|made)".

Definition CHANGE_CLAIM_RE : regex := pattern I
  ("\b(?:i (?:have |'ve )?" +:+ DONE_VERB
   +:+ "|(?:has|have|had|was|were|is|are)\s+(?:\w+\s+){0,2}been\s+" +:+ DONE_VERB
   +:+ "|(?:was|were)\s+(?:\w+\s+){0,2}" +:+ DONE_VERB
   +:+ ")\b").
Definition FILE_TOKEN_RE : regex := pattern plain "[\w./-]+\.[A-Za-z]\w{0,4}\b".
Definition ANNOUNCED_CHANGE_RE : regex := pattern I
  ("\b(?:i'?(?:ll|m going to)|i will|let me|now i'?ll|next,? i'?ll|"
   +:+ "i can|i'?m about to|going to)\s+"
   +:+ "(?:\w+\s+){0,4}?"
   +:+ "(?:implement|make|apply|add|create|write|update|modify|change|fix|"
   +:+ "edit|introduce|refactor|rename|remove|delete)\b").

(** [entry.split(" ", 1)[0]] *)
Definition tool_of (entry : string) : string := (partition " " entry).1.

Definition logged_write (tool_log : list string) : bool := existsb (λ entry, bool_decide (tool_of entry ∈ WRITE_TOOLS)) tool_log.

Definition announced_but_unmade_change (text : string) (tool_log : list string) (did_modify : bool) : bool :=
  if did_modify || negb (str_true text) then false else
  if logged_write tool_log then false else searches ANNOUNCED_CHANGE_RE text && searches FILE_TOKEN_RE text.

Definition CLAIM_NOTE : string :=
  blank_line +:+ "Nothing was written this turn: no file was created or modified, and the tool log holds only reads. Any claim above that a file was created or updated describes work that did not happen here -- treat it as a plan, not a result.".

Definition unsupported_change_claim (text : string) (tool_log : list string) (did_modify : bool) : string :=
  if did_modify || negb (str_true text) then "" else
  if logged_write tool_log then "" else
  if negb (searches CHANGE_CLAIM_RE text) || negb (searches FILE_TOKEN_RE text) then "" else CLAIM_NOTE.

Definition EXIT_FAILED : regex := pattern plain "\(exit [1-9]".
Definition quote : string := String "034" "".
Definition LOGGED_PATH : regex := pattern plain (quote +:+ "path" +:+ quote +:+ "\s*:\s*" +:+ quote +:+ "([^" +:+ quote +:+ "]+)" +:+ quote).

(** Commands run, those that failed, and the files changed. *)
Record tally := mk_tally { commands : Z; failures : Z; modified : list string }.

Definition count_entry (t : tally) (entry : string) : tally :=
  let '(head, rest) := partition (String newline "") entry in
  let output := default "" rest in
  let name := tool_of head in
  if bool_decide (name ∈ COMMAND_TOOLS) then
    mk_tally (t.(commands) + 1)
      (if String.prefix "ERROR:" output || searches EXIT_FAILED output then t.(failures) + 1 else t.(failures)) t.(modified)
  else if bool_decide (name ∈ WRITE_TOOLS) then
    match search LOGGED_PATH head with
    | Some m => if String.prefix "OK" output then mk_tally t.(commands) t.(failures) (t.(modified) ++ [default "" (group 1 m)]) else t
    | None => t
    end
  else t.

Definition turn_evidence (tool_log : list string) : string :=
  match tool_log with
  | [] => ""
  | _ =>
      let t := foldl count_entry (mk_tally 0 0 []) tool_log in
      let files := if bool_decide (length t.(modified) = 0%nat) then "none" else String.concat ", " (unique t.(modified)) in
      blank_line +:+ "Facts from this turn's tool log -- " +:+ pretty t.(commands) +:+ " command(s) run, " +:+ pretty t.(failures)
      +:+ " of them exited non-zero; files changed: " +:+ files
      +:+ ". Base your summary on tool results, not on what you meant to do. If you report behaviour as working, name the cases whose output you actually saw, and say which cases you did not test. A command that printed nothing did not confirm anything."
  end.

(** ** Whether the turn was asked to write *)

(** One letter, of code point 233. *)
Definition e_acute : string := String "233" "".

Definition WRITE_REQUEST_RE : regex := pattern I
  ("\b(?:do|make|apply|carry\s+out|perform)\s+(?:the\s+|these\s+|those\s+|"
   +:+ "all\s+(?:the\s+)?)?(?:\w+\s+){0,2}?(?:modifications?|changes?|edits?|"
   +:+ "task|work|fix(?:es)?)"
   +:+ "|(?:^|[.!?;:]\s+)(?:please\s+)?make\s+(?:the\s+|this\s+|that\s+|our\s+)?"
   +:+ "(?:[A-Za-z_]\w*\(\)|[\w/-]{2,}\.(?:c|h|cc|cpp|hpp|py|rs|go|js|ts|java|sh)\b|"
   +:+ "(?:implementation|code|function|method|class|module|script|program|build|"
   +:+ "tests?|driver|firmware|encoder|decoder|parser|header)\b)"
   +:+ "|\b(?:implement|write|edit|patch|refactor|rename|add|create|update|fix|"
   +:+ "modify|remove|delete|adapt|adjust|amend|revise|rework|correct|move|"
   +:+ "relocate)\b"
   +:+ "|\b(?:fais|faire|applique|impl" +:+ e_acute +:+ "mente|implementer|impl" +:+ e_acute +:+ "menter|corrige|"
   +:+ "modifie|modifier|adapte|adapter|ajuste|ajuster|ajoute|" +:+ e_acute +:+ "cris|ecris)\b").

Definition is_write_request (question : string) : bool :=
  match mutation_intent WRITE_REQUEST_RE question false with
  | WRITE => true
  | ADVISORY => false
  | UNKNOWN => searches WRITE_REQUEST_RE question
  end.

(** What a turn knows of its request: whether it may write, what was decided,
    and what may be asked of the model. *)
Record request := mk_request {
  read_only : bool;
  write_request : option bool;
  conversation : list RequestIntent.message;
  judge_intent : bool;
  backend : option (string → completion);
}.
#[export] Instance request_eta : Eta request :=
  λ c, mk_request c.(read_only) c.(write_request) c.(conversation) c.(judge_intent) c.(backend).

(** What the words say, before the model is asked. *)
Definition pattern_says (c : request) (question : string) : bool :=
  is_write_request question
  || bool_decide (mutation_intent WRITE_REQUEST_RE question (RequestIntent.answered c.(conversation)) = WRITE).

(** [wants_write]: the answer, the turn that remembers it, and whether the
    model was asked; [charged] is how the budget of the turn answers. *)
Definition wants_write (charged : option bool) (question : string) (c : request) : bool * request * bool :=
  if c.(read_only) then (false, c <| write_request := Some false |>, false) else
  match c.(write_request) with
  | Some decided => (decided, c, false)
  | None =>
      if advisory WRITE_REQUEST_RE question then (false, c <| write_request := Some false |>, false) else
      let says := pattern_says c question in
      let asks := negb says && c.(judge_intent) in
      let answer := resolve says (if asks then judge c.(backend) question charged else None) in
      (answer, c <| write_request := Some answer |>, asks)
  end.

Definition may_demand_write (c : request) : bool := negb c.(read_only).

Definition carried_obligations {A} (prior : list A) (c : request) (question : string) : list A :=
  if bool_decide (length prior = 0%nat) || negb (may_demand_write c) then [] else if is_write_request question then prior else [].

(** ** Demands *)

Definition MAKE_THE_EDIT : string :=
  "You have investigated enough. The user asked you to change the code, so this turn is not finished until a file changes. Make ONE small edit_file change now: the single most important edit, with a SHORT old_text (the few exact lines to replace, copied verbatim from what you read) and the new_text. Call NO other tool first: no shell command and no retrieval of any kind. Told only to stop reading files, a turn spent its last seven rounds on retrieval instead and wrote nothing. Do NOT rewrite whole files, do NOT summarise what you read, and do NOT report the task as already done -- nothing has been written yet. You can make more small edits after this one.".
Definition ANSWER_THE_QUESTION : string :=
  "You have investigated enough. Conclude now, with no further bash/grep/find/cat/read commands. The user asked whether or how something could be changed; they did not ask for the change. Answer that: say whether it is feasible, what would have to change and in which files (cite the exact paths), and the trade-offs. Do NOT edit anything -- the change is theirs to ask for next.".
Definition CONCLUDE_EITHER_WAY : string :=
  "You have investigated enough. Conclude now, with no further bash/grep/find/cat/read commands. If the user asked a question, answer it from what you found, citing the exact paths. If a change was requested, make ONE small edit_file change: the single most important fix, with a SHORT old_text (the few exact lines to replace) and the new_text -- do NOT rewrite the whole file, keep it under ~15 lines so it completes. You can make more small edits after.".

Definition conclude_demand (question : string) (is_write : option bool) : string :=
  if default (is_write_request question) is_write then MAKE_THE_EDIT
  else if advisory WRITE_REQUEST_RE question then ANSWER_THE_QUESTION
  else CONCLUDE_EITHER_WAY.

(** ** What a model's turn is *)

Inductive StopReason := END_TURN | TOOL_USE | MAX_TOKENS | REFUSAL | ERROR | OTHER.
#[export] Instance StopReason_eq_dec : EqDecision StopReason.
Proof. solve_decision. Defined.

Definition stop_reason_value (r : StopReason) : string :=
  match r with
  | END_TURN => "end_turn" | TOOL_USE => "tool_use" | MAX_TOKENS => "max_tokens" | REFUSAL => "refusal"
  | ERROR => "error" | OTHER => "other"
  end.

(** The message of the error is the exception. *)
Definition validate_agent_turn (stop_reason : StopReason) (tool_calls : nat) (error : option string) : res string string :=
  let calls := negb (bool_decide (tool_calls = 0%nat)) in
  if bool_decide (stop_reason = TOOL_USE) then
    if calls then Ok "tool_use" else Raise "provider returned TOOL_USE without tool_calls"
  else if calls then Raise ("provider returned tool_calls with terminal stop_reason " +:+ stop_reason_value stop_reason)
  else match stop_reason with
       | END_TURN => Ok "end_turn"
       | REFUSAL => Ok "refusal"
       | _ => Raise (str_or (default "" error) ("model backend stopped with " +:+ stop_reason_value stop_reason))
       end.
