(* ===== verification/RequestIntentProps.v ===== *)
(** * Reading a request: what asks for a change, and who decides *)

From Stdlib Require Import Ascii.
From S2P Require Import Prelude Texts Values Codec ToolRouter Regex RequirementSet RequirementSetProps WorkPhase RequestIntent AgentNotes.

#[local] Open Scope Z_scope.
Open Scope py_scope.

(** ** Sentences *)

Section sentences.
  Context (write_pattern : regex).

(** A sentence asks for a change: it accepts a proposal, it is a polite
    request whose rest names a change, or it names one without deliberating. *)
Definition asks (answered : bool) (item : string) : bool :=
  answered && searches FOLLOW_UP item
  || match polite item with
     | Some rest => searches write_pattern rest
     | None => negb (advisory_sentence item) && searches write_pattern item
     end.

Definition deliberates (item : string) : bool := bool_decide (polite item = None) && advisory_sentence item.

Lemma read_sentences_spec answered advisory items :
  match read_sentences write_pattern answered advisory items with
  | WRITE => ∃ item, item ∈ items ∧ asks answered item = true
  | ADVISORY => (∀ item, item ∈ items → asks answered item = false) ∧ (advisory = true ∨ ∃ item, item ∈ items ∧ deliberates item = true)
  | UNKNOWN => advisory = false ∧ ∀ item, item ∈ items → asks answered item = false ∧ deliberates item = false
  end.
Proof.
  revert advisory. induction items as [|item items IH]; intros advisory; cbn [read_sentences].
  - destruct advisory; (split; [done || by intros ? ?%elem_of_nil|]); [by left|by intros ? ?%elem_of_nil].
  - assert (asks answered item = answered && searches FOLLOW_UP item || match polite item with
       | Some rest => searches write_pattern rest | None => negb (advisory_sentence item) && searches write_pattern item end) as Ha by done.
    assert (deliberates item = bool_decide (polite item = None) && advisory_sentence item) as Hd by done.
    destruct (answered && searches FOLLOW_UP item); cbn [orb] in Ha; [exists item; split; [apply list_elem_of_here|done]|].
    destruct (polite item) as [rest|]; cbn in Hd.
    + destruct (searches write_pattern rest); [exists item; split; [apply list_elem_of_here|done]|]. specialize (IH advisory).
      destruct (read_sentences _ _ _ _); set_solver.
    + destruct (advisory_sentence item); cbn [negb andb] in Ha.
      * specialize (IH true). destruct (read_sentences _ _ _ _); [set_solver| |naive_solver].
        destruct IH as [H1 _]. split; [set_solver|]. right. exists item. split; [apply list_elem_of_here|done].
      * destruct (searches write_pattern item); [exists item; split; [apply list_elem_of_here|done]|]. specialize (IH advisory).
        destruct (read_sentences _ _ _ _); set_solver.
Qed.

(** A message asks for a change exactly when one of its sentences does,
    whatever the others deliberate about; it is a question about a change
    when none asks and one deliberates, and says nothing otherwise. *)
Theorem intent_is_read_by_sentence text answered :
  match mutation_intent write_pattern text answered with
  | WRITE => ∃ item, item ∈ sentences text ∧ asks answered item = true
  | ADVISORY => (∀ item, item ∈ sentences text → asks answered item = false) ∧ ∃ item, item ∈ sentences text ∧ deliberates item = true
  | UNKNOWN => ∀ item, item ∈ sentences text → asks answered item = false ∧ deliberates item = false
  end.
Proof.
  unfold mutation_intent. pose proof (read_sentences_spec answered false (sentences text)) as Hr.
  destruct (read_sentences _ _ _ _); naive_solver.
Qed.
End sentences.

(** ** Whether there was an answer *)

Lemma answered_from_true newest_first : answered_from true newest_first = true ↔
  ∃ later a earlier, newest_first = later ++ a :: earlier ∧ a.(role) = "assistant" ∧ Forall (λ m, by_operator m = false) later.
Proof.
  induction newest_first as [|m rest IH]; cbn [answered_from].
  - split; [done|]. by intros ([|? ?] & ? & ? & ? & _).
  - destruct (by_operator m) eqn:Hm.
    + split; [done|]. intros ([|m' later] & a & earlier & [= <- ->] & Ha & Hf); [|inversion Hf; congruence].
      unfold by_operator in Hm. by rewrite Ha in Hm.
    + destruct (String.eqb_spec m.(role) "assistant") as [Ha|Ha]; cbn [andb].
      * split; [|done]. intros _. by exists [], m, rest.
      * rewrite IH. split.
        -- intros (later & a & earlier & -> & Ha' & Hf). exists (m :: later), a, earlier. split_and!; [done..|by constructor].
        -- intros ([|m' later] & a & earlier & [= <- ->] & Ha' & Hf); [done|]. inversion Hf. eauto 6.
Qed.

Lemma answered_from_false newest_first : answered_from false newest_first = true ↔
  ∃ later u rest, newest_first = later ++ u :: rest ∧ by_operator u = true ∧ Forall (λ m, by_operator m = false) later ∧
    answered_from true rest = true.
Proof.
  induction newest_first as [|m rest IH]; cbn [answered_from].
  - split; [done|]. by intros ([|? ?] & ? & ? & ? & _).
  - destruct (by_operator m) eqn:Hm.
    + split; [intros Hr; by exists [], m, rest|]. intros ([|m' later] & u & rest' & [= <- ->] & Hu & Hf & Hr); [done|].
      inversion Hf; congruence.
    + rewrite andb_false_r, IH. split.
      * intros (later & u & rest' & -> & Hu & Hf & Hr). exists (m :: later), u, rest'. split_and!; [done..|by constructor|done].
      * intros ([|m' later] & u & rest' & [= <- ->] & Hu & Hf & Hr); [congruence|]. inversion Hf. eauto 8.
Qed.

(** There is a proposal to accept exactly when an answer of the assistant
    came before the operator's latest message and after any earlier one. *)
Theorem an_answer_precedes_the_request conversation : answered conversation = true ↔
  ∃ earlier a between u later, conversation = earlier ++ a :: between ++ u :: later ∧ a.(role) = "assistant" ∧ by_operator u = true ∧
    Forall (λ m, by_operator m = false) (between ++ later).
Proof.
  unfold answered. rewrite answered_from_false. setoid_rewrite answered_from_true. split.
  - intros (later & u & rest & Hc & Hu & Hl & between & a & earlier & -> & Ha & Hb).
    exists (rev earlier), a, (rev between), u, (rev later). split_and!; [|done..|].
    + rewrite <- (rev_involutive conversation), Hc. rewrite !rev_app_distr. cbn. rewrite !rev_app_distr. cbn. by rewrite <- !app_assoc.
    + apply Forall_app. split; by apply Forall_rev.
  - intros (earlier & a & between & u & later & -> & Ha & Hu & Hf). rewrite Forall_app in Hf. destruct Hf as [Hb Hl].
    exists (rev later), u, (rev between ++ a :: rev earlier). split_and!; [|done|by apply Forall_rev|].
    + rewrite rev_app_distr. cbn. rewrite rev_app_distr. cbn. by rewrite <- !app_assoc.
    + exists (rev between), a, (rev earlier). split_and!; [done..|by apply Forall_rev].
Qed.

(** ** The decision of a turn *)

Lemma wants_write_decides charged question c :
  let '(a, c', _) := wants_write charged question c in c'.(write_request) = Some a ∧ c'.(AgentNotes.read_only) = c.(AgentNotes.read_only) ∧
    (c.(AgentNotes.read_only) = true → a = false).
Proof.
  unfold wants_write. destruct c as [ro [d|] cv ji b]; cbn; destruct ro; try done. by destruct (advisory _ _).
Qed.

(** Whether a turn was asked to write is decided once: a turn told not to
    change anything never was; otherwise a question about a change is none,
    what the words ask for is asked whatever the model says, and the model
    is heard only where the words are silent.  Every later question is
    answered the same, and the model is not asked again. *)
Theorem a_request_is_read_once charged question c :
  let '(a, c', asked_model) := wants_write charged question c in
  (∀ charged' question', wants_write charged' question' c' = (a, c', false)) ∧
  (c.(write_request) = None →
     (a = true ↔ c.(AgentNotes.read_only) = false ∧ advisory WRITE_REQUEST_RE question = false ∧
        (pattern_says c question = true ∨ c.(judge_intent) = true ∧ judge c.(backend) question charged = Some true)) ∧
     (asked_model = true → pattern_says c question = false ∧ c.(judge_intent) = true ∧ c.(AgentNotes.read_only) = false)).
Proof.
  pose proof (wants_write_decides charged question c) as Hd. destruct (wants_write charged question c) as [[a c'] asked_model] eqn:Hw.
  destruct Hd as (Hc & Hr & Ha). split.
  - intros charged' question'. unfold wants_write. rewrite Hc. destruct (AgentNotes.read_only c') eqn:Hro; [|done].
    rewrite Ha by congruence. destruct c'; cbn in *. by rewrite Hc, Ha by congruence.
  - intros Hn. unfold wants_write in Hw. rewrite Hn in Hw. destruct (AgentNotes.read_only c) eqn:Hro; [naive_solver|].
    destruct (advisory WRITE_REQUEST_RE question); [naive_solver|]. unfold resolve in Hw.
    destruct (pattern_says c question), (judge_intent c); cbn in Hw; simplify_eq;
      rewrite ?bool_decide_eq_true; naive_solver.
Qed.

(** ** Results that come back, and what a turn may claim *)

(** ** Results that come back *)

Section repeats.
  Context (hash : string → string).

Abbreviation deliveries := (gmap string (list string)).

(** A turn: its results, each with what could be seen when it came. *)
Definition history : Type := list ((string → bool) * delivery).

Definition received (h : history) : deliveries := foldl (λ seen c, (repeated_result hash c.1 c.2 seen).2) ∅ h.

(** The earlier calls that brought a result with this hash. *)
Definition same_result (key : string) (e : delivery) : bool := negb (exempt e) && String.eqb (repeat_key hash e) key.
Definition earlier_calls (key : string) (h : history) : list string := dv_call <$> List.filter (same_result key) (snd <$> h).

Lemma received_nil key : default [] (received [] !! key) = [].
Proof. unfold received. cbn. by rewrite lookup_empty. Qed.

Lemma received_snoc h c : received (h ++ [c]) = (repeated_result hash c.1 c.2 (received h)).2.
Proof. unfold received. by rewrite foldl_app. Qed.

Lemma earlier_calls_snoc key h c :
  earlier_calls key (h ++ [c]) = earlier_calls key h ++ (if same_result key c.2 then [c.2.(dv_call)] else []).
Proof.
  unfold earlier_calls. rewrite fmap_app, List.filter_app, fmap_app. f_equal. cbn. by destruct (same_result key c.2).
Qed.

Lemma repeated_result_seen visible e seen key :
  default [] ((repeated_result hash visible e seen).2 !! key) =
  if same_result key e then
    let delivered := List.filter visible (default [] (seen !! key)) in
    if (S (length delivered) <? REPEAT_REFUSE)%nat then delivered ++ [e.(dv_call)] else delivered
  else default [] (seen !! key).
Proof.
  unfold repeated_result, same_result. destruct (exempt e); cbn [negb andb snd]; [done|].
  destruct (String.eqb_spec (repeat_key hash e) key) as [<-|Hne]; cbn; [by rewrite lookup_insert_eq|by rewrite lookup_insert_ne].
Qed.

Lemma received_spec h key :
  default [] (received h !! key) `sublist_of` earlier_calls key h ∧ (length (default [] (received h !! key)) <= 2)%nat.
Proof.
  induction h as [|c h [IHs IHl]] using rev_ind; [rewrite received_nil; by split; cbn; [|lia]|].
  rewrite received_snoc, repeated_result_seen, earlier_calls_snoc. destruct (same_result key c.2); [|rewrite app_nil_r; done].
  cbv zeta. set (kept := List.filter c.1 _). assert (kept `sublist_of` earlier_calls key h) as Hk by (etrans; [apply filter_sublist|done]).
  pose proof (filter_length_le c.1 (default [] (received h !! key))) as Hlen. fold kept in Hlen. unfold REPEAT_REFUSE.
  destruct (Nat.ltb_spec (S (length kept)) 3); rewrite ?length_app; cbn; split; try lia.
  - by apply sublist_app.
  - by apply sublist_inserts_r.
Qed.

Lemma repeated_result_count visible e seen : exempt e = false →
  (repeated_result hash visible e seen).1 = S (length (List.filter visible (default [] (seen !! repeat_key hash e)))).
Proof. intros He. unfold repeated_result. by rewrite He. Qed.

Lemma received_visible h key : Forall (λ c, c.1 = λ _, true) h →
  length (default [] (received h !! key)) = Nat.min 2 (length (earlier_calls key h)).
Proof.
  induction h as [|c h IH] using rev_ind; [by rewrite received_nil|]. rewrite Forall_app, Forall_singleton. intros [Hh Hc].
  rewrite received_snoc, repeated_result_seen, earlier_calls_snoc, length_app, Hc. destruct (same_result key c.2); cbn [length]; [|rewrite IH by done; lia].
  cbv zeta. rewrite filter_true. unfold REPEAT_REFUSE. destruct (Nat.ltb_spec (S (length (default [] (received h !! key)))) 3);
    rewrite ?length_app; cbn [length]; rewrite IH in * by done; lia.
Qed.

(** A result is held to be one the turn already has only while earlier
    calls that brought it can still be seen: it is counted once more than
    those, at most three times; and as long as everything stays in view it
    is counted exactly, up to that limit, from which it is refused. *)
Theorem repeats_are_counted_in_view h visible e : exempt e = false →
  let n := (repeated_result hash visible e (received h)).1 in
  (1 <= n <= REPEAT_REFUSE)%nat ∧
  (n <= 1 + length (List.filter visible (earlier_calls (repeat_key hash e) h)))%nat ∧
  (Forall (λ c, c.1 = λ _, true) h → visible = (λ _, true) →
   n = Nat.min REPEAT_REFUSE (1 + length (earlier_calls (repeat_key hash e) h))).
Proof.
  intros He. cbv zeta. rewrite repeated_result_count by done. destruct (received_spec h (repeat_key hash e)) as [Hs Hl].
  pose proof (filter_length_le visible (default [] (received h !! repeat_key hash e))) as Hv.
  pose proof (sublist_filter_length visible _ _ Hs) as Hf. unfold REPEAT_REFUSE. split_and!; [lia..|].
  intros Hall ->. rewrite filter_true, received_visible by done. lia.
Qed.
End repeats.

(** ** Examples *)

Module NotesExamples.

Definition long_text : string := String.concat "" (replicate 20 "0123456789").
Definition read (id : string) : delivery := mk_delivery long_text false true id.

Lemma repeats_are_counted_in_view_witness :
  (1 <= (repeated_result toy_hash (λ id, String.eqb id "b") (read "c") (received toy_hash [(λ _, true, read "a"); (λ _, true, read "b")])).1 <= 3)%nat.
Proof.
  destruct (repeats_are_counted_in_view toy_hash [(λ _, true, read "a"); (λ _, true, read "b")] (λ id, String.eqb id "b") (read "c")
    ltac:(vm_compute; reflexivity)) as (H & _ & _). exact H.
Defined.

Definition proposal : list message := [mk_message "user" "operator" ["Could we log it?"]; mk_message "assistant" "" ["Yes, in log.c."]].
Definition turn_of (text : string) : request :=
  mk_request false None (proposal ++ [mk_message "user" "operator" [text]]) false None.

(** An acceptance is a request to write, but not by [is_write_request]. *)
Example acceptance_is_no_write_request :
  ((wants_write None "Yes, do it." (turn_of "Yes, do it.")).1.1, is_write_request "Yes, do it.") = (true, false).
Proof. vm_compute. reflexivity. Qed.

(** An acceptance followed by a question is read as the question. *)
Example question_withdraws_the_acceptance :
  let text := "Yes, do it. Could we also count them?" in
  (bool_decide (mutation_intent WRITE_REQUEST_RE text true = WRITE), (wants_write None text (turn_of text)).1.1) = (true, false).
Proof. vm_compute. reflexivity. Qed.

(** Every pattern is read in full. *)
Example patterns_are_read :
  forallb (λ r, match r with RNone => false | _ => true end)
    [ADVISORY_OPENER; FOLLOW_UP; POLITE_REQUEST; SENTENCE; INTENT_RE; FABRICATION_RE; CHANGE_CLAIM_RE; FILE_TOKEN_RE; ANNOUNCED_CHANGE_RE;
     EXIT_FAILED; LOGGED_PATH; WRITE_REQUEST_RE] = true.
Proof. vm_compute. reflexivity. Qed.

Example claims_are_noted :
  ((str_true (unsupported_change_claim "I have created a.rst." ["bash {}"] false)), str_true (unsupported_change_claim "I have created a.rst." ["edit_file {}"] false))
  = (true, false).
Proof. vm_compute. reflexivity. Qed.
End NotesExamples.
