(* ===== verification/FileTree.v ===== *)
(** * What the program asks of a tree of files

    The answers of the operating system about the tree as it is, by path; the
    home directory is the operator's.  A small tree of names shows that the
    questions can be answered. *)

From Stdlib Require Import Ascii.
From S2P Require Import Prelude Texts Values Regex Shell.

Open Scope py_scope.

(** An entry of a directory: its name, whether it is a directory, links
    followed, and whether it is a link. *)
Record DirEntry := mk_entry { en_name : string; en_dir : bool; en_link : bool }.

Class FileTree (W : Type) := {
  (** [os.scandir], in some order; [None] where it raises [OSError]. *)
  scandir : W → string → option (list DirEntry);
  path_exists : W → string → bool;
  is_dir : W → string → bool;
  is_file : W → string → bool;
  executable : W → string → bool;
  (** [os.path.realpath]; [None] where resolving raises. *)
  realpath : W → string → option string;
  (** The first 600 characters; [None] where reading raises [OSError]. *)
  head_of_file : W → string → option string;
  glob : W → string → list string;
  (** Longer than any chain of directories. *)
  depth : W → nat;
  home : W → string;
}.

(** [os.walk], from the top, the directories pruned by [keep], links not
    followed: each directory with its subdirectories and its other entries. *)
Section walk.
  Context {W : Type} `{FileTree W}.

Definition entry_path (directory : string) (e : DirEntry) : string := path_join directory e.(en_name).

Fixpoint walk (fuel : nat) (keep : string → bool) (w : W) (directory : string) : list (string * list string * list string) :=
  match fuel, scandir w directory with
  | S fuel, Some entries =>
      let subdirectories := List.filter (λ e, e.(en_dir) && keep e.(en_name)) entries in
      (directory, en_name <$> subdirectories, en_name <$> List.filter (λ e, negb e.(en_dir)) entries)
      :: mjoin ((λ e, walk fuel keep w (entry_path directory e)) <$> List.filter (λ e, negb e.(en_link)) subdirectories)
  | _, _ => []
  end.
End walk.

(** ** Shell patterns *)

(** [fnmatch.fnmatch]: a pattern of the shell as a regular expression. *)
Fixpoint class_end (s : string) : option (string * string) :=
  match s with
  | EmptyString => None
  | String "]" rest => Some ("", rest)
  | String c rest => '(inside, after) ← class_end rest; Some (String c inside, after)
  end.

Fixpoint in_class (members : string) (c : ascii) : bool :=
  match members with
  | EmptyString => false
  | String a (String "-" (String b rest)) => in_range (N_of_ascii a) (N_of_ascii b) c || in_class rest c
  | String a rest => Ascii.eqb a c || in_class rest c
  end.

(** What is between the brackets: its first character may be a closing one. *)
Definition class_of (s : string) : option ((ascii → bool) * string) :=
  let '(negated, s) := match s with String "!" s => (true, s) | _ => (false, s) end in
  let found := match s with
               | String "]" s => '(inside, after) ← class_end s; Some (String "]" inside, after)
               | _ => class_end s
               end in
  '(inside, after) ← found; Some ((λ c, xorb negated (in_class inside c)), after).

Fixpoint glob_regex (fuel : nat) (s : string) : regex :=
  match fuel, s with
  | S fuel, String c rest =>
      match c with
      | "*"%char => RSeq (RStar true (RSet (λ _, true))) (glob_regex fuel rest)
      | "?"%char => RSeq (RSet (λ _, true)) (glob_regex fuel rest)
      | "["%char => match class_of rest with
                    | Some (f, after) => RSeq (RSet f) (glob_regex fuel after)
                    | None => RSeq (RSet (char_is c)) (glob_regex fuel rest)
                    end
      | _ => RSeq (RSet (char_is c)) (glob_regex fuel rest)
      end
  | _, _ => REmpty
  end.

Definition fnmatch (name shell_pattern : string) : bool :=
  bool_decide (is_Some (fullmatch (glob_regex (String.length shell_pattern) shell_pattern) name)).

(** ** A small tree *)

(** Directories and files by their path, without links. *)
Inductive small_node := SmallDir | SmallFile (text : string).
Record small_tree := mk_small { nodes : list (string * small_node); small_home : string }.

Definition small_lookup (t : small_tree) (path : string) : option small_node :=
  snd <$> List.find (λ n, String.eqb n.1 (normpath path)) t.(nodes).

Definition small_children (t : small_tree) (path : string) : list DirEntry :=
  omap (λ n, if bool_decide (n.1 = path_join (normpath path) (path_name n.1)) && negb (String.eqb n.1 (normpath path))
             then Some (mk_entry (path_name n.1) (match n.2 with SmallDir => true | _ => false end) false) else None) t.(nodes).

#[export] Instance small_file_tree : FileTree small_tree := {
  scandir t path := match small_lookup t path with Some SmallDir => Some (small_children t path) | _ => None end;
  path_exists t path := bool_decide (is_Some (small_lookup t path));
  is_dir t path := match small_lookup t path with Some SmallDir => true | _ => false end;
  is_file t path := match small_lookup t path with Some (SmallFile _) => true | _ => false end;
  executable _ _ := false;
  realpath _ path := Some (normpath path);
  head_of_file t path := match small_lookup t path with Some (SmallFile s) => Some (String.substring 0 600 s) | _ => None end;
  glob t p := List.filter (λ path, fnmatch path p) (fst <$> t.(nodes));
  depth t := S (length t.(nodes));
  home := small_home;
}.
