(* ===== verification/TargetPolicy.v ===== *)
(** * The files no mutation may touch: [client/harness/target_policy.py]

    A refusal attaches to the target, whatever tool attempts it.  The dash of
    the answers is written as two. *)

From Stdlib Require Import Ascii.
From S2P Require Import Prelude Texts Values Regex Shell FileTree.

Open Scope py_scope.

Definition GENERATED_PATH : regex := pattern plain "/generated/|/build/tmp/".
Definition SNAPSHOT_PATH : regex := pattern plain
  ("/(?:u-boot|atf|qemu)(?:\.back)?/|\.back/|\.pristine/|\.0/|"
   +:+ "/build/tmp/").
Definition GENERATED_MARK : regex := pattern I
  "DO NOT (?:MODIFY|EDIT)|auto(?:matically)?[ -]?generated|@generated".

Definition MULTI : flags := mk_flags false true false.
Definition DIFF_FILE : regex := pattern MULTI "^\+\+\+ ".
Definition DIFF_HUNK : regex := pattern MULTI "^@@ ".

(** A line of a diff that is not one of the file it patches. *)
Definition of_the_patch (line : string) : bool :=
  starts_with_any ["--- "; "+++ "] line || negb (starts_with_any ["+"; "-"; " "] line).

Definition says_generated (head : string) : bool :=
  let head := if searches DIFF_FILE head && searches DIFF_HUNK head
              then String.concat (String newline "") (List.filter of_the_patch (splitlines head)) else head in
  searches GENERATED_MARK head.

Definition is_snapshot (path : string) : bool := searches SNAPSHOT_PATH path.

Definition GENERATED_ANSWER : string := " is a generated file -- change its source".
Definition SNAPSHOT_ANSWER : string := " is a snapshot or third-party copy".

Section policy.
  Context {W : Type} `{FileTree W}.

Definition head_of (w : W) (path : string) : string := default "" (head_of_file w path).

(** [path.rstrip("/") + "/"] *)
Definition as_directory (path : string) : string := rstrip_chars "/" path +:+ "/".

(** The spellings a path is judged by: as written, as it resolves, and each
    as the tree it is when it is a directory. *)
Definition spellings (w : W) (path : string) : list string :=
  let real := default path (realpath w path) in
  let l := if String.eqb real path then [path] else [path; real] in
  l ++ (as_directory <$> List.filter (is_dir w) l).

Fixpoint judged (label : string) (candidates : list string) : string :=
  match candidates with
  | [] => ""
  | candidate :: candidates =>
      if searches GENERATED_PATH candidate then label +:+ GENERATED_ANSWER
      else if is_snapshot candidate then label +:+ SNAPSHOT_ANSWER
      else judged label candidates
  end.

Definition refusal (w : W) (path : string) (label : option string) : string :=
  if negb (str_true path) then "" else
  let label := str_or (default "" label) path in
  let real := default path (realpath w path) in
  let said := judged label (spellings w path) in
  if str_true said then said
  else if is_file w real && says_generated (head_of w real) then label +:+ GENERATED_ANSWER else "".
End policy.
