(* ===== verification/RequestScope.v ===== *)
(** * What a turn asked about, and where its work may land:
    [client/context/request_scope.py]

    The targets a request names, the siblings it does not, the paths a shell
    command writes, and the project a command stays in.  The tree is asked
    through the interface of FileTree; folding is that of RequestIntent. *)

From Stdlib Require Import Ascii.
From S2P Require Import Prelude Texts Values Regex Shell FileTree RequestIntent.

#[local] Open Scope Z_scope.
Open Scope py_scope.

(** ** Anchors *)

Definition TOKEN_RE : regex := pattern plain "[A-Za-z0-9][A-Za-z0-9_.-]*[A-Za-z0-9]|[A-Za-z0-9]".
Definition BROADENED_RE : regex := pattern I
  ("\b(?:all|every|each)\s+(?:of\s+the\s+|the\s+)?(?:\w+[\s-]){0,2}?"
   +:+ "(?:platforms?|targets?|boards?|variants?|configurations?|configs?|"
   +:+ "modules?|machines?|architectures?|archs?|files?|places?|occurrences?|"
   +:+ "instances?|backends?|drivers?|flavou?rs?|builds?)\b"
   +:+ "|\beverywhere\b|\bacross\s+(?:the\s+)?(?:board|tree|codebase|repo)\b"
   +:+ "|\b(?:toutes?|tous)\s+les\s+\w+|\bpartout\b").
Definition SHARED_NAMES : list string :=
  ["common"; "shared"; "generic"; "default"; "base"; "core"; "include"; "lib"; "all"; "util"; "utils"].
Definition FAMILY_MIN : nat := 3.
Definition HARNESS_SUFFIX : regex := pattern plain "\n\s*\[Tools executed during this turn".

Definition operator_text (text : string) : string :=
  match search HARNESS_SUFFIX text with Some m => taken (start text) m.(m_from) | None => text end.

Definition STOPWORDS : list string :=
  words "a an and are as at be by can could do does for from have how i if in instead is it its make me my no not of on or our please should so that the then this to us we what when where which why will with would yes you".

Definition anchors_of (text : string) : gset string :=
  list_to_set (py_casefold <$> List.filter
    (λ token, (1 <? String.length token)%nat && negb (bool_decide (py_casefold token ∈ STOPWORDS))) (findall TOKEN_RE (operator_text text))).

Definition is_broadened (text : string) : bool := searches BROADENED_RE (operator_text text).

Record RequestScope := mk_scope {
  root : string;
  scope_text : string;
  anchors : gset string;
  broadened : bool;
  extra_roots : list string;
  referents : gset string;
}.

(** [RequestScope.of] *)
Definition scope_of (current previous root_ : string) (extra_roots_ referents_ : list string) : RequestScope :=
  let current := operator_text current in
  let said := if str_true previous && follow_up current
              then operator_text previous +:+ String newline "" +:+ current else current in
  mk_scope root_ said (anchors_of said) (is_broadened said) extra_roots_ (list_to_set (py_casefold <$> referents_)).

Definition roots (s : RequestScope) : list string := List.filter str_true (s.(root) :: s.(extra_roots)).

(** ** Families of names *)

(** [(stem, extension)]: a name that begins with a dot has no extension. *)
Definition split_name (name : string) : string * string :=
  let '(stem, ext) := partition "." name in
  if str_true stem then (stem, match ext with Some e => "." +:+ e | None => "" end) else (name, "").

Definition MEMBER_NAME : regex := pattern plain "[a-z0-9][a-z0-9_-]*".
Definition SEGMENT : regex := pattern plain "[_.-]".

(** The part of a name that differs within the family, or nothing. *)
Definition member (name head tail : string) : string :=
  let name := py_casefold name in
  let n := String.length name in
  let h := String.length head in
  let t := String.length tail in
  if (n <=? h + t)%nat || negb (String.prefix head name && ends_with tail name) then ""
  else String.substring h (n - h - t) name.

(** What surrounds the anchor in the sibling's name; positions are those of
    the folded name, as long as folding keeps the length. *)
Definition affix (sibling anchor candidate : string) : option (string * string) :=
  '(before, after) ← find_text anchor (py_casefold sibling);
  let found := member candidate before after in
  if negb (str_true found) || contains anchor found || negb (bool_decide (is_Some (fullmatch MEMBER_NAME found))) then None
  else Some (before, after).

Section tree.
  Context {W : Type} `{FileTree W}.
  Implicit Types (w : W).

Definition hidden (name : string) : bool := String.prefix "." name.

Definition entries w (directory : string) : list DirEntry :=
  List.filter (λ e, negb (hidden e.(en_name))) (default [] (scandir w directory)).

Definition children w (path : string) : gset string := list_to_set (en_name <$> entries w path).

Definition alike w (first second : string) : bool :=
  let a := children w first in
  let b := children w second in
  let shared := a ∩ b in
  negb (bool_decide (a = ∅)) && negb (bool_decide (b = ∅))
  && existsb (λ name, is_file w (path_join first name)) (elements shared)
  && (size (a ∪ b) <=? size shared * 2)%nat.

(** An entry of the directory that the component may be an analogue of. *)
Definition analogous w (directory component : string) (candidate_is_dir : bool) (ext : string) : list DirEntry :=
  List.filter (λ e, negb (String.eqb e.(en_name) component) && Bool.eqb e.(en_dir) candidate_is_dir
                    && String.eqb (split_name e.(en_name)).2 ext) (entries w directory).

Definition segments (name : string) : gset string :=
  let stem := py_casefold (split_name name).1 in list_to_set (re_split SEGMENT stem) ∪ {[stem]}.

(** One anchor of one neighbour: whether the component is its analogue. *)
Definition analogue_by w (directory component : string) (candidate_is_dir : bool) (peers : list DirEntry) (s : RequestScope)
    (places : gset string) (e : DirEntry) (anchor : string) : bool :=
  if bool_decide (anchor ∈ places) && negb e.(en_dir) && negb (bool_decide (py_casefold e.(en_name) ∈ s.(anchors))) then false else
  match affix e.(en_name) anchor component with
  | None => false
  | Some (before, after) =>
      let members : gset string := list_to_set ((λ e, member e.(en_name) before after) <$> peers) ∪ {[member component before after]} in
      negb (1 <? size (s.(anchors) ∩ members))%nat
      && (negb candidate_is_dir || alike w (entry_path directory e) (path_join directory component))
  end.

(** [_sibling_of]: the neighbour and the anchor, if there is one; anchors are
    tried in the order of a set, which is that of the model's. *)
Definition sibling_of w (directory component : string) (s : RequestScope) (places : gset string) : option (string * string) :=
  let '(stem, ext) := split_name component in
  if bool_decide (py_casefold stem ∈ SHARED_NAMES) then None else
  let path := path_join directory component in
  let candidate_is_dir := is_dir w path || (negb (path_exists w path) && negb (str_true ext)) in
  let peers := analogous w directory component candidate_is_dir ext in
  if (length peers + 1 <? FAMILY_MIN)%nat then None else
  hd_error (peers ≫= λ e, (λ anchor, (e.(en_name), anchor)) <$>
    List.filter (analogue_by w directory component candidate_is_dir peers s places e) (elements (s.(anchors) ∩ segments e.(en_name)))).

(** The path of the target below the root, in components. *)
Definition relative w (s : RequestScope) (target : string) : option (string * list string) :=
  let base := str_or s.(root) "." in
  root_ ← realpath w base;
  path ← realpath w (path_join base target);
  if String.eqb path root_ then Some (root_, []) else
  let prefix := rstrip_chars "/" root_ +:+ "/" in
  if String.prefix prefix path then Some (root_, split_on "/"%char (drop (String.length prefix) path)) else None.

Definition sibling_message (anchor : string) (parts : list string) (component neighbour : string) : string :=
  "the request is about '" +:+ anchor +:+ "', and '" +:+ String.concat "/" parts +:+ "' belongs to another member of the same family ('"
  +:+ component +:+ "' is the analogue of '" +:+ neighbour +:+ "'). A similar line in a sibling is not a reason to change it: keep the change on '"
  +:+ anchor +:+ "'.".

Definition sibling_advice (anchor : string) : string :=
  " If this file genuinely has to change for '" +:+ anchor +:+ "' to work -- a shared source that would otherwise leave the tree inconsistent or unbuildable -- call again with scope_reason saying exactly why. If the user wants every target changed, that is theirs to ask for: name the other files in your answer instead.".

Fixpoint first_sibling w (s : RequestScope) (places : gset string) (directory : string) (components : list string)
    : option (string * string * string) :=
  match components with
  | [] => None
  | component :: rest =>
      match sibling_of w directory component s places with
      | Some (neighbour, anchor) => Some (neighbour, anchor, component)
      | None => first_sibling w s places (path_join directory component) rest
      end
  end.

(** A scope that says nothing about siblings. *)
Definition unbounded (s : option RequestScope) : bool :=
  match s with Some s => s.(broadened) || bool_decide (s.(anchors) = ∅) | None => true end.

(** The places a word of the request may name instead of a file. *)
Definition places_of (s : RequestScope) (parts : list string) : gset string :=
  s.(referents) ∪ list_to_set (py_casefold <$> removelast parts).

Definition sibling_write_refusal w (s : option RequestScope) (target : string) : string :=
  match s with
  | Some sc =>
      if unbounded s || negb (str_true target) then "" else
      match relative w sc target with
      | None => ""
      | Some (directory, parts) =>
          match first_sibling w sc (places_of sc parts) directory parts with
          | Some (neighbour, anchor, component) => sibling_message anchor parts component neighbour +:+ sibling_advice anchor
          | None => ""
          end
      end
  | None => ""
  end.
(** ** Shell writes *)

Definition LAST_OPERAND_WRITERS : list string := ["cp"; "mv"; "install"; "ln"; "rsync"].
Definition ALL_OPERAND_WRITERS : list string :=
  ["rm"; "rmdir"; "touch"; "mkdir"; "truncate"; "chmod"; "chown"; "tee"; "unlink"; "shred"].
Definition INLINE_CODE : dict string (list string) :=
  [("python", ["-c"]); ("python3", ["-c"]); ("perl", ["-e"; "-i"; "-pi"; "-pie"; "-ne"]); ("ruby", ["-e"]); ("node", ["-e"]);
   ("sh", ["-c"]); ("bash", ["-c"]); ("zsh", ["-c"]); ("awk", []); ("gawk", [])].
Definition REDIRECT : regex := pattern plain "^\d*>{1,2}\|?(.*)$".

Definition binary_name (argv : list string) : string := path_name (hd "" argv).
Definition is_flag (arg : string) : bool := String.prefix "-" arg.
Definition operands_of (argv : list string) : list string := List.filter (λ arg, negb (is_flag arg)) (tail argv).

(** The targets of the redirections of a stage, its first word apart. *)
Fixpoint redirected (args : list string) : list string :=
  match args with
  | [] => []
  | arg :: args =>
      let rest := redirected args in
      match match_ REDIRECT arg with
      | Some m =>
          let target := str_or (default "" (group 1 m)) (hd "" args) in
          if str_true target && negb (String.prefix "&" target) then target :: rest else rest
      | None => rest
      end
  end.

Definition operand_targets (argv : list string) : list string :=
  let binary := binary_name argv in
  let operands := operands_of argv in
  if bool_decide (binary ∈ LAST_OPERAND_WRITERS) && (1 <? length operands)%nat
  then default "" (last operands) :: (if String.eqb binary "mv" then removelast operands else [])
  else if bool_decide (binary ∈ ALL_OPERAND_WRITERS)
  then if bool_decide (binary ∈ ["chmod"; "chown"]) then tail operands else operands
  else if String.eqb binary "sed" && existsb (λ arg, String.prefix "-i" arg || String.eqb arg "--in-place") (tail argv)
  then tail operands
  else if String.eqb binary "dd"
  then omap (λ arg, if String.prefix "of=" arg then Some (drop 3 arg) else None) (tail argv)
  else [].

(** [_shell_destinations] *)
Definition shell_destinations (argv : list string) : list string :=
  List.filter (λ item, str_true item && negb (String.prefix "/dev/" item)) (redirected (tail argv) ++ operand_targets argv).

(** An interpreter given its program inline. *)
Definition opaque (argv : list string) : bool :=
  let name := binary_name argv in
  let binary := str_or (rstrip_chars "0123456789." name) name in
  match match dict_get INLINE_CODE name with Some flags => Some flags | None => dict_get INLINE_CODE binary end with
  | Some flags =>
      bool_decide (length flags = 0%nat)
      || existsb (λ arg, bool_decide (arg ∈ flags) || String.eqb binary "perl" && String.prefix "-i" arg) (tail argv)
  | None => false
  end.

Definition is_glob (token : string) : bool := negb (all_chars (λ c, negb (one_of "*?[" c)) token).

(** The project paths a token denotes. *)
Definition expand_in w (s : RequestScope) (token : string) : list string :=
  if negb (is_glob token) then [token] else
  match take 200 (sort_strings (glob w (path_join (str_or s.(root) ".") token))) with [] => [token] | found => found end.

(** The entries below a directory that the patterns of a find name. *)
Definition children_matching w (s : RequestScope) (path : string) (patterns : list string) : list string :=
  let full := path_join (str_or s.(root) ".") path in
  if negb (is_dir w full) then [] else
  take 200 (walk (depth w) (λ name, negb (hidden name)) w full ≫= λ d,
    (λ name, path_join d.1.1 name) <$>
    List.filter (λ name, bool_decide (length patterns = 0%nat) || existsb (fnmatch name) patterns) (d.1.2 ++ d.2)).

(** A writer whose files arrive from its input or from find. *)
Definition writes_fed (argv : list string) : bool :=
  let rest := tail argv in
  let writer arg := bool_decide (path_name arg ∈ ALL_OPERAND_WRITERS ++ LAST_OPERAND_WRITERS) in
  (String.eqb (binary_name argv) "xargs" || bool_decide ("-exec" ∈ argv) || bool_decide ("-execdir" ∈ argv))
  && existsb (λ arg, writer arg || bool_decide (path_name arg ∈ ["sed"; "perl"])) rest
  && (existsb (String.prefix "-i") rest || existsb writer rest).

Definition WORD_PATH : regex := pattern plain "[\w./-]*/[\w./-]+|[\w-]+\.[A-Za-z]\w{0,6}".

(** *** Stages *)

Definition SHELL_KEYWORDS : list string :=
  ["do"; "then"; "else"; "elif"; "time"; "!"; "{"; "("; "exec"; "nohup"; "env"; "sudo"; "command"].
Definition STAGE_SEPARATOR : regex := pattern plain "&&|\|\||[;|\n]".

Fixpoint skip_keywords (argv : list string) : list string :=
  match argv with
  | word :: rest => if bool_decide (word ∈ SHELL_KEYWORDS) then skip_keywords rest else argv
  | [] => []
  end.

Definition stage_words (stage : string) : list string :=
  match shlex_split stage with Ok argv => argv | Raise _ => words stage end.

(** [_split_stages]: no stage is empty. *)
Definition split_stages (command : string) : list (list string) :=
  let command := replace_text "';'" "+" (replace_text "\;" "+" command) in
  List.filter (λ argv, negb (bool_decide (length argv = 0%nat))) (skip_keywords ∘ stage_words <$> re_split STAGE_SEPARATOR command).

Definition expand w (token : string) : string :=
  match List.find (λ prefix, String.prefix prefix token) ["${HOME}"; "$HOME"; "~"] with
  | Some prefix => normpath (home w +:+ drop (String.length prefix) token)
  | None => normpath token
  end.

(** The directory each stage runs in, moved by every change of it. *)
Fixpoint stage_directories w (stages : list (list string)) (directory : string) : list string :=
  match stages with
  | [] => []
  | argv :: stages =>
      directory ::
      stage_directories w stages
        (match tail argv with
         | target :: _ =>
             if bool_decide (binary_name argv ∈ ["cd"; "pushd"]) && negb (contains "$" target) && negb (String.eqb target "-")
             then normpath (path_join directory (expand w target)) else directory
         | [] => directory
         end)
  end.

Definition NOT_A_PATH : regex := pattern plain ("[\s'\" +:+ String "034" "" +:+ "()=;]").

(** [_at]: a path operand as the stage running in [directory] means it. *)
Fixpoint at_directory (fuel : nat) (directory token : string) : string :=
  match fuel with
  | O => token
  | S fuel =>
      match match_ REDIRECT token with
      | Some m =>
          let target := default "" (group 1 m) in
          if negb (str_true target) || String.prefix "&" target then token
          else String.substring 0 (String.length token - String.length target) token +:+ at_directory fuel directory target
      | None =>
          if String.prefix "of=" token then "of=" +:+ at_directory fuel directory (drop 3 token) else
          if negb (str_true token) || starts_with_any ["/"; "$"; "~"; "-"; ">"; "<"] token || searches NOT_A_PATH token then token
          else path_join directory token
      end
  end.
Definition at_ (directory token : string) : string := at_directory (S (String.length token)) directory token.

(** The words of a stage with its operands in its directory; what a name test
    of find is given stays as it is. *)
Fixpoint placed_words (directory : string) (after_name : bool) (args : list string) : list string :=
  match args with
  | [] => []
  | arg :: args => (if after_name then arg else at_ directory arg) :: placed_words directory (bool_decide (arg ∈ ["-name"; "-iname"])) args
  end.

Definition placed (argv : list string) (directory : string) : list string :=
  match argv with
  | [] => []
  | program :: args => program :: placed_words directory (bool_decide (program ∈ ["-name"; "-iname"])) args
  end.

(** What follows each name test. *)
Fixpoint name_patterns (argv : list string) : list string :=
  match argv with
  | arg :: ((next :: _) as rest) => (if bool_decide (arg ∈ ["-name"; "-iname"]) then [next] else []) ++ name_patterns rest
  | _ => []
  end.

Definition mentioned w (s : RequestScope) (stages : list (list string)) (patterns : list string) : list string :=
  let named := stages ≫= λ argv, tail argv ≫= expand_in w s in
  named ++ (named ≫= λ item, children_matching w s item patterns).

(** The targets of one stage: where its words say, and everything the command
    mentions when that is only known at run time. *)
Definition decided_at_run_time (argv destinations : list string) : bool :=
  opaque argv || existsb (λ item, contains "$" item || contains "{}" item) destinations
  || writes_fed argv && bool_decide (length destinations = 0%nat).

Definition stage_targets w (s : RequestScope) (named : list string) (argv : list string) : list string :=
  let destinations := shell_destinations argv in
  (destinations ≫= expand_in w s)
  ++ (if decided_at_run_time argv destinations then named ++ findall WORD_PATH (unwords (tail argv)) else []).

Definition command_stages w (command : string) (s : RequestScope) (cwd : option string) : list (list string) :=
  let argvs := split_stages command in
  zip_with placed argvs (stage_directories w argvs (str_or (str_or (default "" cwd) s.(root)) ".")).

Definition shell_write_targets w (command : string) (s : RequestScope) (cwd : option string) : list string :=
  if negb (str_true command) then [] else
  let stages := command_stages w command s cwd in
  let named := mentioned w s stages (split_stages command ≫= name_patterns) in
  unique (stages ≫= stage_targets w s named).

Definition SHELL_ADVICE : string :=
  " A shell command is not a way around this: make the change with edit_file, on the requested target, or give scope_reason there.".

Fixpoint first_refusal (refuses : string → string) (targets : list string) : option string :=
  match targets with
  | [] => None
  | target :: targets => if str_true (refuses target) then Some (refuses target) else first_refusal refuses targets
  end.

Definition shell_write_refusal w (command : string) (s : option RequestScope) (cwd : option string) : string :=
  match s with
  | Some sc =>
      if unbounded s || negb (str_true command) then "" else
      match first_refusal (sibling_write_refusal w s) (shell_write_targets w command sc cwd) with
      | Some refusal => (partition " If this file genuinely" refusal).1 +:+ SHELL_ADVICE
      | None => ""
      end
  | None => ""
  end.
(** ** Workspace discipline *)

Definition SEARCHERS : list string :=
  ["find"; "locate"; "mlocate"; "plocate"; "fd"; "fdfind"; "tree"; "du"; "rg"; "ag"; "ack"].
Definition DATABASE_SEARCHERS : list string := ["locate"; "mlocate"; "plocate"].
Definition RECURSIVE_FLAG : regex := pattern plain "^-(?:[a-zA-Z]*[rR][a-zA-Z]*|-recursive)$".
Definition PATH_TOKEN : regex := pattern plain
  ("(?:~|\$HOME|\$\{HOME\})(?:/[^\s'\" +:+ String "034" "" +:+ ";|&<>()]*)?"
   +:+ "|/[^\s'\" +:+ String "034" "" +:+ ";|&<>()]*").

(** [_inside] *)
Definition inside (path : string) (l : list string) : bool :=
  existsb (λ root_, String.eqb path root_ || String.prefix (rstrip_chars "/" root_ +:+ "/") path) l.

Definition named_by_operator w (path text : string) : bool :=
  let folded := py_casefold text in
  str_true path && (contains (py_casefold path) folded || contains (py_casefold (replace_text (home w) "~" path)) folded).

(** *** Build discovery *)

Definition TOP_LEVEL_BUILD : list string :=
  ["Makefile"; "makefile"; "GNUmakefile"; "CMakeLists.txt"; "meson.build"; "build.sh"; "Cargo.toml"; "go.mod"; "package.json";
   "pyproject.toml"; "setup.py"; "configure"; "env.sh"].
Definition SCRIPT_DIRS : list string := ["scripts"; "script"; "tools"; "bin"; "build"].
Definition DOCS : list string :=
  ["README.md"; "README.rst"; "README"; "README.txt"; "BUILDING.md"; "INSTALL.md"; "CONTRIBUTING.md"; "doc"; "docs"].
Definition CI : list string := [".gitlab-ci.yml"; ".github/workflows"; "Jenkinsfile"; ".travis.yml"; "azure-pipelines.yml"].
Definition ENTRY_RE : regex := pattern I
  ("(?:^|[-_])(?:build|make|compile|test|check|run)"
   +:+ "(?:[-_.]|$)").

(** Entries by name; two entries of a directory have different names. *)
Definition by_name (l : list DirEntry) : list DirEntry :=
  sort_strings (en_name <$> l) ≫= λ name, List.filter (λ e, String.eqb e.(en_name) name) l.

Definition is_entrypoint w (directory : string) (e : DirEntry) : bool :=
  let path := entry_path directory e in
  is_file w path && searches ENTRY_RE e.(en_name)
  && (existsb (λ suffix, ends_with suffix e.(en_name)) [".sh"; ".py"; ".mk"] || executable w path).

(** Each once, in the order it is found, up to the limit. *)
Definition discover_build_entrypoints w (root_ : string) (limit : nat) : list string :=
  let base := str_or root_ "." in
  take limit (unique
    (List.filter (λ name, is_file w (path_join base name)) TOP_LEVEL_BUILD
     ++ (SCRIPT_DIRS ≫= λ directory,
           let full := path_join base directory in
           (λ e, directory +:+ "/" +:+ e.(en_name)) <$> List.filter (is_entrypoint w full) (by_name (entries w full)))
     ++ List.filter (λ name, path_exists w (path_join base name)) (CI ++ DOCS))).

Definition discovery_hint w (s : option RequestScope) : string :=
  let root_ := match s with Some s => s.(root) | None => "" end in
  let found := if str_true root_ then discover_build_entrypoints w root_ 12 else [] in
  "Do not guess another command and do not search outside the project. Find its own: `git rev-parse --show-toplevel`, then the top level, scripts/, README/docs and CI configuration, and choose the command from what they say."
  +:+ (if bool_decide (length found = 0%nat) then "" else " Found in this project: " +:+ String.concat ", " found +:+ ".").

(** *** Leaving the project *)

Definition searching (argv : list string) : bool :=
  bool_decide (binary_name argv ∈ SEARCHERS)
  || bool_decide (binary_name argv ∈ ["grep"; "egrep"; "fgrep"; "ls"])
     && existsb (λ arg, bool_decide (is_Some (match_ RECURSIVE_FLAG arg))) (tail argv).

Definition project_roots (s : RequestScope) : list string := (normpath <$> roots s) ++ ["/workspace"].

(** A path the operator may not have meant: written as one, outside the
    project and not named this turn. *)
Definition strays w (s : RequestScope) (token : string) : bool :=
  bool_decide (is_Some (fullmatch PATH_TOKEN token))
  && negb (inside (expand w token) (project_roots s) || named_by_operator w token s.(scope_text)
           || named_by_operator w (expand w token) s.(scope_text)).

Definition system_text (path : string) : bool := starts_with_any ["/usr/include"; "/usr/share/doc"] path.

(** Why one operand leaves the project, if it does. *)
Definition token_refusal w (s : RequestScope) (searching_ : bool) (token : string) : option string :=
  if negb (strays w s token) then None else
  let path := expand w token in
  let above_project := existsb (λ root_, inside root_ [path]) (project_roots s) in
  let in_home := inside path [home w] in
  if searching_ && (above_project || in_home || negb (system_text path)) then
    Some ("'" +:+ token +:+ "' is outside the project, and a search there looks through other people's trees for this one's answers. " +:+ discovery_hint w (Some s))
  else if in_home then
    Some ("'" +:+ token +:+ "' is in another tree than this project (" +:+ hd "" (project_roots s)
          +:+ "). What is there describes that project, not this one. " +:+ discovery_hint w (Some s))
  else None.

Definition stage_refusal w (s : RequestScope) (argv : list string) : option string :=
  if bool_decide (binary_name argv ∈ DATABASE_SEARCHERS)
  then Some ("'" +:+ binary_name argv +:+ "' searches the whole machine, not this project. " +:+ discovery_hint w (Some s))
  else hd_error (omap (token_refusal w s (searching argv)) (tail argv)).

Definition outside_project_refusal w (command : string) (s : option RequestScope) : string :=
  match s with
  | Some sc =>
      if bool_decide (length (roots sc) = 0%nat) || negb (str_true command) then ""
      else default "" (hd_error (omap (stage_refusal w sc) (split_stages command)))
  | None => ""
  end.

(** *** Missing commands *)

Definition MULTILINE_ : flags := mk_flags false true false.
Definition MISSING_RE : regex := pattern MULTILINE_
  ("(?:command not found|No such file or directory|"
   +:+ "not found)\s*$").

Definition first_program (command : string) : string :=
  hd "" (default [] (List.find (λ argv, negb (bool_decide (hd "" argv ∈ ["cd"; "export"; "set"; "source"; "."]))) (split_stages command))).

Definition missing_command_hint w (command output : string) (exit_code : option Z) (s : option RequestScope) : string :=
  let missing := match exit_code with
                 | Some code => (code =? 126) || (code =? 127)
                                || negb (code =? 0) && searches MISSING_RE output && contains (first_program command) output
                 | None => false
                 end in
  if missing then String newline "'" +:+ first_program command +:+ "' does not exist here. " +:+ discovery_hint w s else "".
End tree.
