(* ===== verification/RequestScopeProps.v ===== *)
(** * The bounds of a request: what is refused, and what cannot get past *)

From Stdlib Require Import Ascii.
From S2P Require Import Prelude Texts Values Regex Shell FileTree TargetPolicy RequestIntent RequestScope.

#[local] Open Scope Z_scope.
Open Scope py_scope.

Section bounds.
  Context {W : Type} `{FileTree W}.
  Implicit Types (w : W) (sc : RequestScope).

(** ** Siblings *)

(** The component is the neighbour's name with the anchor in it replaced by
    another name: the same kind of entry of the same directory, in a family
    of at least three. *)
Record sibling_name w (directory component : string) sc (neighbour anchor : string) : Prop := {
  sn_not_shared : py_casefold (split_name component).1 ∉ SHARED_NAMES;
  sn_other : neighbour ≠ component;
  sn_listed : ∃ e, e ∈ entries w directory ∧ e.(en_name) = neighbour;
  sn_kind : (split_name neighbour).2 = (split_name component).2;
  sn_anchor : anchor ∈ sc.(anchors) ∧ anchor ∈ segments neighbour;
  sn_family : ∃ kind, (FAMILY_MIN <= S (length (analogous w directory component kind (split_name component).2)))%nat;
  sn_swapped : ∃ before after, find_text anchor (py_casefold neighbour) = Some (before, after) ∧
    py_casefold component = before +:+ member component before after +:+ after ∧
    member component before after ≠ "" ∧ contains anchor (member component before after) = false;
}.

Lemma ends_with_split t s : ends_with t s = true → ∃ u, s = u +:+ t.
Proof.
  revert t. induction s as [|c s IH]; intros t; cbn; rewrite orb_true_iff, String.eqb_eq.
  - intros [->|]; [by exists ""|done].
  - intros [->|Ht]; [by exists ""|]. destruct (IH t Ht) as [u ->]. by exists (String c u).
Qed.

Lemma substring_middle a b c : String.substring (String.length a) (String.length b) (a +:+ b +:+ c) = b.
Proof.
  induction a as [|x a IH]; [|exact IH]. induction b as [|y b IH]; [by destruct c|].
  change (String y (String.substring 0 (String.length b) (b +:+ c)) = String y b). f_equal. exact IH.
Qed.

Lemma append_split a b c d : a +:+ b = c +:+ d → (String.length a <= String.length c)%nat → ∃ m, c = a +:+ m.
Proof.
  revert c. induction a as [|x a IH]; intros c He Hl; [by exists c|]. destruct c as [|y c]; cbn in *; [lia|].
  injection He as -> He. destruct (IH c He) as [m ->]; [lia|]. by exists m.
Qed.

Lemma member_split name before after : member name before after ≠ "" →
  py_casefold name = before +:+ member name before after +:+ after.
Proof.
  unfold member. set (n := py_casefold name). destruct (Nat.leb_spec (String.length n) (String.length before + String.length after)) as [|Hl]; [done|].
  destruct (String.prefix before n) eqn:Hp; [|done]. destruct (ends_with after n) eqn:He; [|done]. cbn [andb negb orb]. intros _.
  apply prefix_split in Hp as [v Hp]. apply ends_with_split in He as [u Hu].
  assert (∃ m, u = before +:+ m) as [m ->].
  { apply (append_split before v u after); [congruence|].
    apply (f_equal String.length) in Hu. rewrite length_append in Hu. lia. }
  rewrite append_assoc in Hu. assert (String.length n = String.length before + (String.length m + String.length after))%nat as Hn
    by (rewrite Hu, !length_append; lia).
  replace (String.length n - String.length before - String.length after)%nat with (String.length m) by lia.
  rewrite Hu at 2. by rewrite substring_middle.
Qed.

Lemma affix_Some sibling anchor candidate before after : affix sibling anchor candidate = Some (before, after) →
  find_text anchor (py_casefold sibling) = Some (before, after) ∧ member candidate before after ≠ "" ∧
  contains anchor (member candidate before after) = false.
Proof.
  unfold affix. intros ([b a] & Hf & Ha)%bind_Some. rewrite Hf. cbv zeta in Ha.
  destruct (str_true (member candidate b a)) eqn:Hs; [|done]. destruct (contains anchor (member candidate b a)) eqn:Hc; [done|].
  destruct (bool_decide _); [|done]. cbn in Ha. simplify_eq. split; [done|]. split; [by apply str_true_spec|done].
Qed.

Lemma sibling_of_sound w directory component sc places neighbour anchor :
  sibling_of w directory component sc places = Some (neighbour, anchor) → sibling_name w directory component sc neighbour anchor.
Proof.
  unfold sibling_of. destruct (split_name component) as [stem ext] eqn:Hsp. case_bool_decide as Hsh; [done|]. cbv zeta.
  set (kind := is_dir w _ || _). destruct (Nat.ltb_spec (length (analogous w directory component kind ext) + 1) FAMILY_MIN) as [|Hf]; [done|].
  intros (e & Hin & He)%hd_error_Some%list_elem_of_bind. apply list_elem_of_fmap in Hin as (anchor' & [= -> ->] & Ha).
  apply elem_of_filter_list in Ha as [Hby Hseg]. apply elem_of_elements, elem_of_intersection in Hseg.
  unfold analogous in He. apply elem_of_filter_list in He as [Hk Hl]. rewrite !andb_true_iff, negb_true_iff, String.eqb_neq, String.eqb_eq in Hk.
  destruct Hk as [[Hne _] Hext]. unfold analogue_by in Hby. case_match; [done|].
  destruct (affix _ _ _) as [[before after]|] eqn:Haf; [|done]. apply affix_Some in Haf as (Hfind & Hm & Hc).
  split; rewrite ?Hsp; try done.
  - by exists e.
  - exists kind. cbn [snd]. lia.
  - exists before, after. split_and!; [done| |done..]. by apply member_split.
Qed.

Lemma first_sibling_Some w sc places directory components neighbour anchor component :
  first_sibling w sc places directory components = Some (neighbour, anchor, component) →
  ∃ above below, components = above ++ component :: below ∧
    sibling_of w (foldl path_join directory above) component sc places = Some (neighbour, anchor).
Proof.
  revert directory. induction components as [|c components IH]; intros directory; cbn [first_sibling]; [done|].
  destruct (sibling_of _ _ _ _ _) as [[n a]|] eqn:Hs.
  - intros [= <- <- <-]. by exists [], components.
  - intros Hf. destruct (IH _ Hf) as (above & below & -> & Hs'). by exists (c :: above), below.
Qed.

Lemma first_sibling_None w sc places directory components :
  first_sibling w sc places directory components = None ↔
  ∀ above component below, components = above ++ component :: below →
    sibling_of w (foldl path_join directory above) component sc places = None.
Proof.
  revert directory. induction components as [|c components IH]; intros directory; cbn [first_sibling].
  - split; [|done]. by intros _ [|? ?] ? ?.
  - destruct (sibling_of w directory c sc places) as [[n a]|] eqn:Hs.
    + split; [done|]. intros Hn. pose proof (Hn [] c components eq_refl) as Hc. cbn in Hc. congruence.
    + rewrite IH. split.
      * intros Hn [|c' above] component below [= <- ->]; [done|]. cbn. by apply (Hn above component below).
      * intros Hn above component below ->. by apply (Hn (c :: above) component below).
Qed.

(** A write is refused for its target only in a request that names one:
    the target lies below the root, and some component of its path is the
    name of a neighbour in the same directory with the anchor in it replaced
    by another member of the family.  Every other write passes. *)
Theorem only_siblings_are_refused w sc target :
  sibling_write_refusal w (Some sc) target ≠ "" →
  sc.(broadened) = false ∧ sc.(anchors) ≠ ∅ ∧ ∃ directory above component below neighbour anchor,
    relative w sc target = Some (directory, above ++ component :: below) ∧
    sibling_name w (foldl path_join directory above) component sc neighbour anchor.
Proof.
  unfold sibling_write_refusal, unbounded. destruct (broadened sc); [done|]. case_bool_decide as Ha; [done|]. cbn [orb].
  destruct (str_true target); [|done]. cbn [negb]. destruct (relative w sc target) as [[directory parts]|]; [|done].
  destruct (first_sibling _ _ _ _ _) as [[[neighbour anchor] component]|] eqn:Hf; [|done]. intros _.
  apply first_sibling_Some in Hf as (above & below & -> & Hs%sibling_of_sound). split_and!; [done..|].
  by exists directory, above, component, below, neighbour, anchor.
Qed.

(** ** Shell writes *)

Lemma first_refusal_spec (refuses : string → string) targets :
  match first_refusal refuses targets with
  | Some why => why ≠ "" ∧ ∃ target, target ∈ targets ∧ refuses target = why
  | None => ∀ target, target ∈ targets → refuses target = ""
  end.
Proof.
  induction targets as [|t targets IH]; cbn [first_refusal]; [by intros ? ?%elem_of_nil|].
  destruct (str_true (refuses t)) eqn:Ht.
  - apply str_true_spec in Ht. split; [done|]. exists t. split; [apply list_elem_of_here|done].
  - apply str_true_false in Ht. destruct (first_refusal refuses targets) as [why|].
    + destruct IH as (Hw & t' & Hin & Hr). split; [done|]. exists t'. split; [by apply list_elem_of_further|done].
    + intros t' [->|Hin]%elem_of_cons; [done|by apply IH].
Qed.

(** The paths a command writes, as far as its words say: what each stage
    names, and everything it mentions where that is decided at run time. *)
Definition writes_path w (command : string) sc (cwd : option string) (path : string) : Prop :=
  ∃ argv, argv ∈ command_stages w command sc cwd ∧
    ((∃ d, d ∈ shell_destinations argv ∧ path ∈ expand_in w sc d) ∨
     decided_at_run_time argv (shell_destinations argv) = true ∧
       (path ∈ mentioned w sc (command_stages w command sc cwd) (split_stages command ≫= name_patterns) ∨
        path ∈ findall WORD_PATH (unwords (tail argv)))).

Lemma shell_write_targets_spec w command sc cwd path :
  path ∈ shell_write_targets w command sc cwd ↔ command ≠ "" ∧ writes_path w command sc cwd path.
Proof.
  unfold shell_write_targets. destruct (str_true command) eqn:Hc; cbn [negb].
  - apply str_true_spec in Hc. cbv zeta. unfold writes_path, stage_targets.
    generalize (mentioned w sc (command_stages w command sc cwd) (split_stages command ≫= name_patterns)). intros named.
    rewrite unique_elem, list_elem_of_bind.
    setoid_rewrite elem_of_app. setoid_rewrite list_elem_of_bind. split.
    + intros (argv & [(d & Hp & Hd)|Hp] & Hin); (split; [done|]); exists argv; (split; [done|]); [left; eauto|].
      destruct (decided_at_run_time _ _); [right; split; [done|by apply elem_of_app]|by apply elem_of_nil in Hp].
    + intros (_ & argv & Hin & [(d & Hd & Hp)|(Hr & Hp)]); exists argv; (split; [|done]); [left; eauto|right].
      by rewrite Hr, elem_of_app.
  - apply str_true_false in Hc. subst command. split; [intros ?%elem_of_nil; done|by intros [? _]].
Qed.

Lemma writes_path_command w sc cwd path : ¬ writes_path w "" sc cwd path.
Proof. intros (argv & Hin & _). unfold command_stages in Hin. change (split_stages "") with (@nil (list string)) in Hin. by apply elem_of_nil in Hin. Qed.

Lemma shell_write_refusal_none w command sc cwd path :
  shell_write_refusal w command (Some sc) cwd = "" → writes_path w command sc cwd path → sibling_write_refusal w (Some sc) path = "".
Proof.
  intros Hr Hp. destruct (unbounded (Some sc)) eqn:Hu; [unfold sibling_write_refusal; by rewrite Hu|].
  assert (command ≠ "") as Hc by (intros ->; by apply writes_path_command in Hp).
  unfold shell_write_refusal in Hr. rewrite Hu, (proj2 (str_true_spec command) Hc) in Hr. cbn [orb negb] in Hr.
  pose proof (first_refusal_spec (sibling_write_refusal w (Some sc)) (shell_write_targets w command sc cwd)) as Hf.
  destruct (first_refusal _ _) as [why|].
  - exfalso. apply (f_equal String.length) in Hr. rewrite length_append in Hr. cbn in Hr. lia.
  - apply Hf, shell_write_targets_spec. by split.
Qed.

(** A shell command is not a way around the bound on siblings: one that
    is let through writes no path -- by redirection, by an operand of a
    program that writes, or by any path it mentions when what it writes is
    only decided at run time -- that an edit would be refused; one that is
    refused in a bounded request writes a path that an edit would be. *)
Theorem shell_is_no_way_around w command sc cwd :
  shell_write_refusal w command (Some sc) cwd = "" ↔
  ∀ path, writes_path w command sc cwd path → sibling_write_refusal w (Some sc) path = "".
Proof.
  split; [intros Hr path; by apply shell_write_refusal_none|]. intros Hall. unfold shell_write_refusal.
  destruct (unbounded (Some sc)); [done|]. destruct (str_true command); [cbn [orb negb]|done].
  pose proof (first_refusal_spec (sibling_write_refusal w (Some sc)) (shell_write_targets w command sc cwd)) as Hf.
  destruct (first_refusal _ _) as [why|]; [|done]. destruct Hf as (Hw & path & Hin & Hr). exfalso. apply Hw. rewrite <- Hr.
  apply Hall. by apply shell_write_targets_spec in Hin as [_ ?].
Qed.

(** ** Leaving the project *)

(** An operand that is let through: it is in the project or was named by the
    operator; or it is outside the home directory, and a search only looks
    there among the system's own texts. *)
Definition stays w sc (searching_ : bool) (token : string) : Prop :=
  strays w sc token = false ∨
  inside (expand w token) [home w] = false ∧
  (searching_ = true → existsb (λ root_, inside root_ [expand w token]) (project_roots sc) = false ∧ system_text (expand w token) = true).

Lemma token_refusal_none w sc searching_ token : token_refusal w sc searching_ token = None ↔ stays w sc searching_ token.
Proof.
  unfold token_refusal, stays. destruct (strays w sc token); cbn [negb]; [|by split; [left|]]. cbv zeta.
  destruct searching_, (existsb _ _), (inside _ [home w]), (system_text _); cbn; naive_solver.
Qed.

Lemma token_refusal_said w sc searching_ token why : token_refusal w sc searching_ token = Some why → why ≠ "".
Proof. unfold token_refusal. cbv zeta. repeat case_match; intros [= <-]; done. Qed.

Lemma stage_refusal_none w sc argv : stage_refusal w sc argv = None ↔
  (binary_name argv ∉ DATABASE_SEARCHERS) ∧ ∀ token, token ∈ tail argv → stays w sc (searching argv) token.
Proof.
  unfold stage_refusal. case_bool_decide as Hb; [naive_solver|]. rewrite hd_error_None, omap_nil. setoid_rewrite token_refusal_none. naive_solver.
Qed.

Lemma stage_refusal_said w sc argv why : stage_refusal w sc argv = Some why → why ≠ "".
Proof.
  unfold stage_refusal. case_bool_decide; [by intros [= <-]|].
  intros (token & _ & Ht)%hd_error_Some%list_elem_of_omap. by eapply token_refusal_said.
Qed.

Lemma outside_project_none w command sc : roots sc ≠ [] →
  outside_project_refusal w command (Some sc) = "" ↔
  (command ≠ "" → ∀ argv, argv ∈ split_stages command →
     (binary_name argv ∉ DATABASE_SEARCHERS) ∧ ∀ token, token ∈ tail argv → stays w sc (searching argv) token).
Proof.
  intros Hroots. unfold outside_project_refusal. rewrite bool_decide_eq_false_2 by (by destruct (roots sc)). cbn [orb].
  destruct (str_true command) eqn:Hc; cbn [negb];
    [apply str_true_spec in Hc|apply str_true_false in Hc; subst; split; [done|done]].
  setoid_rewrite <- stage_refusal_none. destruct (hd_error _) as [why|] eqn:Hh; cbn [default].
  - apply hd_error_Some, list_elem_of_omap in Hh as (argv & Hin & Hw). pose proof (stage_refusal_said _ _ _ _ Hw).
    split; [done|]. intros Hall. specialize (Hall Hc argv Hin). congruence.
  - rewrite hd_error_None, omap_nil in Hh. naive_solver.
Qed.

(** ** Protected files *)

(** A path that no mutation may touch. *)
Definition protected w (path : string) : Prop :=
  (∃ spelling, spelling ∈ spellings w path ∧ (searches GENERATED_PATH spelling = true ∨ is_snapshot spelling = true)) ∨
  is_file w (default path (realpath w path)) = true ∧ says_generated (head_of w (default path (realpath w path))) = true.

Lemma judged_none label candidates : label ≠ "" → judged label candidates = "" ↔
  ∀ spelling, spelling ∈ candidates → searches GENERATED_PATH spelling = false ∧ is_snapshot spelling = false.
Proof.
  intros Hl. assert (∀ t, label +:+ t ≠ "") as Hlt by (intros t; by destruct label).
  induction candidates as [|c candidates IH]; cbn [judged]; [split; [by intros _ ? ?%elem_of_nil|done]|].
  destruct (searches GENERATED_PATH c) eqn:Hg; [split; [intros ?%Hlt; done|intros Hall; destruct (Hall c); [apply list_elem_of_here|congruence]]|].
  destruct (is_snapshot c) eqn:Hs; [split; [intros ?%Hlt; done|intros Hall; destruct (Hall c); [apply list_elem_of_here|congruence]]|].
  rewrite IH. split.
  - intros Hall x [->|Hx]%elem_of_cons; [split; assumption|exact (Hall x Hx)].
  - intros Hall x Hx. apply Hall. by apply list_elem_of_further.
Qed.

Lemma refusal_protected w path label : path ≠ "" → refusal w path label ≠ "" ↔ protected w path.
Proof.
  intros Hp. unfold refusal, protected. rewrite (proj2 (str_true_spec path) Hp). cbn [negb]. cbv zeta.
  set (l := str_or _ _). assert (l ≠ "") as Hl by (unfold l, str_or; destruct (str_true _) eqn:E; [by apply str_true_spec|done]).
  pose proof (judged_none l (spellings w path) Hl) as Hj. destruct (str_true (judged l (spellings w path))) eqn:Hs.
  - apply str_true_spec in Hs. split; [intros _; left|done].
    destruct (existsb (λ sp, searches GENERATED_PATH sp || is_snapshot sp) (spellings w path)) eqn:He.
    + apply existsb_exists in He as (sp & Hsp%list_elem_of_In & Hb%orb_true_iff). by exists sp.
    + exfalso. apply Hs, Hj. intros sp Hsp. apply orb_false_iff. apply not_true_iff_false. intros Hb.
      apply not_true_iff_false in He. apply He, existsb_exists. exists sp. split; [by apply list_elem_of_In|done].
  - apply str_true_false in Hs. pose proof (proj1 Hj Hs) as Hn. clear Hs Hj.
    assert (¬ ∃ sp, sp ∈ spellings w path ∧ (searches GENERATED_PATH sp = true ∨ is_snapshot sp = true)) as Hno
      by (intros (sp & Hsp & Hb); destruct (Hn sp Hsp); destruct Hb; congruence).
    destruct (is_file _ _ && says_generated _) eqn:Hb; [apply andb_true_iff in Hb as [Hf Hg]|apply andb_false_iff in Hb].
    + split; [intros _; right; split; assumption|]. intros _ He. by destruct l.
    + split; [done|]. intros [Hp1|[Hf Hg]]; [by destruct (Hno Hp1)|destruct Hb; congruence].
Qed.
End bounds.
