(* ===== verification/RequestPolicies.v ===== *)
(** * The bounds of a request, behind the router of tools

    The policy the router is given is the scope of the request and the files
    no mutation may touch; a small tree of files shows what they refuse. *)

From Stdlib Require Import Ascii.
From S2P Require Import Prelude Texts Values Regex Codec ToolRegistry ResultStore ToolRouter ToolRouterFacts ToolRouterProps ToolRouterSessions WorkPhaseGate.
From S2P Require Import FileTree TargetPolicy RequestIntent RequestScope RequestScopeProps.

#[local] Open Scope Z_scope.
Open Scope py_scope.

(** [execute]: what the router imports of the two policies. *)
#[export] Instance program_policy {W} `{FileTree W} : RequestPolicy W RequestScope := {
  ToolRouter.sibling_write_refusal w sc target := RequestScope.sibling_write_refusal w (Some sc) target;
  ToolRouter.outside_project_refusal w command sc := RequestScope.outside_project_refusal w command (Some sc);
  ToolRouter.shell_write_refusal w command sc cwd := RequestScope.shell_write_refusal w command (Some sc) cwd;
  ToolRouter.shell_write_targets w command sc cwd := RequestScope.shell_write_targets w command sc cwd;
  ToolRouter.target_refusal w path := TargetPolicy.refusal w path None;
}.

Section routed.
  Context {W : Type} `{FileTree W}.
  Context (canonical : json → string) (registry : ToolRegistry (Handler W)).
  Context (float_eq : string → Z → bool) (repr : json → string) (decode : string → string).
  Context (hash : string → string) (dumps : json → string).
  Implicit Types (ctx : ToolExecutionContext W RequestScope).

End routed.

(** ** A small project *)

Module BoundsExamples.

Definition sample_nodes : list (string * small_node) :=
  [("/w/p", SmallDir); ("/w/p/boards", SmallDir); ("/w/p/boards/alpha.c", SmallFile "int alpha;"); ("/w/p/boards/beta.c", SmallFile "int beta;");
   ("/w/p/boards/gamma.c", SmallFile "int gamma;"); ("/w/p/table.c", SmallFile "/* auto-generated */")].
Definition sample_tree : small_tree := mk_small sample_nodes "/home/u".
Definition alpha_scope : RequestScope := scope_of "Make alpha faster" "" "/w/p" [] [].

Lemma only_siblings_are_refused_witness :
  sibling_write_refusal sample_tree (Some alpha_scope) "boards/beta.c" ≠ "" ∧
  ∃ directory above component below, relative sample_tree alpha_scope "boards/beta.c" = Some (directory, above ++ component :: below).
Proof.
  assert (sibling_write_refusal sample_tree (Some alpha_scope) "boards/beta.c" ≠ "") as Hr by (apply str_true_spec; vm_compute; reflexivity).
  split; [exact Hr|]. destruct (only_siblings_are_refused sample_tree alpha_scope "boards/beta.c" Hr) as (_ & _ & d & a & c & b & _ & _ & He & _).
  by exists d, a, c, b.
Defined.

Definition command_spec : ToolSpec :=
  mk_tool "bash" "Run a command." (JObj [("type", JStr "object"); ("properties", JObj [("command", JObj [("type", JStr "string")])])])
    CAT_COMMAND CONDITIONAL [] [] default_result_policy ToolRegistry.only_main true None.
Definition command_handler : Handler small_tree := λ _ _ c, (c, Returned (Legacy (Text "done"))).
Definition command_registry : ToolRegistry (Handler small_tree) :=
  match register_all (λ _, Some command_handler) [command_spec] [] with Ok r => r | Raise _ => [] end.
Definition command_context : ToolExecutionContext small_tree RequestScope :=
  mk_context _ _ "task" true None None (λ _, None) "main" None false false (Some alpha_scope) None "auto".
Definition command_state : state small_tree := mk_state (mk_shared sample_tree []) empty_ledger ∅ [] [].
Definition command_args (command : string) : json := JObj [("command", JStr command)].
Abbreviation command_run command := (execute (λ _ _, false) (λ _, "") (λ s, s) bits_dumps toy_hash bits_dumps command_registry command_context
  "call" "action" "bash" (command_args command) command_state).


(** What each gate answers on the sample. *)
Example a_sibling_is_refused_to_the_shell :
  (str_true (shell_write_refusal sample_tree "echo x > boards/beta.c" (Some alpha_scope) None),
   str_true (shell_write_refusal sample_tree "cd boards && sed -i s/a/b/ beta.c" (Some alpha_scope) None),
   str_true (shell_write_refusal sample_tree "cp boards/beta.c boards/alpha.c" (Some alpha_scope) None),
   str_true (outside_project_refusal sample_tree "grep -r main /home/u/other" (Some alpha_scope)),
   str_true (outside_project_refusal sample_tree "grep -r main boards" (Some alpha_scope)),
   TargetPolicy.refusal sample_tree "/w/p/table.c" None)
  = (true, true, false, true, false, "/w/p/table.c is a generated file -- change its source").
Proof. vm_compute. reflexivity. Qed.

(** The directory that [cp -t] writes is not seen: the last operand is. *)
Example target_directory_is_not_seen :
  let command := "cp -t boards/beta.d boards/alpha.c" in
  (shell_write_targets sample_tree command alpha_scope None) = ["/w/p/boards/alpha.c"].
Proof. vm_compute. reflexivity. Qed.

(** A script given to [sed] as a flag leaves the first file out. *)
Example first_file_of_sed_is_not_seen :
  (shell_write_refusal sample_tree "sed -i -es/a/b/ boards/beta.c" (Some alpha_scope) None,
   str_true (shell_write_refusal sample_tree "sed -i s/a/b/ boards/beta.c" (Some alpha_scope) None)) = ("", true).
Proof. vm_compute. reflexivity. Qed.

(** Every pattern is read in full. *)
Example scope_patterns_are_read :
  forallb (λ r, match r with RNone => false | _ => true end)
    [TOKEN_RE; BROADENED_RE; HARNESS_SUFFIX; MEMBER_NAME; SEGMENT; REDIRECT; WORD_PATH; STAGE_SEPARATOR; NOT_A_PATH; RECURSIVE_FLAG; PATH_TOKEN;
     ENTRY_RE; MISSING_RE; GENERATED_PATH; SNAPSHOT_PATH; GENERATED_MARK; DIFF_FILE; DIFF_HUNK] = true.
Proof. vm_compute. reflexivity. Qed.
End BoundsExamples.
