(* ===== verification/ToolGuardrails.v ===== *)
(** * The guard on a loop of tool calls: [client/agent/hermes/tool_guardrails.py]

    The controller of a turn: what it counts, when it warns, and when it
    stops a call or the turn.  A result is a text; the canonical text of
    arguments, SHA-256 and the reading of JSON are parameters, and a sign
    beyond code point 255 in a text is written in ASCII.  The paths of
    results kept on disk and the settings read from a file are left out: the
    coding core gives none. *)

From Stdlib Require Import Ascii.
From stdpp Require Import gmap.
From S2P Require Import Prelude Texts Values.

#[local] Open Scope Z_scope.
Open Scope py_scope.

(** ** Tools by what they do *)

Definition IDEMPOTENT_TOOL_NAMES : list string :=
  ["read_file"; "search_files"; "web_search"; "web_extract"; "session_search"; "skill_view"; "skills_list"; "browser_snapshot";
   "browser_console"; "browser_get_images"; "mcp_filesystem_read_file"; "mcp_filesystem_read_text_file";
   "mcp_filesystem_read_multiple_files"; "mcp_filesystem_list_directory"; "mcp_filesystem_list_directory_with_sizes";
   "mcp_filesystem_directory_tree"; "mcp_filesystem_get_file_info"; "mcp_filesystem_search_files"].
Definition MUTATING_TOOL_NAMES : list string :=
  ["terminal"; "execute_code"; "write_file"; "patch"; "todo_list"; "memory"; "skill_manage"; "browser_click"; "browser_type";
   "browser_press"; "browser_scroll"; "browser_navigate"; "send_message"; "cronjob_manage"; "delegate_task"; "process_manage"].
Definition STALL_GUARD_REPEATABLE_TOOLS : list string := ["process_manage"].
Definition STALL_GUARD_REPEATABLE_SUFFIXES : list string := ["_get_result"; "_poll"].
Definition STALL_GUARD_IDENTICAL_CALL_THRESHOLD : Z := 3.
Definition IDENTICAL_RESULT_STUB_MIN_CHARS : nat := 512.
Definition RESULT_STUB_ARGS_PREVIEW_CHARS : nat := 120.
Definition FAILURE_TOLERANT_TOOL_NAMES : list string :=
  ["terminal"; "execute_code"; "process_manage"; "process"; "browser_navigate"; "web_extract"].
Definition PROGRESS_RESET_TOOL_NAMES : list string :=
  ["write_file"; "patch"; "terminal"; "execute_code"; "browser_click"; "browser_type"; "browser_press"; "browser_navigate";
   "process_manage"; "process"; "delegate_task"; "send_message"; "cronjob"; "cronjob_manage"; "todo"; "todo_list"; "memory"; "skill_manage"].

Definition is_stall_guard_repeatable (tool_name : string) : bool :=
  bool_decide (tool_name ∈ STALL_GUARD_REPEATABLE_TOOLS) || existsb (λ suffix, ends_with suffix tool_name) STALL_GUARD_REPEATABLE_SUFFIXES.

(** ** Settings *)

Record LoopCapConfig := mk_caps { max_web_searches : Z; max_subagents : Z }.
Definition default_caps : LoopCapConfig := mk_caps 50 50.

Record ToolCallGuardrailConfig := mk_config {
  warnings_enabled : bool;
  hard_stop_enabled : bool;
  non_interactive_hard_stop_enabled : bool;
  exact_failure_warn_after : Z;
  exact_failure_block_after : Z;
  same_tool_failure_warn_after : Z;
  same_tool_failure_halt_after : Z;
  no_progress_warn_after : Z;
  no_progress_block_after : Z;
  idempotent_tools : list string;
  mutating_tools : list string;
  loop_caps : LoopCapConfig;
}.
#[export] Instance config_eta : Eta ToolCallGuardrailConfig :=
  λ c, mk_config c.(warnings_enabled) c.(hard_stop_enabled) c.(non_interactive_hard_stop_enabled) c.(exact_failure_warn_after)
    c.(exact_failure_block_after) c.(same_tool_failure_warn_after) c.(same_tool_failure_halt_after) c.(no_progress_warn_after)
    c.(no_progress_block_after) c.(idempotent_tools) c.(mutating_tools) c.(loop_caps).

Definition default_config : ToolCallGuardrailConfig :=
  mk_config true false true 2 5 3 8 2 5 IDEMPOTENT_TOOL_NAMES MUTATING_TOOL_NAMES default_caps.

Definition INTERACTIVE_PLATFORMS : list string := ["cli"; "tui"; "desktop"; "acp"].
Definition SUPERVISED_TASK_PLATFORMS : list string := ["subagent"; "api_server"].

Definition is_non_interactive_platform (platform : option string) : bool :=
  match platform with
  | None => false
  | Some p => str_true (py_strip p) && negb (bool_decide (py_lower (py_strip p) ∈ INTERACTIVE_PLATFORMS ++ SUPERVISED_TASK_PLATFORMS))
  end.

(** [from_mapping] of an empty mapping: the defaults, and hard stops where
    nobody is present. *)
Definition config_for (platform : option string) : ToolCallGuardrailConfig :=
  if is_non_interactive_platform platform && default_config.(non_interactive_hard_stop_enabled)
  then default_config <| hard_stop_enabled := true |> else default_config.

(** ** Decisions *)

Abbreviation signature := (string * string)%type.

Record ToolGuardrailDecision := mk_decision {
  action : string; code : string; message : string; dc_tool : string; dc_count : Z; dc_signature : option signature;
}.

Definition allow (tool_name : string) (count : Z) (sig : signature) : ToolGuardrailDecision :=
  mk_decision "allow" "allow" "" tool_name count (Some sig).
Definition allows_execution (d : ToolGuardrailDecision) : bool := bool_decide (d.(action) ∈ ["allow"; "warn"]).
Definition should_halt (d : ToolGuardrailDecision) : bool := bool_decide (d.(action) ∈ ["block"; "halt"]).

(** What a turn remembers: failures by call and by tool, the failing calls
    since which something landed, the last results of reading tools, the
    decision that stopped it, the run of identical calls, and the caps. *)
Record controller := mk_controller {
  exact_failure_counts : gmap signature Z;
  same_tool_failure_counts : gmap string Z;
  progress_since_failure : gset signature;
  no_progress : gmap signature (string * Z);
  halt_decision : option ToolGuardrailDecision;
  streak_signature : option signature;
  streak_result : string;
  streak_count : Z;
  streak_first_call : string;
  web_searches : Z;
  subagents : Z;
}.
#[export] Instance controller_eta : Eta controller :=
  λ c, mk_controller c.(exact_failure_counts) c.(same_tool_failure_counts) c.(progress_since_failure) c.(no_progress) c.(halt_decision)
    c.(streak_signature) c.(streak_result) c.(streak_count) c.(streak_first_call) c.(web_searches) c.(subagents).

(** [reset_for_turn] *)
Definition fresh_controller : controller := mk_controller ∅ ∅ ∅ ∅ None None "" 0 "" 0 0.

Definition tally {K} `{Countable K} (m : gmap K Z) (k : K) : Z := default 0 (m !! k).

(** ** Results *)

Definition FILE_MUTATING_TOOL_NAMES : list string := ["write_file"; "patch"].
Definition double_quoted (s : string) : string := String "034" (s +:+ String "034" "").

Section controller.
  Context (float_eq : string → Z → bool) (repr : json → string) (loads : string → option json).
  Context (canonical : json → string) (hash : string → string).
  Context (config : ToolCallGuardrailConfig).

Definition file_mutation_result_landed (tool_name result : string) : bool :=
  bool_decide (tool_name ∈ FILE_MUTATING_TOOL_NAMES) &&
  match loads (py_strip result) with
  | Some (JObj data) =>
      if py_true float_eq (get_or_null data "error") then false
      else if String.eqb tool_name "write_file" then dict_mem "bytes_written" data
      else match get_or_null data "success" with JBool b => b | _ => false end
  | _ => false
  end.

(** [isinstance(data, dict) and data.get(...)] on the error of a full memory:
    a text, or what holds the text; nothing else has members. *)
Definition says_full (error : json) : bool :=
  match error with
  | JStr s => contains "exceed the limit" s
  | JList l => existsb (equals_str "exceed the limit") l
  | JObj m => dict_mem "exceed the limit" m
  | _ => false
  end.

(** [classify_tool_failure], without the tag it shows; a memory that answers
    with an error without members is not followed. *)
Definition classify_tool_failure (tool_name result : string) : bool :=
  if file_mutation_result_landed tool_name result then false else
  if String.eqb tool_name "terminal" then
    match loads result with
    | Some (JObj data) =>
        match get_or_null data "exit_code" with JNull => false | exit_code => negb (equals_int float_eq 0 exit_code) end
    | _ => false
    end
  else
    let full := match loads result with
                | Some (JObj data) =>
                    match get_or_null data "success" with
                    | JBool false => says_full (dict_get_default data "error" (JStr ""))
                    | _ => false
                    end
                | _ => false
                end in
    if String.eqb tool_name "memory" && full then true else
    let lower := py_lower (String.substring 0 500 result) in
    contains (double_quoted "error") lower || contains (double_quoted "failed") lower || String.prefix "Error" result.

(** ** Signatures *)

Definition signature_of (tool_name : string) (args : json) : signature := (tool_name, hash (encode_utf8 (canonical args))).

Definition result_hash (result : string) : string :=
  hash (encode_utf8 (match loads result with
                     | Some JNull | None => result
                     | Some parsed => canonical parsed
                     end)).

Definition is_idempotent (tool_name : string) : bool :=
  negb (bool_decide (tool_name ∈ config.(mutating_tools))) && bool_decide (tool_name ∈ config.(idempotent_tools)).

(** ** Before a call *)

Definition subagent_spawn_count (args : dict string json) : Z :=
  if bool_decide (py_lower (py_strip (py_str repr (py_or float_eq (get_or_null args "action") (JStr "")))) ∈ ["list"; "steer"; "stop"])
  then 0
  else match get_or_null args "tasks" with
       | JList (t :: l) => Z.of_nat (length (t :: l))
       | _ => 1
       end.

Definition stop (d : ToolGuardrailDecision) (g : controller) : ToolGuardrailDecision * controller := (d, g <| halt_decision := Some d |>).

(** [_check_loop_cap]: a decision where the cap is reached. *)
Definition check_loop_cap (tool_name : string) (args : dict string json) (sig : signature) (g : controller)
    : option ToolGuardrailDecision * controller :=
  if String.eqb tool_name "web_search" then
    let cap := config.(loop_caps).(max_web_searches) in
    if negb (cap =? 0) && (cap <=? g.(web_searches)) then
      let d := mk_decision "block" "loop_web_search_cap"
        ("Blocked web_search: this turn has already made " +:+ pretty cap
         +:+ " web searches, the per-turn limit. This looks like a runaway search loop. Work with the results you already have and give the user your answer.")
        tool_name g.(web_searches) (Some sig) in
      (Some d, g <| halt_decision := Some d |>)
    else (None, g <| web_searches ::= Z.succ |>)
  else if String.eqb tool_name "delegate_task" then
    let cap := config.(loop_caps).(max_subagents) in
    let spawned := subagent_spawn_count args in
    if cap =? 0 then (None, g) else
    if spawned =? 0 then (None, g) else
    if cap <=? g.(subagents) then
      let d := mk_decision "block" "loop_subagent_cap"
        ("Blocked delegate_task: this turn has already spawned " +:+ pretty g.(subagents) +:+ " subagents (limit " +:+ pretty cap
         +:+ "). This looks like a runaway delegation loop. Finish the work with the results you have and answer the user.")
        tool_name g.(subagents) (Some sig) in
      (Some d, g <| halt_decision := Some d |>)
    else (None, g <| subagents ::= λ n, n + spawned |>)
  else (None, g).

(** How often the call failed as it is, unless something landed since. *)
Definition failures_of (sig : signature) (g : controller) : Z :=
  if bool_decide (sig ∈ g.(progress_since_failure)) then 0 else tally g.(exact_failure_counts) sig.

Definition before_call (tool_name : string) (args : dict string json) (g : controller) : ToolGuardrailDecision * controller :=
  let sig := signature_of tool_name (JObj args) in
  match check_loop_cap tool_name args sig g with
  | (Some d, g) => (d, g)
  | (None, g) =>
      if negb config.(hard_stop_enabled) then (allow tool_name 0 sig, g) else
      let exact := failures_of sig g in
      if config.(exact_failure_block_after) <=? exact then
        stop (mk_decision "block" "repeated_exact_failure_block"
          ("Blocked " +:+ tool_name +:+ ": the same tool call failed " +:+ pretty exact
           +:+ " times with identical arguments. Stop retrying it unchanged; change strategy or explain the blocker.")
          tool_name exact (Some sig)) g
      else match (if is_idempotent tool_name then g.(no_progress) !! sig else None) with
           | Some (_, repeats) =>
               if config.(no_progress_block_after) <=? repeats then
                 stop (mk_decision "block" "idempotent_no_progress_block"
                   ("Blocked " +:+ tool_name +:+ ": this read-only call returned the same result " +:+ pretty repeats
                    +:+ " times. Stop repeating it unchanged; use the result already provided or try a different query.")
                   tool_name repeats (Some sig)) g
               else (allow tool_name 0 sig, g)
           | None => (allow tool_name 0 sig, g)
           end
  end.

(** ** After a call *)

Definition tool_failure_recovery_hint (tool_name : string) (count : Z) : string :=
  tool_name +:+ " has failed " +:+ pretty count
  +:+ " times this turn. This looks like a loop. Do not switch to text-only replies; keep using tools, but diagnose before retrying. First inspect the latest error/output and verify your assumptions. "
  +:+ (if String.eqb tool_name "terminal"
       then "For terminal failures, run a small diagnostic such as `pwd && ls -la` in the same tool, then try an absolute path, a simpler command, a different working directory, or a different tool such as read_file/write_file/patch."
       else "Try different arguments, a narrower query/path, an absolute path when relevant, or a different tool that can make progress. If the blocker is external, report the blocker after one diagnostic attempt instead of repeating the same failing path.").

(** A failure counts against the call and the tool; a failing call since which
    something landed begins again. *)
Definition count_failure (tool_name : string) (sig : signature) (g : controller) : controller :=
  let g := if bool_decide (sig ∈ g.(progress_since_failure)) then g <| exact_failure_counts ::= delete sig |> else g in
  let g := g <| progress_since_failure ::= λ s, s ∖ {[sig]} |> in
  let g := g <| exact_failure_counts ::= λ m, <[sig := tally m sig + 1]> m |> in
  let g := g <| no_progress ::= delete sig |> in
  g <| same_tool_failure_counts ::= λ m, <[tool_name := tally m tool_name + 1]> m |>.

Definition after_failure (tool_name : string) (sig : signature) (g : controller) : ToolGuardrailDecision * controller :=
  let g := count_failure tool_name sig g in
  let exact := tally g.(exact_failure_counts) sig in
  let same := tally g.(same_tool_failure_counts) tool_name in
  if config.(hard_stop_enabled) && negb (bool_decide (tool_name ∈ FAILURE_TOLERANT_TOOL_NAMES)) && (config.(same_tool_failure_halt_after) <=? same)
  then stop (mk_decision "halt" "same_tool_failure_halt"
         ("Stopped " +:+ tool_name +:+ ": it failed " +:+ pretty same
          +:+ " times this turn. Stop retrying the same failing tool path and choose a different approach.")
         tool_name same (Some sig)) g
  else if config.(warnings_enabled) && (config.(exact_failure_warn_after) <=? exact)
  then (mk_decision "warn" "repeated_exact_failure_warning"
          (tool_name +:+ " has failed " +:+ pretty exact
           +:+ " times with identical arguments. This looks like a loop; inspect the error and change strategy instead of retrying it unchanged.")
          tool_name exact (Some sig), g)
  else if config.(warnings_enabled) && (config.(same_tool_failure_warn_after) <=? same)
  then (mk_decision "warn" "same_tool_failure_warning" (tool_failure_recovery_hint tool_name same) tool_name same (Some sig), g)
  else (allow tool_name exact sig, g).

(** A success clears its own failures; one that changed something lets every
    failing call begin again. *)
Definition count_success (tool_name result : string) (sig : signature) (g : controller) : controller :=
  let g := g <| exact_failure_counts ::= delete sig |> in
  let g := g <| same_tool_failure_counts ::= delete tool_name |> in
  if bool_decide (tool_name ∈ PROGRESS_RESET_TOOL_NAMES) || file_mutation_result_landed tool_name result
  then let g := g <| progress_since_failure ::= λ s, s ∪ dom g.(exact_failure_counts) |> in g <| same_tool_failure_counts := ∅ |>
  else g.

Definition after_success (tool_name result : string) (sig : signature) (g : controller) : ToolGuardrailDecision * controller :=
  let g := count_success tool_name result sig g in
  if negb (is_idempotent tool_name) then (allow tool_name 0 sig, g <| no_progress ::= delete sig |>) else
  let now := result_hash result in
  let repeats := match g.(no_progress) !! sig with
                 | Some (previous, n) => if String.eqb previous now then n + 1 else 1
                 | None => 1
                 end in
  let g := g <| no_progress ::= <[sig := (now, repeats)]> |> in
  if config.(warnings_enabled) && (config.(no_progress_warn_after) <=? repeats)
  then (mk_decision "warn" "idempotent_no_progress_warning"
          (tool_name +:+ " returned the same result " +:+ pretty repeats
           +:+ " times. Use the result already provided or change the query instead of repeating it unchanged.")
          tool_name repeats (Some sig), g)
  else (allow tool_name repeats sig, g).

Definition after_call (tool_name : string) (args : dict string json) (result : string) (failed : bool) (g : controller)
    : ToolGuardrailDecision * controller :=
  let sig := signature_of tool_name (JObj args) in
  if failed then after_failure tool_name sig g else after_success tool_name result sig g.

(** ** Identical calls in a row *)

Record IdenticalCallObservation := mk_observation { notice : option string; stub : option string }.

Definition ordinal (n : Z) : string :=
  pretty n +:+ (if (11 <=? n mod 100) && (n mod 100 <=? 13) then "th" else
                if n mod 10 =? 1 then "st" else if n mod 10 =? 2 then "nd" else if n mod 10 =? 3 then "rd" else "th").

Definition reference_stub (tool_name : string) (args : dict string json) (first_id : string) : string :=
  let preview := canonical (JObj args) in
  "[hermes note: this result is byte-identical to the " +:+ tool_name +:+ " result earlier this turn"
  +:+ (if str_true first_id then " (tool_call_id " +:+ first_id +:+ ")" else "")
  +:+ ". Refer to that result; it has not changed. Args: "
  +:+ (if (RESULT_STUB_ARGS_PREVIEW_CHARS <? String.length preview)%nat
       then String.substring 0 RESULT_STUB_ARGS_PREVIEW_CHARS preview +:+ "..." else preview)
  +:+ "]".

(** The run of identical calls with identical results. *)
Definition streak (sig : signature) (result call_id : string) (g : controller) : controller :=
  let now := result_hash result in
  if bool_decide (g.(streak_signature) = Some sig) && String.eqb g.(streak_result) now
  then g <| streak_count ::= Z.succ |>
  else g <| streak_signature := Some sig |> <| streak_result := now |> <| streak_count := 1 |> <| streak_first_call := call_id |>.

Definition observe_call (tool_name : string) (args : dict string json) (result call_id : string) (failed : bool) (g : controller)
    : IdenticalCallObservation * controller :=
  let sig := signature_of tool_name (JObj args) in
  let g := streak sig result call_id g in
  let count := g.(streak_count) in
  let noticed := negb (is_stall_guard_repeatable tool_name) && (STALL_GUARD_IDENTICAL_CALL_THRESHOLD <=? count) in
  let said := "[hermes note: this is the " +:+ ordinal count +:+ " consecutive identical call to " +:+ tool_name
    +:+ " with identical arguments returning the same result. Do not repeat it -- change arguments, use a different tool, or proceed with what you have.]" in
  let g := if noticed && config.(hard_stop_enabled) && (config.(no_progress_block_after) <=? count) && bool_decide (g.(halt_decision) = None)
           then g <| halt_decision := Some (mk_decision "halt" "identical_call_streak_halt"
                  ("Stopped " +:+ tool_name +:+ ": the same call with identical arguments returned the same result " +:+ pretty count
                   +:+ " times in a row. Stop repeating it unchanged; use the result already provided or change strategy.")
                  tool_name count (Some sig)) |>
           else g in
  (mk_observation (if noticed then Some said else None)
     (if (2 <=? count) && negb failed && (IDENTICAL_RESULT_STUB_MIN_CHARS <=? String.length result)%nat
      then Some (reference_stub tool_name args g.(streak_first_call)) else None), g).
End controller.

(** ** What the model is shown *)

Section shown.
  (** [json.dumps] of a decision, keys in order. *)
  Context (dumps : json → string).

Definition decision_to_metadata (d : ToolGuardrailDecision) : json :=
  JObj ([("action", JStr d.(action)); ("code", JStr d.(code)); ("message", JStr d.(message)); ("tool_name", JStr d.(dc_tool));
         ("count", JInt d.(dc_count))]
        ++ match d.(dc_signature) with
           | Some (tool_name, args_hash) => [("signature", JObj [("tool_name", JStr tool_name); ("args_hash", JStr args_hash)])]
           | None => []
           end).

Definition toolguard_synthetic_result (d : ToolGuardrailDecision) : string :=
  dumps (JObj [("error", JStr d.(message)); ("guardrail", decision_to_metadata d)]).
End shown.

Definition append_toolguard_guidance (result : string) (d : ToolGuardrailDecision) : string :=
  if negb (bool_decide (d.(action) ∈ ["warn"; "halt"])) || negb (str_true d.(message)) then result else
  let label := if String.eqb d.(action) "halt" then "Tool loop hard stop" else "Tool loop warning" in
  result +:+ String "010" (String "010" "") +:+ "[" +:+ label +:+ ": " +:+ d.(code) +:+ "; count=" +:+ pretty d.(dc_count) +:+ "; "
  +:+ d.(message) +:+ "]".

(** ** Identical failures *)

Lemma failures_of_failure name (sig sig' : signature) (g : controller) :
  failures_of sig' (count_failure name sig g) = if bool_decide (sig = sig') then failures_of sig g + 1 else failures_of sig' g.
Proof.
  unfold failures_of, count_failure, tally. destruct (bool_decide_reflect (sig = sig')) as [<-|Hs]; cbn.
  - rewrite (bool_decide_eq_false_2 (sig ∈ _ ∖ _)) by set_solver.
    destruct (bool_decide (sig ∈ g.(progress_since_failure))); cbn; rewrite lookup_insert_eq; [by rewrite lookup_delete_eq|done].
  - rewrite (bool_decide_ext (sig' ∈ _ ∖ {[sig]}) (sig' ∈ g.(progress_since_failure)))
      by (destruct (bool_decide (sig ∈ g.(progress_since_failure))); cbn; set_solver).
    destruct (bool_decide (sig' ∈ g.(progress_since_failure))); [done|].
    destruct (bool_decide (sig ∈ g.(progress_since_failure))); cbn; rewrite lookup_insert_ne by done; [by rewrite lookup_delete_ne|done].
Qed.

Section identical_failures.
  Context (float_eq : string → Z → bool) (repr : json → string) (loads : string → option json).
  Context (canonical : json → string) (hash : string → string) (config : ToolCallGuardrailConfig).
  Implicit Types (g : controller) (sig : signature).

#[local] Abbreviation before_call := (before_call float_eq repr canonical hash config).
#[local] Abbreviation after_call := (after_call float_eq loads canonical hash config).
#[local] Abbreviation observe_call := (observe_call loads canonical hash config).
#[local] Abbreviation signature_of := (signature_of canonical hash).

(** A call with what it would return. *)
Record attempt := mk_attempt { at_tool : string; at_args : dict string json; at_result : string; at_id : string; at_failed : bool }.
Definition attempted (a : attempt) : signature := signature_of a.(at_tool) (JObj a.(at_args)).
Definition landed (a : attempt) : bool :=
  bool_decide (a.(at_tool) ∈ PROGRESS_RESET_TOOL_NAMES) || file_mutation_result_landed float_eq loads a.(at_tool) a.(at_result).

(** How often the call failed, back from now, to its last success or to the
    last change that landed: the reference, over the calls that ran, the
    latest first. *)
Fixpoint identical_failures sig (ran : list attempt) : Z :=
  match ran with
  | [] => 0
  | a :: ran =>
      if bool_decide (attempted a = sig) then (if a.(at_failed) then identical_failures sig ran + 1 else 0)
      else if negb a.(at_failed) && landed a then 0 else identical_failures sig ran
  end.

(** A call through the guard, and the calls that ran. *)
Definition guarded (p : controller * list attempt) (a : attempt) : controller * list attempt :=
  let '(d, g) := before_call a.(at_tool) a.(at_args) p.1 in
  if allows_execution d then
    let g := (after_call a.(at_tool) a.(at_args) a.(at_result) a.(at_failed) g).2 in
    ((observe_call a.(at_tool) a.(at_args) a.(at_result) a.(at_id) a.(at_failed) g).2, a :: p.2)
  else (g, p.2).
Definition watch (l : list attempt) : controller * list attempt := foldl guarded (fresh_controller, []) l.

(** What a decision leaves as it was. *)
Definition same_failures g g' : Prop :=
  g'.(exact_failure_counts) = g.(exact_failure_counts) ∧ g'.(progress_since_failure) = g.(progress_since_failure).

Lemma same_failures_of g g' sig : same_failures g g' → failures_of sig g' = failures_of sig g.
Proof. unfold failures_of. by intros [-> ->]. Qed.

Lemma before_call_same name args g : same_failures g (before_call name args g).2.
Proof.
  unfold ToolGuardrails.before_call. destruct (check_loop_cap _ _ _ _ _ _ g) as [o g1] eqn:Hcap.
  assert (same_failures g g1) as Hs.
  { unfold check_loop_cap in Hcap. repeat case_match; simplify_eq/=; done. }
  repeat case_match; simplify_eq/=; done.
Qed.

Lemma observe_call_same name args result id failed g : same_failures g (observe_call name args result id failed g).2.
Proof. unfold ToolGuardrails.observe_call, streak. by repeat case_match. Qed.

Lemma after_failure_same name sig g : same_failures (count_failure name sig g) (after_failure config name sig g).2.
Proof. unfold after_failure, stop. by repeat case_match. Qed.

Lemma after_success_same name result sig g :
  same_failures (count_success float_eq loads name result sig g) (after_success float_eq loads canonical hash config name result sig g).2.
Proof. unfold after_success. by repeat case_match. Qed.

Lemma failures_of_success a g sig :
  failures_of sig (count_success float_eq loads a.(at_tool) a.(at_result) (attempted a) g)
  = if bool_decide (attempted a = sig) then 0 else if landed a then 0 else failures_of sig g.
Proof.
  unfold failures_of, count_success, landed, tally. destruct (bool_decide_reflect (attempted a = sig)) as [<-|Hs].
  - destruct (_ || _); cbn; destruct (bool_decide _); try done; by rewrite lookup_delete_eq.
  - destruct (_ || _); cbn.
    + case_bool_decide as Hin; [done|]. rewrite lookup_delete_ne by done. destruct (g.(exact_failure_counts) !! sig) eqn:Hl; [|done].
      exfalso. apply Hin, elem_of_union_r, elem_of_dom. rewrite lookup_delete_ne by done. by eexists.
    + destruct (bool_decide (sig ∈ _)); [done|]. by rewrite lookup_delete_ne.
Qed.

Lemma guarded_failures p a : (∀ sig, failures_of sig p.1 = identical_failures sig p.2) →
  ∀ sig, failures_of sig (guarded p a).1 = identical_failures sig (guarded p a).2.
Proof.
  intros Hp sig. unfold guarded. pose proof (before_call_same a.(at_tool) a.(at_args) p.1) as Hb.
  destruct (before_call _ _ _) as [d g]. cbn [snd] in Hb. destruct (allows_execution d); cbn [fst snd]; [|by rewrite (same_failures_of _ _ _ Hb)].
  rewrite (same_failures_of _ _ _ (observe_call_same _ _ _ _ _ _)). unfold ToolGuardrails.after_call. cbn [identical_failures].
  fold (attempted a). destruct a.(at_failed) eqn:Hf.
  - rewrite (same_failures_of _ _ _ (after_failure_same _ _ _)), failures_of_failure, !(same_failures_of _ _ _ Hb), !Hp.
    by case_bool_decide as Hs; [subst|].
  - rewrite (same_failures_of _ _ _ (after_success_same _ _ _ _)), failures_of_success, (same_failures_of _ _ _ Hb), Hp. done.
Qed.

Lemma before_call_blocks name args g d : config.(hard_stop_enabled) = true → (before_call name args g).1 = d → allows_execution d = true →
  failures_of (signature_of name (JObj args)) g < config.(exact_failure_block_after).
Proof.
  intros Hh Hd Ha. pose proof (before_call_same name args g) as Hs. subst d. unfold ToolGuardrails.before_call in *.
  destruct (check_loop_cap _ _ _ _ _ _ g) as [[d|] g1] eqn:Hcap.
  - exfalso. unfold check_loop_cap in Hcap. repeat case_match; simplify_eq/=.
  - rewrite Hh in *. cbn [negb] in *.
    assert (same_failures g g1) as Hg by (unfold check_loop_cap in Hcap; repeat case_match; simplify_eq/=; done).
    rewrite (same_failures_of _ _ _ Hg) in Ha. destruct (Z.leb_spec config.(exact_failure_block_after) (failures_of (signature_of name (JObj args)) g)); [done|lia].
Qed.

(** C13: what the guard counts against a call is the number of its failures
    with the same arguments since it last succeeded or something landed,
    however the calls of a turn interleave; and where hard stops are enabled
    no call fails so more often than the limit. *)
Theorem identical_failures_are_counted l sig :
  failures_of sig (watch l).1 = identical_failures sig (watch l).2 ∧
  (config.(hard_stop_enabled) = true → 0 <= config.(exact_failure_block_after) →
   identical_failures sig (watch l).2 <= config.(exact_failure_block_after)).
Proof.
  assert (∀ sig, failures_of sig (watch l).1 = identical_failures sig (watch l).2) as Hc.
  { unfold watch. induction l as [|a l IH] using rev_ind; [done|]. rewrite foldl_snoc. by apply guarded_failures. }
  split; [done|]. intros Hh Hb. revert sig. unfold watch in *. induction l as [|a l IH] using rev_ind; intros sig; [done|].
  assert (∀ sig, failures_of sig (foldl guarded (fresh_controller, []) l).1 = identical_failures sig (foldl guarded (fresh_controller, []) l).2) as Hl.
  { clear -Hb. induction l as [|a l IH] using rev_ind; [done|]. rewrite foldl_snoc. by apply guarded_failures. }
  specialize (IH Hl). rewrite foldl_snoc. clear Hc. destruct (foldl guarded _ l) as [g ran]. unfold guarded. cbn [fst snd] in *.
  destruct (before_call _ _ g) as [d g1] eqn:Hd. destruct (allows_execution d) eqn:Ha; [|apply IH]. cbn [snd identical_failures].
  destruct (bool_decide_reflect (attempted a = sig)) as [<-|]; [|by destruct (_ && _); [lia|apply IH]]. destruct a.(at_failed); [|done].
  pose proof (before_call_blocks a.(at_tool) a.(at_args) g d Hh ltac:(by rewrite Hd) Ha) as Hlt. rewrite Hl in Hlt. unfold attempted. lia.
Qed.
End identical_failures.
