(* ===== verification/AgentDispatch.v ===== *)
(** * One tool call of the coding core: [client/agent/dispatch.py], [host.py]

    Authorise, run, record.  The host is the boundary the core asks
    ([Host]); the tools that read, search and edit are an interface of their
    own ([Tools]), with the memory of a turn they keep. *)

From Stdlib Require Import Ascii.
From S2P Require Import Prelude Texts Values Shell.

#[local] Open Scope Z_scope.
Open Scope py_scope.

(** ** The host *)

Record CommandOutcome := mk_outcome { status : string; output : string; oc_exit_code : option Z; summary : string }.

(** What the host is told after a call. *)
Record ToolRecord := mk_record {
  rc_call : string;
  rc_name : string;
  rc_arguments : dict string json;
  result : string;
  ok : bool;
  refused : bool;
  changed_paths : list string;
  read_paths : list string;
  command : option string;
  exit_code : option Z;
  timed_out : bool;
}.
#[export] Instance ToolRecord_eta : Eta ToolRecord :=
  λ r, mk_record r.(rc_call) r.(rc_name) r.(rc_arguments) r.(result) r.(ok) r.(refused) r.(changed_paths) r.(read_paths) r.(command)
    r.(exit_code) r.(timed_out).

(** A path inside the boundary, or why not; both where the host gives both. *)
Record resolution := mk_resolution { resolved : string; refusal : option string }.

Class Host (W : Type) := {
  workspace_root : W → string;
  collation_locale : W → option string;
  (** None to allow the call *)
  authorize : string → dict string json → W → W * option string;
  resolve_read : string → W → W * resolution;
  resolve_write : string → W → W * resolution;
  resolve_workdir : string → W → W * option string;
  host_write_file : string → string → string → W → W * option string;
  host_delete_file : string → string → W → W * option string;
  run_command : string → string → Z → Z → W → W * CommandOutcome;
  after_tool : ToolRecord → W → W;
}.

(** ** The tools *)

(** Where the shell of the session stands, what it exports, and where its
    last command finished. *)
Record session := mk_session { ss_cwd : option string; ss_env : string; ss_last : option string }.

(** [tools.py]; [T] is what the tools remember of a turn, the shell of the
    session apart. *)
Class Tools (W T : Type) := {
  tool_error : string → string;
  bound_json_error_result : string → string;
  read_text : T → string → string → json → json → option string → W → W * T * string;
  search : T → string → string → string → string → json → json → json → json → json → json → W → W * T * string;
  patch_file : T → string → string → json → json → bool → (string → W → W * option string) → W → W * T * (string * bool);
  write_text : T → string → string → json → (string → W → W * option string) → W → W * T * (string * bool);
  invalidate_path : string → T → T;
  terminal_timeout : json → option Z;
  workdir_refusal : string → option string;
  terminal_blocked : string → string;
  usable_dir : string → W → string;
  expanduser : string → string;
  session_script : string → string → string → Z → string → string;
  terminal_from_outcome : string → CommandOutcome → session → string → Z → option string → session * (string * option Z * bool);
}.

Definition TERMINAL_MAX_TIMEOUT : Z := 600.
Definition MAX_OUTPUT_CHARS : Z := 50000.
Definition DEFAULT_READ_LIMIT : Z := 500.
Definition SEARCH_DEFAULT_LIMIT : Z := 50.

Section dispatch.
  Context {W T : Type} `{Host W} `{Tools W T}.
  Context (float_eq : string → Z → bool) (repr : json → string) (loads : string → option json) (dumps : json → string).

#[local] Abbreviation tool_error := (tool_error (W:=W) (T:=T)).
#[local] Abbreviation bound_json_error_result := (bound_json_error_result (W:=W) (T:=T)).
#[local] Abbreviation invalidate_path := (invalidate_path (W:=W) (T:=T)).
#[local] Abbreviation terminal_timeout := (terminal_timeout (W:=W) (T:=T)).
#[local] Abbreviation workdir_refusal := (workdir_refusal (W:=W) (T:=T)).
#[local] Abbreviation terminal_blocked := (terminal_blocked (W:=W) (T:=T)).
#[local] Abbreviation usable_dir := (usable_dir (W:=W) (T:=T)).
#[local] Abbreviation expanduser := (expanduser (W:=W) (T:=T)).
#[local] Abbreviation session_script := (session_script (W:=W) (T:=T)).
#[local] Abbreviation terminal_from_outcome := (terminal_from_outcome (W:=W) (T:=T)).

(** The world, what the tools remember, and the shell of the session once a
    command ran. *)
Record tools_state := mk_tools { world : W; memory : T; shell : option session }.

Abbreviation outcome := (tools_state * (string * ToolRecord))%type.

Definition record_of (name call_id : string) (args : dict string json) (text : string) (ok_ : bool) : ToolRecord :=
  mk_record call_id name args text ok_ false [] [] None None false.

Definition text_arg (args : dict string json) (key : string) : string :=
  py_str repr (py_or float_eq (get_or_null args key) (JStr "")).
Definition given_or (args : dict string json) (key other : string) : json := py_or float_eq (get_or_null args key) (JStr other).

Definition refused_call (name : string) (args : dict string json) (call_id reason : string) : string * ToolRecord :=
  (tool_error reason, (record_of name call_id args (tool_error reason) false) <| refused := true |>).

Definition HINT : string := String "010" (String "010" "") +:+ "[Hint:".

Definition has_error (text : string) : bool :=
  match loads (partition HINT text).1 with
  | Some (JObj data) => py_true float_eq (get_or_null data "error")
  | _ => false
  end.

(** [if refusal:] on what a host answers. *)
Definition refuses (answer : option string) : option string := why ← answer; if str_true why then Some why else None.

(** Each handler, on a state whose world the host's answer may have moved. *)
Definition moved (s : tools_state) (w : W) (t : T) : tools_state := mk_tools w t s.(shell).

Definition read_file (call_id : string) (args : dict string json) (s : tools_state) : outcome :=
  let path := text_arg args "path" in
  let '(w, r) := resolve_read path s.(world) in
  match refuses r.(refusal) with
  | Some why => (moved s w s.(memory), refused_call "read_file" args call_id why)
  | None =>
      let '(w, t, text) := read_text s.(memory) path r.(resolved) (dict_get_default args "offset" (JInt 1))
        (dict_get_default args "limit" (JInt DEFAULT_READ_LIMIT)) (collation_locale w) w in
      let ok_ := negb (has_error text) in
      (moved s w t, (text, (record_of "read_file" call_id args text ok_) <| read_paths := if ok_ then [r.(resolved)] else [] |>))
  end.

Definition search_files (call_id : string) (args : dict string json) (s : tools_state) : outcome :=
  let where_ := str_or (py_str repr (given_or args "path" ".")) "." in
  let '(w, r) := resolve_read where_ s.(world) in
  match refuses r.(refusal) with
  | Some why => (moved s w s.(memory), refused_call "search_files" args call_id why)
  | None =>
      let '(w, t, text) := search s.(memory) (workspace_root w) where_ r.(resolved) (text_arg args "pattern") (given_or args "target" "content")
        (get_or_null args "file_glob") (dict_get_default args "limit" (JInt SEARCH_DEFAULT_LIMIT)) (dict_get_default args "offset" (JInt 0))
        (given_or args "output_mode" "content") (dict_get_default args "context" (JInt 0)) w in
      (moved s w t, (text, record_of "search_files" call_id args text (negb (has_error text))))
  end.

Definition patch (call_id : string) (args : dict string json) (s : tools_state) : outcome :=
  let path := text_arg args "path" in
  let '(w, r) := resolve_write path s.(world) in
  match refuses r.(refusal) with
  | Some why => (moved s w s.(memory), refused_call "patch" args call_id why)
  | None =>
      let '(w, t, (text, changed)) := patch_file s.(memory) path r.(resolved) (get_or_null args "old_string") (get_or_null args "new_string")
        (py_true float_eq (get_or_null args "replace_all")) (λ content, host_write_file r.(resolved) content "patch") w in
      (moved s w t, (text, (record_of "patch" call_id args text (negb (has_error text))) <| changed_paths := if changed then [r.(resolved)] else [] |>))
  end.

Definition write_file (call_id : string) (args : dict string json) (s : tools_state) : outcome :=
  let path := text_arg args "path" in
  let '(w, r) := resolve_write path s.(world) in
  match refuses r.(refusal) with
  | Some why => (moved s w s.(memory), refused_call "write_file" args call_id why)
  | None =>
      let '(w, t, (text, written)) := write_text s.(memory) path r.(resolved) (get_or_null args "content")
        (λ content, host_write_file r.(resolved) content "write_file") w in
      (moved s w t, (text, (record_of "write_file" call_id args text written) <| changed_paths := if written then [r.(resolved)] else [] |>))
  end.

Definition delete_file (call_id : string) (args : dict string json) (s : tools_state) : outcome :=
  let path := text_arg args "path" in
  let '(w, r) := resolve_write path s.(world) in
  match refuses r.(refusal) with
  | Some why => (moved s w s.(memory), refused_call "delete_file" args call_id why)
  | None =>
      let '(w, failure) := host_delete_file r.(resolved) (text_arg args "reason") w in
      match refuses failure with
      | Some why =>
          let text := tool_error why in (moved s w s.(memory), (text, record_of "delete_file" call_id args text false))
      | None =>
          let text := dumps (JObj [("success", JBool true); ("deleted", JStr path)]) in
          (moved s w (invalidate_path r.(resolved) s.(memory)),
           (text, (record_of "delete_file" call_id args text true) <| changed_paths := [r.(resolved)] |>))
      end
  end.

Definition fresh_session : session := mk_session None "" None.

(** [a or b] on texts that may be absent. *)
Definition text_or (a : option string) (b : string) : string := str_or (default "" a) b.

(** Why a directory of the model's choice is not entered. *)
Definition workdir_why (workdir start : string) (w : W) : W * option string :=
  match refuses (workdir_refusal workdir) with
  | Some why => (w, Some why)
  | None =>
      let '(w, answer) := resolve_workdir (normpath (path_join start (expanduser workdir))) w in (w, refuses answer)
  end.

Definition terminal (call_id : string) (args : dict string json) (s : tools_state) : outcome :=
  let command_ := text_arg args "command" in
  let ss := default fresh_session s.(shell) in
  let s := mk_tools s.(world) s.(memory) (Some ss) in
  let record text ok_ := (record_of "terminal" call_id args text ok_) <| command := Some command_ |> in
  let workdir := text_arg args "workdir" in
  match terminal_timeout (get_or_null args "timeout") with
  | None =>
      let text := tool_error ("Foreground timeout " +:+ py_str repr (get_or_null args "timeout") +:+ "s exceeds the maximum of "
                    +:+ pretty TERMINAL_MAX_TIMEOUT +:+ "s.") in
      (s, (text, record text false))
  | Some timeout =>
      let start := usable_dir (text_or ss.(ss_last) (workspace_root s.(world))) s.(world) in
      let cwd := str_or workdir (text_or ss.(ss_cwd) (workspace_root s.(world))) in
      let '(w, why) := if str_true workdir then workdir_why workdir start s.(world) else (s.(world), None) in
      match why with
      | Some why =>
          let text := terminal_blocked why in (mk_tools w s.(memory) (Some ss), (text, (record text false) <| refused := true |>))
      | None =>
          let '(w, oc) := run_command command_ (session_script command_ cwd ss.(ss_env) timeout start)
            (timeout + 15) (MAX_OUTPUT_CHARS + 30000) w in
          let '(ss, (text, code, late)) := terminal_from_outcome command_ oc ss (workspace_root w) timeout
            (if str_true workdir then Some workdir else None) in
          (mk_tools w s.(memory) (Some ss),
           (text, (record text (String.eqb oc.(status) "ok" && bool_decide (code = Some 0)))
              <| refused := String.eqb oc.(status) "denied" |> <| exit_code := code |> <| timed_out := late |>))
      end
  end.

(** ** The table *)

Definition handler : Type := string → dict string json → tools_state → outcome.
Definition HANDLERS : dict string handler :=
  [("read_file", read_file); ("search_files", search_files); ("patch", patch); ("write_file", write_file); ("delete_file", delete_file);
   ("terminal", terminal)].

Definition ARGUMENTS : dict string (list string) :=
  [("read_file", ["path"; "offset"; "limit"]);
   ("search_files", ["pattern"; "target"; "path"; "file_glob"; "limit"; "offset"; "output_mode"; "context"]);
   ("patch", ["path"; "old_string"; "new_string"; "replace_all"]);
   ("write_file", ["path"; "content"]);
   ("delete_file", ["path"; "reason"]);
   ("terminal", ["command"; "timeout"; "workdir"])].

(** A tool as it is offered: its name and the arguments it declares. *)
Record definition := mk_definition { df_name : string; df_declared : list string }.

Definition unread (d : definition) : list string :=
  let read := default [] (dict_get ARGUMENTS d.(df_name)) in
  sort_strings (unique (List.filter (λ a, negb (bool_decide (a ∈ read))) d.(df_declared))).

Definition contract_problem (d : definition) : option string :=
  if negb (dict_mem d.(df_name) HANDLERS) then Some (d.(df_name) +:+ ": no handler") else
  match unread d with
  | [] => None
  | l => Some (d.(df_name) +:+ ": arguments no handler reads: " +:+ String.concat ", " l)
  end.

(** [check_contract]: the error, if the tools offered are not all executable. *)
Definition check_contract (definitions : list definition) : option string :=
  match omap contract_problem definitions with
  | [] => None
  | problems => Some ("tool surface not executable by the agent core -- " +:+ String.concat "; " problems)
  end.

(** ** One call *)

Definition told (r : ToolRecord) (s : tools_state) : tools_state := mk_tools (after_tool r s.(world)) s.(memory) s.(shell).

Definition execute (call_id name : string) (args : dict string json) (available : list string) (s : tools_state) : outcome :=
  match (if bool_decide (name ∈ available) then dict_get HANDLERS name else None) with
  | None =>
      let text := tool_error ("Tool '" +:+ name +:+ "' does not exist. Available tools: " +:+ String.concat ", " available) in
      let record := (record_of name call_id args text false) <| refused := true |> in
      (told record s, (text, record))
  | Some run =>
      let '(w, answer) := authorize name args s.(world) in
      let s := mk_tools w s.(memory) s.(shell) in
      let '(s, (text, record)) := match refuses answer with
                                  | Some why => (s, refused_call name args call_id why)
                                  | None => run call_id args s
                                  end in
      let bounded := bound_json_error_result text in
      let '(text, record) := if String.eqb bounded text then (text, record) else (bounded, record <| result := bounded |>) in
      (told record s, (text, record))
  end.
End dispatch.
Arguments tools_state : clear implicits.

(** ** What a call may do *)

Section props.
  Context {W T : Type} `{Host W} `{Tools W T}.
  Context (float_eq : string → Z → bool) (repr : json → string) (loads : string → option json) (dumps : json → string).
  Implicit Types (s : tools_state W T) (r : ToolRecord).

#[local] Abbreviation execute := (execute float_eq repr loads dumps).
#[local] Abbreviation HANDLERS := (HANDLERS (W:=W) (T:=T) float_eq repr loads dumps).

(** A record of this call, with the text that is read; only a call that was
    not refused, of a tool that writes, changed a path. *)
Record records (name call_id : string) (args : dict string json) (text : string) r : Prop := {
  rs_call : r.(rc_call) = call_id ∧ r.(rc_name) = name ∧ r.(rc_arguments) = args;
  rs_result : r.(result) = text;
  rs_changed : r.(changed_paths) ≠ [] → r.(refused) = false ∧ name ∈ ["patch"; "write_file"; "delete_file"];
}.

Lemma refused_records name args call_id why :
  records name call_id args (refused_call (W:=W) (T:=T) name args call_id why).1 (refused_call (W:=W) (T:=T) name args call_id why).2.
Proof. by split. Qed.

Lemma handlers_record name run call_id args s s' text r : dict_get HANDLERS name = Some run →
  run call_id args s = (s', (text, r)) → records name call_id args text r.
Proof.
  assert (∀ why (s0 s1 : tools_state W T), (s0, refused_call (W:=W) (T:=T) name args call_id why) = (s1, (text, r)) → records name call_id args text r) as Href.
  { intros why s0 s1 [= _ <- <-]. apply refused_records. }
  cbn [dict_get AgentDispatch.HANDLERS].
  repeat (destruct (decide (name = _)) as [->|_];
    [intros [= <-]; unfold read_file, search_files, patch, write_file, delete_file, terminal;
     repeat case_match; try (intros; eapply Href; eassumption); intros; simplify_eq/=; split; cbn; intros; try done; repeat case_match; first [done|
       split; [done|repeat first [apply list_elem_of_here|apply list_elem_of_further]]]|]).
  done.
Qed.

End props.
