(* ===== verification/AgentLoop.v ===== *)
(** * The conversation loop of the coding core: [client/agent/loop.py]

    One turn of the operator as rounds: ask the model, deal with what it
    answered, run the calls it made.  The model, the cancellation, the reading
    of JSON and the stripping of what a model thinks aloud are parameters; the
    calls go through AgentDispatch and are watched by ToolGuardrails.  The
    conversation as the endpoint receives it is kept in [sent]. *)

From Stdlib Require Import Ascii.
From S2P Require Import Prelude Texts Values Codec Shell ToolGuardrails AgentDispatch.
From stdpp Require Import gmap.

#[local] Open Scope Z_scope.
Open Scope py_scope.

(** ** Texts of the loop: [client/agent/hermes/loop_constants.py] *)

Definition LENGTH_CONTINUATION_OUTPUT_LIMIT : string :=
  "[System: Your previous response was truncated by the output length limit. Continue exactly where you left off. Do not restart or repeat prior text. Finish the answer directly.]".
Definition EMPTY_TOOL_RESPONSE_NUDGE : string :=
  "You just executed tool calls but returned an empty response. Please process the tool results above and continue with the task.".
Definition CODEX_ACK_CONTINUATION_NUDGE : string :=
  "[System: Continue now. Execute the required tool calls and only send your final answer after completing the task.]".
Definition DROPPED_TOOLCALL_NUDGE_CONTENT : string :=
  "Your previous turn indicated a tool call but none was included. Do not narrate a plan or restate intent -- issue the actual tool call now to continue the task.".
Definition MAX_ITERATIONS_SUMMARY_REQUEST : string :=
  "You've reached the maximum number of tool-calling iterations allowed. Please provide a final response summarizing what you've found and accomplished so far, without calling any more tools.".
Definition INVALID_JSON_RESULT (err : string) : string :=
  "Error: Invalid JSON arguments. " +:+ err +:+ ". For tools with no required parameters, use an empty object: {}. Please retry with valid JSON.".
Definition INVALID_JSON_SIBLING_RESULT : string := "Skipped: other tool call in this response had invalid JSON.".
Definition TRUNCATED_RESPONSE : string := "Response truncated due to output length limit".
Definition INTERRUPTED : string := "[Command interrupted]".

Definition LENGTH_CONTINUATIONS : nat := 4.
Definition TRUNCATED_CALL_RETRIES : nat := 4.
Definition DROPPED_CALL_NUDGES : nat := 3.
Definition INVALID_JSON_RETRIES : nat := 2.
Definition CONTINUE_NUDGES : nat := 2.

(** ** Messages *)

Record call := mk_call { cl_id : string; cl_name : string; cl_arguments : string }.
#[export] Instance call_eq_dec : EqDecision call.
Proof. solve_decision. Defined.

(** What is said by a role, an assistant's calls, and the result of one. *)
Inductive message :=
  | Said (role content : string)
  | Called (content : string) (calls : list call)
  | Answered (name id content : string).

(** [_assistant] *)
Definition assistant (content : string) (calls : list call) : message :=
  match calls with
  | [] => Said "assistant" content
  | _ => Called content ((λ c, mk_call c.(cl_id) c.(cl_name) (str_or c.(cl_arguments) "{}")) <$> calls)
  end.

(** [model_backend.RawTurn] *)
Record RawTurn := mk_turn {
  text : string; calls : list call; finish_reason : option string; usage : dict string Z; error : option string;
}.

Inductive stop_reason := completed | iterations_ | tool_budget | context_ | halted | truncated | model_error | cancelled_.
#[export] Instance stop_reason_eq_dec : EqDecision stop_reason.
Proof. solve_decision. Defined.

Record counters := mk_counters { length_ : nat; truncated_call : nat; dropped : nat; invalid : nat; continue_ : nat }.
#[export] Instance counters_eta : Eta counters :=
  λ c, mk_counters c.(length_) c.(truncated_call) c.(dropped) c.(invalid) c.(continue_).

(** The bounds of a turn: the caller's, and what the window leaves. *)
Record bounds := mk_bounds { max_iterations : Z; max_tool_calls : Z; context_window : Z; max_tokens : Z }.

Definition compress_at (b : bounds) : Z := if b.(context_window) =? 0 then 0 else Z.quot (b.(context_window) - b.(max_tokens)) 2.

(** What the runtime reserves for a reply ([agent_core_turn]): a window that
    cannot hold the usual reservation gives a quarter of itself. *)
Definition MAX_TOKENS : Z := 65536.
Definition reserved_tokens (window : Z) : Z := if (window =? 0) || (2 * MAX_TOKENS <? window) then MAX_TOKENS else window / 4.

(** What a guard said of a call that ran: the halt, if it is one. *)
Definition guarded_text (shown : string) (observed : IdenticalCallObservation) (d : ToolGuardrailDecision) (streak : option ToolGuardrailDecision)
    : string * option ToolGuardrailDecision :=
  let shown := default shown (s ← observed.(stub); if str_true s then Some s else None) in
  let shown := if bool_decide (d.(action) ∈ ["warn"; "halt"]) then append_toolguard_guidance shown d else shown in
  let '(shown, halt) := if should_halt d then (shown, Some d) else
                        match streak with
                        | Some h => if String.eqb h.(code) "identical_call_streak_halt" then (append_toolguard_guidance shown h, Some h) else (shown, None)
                        | None => (shown, None)
                        end in
  (shown +:+ match observed.(notice) with
             | Some n => if str_true n then String "010" (String "010" "") +:+ n else ""
             | None => ""
             end, halt).

(** What [json.loads] raised on a text that is no JSON. *)
Record exn := JSONDecodeError { decode_error : string }.

Section loop.
  Context {W T : Type} `{Host W} `{Tools W T}.
  Context (float_eq : string → Z → bool) (repr : json → string) (dumps : json → string).
  (** [json.loads], and the compact text with sorted keys. *)
  Context (parse : string → res exn json) (compact : json → string).
  Context (canonical : json → string) (hash : string → string).
  Context (strip_think_blocks : string → string) (trailing_continue_intent : string → bool).
  Context (model : list message → list definition → Z → W → W * RawTurn) (cancelled : W → bool).
  Context (tool_definitions : list definition) (b : bounds).

Definition loads (s : string) : option json := match parse s with Ok j => Some j | Raise _ => None end.
Definition names : list string := df_name <$> tool_definitions.
Definition guard_config : ToolCallGuardrailConfig := config_for (Some "cli").

Definition canonical_arguments (raw : string) : string :=
  match parse (str_or raw "{}") with Ok j => compact j | Raise _ => "{}" end.

(** [_wire]: the copy that is sent. *)
Definition wire_message (m : message) : message :=
  match m with
  | Said role content => Said role (py_strip content)
  | Called content calls =>
      Called (py_strip content) ((λ c, mk_call c.(cl_id) c.(cl_name) (canonical_arguments c.(cl_arguments))) <$> calls)
  | Answered name id content => Answered name id (py_strip content)
  end.
Definition wire (messages : list message) : list message := wire_message <$> messages.

(** The state of a turn; [sent] is what the endpoint received so far. *)
Record turn := mk_loop {
  tools : tools_state W T;
  guard : controller;
  messages : list message;
  records : list ToolRecord;
  iterations : Z;
  count : counters;
  empty_nudged : bool;
  after_tools : bool;
  sent : list (list message * list definition);
}.
#[local] Instance turn_eta : Eta turn :=
  λ t, mk_loop t.(tools) t.(guard) t.(messages) t.(records) t.(iterations) t.(count) t.(empty_nudged) t.(after_tools) t.(sent).
#[local] Instance tools_eta : Eta (tools_state W T) := λ s, mk_tools s.(world) s.(memory) s.(shell).

Record CoreResult := mk_result { final : string; stop : stop_reason; result_error : option string }.

Definition say (l : list message) (t : turn) : turn := t <| messages ::= λ m, m ++ l |>.
Definition nudge (content text : string) (t : turn) : turn := say [assistant content []; Said "user" text] t.

(** One request to the model. *)
Definition ask (offered : list definition) (t : turn) : turn * RawTurn :=
  let request := wire t.(messages) in
  let '(w, raw) := model request offered b.(max_tokens) t.(tools).(world) in
  (t <| tools ::= λ s, s <| world := w |> |> <| sent ::= λ l, l ++ [(request, offered)] |>, raw).

Definition visible (raw : RawTurn) : string := py_strip (strip_think_blocks raw.(text)).

Definition summarize (why : stop_reason) (t : turn) : turn * CoreResult :=
  let t := say [Said "user" MAX_ITERATIONS_SUMMARY_REQUEST] t in
  let '(t, raw) := ask [] t in
  (say [assistant (visible raw) []] t, mk_result (visible raw) why None).

(** *** The calls of a reply *)

Definition bad_arguments (c : call) : option string :=
  if str_true (py_strip c.(cl_arguments)) then match parse c.(cl_arguments) with Ok _ => None | Raise e => Some (decode_error e) end else None.

(** [invalid]: by the identity of the call; a later one replaces. *)
Definition invalid_calls (l : list call) : dict string string :=
  foldl (λ d c, match bad_arguments c with Some e => dict_set c.(cl_id) e d | None => d end) [] l.

Definition refuse_invalid (bad : dict string string) (c : call) : message :=
  Answered c.(cl_name) c.(cl_id) (match dict_get bad c.(cl_id) with Some e => INVALID_JSON_RESULT e | None => INVALID_JSON_SIBLING_RESULT end).

Definition batch_key (c : call) : string * string := (c.(cl_name), canonical_arguments c.(cl_arguments)).

Fixpoint deduplicate (seen : list (string * string)) (l : list call) : list call :=
  match l with
  | [] => []
  | c :: l => if bool_decide (batch_key c ∈ seen) then deduplicate seen l else c :: deduplicate (seen ++ [batch_key c]) l
  end.

Definition answer (c : call) (content : string) (t : turn) : turn := say [Answered c.(cl_name) c.(cl_id) content] t.
Definition keep (r : ToolRecord) (t : turn) : turn := t <| records ::= λ l, l ++ [r] |>.

(** One call: what is answered for it, and whether it halts the turn.  An
    argument text of spaces only is not checked before, and raises here. *)
Definition run_call (c : call) (t : turn) : turn * res exn (option ToolGuardrailDecision) :=
  if cancelled t.(tools).(world) then (answer c INTERRUPTED t, Ok None) else
  match parse (str_or c.(cl_arguments) "{}") with
  | Raise e => (t, Raise e)
  | Ok j =>
      let args := match j with JObj m => m | _ => [] end in
      let '(blocked, g) := before_call float_eq repr canonical hash guard_config c.(cl_name) args t.(guard) in
      let t := t <| guard := g |> in
      if negb (allows_execution blocked) then
        let shown := toolguard_synthetic_result dumps blocked in
        let record := mk_record c.(cl_id) c.(cl_name) args shown false true [] [] None None false in
        (answer c shown (keep record (t <| tools ::= told record |>)), Ok (Some blocked))
      else
        let '(s, (shown, record)) := execute float_eq repr loads dumps c.(cl_id) c.(cl_name) args names t.(tools) in
        let failed := classify_tool_failure float_eq loads c.(cl_name) shown in
        let '(d, g) := after_call float_eq loads canonical hash guard_config c.(cl_name) args shown failed t.(guard) in
        let '(observed, g) := observe_call loads canonical hash guard_config c.(cl_name) args shown c.(cl_id) failed g in
        let '(shown, halt) := guarded_text shown observed d g.(halt_decision) in
        (answer c shown (keep record (t <| tools := s |> <| guard := g |>)), Ok halt)
  end.

(** The calls in order; the first halt stands. *)
Fixpoint run_calls (halt : option ToolGuardrailDecision) (l : list call) (t : turn) : turn * res exn (option ToolGuardrailDecision) :=
  match l with
  | [] => (t, Ok halt)
  | c :: l =>
      match run_call c t with
      | (t, Raise e) => (t, Raise e)
      | (t, Ok h) => run_calls (match halt with Some d => Some d | None => h end) l t
      end
  end.

Definition halt_answer (d : ToolGuardrailDecision) : string :=
  "I stopped retrying " +:+ str_or d.(dc_tool) "a tool" +:+ " because it hit the tool-call guardrail (" +:+ d.(code) +:+ ") after "
  +:+ pretty d.(dc_count)
  +:+ " repeated non-progressing attempts. The last tool result explains the blocker; the next step is to change strategy instead of repeating the same call.".

(** *** One round *)

(** The rest of a turn after a round: another one, its result, or what the
    round raised. *)
Definition next (t : turn) : turn * res exn (option CoreResult) := (t, Ok None).
Definition finish (why : stop_reason) (final : string) (error : option string) (t : turn) : turn * res exn (option CoreResult) :=
  (t, Ok (Some (mk_result final why error))).

Definition run_batch (content : string) (l : list call) (t : turn) : turn * res exn (option CoreResult) :=
  let bad := invalid_calls l in
  if negb (bool_decide (length bad = 0%nat)) then
    let t := t <| count ::= λ c, c <| invalid ::= S |> |> in
    if (t.(count).(invalid) <=? INVALID_JSON_RETRIES)%nat then next t else
    let t := t <| count ::= λ c, c <| invalid := 0%nat |> |> in
    next (say (assistant content l :: (refuse_invalid bad <$> l)) t <| after_tools := true |>)
  else
    let t := t <| count ::= λ c, c <| invalid := 0%nat |> |> in
    let l := deduplicate [] l in
    match run_calls None l (say [assistant content l] t) with
    | (t, Raise e) => (t, Raise e)
    | (t, Ok halt) =>
        let t := t <| after_tools := true |> in
        match halt with
        | Some d => finish halted (halt_answer d) None t
        | None => next t
        end
    end.

(** A reply without calls. *)
Definition conclude (content : string) (t : turn) : turn * res exn (option CoreResult) :=
  if negb (str_true content) && t.(after_tools) && negb t.(empty_nudged) then
    next (nudge "(empty)" EMPTY_TOOL_RESPONSE_NUDGE (t <| empty_nudged := true |>))
  else if (t.(count).(continue_) <? CONTINUE_NUDGES)%nat && negb (bool_decide (length names = 0%nat)) && trailing_continue_intent content then
    next (nudge content CODEX_ACK_CONTINUATION_NUDGE (t <| count ::= λ c, c <| continue_ ::= S |> |>))
  else finish completed content None (say [assistant content []] t).

Definition over_context (raw : RawTurn) : bool :=
  negb (compress_at b =? 0) && negb (bool_decide (length raw.(usage) = 0%nat)) && (compress_at b <=? dict_get_default raw.(usage) "prompt_tokens" 0).

Definition finished_with (reason : string) (raw : RawTurn) : bool := bool_decide (raw.(finish_reason) = Some reason).

(** A reply that was neither an error nor too long. *)
Definition dispatch_reply (raw : RawTurn) (t : turn) : turn * res exn (option CoreResult) :=
  let content := visible raw in
  let has_calls := negb (bool_decide (length raw.(calls) = 0%nat)) in
  if finished_with "length" raw && has_calls then
    let t := t <| count ::= λ c, c <| truncated_call ::= S |> |> in
    if (TRUNCATED_CALL_RETRIES <? t.(count).(truncated_call))%nat then finish truncated TRUNCATED_RESPONSE None t else next t
  else if finished_with "length" raw && (t.(count).(length_) <? LENGTH_CONTINUATIONS)%nat then
    next (nudge content LENGTH_CONTINUATION_OUTPUT_LIMIT (t <| count ::= λ c, c <| length_ ::= S |> |>))
  else if negb has_calls && finished_with "tool_calls" raw && (t.(count).(dropped) <? DROPPED_CALL_NUDGES)%nat then
    next (nudge content DROPPED_TOOLCALL_NUDGE_CONTENT (t <| count ::= λ c, c <| dropped ::= S |> |>))
  else if has_calls then run_batch content raw.(calls) t
  else conclude content t.

Definition stopped (p : turn * CoreResult) : turn * res exn (option CoreResult) := (p.1, Ok (Some p.2)).

Definition round (t : turn) : turn * res exn (option CoreResult) :=
  if cancelled t.(tools).(world) then finish cancelled_ "" None t else
  if b.(max_iterations) <=? t.(iterations) then stopped (summarize iterations_ t) else
  if b.(max_tool_calls) <=? Z.of_nat (length t.(records)) then stopped (summarize tool_budget t) else
  let '(t, raw) := ask tool_definitions (t <| iterations ::= Z.succ |>) in
  match refuses raw.(error) with
  | Some why => finish model_error "" (Some why) t
  | None => if over_context raw then stopped (summarize context_ t) else dispatch_reply raw t
  end.

(** The rounds of a turn, as many as the fuel allows. *)
Fixpoint rounds (fuel : nat) (t : turn) : turn * res exn (option CoreResult) :=
  match fuel with
  | O => next t
  | S fuel =>
      match round t with
      | (t, Ok None) => rounds fuel t
      | other => other
      end
  end.

Definition opening (system : string) (history : list (string * string)) (request : string) (w : W) (memory_ : T) : turn :=
  mk_loop (mk_tools w memory_ None) fresh_controller (Said "system" system :: ((λ h, Said h.1 h.2) <$> history) ++ [Said "user" request]) [] 0
    (mk_counters 0 0 0 0 0) false false [].

(** [run]; the fuel is one more than the rounds the caller allows. *)
Definition run (system : string) (history : list (string * string)) (request : string) (w : W) (memory_ : T)
    : res string (turn * res exn (option CoreResult)) :=
  match check_contract (W:=W) (T:=T) float_eq repr loads dumps tool_definitions with
  | Some problem => Raise problem
  | None => Ok (rounds (S (Z.to_nat b.(max_iterations))) (opening system history request w memory_))
  end.
End loop.

(** ** The conversation loop: it ends, and what it says is a conversation *)

(** ** Conversations *)

(** The calls still to be answered after some messages, in order; [None]
    where a message stands that may not: anything but the answer of the next
    call while calls are open, or an answer to no call. *)
Definition asked_for (c : call) : string * string := (c.(cl_id), c.(cl_name)).

Fixpoint owed (open_ : list (string * string)) (l : list message) : option (list (string * string)) :=
  match l with
  | [] => Some open_
  | Answered name id _ :: l =>
      match open_ with
      | o :: open_ => if bool_decide (o = (id, name)) then owed open_ l else None
      | [] => None
      end
  | Said _ _ :: l => match open_ with [] => owed [] l | _ => None end
  | Called _ calls :: l => match open_ with [] => owed (asked_for <$> calls) l | _ => None end
  end.

(** Every call is answered once, in order, before anything else is said. *)
Definition conversation (l : list message) : Prop := owed [] l = Some [].

Lemma owed_app open_ l k : owed open_ (l ++ k) = (open' ← owed open_ l; owed open' k).
Proof. revert open_. induction l as [|[] l IH]; intros []; cbn; try done; by case_bool_decide. Qed.

Lemma conversation_said l role content : conversation l → conversation (l ++ [Said role content]).
Proof. unfold conversation. rewrite owed_app. by intros ->. Qed.

Lemma owed_answers {A} (f : A → call) (g : A → message) (rest : list (string * string)) l :
  (∀ a, a ∈ l → ∃ content, g a = Answered (cl_name (f a)) (cl_id (f a)) content) → owed ((asked_for ∘ f <$> l) ++ rest) (g <$> l) = Some rest.
Proof.
  induction l as [|a l IH]; intros Hg; [done|]. destruct (Hg a) as [content Ha]; [apply list_elem_of_here|].
  cbn. rewrite Ha. cbn. rewrite bool_decide_eq_true_2 by done. apply IH. intros a' Ha'. apply Hg. by apply list_elem_of_further.
Qed.

Lemma owed_assistant l content calls : conversation l → owed [] (l ++ [assistant content calls]) = Some (asked_for <$> calls).
Proof.
  unfold conversation. rewrite owed_app. intros ->. cbn. destruct calls as [|c calls]; [done|]. cbn.
  do 2 f_equal. rewrite <- list_fmap_compose. by apply list_fmap_ext.
Qed.

(** ** The calls of a reply *)

Section texts.
  Context (parse : string → res exn json) (compact : json → string).

Lemma wire_conversation l : conversation l → conversation (wire parse compact l).
Proof.
  unfold conversation, wire. assert (∀ open_, owed open_ (wire_message parse compact <$> l) = owed open_ l) as He; [|by rewrite He].
  induction l as [|[role content|content calls|name id content] l IH]; intros [|o open_]; cbn; try done.
  - rewrite IH. f_equal. rewrite <- list_fmap_compose. by apply list_fmap_ext.
  - by case_bool_decide.
Qed.

Lemma deduplicate_sublist seen l : deduplicate parse compact seen l `sublist_of` l.
Proof. revert seen. induction l as [|c l IH]; intros seen; cbn; [done|]. case_bool_decide; [by constructor|by constructor]. Qed.

(** The calls of a batch that are run: each once by name and arguments, and
    none is missed. *)
Lemma deduplicate_spec seen l :
  NoDup (batch_key parse compact <$> deduplicate parse compact seen l) ∧
  (∀ k, k ∈ batch_key parse compact <$> deduplicate parse compact seen l ↔ k ∈ batch_key parse compact <$> l ∧ k ∉ seen).
Proof.
  revert seen. induction l as [|c l IH]; intros seen; cbn.
  - split; [constructor|]. intros k. rewrite elem_of_nil. tauto.
  - case_bool_decide as Hin.
    + destruct (IH seen) as [Hn Hk]. split; [done|]. intros k. rewrite Hk, elem_of_cons. naive_solver.
    + destruct (IH (seen ++ [batch_key parse compact c])) as [Hn Hk]. cbn. split.
      * constructor; [|done]. rewrite Hk, elem_of_app, list_elem_of_singleton. tauto.
      * intros k. rewrite !elem_of_cons, Hk, elem_of_app, list_elem_of_singleton.
        destruct (decide (k = batch_key parse compact c)) as [->|]; tauto.
Qed.

Lemma dict_set_nonempty (k v : string) (d : dict string string) : dict_set k v d ≠ [].
Proof. destruct d as [|[k' v'] d]; cbn; [done|]. by destruct (decide _). Qed.

Lemma invalid_calls_nil l : invalid_calls parse l = [] → ∀ c, c ∈ l → bad_arguments parse c = None.
Proof.
  unfold invalid_calls. assert (∀ d, foldl (λ d c, match bad_arguments parse c with Some e => dict_set (cl_id c) e d | None => d end) d l = [] →
    d = [] ∧ ∀ c, c ∈ l → bad_arguments parse c = None) as Hd; [|intros Hl; by apply Hd in Hl as [_ Hl]].
  induction l as [|c l IH]; intros d Hl; cbn in Hl; [split; [done|by intros ? ?%elem_of_nil]|].
  apply IH in Hl as [Hd Hl]. destruct (bad_arguments parse c) eqn:Hc; [by apply dict_set_nonempty in Hd|].
  split; [done|]. by intros c' [->|?]%elem_of_cons; auto.
Qed.

(** A text of spaces only, which is not looked at before it is read. *)
Definition blank (c : call) (e : exn) : Prop := cl_arguments c ≠ "" ∧ py_strip (cl_arguments c) = "" ∧ parse (cl_arguments c) = Raise e.
End texts.

Section calls.
  Context {W T : Type} `{Host W} `{Tools W T}.
  Context (float_eq : string → Z → bool) (repr : json → string) (dumps : json → string) (parse : string → res exn json).
  Context (canonical : json → string) (hash : string → string) (cancelled : W → bool) (tool_definitions : list definition).
  Implicit Types (t : turn (W:=W) (T:=T)) (c : call).

Abbreviation run_call := (run_call float_eq repr dumps parse canonical hash cancelled tool_definitions).
Abbreviation run_calls := (run_calls float_eq repr dumps parse canonical hash cancelled tool_definitions).

Lemma run_call_effect c t t' v : run_call c t = (t', v) →
  t'.(sent) = t.(sent) ∧ t'.(iterations) = t.(iterations) ∧ (length t'.(records) <= S (length t.(records)))%nat ∧
  match v with
  | Ok _ => ∃ content, t'.(messages) = t.(messages) ++ [Answered (cl_name c) (cl_id c) content]
  | Raise e => parse (str_or (cl_arguments c) "{}") = Raise e ∧ t' = t
  end.
Proof.
  unfold AgentLoop.run_call. destruct (cancelled _); [intros [= <- <-]; cbn; split_and!; [done..|lia|eauto]|].
  destruct (parse _) as [j|e]; [|intros [= <- <-]; split_and!; auto].
  destruct (before_call _ _ _ _ _ _ _ _) as [blocked g]. destruct (negb _).
  - intros [= <- <-]. cbn. rewrite length_app. cbn. split_and!; [done..|lia|eauto].
  - destruct (execute _ _ _ _ _ _ _ _ _) as [s [shown record]]. destruct (after_call _ _ _ _ _ _ _ _ _ _) as [d g'].
    destruct (observe_call _ _ _ _ _ _ _ _ _ _) as [observed g'']. destruct (guarded_text _ _ _ _) as [shown' halt].
    intros [= <- <-]. cbn. rewrite length_app. cbn. split_and!; [done..|lia|eauto].
Qed.

Lemma run_calls_effect halt l t t' v : run_calls halt l t = (t', v) →
  t'.(sent) = t.(sent) ∧ t'.(iterations) = t.(iterations) ∧ (length t'.(records) <= length t.(records) + length l)%nat ∧
  match v with
  | Ok _ => ∀ open_, owed [] t.(messages) = Some ((asked_for <$> l) ++ open_) → owed [] t'.(messages) = Some open_
  | Raise e => ∃ c, c ∈ l ∧ parse (str_or (cl_arguments c) "{}") = Raise e
  end.
Proof.
  revert halt t. induction l as [|c l IH]; intros halt t; cbn [AgentLoop.run_calls].
  - intros [= <- <-]. split_and!; [done..|cbn; lia|done].
  - destruct (run_call c t) as [t1 [h|e]] eqn:Hc; apply run_call_effect in Hc as (Hs & Hi & Hr & Hv).
    + intros Hrest. apply IH in Hrest as (Hs' & Hi' & Hr' & Hv'). destruct Hv as [content Hm].
      split_and!; [congruence..|cbn; lia|]. destruct v.
      * intros open_ Ho. apply Hv'. rewrite Hm, owed_app, Ho. cbn. by rewrite bool_decide_eq_true_2.
      * destruct Hv' as (c' & Hin & He). exists c'. split; [by apply list_elem_of_further|done].
    + intros [= <- <-]. destruct Hv as [He ->]. split_and!; [done..|cbn; lia|]. exists c. split; [apply list_elem_of_here|done].
Qed.

End calls.

(** ** Rounds *)

Section loop.
  Context {W T : Type} `{Host W} `{Tools W T}.
  Context (float_eq : string → Z → bool) (repr : json → string) (dumps : json → string).
  Context (parse : string → res exn json) (compact : json → string).
  Context (canonical : json → string) (hash : string → string).
  Context (strip_think_blocks : string → string) (trailing_continue_intent : string → bool).
  Context (model : list message → list definition → Z → W → W * RawTurn) (cancelled : W → bool).
  Context (tool_definitions : list definition) (b : bounds).
  Abbreviation turn := (AgentLoop.turn (W:=W) (T:=T)).
  Implicit Types (t : turn) (c : call) (raw : RawTurn).

Abbreviation run_batch := (run_batch float_eq repr dumps parse compact canonical hash cancelled tool_definitions).
Abbreviation dispatch_reply := (dispatch_reply float_eq repr dumps parse compact canonical hash strip_think_blocks trailing_continue_intent cancelled tool_definitions).
Abbreviation round := (round float_eq repr dumps parse compact canonical hash strip_think_blocks trailing_continue_intent model cancelled tool_definitions b).
Abbreviation rounds := (rounds float_eq repr dumps parse compact canonical hash strip_think_blocks trailing_continue_intent model cancelled tool_definitions b).
Abbreviation run := (run float_eq repr dumps parse compact canonical hash strip_think_blocks trailing_continue_intent model cancelled tool_definitions b).

(** *** One reply *)

Record reply_effect raw t t' (v : res exn (option CoreResult)) : Prop := {
  re_sent : t'.(sent) = t.(sent);
  re_iterations : t'.(iterations) = t.(iterations);
  re_messages : conversation t.(messages) → is_ok v = true → conversation t'.(messages);
  re_records : (length t'.(records) <= length t.(records) + length raw.(calls))%nat;
  re_raise : ∀ e, v = Raise e → ∃ c, c ∈ raw.(calls) ∧ (blank parse c e ∨ parse "{}" = Raise e);
}.

Lemma nudge_effect raw content text t t' : t'.(sent) = t.(sent) → t'.(iterations) = t.(iterations) → t'.(messages) = t.(messages) →
  t'.(records) = t.(records) → reply_effect raw t (nudge content text t') (Ok None).
Proof.
  intros Hs Hi Hm Hr. split; cbn; rewrite ?Hs, ?Hi, ?Hr; try done; [|apply Nat.le_add_r]. rewrite Hm. intros Hc _.
  change [Said "assistant" content; Said "user" text] with ([Said "assistant" content] ++ [Said "user" text]).
  rewrite app_assoc. by apply conversation_said, conversation_said.
Qed.

Lemma run_batch_effect content raw t t' v : run_batch content raw.(calls) t = (t', v) → reply_effect raw t t' v.
Proof.
  unfold AgentLoop.run_batch. destruct (invalid_calls parse raw.(calls)) as [|x bad] eqn:Hbad; cbn [length].
  - rewrite (bool_decide_eq_true_2 (0%nat = 0%nat)) by done. cbn [negb].
    set (t1 := say _ _). destruct (AgentLoop.run_calls _ _ _ _ _ _ _ _ None (deduplicate parse compact [] raw.(calls)) t1) as [t2 [halt|e]] eqn:Hrun;
      apply run_calls_effect in Hrun as (Hs & Hi & Hr & Hv).
    + pose proof (sublist_length _ _ (deduplicate_sublist parse compact [] raw.(calls))) as Hl.
      assert (conversation t.(messages) → conversation t2.(messages)) as Hc.
      { intros Hc. apply (Hv []). rewrite app_nil_r. cbn. by apply owed_assistant. }
      destruct halt; intros [= <- <-]; split; cbn; auto; cbn in *; try congruence; (etrans; [exact Hr|by apply Nat.add_le_mono_l]).
    + intros [= <- <-]. destruct Hv as (c & Hin & He). pose proof (sublist_length _ _ (deduplicate_sublist parse compact [] raw.(calls))) as Hl.
      split; cbn in *; try congruence; [etrans; [exact Hr|by apply Nat.add_le_mono_l]|]. intros e' [= <-].
      assert (c ∈ raw.(calls)) as Hin' by (eapply elem_of_submseteq; [exact Hin|]; apply sublist_submseteq, deduplicate_sublist).
      exists c. split; [done|]. pose proof (invalid_calls_nil parse _ Hbad c Hin') as Hb. unfold bad_arguments in Hb. unfold str_or in He.
      destruct (str_true (cl_arguments c)) eqn:Ha; [left|by right]. apply str_true_spec in Ha. rewrite He in Hb.
      destruct (str_true (py_strip (cl_arguments c))) eqn:Hp; [done|]. apply str_true_false in Hp. done.
  - cbn [negb bool_decide]. rewrite (bool_decide_eq_false_2 (S (length bad) = 0%nat)) by done. cbn [negb].
    destruct (_ <=? _)%nat; intros [= <- <-]; split; cbn; try done; try apply Nat.le_add_r. intros Hc _.
    rewrite cons_middle, app_assoc. unfold conversation. rewrite owed_app, owed_assistant by done. cbn.
    rewrite <- (app_nil_r (asked_for <$> _)). apply (owed_answers id). intros c Hin. by eexists.
Qed.

Lemma conclude_effect content raw t t' v : conclude trailing_continue_intent tool_definitions content t = (t', v) → reply_effect raw t t' v.
Proof.
  unfold conclude. destruct (_ && _); [intros [= <- <-]; by apply nudge_effect|].
  destruct (_ && _); [intros [= <- <-]; by apply nudge_effect|]. intros [= <- <-]. split; cbn; try done; [|apply Nat.le_add_r].
  intros Hc _. by apply conversation_said.
Qed.

Lemma dispatch_reply_effect raw t t' v : dispatch_reply raw t = (t', v) → reply_effect raw t t' v.
Proof.
  unfold AgentLoop.dispatch_reply. destruct (_ && _).
  { destruct (_ <? _)%nat; intros [= <- <-]; split; cbn; try done; apply Nat.le_add_r. }
  destruct (_ && _); [intros [= <- <-]; by apply nudge_effect|].
  destruct (_ && _); [intros [= <- <-]; by apply nudge_effect|].
  destruct (negb _); [apply run_batch_effect|apply conclude_effect].
Qed.

(** *** One round *)

(** What the endpoint has received so far, and what the turn holds. *)
Definition well_said t : Prop :=
  conversation t.(messages) ∧ Forall (λ r, conversation r.1) t.(sent).

Record round_effect t t' (v : res exn (option CoreResult)) : Prop := {
  ro_sent : Forall (λ r, conversation r.1) t.(sent) → conversation t.(messages) → Forall (λ r, conversation r.1) t'.(sent);
  ro_messages : conversation t.(messages) → is_ok v = true → conversation t'.(messages);
  ro_next : v = Ok None → t'.(iterations) = t.(iterations) + 1 ∧ length t'.(sent) = S (length t.(sent)) ∧ t.(iterations) < b.(max_iterations);
  ro_last : t.(iterations) <= t'.(iterations) ∧ Z.of_nat (length t'.(sent)) - t'.(iterations) <= Z.of_nat (length t.(sent)) - t.(iterations) + 1;
  ro_records : ∀ k, (∀ m d n w, (length (calls (model m d n w).2) <= k)%nat) → length t'.(records) = length t.(records) ∨
    Z.of_nat (length t'.(records)) <= b.(max_tool_calls) - 1 + Z.of_nat k;
  ro_raise : ∀ e, v = Raise e → ∃ m d n w c, c ∈ calls (model m d n w).2 ∧ (blank parse c e ∨ parse "{}" = Raise e);
}.

Lemma summarize_effect why t t' r : summarize parse compact strip_think_blocks model b why t = (t', r) →
  t'.(iterations) = t.(iterations) ∧ t'.(records) = t.(records) ∧ length t'.(sent) = S (length t.(sent)) ∧
  (conversation t.(messages) → conversation t'.(messages)) ∧
  (Forall (λ r, conversation r.1) t.(sent) → conversation t.(messages) → Forall (λ r, conversation r.1) t'.(sent)).
Proof.
  unfold summarize, ask. destruct (model _ _ _ _) as [w raw]. intros [= <- <-]. cbn. rewrite length_app. cbn. split_and!; [done|done|lia| |].
  - intros Hc. by apply conversation_said, conversation_said.
  - intros Hs Hc. apply Forall_app. split; [done|]. apply Forall_singleton. by apply wire_conversation, conversation_said.
Qed.

Lemma round_effects t t' v : round t = (t', v) → round_effect t t' v.
Proof.
  unfold AgentLoop.round. destruct (cancelled _); [intros [= <- <-]; split; try done; [lia|by left]|].
  assert (∀ why r, summarize parse compact strip_think_blocks model b why t = r → stopped r = (t', v) → round_effect t t' v) as Hstop.
  { intros why [t2 r] Hsum [= <- <-]. apply summarize_effect in Hsum as (Hi & Hr & Hs & Hm & Hf).
    split; try done; cbn; rewrite ?Hi, ?Hs, ?Hr; auto; lia. }
  destruct (Z.leb_spec b.(max_iterations) t.(iterations)) as [|Hit]; [by eapply Hstop|].
  destruct (Z.leb_spec b.(max_tool_calls) (Z.of_nat (length t.(records)))) as [|Hbud]; [by eapply Hstop|]. clear Hstop.
  unfold ask. destruct (model _ _ _ _) as [w raw] eqn:Hmodel. cbn [fst snd].
  assert (∃ m d n w', raw = (model m d n w').2) as (m & d & n & w' & Hraw) by (do 4 eexists; by rewrite Hmodel). clear Hmodel.
  set (t1 := _ <| sent ::= _ |>).
  assert (t1.(iterations) = t.(iterations) + 1) as Hi1 by (cbn; lia).
  assert (length t1.(sent) = S (length t.(sent))) as Hs1 by (cbn; rewrite length_app; cbn; lia).
  assert (t1.(records) = t.(records)) as Hr1 by done.
  assert (t1.(messages) = t.(messages)) as Hm1 by done.
  assert (Forall (λ r, conversation r.1) t.(sent) → conversation t.(messages) → Forall (λ r, conversation r.1) t1.(sent)) as Hf1.
  { intros Hs Hc. cbn. apply Forall_app. split; [done|]. apply Forall_singleton. by apply wire_conversation. }
  clearbody t1. destruct (refuses _).
  { intros [= <- <-]. split; try done; rewrite ?Hm1, ?Hi1, ?Hs1, ?Hr1; auto; lia. }
  destruct (over_context _ _).
  { destruct (summarize _ _ _ _ _ _ t1) as [t2 r] eqn:Hsum. intros [= <- <-].
    apply summarize_effect in Hsum as (Hi & Hr & Hs & Hm & Hf).
    split; try done; rewrite ?Hi, ?Hs, ?Hr, ?Hi1, ?Hs1, ?Hr1; rewrite ?Hm1 in *; auto; lia. }
  intros [Hs Hi Hm Hr Hx]%dispatch_reply_effect.
  split; rewrite ?Hs, ?Hi, ?Hi1, ?Hs1; rewrite ?Hm1, ?Hr1 in *; auto; [lia| |].
  - intros k Hk. right. specialize (Hk m d n w'). rewrite <- Hraw in Hk. lia.
  - intros e He. destruct (Hx e He) as (c & Hin & Hc). exists m, d, n, w', c. by rewrite <- Hraw.
Qed.

(** A round counts at most up to the bound. *)
Lemma round_iterations t t' v : round t = (t', v) → t'.(iterations) <= Z.max t.(iterations) b.(max_iterations).
Proof.
  intros Hround. unfold AgentLoop.round in Hround. destruct (cancelled _); [injection Hround as <- <-; lia|].
  assert (∀ why t1 r, summarize parse compact strip_think_blocks model b why t1 = r → stopped r = (t', v) → t'.(iterations) = t1.(iterations)) as Hstop.
  { intros why t1 [t2 r] Hsum [= <- <-]. by apply summarize_effect in Hsum as (Hi & _). }
  destruct (Z.leb_spec b.(max_iterations) t.(iterations)); [rewrite (Hstop _ _ _ eq_refl Hround); lia|].
  destruct (_ <=? _); [rewrite (Hstop _ _ _ eq_refl Hround); lia|].
  unfold ask in Hround. destruct (model _ _ _ _) as [w raw]. set (t1 := _ <| sent ::= _ |>) in *.
  assert (t1.(iterations) = t.(iterations) + 1) as Hi1 by (cbn; lia). clearbody t1.
  destruct (refuses _); [injection Hround as <- <-; lia|]. destruct (over_context _ _); [rewrite (Hstop _ _ _ eq_refl Hround); lia|].
  apply dispatch_reply_effect in Hround as [_ -> _ _ _]. lia.
Qed.

(** With the reservation of the runtime the turn is not stopped before it
    used some of its window. *)
Lemma reservation_leaves_room window calls_ : 4 <= window →
  0 < compress_at (mk_bounds b.(max_iterations) calls_ window (reserved_tokens window)).
Proof.
  intros Hw. unfold compress_at, reserved_tokens. cbn. rewrite (proj2 (Z.eqb_neq window 0)) by lia. cbn [orb].
  destruct (Z.ltb_spec (2 * MAX_TOKENS) window); unfold MAX_TOKENS in *; apply Z.quot_str_pos; [lia|].
  pose proof (Z.mul_div_le window 4). lia.
Qed.

(** ** A turn *)

(** A turn between two rounds. *)
Record at_round t : Prop := {
  ar_messages : conversation t.(messages);
  ar_sent : Forall (λ r, conversation r.1) t.(sent);
  ar_count : Z.of_nat (length t.(sent)) <= t.(iterations);
}.

Lemma opening_at_round system history request w memory_ : at_round (opening system history request w memory_).
Proof.
  split; [|constructor|cbn; lia]. cbn. unfold conversation. cbn.
  induction history as [|h history IH]; [done|exact IH].
Qed.

Lemma rounds_end fuel t t' v : at_round t → rounds fuel t = (t', v) →
  Forall (λ r, conversation r.1) t'.(sent) ∧ (is_ok v = true → conversation t'.(messages)) ∧
  (v = Ok None → Z.of_nat fuel <= Z.max 0 (b.(max_iterations) - t.(iterations))) ∧
  Z.of_nat (length t'.(sent)) <= Z.max t.(iterations) b.(max_iterations) + 1 ∧
  (∀ k, (∀ m d n w, (length (calls (model m d n w).2) <= k)%nat) →
     Z.of_nat (length t'.(records)) <= Z.max (Z.of_nat (length t.(records))) (b.(max_tool_calls) - 1 + Z.of_nat k)) ∧
  (∀ e, v = Raise e → ∃ m d n w c, c ∈ calls (model m d n w).2 ∧ (blank parse c e ∨ parse "{}" = Raise e)).
Proof.
  revert t. induction fuel as [|fuel IH]; intros t [Hm Hs Hc]; cbn [AgentLoop.rounds].
  { intros [= <- <-]. split_and!; try done; try lia. }
  destruct (round t) as [t1 v1] eqn:Hround. pose proof (round_iterations _ _ _ Hround) as Hbound. apply round_effects in Hround as [Hs1 Hm1 Hn1 Hl1 Hr1 He1].
  assert (∀ k, (∀ m d n w, (length (calls (model m d n w).2) <= k)%nat) →
     Z.of_nat (length t1.(records)) <= Z.max (Z.of_nat (length t.(records))) (b.(max_tool_calls) - 1 + Z.of_nat k)) as Hk1.
  { intros k Hk. destruct (Hr1 k Hk) as [->|]; lia. }
  destruct v1 as [[r|]|e].
  - intros [= <- <-]. split_and!; try done; auto. lia.
  - destruct (Hn1 eq_refl) as (Hi & Hl & Hlt). intros Hrest. apply IH in Hrest as (H1 & H2 & H3 & H4 & H5 & H6); [|split; auto; lia].
    split_and!; try done; [intros Hv; specialize (H3 Hv); lia|lia|]. intros k Hk. specialize (H5 k Hk). specialize (Hk1 k Hk). lia.
  - intros [= <- <-]. split_and!; try done; auto. lia.
Qed.

Lemma run_cases system history request w memory_ :
  match run system history request w memory_ with
  | Ok (t, v) => rounds (S (Z.to_nat b.(max_iterations))) (opening system history request w memory_) = (t, v)
  | Raise problem => check_contract (W:=W) (T:=T) float_eq repr (loads parse) dumps tool_definitions = Some problem
  end.
Proof. unfold AgentLoop.run. destruct (check_contract _ _ _ _ _); [done|]. by destruct (rounds _ _) eqn:E. Qed.

(** C3: whatever the model answers, every request it is sent is a
    conversation: each call an assistant made is answered exactly once, in
    the order of the calls and before anything else is said, and nothing is
    answered that was not called; and so is what the turn leaves, unless
    reading the arguments of a call raised. *)
Theorem every_request_is_a_conversation system history request w memory_ :
  match run system history request w memory_ with
  | Ok (t, v) => Forall (λ r, conversation r.1) t.(sent) ∧ (is_ok v = true → conversation t.(messages))
  | Raise problem => check_contract (W:=W) (T:=T) float_eq repr (loads parse) dumps tool_definitions = Some problem
  end.
Proof.
  pose proof (run_cases system history request w memory_) as Hrun. destruct (run _ _ _ _ _) as [[t v]|]; [|done].
  apply rounds_end in Hrun as (Hs & Hm & _); [by split|apply opening_at_round].
Qed.

(** C9: a turn ends: with the rounds the caller allows and one more to end
    in, whatever the model answers, it has a result or has raised; and it
    asks the model at most once per round allowed and once for a summary. *)
Theorem a_turn_ends system history request w memory_ :
  match run system history request w memory_ with
  | Ok (t, v) => v ≠ Ok None ∧ Z.of_nat (length t.(sent)) <= Z.max 0 b.(max_iterations) + 1
  | Raise problem => check_contract (W:=W) (T:=T) float_eq repr (loads parse) dumps tool_definitions = Some problem
  end.
Proof.
  pose proof (run_cases system history request w memory_) as Hrun. destruct (run _ _ _ _ _) as [[t v]|]; [|done].
  apply rounds_end in Hrun as (_ & _ & Hn & Hb & _); [|apply opening_at_round]. cbn in *. split; [|lia].
  intros Hv. specialize (Hn Hv). lia.
Qed.

(** No round begins once the calls of a turn reached their bound, so when
    no reply makes more than [k] calls a turn runs fewer than the bound
    and [k] together. *)
Theorem calls_stay_within_the_bound k system history request w memory_ t v :
  (∀ m d n w, (length (calls (model m d n w).2) <= k)%nat) →
  run system history request w memory_ = Ok (t, v) →
  Z.of_nat (length t.(records)) <= Z.max 0 (b.(max_tool_calls) - 1 + Z.of_nat k).
Proof.
  intros Hk Hrun. pose proof (run_cases system history request w memory_) as Hcases. rewrite Hrun in Hcases.
  apply rounds_end in Hcases as (_ & _ & _ & _ & Hr & _); [exact (Hr k Hk)|apply opening_at_round].
Qed.

End loop.

(** ** Examples *)

Module LoopExamples.

(** A host that allows everything and counts what it is told; tools that
    answer with the path. *)
#[local] Instance sample_host : Host nat := {
  workspace_root _ := "/w"; collation_locale _ := None; authorize _ _ w := (w, None);
  resolve_read path w := (w, mk_resolution path None); resolve_write path w := (w, mk_resolution path None);
  resolve_workdir _ w := (w, None); host_write_file _ _ _ w := (w, None); host_delete_file _ _ w := (w, None);
  run_command _ _ _ _ w := (w, mk_outcome "ok" "" (Some 0) ""); after_tool _ w := S w;
}.
#[local] Instance sample_tools : Tools nat unit := {
  tool_error s := s; bound_json_error_result s := s; read_text t path _ _ _ _ w := (w, t, path);
  search t _ _ path _ _ _ _ _ _ _ w := (w, t, path); patch_file t path _ _ _ _ _ w := (w, t, (path, true));
  write_text t path _ _ _ w := (w, t, (path, true)); invalidate_path _ t := t; terminal_timeout _ := Some 180; workdir_refusal _ := None;
  terminal_blocked s := s; usable_dir s _ := s; expanduser s := s; session_script c _ _ _ _ := c;
  terminal_from_outcome c _ ss _ _ _ := (ss, (c, Some 0, false));
}.

Definition sample_parse (s : string) : res exn json :=
  if str_true (py_strip s) then Ok (JObj [("path", JStr s)]) else Raise (JSONDecodeError "Expecting value").

(** A model that reads as often as it may, with the arguments it is given. *)
Definition reader (arguments : string) (_ : list message) (offered : list definition) (_ : Z) (w : nat) : nat * RawTurn :=
  (w, match offered with
      | [] => mk_turn "done" [] (Some "stop") [] None
      | _ => mk_turn "" [mk_call "1" "read_file" arguments; mk_call "2" "read_file" "b.c"] (Some "tool_calls") [] None
      end).
Definition sample_definitions : list definition := [mk_definition "read_file" ["path"]].
Definition sample_bounds : bounds := mk_bounds 90 3 0 65536.
Abbreviation sample_run arguments :=
  (run (W:=nat) (T:=unit) (λ _ _, false) (λ _, "") bits_dumps sample_parse bits_dumps bits_dumps toy_hash id (λ _, false) (reader arguments) (λ _, false)
     sample_definitions sample_bounds "system" [] "request" O tt).

Definition result_of (r : res string (turn (W:=nat) (T:=unit) * res exn (option CoreResult))) : option (nat * nat * option stop_reason * option string) :=
  match r with
  | Ok (t, Ok (Some c)) => Some (length t.(sent), length t.(records), Some c.(stop), None)
  | Ok (t, Raise e) => Some (length t.(sent), length t.(records), None, Some (decode_error e))
  | _ => None
  end.

Example the_budget_is_checked_between_rounds : result_of (sample_run "a.c") = Some (3%nat, 4%nat, Some tool_budget, None).
Proof. vm_compute. reflexivity. Qed.

(** A call whose arguments are a space ends the turn with an exception. *)
Example blank_arguments_end_the_turn : result_of (sample_run " ") = Some (1%nat, 0%nat, None, Some "Expecting value").
Proof. vm_compute. reflexivity. Qed.

(** A window smaller than what a reply may hold would stop the turn at the
    first reply that says what it used; the runtime reserves less there. *)
Example a_small_window_ends_the_turn :
  (compress_at (mk_bounds 90 3 32768 65536),
   over_context (mk_bounds 90 3 32768 65536) (mk_turn "" [] None [("prompt_tokens", 100)] None)) = (-16384, true).
Proof. vm_compute. reflexivity. Qed.

Definition run_of (arguments : string) : turn (W:=nat) (T:=unit) * res exn (option CoreResult) :=
  match sample_run arguments with Ok r => r | Raise _ => (opening "" [] "" O tt, Ok None) end.

Lemma sample_runs arguments : sample_run arguments = Ok (run_of arguments).
Proof.
  unfold run_of, run. assert (check_contract (W:=nat) (T:=unit) (λ _ _, false) (λ _, "") (loads sample_parse) bits_dumps sample_definitions = None)
    as -> by (vm_compute; reflexivity). reflexivity.
Qed.

Lemma calls_stay_within_the_bound_witness : Z.of_nat (length (run_of "a.c").1.(records)) <= 4.
Proof.
  apply (calls_stay_within_the_bound (W:=nat) (T:=unit) (λ _ _, false) (λ _, "") bits_dumps sample_parse bits_dumps bits_dumps toy_hash id
    (λ _, false) (reader "a.c") (λ _, false) sample_definitions sample_bounds 2%nat "system" [] "request" O tt (run_of "a.c").1 (run_of "a.c").2).
  - intros m [|d l] n w; vm_compute; lia.
  - rewrite <- surjective_pairing. apply sample_runs.
Defined.


Definition one_call := execute (W:=nat) (T:=unit) (λ _ _, false) (λ _, "") (loads sample_parse) bits_dumps "1" "patch" [("path", JStr "a.c")] ["patch"]
  (mk_tools 0%nat tt None).

End LoopExamples.
