(* ===== verification/Verification.v ===== *)
(** * What a command shows of a change: [client/evidence/verification.py]

    Commands by what they verify and how much of the change they cover, the
    evidence a tool call gives, and whether the changes of a task are
    verified.  Identifiers of evidence are a parameter. *)

From Stdlib Require Import Ascii.
From S2P Require Import Prelude Texts Values WorkingState WorkingStateFacts WorkingStateProps ToolRegistry Shell ToolRouter Regex.

#[local] Open Scope Z_scope.
Open Scope py_scope.

(** ** Categories and coverage *)

Inductive VerificationCategory :=
  | BUILD | UNIT_TEST | INTEGRATION_TEST | LINT | STATIC_ANALYSIS | EXECUTION | TARGETED_INSPECTION | GENERAL_INSPECTION | UNRELATED
  | UNKNOWN_CATEGORY.
Inductive VerificationCoverage := FULL | PARTIAL | NO_COVERAGE | UNKNOWN_COVERAGE.
Inductive CompletionVerificationStatus := NOT_REQUIRED | VERIFIED | PARTIALLY_VERIFIED | UNVERIFIED | FAILED_VERIFICATION.

#[export] Instance category_eq_dec : EqDecision VerificationCategory.
Proof. solve_decision. Defined.
#[export] Instance coverage_eq_dec : EqDecision VerificationCoverage.
Proof. solve_decision. Defined.
#[export] Instance completion_eq_dec : EqDecision CompletionVerificationStatus.
Proof. solve_decision. Defined.
#[export] Instance verification_record_eq_dec : EqDecision VerificationRecord.
Proof. solve_decision. Defined.

Definition category_text (c : VerificationCategory) : string :=
  match c with
  | BUILD => "build" | UNIT_TEST => "unit_test" | INTEGRATION_TEST => "integration_test" | LINT => "lint"
  | STATIC_ANALYSIS => "static_analysis" | EXECUTION => "execution" | TARGETED_INSPECTION => "targeted_inspection"
  | GENERAL_INSPECTION => "general_inspection" | UNRELATED => "unrelated" | UNKNOWN_CATEGORY => "unknown"
  end.
Definition coverage_text (c : VerificationCoverage) : string :=
  match c with FULL => "full" | PARTIAL => "partial" | NO_COVERAGE => "none" | UNKNOWN_COVERAGE => "unknown" end.

Definition NON_VERIFYING_CATEGORIES : list VerificationCategory := [GENERAL_INSPECTION; UNRELATED; UNKNOWN_CATEGORY].
Definition MEANINGFUL_COVERAGE : list VerificationCoverage := [FULL; PARTIAL].

Definition evidence_proves_change (category coverage : string) : bool :=
  negb (bool_decide (category ∈ category_text <$> NON_VERIFYING_CATEGORIES)) && bool_decide (coverage ∈ coverage_text <$> MEANINGFUL_COVERAGE).

(** ** Hints of a project *)

Record VerificationHints := mk_hints {
  build_commands : list string; test_commands : list string; lint_commands : list string; acceptance_commands : list string;
}.
Definition no_hints : VerificationHints := mk_hints [] [] [] [].

Definition hint_values (repr : json → string) (raw : dict string json) (name : string) : list string :=
  match dict_get raw name with
  | Some (JStr s) => [s]
  | Some (JList l) => List.filter (λ s, str_true (py_strip s)) (py_str repr <$> l)
  | _ => []
  end.
Definition hints_from_project (repr : json → string) (raw : dict string json) : VerificationHints :=
  mk_hints (hint_values repr raw "build_commands") (hint_values repr raw "test_commands") (hint_values repr raw "lint_commands")
    (hint_values repr raw "acceptance_commands").

(** ** Patterns *)

Definition BACKGROUND : regex := pattern plain "(?<![&>|])&(?![&>])".
Definition GENERAL : list string :=
  ["pwd"; "ls"; "dir"; "find"; "tree"; "stat"; "du"; "df"; "git status"; "git diff"; "git log"; "git show"].
Definition UNIT : regex := pattern I "(?:^|[/ ])(?:pytest|unittest|nosetests|jest|vitest|rspec|go test|cargo test|ctest)(?:\s|$)".
Definition INTEGRATION : regex := pattern I "\b(?:integration|e2e|end[-_ ]to[-_ ]end)\b".
Definition TARGETED_TEST : regex := pattern plain "::|\b-k\s|--test\s|test_[\w./-]+|[\w./-]+_test\.".
Definition BUILD_TREE : regex := pattern I
  "(?:^|[/ ])(?:make|ninja|cmake --build|cargo build|go build|mvn|gradle|npm run build|pnpm build|yarn build)(?:\s|$)".
Definition BUILD_PROGRAM : regex := pattern I "(?:^|&&|\|\||[;|])\s*(?:\S*/)?(?:bitbake|build\.sh)(?:\s|$)".
Definition COMPILER : regex := pattern I "(?:^|[/ ])(?:gcc|g\+\+|cc|c\+\+|clang|clang\+\+)(?:\s|$)".
Definition LINT_RE : regex := pattern I "(?:^|[/ ])(?:ruff|flake8|pylint|eslint|stylelint|shellcheck|golangci-lint)(?:\s|$)".
Definition STATIC : regex := pattern I "(?:^|[/ ])(?:mypy|pyright|tsc|clang-tidy|cppcheck|cargo check)(?:\s|$)".
Definition EXECUTION_RE : regex := pattern I
  "(?:^|[;&|]\s*)(?:python\d*|node|ruby|perl|java|dotnet run|cargo run|go run|\./[^ ]+)(?:\s|$)".
Definition quote : string := String "034" "".
Definition QUOTED : regex := pattern plain
  ("'[^']*'|\" +:+ quote +:+ "(?:\\.|[^\" +:+ quote +:+ "\\])*\" +:+ quote).
Definition TARGETED : regex := pattern I "(?:^|[/ ])(?:diff|cmp|grep|rg)(?:\s|$)".

Definition C_FAMILY : list string :=
  [".c"; ".h"; ".cc"; ".cpp"; ".cxx"; ".hpp"; ".hh"; ".hxx"; ".s"; ".inc"; ".mk"; ".cmake"; "makefile"; "cmakelists.txt"].
Definition COMPILED : list string := C_FAMILY ++ [".rs"; ".go"; ".zig"; ".d"; ".m"; ".mm"; ".asm"].
Definition INTERPRETER_LANGUAGES : list (regex * list string) :=
  [(pattern plain "^python\d*$", [".py"; ".pyi"]); (pattern plain "^node$", [".js"; ".mjs"; ".cjs"; ".ts"; ".tsx"; ".jsx"]);
   (pattern plain "^ruby$", [".rb"]); (pattern plain "^perl$", [".pl"; ".pm"]); (pattern plain "^java$", [".java"]);
   (pattern plain "^cargo$", [".rs"]); (pattern plain "^go$", [".go"]); (pattern plain "^dotnet$", [".cs"; ".fs"; ".vb"])].

(** ** Classification *)

Definition normalize (command : string) : string :=
  py_lower (py_strip (match shlex_split command with Ok argv => unwords argv | Raise _ => unwords (words command) end)).

Definition matches_hint (command : string) (hints : list string) : bool :=
  existsb (λ hint, str_true (py_strip hint)
                   && (String.eqb command (normalize hint) || String.prefix (normalize hint +:+ " ") command)) hints.

(** [rsplit("/", 1)[-1]] *)
Definition last_part (separator : ascii) (s : string) : string := default "" (last (split_on separator s)).

Definition names_a_changed_path (normalized : string) (changed_paths : list string) : bool :=
  existsb (λ path,
    let candidate := lstrip_chars "./" (py_lower path) in
    existsb (λ token, bool_decide (lstrip_chars "./" token ∈ [candidate; last_part "/"%char candidate])) (words normalized)) changed_paths.

Definition touches_language (changed_paths extensions : list string) : bool :=
  existsb (λ path,
    let name := last_part "/"%char (py_lower path) in
    let suffix := if contains "." name then "." +:+ last_part "."%char name else "" in
    bool_decide (name ∈ extensions) || str_true suffix && bool_decide (suffix ∈ extensions)) changed_paths.

Fixpoint languages_of (tokens : list string) : list string :=
  match tokens with
  | [] => COMPILED
  | token :: tokens =>
      if String.prefix "./" token then COMPILED else
      match List.find (λ p, bool_decide (is_Some (match_ p.1 (last_part "/"%char token)))) INTERPRETER_LANGUAGES with
      | Some (_, extensions) => extensions
      | None => languages_of tokens
      end
  end.
Definition execution_languages (normalized : string) : list string := languages_of (words normalized).

Definition direct_invocation (category : VerificationCategory) (best : VerificationCoverage) (normalized : string)
    (changed_paths extensions : list string) : VerificationCategory * VerificationCoverage :=
  if bool_decide (length changed_paths = 0%nat) then (category, best) else
  if names_a_changed_path normalized changed_paths then (category, best) else
  if touches_language changed_paths extensions then (category, PARTIAL) else (UNRELATED, NO_COVERAGE).

(** What the patterns recognise, once the hints did not. *)
Definition classify_by_pattern (command normalized : string) (changed_paths : list string) : VerificationCategory * VerificationCoverage :=
  if bool_decide (normalized ∈ GENERAL) || existsb (λ item, String.prefix (item +:+ " ") normalized) GENERAL
  then (GENERAL_INSPECTION, NO_COVERAGE)
  else if searches INTEGRATION normalized && searches UNIT normalized then (INTEGRATION_TEST, FULL)
  else if searches UNIT normalized then (UNIT_TEST, if searches TARGETED_TEST normalized then PARTIAL else FULL)
  else if searches BUILD_TREE normalized || searches BUILD_PROGRAM normalized then (BUILD, FULL)
  else if searches COMPILER normalized then direct_invocation BUILD FULL normalized changed_paths C_FAMILY
  else if searches LINT_RE normalized then (LINT, PARTIAL)
  else if searches STATIC normalized then (STATIC_ANALYSIS, PARTIAL)
  else if searches EXECUTION_RE (normalize (re_sub QUOTED (λ _, "''") command))
  then direct_invocation EXECUTION PARTIAL normalized changed_paths (execution_languages normalized)
  else if searches TARGETED normalized
  then (TARGETED_INSPECTION,
        if negb (bool_decide (length changed_paths = 0%nat)) && names_a_changed_path normalized changed_paths then PARTIAL else UNKNOWN_COVERAGE)
  else (UNKNOWN_CATEGORY, UNKNOWN_COVERAGE).

Definition classify_command (hints : VerificationHints) (command : string) (project_bench : bool) (changed_paths : list string)
    : VerificationCategory * VerificationCoverage :=
  let normalized := normalize command in
  if searches BACKGROUND command then (UNKNOWN_CATEGORY, UNKNOWN_COVERAGE) else
  if project_bench || matches_hint normalized hints.(acceptance_commands) then (INTEGRATION_TEST, FULL) else
  if matches_hint normalized hints.(test_commands) then (UNIT_TEST, FULL) else
  if matches_hint normalized hints.(build_commands) then (BUILD, FULL) else
  if matches_hint normalized hints.(lint_commands) then (LINT, PARTIAL) else
  classify_by_pattern command normalized changed_paths.

(** ** Evidence *)

Record VerificationEvidence := mk_verification_evidence {
  ve_id : string;
  ve_category : VerificationCategory;
  ve_coverage : VerificationCoverage;
  ve_executed : bool;
  ve_outcome : VerificationOutcome;
  ve_generation : Z;
  ve_action_id : option string;
  ve_command : option string;
  ve_result_reference : option string;
  ve_affected_paths : list string;
  ve_project_bench : bool;
  ve_summary : option string;
}.

Definition proves_change (e : VerificationEvidence) : bool :=
  evidence_proves_change (category_text e.(ve_category)) (coverage_text e.(ve_coverage)).

Definition evidence_summary (category : VerificationCategory) (coverage : VerificationCoverage) (outcome : VerificationOutcome) : string :=
  category_text category +:+ " " +:+ outcome_value outcome +:+ " (" +:+ coverage_text coverage +:+ " coverage)".

Definition command_tools : list string := ["bash"; "terminal"].

(** The paths the task changed, each once. *)
Definition touched_paths (s : WorkingState) : list string :=
  sort_strings (elements (s.(ws_modified_files) ∪ s.(ws_created_files) ∪ s.(ws_deleted_files))).

(** [evidence_for_tool]; [id] is the identifier drawn, [command] the text of
    the argument. *)
Definition evidence_for_tool (hints : VerificationHints) (id : string) (e : ToolResultEnvelope) (command : string) (s : WorkingState)
    (project_bench : bool) : option VerificationEvidence :=
  if negb (bool_decide (e.(tool_name) ∈ command_tools)) && negb project_bench then None else
  let '(category, coverage) := classify_command hints command project_bench (touched_paths s) in
  let executed := negb (bool_decide (e.(status) ∈ NOT_EXECUTED)) in
  let outcome := if executed && e.(success) then PASSED else if executed then VERIFICATION_FAILED else NOT_RUN in
  if bool_decide (category = UNKNOWN_CATEGORY) && negb e.(success) then None else
  Some (mk_verification_evidence id category coverage executed outcome s.(ws_mutation_generation) (Some e.(action_id))
          (if str_true command then Some command else None) e.(result_reference) e.(affected_paths) project_bench
          (Some (evidence_summary category coverage outcome))).

Definition project_bench_evidence (id : string) (s : WorkingState) (executed : bool) (passed : option bool)
    (action_id result_reference summary : option string) : VerificationEvidence :=
  let outcome := if negb executed then NOT_RUN else if default false passed then PASSED else VERIFICATION_FAILED in
  mk_verification_evidence id INTEGRATION_TEST FULL executed outcome s.(ws_mutation_generation) action_id None result_reference [] true
    (Some (str_or (default "" summary) (evidence_summary INTEGRATION_TEST FULL outcome))).

(** ** Whether a task is verified *)

Record CompletionEvaluation := mk_evaluation {
  ce_status : CompletionVerificationStatus; ce_generation : Z; ce_evidence : list VerificationRecord; ce_reason : string;
}.

Definition meaningfully_verified (e : CompletionEvaluation) : bool := bool_decide (e.(ce_status) = VERIFIED).

Definition is_outcome (o : VerificationOutcome) (v : VerificationRecord) : bool := bool_decide (v.(ver_outcome) = o).
Definition is_full (v : VerificationRecord) : bool := String.eqb v.(ver_coverage) (coverage_text FULL).

Definition current_evidence (s : WorkingState) : list VerificationRecord :=
  List.filter (λ v, v.(ver_mutation_generation) =? s.(ws_mutation_generation)) s.(ws_verifications).
Definition meaningful_evidence (s : WorkingState) : list VerificationRecord :=
  List.filter (λ v, evidence_proves_change v.(ver_category) v.(ver_coverage)) (current_evidence s).

(** [meaningful[meaningful.index(latest) + 1:]] *)
Fixpoint after_first (latest : VerificationRecord) (l : list VerificationRecord) : list VerificationRecord :=
  match l with
  | [] => []
  | v :: l => if bool_decide (v = latest) then l else after_first latest l
  end.

(** A failure that stands. *)
Definition failure_stands (meaningful : list VerificationRecord) : bool :=
  existsb (is_outcome VERIFICATION_FAILED) meaningful &&
  match last meaningful with
  | Some latest => is_outcome VERIFICATION_FAILED latest && negb (existsb (is_outcome PASSED) (after_first latest meaningful))
  | None => false
  end.

Definition evaluate_completion (s : WorkingState) : CompletionEvaluation :=
  let generation := s.(ws_mutation_generation) in
  if generation =? 0 then mk_evaluation NOT_REQUIRED generation [] "no grounded mutation" else
  let meaningful := meaningful_evidence s in
  if failure_stands meaningful then mk_evaluation FAILED_VERIFICATION generation meaningful "latest meaningful verification failed" else
  let passed := List.filter (is_outcome PASSED) meaningful in
  if existsb is_full passed then mk_evaluation VERIFIED generation passed "full current-generation evidence passed" else
  if negb (bool_decide (length passed = 0%nat))
  then mk_evaluation PARTIALLY_VERIFIED generation passed "only partial current-generation evidence passed"
  else mk_evaluation UNVERIFIED generation (current_evidence s) "no meaningful current-generation evidence".

(** ** What the verdict of a task is *)

Lemma last_is_after (l : list VerificationRecord) v :
  NoDup (ver_verification_id <$> l) → last l = Some v → after_first v l = [].
Proof.
  induction l as [|a l IH]; [done|]. intros Hnd Hl. cbn [fmap list_fmap] in Hnd. apply NoDup_cons in Hnd as [Ha Hnd].
  cbn [after_first]. destruct l as [|b l].
  { cbn in Hl. injection Hl as ->. by rewrite bool_decide_eq_true_2. }
  rewrite last_cons_cons in Hl. case_bool_decide as Hav; [|by apply IH].
  exfalso. subst a. apply Ha. apply list_elem_of_fmap. exists v. split; [done|]. by apply last_Some_elem_of.
Qed.

Lemma filtered_ids_stay_distinct f (l : list VerificationRecord) :
  NoDup (ver_verification_id <$> l) → NoDup (ver_verification_id <$> List.filter f l).
Proof.
  induction l as [|a l IH]; [done|]. cbn [fmap list_fmap List.filter]. intros Hnd. apply NoDup_cons in Hnd as [Ha Hnd].
  destruct (f a); [|by apply IH]. cbn [fmap list_fmap]. apply NoDup_cons. split; [|by apply IH].
  contradict Ha. apply list_elem_of_fmap in Ha as (x & -> & Hx). apply list_elem_of_fmap. exists x. split; [done|].
  apply list_elem_of_In, filter_In in Hx as [Hx _]. by apply list_elem_of_In.
Qed.

Lemma failure_stands_last t s :
  reachable t s →
  failure_stands (meaningful_evidence s) = match last (meaningful_evidence s) with Some v => is_outcome VERIFICATION_FAILED v | None => false end.
Proof.
  intros Hr. unfold failure_stands. destruct (last (meaningful_evidence s)) as [v|] eqn:Hl; [|apply andb_false_r].
  rewrite (last_is_after _ v); [|by apply filtered_ids_stay_distinct, filtered_ids_stay_distinct, wf_verifications, (reachable_wf_aux t)|done].
  cbn [existsb negb]. rewrite andb_true_r. destruct (is_outcome VERIFICATION_FAILED v) eqn:Hv; [|apply andb_false_r].
  rewrite andb_true_r. apply existsb_exists. exists v. split; [|done]. by apply list_elem_of_In, last_Some_elem_of.
Qed.

(** A record that can verify the state: of this generation of changes, about
    the change. *)
Definition verifies (s : WorkingState) (v : VerificationRecord) : Prop :=
  v ∈ s.(ws_verifications) ∧ v.(ver_mutation_generation) = s.(ws_mutation_generation) ∧
  evidence_proves_change v.(ver_category) v.(ver_coverage) = true.

Lemma meaningful_verifies s v : v ∈ meaningful_evidence s ↔ verifies s v.
Proof.
  unfold meaningful_evidence, current_evidence, verifies. rewrite !list_elem_of_In, !filter_In, Z.eqb_eq. tauto.
Qed.

Lemma passed_verifies s v :
  v ∈ List.filter (is_outcome PASSED) (meaningful_evidence s) ↔ verifies s v ∧ v.(ver_outcome) = PASSED.
Proof. rewrite list_elem_of_In, filter_In, <- list_elem_of_In, meaningful_verifies. unfold is_outcome. by rewrite bool_decide_eq_true. Qed.


(** ** Runs *)

Definition record_event (n id outcome : string) (executed : bool) : StateEvent :=
  example_event n VERIFICATION_RECORDED HARNESS
    [("executed", JBool executed); ("outcome", JStr outcome); ("verification_id", JStr id); ("kind", JStr "unit_test");
     ("coverage", JStr "full")].
Definition after_checks (checks : list StateEvent) : WorkingState := run ([ev_start; ev_write; ev_modified] ++ checks).


(** A check that was refused after a failure takes the failure away: what
    passed before it verifies the change again. *)
Example a_refused_check_hides_a_failure :
  let checks := [record_event "c1" "w1" "passed" true; record_event "c2" "w2" "failed" true] in
  (evaluate_completion (after_checks checks)).(ce_status) = FAILED_VERIFICATION ∧
  (evaluate_completion (after_checks (checks ++ [record_event "c3" "w3" "not_run" false]))).(ce_status) = VERIFIED.
Proof. vm_compute. split; reflexivity. Qed.
