(* ===== verification/Completion.v ===== *)
(** * The verdict of a coding turn: [client/evidence/completion.py]

    What each call of the turn did, the checks that ran and the state of the
    sources they ran on, what the answer claims, and the answer as it is
    handed over.  Whether a path is a build's output is a function of the
    caller.  The dash of the texts is [--], and the two check marks, which
    are no characters of the model, are left out of the patterns. *)

From Stdlib Require Import Ascii.
From S2P Require Import Prelude Texts Values Shell Regex RequestScope AgentDispatch Verification.

#[local] Open Scope Z_scope.
Open Scope py_scope.

Definition WRITE_TOOLS : list string := ["patch"; "write_file"].

Record Verdict := mk_verdict { vd_state : string; vd_changed : list string; vd_reason : string }.

(** ** One call, as it is judged *)

Record Evidence := mk_evidence {
  ec_name : string;
  ec_changed : list string;
  ec_command : option string;
  ec_exit_code : option Z;
  ec_refused : bool;
  ec_timed_out : bool;
  ec_output : string;
}.

(** [s[-n:]] *)
Definition last_chars (n : nat) (s : string) : string := drop (String.length s - n) s.

Definition evidence (float_eq : string → Z → bool) (repr : json → string) (loads : string → option json) (label : string → string)
    (r : ToolRecord) : Evidence :=
  mk_evidence r.(rc_name)
    (if bool_decide (r.(rc_name) ∈ WRITE_TOOLS ++ ["delete_file"]) && negb r.(refused) then label <$> r.(changed_paths) else [])
    r.(command) r.(exit_code) r.(refused) r.(timed_out)
    (if String.eqb r.(rc_name) "terminal"
     then match loads r.(result) with
          | Some (JObj data) => last_chars 2000 (py_str repr (py_or float_eq (get_or_null data "output") (JStr "")))
          | _ => ""
          end
     else "").

Definition changed_files (log : list Evidence) : list string := unique (log ≫= ec_changed).

(** ** Stages of a command *)

Definition GENERATED : regex := pattern plain "(?:^|/)(?:build/tmp|generated|__pycache__|node_modules|\.git)(?:/|$)".
Definition generated_path (path : string) : bool := searches GENERATED path.

Record Check := mk_check { ck_command : string; ck_kind : string; ck_passed : bool; ck_epoch : Z; ck_index : Z }.
#[export] Instance Check_eq_dec : EqDecision Check.
Proof. solve_decision. Defined.

Definition SEPARATOR : regex := pattern plain "(&&|\|\||(?<![&>|])&(?![&>])|[;|\n])".
Definition FAILURE : regex := pattern plain
  ("\bERROR\b|\berror:|\bFAILED\b|\bfailed\b|returned non-zero|" +:+ "No rule to make target|command not found|Traceback").
Definition CHECKERS : list string := ["ls"; "readlink"; "test"; "["; "stat"; "file"; "realpath"].
Definition ASSIGNMENT : regex := pattern plain "^[A-Za-z_][A-Za-z0-9_]*=".
Definition MISSING_FILE : regex := pattern plain "No such file|cannot access".

(** [_SEPARATOR.split(command)]: each piece with the separator after it. *)
Fixpoint separated (p : pos) (l : list found) : list (string * string) :=
  match l with
  | [] => [(p.2, "")]
  | m :: l => (taken p m.(m_from), m_text m) :: separated m.(m_to) l
  end.

Definition is_prefix_word (word : string) : bool := bool_decide (word ∈ SHELL_KEYWORDS) || bool_decide (is_Some (match_ ASSIGNMENT word)).
Fixpoint without_prefixes (argv : list string) : list string :=
  match argv with
  | word :: rest => if is_prefix_word word then without_prefixes rest else argv
  | [] => []
  end.

Definition stages (command : string) : list (list string * string) :=
  let text := replace_text "\;" "+" command in
  List.filter (λ st, negb (bool_decide (length st.1 = 0%nat)))
    ((λ part, (without_prefixes (stage_words part.1), part.2)) <$> separated (start text) (finditer SEPARATOR text)).

Definition ends_list (after : string) : bool := bool_decide (after ∈ [";"; String newline ""; "&"; ""]).

(** The separator that ends the list a stage is in, if there is one. *)
Fixpoint list_end (afters : list string) : option string :=
  match afters with
  | [] => None
  | after :: afters => if ends_list after then Some after else list_end afters
  end.
Fixpoint backgrounded_from (afters : list string) : list bool :=
  match afters with
  | [] => []
  | after :: rest => bool_decide (list_end afters = Some "&") :: backgrounded_from rest
  end.
Definition backgrounded (stages : list (list string * string)) : list bool := backgrounded_from stages.*2.

Definition in_tree (root path : string) : option string :=
  let bare := rstrip_slash root in
  if negb (String.prefix "/" path) then Some path else
  if str_true root && (String.eqb path root || String.prefix (bare +:+ "/") path) then Some (drop (String.length bare + 1) path) else None.

(** ** What a stage validates *)

Definition any_of (flags args : list string) : bool := existsb (λ flag, bool_decide (flag ∈ args)) flags.

(** [args[args.index(flag) + 1] if flag in args[:-1]] *)
Fixpoint option_value (flag : string) (args : list string) : option string :=
  match args with
  | a :: (b :: _) as rest => if String.eqb a flag then Some b else option_value flag rest
  | _ => None
  end.

Definition removeprefix (prefix s : string) : string := if String.prefix prefix s then drop (String.length prefix) s else s.

Definition bitbake_kind (args : list string) : option string :=
  if any_of ["-g"; "-e"; "-p"; "-n"; "-s"; "-h"; "--help"; "--version"; "--dry-run"; "--show-versions"] args then None else
  match removeprefix "do_" <$> option_value "-c" args with
  | Some task =>
      if bool_decide (task ∈ ["clean"; "cleanall"; "cleansstate"]) then Some "clean" else
      Some (if str_true task && negb (bool_decide (task ∈ ["build"; "compile"])) then "task" else "build")
  | None => Some "build"
  end.

Definition script_kind (args : list string) : option string :=
  let recipes := List.filter (λ arg, negb (String.prefix "-" arg)) args in
  if bool_decide (length recipes = 0%nat) || any_of ["-h"; "-l"] args then None else
  Some (if bool_decide ("-c" ∈ args) then "clean+build" else "build").

Definition make_kind (args : list string) : option string :=
  let targets := List.filter (λ a, negb (String.prefix "-" a) && negb (contains "=" a)) args in
  if negb (bool_decide (length targets = 0%nat)) && forallb (λ t, bool_decide (t ∈ ["clean"; "distclean"; "mrproper"])) targets
  then Some "clean"
  else if existsb (λ t, bool_decide (t ∈ ["test"; "check"])) targets then Some "test" else Some "build".

(** [_kind] *)
Definition stage_kind (argv : list string) : option string :=
  let binary := binary_name argv in
  let args := tail argv in
  if String.eqb binary "bitbake" then bitbake_kind args else
  if String.eqb binary "build.sh" then script_kind args else
  if bool_decide (binary ∈ ["make"; "ninja"]) then make_kind args else
  if bool_decide (binary ∈ ["pytest"; "ctest"]) || bool_decide (take 2 args = ["-m"; "unittest"]) || bool_decide (take 2 args = ["-m"; "pytest"])
  then Some "test"
  else if bool_decide (binary ∈ ["bash"; "sh"]) && bool_decide ("-n" ∈ args) || bool_decide ("py_compile" ∈ args) then Some "syntax"
  else if bool_decide (binary ∈ CHECKERS) then Some "check"
  else None.

(** ** The checks of a turn, by source epoch *)

(** The categories that establish that a change works
    ([client/runtime/agent_verification.py]). *)
Definition VERIFYING : list VerificationCategory := [BUILD; UNIT_TEST; INTEGRATION_TEST; LINT; STATIC_ANALYSIS; EXECUTION].

Record progress := mk_progress { epoch : Z; checks : list Check; changed : list string }.
#[export] Instance progress_eta : Eta progress := λ p, mk_progress p.(epoch) p.(checks) p.(changed).

Definition moved_by (paths : list string) (p : progress) : progress :=
  if bool_decide (length paths = 0%nat) then p else mk_progress (p.(epoch) + 1) p.(checks) (p.(changed) ++ paths).
Definition checked (c : Check) (p : progress) : progress := p <| checks ::= λ l, l ++ [c] |>.

Section timeline.
  Context (generated : string → bool) (root : string).

Definition ran (item : Evidence) : bool := negb item.(ec_timed_out) && bool_decide (item.(ec_exit_code) = Some 0).
Definition seems_failed (masked : bool) (item : Evidence) : bool := masked && searches FAILURE item.(ec_output).

Definition stage_writes (argv : list string) : list string :=
  List.filter (λ path, str_true path && negb (generated path)) (omap (in_tree root) (shell_destinations argv)).

(** One stage of the command of a call, whether what came before hides its
    exit status, and whether it runs in the background. *)
Definition stage_step (index : Z) (item : Evidence) (command : string) (state : progress * bool)
    (stage : list string * string * bool) : progress * bool :=
  let '(p, masked) := state in
  let '(argv, after, background) := stage in
  let p := moved_by (stage_writes argv) p in
  match stage_kind argv with
  | Some kind =>
      if background then (p, masked) else
      let masked := masked || String.eqb after "|" && negb (contains "pipefail" command) in
      let passed := ran item && negb (seems_failed masked item) in
      let passed := if String.eqb kind "check" then passed && negb (searches MISSING_FILE item.(ec_output)) else passed in
      (checked (mk_check command kind passed p.(epoch) index) p, masked)
  | None => (p, masked)
  end.

Definition names_its_check (index : Z) (p : progress) : bool :=
  existsb (λ c, (c.(ck_index) =? index) && negb (String.eqb c.(ck_kind) "check")) p.(checks).

Definition command_step (index : Z) (item : Evidence) (command : string) (p : progress) : progress :=
  let parts := stages command in
  let background := backgrounded parts in
  let '(p, masked) := fold_left (stage_step index item command) (zip parts background) (p, false) in
  if negb (existsb id background) && negb (names_its_check index p)
     && bool_decide ((classify_command no_hints command false p.(changed)).1 ∈ VERIFYING)
  then checked (mk_check command "run" (ran item && negb (seems_failed masked item)) p.(epoch) index) p
  else p.

Definition call_step (index : Z) (item : Evidence) (p : progress) : progress :=
  if item.(ec_refused) then p else
  let sources := List.filter (λ path, negb (generated path)) item.(ec_changed) in
  if negb (bool_decide (length sources = 0%nat)) then moved_by sources p else
  match (if String.eqb item.(ec_name) "terminal" then item.(ec_command) else None) with
  | Some command => if str_true command then command_step index item command p else p
  | None => p
  end.

Fixpoint timeline_from (index : Z) (log : list Evidence) (p : progress) : progress :=
  match log with
  | [] => p
  | item :: log => timeline_from (index + 1) log (call_step index item p)
  end.

(** [timeline]: the final epoch, the checks, and the files changed. *)
Definition timeline (log : list Evidence) : progress := (timeline_from 0 log (mk_progress 0 [] [])) <| changed ::= unique |>.
End timeline.

(** [verification_runs] *)
Definition verification_runs (hints : VerificationHints) (log : list Evidence) : list (string * bool) :=
  let changed := changed_files log in
  fst (fold_left (λ (acc : list (string * bool) * bool) item,
    let '(runs, after_change) := acc in
    if negb (bool_decide (length item.(ec_changed) = 0%nat)) then ([], true) else
    match (if String.eqb item.(ec_name) "terminal" && after_change then item.(ec_command) else None) with
    | Some command =>
        if str_true command && bool_decide ((classify_command hints command false changed).1 ∈ VERIFYING)
        then (runs ++ [(command, negb item.(ec_refused) && negb item.(ec_timed_out) && bool_decide (item.(ec_exit_code) = Some 0))], after_change)
        else acc
    | None => acc
    end) log ([], false)).

(** ** What an answer claims *)

Definition HEDGE : regex := pattern I
  ("\b(not|n't|unverified|untested|should|may|might|could|would|expected|"
   +:+ "if |once |assuming|likely|unless|cannot|could not|unable)\b").
Definition SENTENCE : regex := pattern plain "(?<=[.!?])\s+(?=[A-Z0-9`*(\[])|\n".
Definition CLAIM : regex := pattern I
  ("\b(verified|verifies|confirm(?:ed|s)?|correct(?:ly)?|complete[ds]?|"
   +:+ "works?|working|successful(?:ly)?|succeed(?:ed|s)?|ensures?|guarantees?|"
   +:+ "always (?:be )?(?:present|there|available|recreated|created)|"
   +:+ "will (?:always|now) |surviv(?:es?|ed|ing)|persist(?:s|ed|ing|ent)?|"
   +:+ "(?:automatically|always) (?:re)?created|"
   +:+ "recreated (?:automatically|on every|every|each|after))\b").

Record claim := mk_claim { cl_name : string; cl_pattern : regex; cl_needs : list (list string) }.
Definition CLAIMS : list claim :=
  [mk_claim "survives a clean and rebuild"
     (pattern I ("surviv|persist|after (?:a |the |each |every )?clean|"
                 +:+ "clean(?:/| and | \+ |-and-)(?:re)?build|"
                 +:+ "always (?:be )?(?:present|there|available|recreated|created)|"
                 +:+ "recreated (?:automatically|on every|every|each|after)"))
     [["clean"; "clean+build"]; ["build"; "clean+build"]; ["check"]];
   mk_claim "builds"
     (pattern I ("\bbuild(?:s|ing)? (?:succeed|pass|work|complete|clean)|" +:+ "\bbuilt successfully|\bcompiles\b"))
     [["build"; "clean+build"]];
   mk_claim "tests pass" (pattern I "\btests? (?:now )?pass") [["test"]]].

Definition hedged (sentence : string) : bool := searches HEDGE sentence.

(** [_claims]; the names come with what would show them. *)
Definition claims_of (answer : string) : list claim :=
  let sentences := List.filter (λ part, str_true (py_strip part)) (re_split SENTENCE answer) in
  List.filter (λ c, existsb (λ sentence, searches c.(cl_pattern) sentence && negb (hedged sentence)) sentences) CLAIMS.

Definition nth_need (needs : list (list string)) (n : nat) : list string := default [] (needs !! n).

(** [_shown] *)
Definition shown_step (needs : list (list string)) (position : nat) (c : Check) : nat :=
  if (position <? length needs)%nat && c.(ck_passed) && bool_decide (c.(ck_kind) ∈ nth_need needs position)
  then if String.eqb c.(ck_kind) "clean+build" && (S position <? length needs)%nat && bool_decide ("clean+build" ∈ nth_need needs (S position))
       then S (S position) else S position
  else position.
Definition shown (checks : list Check) (needs : list (list string)) : bool :=
  (length needs <=? fold_left (shown_step needs) checks 0%nat)%nat.

(** ** The project's own build and tests *)

(** [project_build.ProjectCommands], as far as the verdict asks it. *)
Record ProjectCommands := mk_commands { pc_build : string; pc_test : string; pc_origin : string → string }.
Definition commands_verify (c : ProjectCommands) : list string := List.filter str_true [c.(pc_build); c.(pc_test)].

Record ProjectValidationEvidence := mk_validation {
  pv_status : string; pv_kind : string; pv_epoch : Z; pv_command : string; pv_exit_code : option Z; pv_evidence : string; pv_origin : string;
}.

Inductive project_run := Judged (e : ProjectValidationEvidence) | Ran (command status output : string).

(** [_masked] *)
Definition hidden_status (command : string) : bool :=
  let parts := stages command in
  existsb id (backgrounded parts) || negb (contains "pipefail" command) && existsb (λ st, String.eqb st.2 "|") parts.

Definition run_status (status : string) : string :=
  if String.eqb (py_lower status) "passed" then "PASSED" else if String.eqb (py_lower status) "failed" then "FAILED" else "NOT_RUN".

Definition validation_of (commands : option ProjectCommands) (epoch : Z) (run : project_run) : ProjectValidationEvidence :=
  match run with
  | Judged e => e
  | Ran command status output =>
      let status := run_status status in
      let status := if String.eqb status "PASSED" && hidden_status command
                    then if searches FAILURE output then "FAILED" else "NOT_RUN" else status in
      let test := match commands with Some c => c.(pc_test) | None => "" end in
      mk_validation status (if str_true test && String.eqb command test then "test" else "build") epoch command
        (if String.eqb status "PASSED" then Some 0 else None) (last_chars 2000 output)
        (match commands with Some c => c.(pc_origin) command | None => "" end)
  end.
Definition project_evidence (runs : list project_run) (commands : option ProjectCommands) (epoch : Z) : list ProjectValidationEvidence :=
  validation_of commands epoch <$> runs.

(** [syntax_only_verification] of [client/runtime/agent_verification.py] *)
Definition SYNTAX_ONLY : regex := pattern I
  ("^\s*(?:\S*/)?(?:g?cc|clang|c\+\+|g\+\+|clang\+\+)\b[^|;&]*" +:+ "(?:\s-fsyntax-only\b|\s-c\b)").
Definition syntax_only_verification (runs : list (string * bool)) : bool :=
  negb (bool_decide (length runs = 0%nat)) && forallb (λ run, searches SYNTAX_ONLY run.1) runs.

(** ** The verdict *)

(** [list(dict.fromkeys(l))] *)
Fixpoint first_of_each (seen l : list (string * bool)) : list (string * bool) :=
  match l with
  | [] => []
  | run :: l => if bool_decide (run ∈ seen) then first_of_each seen l else run :: first_of_each (run :: seen) l
  end.

Definition unverified (changed : list string) (reason : string) : Verdict := mk_verdict "UNVERIFIED" changed reason.

Definition needed (name : string) : string :=
  if String.eqb name "survives a clean and rebuild" then "clean, build and check" else
  if String.eqb name "builds" then "build" else "test run".

Definition is_passed (run : ProjectValidationEvidence) : bool := String.eqb run.(pv_status) "PASSED".

Section decide.
  Context (generated : string → bool) (root : string) (project_runs : list project_run) (commands : option ProjectCommands).

(** What the harness ran on the final sources, as checks. *)
Definition harness_checks (log : list Evidence) (p : progress) (project : list ProjectValidationEvidence) : list Check :=
  (λ run, mk_check run.(pv_command) run.(pv_kind) true p.(epoch) (Z.of_nat (length log)))
    <$> List.filter (λ run, (run.(pv_epoch) =? p.(epoch)) && is_passed run) project.

Definition final_checks (log : list Evidence) (p : progress) (project : list ProjectValidationEvidence) : list Check :=
  List.filter (λ c, c.(ck_epoch) =? p.(epoch)) p.(checks) ++ harness_checks log p project.

(** The verifying runs of the turn on its final sources, each once. *)
Definition final_runs (log : list Evidence) (p : progress) (project : list ProjectValidationEvidence) : list (string * bool) :=
  first_of_each [] ((λ c, (c.(ck_command), c.(ck_passed))) <$>
    List.filter (λ c, negb (bool_decide (c.(ck_kind) ∈ ["clean"; "check"])) && negb (bool_decide (c ∈ harness_checks log p project)))
      (final_checks log p project)).

Definition passed_earlier (p : progress) (project : list ProjectValidationEvidence) : bool :=
  existsb (λ c, (c.(ck_epoch) <? p.(epoch)) && c.(ck_passed)) p.(checks)
  || existsb (λ run, (run.(pv_epoch) <? p.(epoch)) && is_passed run) project.

(** What stands against the runs of the turn, where the harness ran
    nothing that passed. *)
Definition runs_objection (files : string) (runs : list (string * bool)) : option string :=
  match last runs with
  | Some (command, false) =>
      Some (files +:+ " changed, and the last verification to run did not pass: `" +:+ String.substring 0 120 command
            +:+ "`. The change above is not shown to work as written.")
  | _ =>
      let declared := match commands with Some c => commands_verify c | None => [] end in
      match last declared with
      | Some command =>
          if syntax_only_verification runs
          then Some (files +:+ " changed, and the only thing run afterwards compiled the files in isolation. "
                     +:+ "That is not the project's own verification: `" +:+ String.substring 0 120 command
                     +:+ "` was never run, so the change above is unproven at the level the project tests itself.")
          else None
      | None => None
      end
  end.

Definition claims_objection (files answer : string) (final : list Check) : option string :=
  match cl_name <$> List.filter (λ c, negb (shown final c.(cl_needs))) (claims_of answer) with
  | [] => None
  | unmet => Some (files +:+ " changed; what passed after the last change does not show that it " +:+ String.concat " or that it " unmet
                   +:+ " -- no " +:+ String.concat " and " (needed <$> unmet) +:+ " ran on the final source state.")
  end.

Definition decide (log : list Evidence) (answer : string) : Verdict :=
  let p := timeline generated root log in
  let changed := p.(changed) in
  if bool_decide (length changed = 0%nat) then mk_verdict "NO_CHANGE" [] "" else
  let files := String.concat ", " changed in
  let project := project_evidence project_runs commands p.(epoch) in
  match List.find (λ run, (run.(pv_epoch) =? p.(epoch)) && String.eqb run.(pv_status) "FAILED") project with
  | Some failed =>
      unverified changed (files +:+ " changed, and the project's own " +:+ failed.(pv_kind) +:+ " failed on the final source: `"
        +:+ String.substring 0 120 failed.(pv_command) +:+ "`. The change above is not shown to work as written.")
  | None =>
      let harness := harness_checks log p project in
      let runs := final_runs log p project in
      if bool_decide (length runs = 0%nat) && bool_decide (length harness = 0%nat)
      then unverified changed
             (if passed_earlier p project
              then files +:+ " changed, and the final change was not revalidated after the last source modification: "
                   +:+ "what passed ran on an earlier state of the tree."
              else files +:+ " changed, and nothing was run afterwards that could show the change works -- "
                   +:+ "no build, no test, no lint. Treat the change above as unverified.")
      else
      match (if bool_decide (length harness = 0%nat) then runs_objection files runs else None) with
      | Some reason => unverified changed reason
      | None =>
          match claims_objection files answer (final_checks log p project) with
          | Some reason => unverified changed reason
          | None => mk_verdict "VERIFIED" changed ""
          end
      end
  end.
End decide.

(** ** The answer as it is handed over *)

Definition left_alone (stripped : string) : bool := starts_with_any ["#"; "|"; "```"; "-  "; "    "] stripped.

Definition asserts (stripped : string) : bool :=
  str_true stripped && searches CLAIM stripped && negb (hedged stripped) && negb (left_alone stripped).

Definition mark (sentence : string) : string :=
  let stripped := py_strip sentence in
  if asserts stripped then replace_text stripped (py_rstrip stripped +:+ " *(not verified)*") sentence else sentence.

Definition header (v : Verdict) : string :=
  "**UNVERIFIED** -- " +:+ str_or v.(vd_reason)
    (String.concat ", " v.(vd_changed) +:+ " changed, and nothing this turn ran shows that the change works.").

Definition qualify (answer : string) (v : Verdict) : string :=
  if negb (String.eqb v.(vd_state) "UNVERIFIED") then answer else
  let parts := separated (start answer) (finditer SENTENCE answer) in
  header v +:+ String newline (String newline "") +:+ String.concat "" ((λ part, mark part.1 +:+ part.2) <$> parts).

(** ** The theorems about the verdict of a turn

    What VERIFIED says of the calls of the turn, the order a claim needs its
    checks in, and what is added to an answer; with runs of
    [client/evidence/completion.py]. *)

(** ** The epochs of a turn *)

(** From [p] to [p'] only checks were added, those of calls from [lo] on, and
    none of an epoch to come. *)
Record grows (lo : Z) (p p' : progress) : Prop := {
  gr_epoch : p.(epoch) <= p'.(epoch);
  gr_checks : ∃ new, p'.(checks) = p.(checks) ++ new ∧ ∀ c, c ∈ new → lo <= c.(ck_index) ∧ c.(ck_epoch) <= p'.(epoch);
}.

Lemma grows_refl lo p : grows lo p p.
Proof. split; [done|]. exists []. split; [by rewrite app_nil_r|]. intros c Hc. by apply not_elem_of_nil in Hc. Qed.

Lemma grows_trans lo lo' p p' p'' : lo <= lo' → grows lo p p' → grows lo' p' p'' → grows lo p p''.
Proof.
  intros Hlo [He (n & Hn & Hc)] [He' (n' & Hn' & Hc')]. split; [lia|]. exists (n ++ n'). split; [by rewrite Hn', Hn, app_assoc|].
  intros c [H|H]%elem_of_app; [apply Hc in H|apply Hc' in H]; lia.
Qed.

Lemma grows_moved lo paths p : grows lo p (moved_by paths p).
Proof.
  unfold moved_by. case_bool_decide; [apply grows_refl|]. split; [cbn; lia|].
  exists []. split; [by rewrite app_nil_r|]. intros c Hc. by apply not_elem_of_nil in Hc.
Qed.

Lemma grows_checked lo c p : lo <= c.(ck_index) → c.(ck_epoch) <= p.(epoch) → grows lo p (checked c p).
Proof. intros Hi He. split; [done|]. exists [c]. split; [done|]. intros c' ->%list_elem_of_singleton. by split. Qed.

Lemma moved_up paths p : paths ≠ [] → p.(epoch) < (moved_by paths p).(epoch).
Proof. intros Hp. unfold moved_by. case_bool_decide as H; [by apply length_zero_iff_nil in H|]. cbn. lia. Qed.

Section timeline.
  Context (generated : string → bool) (root : string).
  Implicit Types (item : Evidence) (p : progress).

(** A call that changed a source, and a command that writes one. *)
Definition changes_source item : Prop := item.(ec_refused) = false ∧ ∃ path, path ∈ item.(ec_changed) ∧ generated path = false.
Definition command_writes item : Prop :=
  item.(ec_refused) = false ∧ item.(ec_name) = "terminal" ∧
  ∃ command stage, item.(ec_command) = Some command ∧ stage ∈ stages command ∧ stage_writes generated root stage.1 ≠ [].

Lemma grows_stage index item command p masked stage :
  grows index p (stage_step generated root index item command (p, masked) stage).1.
Proof.
  destruct stage as [[argv after] background]. cbn -[moved_by checked stage_writes].
  pose proof (grows_moved index (stage_writes generated root argv) p) as Hm.
  destruct (stage_kind argv) as [kind|]; [|exact Hm]. destruct background; [exact Hm|].
  eapply (grows_trans index index); [done|exact Hm|]. by apply grows_checked.
Qed.

Lemma grows_stages index item command stages state :
  grows index state.1 (fold_left (stage_step generated root index item command) stages state).1.
Proof.
  revert state. induction stages as [|st stages IH]; intros [p masked]; [apply grows_refl|]. cbn [fold_left].
  eapply (grows_trans index index); [done|apply (grows_stage index item command p masked st)|apply IH].
Qed.

Lemma grows_command index item command p : grows index p (command_step generated root index item command p).
Proof.
  unfold command_step. pose proof (grows_stages index item command (zip (stages command) (backgrounded (stages command))) (p, false)) as Hg.
  destruct (fold_left _ _ _) as [p' masked]. cbn [fst] in Hg. case_match; [|done].
  eapply (grows_trans index index); [done|exact Hg|]. by apply grows_checked.
Qed.

Lemma grows_call index item p : grows index p (call_step generated root index item p).
Proof.
  unfold call_step. repeat case_match; first [apply grows_refl|apply grows_moved|apply grows_command].
Qed.

Lemma grows_timeline index log p : grows index p (timeline_from generated root index log p).
Proof.
  revert index p. induction log as [|item log IH]; intros index p; [apply grows_refl|]. cbn [timeline_from].
  eapply (grows_trans index (index + 1)); [lia|apply grows_call|apply IH].
Qed.

Lemma change_moves index item p : changes_source item →
  p.(epoch) < (call_step generated root index item p).(epoch) ∧ (call_step generated root index item p).(checks) = p.(checks).
Proof.
  intros [Hr (path & Hin & Hg)]. unfold call_step. rewrite Hr.
  assert (List.filter (λ path, negb (generated path)) item.(ec_changed) ≠ []) as Hne.
  { intros He. apply list_elem_of_In in Hin. apply (in_nil (a:=path)). rewrite <- He. apply filter_In. by rewrite Hg. }
  rewrite bool_decide_eq_false_2 by by rewrite length_zero_iff_nil. cbn [negb]. split; [by apply moved_up|].
  unfold moved_by. by case_bool_decide.
Qed.

Lemma backgrounded_length l : length (backgrounded l) = length l.
Proof. unfold backgrounded. rewrite <- (length_fmap snd l). induction (l.*2); cbn; congruence. Qed.

Lemma stages_move index item command l state stage background :
  (stage, background) ∈ l → stage_writes generated root stage.1 ≠ [] →
  state.1.(epoch) < (fold_left (stage_step generated root index item command) l state).1.(epoch).
Proof.
  revert state. induction l as [|st l IH]; intros [p masked] Hin Hw; [by apply not_elem_of_nil in Hin|]. cbn [fold_left fst].
  apply elem_of_cons in Hin as [<-|Hin].
  - eapply Z.lt_le_trans; [|apply gr_epoch with index, grows_stages]. destruct stage as [argv after]. cbn [fst] in Hw.
    pose proof (moved_up _ p Hw) as Hm. cbn -[moved_by checked stage_writes]. by repeat case_match.
  - eapply Z.le_lt_trans; [apply gr_epoch with index, (grows_stage index item command p masked st)|]. by apply IH.
Qed.

Lemma command_moves index item p : command_writes item → p.(epoch) < (call_step generated root index item p).(epoch).
Proof.
  intros (Hr & Hn & command & stage & Hc & Hin & Hw). unfold call_step. rewrite Hr, Hn, Hc, String.eqb_refl.
  assert (str_true command = true) as ->. { destruct command; [|done]. exfalso. revert Hin. vm_compute. apply not_elem_of_nil. }
  case_bool_decide as Hl; cbn [negb].
  - assert (∃ b, (stage, b) ∈ zip (stages command) (backgrounded (stages command))) as [b Hb].
    { apply list_elem_of_lookup in Hin as [i Hi].
      destruct (lookup_lt_is_Some_2 (backgrounded (stages command)) i) as [b Hb].
      { rewrite backgrounded_length. by eapply lookup_lt_Some. }
      exists b. apply list_elem_of_lookup. exists i. apply lookup_zip_with_Some. by exists stage, b. }
    unfold command_step. pose proof (stages_move index item command _ (p, false) stage b Hb Hw) as Hm.
    destruct (fold_left _ _ _) as [p' masked]. cbn [fst] in Hm. by case_match.
  - apply moved_up. intros He. apply Hl. by rewrite He.
Qed.

Lemma timeline_split log log' index p :
  timeline_from generated root index (log ++ log') p =
  timeline_from generated root (index + Z.of_nat (length log)) log' (timeline_from generated root index log p).
Proof.
  revert index p. induction log as [|item log IH]; intros index p; cbn [timeline_from app length].
  - f_equal. lia.
  - rewrite IH. f_equal. lia.
Qed.

Lemma no_check_of_the_future log c : let p := timeline_from generated root 0 log (mk_progress 0 [] []) in
  c ∈ p.(checks) → c.(ck_epoch) <= p.(epoch).
Proof. intros p Hc. destruct (grows_timeline 0 log (mk_progress 0 [] [])) as [_ (new & Hn & Hb)]. apply Hb. cbn in Hn. by rewrite <- Hn. Qed.

(** A check of the final epoch ran after the last call that changed a source,
    and in or after the last command that wrote one. *)
Lemma final_checks_are_fresh log i item c :
  let p := timeline generated root log in
  c ∈ p.(checks) → c.(ck_epoch) = p.(epoch) → log !! i = Some item →
  (changes_source item → Z.of_nat i < c.(ck_index)) ∧ (command_writes item → Z.of_nat i <= c.(ck_index)).
Proof.
  intros p Hc He Hi. unfold p in Hc, He.
  change (checks _) with (checks (timeline_from generated root 0 log (mk_progress 0 [] []))) in Hc.
  change (epoch _) with (epoch (timeline_from generated root 0 log (mk_progress 0 [] []))) in He.
  pose proof (take_drop_middle log i item Hi) as Hsplit. rewrite <- Hsplit in Hc, He.
  rewrite timeline_split in Hc, He. cbn [timeline_from] in Hc, He.
  assert (length (take i log) = i) as Hlen by (apply length_take_le; apply lookup_lt_Some in Hi; lia). rewrite Hlen in Hc, He.
  set (p0 := timeline_from generated root 0 (take i log) (mk_progress 0 [] [])) in Hc, He.
  set (p1 := call_step generated root (0 + Z.of_nat i) item p0) in Hc, He.
  destruct (grows_timeline (0 + Z.of_nat i + 1) (skipn (S i) log) p1) as [Hle (new & Hn & Hb)].
  rewrite Hn in Hc.
  assert (c ∈ p0.(checks) → c.(ck_epoch) <= p0.(epoch)) as Hold by apply no_check_of_the_future.
  split.
  - intros [Hup Hsame]%(change_moves (0 + Z.of_nat i) item p0). fold p1 in Hup, Hsame. rewrite Hsame in Hc.
    apply elem_of_app in Hc as [Hc|Hc]; [specialize (Hold Hc); lia|]. apply Hb in Hc. lia.
  - intros Hup%(command_moves (0 + Z.of_nat i) item p0). fold p1 in Hup.
    destruct (grows_call (0 + Z.of_nat i) item p0) as [_ (mine & Hm & Hmine)]. fold p1 in Hm, Hmine. rewrite Hm in Hc.
    apply elem_of_app in Hc as [[Hc|Hc]%elem_of_app|Hc]; [specialize (Hold Hc); lia|apply Hmine in Hc; lia|apply Hb in Hc; lia].
Qed.
End timeline.

(** ** The order a claim needs its checks in *)

(** Passing checks, in order, meet the needs one by one; a clean build may
    answer for two at once. *)
Inductive demonstrates : list Check → list (list string) → Prop :=
  | nothing_needed l : demonstrates l []
  | passed_over c l needs : demonstrates l needs → demonstrates (c :: l) needs
  | met c l need needs :
      c.(ck_passed) = true → c.(ck_kind) ∈ need → demonstrates l needs → demonstrates (c :: l) (need :: needs)
  | met_both c l first second needs :
      c.(ck_passed) = true → c.(ck_kind) = "clean+build" → c.(ck_kind) ∈ first → c.(ck_kind) ∈ second →
      demonstrates l needs → demonstrates (c :: l) (first :: second :: needs).

Lemma need_at (needs : list (list string)) n need rest : skipn n needs = need :: rest → (n < length needs)%nat ∧ nth_need needs n = need ∧ skipn (S n) needs = rest.
Proof.
  revert needs. induction n as [|n IH]; intros [|x needs] H; try done.
  - cbn in H. injection H as -> ->. split_and!; [cbn; lia|done|done].
  - cbn in H. apply IH in H as (?&?&?). split_and!; [cbn; lia|done|done].
Qed.

Lemma past_needs (needs : list (list string)) n : skipn n needs = [] ↔ (length needs ≤ n)%nat.
Proof. rewrite <- length_zero_iff_nil, length_skipn. lia. Qed.

(** What a step may do: stay, meet one need, or meet two with a clean
    build. *)
Lemma step_cases needs n c :
  (shown_step needs n c = n) ∨
  (∃ need, skipn n needs = need :: skipn (S n) needs ∧ c.(ck_passed) = true ∧ c.(ck_kind) ∈ need ∧
    (shown_step needs n c = S n ∨
     ∃ second, skipn (S n) needs = second :: skipn (S (S n)) needs ∧ c.(ck_kind) = "clean+build" ∧ c.(ck_kind) ∈ second ∧
               shown_step needs n c = S (S n))).
Proof.
  unfold shown_step. destruct (n <? length needs)%nat eqn:Hn; [|by left]. destruct (ck_passed c) eqn:Hp; [|by left].
  case_bool_decide as Hk; [|by left]. cbn [andb]. right.
  assert (∀ m, (m < length needs)%nat → skipn m needs = nth_need needs m :: skipn (S m) needs) as Hat.
  { intros m Hm. destruct (skipn m needs) as [|x l] eqn:E; [apply past_needs in E; lia|].
    destruct (need_at _ _ _ _ E) as (_ & <- & <-). done. }
  apply Nat.ltb_lt in Hn. exists (nth_need needs n). split_and!; [by apply Hat|done|done|].
  destruct (String.eqb_spec (ck_kind c) "clean+build") as [He|]; [|by left].
  destruct (S n <? length needs)%nat eqn:Hs; [|by left]. case_bool_decide as Hk2; [|by left]. cbn [andb].
  right. apply Nat.ltb_lt in Hs. exists (nth_need needs (S n)). rewrite He. split_and!; [by apply Hat|done|done|done].
Qed.

Lemma shown_sound needs l n : (length needs ≤ fold_left (shown_step needs) l n)%nat → demonstrates l (skipn n needs).
Proof.
  revert n. induction l as [|c l IH]; intros n Hn; cbn [fold_left] in Hn.
  { apply past_needs in Hn. rewrite Hn. constructor. }
  apply IH in Hn. destruct (step_cases needs n c) as [He|(need & Hs & Hp & Hk & [He|(second & Hs2 & Hc & Hk2 & He)])]; rewrite He in Hn.
  - by apply passed_over.
  - rewrite Hs. by apply met.
  - rewrite Hs, Hs2. by apply met_both.
Qed.

(** A step never falls behind one that started earlier. *)
Lemma step_monotone needs n m c : (n ≤ m)%nat → (shown_step needs n c ≤ shown_step needs m c)%nat.
Proof.
  intros Hnm. assert (m ≤ shown_step needs m c)%nat as Hm by (destruct (step_cases needs m c) as [->|(?&?&?&?&[->|(?&?&?&?&->)])]; lia).
  destruct (Nat.eq_dec n m) as [->|Hne]; [done|].
  destruct (step_cases needs n c) as [He|(need & Hs & Hp & Hk & [He|(second & Hs2 & Hc & Hk2 & He)])]; rewrite He; [lia|lia|].
  destruct (Nat.eq_dec m (S n)) as [->|]; [|lia].
  destruct (need_at _ _ _ _ Hs2) as (Hl & Hnth & _). unfold shown_step. rewrite (proj2 (Nat.ltb_lt _ _) Hl), Hp, Hnth.
  rewrite bool_decide_eq_true_2 by done. cbn [andb]. case_match; lia.
Qed.

Lemma fold_monotone needs l n m : (n ≤ m)%nat → (fold_left (shown_step needs) l n ≤ fold_left (shown_step needs) l m)%nat.
Proof. revert n m. induction l as [|c l IH]; intros n m H; [done|]. cbn [fold_left]. by apply IH, step_monotone. Qed.

Lemma step_meets needs n c need rest :
  skipn n needs = need :: rest → c.(ck_passed) = true → c.(ck_kind) ∈ need → (S n ≤ shown_step needs n c)%nat.
Proof.
  intros (Hl & Hnth & _)%need_at Hp Hk. unfold shown_step. rewrite (proj2 (Nat.ltb_lt _ _) Hl), Hp, Hnth.
  rewrite bool_decide_eq_true_2 by done. cbn [andb]. case_match; lia.
Qed.

Lemma shown_complete needs l n : demonstrates l (skipn n needs) → (length needs ≤ fold_left (shown_step needs) l n)%nat.
Proof.
  remember (skipn n needs) as rest eqn:Hr. intros Hd. revert n Hr.
  induction Hd as [l|c l needs' _ IH|c l need needs' Hp Hk _ IH|c l first second needs' Hp Hb Hk Hk2 _ IH]; intros n Hr; symmetry in Hr; cbn [fold_left].
  - apply past_needs in Hr. etrans; [exact Hr|]. clear. revert n. induction l as [|c l IH]; intros n; [done|]. cbn [fold_left].
    etrans; [|apply IH]. destruct (step_cases needs n c) as [->|(?&?&?&?&[->|(?&?&?&?&->)])]; lia.
  - etrans; [by apply IH|]. apply fold_monotone. destruct (step_cases needs n c) as [->|(?&?&?&?&[->|(?&?&?&?&->)])]; lia.
  - etrans; [apply (IH (S n)); symmetry; by apply need_at in Hr as (_&_&?)|]. apply fold_monotone. by eapply step_meets.
  - pose proof (need_at _ _ _ _ Hr) as (Hl & Hnth & Hr2). pose proof (need_at _ _ _ _ Hr2) as (Hl2 & Hnth2 & Hr3).
    etrans; [apply (IH (S (S n))); by symmetry|]. apply fold_monotone. unfold shown_step.
    rewrite (proj2 (Nat.ltb_lt _ _) Hl), (proj2 (Nat.ltb_lt _ _) Hl2), Hp, Hnth, Hnth2, Hb.
    rewrite <- Hb, !bool_decide_eq_true_2 by done. rewrite Hb. done.
Qed.

Lemma shown_demonstrates l needs : shown l needs = true ↔ demonstrates l needs.
Proof. unfold shown. rewrite Nat.leb_le. split; [apply shown_sound|apply (shown_complete needs l 0)]. Qed.

(** ** The verdict *)

Lemma first_of_each_elem seen l run : run ∈ first_of_each seen l → run ∈ l.
Proof.
  revert seen. induction l as [|a l IH]; intros seen H; [done|]. cbn [first_of_each] in H. case_bool_decide.
  - apply list_elem_of_further. by eapply IH.
  - apply elem_of_cons in H as [->|H]; [apply list_elem_of_here|]. apply list_elem_of_further. by eapply IH.
Qed.

Section verdict.
  Context (generated : string → bool) (root : string) (project_runs : list project_run) (commands : option ProjectCommands).
  Context (log : list Evidence) (answer : string).

#[local] Abbreviation p := (timeline generated root log).
#[local] Abbreviation project := (project_evidence project_runs commands (epoch p)).
#[local] Abbreviation final := (final_checks log p project).

(** A check that passed on the sources as they stand: by the harness, or by
    a command of the turn. *)
Record shows_the_change (c : Check) : Prop := {
  sc_final : c ∈ final;
  sc_passed : c.(ck_passed) = true;
  sc_kind : c ∈ harness_checks log p project ∨ c.(ck_kind) ∉ ["clean"; "check"];
}.

Lemma harness_final c : c ∈ harness_checks log p project → c ∈ final ∧ c.(ck_passed) = true ∧ c.(ck_index) = Z.of_nat (length log).
Proof.
  intros Hc. split; [unfold final_checks; set_solver|]. by apply list_elem_of_fmap in Hc as (run & -> & _).
Qed.

Lemma final_is_fresh c i item : c ∈ final → log !! i = Some item →
  (changes_source generated item → Z.of_nat i < c.(ck_index)) ∧ (command_writes generated root item → Z.of_nat i <= c.(ck_index)).
Proof.
  intros Hc Hi. apply elem_of_app in Hc as [Hc|Hc].
  - apply list_elem_of_In, filter_In in Hc as [Hc He]. apply Z.eqb_eq in He. apply list_elem_of_In in Hc. by eapply final_checks_are_fresh.
  - apply harness_final in Hc as (_ & _ & ->). apply lookup_lt_Some in Hi. lia.
Qed.

Lemma last_run_shows command : last (final_runs log p project) = Some (command, true) → ∃ c, shows_the_change c.
Proof.
  intros Hl. apply last_Some_elem_of, first_of_each_elem, list_elem_of_fmap in Hl as (c & [= _ Hp] & Hc).
  apply list_elem_of_In, filter_In in Hc as [Hin Hf]. exists c. split; [by apply list_elem_of_In|done|right].
  by apply andb_true_iff in Hf as [?%negb_true_iff%bool_decide_eq_false _].
Qed.
End verdict.

(** C6: (safety) an answer of VERIFIED stands on the final sources: something
    was changed; no run of the project failed on them; a check passed on
    them that is more than a clean or a look, in a call after the last one
    that edited a source, and in or after the last command that wrote one;
    and for everything the answer claims without a hedge the checks it needs
    passed on them, in the order it needs them in. *)
Theorem a_verified_answer_stands_on_the_final_sources generated root project_runs commands log answer :
  (decide generated root project_runs commands log answer).(vd_state) = "VERIFIED" →
  let p := timeline generated root log in
  let project := project_evidence project_runs commands p.(epoch) in
  p.(changed) ≠ [] ∧
  (∀ run, run ∈ project → run.(pv_epoch) = p.(epoch) → run.(pv_status) ≠ "FAILED") ∧
  (∃ c, shows_the_change generated root project_runs commands log c ∧
     ∀ i item, log !! i = Some item →
       (changes_source generated item → Z.of_nat i < c.(ck_index)) ∧ (command_writes generated root item → Z.of_nat i <= c.(ck_index))) ∧
  (∀ c, c ∈ claims_of answer → demonstrates (final_checks log p project) c.(cl_needs)).
Proof.
  intros Hv p project. revert Hv. unfold decide. fold p. fold project.
  case_bool_decide as Hch; [done|].
  destruct (List.find _ project) as [failed|] eqn:Hf; [done|].
  case_match; [by case_match|]. destruct (if bool_decide _ then runs_objection _ _ _ else None) as [reason|] eqn:Hr; [done|].
  unfold claims_objection. destruct (cl_name <$> _) as [|u un] eqn:Hclaims; [|done]. intros _. split_and!.
  - intros He. by rewrite He in Hch.
  - intros run Hin He Hs. apply list_elem_of_In in Hin. apply (List.find_none _ _ Hf) in Hin. rewrite He, Z.eqb_refl, Hs in Hin. done.
  - assert (∃ c, shows_the_change generated root project_runs commands log c) as [c Hc].
    { destruct (harness_checks log p project) as [|c l] eqn:Hh.
      - cbn [length] in *. rewrite bool_decide_eq_true_2 in Hr by done. unfold runs_objection in Hr.
        apply andb_false_iff in H as [H|H]; [|done]. apply bool_decide_eq_false in H.
        destruct (last (final_runs log p project)) as [[command []]|] eqn:Hl.
        + by eapply last_run_shows.
        + done.
        + apply last_None in Hl. by rewrite Hl in H.
      - exists c. assert (c ∈ harness_checks log p project) as Hin by (rewrite Hh; apply list_elem_of_here).
        destruct (harness_final generated root project_runs commands log c Hin) as (? & ? & _). by split; [| |left]. }
    exists c. split; [done|]. intros i item Hi. eapply final_is_fresh; [by apply Hc|done].
  - intros c Hc. apply shown_demonstrates. destruct (shown _ _) eqn:Hs; [done|exfalso].
    apply fmap_nil_inv in Hclaims. apply (in_nil (a:=c)). rewrite <- Hclaims. apply filter_In. split; [by apply list_elem_of_In|].
    by rewrite Hs.
Qed.

(** The one pass over the checks that [_shown] makes finds
    the checks a claim needs exactly when they passed in that order. *)
Theorem a_claim_is_shown_by_passing_checks_in_order checks needs : shown checks needs = true ↔ demonstrates checks needs.
Proof. apply shown_demonstrates. Qed.

(** ** The answer that is handed over *)

Lemma taken_rest p q : forward p q → String.append (taken p q) q.2 = p.2.
Proof.
  intros (u & Hu & _). unfold taken. rewrite Hu, length_append, Nat.add_sub. f_equal.
  rewrite substring_app by lia. apply substring_full. lia.
Qed.

Fixpoint consecutive (p : pos) (l : list found) : Prop :=
  match l with [] => True | m :: l => forward p m.(m_from) ∧ forward m.(m_from) m.(m_to) ∧ consecutive m.(m_to) l end.

Lemma search_forward fuel r must p m : search_from fuel r must p = Some m → forward p m.(m_from) ∧ forward m.(m_from) m.(m_to).
Proof.
  revert must p. induction fuel as [|fuel IH]; intros must p; cbn [search_from];
    (destruct (match_at r must p) as [m'|] eqn:Hm;
      [intros [= <-]; apply match_at_spec in Hm as (-> & Hd & _); split; [apply forward_refl|by eapply denotes_forward]|]); [done|].
  destruct (advance p) as [p'|] eqn:Ha; [|done]. intros [? ?]%IH. split; [|done]. eapply forward_trans; [by apply advance_forward|done].
Qed.

Lemma finditer_consecutive fuel r must p : consecutive p (finditer_from fuel r must p).
Proof.
  revert must p. induction fuel as [|fuel IH]; intros must p; [done|]. cbn [finditer_from].
  destruct (search_from _ r must p) as [m|] eqn:Hm; [|done]. apply search_forward in Hm as [? ?]. by split_and!.
Qed.

Lemma joined_cons (x : string) l : String.concat "" (x :: l) = String.append x (String.concat "" l).
Proof. destruct l; [cbn; by rewrite append_nil|done]. Qed.

Lemma separated_whole p l : consecutive p l →
  String.concat "" ((λ part, String.append part.1 part.2) <$> separated p l) = p.2.
Proof.
  revert p. induction l as [|m l IH]; intros p Hc; cbn [separated fmap list_fmap].
  - cbn. apply append_nil.
  - destruct Hc as (Hp & Hm & Hl). rewrite joined_cons, IH by done. unfold m_text. cbn [fst snd].
    by rewrite append_assoc, taken_rest, taken_rest.
Qed.

Definition blanks (s : string) : bool := all_chars py_isspace s.

Lemma lstrip_split s : ∃ a, s = String.append a (py_lstrip s) ∧ blanks a = true.
Proof.
  induction s as [|c s (a & Ha & Hb)]; [by exists ""|]. cbn [py_lstrip]. destruct (py_isspace c) eqn:Hc; [|by exists ""].
  exists (String c a). split; [exact (f_equal (String c) Ha)|]. unfold blanks in *. cbn. by rewrite Hc.
Qed.

Lemma rstrip_split s : ∃ b, s = String.append (py_rstrip s) b ∧ blanks b = true.
Proof.
  induction s as [|c s (b & Hb & Hs)]; [by exists ""|]. cbn [py_rstrip]. destruct (py_rstrip s) as [|d t] eqn:E.
  - cbn in Hb. subst s. destruct (py_isspace c) eqn:Hc; [|by exists b]. exists (String c b). split; [done|]. unfold blanks in *. cbn. by rewrite Hc.
  - exists b. split; [|done]. exact (f_equal (String c) Hb).
Qed.

Lemma strip_split s : ∃ a b, s = String.append a (String.append (py_strip s) b) ∧ blanks a = true ∧ blanks b = true.
Proof.
  destruct (lstrip_split s) as (a & Ha & Hba), (rstrip_split (py_lstrip s)) as (b & Hb & Hbb). exists a, b.
  split; [|done]. unfold py_strip. by rewrite <- Hb.
Qed.

Lemma strip_head s c t : py_strip s = String c t → py_isspace c = false.
Proof.
  unfold py_strip. induction s as [|d s IH]; [done|]. cbn [py_lstrip]. destruct (py_isspace d) eqn:Hd; [done|].
  cbn. destruct (py_rstrip s); [rewrite Hd|]; by intros [= <- _].
Qed.

Lemma prefix_other c d s t : c ≠ d → String.prefix (String c s) (String d t) = false.
Proof. intros H. cbn. by destruct (ascii_dec c d). Qed.

(** A text that begins with no blank is found where the blanks end. *)
Lemma found_past_blanks a b c t : blanks a = true → py_isspace c = false →
  find_text (String c t) (String.append a (String.append (String c t) b)) = Some (a, b).
Proof.
  intros Ha Hc. induction a as [|d a IH].
  - change (String.append "" ?x) with x. destruct (String.append (String c t) b) as [|e s] eqn:E; [done|]. cbn [find_text].
    rewrite <- E, prefix_self, drop_self. done.
  - unfold blanks in Ha. cbn in Ha. apply andb_true_iff in Ha as [Hd Ha].
    change (String.append (String d a) ?x) with (String d (String.append a x)). cbn [find_text].
    rewrite prefix_other by (intros ->; congruence). by rewrite IH.
Qed.

Lemma none_in_blanks b c t : blanks b = true → py_isspace c = false → find_text (String c t) b = None.
Proof.
  intros Hb Hc. induction b as [|d b IH]; [done|]. unfold blanks in Hb. cbn in Hb. apply andb_true_iff in Hb as [Hd Hb].
  cbn [find_text]. rewrite prefix_other by (intros ->; congruence). by rewrite IH.
Qed.

Lemma replaced_stripped a b c t new : blanks a = true → blanks b = true → py_isspace c = false →
  replace_text (String c t) new (String.append a (String.append (String c t) b)) = String.append a (String.append new b).
Proof.
  intros Ha Hb Hc. unfold replace_text. cbn [replaced]. rewrite found_past_blanks by done. do 2 f_equal.
  destruct (String.length _); [done|]. cbn [replaced]. by rewrite none_in_blanks.
Qed.


(** ** Runs *)

Module Examples.

Definition edit (path : string) : Evidence := mk_evidence "patch" [path] None None false false "".
Definition sh (command : string) (code : Z) (output : string) : Evidence := mk_evidence "terminal" [] (Some command) (Some code) false false output.
Definition verdict (log : list Evidence) (answer : string) : string := (decide generated_path "" [] None log answer).(vd_state).

Definition checked_turn : list Evidence := [sh "pytest" 1 "1 failed"; edit "src/a.py"; sh "pytest" 0 "3 passed"].

Lemma a_verified_answer_stands_on_the_final_sources_witness :
  ∃ c, shows_the_change generated_path "" [] None checked_turn c ∧ 1 < c.(ck_index).
Proof.
  pose proof (a_verified_answer_stands_on_the_final_sources generated_path "" [] None checked_turn "The tests pass now." ltac:(vm_compute; reflexivity)) as H.
  destruct H as (_ & _ & (c & Hc & Hfresh) & _). exists c. split; [exact Hc|].
  apply (Hfresh 1%nat (edit "src/a.py") eq_refl). split; [reflexivity|]. exists "src/a.py". split; [apply list_elem_of_here|vm_compute; reflexivity].
Defined.

(** An edit in the command itself is checked by what comes after it only. *)
Example the_order_of_the_stages_decides :
  verdict [sh "sed -i s/a/b/ src/a.c && make" 0 ""] "Done." = "VERIFIED" ∧
  verdict [sh "make && sed -i s/a/b/ src/a.c" 0 ""] "Done." = "UNVERIFIED".
Proof. vm_compute. split; reflexivity. Qed.

(** What an answer claims has to have been shown. *)
Example a_claim_asks_for_its_checks :
  let log := [edit "src/a.c"; sh "make" 0 ""] in
  verdict log "It builds cleanly." = "VERIFIED" ∧ verdict log "The build succeeds and the tests pass." = "UNVERIFIED" ∧
  verdict log "The tests should pass." = "VERIFIED" ∧
  verdict log "The link survives a clean." = "UNVERIFIED" ∧
  verdict (log ++ [sh "make clean && make && ls out" 0 "out"]) "The link survives a clean." = "VERIFIED".
Proof. vm_compute. split_and!; reflexivity. Qed.

(** The same command, run again with the outcome it had first, is the last
    run of the turn but not the last of the list that is read. *)
Example a_repeated_failure_is_forgotten :
  let log := [edit "src/a.c"; sh "make" 2 "error"; sh "make" 0 ""; sh "make" 2 "error"] in
  verdict log "Done." = "VERIFIED" ∧ last (timeline generated_path "" log).(checks) = Some (mk_check "make" "build" false 1 3) ∧
  verdict (removelast log) "Done." = "VERIFIED" ∧ verdict (take 2 log) "Done." = "UNVERIFIED".
Proof. vm_compute. split_and!; reflexivity. Qed.

(** Behind a pipe the output of a build is read for a failure, and that of a
    program is not. *)
Example a_piped_program_passes :
  verdict [edit "src/a.py"; sh "python3 src/a.py | tail -3" 0 "Traceback"] "Done." = "VERIFIED" ∧
  verdict [edit "src/a.py"; sh "make | tail -3" 0 "Traceback"] "Done." = "UNVERIFIED".
Proof. vm_compute. split; reflexivity. Qed.

(** An answer, as it is handed over. *)
Example a_claim_is_marked :
  qualify "The fix is complete. It should work." (unverified ["a.c"] "a.c changed.") =
  "**UNVERIFIED** -- a.c changed." +:+ String newline (String newline "") +:+ "The fix is complete. *(not verified)* It should work.".
Proof. vm_compute. reflexivity. Qed.
End Examples.
