(* ===== verification/FuzzyMatch.v ===== *)
(** * Finding and replacing what an edit means: [client/agent/hermes/fuzzy_match.py]

    The chain of strategies that find the old text of an edit in a file, the
    guards against text the transport changed, and the replacement.
    [difflib.SequenceMatcher] is a parameter: how many characters of two
    texts it matches, and how it turns one into the other.  Of the table of
    Unicode characters only the no-break space is a character of the model. *)

From Stdlib Require Import Ascii.
From S2P Require Import Prelude Texts Values Shell.

Open Scope py_scope.

Definition tab : ascii := "009"%char.
Definition carriage_return : ascii := "013"%char.
Definition dquote : string := String double_quote "".

(** A region of a text, from its first position to the one after its last. *)
Abbreviation region := (nat * nat)%type.

(** [s[a:b]] for [a <= b] *)
Definition slice (s : string) (r : region) : string := String.substring r.1 (r.2 - r.1) s.
Definition upto (n : nat) (s : string) : string := String.substring 0 n s.

Definition text_lines (s : string) : list string := split_on newline s.
Definition joined (l : list string) : string := String.concat (String newline "") l.

(** ** Characters *)

Definition UNICODE_MAP (c : ascii) : option string := if Ascii.eqb c "160" then Some " " else None.
Definition unicode_of (c : ascii) : string := default (String c "") (UNICODE_MAP c).
Fixpoint unicode_normalize (s : string) : string :=
  match s with
  | EmptyString => EmptyString
  | String c s => unicode_of c +:+ unicode_normalize s
  end.

Definition IDENTICAL_STRINGS_ERROR : string :=
  "No edit was applied because old_string and new_string are identical. Provide the existing text to replace in old_string and the changed replacement text in new_string.".

Definition is_already_applied (content old_string new_string : string) : bool :=
  if negb (str_true new_string) || (String.length (py_strip new_string) <? 8)%nat then false else
  if negb (contains new_string content) then false else
  String.eqb old_string new_string || negb (contains old_string content).

(** ** Where the matches are *)

Definition count_char (c : ascii) (s : string) : nat := pred (length (split_on c s)).

Definition location_row (content : string) (r : region) : string :=
  let before := upto r.1 content in
  let line := default "" (last (text_lines before)) +:+ hd "" (text_lines (drop r.1 content)) in
  let snippet := py_strip line in
  "  L" +:+ pretty (S (count_char newline before)) +:+ ": "
  +:+ (if (80 <? String.length snippet)%nat then upto 77 snippet +:+ "..." else snippet).

Definition format_match_locations (content : string) (matches : list region) : string :=
  let extra := (length matches - 5)%nat in
  joined ((location_row content <$> take 5 matches)
          ++ (if (0 <? extra)%nat then ["  ... and " +:+ pretty extra +:+ " more"] else [])).

(** ** Text the transport changed *)

Fixpoint runs_from (n : nat) (s : string) : list nat :=
  match s with
  | EmptyString => if (0 <? n)%nat then [n] else []
  | String c s =>
      if Ascii.eqb c backslash then runs_from (S n) s
      else if (0 <? n)%nat then n :: runs_from 0 s else runs_from 0 s
  end.
Definition backslash_runs (s : string) : list nat := runs_from 0 s.

Definition detect_backslash_doubling (matched_regions old_string new_string : string) : option string :=
  let old_runs := backslash_runs old_string in
  let file_runs := backslash_runs matched_regions in
  if bool_decide (length old_runs = 0%nat) || bool_decide (length file_runs = 0%nat) || negb (length old_runs =? length file_runs)%nat then None else
  if bool_decide (old_runs = file_runs) then None else
  if existsb (λ p, negb (p.1 =? p.2 * 2)%nat) (zip old_runs file_runs) then None else
  if negb (existsb (λ f, (2 <=? f)%nat) file_runs || (2 <=? length file_runs)%nat) then None else
  if bool_decide (backslash_runs new_string = file_runs) then None else
  Some ("Escape-drift detected: every backslash run in old_string is exactly twice as long as in the matched region of the file (e.g. the file has `\\` where old_string has `\\\\`). "
        +:+ "The tool-call arguments were JSON-escaped one extra time; applying new_string verbatim would double every backslash in the file. "
        +:+ "Re-read the file with read_file and resend old_string/new_string with the backslash counts exactly as they appear in the file.").

Definition escaped_quote (q : ascii) : string := String backslash (String q "").

Definition quote_drift (shown plain suspect matched_regions old_string new_string : string) : option string :=
  if contains suspect new_string && contains suspect old_string && negb (contains suspect matched_regions)
  then Some ("Escape-drift detected: old_string and new_string contain the literal sequence " +:+ shown
             +:+ " but the matched region of the file does not. This is almost always a tool-call serialization artifact where an apostrophe or quote got prefixed with a spurious backslash. "
             +:+ "Re-read the file with read_file and pass old_string/new_string without backslash-escaping " +:+ plain +:+ " characters.")
  else None.

Definition regions_text (content : string) (matches : list region) : string := String.concat "" (slice content <$> matches).

Definition detect_escape_drift (content : string) (matches : list region) (old_string new_string : string) : option string :=
  let single := escaped_quote single_quote in
  let double := escaped_quote double_quote in
  let has_quote_suspects := contains single new_string || contains double new_string in
  if negb has_quote_suspects && negb (contains (String backslash "") old_string) then None else
  let matched_regions := regions_text content matches in
  let drift := if has_quote_suspects then
                 match quote_drift (dquote +:+ "\\'" +:+ dquote) (dquote +:+ "'" +:+ dquote) single matched_regions old_string new_string with
                 | Some e => Some e
                 | None => quote_drift ("'\\" +:+ dquote +:+ "'") ("'" +:+ dquote +:+ "'") double matched_regions old_string new_string
                 end
               else None in
  match drift with
  | Some e => Some e
  | None => detect_backslash_doubling matched_regions old_string new_string
  end.

(** ** The replacement *)

Definition is_blank (c : ascii) : bool := Ascii.eqb c " " || Ascii.eqb c tab.
Definition leading_whitespace (line : string) : string := (span is_blank line).1.
Definition first_meaningful_line (text : string) : option string := List.find (λ line, str_true (py_strip line)) (text_lines text).

Definition reindent_line (old_indent file_indent line : string) : string :=
  if negb (str_true (py_strip line)) then line else
  if String.prefix old_indent (leading_whitespace line) then file_indent +:+ drop (String.length old_indent) line
  else file_indent +:+ (span is_blank line).2.

Definition reindent_replacement (file_region old_string new_string : string) : string :=
  if negb (str_true new_string) then new_string else
  match first_meaningful_line old_string, first_meaningful_line file_region with
  | Some old_first, Some file_first =>
      let old_indent := leading_whitespace old_first in
      let file_indent := leading_whitespace file_first in
      if String.eqb old_indent file_indent then new_string
      else joined (reindent_line old_indent file_indent <$> text_lines new_string)
  | _, _ => new_string
  end.

Definition written_tab : string := String backslash "t".
Definition written_return : string := String backslash "r".

Definition maybe_unescape_new_string (new_string content : string) (matches : list region) : string :=
  let matched_regions := regions_text content matches in
  let out := if contains written_tab new_string && contains (String tab "") matched_regions
             then replace_text written_tab (String tab "") new_string else new_string in
  if contains written_return out && contains (String carriage_return "") matched_regions
  then replace_text written_return (String carriage_return "") out else out.

(** [sorted(matches, key=start, reverse=True)], which keeps the order of
    equal starts. *)
Fixpoint insert_last_first (r : region) (l : list region) : list region :=
  match l with
  | [] => [r]
  | q :: l => if (q.1 <=? r.1)%nat then r :: q :: l else q :: insert_last_first r l
  end.
Definition last_first (l : list region) : list region := foldr insert_last_first [] l.

Definition replace_region (adjust : string → string) (content result : string) (r : region) : string :=
  upto r.1 result +:+ adjust (slice content r) +:+ drop r.2 result.

(** [old_string] is given for a match that was not exact. *)
Definition apply_replacements (content : string) (matches : list region) (new_string : string) (old_string : option string) : string :=
  let adjust file_region := match old_string with Some old => reindent_replacement file_region old new_string | None => new_string end in
  foldl (replace_region adjust content) content (last_first matches).

(** ** Strategies *)

Fixpoint exact_from (fuel at_ : nat) (pattern rest : string) : list region :=
  match fuel with
  | O => []
  | S fuel =>
      match find_text pattern rest with
      | Some (before, after) =>
          let start := (at_ + String.length before)%nat in
          (start, (start + String.length pattern)%nat) :: exact_from fuel (start + String.length pattern) pattern after
      | None => []
      end
  end.
Definition strategy_exact (content pattern : string) : list region := exact_from (S (String.length content)) 0 pattern content.

Definition line_end_sum (l : list string) : nat := list_sum ((λ line, S (String.length line)) <$> l).

Definition calculate_line_positions (content_lines : list string) (start_line end_line content_length : nat) : region :=
  (line_end_sum (take start_line content_lines), Nat.min content_length (line_end_sum (take end_line content_lines) - 1)).

(** The blocks of [n] lines, by the line they begin at. *)
Definition blocks (n : nat) (l : list string) : list (nat * list string) := (λ i, (i, take n (skipn i l))) <$> seq 0 (S (length l) - n).

Definition block_region (content : string) (n i : nat) : region :=
  calculate_line_positions (text_lines content) i (i + n) (String.length content).

(** The blocks of lines that satisfy a test, as regions of the content. *)
Definition block_matches (content : string) (lines : list string) (n : nat) (test : list string → bool) : list region :=
  (λ b, block_region content n b.1) <$> List.filter (λ b, test b.2) (blocks n lines).

(** [_find_normalized_matches] *)
Definition find_normalized_matches (content : string) (content_normalized_lines : list string) (pattern_normalized : string) : list region :=
  block_matches content content_normalized_lines (length (text_lines pattern_normalized))
    (λ block, String.eqb (joined block) pattern_normalized).

Definition strategy_line_trimmed (content pattern : string) : list region :=
  find_normalized_matches content (py_strip <$> text_lines content) (joined (py_strip <$> text_lines pattern)).

Definition strategy_indentation_flexible (content pattern : string) : list region :=
  find_normalized_matches content (py_lstrip <$> text_lines content) (joined (py_lstrip <$> text_lines pattern)).

(** *** Runs of blanks *)

(** [re.sub("[ \t]+", " ", s)] *)
Fixpoint collapse (in_run : bool) (s : string) : string :=
  match s with
  | EmptyString => EmptyString
  | String c s => if is_blank c then (if in_run then collapse true s else String " " (collapse true s)) else String c (collapse false s)
  end.

(** For each character of the original its position in the collapsed text. *)
Fixpoint positions_in (total at_ : nat) (normalized original : string) : list nat :=
  match original with
  | EmptyString => []
  | String c original =>
      match normalized with
      | EmptyString => total :: positions_in total at_ "" original
      | String n rest =>
          if Ascii.eqb c n then at_ :: positions_in total (S at_) rest original
          else if is_blank c && Ascii.eqb n " " && match original with String d _ => negb (is_blank d) | EmptyString => false end
          then at_ :: positions_in total (S at_) rest original
          else at_ :: positions_in total at_ normalized original
      end
  end.

Fixpoint first_index (test : nat → bool) (l : list nat) : option nat :=
  match l with
  | [] => None
  | n :: l => if test n then Some 0%nat else S <$> first_index test l
  end.
Fixpoint last_index (test : nat → bool) (l : list nat) : option nat :=
  match l with
  | [] => None
  | n :: l => match last_index test l with Some i => Some (S i) | None => if test n then Some 0%nat else None end
  end.

Definition blanks_at (s : string) (i : nat) : nat := String.length (leading_whitespace (drop i s)).

Definition map_normalized_region (original normalized : string) (r : region) : region :=
  let positions := positions_in (String.length normalized) 0 normalized original in
  let start := match first_index (Nat.eqb r.1) positions with
               | Some i => i
               | None => default 0%nat (first_index (λ n, (r.1 <=? n)%nat) positions)
               end in
  let stop := match last_index (Nat.eqb (r.2 - 1)) positions with Some i => S i | None => (start + (r.2 - r.1))%nat end in
  let stop := if (r.2 <? String.length normalized)%nat && match String.get (r.2 - 1) normalized with Some c => Ascii.eqb c " " | None => false end
              then (stop + blanks_at original stop)%nat else stop in
  (start, Nat.min stop (String.length original)).

Definition strategy_whitespace_normalized (content pattern : string) : list region :=
  let normalized := collapse false content in
  map_normalized_region content normalized <$> strategy_exact normalized (collapse false pattern).

(** *** Escapes and boundaries *)

Definition unescape (s : string) : string :=
  replace_text written_return (String carriage_return "")
    (replace_text written_tab (String tab "") (replace_text (String backslash "n") (String newline "") s)).

Definition strategy_escape_normalized (content pattern : string) : list region :=
  let unescaped := unescape pattern in
  if String.eqb unescaped pattern then [] else strategy_exact content unescaped.

(** The first and the last line of a block stripped. *)
Definition strip_last (l : list string) : list string :=
  match l with
  | _ :: _ => removelast l ++ [py_strip (List.last l "")]
  | [] => []
  end.
Definition trim_boundary (l : list string) : list string :=
  match l with
  | [] => []
  | first :: rest => py_strip first :: strip_last rest
  end.

Definition strategy_trimmed_boundary (content pattern : string) : list region :=
  let pattern_lines := trim_boundary (text_lines pattern) in
  block_matches content (text_lines content) (length pattern_lines)
    (λ block, String.eqb (joined (trim_boundary block)) (joined pattern_lines)).

(** *** Unicode *)

Fixpoint orig_to_norm_from (at_ : nat) (original : string) : list nat :=
  match original with
  | EmptyString => [at_]
  | String c original => at_ :: orig_to_norm_from (at_ + String.length (unicode_of c)) original
  end.
Definition build_orig_to_norm_map (original : string) : list nat := orig_to_norm_from 0 original.

(** The first position of the original from [from] on that is as far as
    [n]. *)
Definition walk_to (orig_to_norm : list nat) (from n : nat) : nat :=
  (from + default (pred (length orig_to_norm) - from)%nat (first_index (λ m, (n <=? m)%nat) (skipn from (removelast orig_to_norm))))%nat.

Definition map_positions_norm_to_orig (orig_to_norm : list nat) (norm_matches : list region) : list region :=
  omap (λ r, start ← first_index (Nat.eqb r.1) (removelast orig_to_norm); Some (start, walk_to orig_to_norm start r.2)) norm_matches.

Definition strategy_unicode_normalized (content pattern : string) : list region :=
  let norm_pattern := unicode_normalize pattern in
  let norm_content := unicode_normalize content in
  if String.eqb norm_content content && String.eqb norm_pattern pattern then [] else
  let norm_matches := match strategy_exact norm_content norm_pattern with
                      | [] => strategy_line_trimmed norm_content norm_pattern
                      | found => found
                      end in
  map_positions_norm_to_orig (build_orig_to_norm_map content) norm_matches.

(** *** Similarity *)

(** What [get_opcodes] answers for a span of the first text and one of the
    second. *)
Inductive edit_tag := EQUAL | REPLACE | DELETE | INSERT.
Record opcode := mk_opcode { op_tag : edit_tag; op_i1 : nat; op_i2 : nat; op_j1 : nat; op_j2 : nat }.

Section similarity.
  (** [SequenceMatcher(None, a, b)]: how many characters its matching blocks
      hold, and its opcodes. *)
  Context (matched : string → string → nat) (opcodes : string → string → list opcode).

(** [SequenceMatcher(None, a, b).ratio() >= percent / 100] *)
Definition ratio_at_least (percent : nat) (a b : string) : bool :=
  let total := (String.length a + String.length b)%nat in
  bool_decide (total = 0%nat) || (percent * total <=? 200 * matched a b)%nat.

Definition similar (a b : string) : bool := String.eqb a b || ratio_at_least 80 a b.

Definition strategy_block_anchor (content pattern : string) : list region :=
  let pattern_lines := text_lines (unicode_normalize pattern) in
  let n := length pattern_lines in
  if (n <? 2)%nat then [] else
  let first_line := py_strip (hd "" pattern_lines) in
  let last_line := py_strip (List.last pattern_lines "") in
  let anchored := List.filter (λ b, String.eqb (py_strip (hd "" b.2)) first_line && String.eqb (py_strip (List.last b.2 "")) last_line)
                    (blocks n (text_lines (unicode_normalize content))) in
  let threshold := if (length anchored =? 1)%nat then 50%nat else 70%nat in
  let middle l := joined (removelast (tail l)) in
  (λ b, block_region content n b.1) <$>
    List.filter (λ b, (n <=? 2)%nat || ratio_at_least threshold (middle b.2) (middle pattern_lines)) anchored.

Definition strategy_context_aware (content pattern : string) : list region :=
  let pattern_lines := text_lines pattern in
  block_matches content (text_lines content) (length pattern_lines) (λ block,
    similar (py_strip (hd "" pattern_lines)) (py_strip (hd "" block))
    && similar (py_strip (List.last pattern_lines "")) (py_strip (List.last block ""))
    && forallb (λ p, negb (str_true (py_strip p.1)) || similar (py_strip p.1) (py_strip p.2)) (zip pattern_lines block)).

(** ** An edit *)

Definition apply_opcode (file_region new_string : string) (orig_to_norm : list nat) (op : opcode) : string :=
  match op.(op_tag) with
  | EQUAL =>
      let start := default 0%nat (first_index (Nat.eqb op.(op_i1)) (removelast orig_to_norm)) in
      slice file_region (start, walk_to orig_to_norm start op.(op_i2))
  | REPLACE | INSERT => slice new_string (op.(op_j1), op.(op_j2))
  | DELETE => ""
  end.

Definition preserve_unicode_in_replacement (content : string) (matches : list region) (old_string new_string : string) : string :=
  let file_region := regions_text content matches in
  let norm_old := unicode_normalize old_string in
  if negb (String.eqb norm_old (unicode_normalize file_region)) then new_string else
  String.concat "" (apply_opcode file_region new_string (build_orig_to_norm_map file_region) <$> opcodes norm_old new_string).

Definition strategies : list (string * (string → string → list region)) :=
  [("exact", strategy_exact); ("line_trimmed", strategy_line_trimmed); ("whitespace_normalized", strategy_whitespace_normalized);
   ("indentation_flexible", strategy_indentation_flexible); ("escape_normalized", strategy_escape_normalized);
   ("trimmed_boundary", strategy_trimmed_boundary); ("unicode_normalized", strategy_unicode_normalized);
   ("block_anchor", strategy_block_anchor); ("context_aware", strategy_context_aware)].
Definition SIMILARITY_STRATEGIES : list string := ["block_anchor"; "context_aware"].

(** The text, the number of replacements, the strategy, or the error. *)
Record edit := mk_edit { ed_content : string; ed_count : nat; ed_strategy : option string; ed_error : option string }.
Definition no_edit (content error : string) : edit := mk_edit content 0 None (Some error).

Definition too_many (content : string) (matches : list region) : string :=
  "Found " +:+ pretty (length matches) +:+ " matches for old_string. Provide more context to make it unique, or use replace_all=True. Matches:"
  +:+ String newline "" +:+ format_match_locations content matches.

Definition approximate (name : string) (matches : list region) : string :=
  "Found " +:+ pretty (length matches) +:+ " approximate matches via the '" +:+ name
  +:+ "' strategy; replace_all only applies to exact matches. Provide the precise text (whitespace included) so an exact/line-trimmed match can be made.".

(** What is done with the matches of the first strategy that has some. *)
Definition replace_found (content old_string new_string : string) (replace_all : bool) (name : string) (matches : list region) : edit :=
  let many := (1 <? length matches)%nat in
  if many && negb replace_all then no_edit content (too_many content matches) else
  if replace_all && many && bool_decide (name ∈ SIMILARITY_STRATEGIES) then no_edit content (approximate name matches) else
  match (if String.eqb name "exact" then None else detect_escape_drift content matches old_string new_string) with
  | Some drift => no_edit content drift
  | None =>
      let effective_new := maybe_unescape_new_string new_string content matches in
      let effective_new := if String.eqb name "unicode_normalized"
                           then preserve_unicode_in_replacement content matches old_string effective_new else effective_new in
      mk_edit (apply_replacements content matches effective_new (if String.eqb name "exact" then None else Some old_string))
        (length matches) (Some name) None
  end.

Fixpoint try_strategies (content old_string new_string : string) (replace_all : bool) (l : list (string * (string → string → list region))) : edit :=
  match l with
  | [] => no_edit content "Could not find a match for old_string in the file"
  | (name, find) :: l =>
      match find content old_string with
      | [] => try_strategies content old_string new_string replace_all l
      | matches => replace_found content old_string new_string replace_all name matches
      end
  end.

Definition fuzzy_find_and_replace (content old_string new_string : string) (replace_all : bool) : edit :=
  if negb (str_true old_string) then no_edit content "old_string cannot be empty" else
  if negb (str_true (py_strip old_string)) then no_edit content "old_string is only whitespace -- provide non-blank text to match" else
  if String.eqb old_string new_string then no_edit content IDENTICAL_STRINGS_ERROR else
  try_strategies content old_string new_string replace_all strategies.
End similarity.
