(* ===== verification/FuzzyMatchProps.v ===== *)
(** * The theorems about finding and replacing

    What an edit leaves as it was, what the region it replaces has to do with
    the old text, and that replacing every occurrence is [str.replace]; with
    runs of [client/agent/hermes/fuzzy_match.py]. *)

From Stdlib Require Import Ascii Sorted.
From S2P Require Import Prelude Texts Values Shell FuzzyMatch.

Open Scope py_scope.

(** ** Parts of a text *)

Lemma upto_app a b : upto (String.length a) (String.append a b) = a.
Proof. unfold upto. rewrite substring_app by lia. by apply substring_full. Qed.

(** A text in three parts, by the region of the middle one. *)
Lemma slice_middle a m b : slice (String.append a (String.append m b)) (String.length a, String.length a + String.length m) = m.
Proof.
  unfold slice. cbn [fst snd]. rewrite substring_past. replace (_ + _ - _) with (String.length m) by lia. apply upto_app.
Qed.

(** A region is in a text. *)
Definition within (content : string) (r : region) : Prop := r.1 ≤ r.2 ∧ r.2 ≤ String.length content.

Lemma split_at n s : n ≤ String.length s → ∃ a b, s = String.append a b ∧ String.length a = n.
Proof.
  revert s. induction n as [|n IH]; intros s Hn; [by exists "", s|]. destruct s as [|c s]; [cbn in Hn; lia|].
  destruct (IH s) as (a & b & -> & Ha); [cbn in Hn; lia|]. exists (String c a), b. split; [done|]. cbn. by rewrite Ha.
Qed.

Lemma within_parts content r : within content r →
  ∃ a m b, content = String.append a (String.append m b) ∧ r = (String.length a, String.length a + String.length m).
Proof.
  destruct r as [i j]. intros [Hij Hj]. cbn [fst snd] in *.
  destruct (split_at i content) as (a & rest & -> & Ha); [lia|]. rewrite length_append in Hj.
  destruct (split_at (j - i) rest) as (m & b & -> & Hm); [lia|]. exists a, m, b. split; [done|]. f_equal; lia.
Qed.

Lemma replace_region_parts adjust a m b : let content := String.append a (String.append m b) in
  replace_region adjust content content (String.length a, String.length a + String.length m) = String.append a (String.append (adjust m) b).
Proof.
  intros content. unfold replace_region, content. rewrite slice_middle. cbn [fst snd]. rewrite upto_app.
  by rewrite <- (length_append a m), <- (append_assoc a m b), drop_self.
Qed.

(** ** Lines *)

Lemma joined_lines_cons x y l : joined (x :: y :: l) = String.append x (String newline (joined (y :: l))).
Proof. done. Qed.

Lemma text_lines_some s : text_lines s ≠ [].
Proof. unfold text_lines. destruct s as [|c s]; [done|]. cbn. destruct (Ascii.eqb c newline); [done|]. by destruct (split_on newline s). Qed.

Lemma joined_lines s : joined (text_lines s) = s.
Proof.
  induction s as [|c s IH]; [done|]. pose proof (text_lines_some s) as Hne. unfold text_lines in *. cbn [split_on].
  destruct (Ascii.eqb_spec c newline) as [->|_]; destruct (split_on newline s) as [|h t]; [done| |done|].
  - by rewrite joined_lines_cons, IH.
  - rewrite <- IH. by destruct t.
Qed.

Definition line_of (s : string) : Prop := all_chars (λ c, negb (Ascii.eqb c newline)) s = true.

Lemma lines_are_lines s : Forall line_of (text_lines s).
Proof.
  induction s as [|c s IH]; [by repeat constructor|]. unfold text_lines in *. cbn [split_on].
  destruct (Ascii.eqb c newline) eqn:Hc; [by constructor|]. destruct (split_on newline s) as [|h t].
  - repeat constructor. unfold line_of. cbn. by rewrite Hc.
  - inversion IH as [|? ? Hh Ht]. constructor; [|done]. unfold line_of in *. cbn. by rewrite Hc.
Qed.

Lemma lines_joined l : l ≠ [] → Forall line_of l → text_lines (joined l) = l.
Proof.
  assert (∀ x s, line_of x → text_lines (String.append x (String newline s)) = x :: text_lines s) as Hnl.
  { intros x s. induction x as [|c x IH]; intros Hx; [done|]. unfold line_of in Hx. cbn in Hx. apply andb_true_iff in Hx as [Hc%negb_true_iff Hx].
    change (String.append (String c x) ?t) with (String c (String.append x t)). unfold text_lines in *. cbn [split_on]. by rewrite Hc, IH. }
  assert (∀ x, line_of x → text_lines x = [x]) as Hone.
  { intros x. induction x as [|c x IH]; intros Hx; [done|]. unfold line_of in Hx. cbn in Hx. apply andb_true_iff in Hx as [Hc%negb_true_iff Hx].
    unfold text_lines in *. cbn [split_on]. by rewrite Hc, IH. }
  intros Hne Hl. induction Hl as [|x l Hx Hl IH]; [done|]. destruct l as [|y l]; [by apply Hone|].
  rewrite joined_lines_cons, Hnl by done. by rewrite IH.
Qed.

Lemma joined_inj l k : l ≠ [] → k ≠ [] → Forall line_of l → Forall line_of k → joined l = joined k → l = k.
Proof. intros ? ? ? ? H. rewrite <- (lines_joined l), <- (lines_joined k) by done. by rewrite H. Qed.

Lemma line_end_sum_app l k : line_end_sum (l ++ k) = line_end_sum l + line_end_sum k.
Proof. unfold line_end_sum. by rewrite fmap_app, list_sum_app. Qed.

Lemma joined_length l : l ≠ [] → S (String.length (joined l)) = line_end_sum l.
Proof.
  induction l as [|x l IH]; [done|]. intros _. destruct l as [|y l]; [change (joined [x]) with x; unfold line_end_sum; cbn; lia|].
  rewrite joined_lines_cons, length_append. cbn [String.length]. rewrite IH by done. by unfold line_end_sum.
Qed.

(** A block of lines is a part of the text they are the lines of. *)
Lemma joined_parts before mid after : mid ≠ [] →
  ∃ a b, joined (before ++ mid ++ after) = String.append a (String.append (joined mid) b) ∧ String.length a = line_end_sum before.
Proof.
  intros Hmid. assert (∃ b, joined (mid ++ after) = String.append (joined mid) b) as [b Hb].
  { induction mid as [|x mid IH]; [done|]. destruct mid as [|y mid].
    - destruct after as [|z after]; [exists ""; by rewrite append_nil|]. by eexists.
    - destruct IH as [b Hb]; [done|]. exists b. change ((x :: y :: mid) ++ after) with (x :: y :: (mid ++ after)).
      rewrite !joined_lines_cons. change (y :: mid ++ after) with ((y :: mid) ++ after). by rewrite Hb, append_assoc. }
  induction before as [|x before (a & b' & Hab & Ha)].
  - exists "", b. by rewrite <- Hb.
  - exists (String.append x (String newline a)), b'. split.
    + assert (∃ y l, before ++ mid ++ after = y :: l) as (y & l & Hl) by (destruct before, mid; try done; eauto).
      change ((x :: before) ++ mid ++ after) with (x :: (before ++ mid ++ after)). rewrite Hl, joined_lines_cons, <- Hl, Hab, append_assoc. done.
    + rewrite length_append. change (line_end_sum (x :: before)) with (S (String.length x) + line_end_sum before).
      change (String.length (String newline a)) with (S (String.length a)). lia.
Qed.

Lemma block_region_parts content n i : 1 ≤ n → i + n ≤ length (text_lines content) →
  within content (block_region content n i) ∧ slice content (block_region content n i) = joined (take n (skipn i (text_lines content))).
Proof.
  intros Hn Hi. pose proof (joined_lines content) as Hc. set (l := text_lines content) in *.
  assert (l = take i l ++ take n (skipn i l) ++ skipn n (skipn i l)) as Hl by by rewrite take_drop, take_drop.
  assert (take n (skipn i l) ≠ []) as Hmid.
  { intros He. apply (f_equal length) in He. rewrite length_take, length_skipn in He. cbn in He. lia. }
  destruct (joined_parts (take i l) (take n (skipn i l)) (skipn n (skipn i l)) Hmid) as (a & b & Hab & Ha). rewrite <- Hl, Hc in Hab.
  assert (block_region content n i = (String.length a, String.length a + String.length (joined (take n (skipn i l))))) as Hr.
  { unfold block_region, calculate_line_positions. fold l. f_equal; [by symmetry|].
    assert (take (i + n) l = take i l ++ take n (skipn i l)) as -> by (symmetry; apply take_take_drop).
    rewrite line_end_sum_app, <- (joined_length (take n (skipn i l)) Hmid), <- Ha. apply (f_equal String.length) in Hab. rewrite !length_append in Hab. lia. }
  rewrite Hr. split.
  - split; cbn; [lia|]. rewrite Hab, !length_append. lia.
  - rewrite Hab at 1. apply slice_middle.
Qed.

(** ** Several replacements *)

Lemma find_text_parts p s a b : find_text p s = Some (a, b) → s = String.append a (String.append p b).
Proof.
  revert a b. induction s as [|c s IH]; intros a b H; cbn [find_text] in H; destruct (String.prefix p _) eqn:Hp in H; try done.
  - injection H as <- <-. by destruct p.
  - injection H as <- <-. apply prefix_split in Hp as [t ->]. by rewrite drop_self.
  - destruct (find_text p s) as [[a' b']|]; [|done]. injection H as <- <-. by rewrite (IH a' b').
Qed.

Lemma find_text_none p s : find_text p s = None ↔ contains p s = false.
Proof.
  induction s as [|c s IH]; cbn [find_text contains]; (destruct (String.prefix p _); [done|]); [done|].
  cbn [orb]. rewrite <- IH. destruct (find_text p s) as [[? ?]|]; done.
Qed.

(** Regions one after another, none empty, from a position on. *)
Fixpoint ascending (content : string) (pos : nat) (l : list region) : Prop :=
  match l with
  | [] => pos ≤ String.length content
  | r :: l => pos ≤ r.1 ∧ r.1 < r.2 ∧ r.2 ≤ String.length content ∧ ascending content r.2 l
  end.

(** The text with every region replaced at once. *)
Fixpoint rebuilt (adjust : string → string) (content : string) (pos : nat) (l : list region) : string :=
  match l with
  | [] => drop pos content
  | r :: l => String.append (slice content (pos, r.1)) (String.append (adjust (slice content r)) (rebuilt adjust content r.2 l))
  end.

Lemma ascending_le content pos l : ascending content pos l → pos ≤ String.length content.
Proof. destruct l as [|r l]; cbn; [done|]. lia. Qed.

Lemma ascending_after content pos l r : ascending content pos l → r ∈ l → pos ≤ r.1.
Proof.
  revert pos. induction l as [|q l IH]; intros pos Ha Hr; [by apply not_elem_of_nil in Hr|]. destruct Ha as (? & ? & ? & Ha).
  apply elem_of_cons in Hr as [->|Hr]; [done|]. pose proof (IH _ Ha Hr). lia.
Qed.

Lemma insert_at_end r l : (∀ q, q ∈ l → r.1 < q.1) → insert_last_first r l = l ++ [r].
Proof.
  induction l as [|q l IH]; intros H; [done|]. cbn [insert_last_first app].
  pose proof (H q (list_elem_of_here _ _)). destruct (Nat.leb_spec q.1 r.1); [lia|]. f_equal. apply IH. intros q' ?. apply H. by right.
Qed.

Lemma last_first_ascending content pos l : ascending content pos l → last_first l = rev l.
Proof.
  revert pos. induction l as [|r l IH]; intros pos Ha; [done|]. destruct Ha as (? & ? & ? & Ha). cbn [last_first foldr rev].
  change (foldr insert_last_first [] l) with (last_first l). rewrite (IH _ Ha). apply insert_at_end.
  intros q Hq. apply list_elem_of_In, in_rev, list_elem_of_In in Hq. pose proof (ascending_after _ _ _ _ Ha Hq). lia.
Qed.

Lemma upto_slice content i j : i ≤ j → j ≤ String.length content → upto j content = String.append (upto i content) (slice content (i, j)).
Proof.
  intros Hi Hj. destruct (within_parts content (i, j)) as (a & m & b & -> & [= -> ->]); [by split|].
  rewrite slice_middle, upto_app, <- append_assoc, <- length_append, upto_app. done.
Qed.

Lemma upto_drop content i : i ≤ String.length content → String.append (upto i content) (drop i content) = content.
Proof. intros Hi. destruct (split_at i content Hi) as (a & b & -> & <-). by rewrite upto_app, drop_self. Qed.

Lemma upto_length i s : i ≤ String.length s → String.length (upto i s) = i.
Proof. intros Hi. destruct (split_at i s Hi) as (a & b & -> & <-). by rewrite upto_app. Qed.

Lemma replaced_from_the_end adjust content pos l : ascending content pos l →
  foldl (replace_region adjust content) content (rev l) = String.append (upto pos content) (rebuilt adjust content pos l).
Proof.
  revert pos. induction l as [|r l IH]; intros pos Ha; cbn [rev rebuilt].
  - by rewrite upto_drop.
  - destruct Ha as (Hp & Hr & Hc & Ha). rewrite foldl_app, (IH _ Ha). cbn [foldl]. unfold replace_region at 1.
    set (rest := rebuilt adjust content r.2 l). rewrite (upto_slice content r.1 r.2) at 1 by lia.
    rewrite append_assoc. rewrite <- (upto_length r.1 content) at 1 by lia. rewrite upto_app.
    rewrite <- (upto_length r.2 content) at 1 by lia. rewrite drop_self.
    rewrite (upto_slice content pos r.1) by lia. by rewrite append_assoc.
Qed.

Lemma apply_ascending content l new old : ascending content 0 l →
  apply_replacements content l new old
  = rebuilt (λ region, match old with Some o => reindent_replacement region o new | None => new end) content 0 l.
Proof.
  intros Ha. unfold apply_replacements. rewrite (last_first_ascending _ _ _ Ha), (replaced_from_the_end _ _ _ _ Ha).
  unfold upto. by destruct content.
Qed.

Lemma apply_one content r new old : within content r →
  ∃ a m b adjusted, content = String.append a (String.append m b) ∧ m = slice content r ∧
    apply_replacements content [r] new old = String.append a (String.append adjusted b).
Proof.
  intros Hw. destruct (within_parts content r Hw) as (a & m & b & -> & ->). do 4 eexists. split; [done|]. split; [by rewrite slice_middle|].
  unfold apply_replacements. cbn [last_first foldr insert_last_first foldl]. by rewrite replace_region_parts.
Qed.

(** ** Exact matches *)

Lemma exact_regions fuel pattern before rest : str_true pattern = true →
  let content := String.append before rest in
  let l := exact_from fuel (String.length before) pattern rest in
  ascending content (String.length before) l ∧ (∀ r, r ∈ l → slice content r = pattern) ∧
  ∀ new, rebuilt (λ _, new) content (String.length before) l = replaced fuel pattern new rest.
Proof.
  intros Hp. revert before rest. induction fuel as [|fuel IH]; intros before rest content l.
  { split_and!; [cbn; unfold content; rewrite length_append; lia|intros r Hr; by apply not_elem_of_nil in Hr|].
    intros new. cbn. apply drop_self. }
  unfold l. cbn [exact_from replaced]. destruct (find_text pattern rest) as [[a b]|] eqn:Hf.
  2:{ split_and!; [cbn; unfold content; rewrite length_append; lia|intros r Hr; by apply not_elem_of_nil in Hr|].
      intros new. cbn. apply drop_self. }
  apply find_text_parts in Hf as ->. unfold content in *. clear content l.
  set (ahead := String.append before (String.append a pattern)).
  assert (String.append before (String.append a (String.append pattern b)) = String.append ahead b) as Hc by (unfold ahead; by rewrite !append_assoc).
  assert (String.length before + String.length a + String.length pattern = String.length ahead) as Hlen
    by (unfold ahead; rewrite !length_append; lia).
  rewrite Hlen, Hc. destruct (IH ahead b) as (Ha & Hs & Hr). cbv zeta in Ha, Hs, Hr.
  assert (0 < String.length pattern) by (destruct pattern; [done|cbn; lia]).
  assert (slice (String.append ahead b) (String.length before + String.length a, String.length ahead) = pattern) as Hslice.
  { rewrite <- Hlen, <- Hc, <- length_append, <- append_assoc. apply slice_middle. }
  split_and!.
  - cbn [ascending fst snd]. split_and!; [lia|lia|rewrite length_append; lia|exact Ha].
  - intros r [->|Hin]%elem_of_cons; [done|by apply Hs].
  - intros new. cbn [rebuilt fst snd]. rewrite Hr. f_equal. rewrite <- Hc. apply slice_middle.
Qed.

Lemma strategy_exact_spec content pattern : str_true pattern = true →
  ascending content 0 (strategy_exact content pattern) ∧ (∀ r, r ∈ strategy_exact content pattern → slice content r = pattern) ∧
  ∀ new, rebuilt (λ _, new) content 0 (strategy_exact content pattern) = replace_text pattern new content.
Proof. intros Hp. apply (exact_regions (S (String.length content)) pattern "" content Hp). Qed.

Lemma strategy_exact_some content pattern : strategy_exact content pattern = [] ↔ contains pattern content = false.
Proof.
  unfold strategy_exact. cbn [exact_from]. rewrite <- find_text_none. by destruct (find_text pattern content) as [[? ?]|].
Qed.

(** ** Runs of blanks *)

(** What is left of a text without its blanks. *)
Fixpoint squeeze (s : string) : string :=
  match s with
  | EmptyString => EmptyString
  | String c s => if is_blank c then squeeze s else String c (squeeze s)
  end.

Lemma squeeze_app a b : squeeze (String.append a b) = String.append (squeeze a) (squeeze b).
Proof.
  induction a as [|c a IH]; [done|]. change (String.append (String c a) b) with (String c (String.append a b)). cbn [squeeze].
  rewrite IH. by destruct (is_blank c).
Qed.

Lemma squeeze_collapse b s : squeeze (collapse b s) = squeeze s.
Proof.
  revert b. induction s as [|c s IH]; intros b; [done|]. cbn. destruct (is_blank c) eqn:Hc; cbn; [destruct b; cbn; apply IH|].
  rewrite Hc. by rewrite IH.
Qed.

Lemma squeeze_blanks s : squeeze (leading_whitespace s) = "".
Proof.
  unfold leading_whitespace. induction s as [|c s IH]; [done|]. cbn. destruct (is_blank c) eqn:Hc; [|done].
  destruct (span is_blank s) as [a b]. cbn in *. by rewrite Hc.
Qed.

(** How many positions come before the first that is as far as [n]. *)
Fixpoint before_position (n : nat) (l : list nat) : nat :=
  match l with
  | [] => 0
  | m :: l => if n <=? m then 0 else S (before_position n l)
  end.

Definition far (n : nat) (l : list nat) : Prop := ∀ m, m ∈ l → n ≤ m.

Lemma before_far n l : far n l → before_position n l = 0.
Proof. destruct l as [|m l]; [done|]. intros H. cbn. destruct (Nat.leb_spec n m); [done|]. pose proof (H m (list_elem_of_here _ _)). lia. Qed.

(** What the positions of a collapsed text are: in order, every one of the
    collapsed text among them, and the same characters before each. *)
Lemma positions_spec total at_ b s : at_ + String.length (collapse b s) = total →
  let l := positions_in total at_ (collapse b s) s in
  length l = String.length s ∧ far at_ l ∧ StronglySorted le l ∧ (∀ n, at_ ≤ n → n < total → n ∈ l) ∧
  ∀ n, at_ ≤ n → squeeze (upto (before_position n l) s) = squeeze (upto (n - at_) (collapse b s)).
Proof.
  assert (∀ s, upto 0 s = "") as Hzero by by intros [].
  assert (∀ c n s, upto (S n) (String c s) = String c (upto n s)) as Hsucc by done.
  assert (∀ n, upto n "" = "") as Hnil by by intros [].
  assert (∀ at_ l, far at_ l → StronglySorted le l → StronglySorted le (at_ :: l)) as Hsort.
  { intros k l Hl Hs. constructor; [done|]. apply Forall_forall. exact Hl. }
  assert (∀ k l, far k l → far k (k :: l)) as Hfar by (intros k l Hl m [->|?]%elem_of_cons; [done|by apply Hl]).
  revert at_ b. induction s as [|c s IH]; intros at_ b Htot l.
  { cbn in Htot. split_and!; [done|intros m Hm; by apply not_elem_of_nil in Hm|constructor|lia|]. intros n _.
    change (squeeze "" = squeeze (upto (n - at_) "")). by rewrite Hnil. }
  (* one step that takes a character of both texts, or one of the text only *)
  assert (∀ c' b', at_ + S (String.length (collapse b' s)) = total → squeeze (String c "") = squeeze (String c' "") →
    let l := at_ :: positions_in total (S at_) (collapse b' s) s in
    length l = S (String.length s) ∧ far at_ l ∧ StronglySorted le l ∧ (∀ n, at_ ≤ n → n < total → n ∈ l) ∧
    ∀ n, at_ ≤ n → squeeze (upto (before_position n l) (String c s)) = squeeze (upto (n - at_) (String c' (collapse b' s)))) as Hboth.
  { intros c' b' Ht Hc l'. destruct (IH (S at_) b' ltac:(lia)) as (Hlen & Hf & Hs & Hall & Hsq).
    assert (far at_ (positions_in total (S at_) (collapse b' s) s)) as Hf' by (intros m Hm; pose proof (Hf m Hm); lia).
    split_and!; [cbn; by rewrite Hlen|by apply Hfar|by apply Hsort| |].
    - intros n Hn Ht'. destruct (decide (n = at_)) as [->|]; [by left|]. right. apply Hall; lia.
    - intros n Hn. destruct (decide (n = at_)) as [->|].
      { rewrite (before_far at_) by by apply Hfar. rewrite Nat.sub_diag. by rewrite !Hzero. }
      unfold l'. cbn [before_position]. destruct (Nat.leb_spec n at_); [lia|]. replace (n - at_) with (S (n - S at_)) by lia. rewrite !Hsucc.
      change (String c ?x) with (String.append (String c "") x). change (String c' ?x) with (String.append (String c' "") x).
      rewrite !squeeze_app, Hc. f_equal. apply Hsq. lia. }
  assert (∀ b', is_blank c = true → at_ + String.length (collapse b' s) = total →
    let l := at_ :: positions_in total at_ (collapse b' s) s in
    length l = S (String.length s) ∧ far at_ l ∧ StronglySorted le l ∧ (∀ n, at_ ≤ n → n < total → n ∈ l) ∧
    ∀ n, at_ ≤ n → squeeze (upto (before_position n l) (String c s)) = squeeze (upto (n - at_) (collapse b' s))) as Hone.
  { intros b' Hc Ht l'. destruct (IH at_ b' Ht) as (Hlen & Hf & Hs & Hall & Hsq).
    split_and!; [cbn; by rewrite Hlen|by apply Hfar|by apply Hsort|intros n ??; right; by apply Hall|].
    intros n Hn. destruct (decide (n = at_)) as [->|].
    { rewrite (before_far at_) by by apply Hfar. rewrite Nat.sub_diag. by rewrite !Hzero. }
    unfold l'. cbn [before_position]. destruct (Nat.leb_spec n at_); [lia|]. rewrite Hsucc. cbn [squeeze]. rewrite Hc. by apply Hsq. }
  unfold l. cbn [collapse] in *. destruct (is_blank c) eqn:Hc.
  2:{ cbn [positions_in]. rewrite (proj2 (Ascii.eqb_eq c c)) by done. apply Hboth; [cbn in Htot; lia|done]. }
  destruct b.
  - destruct (collapse true s) as [|d rest] eqn:Hn.
    + cbn [positions_in]. specialize (Hone true eq_refl). rewrite Hn in Hone. cbn in Htot. rewrite Nat.add_0_r in Htot. subst total. apply Hone. cbn. lia.
    + assert (is_blank d = false) as Hd.
      { clear -Hn. revert Hn. induction s as [|e s IH]; [done|]. cbn. destruct (is_blank e) eqn:He; [done|]. by intros [= <- _]. }
      cbn [positions_in]. assert (Ascii.eqb c d = false) as -> by (apply Ascii.eqb_neq; intros ->; congruence).
      assert (Ascii.eqb d " " = false) as -> by (apply Ascii.eqb_neq; intros ->; done). rewrite andb_false_r. cbn [andb].
      specialize (Hone true eq_refl). rewrite Hn in Hone. by apply Hone.
  - cbn [String.length] in Htot. cbn [positions_in]. destruct (Ascii.eqb c " ") eqn:Hsp.
    { apply Hboth; [lia|]. by apply Ascii.eqb_eq in Hsp as ->. }
    rewrite Hc. change (Ascii.eqb " " " ") with true. cbn [andb]. destruct s as [|d s].
    + cbn [collapse positions_in]. split_and!; [done|by apply Hfar; intros m Hm; apply not_elem_of_nil in Hm|repeat constructor| |].
      * intros n ??. cbn in Htot. assert (n = at_) as -> by lia. by left.
      * intros n Hn. cbn [before_position]. destruct (Nat.leb_spec n at_); [assert (n - at_ = 0) as -> by lia; reflexivity|].
        replace (n - at_) with (S (n - S at_)) by lia. rewrite !Hsucc, !Hnil. cbn [squeeze]. by rewrite Hc.
    + destruct (is_blank d) eqn:Hd; cbn [negb].
      * specialize (Hone false eq_refl). cbn [collapse] in Hone, Htot |- *. rewrite Hd in Hone, Htot |- *. apply Hone. cbn [String.length]. lia.
      * apply Hboth; [lia|]. cbn [squeeze]. by rewrite Hc.
Qed.

Lemma span_append p s : String.append (span p s).1 (span p s).2 = s.
Proof.
  induction s as [|c s IH]; [done|]. cbn. destruct (p c); [|done]. destruct (span p s) as [a b]. cbn in *.
  change (String c (String.append a b) = String c s). by rewrite IH.
Qed.

Lemma before_position_le n l : before_position n l ≤ length l.
Proof. induction l as [|m l IH]; cbn; [done|]. destruct (n <=? m); lia. Qed.

Lemma before_position_mono n m l : n ≤ m → before_position n l ≤ before_position m l.
Proof. intros H. induction l as [|k l IH]; cbn; [done|]. destruct (Nat.leb_spec n k), (Nat.leb_spec m k); lia. Qed.

Lemma sorted_far m l : StronglySorted le (m :: l) → far m l.
Proof. intros H k Hk. inversion H as [|? ? _ Hall]. rewrite Forall_forall in Hall. by apply Hall. Qed.

Lemma first_index_before n l : StronglySorted le l → n ∈ l → first_index (Nat.eqb n) l = Some (before_position n l).
Proof.
  induction l as [|m l IH]; intros Hs Hn; [by apply not_elem_of_nil in Hn|]. cbn. destruct (Nat.eqb_spec n m) as [->|Hne].
  - by rewrite Nat.leb_refl.
  - apply elem_of_cons in Hn as [?|Hn]; [done|]. pose proof (sorted_far _ _ Hs n Hn). destruct (Nat.leb_spec n m); [lia|].
    rewrite IH by (done || by inversion Hs). done.
Qed.

Lemma last_index_before n l : StronglySorted le l → n ∈ l → S <$> last_index (Nat.eqb n) l = Some (before_position (S n) l).
Proof.
  induction l as [|m l IH]; intros Hs Hn; [by apply not_elem_of_nil in Hn|]. cbn [last_index before_position].
  assert (StronglySorted le l) as Hl by by inversion Hs. destruct (decide (n ∈ l)) as [Hin|Hin].
  - specialize (IH Hl Hin). destruct (last_index (Nat.eqb n) l) as [i|]; [|done]. injection IH as IH.
    pose proof (sorted_far _ _ Hs n Hin). destruct (Nat.leb_spec (S n) m); [lia|]. cbn. by rewrite IH.
  - apply elem_of_cons in Hn as [->|?]; [|done]. assert (last_index (Nat.eqb m) l = None) as ->.
    { clear -Hin. induction l as [|k l IH]; [done|]. cbn. rewrite IH by (intros ?; apply Hin; by right).
      destruct (Nat.eqb_spec m k) as [->|]; [|done]. destruct Hin. by left. }
    rewrite Nat.eqb_refl. destruct (Nat.leb_spec (S m) m); [lia|]. cbn. f_equal.
    assert (far (S m) l) as Hf. { intros k Hk. pose proof (sorted_far _ _ Hs k Hk). destruct (decide (k = m)) as [->|]; [done|lia]. }
    by rewrite before_far.
Qed.

Lemma squeezed_region content i j : i ≤ j → j ≤ String.length content →
  squeeze (upto j content) = String.append (squeeze (upto i content)) (squeeze (slice content (i, j))).
Proof. intros Hi Hj. by rewrite (upto_slice content i j), squeeze_app. Qed.

Lemma blanks_after content j : j ≤ String.length content →
  j + blanks_at content j ≤ String.length content ∧ squeeze (upto (j + blanks_at content j) content) = squeeze (upto j content).
Proof.
  intros Hj. destruct (split_at j content Hj) as (a & b & -> & <-). unfold blanks_at. rewrite drop_self.
  unfold leading_whitespace. destruct (span is_blank b) as [u v] eqn:Huv. cbn [fst].
  assert (b = String.append u v) as -> by (pose proof (span_append is_blank b) as H; by rewrite Huv in H).
  split; [rewrite !length_append; lia|]. rewrite (upto_app a (String.append u v)), <- length_append, <- append_assoc, upto_app, squeeze_app.
  assert (squeeze u = "") as ->; [|apply append_nil]. pose proof (squeeze_blanks (String.append u v)) as H. unfold leading_whitespace in H. by rewrite Huv in H.
Qed.

(** A match in the collapsed text is a region of the text, with the same
    characters but for blanks. *)
Lemma normalized_region content r : let normalized := collapse false content in
  r.1 < r.2 → r.2 ≤ String.length normalized →
  within content (map_normalized_region content normalized r) ∧
  squeeze (slice content (map_normalized_region content normalized r)) = squeeze (slice normalized r).
Proof.
  intros normalized Hr Hn. destruct (positions_spec (String.length normalized) 0 false content eq_refl) as (Hlen & _ & Hs & Hall & Hsq).
  fold normalized in Hlen, Hs, Hall, Hsq. unfold map_normalized_region. set (l := positions_in _ _ _ _) in *.
  rewrite (first_index_before r.1 l Hs) by (apply Hall; lia).
  pose proof (last_index_before (r.2 - 1) l Hs ltac:(apply Hall; lia)) as Hlast. replace (S (r.2 - 1)) with r.2 in Hlast by lia.
  destruct (last_index (Nat.eqb (r.2 - 1)) l) as [i|]; [|done]. injection Hlast as ->.
  pose proof (before_position_le r.2 l). pose proof (before_position_mono r.1 r.2 l ltac:(lia)).
  set (i0 := before_position r.1 l) in *. set (j0 := before_position r.2 l) in *.
  match goal with |- context [Nat.min ?x _] => set (stop := x) end.
  assert (j0 ≤ stop ∧ stop ≤ String.length content ∧ squeeze (upto stop content) = squeeze (upto j0 content)) as (Hj & Hstop & Hsame).
  { destruct (blanks_after content j0) as [Hb Hb']; [lia|]. unfold stop. destruct (_ && _); split_and!; auto; lia. }
  rewrite Nat.min_l by done. split; [split; cbn; lia|].
  apply (append_cancel (squeeze (upto i0 content)) (squeeze (upto i0 content))); [done|]. rewrite <- squeezed_region by lia. rewrite Hsame. unfold i0, j0. rewrite (Hsq r.2), (Hsq r.1) by lia.
  rewrite !Nat.sub_0_r. fold normalized. destruct r as [from to]. apply squeezed_region; cbn in *; lia.
Qed.

(** ** Where a match may be *)

Lemma exact_within fuel pattern before rest r : r ∈ exact_from fuel (String.length before) pattern rest →
  within (String.append before rest) r ∧ slice (String.append before rest) r = pattern ∧ r.2 = r.1 + String.length pattern.
Proof.
  revert before rest. induction fuel as [|fuel IH]; intros before rest Hr; [by apply not_elem_of_nil in Hr|]. cbn [exact_from] in Hr.
  destruct (find_text pattern rest) as [[a b]|] eqn:Hf; [|by apply not_elem_of_nil in Hr]. apply find_text_parts in Hf as ->.
  set (ahead := String.append before (String.append a pattern)).
  assert (String.append before (String.append a (String.append pattern b)) = String.append ahead b) as Hc by (unfold ahead; by rewrite !append_assoc).
  assert (String.length before + String.length a + String.length pattern = String.length ahead) as Hlen by (unfold ahead; rewrite !length_append; lia).
  rewrite Hlen in Hr. apply elem_of_cons in Hr as [->|Hr]; [|rewrite Hc; by apply IH].
  split_and!; [split; cbn; rewrite ?Hc, ?length_append; lia| |cbn; lia].
  rewrite <- Hlen, <- length_append, <- append_assoc. apply slice_middle.
Qed.

Lemma strategy_exact_within content pattern r : r ∈ strategy_exact content pattern →
  within content r ∧ slice content r = pattern ∧ r.2 = r.1 + String.length pattern.
Proof. apply (exact_within _ pattern "" content). Qed.

Lemma blocks_elem n l i b : (i, b) ∈ blocks n l → b = take n (skipn i l) ∧ i + n ≤ length l.
Proof.
  unfold blocks. intros (j & [= -> ->] & Hj)%list_elem_of_fmap. apply elem_of_seq in Hj. split; [done|]. lia.
Qed.

Lemma block_matches_elem content lines n test r : r ∈ block_matches content lines n test → length lines = length (text_lines content) → 1 ≤ n →
  ∃ i, r = block_region content n i ∧ i + n ≤ length (text_lines content) ∧ test (take n (skipn i lines)) = true ∧
    within content r ∧ text_lines (slice content r) = take n (skipn i (text_lines content)).
Proof.
  intros ([i b] & -> & Hin)%list_elem_of_fmap Hlen Hn. apply list_elem_of_In, filter_In in Hin as [Hin Ht]. apply list_elem_of_In, blocks_elem in Hin as [-> Hi].
  cbn in *. rewrite Hlen in Hi. destruct (block_region_parts content n i Hn Hi) as [Hw Hs]. exists i. split_and!; try done.
  rewrite Hs. apply lines_joined.
  - intros He. apply (f_equal length) in He. rewrite length_take, length_skipn in He. cbn in He. lia.
  - apply Forall_take, Forall_drop, lines_are_lines.
Qed.

Definition unicode_char (c : ascii) : ascii := if Ascii.eqb c "160" then " "%char else c.

Lemma normalize_cons c s : unicode_normalize (String c s) = String (unicode_char c) (unicode_normalize s).
Proof. cbn [unicode_normalize]. unfold unicode_of, UNICODE_MAP, unicode_char. by destruct (Ascii.eqb c "160"). Qed.

Lemma unicode_newline c : Ascii.eqb (unicode_char c) newline = Ascii.eqb c newline.
Proof. unfold unicode_char. by destruct (Ascii.eqb_spec c "160") as [->|]. Qed.

Lemma unicode_lines s : text_lines (unicode_normalize s) = unicode_normalize <$> text_lines s.
Proof.
  unfold text_lines. induction s as [|c s IH]; [done|]. rewrite normalize_cons. cbn [split_on]. rewrite unicode_newline, IH.
  destruct (Ascii.eqb c newline); [done|]. destruct (split_on newline s) as [|h t]; cbn [fmap list_fmap]; by rewrite normalize_cons.
Qed.

(** Every character of the model is one character of its normal form. *)
Lemma unicode_map s : build_orig_to_norm_map s = seq 0 (S (String.length s)) ∧ String.length (unicode_normalize s) = String.length s.
Proof.
  unfold build_orig_to_norm_map. generalize 0. induction s as [|c s IH]; intros k; [done|]. rewrite normalize_cons. cbn [orig_to_norm_from String.length].
  assert (String.length (unicode_of c) = 1) as -> by (unfold unicode_of, UNICODE_MAP; by destruct (Ascii.eqb c "160")). destruct (IH (k + 1)) as [Hm Hl]. split; [|by rewrite Hl].
  rewrite Hm, Nat.add_1_r. done.
Qed.

Lemma first_index_seq n from len : from ≤ n → n < from + len → first_index (Nat.eqb n) (seq from len) = Some (n - from).
Proof.
  revert from. induction len as [|len IH]; intros from H1 H2; [lia|]. cbn [seq first_index].
  destruct (Nat.eqb_spec n from) as [->|]; [by rewrite Nat.sub_diag|]. rewrite IH by lia. cbn. f_equal. lia.
Qed.

Lemma first_far_seq n from len : from ≤ n → first_index (λ m, n <=? m) (seq from len) = (if n <? from + len then Some (n - from) else None).
Proof.
  revert from. induction len as [|len IH]; intros from H1; [by rewrite (proj2 (Nat.ltb_ge _ _)) by lia|]. cbn [seq first_index].
  destruct (Nat.leb_spec n from); [destruct (Nat.ltb_spec n (from + S len)); [f_equal; lia|lia]|]. rewrite IH by lia.
  destruct (Nat.ltb_spec n (S from + len)), (Nat.ltb_spec n (from + S len)); try lia; cbn; [f_equal; lia|done].
Qed.

Lemma mapped_region content r l : Forall (within (unicode_normalize content)) l →
  r ∈ map_positions_norm_to_orig (build_orig_to_norm_map content) l → r ∈ l ∧ within content r.
Proof.
  intros Hl Hr. destruct (unicode_map content) as [Hm Hlen]. rewrite Hm in Hr. apply list_elem_of_omap in Hr as (q & Hq & Hr).
  rewrite Forall_forall in Hl. destruct (Hl q Hq) as [H1 H2]. rewrite Hlen in H2.
  assert (removelast (seq 0 (S (String.length content))) = seq 0 (String.length content)) as Hrl by by rewrite seq_S, removelast_last.
  assert (length (seq 0 (S (String.length content))) = S (String.length content)) as Hml by apply length_seq.
  set (m := seq 0 (S (String.length content))) in *. clearbody m.
  rewrite Hrl in Hr. destruct (decide (q.1 < String.length content)) as [Hlt|Hge].
  - rewrite first_index_seq in Hr by lia. cbn in Hr. injection Hr as <-. rewrite Nat.sub_0_r. unfold walk_to. rewrite Hrl, Hml.
    rewrite skipn_seq, first_far_seq by lia. destruct q as [i j]. cbn [fst snd] in *.
    assert (i + default (String.length content - i) (if j <? 0 + i + (String.length content - i) then Some (j - (0 + i)) else None) = j) as Hj.
    { destruct (Nat.ltb_spec j (0 + i + (String.length content - i))); cbn; lia. }
    cbn [Nat.pred] in *. rewrite Hj. split; [done|]. by split.
  - exfalso. destruct (first_index (Nat.eqb q.1) (seq 0 (String.length content))) as [i|] eqn:Hf; [|done].
    assert (q.1 ∈ seq 0 (String.length content)) as Hin%elem_of_seq; [|lia]. clear -Hf. revert i Hf. generalize (seq 0 (String.length content)).
    intros l. induction l as [|m l IH]; intros i Hf; [done|]. cbn in Hf. destruct (Nat.eqb_spec q.1 m) as [->|]; [by left|]. right.
    destruct (first_index (Nat.eqb q.1) l) as [j|]; [|done]. by eapply IH.
Qed.

Lemma unicode_slice content r : within content r → slice (unicode_normalize content) r = unicode_normalize (slice content r).
Proof.
  intros Hw. destruct (within_parts content r Hw) as (a & m & b & -> & ->). rewrite slice_middle.
  assert (∀ x y, unicode_normalize (String.append x y) = String.append (unicode_normalize x) (unicode_normalize y)) as Happ.
  { intros x y. induction x as [|c x IH]; [done|]. change (String.append (String c x) y) with (String c (String.append x y)).
    by rewrite !normalize_cons, IH. }
  rewrite !Happ. rewrite <- (proj2 (unicode_map a)), <- (proj2 (unicode_map m)). apply slice_middle.
Qed.

(** ** What each strategy matches *)

Lemma lstrip_chars_all p s : all_chars p s = true → all_chars p (py_lstrip s) = true.
Proof. induction s as [|c s IH]; [done|]. intros H. cbn in *. apply andb_true_iff in H as [Hc H]. destruct (py_isspace c); [by apply IH|]. cbn. by rewrite Hc. Qed.

Lemma rstrip_chars_all p s : all_chars p s = true → all_chars p (py_rstrip s) = true.
Proof.
  induction s as [|c s IH]; [done|]. intros H. cbn in *. apply andb_true_iff in H as [Hc H]. specialize (IH H).
  destruct (py_rstrip s) as [|d t]; [destruct (py_isspace c); [done|]; cbn; by rewrite Hc|]. cbn in *. by rewrite Hc.
Qed.

Lemma strip_line s : line_of s → line_of (py_strip s).
Proof. intros H. by apply rstrip_chars_all, lstrip_chars_all. Qed.

Lemma lstrip_line s : line_of s → line_of (py_lstrip s).
Proof. apply lstrip_chars_all. Qed.

Lemma Forall_line_fmap f l : (∀ s, line_of s → line_of (f s)) → Forall line_of l → Forall line_of (f <$> l).
Proof. intros Hf Hl. apply Forall_fmap. eapply Forall_impl; [exact Hl|]. apply Hf. Qed.

Lemma fmap_some (f : string → string) l : l ≠ [] → f <$> l ≠ [].
Proof. by destruct l. Qed.

Lemma lines_count s : 1 ≤ length (text_lines s).
Proof. pose proof (text_lines_some s). destruct (text_lines s); [done|cbn; lia]. Qed.

Lemma normalized_lines content pattern f r : (∀ s, line_of s → line_of (f s)) →
  r ∈ find_normalized_matches content (f <$> text_lines content) (joined (f <$> text_lines pattern)) →
  within content r ∧ f <$> text_lines (slice content r) = f <$> text_lines pattern.
Proof.
  intros Hf Hr. unfold find_normalized_matches in Hr.
  assert (text_lines (joined (f <$> text_lines pattern)) = f <$> text_lines pattern) as Hl
    by (apply lines_joined; [apply fmap_some, text_lines_some|apply Forall_line_fmap; [done|apply lines_are_lines]]).
  rewrite Hl, length_fmap in Hr. apply block_matches_elem in Hr as (i & _ & Hi & Ht%String.eqb_eq & Hw & Hs);
    [|by rewrite length_fmap|apply lines_count]. split; [done|]. rewrite Hs.
  rewrite <- fmap_drop, <- fmap_take in Ht. apply joined_inj in Ht; [done| | | |].
  - apply fmap_some. rewrite <- Hs. apply text_lines_some.
  - apply fmap_some, text_lines_some.
  - rewrite <- Hs. apply Forall_line_fmap; [done|apply lines_are_lines].
  - apply Forall_line_fmap; [done|apply lines_are_lines].
Qed.

Lemma last_line l : l ≠ [] → Forall line_of l → line_of (List.last l "").
Proof. intros Hl Ha. destruct (exists_last Hl) as (k & x & ->). rewrite last_last. apply Forall_app in Ha as [_ Hx]. by inversion Hx. Qed.

Lemma trim_boundary_lines l : Forall line_of l → Forall line_of (trim_boundary l).
Proof.
  intros Hl. destruct l as [|x l]; [done|]. inversion Hl as [|? ? Hx Hr]. constructor; [by apply strip_line|].
  destruct l as [|y l]; [done|]. unfold strip_last. apply Forall_app. split.
  - destruct (exists_last (l:=y :: l) ltac:(done)) as (k & z & Hk). rewrite Hk in Hr |- *. rewrite removelast_last. by apply Forall_app in Hr as [? _].
  - apply Forall_singleton, strip_line, last_line; done.
Qed.

Lemma trim_boundary_length l : length (trim_boundary l) = length l.
Proof.
  destruct l as [|x l]; [done|]. cbn. f_equal. destruct l as [|y l]; [done|]. unfold strip_last.
  destruct (exists_last (l:=y :: l) ltac:(done)) as (k & z & Hk). rewrite Hk, removelast_last, !length_app. done.
Qed.

Lemma trim_boundary_some l : l ≠ [] → trim_boundary l ≠ [].
Proof. by destruct l. Qed.

Lemma collapse_some b s : b = false → str_true s = true → 0 < String.length (collapse b s).
Proof. intros ->. destruct s as [|c s]; [done|]. intros _. cbn. destruct (is_blank c); cbn; lia. Qed.

Section edits.
  Context (matched : string → string → nat) (opcodes : string → string → list opcode).

#[local] Abbreviation edit_of := (fuzzy_find_and_replace matched opcodes).

(** What the region a strategy replaces has in common with the old text. *)
Definition stands_for (name m old : string) : Prop :=
  if String.eqb name "exact" then m = old else
  if String.eqb name "line_trimmed" then py_strip <$> text_lines m = py_strip <$> text_lines old else
  if String.eqb name "whitespace_normalized" then squeeze m = squeeze old else
  if String.eqb name "indentation_flexible" then py_lstrip <$> text_lines m = py_lstrip <$> text_lines old else
  if String.eqb name "escape_normalized" then m = unescape old else
  if String.eqb name "trimmed_boundary" then trim_boundary (text_lines m) = trim_boundary (text_lines old) else
  if String.eqb name "unicode_normalized" then py_strip <$> text_lines (unicode_normalize m) = py_strip <$> text_lines (unicode_normalize old) else
  if String.eqb name "block_anchor" then
    let l := text_lines (unicode_normalize m) in let k := text_lines (unicode_normalize old) in
    length l = length k ∧ py_strip (hd "" l) = py_strip (hd "" k) ∧ py_strip (List.last l "") = py_strip (List.last k "") ∧
    (2 < length k → ratio_at_least matched 50 (joined (removelast (tail l))) (joined (removelast (tail k))) = true)
  else
    length (text_lines m) = length (text_lines old) ∧
    ∀ p, p ∈ zip (text_lines old) (text_lines m) → str_true (py_strip p.1) = true → similar matched (py_strip p.1) (py_strip p.2) = true.

Lemma ratio_weaker a b : ratio_at_least matched 70 a b = true → ratio_at_least matched 50 a b = true.
Proof. unfold ratio_at_least. destruct (bool_decide _); [done|]. cbn [orb]. intros ?%Nat.leb_le. apply Nat.leb_le. lia. Qed.

Lemma unicode_matches content old r : r ∈ strategy_unicode_normalized content old →
  within content r ∧ stands_for "unicode_normalized" (slice content r) old.
Proof.
  unfold strategy_unicode_normalized. destruct (_ && _); [intros Hr; by apply not_elem_of_nil in Hr|]. intros Hr.
  assert (∃ l, r ∈ map_positions_norm_to_orig (build_orig_to_norm_map content) l ∧
    ∀ q, q ∈ l → within (unicode_normalize content) q ∧
      py_strip <$> text_lines (slice (unicode_normalize content) q) = py_strip <$> text_lines (unicode_normalize old)) as (l & Hin & Hl).
  { destruct (strategy_exact (unicode_normalize content) (unicode_normalize old)) as [|q l] eqn:He; (eexists; split; [exact Hr|]); intros p Hp.
    - apply (normalized_lines _ _ _ _ strip_line Hp).
    - rewrite <- He in Hp. apply strategy_exact_within in Hp as (Hw & Hs & _). by rewrite Hs. }
  apply mapped_region in Hin as [Hin Hw]; [|apply Forall_forall; intros q Hq; by apply Hl].
  split; [done|]. destruct (Hl r Hin) as [_ Hs]. by rewrite unicode_slice in Hs.
Qed.

Lemma anchored_matches content old r : r ∈ strategy_block_anchor matched content old →
  within content r ∧ stands_for "block_anchor" (slice content r) old.
Proof.
  unfold strategy_block_anchor. set (k := text_lines (unicode_normalize old)).
  destruct (Nat.ltb_spec (length k) 2) as [|Hk]; [intros Hr; by apply not_elem_of_nil in Hr|].
  intros ([i b] & -> & Hin)%list_elem_of_fmap.
  apply list_elem_of_In, filter_In in Hin as [Hin Hmid]. apply filter_In in Hin as [Hin [Hf%String.eqb_eq Hl%String.eqb_eq]%andb_true_iff].
  apply list_elem_of_In, blocks_elem in Hin as [-> Hi]. cbn [fst snd] in *.
  rewrite unicode_lines, length_fmap in Hi. destruct (block_region_parts content (length k) i ltac:(lia) Hi) as [Hw Hs].
  split; [done|]. set (b := take _ _) in *.
  assert (text_lines (unicode_normalize (slice content (block_region content (length k) i))) = b) as Hb.
  { rewrite unicode_lines, Hs, lines_joined; [unfold b; by rewrite unicode_lines, fmap_take, fmap_drop| |].
    - intros He. apply (f_equal length) in He. rewrite length_take, length_skipn in He. cbn in He. lia.
    - apply Forall_take, Forall_drop, lines_are_lines. }
  change (stands_for "block_anchor" ?m ?o) with
    (let l := text_lines (unicode_normalize m) in let k := text_lines (unicode_normalize o) in
     length l = length k ∧ py_strip (hd "" l) = py_strip (hd "" k) ∧ py_strip (List.last l "") = py_strip (List.last k "") ∧
     (2 < length k → ratio_at_least matched 50 (joined (removelast (tail l))) (joined (removelast (tail k))) = true)).
  cbv zeta. rewrite Hb. fold k. split_and!; [|done|done|].
  - unfold b. rewrite length_take, length_skipn, unicode_lines, length_fmap. lia.
  - intros Hlong. apply orb_true_iff in Hmid as [?%Nat.leb_le|Hr]; [lia|].
    revert Hr. destruct (_ =? 1); [done|apply ratio_weaker].
Qed.

Lemma matches_stand content old name find r : str_true old = true → (name, find) ∈ strategies matched → r ∈ find content old →
  within content r ∧ stands_for name (slice content r) old.
Proof.
  intros Ho Hin Hr. unfold strategies in Hin.
  apply elem_of_cons in Hin as [[= -> ->]|Hin]; [by apply strategy_exact_within in Hr as (? & ? & _)|].
  apply elem_of_cons in Hin as [[= -> ->]|Hin]; [apply (normalized_lines _ _ _ _ strip_line Hr)|].
  apply elem_of_cons in Hin as [[= -> ->]|Hin].
  { unfold strategy_whitespace_normalized in Hr. apply list_elem_of_fmap in Hr as (q & -> & Hq).
    apply strategy_exact_within in Hq as ([Hq1 Hq2] & Hs & Hl). pose proof (collapse_some false old eq_refl Ho).
    destruct (normalized_region content q ltac:(lia) Hq2) as [Hw Hsq]. split; [done|].
    change (squeeze (slice content (map_normalized_region content (collapse false content) q)) = squeeze old).
    by rewrite Hsq, Hs, squeeze_collapse. }
  apply elem_of_cons in Hin as [[= -> ->]|Hin]; [apply (normalized_lines _ _ _ _ lstrip_line Hr)|].
  apply elem_of_cons in Hin as [[= -> ->]|Hin].
  { unfold strategy_escape_normalized in Hr. destruct (String.eqb _ old); [by apply not_elem_of_nil in Hr|]. by apply strategy_exact_within in Hr as (? & ? & _). }
  apply elem_of_cons in Hin as [[= -> ->]|Hin].
  { unfold strategy_trimmed_boundary in Hr. rewrite trim_boundary_length in Hr.
    apply block_matches_elem in Hr as (i & _ & Hi & Ht%String.eqb_eq & Hw & Hs); [|done|apply lines_count]. split; [done|].
    change (trim_boundary (text_lines (slice content r)) = trim_boundary (text_lines old)). rewrite <- Hs in Ht.
    apply joined_inj in Ht; [done|apply trim_boundary_some, text_lines_some|apply trim_boundary_some, text_lines_some|apply trim_boundary_lines, lines_are_lines|
      apply trim_boundary_lines, lines_are_lines]. }
  apply elem_of_cons in Hin as [[= -> ->]|Hin]; [by apply unicode_matches|].
  apply elem_of_cons in Hin as [[= -> ->]|Hin]; [by apply anchored_matches|].
  apply elem_of_cons in Hin as [[= -> ->]|Hin]; [|by apply not_elem_of_nil in Hin].
  unfold strategy_context_aware in Hr. apply block_matches_elem in Hr as (i & _ & Hi & Ht & Hw & Hs); [|done|apply lines_count]. split; [done|].
  apply andb_true_iff in Ht as [_ Ht]. rewrite <- Hs in Ht. rewrite forallb_forall in Ht.
  change (length (text_lines (slice content r)) = length (text_lines old) ∧
    ∀ p, p ∈ zip (text_lines old) (text_lines (slice content r)) → str_true (py_strip p.1) = true → similar matched (py_strip p.1) (py_strip p.2) = true).
  split; [rewrite Hs, length_take, length_skipn; lia|]. intros p Hp%list_elem_of_In Hb. apply Ht in Hp. by rewrite Hb in Hp.
Qed.

Lemma try_strategies_spec content old new all l : let e := try_strategies opcodes content old new all l in
  e = no_edit content "Could not find a match for old_string in the file" ∨
  ∃ earlier name find later, l = earlier ++ (name, find) :: later ∧ (∀ s, s ∈ earlier → s.2 content old = []) ∧ find content old ≠ [] ∧
    e = replace_found opcodes content old new all name (find content old).
Proof.
  induction l as [|[name find] l IH]; [by left|]. cbn. destruct (find content old) as [|r rest] eqn:Hf.
  - destruct IH as [->|(earlier & n & f & later & -> & Hn & Hf' & ->)]; [by left|]. right. exists ((name, find) :: earlier), n, f, later.
    split_and!; try done. intros s [->|Hs]%elem_of_cons; [done|by apply Hn].
  - right. exists [], name, find, l. rewrite Hf. split_and!; try done. intros s Hs. by apply not_elem_of_nil in Hs.
Qed.


(** C16: (equivalence) where the old text occurs as it is, an edit is
    [str.replace]: of its one occurrence, or of all of them where all are
    asked for, with the new text as the transport would have sent it; where
    it occurs more than once and not all are asked for nothing is changed. *)
Theorem an_exact_edit_is_a_replacement content old new all :
  let found := strategy_exact content old in
  str_true (py_strip old) = true → old ≠ new → contains old content = true →
  edit_of content old new all =
    if (1 <? length found)%nat && negb all then no_edit content (too_many content found)
    else mk_edit (replace_text old (maybe_unescape_new_string new content found) content) (length found) (Some "exact") None.
Proof.
  intros found Hold Hne Hin. unfold fuzzy_find_and_replace.
  assert (str_true old = true) as Ho by by destruct old. rewrite Ho, Hold, (proj2 (String.eqb_neq _ _) Hne). cbn [negb].
  assert (found ≠ []) as Hf by (intros He%strategy_exact_some; congruence).
  unfold strategies. cbn [try_strategies]. fold found. destruct found as [|r l] eqn:Hfound; [done|]. rewrite <- Hfound.
  unfold replace_found. destruct ((1 <? length found)%nat && negb all); [done|].
  rewrite (bool_decide_eq_false_2 ("exact" ∈ SIMILARITY_STRATEGIES)) by (vm_compute; intros Hx; by repeat (apply elem_of_cons in Hx as [?|Hx]; [done|]); apply not_elem_of_nil in Hx).
  rewrite andb_false_r. destruct (strategy_exact_spec content old Ho) as (Ha & _ & Hr).
  change (String.eqb "exact" "exact") with true. change (String.eqb "exact" "unicode_normalized") with false. cbn match.
  rewrite apply_ascending by exact Ha. f_equal. apply Hr.
Qed.
End edits.

(** ** Runs *)

Module Examples.
Definition nothing_matched (a b : string) : nat := 0.
Definition no_opcodes (a b : string) : list opcode := [].
Definition edit_of := fuzzy_find_and_replace nothing_matched no_opcodes.

Definition source : string := joined ["def f():"; "    return  1"; ""; "def g():"; "    return  1"].

Example a_block_is_reindented :
  edit_of source (joined ["def g():"; "  return  1"]) (joined ["def g():"; "  x = 2"; "  return x"]) false
  = mk_edit (joined ["def f():"; "    return  1"; ""; "def g():"; "  x = 2"; "  return x"]) 1 (Some "line_trimmed") None.
Proof. vm_compute. reflexivity. Qed.

Example an_indented_line_keeps_its_place :
  edit_of (joined ["if x:"; "        a =  1"]) "a = 1" "a = 2" false
  = mk_edit (joined ["if x:"; "        a = 2"]) 1 (Some "whitespace_normalized") None.
Proof. vm_compute. reflexivity. Qed.

Example two_places_are_named : ed_error (edit_of source "return  1" "return 2" false)
  = Some ("Found 2 matches for old_string. Provide more context to make it unique, or use replace_all=True. Matches:" +:+ String newline ""
          +:+ "  L2: return  1" +:+ String newline "" +:+ "  L5: return  1").
Proof. vm_compute. reflexivity. Qed.

Definition repeated_lines : string := joined [" one"; " one"; " one"; "end"; "keep this line"].

(** Blocks of lines that overlap are all replaced, each from where it was:
    text that was in no match is lost. *)
Example overlapping_blocks_lose_text :
  let e := edit_of repeated_lines (joined ["one"; "one"]) "x" true in
  ed_error e = None ∧ ed_count e = 2 ∧ ed_content e = joined [" xnd"; "keep this line"] ∧
  let removed := edit_of repeated_lines (joined ["one"; "one"]) "" true in
  ed_error removed = None ∧ ed_content removed = joined [""; "keep this line"].
Proof. vm_compute. split_and!; reflexivity. Qed.

Lemma an_exact_edit_is_a_replacement_witness :
  edit_of source "return  1" "return 2" true = mk_edit (replace_text "return  1" "return 2" source) 2 (Some "exact") None.
Proof.
  exact (an_exact_edit_is_a_replacement nothing_matched no_opcodes source "return  1" "return 2" true eq_refl ltac:(discriminate) eq_refl).
Defined.
End Examples.
