(* ===== verification/FileTools.v ===== *)
(** * The file tools of the coding core: [client/agent/tools.py]

    Reading a window of a file, patching and writing one, and what the tools
    remember of a turn: which reads were answered, when each file was last
    seen, how often a patch failed; with the helpers of
    [client/agent/hermes/file_helpers.py] and [binary_extensions.py].
    The file system, the linters, [difflib] and the JSON text are parameters;
    a byte order mark is no text of the model. *)

From Stdlib Require Import Ascii.
From S2P Require Import Prelude Texts Values Shell FuzzyMatch.

#[local] Open Scope Z_scope.
Open Scope py_scope.

(** ** The file system *)

(** What a path names, links followed. *)
Inductive file_kind := Missing | Regular | Directory | Fifo | Socket | CharacterDevice | BlockDevice | OtherSpecial.
#[export] Instance file_kind_eq : EqDecision file_kind.
Proof. solve_decision. Defined.

Class Files (W : Type) := {
  kind_of : string → W → file_kind;
  (** None where the file cannot be asked *)
  getmtime : string → W → option Z;
  bytes_of : string → W → string;
  (** what [ls -1] prints of a directory, under a locale; nothing where it
      fails *)
  ls_output : string → option string → W → string;
}.

Definition exists_ {W} `{Files W} (path : string) (w : W) : bool := negb (bool_decide (kind_of path w = Missing)).
Definition isfile {W} `{Files W} (path : string) (w : W) : bool := bool_decide (kind_of path w = Regular).

(** ** Paths *)

(** Before and after the last such character. *)
Fixpoint split_last (c : ascii) (s : string) : option (string * string) :=
  match s with
  | EmptyString => None
  | String d s' =>
      match split_last c s' with
      | Some (a, b) => Some (String d a, b)
      | None => if Ascii.eqb d c then Some ("", s') else None
      end
  end.

Definition base_of (path : string) : string := match split_last slash path with Some (_, name) => name | None => path end.

(** [os.path.dirname]: the slashes before the name go too, unless there is
    nothing else. *)
Definition dirname (path : string) : string :=
  match split_last slash path with
  | Some (directory, _) =>
      if all_chars (Ascii.eqb slash) directory then String slash directory else rstrip_chars "/" directory
  | None => ""
  end.

(** [os.path.splitext] *)
Definition splitext (path : string) : string * string :=
  match split_last "."%char path with
  | Some (stem, ext) =>
      if contains "/" ext || all_chars (Ascii.eqb "."%char) (base_of stem) then (path, "") else (stem, "." +:+ ext)
  | None => (path, "")
  end.
Definition extension (path : string) : string := py_lower (splitext path).2.

Definition BINARY_EXTENSIONS : list string :=
  [".png"; ".jpg"; ".jpeg"; ".gif"; ".bmp"; ".ico"; ".webp"; ".tiff"; ".tif";
   ".mp4"; ".mov"; ".avi"; ".mkv"; ".webm"; ".wmv"; ".flv"; ".m4v"; ".mpeg"; ".mpg";
   ".mp3"; ".wav"; ".ogg"; ".flac"; ".aac"; ".m4a"; ".wma"; ".aiff"; ".opus";
   ".zip"; ".tar"; ".gz"; ".bz2"; ".7z"; ".rar"; ".xz"; ".z"; ".tgz"; ".iso";
   ".exe"; ".dll"; ".so"; ".dylib"; ".bin"; ".o"; ".a"; ".obj"; ".lib"; ".app"; ".msi"; ".deb"; ".rpm";
   ".doc"; ".docx"; ".xls"; ".xlsx"; ".ppt"; ".pptx"; ".odt"; ".ods"; ".odp";
   ".ttf"; ".otf"; ".woff"; ".woff2"; ".eot";
   ".pyc"; ".pyo"; ".class"; ".jar"; ".war"; ".ear"; ".node"; ".wasm"; ".rlib";
   ".sqlite"; ".sqlite3"; ".db"; ".mdb"; ".idx";
   ".psd"; ".ai"; ".eps"; ".sketch"; ".fig"; ".xd"; ".blend"; ".3ds"; ".max";
   ".swf"; ".fla"; ".lockb"; ".dat"; ".data"].

Definition has_binary_extension (path : string) : bool :=
  match split_last "."%char path with
  | Some (_, ext) => bool_decide (py_lower ("." +:+ ext) ∈ BINARY_EXTENSIONS)
  | None => false
  end.

(** ** Line endings and bytes *)

Definition crlf : string := String carriage_return (String newline "").

Definition detect_line_ending (sample : string) : option string :=
  let head := upto 4096 sample in
  if contains crlf head then Some crlf else if contains (String newline "") head then Some (String newline "") else None.

Definition normalize_line_endings (text target : string) : string :=
  let lf_normalized := replace_text (String carriage_return "") (String newline "") (replace_text crlf (String newline "") text) in
  if String.eqb target (String newline "") then lf_normalized else
  if String.eqb target crlf then replace_text (String newline "") crlf lf_normalized else text.

Definition of_codes (l : list N) : string := foldr (λ n s, String (ascii_of_N n) s) "" l.

Definition ISO_MEDIA : string := "ISO media container (MP4/MOV family)".
Definition MAGIC_SIGNATURES : list (string * string) :=
  [(of_codes [137; 80; 78; 71; 13; 10; 26; 10]%N, "PNG image data"); (of_codes [255; 216; 255]%N, "JPEG image data");
   ("GIF87a", "GIF image data"); ("GIF89a", "GIF image data"); ("RIFF", "RIFF container (WAV/AVI/WebP family)"); ("%PDF-", "PDF document");
   ("PK" +:+ of_codes [3; 4]%N, "ZIP archive (also docx/xlsx/jar/apk)"); ("PK" +:+ of_codes [5; 6]%N, "ZIP archive (empty)");
   (of_codes [31; 139]%N, "gzip compressed data"); ("BZh", "bzip2 compressed data"); (of_codes [253; 55; 122; 88; 90; 0]%N, "xz compressed data");
   ("7z" +:+ of_codes [188; 175; 39; 28]%N, "7-Zip archive"); (of_codes [127; 69; 76; 70]%N, "ELF executable"); ("MZ", "Windows PE executable");
   (of_codes [207; 250; 237; 254]%N, "Mach-O executable (64-bit)"); (of_codes [202; 254; 186; 190]%N, "Mach-O universal binary / Java class");
   ("SQLite format 3" +:+ of_codes [0]%N, "SQLite database"); ("OggS", "Ogg container"); ("fLaC", "FLAC audio"); ("ID3", "MP3 audio (ID3 tag)");
   (of_codes [0; 0; 0]%N, ISO_MEDIA); ("BM", "BMP image data"); ("II*" +:+ of_codes [0]%N, "TIFF image data (little-endian)");
   ("MM" +:+ of_codes [0; 42]%N, "TIFF image data (big-endian)")].

Definition identify_binary_bytes (sample : string) : string :=
  default "unknown binary" (snd <$> List.find (λ s, String.prefix s.1 sample
    && negb (String.prefix "ISO media" s.2 && negb (String.eqb (slice sample (4, 8)%nat) "ftyp"))) MAGIC_SIGNATURES).

(** [f"{n / unit:.1f}"]: the quotient is exact in binary, and a tie goes to
    the even digit. *)
Definition one_decimal (n unit : Z) : string :=
  let q := (10 * n) / unit in
  let r := (10 * n) mod unit in
  let tenths := if (2 * r <? unit) || ((2 * r =? unit) && Z.even q) then q else q + 1 in
  pretty (tenths / 10) +:+ "." +:+ pretty (tenths mod 10).

Definition describe_binary_file (sample : string) (file_size : Z) : string :=
  let size := if 1024 * 1024 <=? file_size then one_decimal file_size (1024 * 1024) +:+ " MB"
              else if 1024 <=? file_size then one_decimal file_size 1024 +:+ " KB" else pretty file_size +:+ " bytes" in
  "Binary file (" +:+ identify_binary_bytes sample +:+ ", " +:+ size +:+ ") -- cannot display as text.".

(** Where the longest part of the bytes that is text ends. *)
Fixpoint valid_prefix (n : nat) (s : string) : nat := if valid_utf8 (upto n s) then n else match n with O => O | S n => valid_prefix n s end.

(** Bytes of a sequence that is not complete: a text that was cut. *)
Definition is_likely_binary_bytes (sample : string) : bool :=
  if contains (of_codes [0%N]) sample then true else
  let n := String.length sample in
  negb (n - 3 <=? valid_prefix n sample)%nat.

Definition truncate_to_char_budget (content : string) (max_chars : nat) : string * nat :=
  if (String.length content <=? max_chars)%nat then (content, if str_true content then S (count_char newline content) else 0%nat) else
  let fix kept (first : bool) (running : nat) (l : list string) : list string :=
    match l with
    | [] => []
    | line :: l =>
        let addition := (String.length line + if first then 0 else 1)%nat in
        if (max_chars <? running + addition)%nat then [] else line :: kept false (running + addition)%nat l
    end in
  match kept true 0%nat (text_lines content) with
  | [] => (upto max_chars (hd "" (text_lines content)), 1%nat)
  | l => (joined l, length l)
  end.

(** ** What no file should hold *)

Definition READ_DEDUP_STATUS_MESSAGE : string :=
  "File unchanged since last read. The content from the earlier read_file result in this conversation is still current -- refer to that instead of re-reading.".

Definition is_internal_file_status_text (content : string) : bool :=
  let stripped := py_strip content in
  str_true stripped &&
  (String.eqb stripped READ_DEDUP_STATUS_MESSAGE
   || contains READ_DEDUP_STATUS_MESSAGE stripped && (String.length stripped <=? 2 * String.length READ_DEDUP_STATUS_MESSAGE)%nat).

(** [str.isdigit], where a superscript counts, and [int], where it is an
    error ([None]). *)
Definition is_superscript (c : ascii) : bool := Ascii.eqb c "178" || Ascii.eqb c "179" || Ascii.eqb c "185".
Definition isdigit (s : string) : bool := str_true s && all_chars (λ c, is_digit c || is_superscript c) s.

(** The numbers that are displayed before the lines; [None] where one of them
    raises. *)
Fixpoint displayed_numbers (l : list string) : option (list Z) :=
  match l with
  | [] => Some []
  | line :: l =>
      let '(prefix, rest) := partition "|" (py_lstrip line) in
      if bool_decide (is_Some rest) && isdigit prefix then n ← int_of_str prefix; ns ← displayed_numbers l; Some (n :: ns)
      else displayed_numbers l
  end.

Definition consecutive_pairs (l : list Z) : nat := length (List.filter (λ p, p.2 =? p.1 + 1) (zip l (tail l))).

Definition looks_like_read_file_line_numbered_content (content : string) : option bool :=
  let lines := List.filter (λ line, str_true (py_strip line)) (splitlines content) in
  if (length lines <? 2)%nat then Some false else
  numbered ← displayed_numbers lines;
  Some ((2 <=? length numbered)%nat && (6 * length lines <=? 10 * length numbered)%nat
        && (length numbered - 1 <=? consecutive_pairs numbered)%nat).

Definition is_internal_file_tool_content (content : string) : option bool :=
  if is_internal_file_status_text content then Some true else looks_like_read_file_line_numbered_content content.

(** ** What the tools remember *)

(** The last call that may not be repeated for ever. *)
Inductive call_key :=
  | ReadKey (display : string) (offset limit : Z)
  | SearchKey (pattern target path file_glob : string) (limit offset : Z).
#[export] Instance call_key_eq : EqDecision call_key.
Proof. solve_decision. Defined.

(** A region of a file, as the reader asked for it. *)
Abbreviation read_region := (string * Z * Z)%type.

Record memory := mk_memory {
  last_key : option call_key;
  consecutive : Z;
  read_history : gset read_region;
  dedup : dict read_region Z;
  dedup_hits : dict read_region Z;
  read_timestamps : dict string Z;
  patch_failures : dict string Z;
  file_stamps : dict string (Z * bool);
}.
#[export] Instance memory_eta : Eta memory :=
  λ m, mk_memory m.(last_key) m.(consecutive) m.(read_history) m.(dedup) m.(dedup_hits) m.(read_timestamps) m.(patch_failures) m.(file_stamps).

Definition new_state : memory := mk_memory None 0 ∅ [] [] [] [] [].

(** [d.pop(k, None)] *)
Definition dict_pop {K V} `{EqDecision K} (k : K) (d : dict K V) : dict K V := List.filter (λ e, negb (bool_decide (e.1 = k))) d.

Definition reset_dedup (m : memory) : memory := m <| dedup := [] |> <| dedup_hits := [] |>.

Definition is_of (resolved : string) (key : read_region) : bool := String.eqb key.1.1 resolved.

Definition invalidate_path (resolved : string) (m : memory) : memory :=
  let keys := List.filter (is_of resolved) (dict_keys m.(dedup)) in
  m <| dedup := foldl (λ d k, dict_pop k d) m.(dedup) keys |> <| dedup_hits := foldl (λ d k, dict_pop k d) m.(dedup_hits) keys |>.

(** [_coerce_int]; [truncated] is what [int] makes of a float's literal. *)
Definition coerce_int (truncated : string → option Z) (value : json) (other : Z) : Z :=
  default other (match value with
                 | JInt n => Some n
                 | JBool b => Some (if b then 1 else 0)
                 | JFloat lit => truncated lit
                 | JStr s => int_of_str s
                 | _ => None
                 end).

Definition MAX_LINES : Z := 2000.
Definition MAX_LINE_LENGTH : nat := 2000.
Definition MAX_READ_CHARS : nat := 100000.
Definition LARGE_FILE_HINT_BYTES : Z := 512000.
Definition DEFAULT_READ_LIMIT : Z := 500.
Definition MAX_TOOL_ERROR_CHARS : nat := 2048.
Definition TOOL_ERROR_TRUNCATION_MARKER : string := "... [truncated]".

Definition bound_error_text (text : string) : string :=
  if (String.length text <=? MAX_TOOL_ERROR_CHARS)%nat then text else upto MAX_TOOL_ERROR_CHARS text +:+ TOOL_ERROR_TRUNCATION_MARKER.

(** [f"{n:,}"] of a number that is not negative. *)
Fixpoint thousands (fuel : nat) (n : Z) : string :=
  match fuel with
  | O => ""
  | S fuel =>
      if n <? 1000 then pretty n
      else thousands fuel (n / 1000) +:+ "," +:+ (if n mod 1000 <? 10 then "00" else if n mod 1000 <? 100 then "0" else "") +:+ pretty (n mod 1000)
  end.
Definition grouped (n : Z) : string := thousands (S (Z.to_nat (Z.log2 n))) n.

Section tools.
  Context {W : Type} `{Files W}.
  (** [difflib]: how many characters two texts share, how one becomes the
      other, and the unified diff with its label; whether a content of an
      extension can be parsed, and why not. *)
  Context (matched : string → string → nat) (opcodes : string → string → list opcode) (unified_diff : string → string → string → string).
  Context (parses : string → string → bool * string).
  (** Bytes as text, by what is done with bytes that are none; what [int]
      makes of a float; the text of a JSON value, with other characters
      escaped or not. *)
  Context (decode : string → string → string) (truncated : string → option Z) (dumps_ascii dumps : json → string) (loads : string → option json)
    (repr : string → string).

(** ** Errors *)

Definition tool_error (message : string) (extra : dict string json) : string :=
  dumps (JObj (foldl (λ d e, dict_set e.1 e.2 d) [("error", JStr (bound_error_text message))] extra)).

Definition bound_json_error_result (result : string) : string :=
  if (String.length result <=? MAX_TOOL_ERROR_CHARS)%nat || negb (contains (dquote +:+ "error" +:+ dquote) result) then result else
  match loads result with
  | Some (JObj payload) =>
      match get_or_null payload "error" with
      | JStr error => if (String.length error <=? MAX_TOOL_ERROR_CHARS)%nat then result
                      else dumps (JObj (dict_set "error" (JStr (bound_error_text error)) payload))
      | _ => result
      end
  | _ => result
  end.

(** ** Stamps *)

Definition record_read (resolved : string) (partial : bool) (w : W) (m : memory) : memory :=
  match getmtime resolved w with
  | Some mtime => m <| file_stamps := dict_set resolved (mtime, partial) m.(file_stamps) |>
  | None => m
  end.
Definition note_write (resolved : string) (w : W) (m : memory) : memory := record_read resolved false w m.

Definition check_stale (m : memory) (resolved : string) (w : W) : option string :=
  '(read_mtime, partial) ← dict_get m.(file_stamps) resolved;
  current_mtime ← getmtime resolved w;
  if negb (current_mtime =? read_mtime) then
    Some (resolved +:+ " was modified since you last read it on disk (external edit or unrecorded writer). Re-read the file before writing.")
  else if (partial : bool) then
    Some (resolved +:+ " was last read with offset/limit pagination (partial view). Re-read the whole file before overwriting it.")
  else None.

Definition staleness (m : memory) (display resolved : string) (w : W) : option string :=
  read_mtime ← dict_get m.(read_timestamps) resolved;
  current_mtime ← getmtime resolved w;
  if negb (current_mtime =? read_mtime) then
    Some ("Warning: " +:+ display +:+ " was modified since you last read it (external edit or concurrent agent). The content you read may be stale. Consider re-reading the file to verify before writing.")
  else None.

Definition write_warning (m : memory) (display resolved : string) (w : W) : option string :=
  match check_stale m resolved w with Some why => Some why | None => staleness m display resolved w end.

Definition after_write (resolved : string) (w : W) (m : memory) : memory :=
  let m := note_write resolved w (invalidate_path resolved m) in
  match getmtime resolved w with
  | Some mtime => m <| read_timestamps := dict_set resolved mtime m.(read_timestamps) |>
  | None => m
  end.

(** ** Reading *)

Fixpoint letters (s : string) : list string := match s with EmptyString => [] | String c s => String c "" :: letters s end.

Definition similar_score (display_name entry : string) : Z :=
  let lower_name := py_lower display_name in
  let lf := py_lower entry in
  let '(stem, ext) := splitext display_name in
  let ext := py_lower ext in
  let shared := length (List.filter (λ c, contains c lf) (unique (letters lower_name))) in
  let score :=
    if String.eqb lf lower_name then 100 else
    if String.eqb (py_lower (splitext entry).1) (py_lower stem) then 90 else
    if String.prefix lower_name lf || String.prefix lf lower_name then 70 else
    if contains lower_name lf then 60 else
    if contains lf lower_name && (2 <? String.length lf)%nat then 40 else
    if str_true ext && String.eqb (extension entry) ext
       && (2 * Nat.max (String.length lower_name) (String.length lf) <=? 5 * shared)%nat then 30 else 0 in
  if (score =? 0) && ratio_at_least matched 80 lower_name lf then 50 else score.

Fixpoint insert_score (x : Z * string) (l : list (Z * string)) : list (Z * string) :=
  match l with
  | [] => [x]
  | y :: l => if y.1 <=? x.1 then x :: y :: l else y :: insert_score x l
  end.

(** The names of the directory that resemble what was asked for, best
    first. *)
Definition similar_files (display resolved : string) (collation : option string) (w : W) : list string :=
  let directory := str_or (dirname display) "." in
  let scored := omap (λ f, let score := similar_score (base_of display) f in
                           if 0 <? score then Some (score, path_join directory f) else None)
                  (take 50 (List.filter str_true (text_lines (py_strip (ls_output (dirname resolved) collation w))))) in
  take 5 (snd <$> foldr insert_score [] scored).

Definition read_result (content : string) (total_lines file_size : Z) (cut is_binary : bool) (hint : option string) : dict string json :=
  [("content", JStr content); ("total_lines", JInt total_lines); ("file_size", JInt file_size); ("truncated", JBool cut)]
  ++ match hint with Some h => [("hint", JStr h)] | None => [] end
  ++ [("is_binary", JBool is_binary); ("is_image", JBool false)].

(** A line with its number, cut where it is too long. *)
Definition numbered_line (number : Z) (line : string) : string :=
  let line := upto (4 * MAX_LINE_LENGTH + 1) line in
  pretty number +:+ "|" +:+ (if (MAX_LINE_LENGTH <? String.length line)%nat then upto MAX_LINE_LENGTH line +:+ "... [truncated]" else line).

Definition numbered (from : Z) (window : list string) : string :=
  joined (imap (λ i line, numbered_line (from + Z.of_nat i) line) window).

(** The lines of a text, the empty one after the last line break apart. *)
Definition lines_of_text (text : string) : list string :=
  if ends_with (String newline "") text then removelast (text_lines text) else text_lines text.

Definition read_window (display resolved : string) (offset limit : Z) (collation : option string) (w : W) : dict string json :=
  if negb (exists_ resolved w) then
    read_result "" 0 0 false false None ++ [("error", JStr ("File not found: " +:+ display))]
    ++ match similar_files display resolved collation w with [] => [] | l => [("similar_files", JList (JStr <$> l))] end
  else if negb (isfile resolved w) then
    read_result "" 0 0 false false None
    ++ [("error", JStr ("Cannot read '" +:+ display +:+ "': not a regular file (directory, FIFO, socket, or device). Reading it could block indefinitely."))]
  else
  let data := bytes_of resolved w in
  let file_size := Z.of_nat (String.length data) in
  let sample := upto 1000 data in
  if has_binary_extension resolved || is_likely_binary_bytes sample then
    read_result "" 0 file_size false true None ++ [("error", JStr (describe_binary_file sample file_size))]
  else if file_size =? 0 then read_result "" 0 0 false false (Some "File is empty (0 bytes).")
  else
  let text := decode "replace" data in
  let end_line := offset + limit - 1 in
  let total_lines := Z.of_nat (count_char newline text) in
  let lines := lines_of_text text in
  if (total_lines <? offset) && (0 <? total_lines) && (Z.of_nat (length lines) <? offset) then
    read_result "" total_lines file_size false false
      (Some ("Note: offset " +:+ pretty offset +:+ " is beyond the end of the file (" +:+ pretty total_lines
             +:+ " lines total). Retry with offset <= " +:+ pretty total_lines +:+ "."))
  else
  let window := take (Z.to_nat limit) (skipn (Z.to_nat (offset - 1)) lines) in
  let cut := end_line <? total_lines in
  let window := if bool_decide (window ≠ []) && (cut || ends_with (String newline "") text) then window ++ [""] else window in
  read_result (numbered offset window) total_lines file_size cut false
    (if cut then Some ("Use offset=" +:+ pretty (end_line + 1) +:+ " to continue reading (showing " +:+ pretty offset +:+ "-" +:+ pretty end_line
                       +:+ " of " +:+ pretty total_lines +:+ " lines)")
     else None).

Definition special_file_kind (resolved : string) (w : W) : option string :=
  match kind_of resolved w with
  | Missing | Regular | Directory => None
  | Fifo => Some "a FIFO (named pipe)"
  | Socket => Some "a socket"
  | CharacterDevice => Some "a character device"
  | BlockDevice => Some "a block device"
  | OtherSpecial => Some "a special (non-regular) file"
  end.

(** What is read, cut to the budget of characters. *)
Definition within_budget (offset : Z) (result : dict string json) : dict string json :=
  match get_or_null result "content" with
  | JStr content =>
      if (String.length content <=? MAX_READ_CHARS)%nat then result else
      let '(trimmed, lines_kept) := truncate_to_char_budget content MAX_READ_CHARS in
      let next_offset := offset + Z.of_nat lines_kept in
      let total := match get_or_null result "total_lines" with JInt n => pretty n | _ => "unknown" end in
      let hint := "Output truncated at the " +:+ grouped (Z.of_nat MAX_READ_CHARS) +:+ "-char read budget after " +:+ pretty lines_kept
                  +:+ " line(s) (showing lines " +:+ pretty offset +:+ "-" +:+ pretty (next_offset - 1) +:+ " of " +:+ total
                  +:+ "). Use offset=" +:+ pretty next_offset +:+ " to continue." in
      let clamped := (MAX_READ_CHARS <=? String.length (hd "" (text_lines trimmed)))%nat in
      let updates := [("content", JStr trimmed); ("truncated", JBool true); ("truncated_by", JStr "bytes"); ("next_offset", JInt next_offset);
                      ("hint", JStr (if clamped then hint +:+ " Note: the first line alone exceeded the budget and was clamped mid-line; its remainder is not retrievable via offset."
                                     else hint))] in
      foldl (λ d e, dict_set e.1 e.2 d) result updates
  | _ => result
  end.

Definition is_truncated (result : dict string json) : bool := match get_or_null result "truncated" with JBool b => b | _ => false end.

Definition large_file_hint (limit : Z) (result : dict string json) : dict string json :=
  match get_or_null result "file_size" with
  | JInt file_size =>
      if (LARGE_FILE_HINT_BYTES <? file_size) && (200 <? limit) && is_truncated result && negb (dict_mem "_hint" result) then
        dict_set "_hint" (JStr ("This file is large (" +:+ grouped file_size +:+ " bytes). Consider reading only the section you need with offset and limit to keep context usage efficient.")) result
      else result
  | _ => result
  end.

Definition UNCHANGED_MESSAGE : string := READ_DEDUP_STATUS_MESSAGE.

(** A region that was answered and whose file has not changed since. *)
Definition unchanged_read (display : string) (key : read_region) (w : W) (m : memory) : option (memory * string) :=
  cached_mtime ← dict_get m.(dedup) key;
  mtime ← getmtime key.1.1 w;
  if negb (mtime =? cached_mtime) then None else
  let hits := dict_get_default m.(dedup_hits) key 0 + 1 in
  let m := m <| dedup_hits := dict_set key hits m.(dedup_hits) |> in
  Some (m, if 2 <=? hits then
             tool_error ("BLOCKED: You have called read_file on this exact region " +:+ pretty (hits + 1)
               +:+ " times and the file has NOT changed. STOP calling read_file for this path -- the content from your earlier read_file result in this conversation is still current. Proceed with your task using the information you already have.")
               [("path", JStr display); ("already_read", JInt (hits + 1))]
           else dumps (JObj [("status", JStr "unchanged"); ("message", JStr UNCHANGED_MESSAGE); ("path", JStr display); ("dedup", JBool true);
                             ("content_returned", JBool false)])).

(** [state["last_key"] == key], counted. *)
Definition count_call (key : call_key) (m : memory) : memory :=
  if bool_decide (m.(last_key) = Some key) then m <| consecutive := m.(consecutive) + 1 |> else m <| last_key := Some key |> <| consecutive := 1 |>.

Definition stamp_read (key : read_region) (w : W) (m : memory) : memory :=
  match getmtime key.1.1 w with
  | Some mtime => m <| dedup := dict_set key mtime m.(dedup) |> <| read_timestamps := dict_set key.1.1 mtime m.(read_timestamps) |>
  | None => m
  end.

Definition remember_read (display : string) (key : read_region) (cut : bool) (w : W) (m : memory) : memory :=
  let '(resolved, offset, limit) := key in
  let m := m <| dedup_hits := dict_pop key m.(dedup_hits) |> <| read_history := {[(display, offset, limit)]} ∪ m.(read_history) |> in
  record_read resolved ((1 <? offset) || cut) w (stamp_read key w (count_call (ReadKey display offset limit) m)).

Definition read_file (display resolved : string) (offset_ limit_ : json) (collation : option string) (w : W) (m : memory) : memory * string :=
  let offset := Z.max 1 (coerce_int truncated offset_ 1) in
  let limit := Z.max 1 (Z.min (coerce_int truncated limit_ DEFAULT_READ_LIMIT) MAX_LINES) in
  match special_file_kind resolved w with
  | Some kind =>
      (m, dumps_ascii (JObj [("success", JBool false);
            ("note", JStr ("'" +:+ display +:+ "' is " +:+ kind +:+ ", not a regular file -- reading it would block indefinitely, so no read was attempted. Use terminal utilities if you need to interact with it."))]))
  | None =>
  if exists_ resolved w && has_binary_extension resolved then
    (m, tool_error ("Cannot read binary file '" +:+ display +:+ "' (" +:+ extension resolved
          +:+ "). Use vision_analyze for images, or terminal to inspect binary files.") [])
  else
  match unchanged_read display (resolved, offset, limit) w m with
  | Some answer => answer
  | None =>
      let result := large_file_hint limit (within_budget offset (read_window display resolved offset limit collation w)) in
      match get_or_null result "error" with
      | JStr _ => (m, dumps (JObj result))
      | _ =>
          let m := remember_read display (resolved, offset, limit) (is_truncated result) w m in
          let count := m.(consecutive) in
          if 4 <=? count then
            (m, tool_error ("BLOCKED: You have read this exact file region " +:+ pretty count
                  +:+ " times in a row. The content has NOT changed. You already have this information. STOP re-reading and proceed with your task.")
                  [("path", JStr display); ("already_read", JInt count)])
          else
            (m, dumps (JObj (if 3 <=? count then
                   dict_set "_warning" (JStr ("You have read this exact file region " +:+ pretty count
                     +:+ " times consecutively. The content has not changed since your last read. Use the information you already have. If you are stuck in a loop, stop reading and proceed with writing or responding.")) result
                 else result)))
      end
  end
  end.

(** ** What an edit did to the syntax *)

Definition LINTERS_INPROC : list string := [".py"; ".json"; ".yaml"; ".yml"; ".toml"].
Definition FAIL_CLOSED_INPROC_EXTS : list string := [".json"; ".yaml"; ".yml"; ".toml"].

Definition lint_status (status : string) (fields : dict string json) : json := JObj (("status", JStr status) :: fields).

Definition lint_delta (path : string) (pre : option string) (post : string) : json :=
  let ext := extension path in
  if negb (bool_decide (ext ∈ LINTERS_INPROC)) then lint_status "skipped" [("message", JStr ("No linter for " +:+ ext +:+ " files"))] else
  let '(fine, err) := parses ext post in
  if String.eqb err "__SKIP__" then lint_status "skipped" [("message", JStr ("No linter available for " +:+ ext +:+ " (missing dependency)"))] else
  match pre with
  | None => lint_status (if fine then "ok" else "error") [("output", JStr (if fine then "" else err))]
  | Some pre =>
      if fine then lint_status "ok" [("output", JStr "")] else
      let '(pre_ok, pre_err) := parses ext pre in
      if pre_ok || negb (str_true pre_err) || String.eqb pre_err "__SKIP__" then lint_status "error" [("output", JStr err)] else
      let pre_lines := List.filter str_true (py_strip <$> splitlines pre_err) in
      match List.filter (λ line, str_true (py_strip line) && negb (bool_decide (py_strip line ∈ pre_lines))) (splitlines err) with
      | [] => lint_status "error" [("output", JStr err);
                ("message", JStr "Pre-existing lint errors -- this edit didn't introduce new ones but the file is still broken.")]
      | new => lint_status "error" [("output", JStr ("New lint errors introduced by this edit (pre-existing errors filtered out):"
                                                     +:+ String newline "" +:+ joined new))]
      end
  end.

(** ** What the old text may have meant *)

Definition visualize_whitespace (line : string) : string :=
  let '(lead, rest) := span is_blank line in
  String.concat "" ((λ c, if String.eqb c (String tab "") then ">" else String "183" "") <$> letters lead) +:+ rest.

(** [SequenceMatcher(None, a, b).ratio()], as two numbers. *)
Definition ratio_of (a b : string) : nat * nat := ((2 * matched a b)%nat, (String.length a + String.length b)%nat).
Definition ratio_le (x y : nat * nat) : bool := (x.1 * y.2 <=? y.1 * x.2)%nat.

Fixpoint insert_ratio (x : (nat * nat) * nat) (l : list ((nat * nat) * nat)) : list ((nat * nat) * nat) :=
  match l with
  | [] => [x]
  | y :: l => if ratio_le y.1 x.1 then x :: y :: l else y :: insert_ratio x l
  end.

Definition anchor_of (old_lines : list string) : option string :=
  let first := py_strip (hd "" old_lines) in
  if str_true first then Some first else hd_error (List.filter str_true (py_strip <$> old_lines)).

(** [f"{n:4d}"] *)
Definition padded (n : nat) : string :=
  let digits := pretty n in String.concat "" (repeat " " (4 - String.length digits)) +:+ digits.

Definition context_lines : nat := 2.
Definition max_results : nat := 3.

Definition snippet_of (content_lines : list string) (range : nat * nat) : string :=
  joined (imap (λ j line, padded (range.1 + j + 1)%nat +:+ "| " +:+ line) (take (range.2 - range.1) (skipn range.1 content_lines))).

Fixpoint distinct_ranges (seen l : list (nat * nat)) : list (nat * nat) :=
  match l with
  | [] => []
  | r :: l => if bool_decide (r ∈ seen) then distinct_ranges seen l else r :: distinct_ranges (r :: seen) l
  end.

(** The lines that resemble the anchor, the closest first. *)
Definition closest (anchor : string) (content_lines : list string) : list nat :=
  let scored := omap (λ e, let stripped := py_strip e.2 in
                           let '(shared, total) := ratio_of anchor stripped in
                           if str_true stripped && (3 * total <? 10 * shared)%nat then Some ((shared, total), e.1) else None)
                  (imap pair content_lines) in
  take max_results (snd <$> foldr insert_ratio [] scored).

Definition find_closest_lines (old_string content : string) : string :=
  let old_lines := splitlines old_string in
  let content_lines := splitlines content in
  match anchor_of old_lines with
  | None => ""
  | Some anchor =>
      match closest anchor content_lines with
      | [] => ""
      | best :: _ as top =>
          let ranges := distinct_ranges []
            ((λ i, ((i - context_lines)%nat, Nat.min (length content_lines) (i + length old_lines + context_lines))) <$> top) in
          let result := String.concat (String newline "" +:+ "---" +:+ String newline "") (snippet_of content_lines <$> ranges) in
          let best_line := nth best content_lines "" in
          if String.eqb (py_strip best_line) anchor && negb (String.eqb best_line (hd "" old_lines)) then
            result +:+ joined [""; ""; "Whitespace difference detected (> = tab, " +:+ String "183" "" +:+ " = space):";
                               "  file has: " +:+ visualize_whitespace best_line; "  you sent: " +:+ visualize_whitespace (hd "" old_lines);
                               "Use the exact whitespace shown in 'file has'."]
          else result
      end
  end.

Definition format_no_match_hint (error : string) (match_count : nat) (old_string content : string) : string :=
  if negb (match_count =? 0)%nat || negb (String.prefix "Could not find" error) then "" else
  let hint := find_closest_lines old_string content in
  if str_true hint then joined [""; ""; "Did you mean one of these sections?"; hint] else "".

(** ** Patching and writing *)

(** A write that the host authorised; an error text is a failure. *)
Abbreviation writer := (string → W → W * option string).
Definition failed (answer : option string) : option string := why ← answer; if str_true why then Some why else None.

Definition failure_result (error : string) : dict string json := [("success", JBool false); ("error", JStr error)].

Definition with_warning (warning : option string) (result : dict string json) : dict string json :=
  match warning with Some why => dict_set "_warning" (JStr why) result | None => result end.

(** What the patch of a regular file does. *)
Definition patch_regular (resolved old_string new_string : string) (replace_all : bool) (write : writer) (warning : option string) (w : W) (m : memory)
    : W * memory * dict string json :=
  let content := decode "surrogateescape" (bytes_of resolved w) in
  let e := fuzzy_find_and_replace matched opcodes content old_string new_string replace_all in
  if bool_decide (is_Some e.(ed_error)) || (e.(ed_count) =? 0)%nat then
    if is_already_applied content old_string new_string then
      (w, m, [("success", JBool true); ("no_change", JBool true);
              ("note", JStr ("File already contains the target text -- the edit appears to be already applied to " +:+ resolved
                             +:+ ". No write performed; do not re-send this patch."))])
    else
      let message := str_or (default "" e.(ed_error)) ("Could not find match for old_string in " +:+ resolved) in
      (w, m, failure_result (message +:+ format_no_match_hint message e.(ed_count) old_string content))
  else
    let new_content := match detect_line_ending content with
                       | Some ending => normalize_line_endings e.(ed_content) ending
                       | None => e.(ed_content)
                       end in
    let '(w, answer) := write new_content w in
    match failed answer with
    | Some failure => (w, m, failure_result ("Failed to write changes: " +:+ failure))
    | None =>
        let m := after_write resolved w m in
        (w, m <| patch_failures := dict_pop resolved m.(patch_failures) |>,
         with_warning warning [("success", JBool true); ("diff", JStr (unified_diff content new_content resolved));
                               ("files_modified", JList [JStr resolved]); ("lint", lint_delta resolved (Some content) new_content)]
         ++ [("resolved_path", JStr resolved)])
    end.

(** A patch that found nothing is counted, and the third is answered
    otherwise. *)
Definition count_patch_failure (display resolved : string) (result : dict string json) (m : memory) : memory * dict string json :=
  match get_or_null result "error" with
  | JStr error =>
      if negb (contains "Could not find" error) then (m, result) else
      let failures := dict_get_default m.(patch_failures) resolved 0 + 1 in
      let m := m <| patch_failures := dict_set resolved failures m.(patch_failures) |> in
      if 3 <=? failures then
        (m, dict_set "_hint" (JStr ("This is failure #" +:+ pretty failures +:+ " patching " +:+ repr display
              +:+ ". Stop retrying with variations of the same old_string. Either: (1) re-read the file fresh to verify current content, (2) use a longer / more unique old_string with surrounding context lines, or (3) use write_file to replace the entire file if the targeted region is hard to anchor.")) result)
      else if negb (contains "Did you mean one of these sections?" error) then
        (m, dict_set "_hint" (JStr "old_string not found. Use read_file to verify the current content, or search_files to locate the text.") result)
      else (m, result)
  | _ => (m, result)
  end.

(** Texts that are not given are [None]. *)
Definition patch (display resolved : string) (old_string new_string : option string) (replace_all : bool) (write : writer) (w : W) (m : memory)
    : W * memory * (string * bool) :=
  if negb (str_true display) then (w, m, (tool_error "path required" [], false)) else
  match old_string, new_string with
  | Some old_string, Some new_string =>
      let warning := write_warning m display resolved w in
      let '(w, m, result) := if negb (isfile resolved w) then (w, m, failure_result ("Failed to read file: " +:+ resolved))
                             else patch_regular resolved old_string new_string replace_all write warning w m in
      let '(m, result) := count_patch_failure display resolved (with_warning warning result) m in
      (w, m, (dumps (JObj result), match get_or_null result "diff" with JStr diff => str_true diff | _ => false end))
  | _, _ => (w, m, (tool_error "old_string and new_string required" [], false))
  end.

(** Why a content is not written; [None] where the check raises. *)
Definition refuses_content (display resolved content : string) : option (option string) :=
  internal ← is_internal_file_tool_content content;
  Some (if (internal : bool) then
    Some (tool_error "Refusing to write internal read_file display text as file content. Strip read_file line-number prefixes or reconstruct the intended file contents before writing." [])
  else
    let ext := extension resolved in
    if bool_decide (ext ∈ FAIL_CLOSED_INPROC_EXTS) then
      let '(fine, err) := parses ext content in
      if negb fine && negb (String.eqb err "__SKIP__") then
        Some (dumps (JObj [("bytes_written", JInt 0); ("dirs_created", JBool false);
          ("error", JStr ("Refusing to write '" +:+ display +:+ "': candidate content fails " +:+ ext +:+ " syntax validation (" +:+ err
                          +:+ "). The file was NOT created or modified. Fix the content and retry."))]))
      else None
    else None).

(** A content that is no text is [None]; the result is [None] where the check
    of a content raises. *)
Definition write_file (display resolved : string) (content : option string) (write : writer) (w : W) (m : memory)
    : option (W * memory * (string * bool)) :=
  match content with
  | None => Some (w, m, (tool_error "content must be a string" [], false))
  | Some content =>
      refusal ← refuses_content display resolved content;
      Some match refusal with
      | Some text => (w, m, (text, false))
      | None =>
          let warning := write_warning m display resolved w in
          let pre := if isfile resolved w then Some (decode "replace" (bytes_of resolved w)) else None in
          let content := match pre with
                         | Some pre => if bool_decide (detect_line_ending pre = Some crlf) then normalize_line_endings content crlf else content
                         | None => content
                         end in
          let '(w, answer) := write content w in
          match failed answer with
          | Some failure =>
              (w, m, (dumps (JObj (with_warning warning [("bytes_written", JInt 0); ("dirs_created", JBool false); ("error", JStr failure)])), false))
          | None =>
              (w, after_write resolved w m,
               (dumps (JObj (with_warning warning
                  [("bytes_written", JInt (Z.of_nat (String.length (encode_utf8 content)))); ("dirs_created", JBool (str_true (dirname resolved)));
                   ("verified", JBool true); ("lint", lint_delta resolved pre content)]
                  ++ [("resolved_path", JStr resolved); ("files_modified", JList [JStr resolved])])), true))
          end
      end
  end.
End tools.
