(* ===== verification/FileToolsProps.v ===== *)
(** * The theorems about the file tools

    Reading page by page shows every line of a text once; what is displayed
    is not taken for the content of a file; a patch is one write that keeps
    the line endings; a read that is answered from memory was answered
    before; with runs of [client/agent/tools.py]. *)

From Stdlib Require Import Ascii.
From S2P Require Import Prelude Texts Values Shell FuzzyMatch FuzzyMatchProps FileTools.

#[local] Open Scope Z_scope.
Open Scope py_scope.

(** ** Numbers as they are displayed *)

Lemma pretty_N_char_digit d : is_digit (pretty_N_char d) = true.
Proof. unfold pretty_N_char. repeat (case_match; try done). Qed.

Lemma pretty_N_char_value x : (x < 10)%N → digit_value (pretty_N_char x) = Some (Z.of_N x).
Proof.
  intros Hx. assert (x = 0 ∨ x = 1 ∨ x = 2 ∨ x = 3 ∨ x = 4 ∨ x = 5 ∨ x = 6 ∨ x = 7 ∨ x = 8 ∨ x = 9)%N as H by lia.
  by repeat destruct H as [->|H]; subst.
Qed.

(** Reading a number back, digit by digit. *)
Lemma digits_from_pretty b x s : (x < 10 ^ N.of_nat b)%N → ∀ acc count, (0 <= acc) →
  ∃ k, (k <= b)%nat ∧ digits_from acc count (pretty_N_go x s) = digits_from (acc * 10 ^ Z.of_nat k + Z.of_N x) (count + k) s.
Proof.
  revert x s. induction b as [|b IH]; intros x s Hx acc count Hacc.
  - assert (x = 0%N) as -> by (cbn in Hx; lia). exists 0%nat. rewrite pretty_N_go_0. split; [done|]. f_equal; lia.
  - destruct (decide (0 < x)%N) as [Hpos|Hz].
    2:{ assert (x = 0%N) as -> by lia. exists 0%nat. rewrite pretty_N_go_0. split; [lia|]. f_equal; lia. }
    rewrite pretty_N_go_step by done. destruct (IH (x / 10)%N (String (pretty_N_char (x `mod` 10)) s)) with (acc := acc) (count := count)
      as (k & Hk & ->); [|done|].
    { apply N.Div0.div_lt_upper_bound. rewrite Nat2N.inj_succ, N.pow_succ_r' in Hx. lia. }
    exists (S k). split; [lia|]. cbn [digits_from]. rewrite pretty_N_char_value by (apply N.mod_lt; done). f_equal; [|lia].
    rewrite Nat2Z.inj_succ, Z.pow_succ_r by lia. pose proof (N.div_mod x 10 ltac:(done)). lia.
Qed.

Lemma pretty_chars (p : ascii → bool) (n : Z) : 0 <= n → (∀ d, p (pretty_N_char d) = true) → all_chars p (pretty n) = true.
Proof.
  intros Hn Hp. assert (∀ m : N, all_chars p (pretty m) = true) as Hm.
  { intros m. unfold pretty, pretty_N. case_decide; [|by apply pretty_N_go_chars]. specialize (Hp 0%N). cbn in *. by rewrite Hp. }
  destruct n as [|q|q]; [specialize (Hp 0%N); cbn in *; by rewrite Hp|apply Hm|lia].
Qed.

Lemma pretty_digits (n : Z) : 0 <= n → all_chars is_digit (pretty n) = true.
Proof. intros Hn. apply pretty_chars; [done|]. apply pretty_N_char_digit. Qed.

Lemma pretty_starts (n : Z) : 0 <= n → ∃ c s, pretty n = String c s ∧ is_digit c = true.
Proof.
  intros Hn. pose proof (pretty_digits n Hn) as Hd. destruct (pretty n) as [|c s] eqn:Hp.
  - destruct n as [|q|q]; [done| |lia]. change (pretty (N.pos q) = "") in Hp. unfold pretty, pretty_N in Hp. case_decide; [done|].
    rewrite pretty_N_go_step in Hp by lia. exfalso. revert Hp.
    assert (∀ x s, s ≠ "" → pretty_N_go x s ≠ "") as Hne; [|by apply Hne].
    intros x. induction (N.lt_wf_0 x) as [x _ IH]. intros s Hs. destruct (decide (0 < x)%N).
    + rewrite pretty_N_go_step by done. apply IH; [apply N.div_lt; lia|done].
    + assert (x = 0%N) as -> by lia. by rewrite pretty_N_go_0.
  - exists c, s. split; [done|]. cbn in Hd. by apply andb_true_iff in Hd as [? _].
Qed.

(** A number that is not too long to be read. *)
Definition readable_number (n : Z) : Prop := 0 <= n < 10 ^ 4000.

(** The bound is only reasoned about, never computed. *)
Lemma readable_nonneg n : readable_number n → 0 <= n.
Proof. by intros []. Qed.

Lemma readable_small n : 0 <= n → n <= 4000 → readable_number n.
Proof. intros Hn Hs. split; [done|]. apply (Z.le_lt_trans _ 4000); [done|]. by apply Z.pow_gt_lin_r. Qed.

Lemma ten_times_pow e e' : 0 <= e → e' = Z.succ e → 10 * 10 ^ e <= 10 ^ e'.
Proof. intros He ->. rewrite Z.pow_succ_r by done. apply Z.le_refl. Qed.

Lemma digit_facts c : is_digit c = true → py_isspace c = false ∧ c ≠ "-"%char ∧ c ≠ "+"%char ∧ is_Some (digit_value c).
Proof. destruct c as [[] [] [] [] [] [] [] []]; try done; intros _; split_and!; try done; by eexists. Qed.

Lemma strip_digits s : all_chars is_digit s = true → py_strip s = s.
Proof.
  intros Hs. assert (∀ s, all_chars is_digit s = true → py_rstrip s = s) as Hr.
  { clear. induction s as [|c s IH]; [done|]. intros [Hc Hs]%andb_true_iff. cbn [py_rstrip]. rewrite IH by done.
    destruct s; [|done]. by destruct (digit_facts c Hc) as [-> _]. }
  unfold py_strip. assert (py_lstrip s = s) as ->; [|by apply Hr]. destruct s as [|c s]; [done|]. cbn in *.
  apply andb_true_iff in Hs as [Hc _]. by destruct (digit_facts c Hc) as [-> _].
Qed.

Lemma int_of_pretty_within (e : nat) n : (e <= 4300)%nat → 0 <= n < 10 ^ Z.of_nat e → int_of_str (pretty n) = Some n.
Proof.
  intros He [Hn Hb]. unfold int_of_str. rewrite strip_digits by by apply pretty_digits.
  assert (digits_of (pretty n) = Some n) as Hd.
  { destruct (pretty_starts n Hn) as (c & s & Hp & Hc). destruct (digit_facts c Hc) as (_ & _ & _ & [d Hdv]).
    assert (digits_of (pretty n) = digits_from 0 0 (pretty n)) as -> by (rewrite Hp; cbn; by rewrite Hdv).
    destruct n as [|q|]; [done| |lia]. clear Hp. change (digits_from 0 0 (pretty (N.pos q)) = Some (Z.pos q)).
    unfold pretty, pretty_N. case_decide; [done|].
    destruct (digits_from_pretty e (N.pos q) "" ltac:(apply N2Z.inj_lt; rewrite N2Z.inj_pow, nat_N_Z; exact Hb) 0 0%nat ltac:(done)) as (k & Hk & ->).
    cbn [digits_from]. destruct (Nat.ltb_spec 4300 (0 + k)); [lia|]. f_equal. }
  destruct (pretty_starts n Hn) as (c & s & Hp & Hc). destruct (digit_facts c Hc) as (_ & Hm & Hpl & _). rewrite Hp in Hd |- *.
  rewrite <- Hd. clear -Hm Hpl. destruct c as [[] [] [] [] [] [] [] []]; first [reflexivity|by destruct Hm|by destruct Hpl].
Qed.

Lemma int_of_pretty n : readable_number n → int_of_str (pretty n) = Some n.
Proof. apply (int_of_pretty_within (Z.to_nat 4000)). apply Nat.leb_le. vm_compute. reflexivity. Qed.

(** ** What is displayed *)

Fixpoint number_lines (from : Z) (l : list string) : list string :=
  match l with
  | [] => []
  | line :: l => numbered_line from line :: number_lines (from + 1) l
  end.

Lemma numbered_lines from l : numbered from l = joined (number_lines from l).
Proof.
  unfold numbered. f_equal. revert from. induction l as [|x l IH]; intros from; [done|]. rewrite imap_cons. cbn [number_lines].
  replace (from + Z.of_nat 0) with from by lia. f_equal. rewrite <- IH. apply imap_ext. intros i y _. cbn. f_equal. lia.
Qed.

Lemma number_lines_length from l : length (number_lines from l) = length l.
Proof. revert from. induction l as [|x l IH]; intros from; [done|]. cbn. by rewrite IH. Qed.

Lemma upto_no_breaks n s : no_breaks s = true → no_breaks (upto n s) = true.
Proof. apply no_breaks_substring. Qed.

Lemma digit_no_break c : is_digit c = true → line_break c = false ∧ c ≠ "|"%char.
Proof. destruct c as [[] [] [] [] [] [] [] []]; done. Qed.

Lemma digits_no_breaks s : all_chars is_digit s = true → no_breaks s = true.
Proof.
  induction s as [|c s IH]; [done|]. intros [Hc Hs]%andb_true_iff. cbn. destruct (digit_no_break c Hc) as [-> _]. by apply IH.
Qed.

Lemma numbered_line_shape n line : 0 <= n → no_breaks line = true →
  ∃ rest, numbered_line n line = String.append (pretty n) (String "|" rest) ∧ no_breaks (numbered_line n line) = true.
Proof.
  intros Hn Hl. unfold numbered_line. set (cut := upto (4 * MAX_LINE_LENGTH + 1) line).
  assert (no_breaks cut = true) as Hc by by apply upto_no_breaks. clearbody cut.
  eexists. split; [reflexivity|]. rewrite no_breaks_app, digits_no_breaks by by apply pretty_digits. cbn [andb].
  destruct (_ <? _)%nat; [|done]. change (no_breaks (String.append "|" (String.append (upto MAX_LINE_LENGTH cut) "... [truncated]")) = true).
  rewrite !no_breaks_app, upto_no_breaks by done. done.
Qed.

(** Lines without breaks of their own are the lines of the text they make. *)
Lemma splitlines_joined l : Forall (λ s, no_breaks s = true ∧ s ≠ "") l → splitlines (joined l) = l.
Proof.
  induction 1 as [|x l [Hx Hne] Hl IH]; [done|]. destruct l as [|y l].
  - change (joined [x]) with x. rewrite splitlines_last by done. by rewrite (proj2 (str_true_spec x) Hne).
  - rewrite joined_lines_cons. change (String newline ?s) with (String "010"%char s). rewrite splitlines_line by done. by rewrite IH.
Qed.

Lemma partition_number n rest : 0 <= n → partition "|" (String.append (pretty n) (String "|" rest)) = (pretty n, Some rest).
Proof.
  intros Hn. pose proof (pretty_digits n Hn) as Hd. unfold partition.
  assert (find_text "|" (String.append (pretty n) (String "|" rest)) = Some (pretty n, rest)) as ->; [|done].
  induction (pretty n) as [|c s IH].
  - change (String.append "" ?x) with x. change (find_text "|" (String "|" rest)) with (if String.prefix "|" (String.append "|" rest) then Some ("", drop 1 (String.append "|" rest)) else
      '(before, after) ← find_text "|" rest; Some (String "|" before, after)).
    rewrite (prefix_self "|" rest). do 2 f_equal. apply (drop_self "|" rest).
  - cbn in Hd. apply andb_true_iff in Hd as [Hc Hs]. change (String.append (String c s) ?x) with (String c (String.append s x)). cbn [find_text].
    assert (String.prefix "|" (String c (String.append s (String "|" rest))) = false) as ->.
    { cbn [String.prefix]. destruct (ascii_dec "|" c) as [<-|]; [|done]. exfalso. by destruct (proj2 (digit_no_break _ Hc)). }
    by rewrite IH.
Qed.

Lemma displayed_line n rest : 0 <= n → let line := String.append (pretty n) (String "|" rest) in
  py_lstrip line = line ∧ str_true (py_strip line) = true ∧ line ≠ "".
Proof.
  intros Hn line. destruct (pretty_starts n Hn) as (c & s & Hp & Hc). destruct (digit_facts c Hc) as (Hsp & _).
  assert (line = String c (String.append s (String "|" rest))) as Hl by (unfold line; by rewrite Hp).
  assert (py_lstrip line = line) as Hs by (rewrite Hl; cbn; by rewrite Hsp). split_and!; [done| |by rewrite Hl].
  unfold py_strip. rewrite Hs, Hl. cbn [py_rstrip]. destruct (py_rstrip _); [by rewrite Hsp|done].
Qed.

Lemma displayed_numbers_of bound from l : (∀ n, 0 <= n < bound → readable_number n) → 0 <= from → from + Z.of_nat (length l) <= bound → Forall (λ s, no_breaks s = true) l →
  displayed_numbers (number_lines from l) = Some ((λ i, from + Z.of_nat i) <$> seq 0 (length l)).
Proof.
  intros Hr Hf Hb Hl. revert from Hf Hb. induction Hl as [|x l Hx Hl IH]; intros from Hf Hb; [done|]. cbn [length] in Hb.
  cbn [number_lines displayed_numbers]. destruct (numbered_line_shape from x Hf Hx) as (rest & -> & _).
  destruct (displayed_line from rest Hf) as (Hls & _). rewrite Hls, partition_number by done.
  rewrite bool_decide_eq_true_2 by by eexists.
  assert (isdigit (pretty from) = true) as ->.
  { unfold isdigit. destruct (pretty_starts from Hf) as (c & s & Hp & _). rewrite (proj2 (str_true_spec _)) by by rewrite Hp. cbn [andb].
    apply pretty_chars; [done|]. intros d. by rewrite pretty_N_char_digit. }
  cbn [andb]. rewrite int_of_pretty by (apply Hr; lia). cbn [mbind option_bind]. rewrite IH by lia. cbn [mbind option_bind].
  cbn [length seq]. rewrite fmap_cons. do 2 f_equal; [lia|]. rewrite <- fmap_S_seq, <- list_fmap_compose. apply list_fmap_ext. intros i y _. cbn. lia.
Qed.

Lemma consecutive_seq from n : length (List.filter (λ p, p.2 =? p.1 + 1) (zip ((λ i, from + Z.of_nat i) <$> seq 0 n) (tail ((λ i, from + Z.of_nat i) <$> seq 0 n)))) = (n - 1)%nat.
Proof.
  destruct n as [|n]; [done|]. cbn [seq]. rewrite fmap_cons. cbn [tail]. replace (S n - 1)%nat with n by lia. generalize 0%nat as k.
  induction n as [|n IH]; intros k; [done|]. cbn [seq]. rewrite fmap_cons. cbn [zip zip_with List.filter]. cbn [fst snd].
  rewrite (proj2 (Z.eqb_eq _ _)) by lia. cbn [length]. f_equal. apply IH.
Qed.

(** Two displayed lines or more are known for what they are. *)
Lemma displayed_is_internal bound from l : (∀ n, 0 <= n < bound → readable_number n) → 0 <= from → from + Z.of_nat (length l) <= bound → (2 <= length l)%nat → Forall (λ s, no_breaks s = true) l →
  is_internal_file_tool_content (numbered from l) = Some true.
Proof.
  intros Hr Hf Hb H2 Hl. unfold is_internal_file_tool_content. destruct (is_internal_file_status_text _); [done|].
  unfold looks_like_read_file_line_numbered_content. rewrite numbered_lines.
  assert (Forall (λ s, no_breaks s = true ∧ s ≠ "" ∧ str_true (py_strip s) = true) (number_lines from l)) as Hn.
  { clear H2. revert from Hf Hb. induction Hl as [|x l Hx Hl IH]; intros from Hf Hb; constructor; [|apply IH; cbn [length] in Hb; lia].
    destruct (numbered_line_shape from x Hf Hx) as (rest & Hs & Hnb). destruct (displayed_line from rest Hf) as (_ & Ht & Hne). by rewrite Hs in Hnb |- *. }
  rewrite splitlines_joined by (eapply Forall_impl; [exact Hn|]; naive_solver).
  assert (List.filter (λ line, str_true (py_strip line)) (number_lines from l) = number_lines from l) as ->.
  { clear -Hn. induction Hn as [|x k (_ & _ & Hx) Hk IH]; [done|]. cbn. by rewrite Hx, IH. }
  rewrite number_lines_length. destruct (Nat.ltb_spec (length l) 2); [lia|]. rewrite (displayed_numbers_of bound) by done. cbn [mbind option_bind].
  unfold consecutive_pairs. rewrite consecutive_seq, length_fmap, length_seq.
  destruct (Nat.leb_spec 2 (length l)); [|lia]. destruct (Nat.leb_spec (6 * length l) (10 * length l)); [|lia]. by rewrite Nat.leb_refl.
Qed.

(** ** Line endings *)

(** Every line break is a carriage return and a line feed, and neither is
    alone. *)
Fixpoint crlf_only (s : string) : bool :=
  match s with
  | EmptyString => true
  | String c s =>
      if Ascii.eqb c carriage_return then match s with String d s => Ascii.eqb d newline && crlf_only s | EmptyString => false end
      else negb (Ascii.eqb c newline) && crlf_only s
  end.

Definition no_return (s : string) : bool := all_chars (λ c, negb (Ascii.eqb c carriage_return)) s.

(** A text in the line ending given. *)
Definition ends_lines_with (ending s : string) : Prop :=
  (ending = crlf → crlf_only s = true) ∧ (ending = String newline "" → no_return s = true).

(** Replacing one character, wherever it is. *)
Fixpoint map_char (c : ascii) (new s : string) : string :=
  match s with
  | EmptyString => EmptyString
  | String d s => String.append (if Ascii.eqb d c then new else String d "") (map_char c new s)
  end.

Lemma replaced_char c new fuel s : (String.length s < fuel)%nat → replaced fuel (String c "") new s = map_char c new s.
Proof.
  revert s. induction fuel as [|fuel IH]; intros s Hs; [lia|].
  assert (∀ s a b, find_text (String c "") s = Some (a, b) → map_char c new s = String.append a (String.append new (map_char c new b)) ∧ (String.length b < String.length s)%nat) as Hf.
  { clear. induction s as [|d s IH]; intros a b; [done|]. cbn [find_text].
    assert (String.prefix (String c "") (String d s) = Ascii.eqb d c) as ->.
    { cbn [String.prefix]. destruct (ascii_dec c d) as [->|Hne]; [rewrite (proj2 (Ascii.eqb_eq d d) eq_refl); by destruct s|]. symmetry. apply Ascii.eqb_neq. congruence. }
    cbn [map_char]. destruct (Ascii.eqb_spec d c) as [->|Hne].
    - intros [= <- <-]. assert (drop 1 (String c s) = s) as Hd by apply (drop_self (String c "") s). change (String.length (String c "")) with 1%nat. rewrite Hd. split; [done|cbn; lia].
    - destruct (find_text (String c "") s) as [[a' b']|] eqn:Hs; [|done]. intros [= <- <-]. destruct (IH a' b' eq_refl) as [-> Hl]. split; [done|cbn; lia]. }
  assert (∀ s, find_text (String c "") s = None → map_char c new s = s) as Hn.
  { clear. induction s as [|d s IH]; [done|]. cbn [find_text].
    destruct (String.prefix (String c "") (String d s)) eqn:Hp; [done|]. destruct (find_text _ s) as [[? ?]|]; [done|]. intros _. cbn [map_char].
    assert (Ascii.eqb d c = false) as ->.
    { apply Ascii.eqb_neq. intros ->. cbn [String.prefix] in Hp. destruct (ascii_dec c c); [by destruct s|done]. }
    change (String d (map_char c new s) = String d s). by rewrite IH. }
  cbn [replaced]. destruct (find_text (String c "") s) as [[a b]|] eqn:H; [|by rewrite Hn].
  destruct (Hf s a b H) as [-> Hl]. by rewrite IH by lia.
Qed.

Lemma replace_char c new s : replace_text (String c "") new s = map_char c new s.
Proof. apply replaced_char. lia. Qed.

Lemma map_char_gone c new s : Ascii.eqb new c = false → all_chars (λ d, negb (Ascii.eqb d c)) (map_char c (String new "") s) = true.
Proof.
  intros Hn. induction s as [|d s IH]; [done|]. cbn [map_char]. rewrite all_chars_app, IH, andb_true_r.
  destruct (Ascii.eqb d c) eqn:Hd; cbn; [by rewrite Hn|by rewrite Hd].
Qed.

Lemma map_char_crlf s : no_return s = true → crlf_only (map_char newline crlf s) = true.
Proof.
  unfold no_return. induction s as [|d s IH]; [done|]. intros [Hd Hs]%andb_true_iff. cbn [map_char]. apply negb_true_iff in Hd.
  destruct (Ascii.eqb d newline) eqn:Hn.
  - change (String.append crlf ?x) with (String carriage_return (String newline x)). cbn [crlf_only].
    change (Ascii.eqb carriage_return carriage_return) with true. change (Ascii.eqb newline newline) with true. cbn [andb]. by apply IH.
  - change (String.append (String d "") ?x) with (String d x). cbn [crlf_only]. rewrite Hd, Hn. by apply IH.
Qed.

Lemma normalized_endings text ending : ends_lines_with ending (normalize_line_endings text ending).
Proof.
  unfold normalize_line_endings. rewrite !replace_char. set (t := replace_text crlf _ text).
  assert (no_return (map_char carriage_return (String newline "") t) = true) as Hlf by by apply map_char_gone.
  split; intros ->.
  - change (String.eqb crlf (String newline "")) with false. change (String.eqb crlf crlf) with true. cbv iota. by apply map_char_crlf.
  - change (String.eqb (String newline "") (String newline "")) with true. done.
Qed.

(** ** What is forgotten *)

Lemma dict_pop_get {V} (d : dict read_region V) k k' : dict_get (dict_pop k d) k' = if bool_decide (k' = k) then None else dict_get d k'.
Proof.
  induction d as [|[j v] d IH]; [by destruct (bool_decide _)|]. unfold dict_pop in *. cbn [List.filter fst].
  destruct (decide (j = k)) as [->|Hj].
  - rewrite (bool_decide_eq_true_2 (k = k)) by done. cbn [negb]. rewrite IH. case_bool_decide as Hk; [done|]. cbn. by rewrite decide_False.
  - rewrite (bool_decide_eq_false_2 (j = k)) by done. cbn [negb dict_get]. destruct (decide (k' = j)) as [->|].
    + by rewrite bool_decide_eq_false_2.
    + exact IH.
Qed.

Lemma dict_pops_get {V} (d : dict read_region V) keys k : dict_get (foldl (λ d k, dict_pop k d) d keys) k = if bool_decide (k ∈ keys) then None else dict_get d k.
Proof.
  revert d. induction keys as [|j keys IH]; intros d; [done|]. cbn [foldl]. rewrite IH, dict_pop_get.
  destruct (decide (k ∈ keys)) as [Hk|Hk].
  - rewrite !bool_decide_eq_true_2 by (by right || done). done.
  - rewrite (bool_decide_eq_false_2 (k ∈ keys)) by done. destruct (decide (k = j)) as [->|Hj].
    + rewrite !bool_decide_eq_true_2 by (done || by left). done.
    + rewrite !bool_decide_eq_false_2 by (done || intros [?|?]%elem_of_cons; done). done.
Qed.

Lemma invalidated resolved m key : dict_get (invalidate_path resolved m).(dedup) key = if is_of resolved key then None else dict_get m.(dedup) key.
Proof.
  unfold invalidate_path. cbn [dedup]. change (dict_get (foldl (λ d k, dict_pop k d) m.(dedup) (List.filter (is_of resolved) (dict_keys m.(dedup)))) key
    = if is_of resolved key then None else dict_get m.(dedup) key).
  rewrite dict_pops_get. case_bool_decide as Hk.
  - apply list_elem_of_In, filter_In in Hk as [_ ->]. done.
  - destruct (is_of resolved key) eqn:Hi; [|done]. destruct (dict_get m.(dedup) key) as [v|] eqn:Hg; [|done]. destruct Hk.
    apply list_elem_of_In, filter_In. split; [|done]. apply list_elem_of_In, dict_get_is_Some. by eexists.
Qed.

Section tools.
  Context {W : Type} `{Files W}.
  Context (matched : string → string → nat) (opcodes : string → string → list opcode) (unified_diff : string → string → string → string).
  Context (parses : string → string → bool * string).
  Context (decode : string → string → string) (truncated : string → option Z) (dumps_ascii dumps : json → string) (repr : string → string).

#[local] Abbreviation read_window := (read_window matched decode).
#[local] Abbreviation read_file := (read_file matched decode truncated dumps_ascii dumps).
#[local] Abbreviation patch := (patch matched opcodes unified_diff parses decode dumps repr).
#[local] Abbreviation write_file := (write_file parses decode dumps).

(** ** A patch *)

Lemma written_dedup resolved w m key : dict_get (after_write resolved w m).(dedup) key = if is_of resolved key then None else dict_get m.(dedup) key.
Proof.
  unfold after_write, note_write, record_read. destruct (getmtime resolved w); apply invalidated.
Qed.

Lemma count_keeps display resolved result m : let '(m', result') := count_patch_failure repr display resolved result m in
  (∃ failures, m' = m <| patch_failures := failures |>) ∧ get_or_null result' "diff" = get_or_null result "diff".
Proof.
  assert (∃ failures, m = m <| patch_failures := failures |>) as Hm by (exists m.(patch_failures); by destruct m).
  assert (∀ v, get_or_null (dict_set "_hint" v result) "diff" = get_or_null result "diff") as Hg
    by (intros v; unfold get_or_null, dict_get_default; by rewrite dict_get_set_ne).
  unfold count_patch_failure. destruct (get_or_null result "error"); try done. destruct (negb _); [done|].
  destruct (3 <=? _); [split; [by eexists|apply Hg]|]. destruct (negb _); [split; [by eexists|apply Hg]|split; [by eexists|done]].
Qed.

(** C11: a patch leaves the world as it was, or makes one write: of what the
    edit makes of the content, every line ended as the file ends its lines;
    it counts as a change only if that write succeeded, and then no read of
    the file is answered from memory. *)
Theorem a_patch_is_one_write display resolved old new all write w m w' m' text changed :
  patch display resolved (Some old) (Some new) all write w m = (w', m', (text, changed)) →
  let content := decode "surrogateescape" (bytes_of resolved w) in
  let e := fuzzy_find_and_replace matched opcodes content old new all in
  (changed = false ∧ w' = w ∧ ∃ failures, m' = m <| patch_failures := failures |>) ∨
  (isfile resolved w = true ∧ e.(ed_error) = None ∧ ∃ written, w' = (write written w).1 ∧
    (∀ ending, detect_line_ending content = Some ending → written = normalize_line_endings e.(ed_content) ending ∧ ends_lines_with ending written) ∧
    (detect_line_ending content = None → written = e.(ed_content)) ∧
    match failed (write written w).2 with
    | Some _ => changed = false ∧ ∃ failures, m' = m <| patch_failures := failures |>
    | None => changed = str_true (unified_diff content written resolved) ∧ ∀ key, is_of resolved key = true → dict_get m'.(dedup) key = None
    end).
Proof.
  assert (∃ failures, m = m <| patch_failures := failures |>) as Hsame by (exists m.(patch_failures); by destruct m).
  unfold FileTools.patch. destruct (str_true display); [|intros [= <- <- _ <-]; by left]. cbn [negb]. cbv zeta.
  set (warning := write_warning m display resolved w). destruct (isfile resolved w) eqn:Hfile; cbn [negb].
  2:{ destruct (count_patch_failure _ _ _ _ m) as [m1 r1] eqn:Hc. intros [= <- <- _ <-].
      pose proof (count_keeps display resolved (with_warning warning (failure_result ("Failed to read file: " +:+ resolved))) m) as Hk. rewrite Hc in Hk.
      destruct Hk as [Hm Hd]. left. split_and!; [|done|done]. rewrite Hd. by destruct warning. }
  unfold patch_regular. cbv zeta. set (content := decode _ _). set (e := fuzzy_find_and_replace _ _ _ _ _ _).
  destruct (bool_decide (is_Some (ed_error e)) || (ed_count e =? 0)%nat) eqn:He.
  { destruct (is_already_applied content old new);
      (destruct (count_patch_failure _ _ _ _ m) as [m1 r1] eqn:Hc; intros [= <- <- _ <-];
       match type of Hc with count_patch_failure _ _ _ ?r _ = _ => pose proof (count_keeps display resolved r m) as Hk end;
       rewrite Hc in Hk; destruct Hk as [Hm Hd]; left; split_and!; [|done|done]; rewrite Hd; by destruct warning). }
  apply orb_false_iff in He as [Herr _]. apply bool_decide_eq_false in Herr. apply eq_None_not_Some in Herr.
  set (written := match detect_line_ending content with Some _ => _ | None => _ end).
  destruct (write written w) as [w1 answer] eqn:Hw. destruct (failed answer) as [failure|] eqn:Hfail.
  - destruct (count_patch_failure _ _ _ _ m) as [m1 r1] eqn:Hc. intros [= <- <- _ <-].
    match type of Hc with count_patch_failure _ _ _ ?r _ = _ => pose proof (count_keeps display resolved r m) as Hk end. rewrite Hc in Hk. destruct Hk as [Hm Hd].
    right. split_and!; [done|done|]. exists written. rewrite Hw. cbn [fst snd]. rewrite Hfail. split_and!; [done| | | |done].
    + intros ending Hdet. unfold written. rewrite Hdet. split; [done|apply normalized_endings].
    + intros Hdet. unfold written. by rewrite Hdet.
    + rewrite Hd. by destruct warning.
  - set (m0 := (after_write resolved w1 m) <| patch_failures := dict_pop resolved (after_write resolved w1 m).(patch_failures) |>).
    destruct (count_patch_failure _ _ _ _ m0) as [m1 r1] eqn:Hc. intros [= <- <- _ <-].
    match type of Hc with count_patch_failure _ _ _ ?r _ = _ => pose proof (count_keeps display resolved r m0) as Hk end. rewrite Hc in Hk.
    destruct Hk as [[failures ->] Hd].
    right. split_and!; [done|done|]. exists written. rewrite Hw. cbn [fst snd]. rewrite Hfail. split_and!; [done| | | |].
    + intros ending Hdet. unfold written. rewrite Hdet. split; [done|apply normalized_endings].
    + intros Hdet. unfold written. by rewrite Hdet.
    + rewrite Hd. by destruct warning.
    + intros key Hk. change (dict_get (after_write resolved w1 m).(dedup) key = None). by rewrite written_dedup, Hk.
Qed.

(** ** Reading page by page *)

(** A file whose content is displayed: regular, not empty, of no binary name
    or bytes. *)
Record displays (resolved text : string) (w : W) : Prop := {
  di_file : isfile resolved w = true;
  di_name : has_binary_extension resolved = false;
  di_bytes : is_likely_binary_bytes (upto 1000 (bytes_of resolved w)) = false;
  di_some : str_true (bytes_of resolved w) = true;
  di_text : decode "replace" (bytes_of resolved w) = text;
}.

Lemma joined_line x s : line_of x → text_lines (String.append x (String newline s)) = x :: text_lines s.
Proof.
  unfold line_of. induction x as [|c x IH]; intros Hx; [done|]. cbn in Hx. apply andb_true_iff in Hx as [Hc%negb_true_iff Hx].
  change (String.append (String c x) ?t) with (String c (String.append x t)). unfold text_lines in *. cbn [split_on]. by rewrite Hc, IH.
Qed.

(** A text that ends with a line break has as many lines as breaks. *)
Lemma ended_lines text : ends_with (String newline "") text = true → length (lines_of_text text) = count_char newline text.
Proof.
  intros He. unfold lines_of_text. rewrite He. unfold count_char, text_lines.
  destruct (exists_last (text_lines_some text)) as (k & x & Hk). unfold text_lines in Hk. rewrite Hk, removelast_last, length_app. cbn. lia.
Qed.

Definition page (text : string) (offset limit : Z) : list string := take (Z.to_nat limit) (skipn (Z.to_nat (offset - 1)) (lines_of_text text)).

Lemma read_ended_page display resolved text collation offset limit w : displays resolved text w → ends_with (String newline "") text = true →
  1 <= offset <= Z.of_nat (length (lines_of_text text)) → 1 <= limit →
  let r := read_window display resolved offset limit collation w in
  get_or_null r "content" = JStr (numbered offset (page text offset limit ++ [""])) ∧
  is_truncated r = (offset + limit - 1 <? Z.of_nat (length (lines_of_text text))).
Proof.
  intros [Hf Hn Hb Hs Ht] He Ho Hl. unfold FileTools.read_window.
  assert (exists_ resolved w = true) as ->.
  { unfold exists_, isfile in *. apply bool_decide_eq_true in Hf. by rewrite Hf. }
  rewrite Hf, Hn, Hb. cbn [negb orb]. assert (Z.of_nat (String.length (bytes_of resolved w)) =? 0 = false) as ->
    by (apply Z.eqb_neq; destruct (bytes_of resolved w); [done|cbn; lia]).
  rewrite Ht. cbv zeta. rewrite <- (ended_lines text He). destruct (Z.ltb_spec (Z.of_nat (length (lines_of_text text))) offset); [lia|]. cbn [andb].
  fold (page text offset limit). assert (page text offset limit ≠ []) as Hp.
  { unfold page. intros Hp. apply (f_equal length) in Hp. rewrite length_take, length_skipn in Hp. cbn in Hp. lia. }
  rewrite (bool_decide_eq_true_2 _ Hp), He, orb_true_r. cbn [andb]. by destruct (_ <? _).
Qed.

(** Reading on where the last page says, until one is not cut. *)
Fixpoint reads (fuel : nat) (display resolved : string) (offset limit : Z) (collation : option string) (w : W) : list (dict string json) :=
  match fuel with
  | O => []
  | S fuel =>
      let r := read_window display resolved offset limit collation w in
      r :: if is_truncated r then reads fuel display resolved (offset + limit) limit collation w else []
  end.

Lemma reads_pages fuel display resolved text collation offset limit w : displays resolved text w → ends_with (String newline "") text = true →
  1 <= offset <= Z.of_nat (length (lines_of_text text)) → 1 <= limit → (length (lines_of_text text) - Z.to_nat (offset - 1) <= fuel)%nat →
  ∃ pages, concat pages = skipn (Z.to_nat (offset - 1)) (lines_of_text text) ∧ Forall (λ p, (1 <= length p <= Z.to_nat limit)%nat) pages ∧
    (λ r, get_or_null r "content") <$> reads fuel display resolved offset limit collation w
    = imap (λ i p, JStr (numbered (offset + Z.of_nat i * limit) (p ++ [""]))) pages ∧
    (∃ r, last (reads fuel display resolved offset limit collation w) = Some r ∧ is_truncated r = false).
Proof.
  intros Hd He Ho Hl. revert offset Ho. induction fuel as [|fuel IH]; intros offset Ho Hfuel; [lia|]. cbn [reads].
  destruct (read_ended_page display resolved text collation offset limit w Hd He Ho Hl) as [Hc Ht]. rewrite Ht. set (L := lines_of_text text) in *.
  assert (1 <= length (page text offset limit) <= Z.to_nat limit)%nat as Hlen
    by (unfold page; rewrite length_take, length_skipn; fold L; lia).
  destruct (Z.ltb_spec (offset + limit - 1) (Z.of_nat (length L))) as [Hlt|Hge].
  - destruct (IH (offset + limit) ltac:(lia) ltac:(lia)) as (pages & Hcat & Hall & Hreads & (r & Hr & Hrt)).
    exists (page text offset limit :: pages). split_and!; [| |cbn [fmap list_fmap]|exists r; split; [|done]].
    + cbn [concat]. rewrite Hcat. unfold page. fold L. replace (Z.to_nat (offset + limit - 1)) with (Z.to_nat (offset - 1) + Z.to_nat limit)%nat by lia.
      rewrite <- drop_drop. apply take_drop.
    + by constructor.
    + rewrite Hc, imap_cons, Hreads. f_equal; [do 2 f_equal; lia|]. apply imap_ext. intros i p _. cbn. do 2 f_equal. lia.
    + rewrite last_cons, Hr. done.
  - exists [page text offset limit]. split_and!; [|by apply Forall_singleton|cbn; rewrite Hc; do 3 f_equal; lia|by eexists].
    cbn [concat]. rewrite app_nil_r. unfold page. fold L. apply take_ge. rewrite length_skipn. lia.
Qed.


(** ** What is displayed is not written back *)

Lemma displayed_is_refused bound bound' display resolved text collation offset limit w m content display' resolved' (write : string → W → W * option string) :
  (∀ n, 0 <= n < bound' → readable_number n) → 10 * bound <= bound' →
  displays resolved text w → ends_with (String newline "") text = true → Forall (λ s, no_breaks s = true) (lines_of_text text) →
  1 <= offset <= Z.of_nat (length (lines_of_text text)) → 1 <= limit → Z.of_nat (length (lines_of_text text)) < bound →
  get_or_null (read_window display resolved offset limit collation w) "content" = JStr content →
  ∃ why, write_file display' resolved' (Some content) write w m = Some (w, m, (why, false)).
Proof.
  intros Hr Hten Hd He Hb Ho Hl Hmax. destruct (read_ended_page display resolved text collation offset limit w Hd He Ho Hl) as [-> _]. intros [= <-].
  assert (1 <= length (page text offset limit) <= length (lines_of_text text))%nat as Hp by (unfold page; rewrite length_take, length_skipn; lia).
  unfold FileTools.write_file, refuses_content. rewrite (displayed_is_internal bound'); [by eexists|done|lia|..].
  - rewrite length_app. cbn [length]. lia.
  - rewrite length_app. cbn [length]. lia.
  - apply Forall_app. split; [|by repeat constructor]. unfold page. by apply Forall_take, Forall_drop.
Qed.


(** ** Reads that are answered from memory *)

(** A read as it was asked for, with the files and the memory it met. *)
Record asked := mk_asked {
  as_display : string; as_resolved : string; as_offset : json; as_limit : json; as_collation : option string; as_world : W; as_memory : memory;
}.

Definition key_of (a : asked) : read_region :=
  (a.(as_resolved), Z.max 1 (coerce_int truncated a.(as_offset) 1), Z.max 1 (Z.min (coerce_int truncated a.(as_limit) DEFAULT_READ_LIMIT) MAX_LINES)).

Definition answer (a : asked) : memory * string :=
  read_file a.(as_display) a.(as_resolved) a.(as_offset) a.(as_limit) a.(as_collation) a.(as_world) a.(as_memory).

(** What is in the file, as a read would show it. *)
Definition content_now (a : asked) : json :=
  get_or_null (within_budget (key_of a).1.2 (read_window a.(as_display) a.(as_resolved) (key_of a).1.2 (key_of a).2 a.(as_collation) a.(as_world))) "content".

(** The tools at work, while the files may change in any way between two of
    their calls: every read, and what is remembered. *)
Inductive tools_run : list asked → W → memory → Prop :=
  | tools_run_start w : tools_run [] w new_state
  | tools_run_read l w m display resolved offset limit collation : tools_run l w m →
      let a := mk_asked display resolved offset limit collation w m in tools_run (l ++ [a]) w (answer a).1
  | tools_run_world l w w' m : tools_run l w m → tools_run l w' m
  | tools_run_patch l w m w' m' display resolved old new all write out : tools_run l w m →
      patch display resolved old new all write w m = (w', m', out) → tools_run l w' m'
  | tools_run_write l w m w' m' display resolved content write out : tools_run l w m →
      write_file display resolved content write w m = Some (w', m', out) → tools_run l w' m'
  | tools_run_delete l w m resolved : tools_run l w m → tools_run l w (invalidate_path resolved m)
  | tools_run_compaction l w m : tools_run l w m → tools_run l w (reset_dedup m).

(** A read of the file itself. *)
Definition read_itself (a : asked) : Prop := unchanged_read dumps a.(as_display) (key_of a) a.(as_world) a.(as_memory) = None.

Lemma remember_dedup display k cut w m key t : dict_get (remember_read display k cut w m).(dedup) key = Some t →
  dict_get m.(dedup) key = Some t ∨ (key = k ∧ getmtime k.1.1 w = Some t).
Proof.
  destruct k as [[resolved offset] limit]. unfold remember_read. cbv zeta.
  set (m1 := count_call _ _). assert (m1.(dedup) = m.(dedup)) as Hm1 by (unfold m1, count_call; by destruct (bool_decide _)).
  assert (∀ partial m, (record_read resolved partial w m).(dedup) = m.(dedup)) as Hrec
    by (intros partial m0; unfold record_read; by destruct (getmtime _ _)).
  rewrite Hrec. unfold stamp_read. cbn [fst]. destruct (getmtime resolved w) as [mtime|]; cbn [dedup]; [|rewrite Hm1; by left].
  change (dict_get (dict_set (resolved, offset, limit) mtime m1.(dedup)) key = Some t → dict_get m.(dedup) key = Some t ∨ (key = (resolved, offset, limit) ∧ Some mtime = Some t)).
  rewrite Hm1. destruct (decide (key = (resolved, offset, limit))) as [->|Hne].
  - rewrite dict_get_set_eq. intros [= ->]. by right.
  - rewrite dict_get_set_ne by congruence. by left.
Qed.

Lemma large_file_content limit r : get_or_null (large_file_hint limit r) "content" = get_or_null r "content".
Proof.
  unfold large_file_hint. destruct (get_or_null r "file_size"); try done. destruct (_ && _); [|done].
  unfold get_or_null, dict_get_default. by rewrite dict_get_set_ne.
Qed.

(** What a read of the file itself does to the regions that were answered. *)
Lemma read_dedup a key t : dict_get (answer a).1.(dedup) key = Some t →
  dict_get a.(as_memory).(dedup) key = Some t ∨
  (key = key_of a ∧ read_itself a ∧ getmtime a.(as_resolved) a.(as_world) = Some t ∧
   (4 <= (answer a).1.(consecutive) ∨ ∃ result, (answer a).2 = dumps (JObj result) ∧ get_or_null result "content" = content_now a)).
Proof.
  unfold answer, FileTools.read_file, content_now, read_itself. set (k := key_of a). unfold key_of in k.
  set (offset := Z.max 1 _) in k. set (limit := Z.max 1 (Z.min _ _)) in k. cbv zeta.
  fold offset limit. subst k. cbn [fst snd]. destruct (special_file_kind _ _); [by left|]. destruct (_ && _); [by left|].
  destruct (unchanged_read _ _ _ _ _) as [[m1 t1]|] eqn:Hu.
  { intros Hg. left. cbn [fst] in Hg. unfold unchanged_read in Hu. destruct (dict_get _ _) as [c|]; [|done]. cbn [mbind option_bind] in Hu.
    destruct (getmtime _ _); [|done]. cbn [mbind option_bind] in Hu. destruct (negb _); [done|]. by injection Hu as <- _. }
  set (result := large_file_hint _ _).
  set (m1 := remember_read _ _ _ _ _). assert (get_or_null result "content" = get_or_null (within_budget offset (read_window (as_display a) (as_resolved a) offset limit (as_collation a) (as_world a))) "content") as Hc
    by apply large_file_content.
  assert (∀ v, get_or_null (dict_set "_warning" v result) "content" = get_or_null result "content") as Hw
    by (intros v; unfold get_or_null, dict_get_default; by rewrite dict_get_set_ne).
  destruct (get_or_null result "error"); try (by left);
    (destruct (Z.leb_spec 4 (consecutive m1)) as [H4|_];
     cbn [fst snd]; [intros [Hg|[-> Hg]]%remember_dedup; [by left|right; split_and!; [done|done|done|by left]]
     |intros [Hg|[-> Hg]]%remember_dedup; [by left|right; split_and!; [done|done|done|right; eexists; split; [reflexivity|]; destruct (3 <=? _); by rewrite ?Hw]]]).
Qed.

Definition answers_are_known (l : list asked) (m : memory) : Prop :=
  ∀ key t, dict_get m.(dedup) key = Some t → ∃ a, a ∈ l ∧ key_of a = key ∧ read_itself a ∧ getmtime a.(as_resolved) a.(as_world) = Some t ∧
    (4 <= (answer a).1.(consecutive) ∨ ∃ result, (answer a).2 = dumps (JObj result) ∧ get_or_null result "content" = content_now a).

Lemma fewer_answers l m m' : answers_are_known l m → (∀ key t, dict_get m'.(dedup) key = Some t → dict_get m.(dedup) key = Some t) → answers_are_known l m'.
Proof. intros Hk Hm key t Hg. by apply Hk, Hm. Qed.

Lemma invalidate_fewer resolved m key t : dict_get (invalidate_path resolved m).(dedup) key = Some t → dict_get m.(dedup) key = Some t.
Proof. rewrite invalidated. by destruct (is_of resolved key). Qed.

Lemma after_write_fewer resolved w m key t : dict_get (after_write resolved w m).(dedup) key = Some t → dict_get m.(dedup) key = Some t.
Proof. rewrite written_dedup. by destruct (is_of resolved key). Qed.

Lemma patch_fewer display resolved old new all write w m w' m' out key t : patch display resolved old new all write w m = (w', m', out) →
  dict_get m'.(dedup) key = Some t → dict_get m.(dedup) key = Some t.
Proof.
  unfold FileTools.patch. destruct (negb _); [by intros [= _ <- _]|]. destruct old as [old|], new as [new|]; try (by intros [= _ <- _]). cbv zeta.
  set (warning := write_warning _ _ _ _). destruct (if negb (isfile resolved w) then _ else _) as [[w1 m1] r] eqn:Hp.
  assert (∀ key t, dict_get m1.(dedup) key = Some t → dict_get m.(dedup) key = Some t) as Hm1.
  { destruct (negb (isfile resolved w)); [by injection Hp as <- <- <-|]. unfold patch_regular in Hp. cbv zeta in Hp.
    destruct (_ || _); [destruct (is_already_applied _ _ _); by injection Hp as <- <- <-|]. destruct (write _ w) as [w2 answer'].
    destruct (failed answer'); [by injection Hp as <- <- <-|]. injection Hp as <- <- <-. intros k u. apply after_write_fewer. }
  pose proof (count_keeps display resolved (with_warning warning r) m1) as Hc. destruct (count_patch_failure _ _ _ _ _) as [m2 r2].
  destruct Hc as [[failures ->] _]. intros [= <- <- _]. apply Hm1.
Qed.

Lemma write_fewer display resolved content write w m w' m' out key t : write_file display resolved content write w m = Some (w', m', out) →
  dict_get m'.(dedup) key = Some t → dict_get m.(dedup) key = Some t.
Proof.
  unfold FileTools.write_file. destruct content as [content|]; [|by intros [= _ <- _]].
  destruct (refuses_content _ _ _ _ _) as [[text|]|]; cbn [mbind option_bind]; [by intros [= _ <- _]| |done]. cbv zeta.
  destruct (write _ w) as [w1 answer']. destruct (failed answer'); [by intros [= _ <- _]|]. intros [= _ <- _]. apply after_write_fewer.
Qed.

Lemma tools_run_known l w m : tools_run l w m → answers_are_known l m.
Proof.
  induction 1 as [w|l w m display resolved offset limit collation Hs IH a|l w w' m Hs IH|l w m w' m' display resolved old new all write out Hs IH Hp
    |l w m w' m' display resolved content write out Hs IH Hp|l w m resolved Hs IH|l w m Hs IH].
  - done.
  - intros key t [Hg|(-> & Hi & Ht & Ha)]%read_dedup.
    + destruct (IH key t Hg) as (b & Hb & H'). exists b. split; [apply elem_of_app; by left|done].
    + exists a. split_and!; try done. apply elem_of_app. right. by left.
  - done.
  - eapply fewer_answers; [exact IH|]. intros key t. by eapply patch_fewer.
  - eapply fewer_answers; [exact IH|]. intros key t. by eapply write_fewer.
  - eapply fewer_answers; [exact IH|]. intros key t. apply invalidate_fewer.
  - intros key t Hg. done.
Qed.

End tools.

(** ** Runs *)

Module Examples.
(** One file, with the time of its last change. *)
Definition disk : Type := string * Z.
Definition path : string := "/w/notes.txt".
#[export] Instance one_file : Files disk := {
  kind_of p _ := if String.eqb p path then Regular else if String.eqb p "/w" then Directory else Missing;
  getmtime p w := if String.eqb p path then Some w.2 else None;
  bytes_of p w := if String.eqb p path then w.1 else "";
  ls_output _ _ _ := "notes.txt";
}.
Definition save (content : string) (w : disk) : disk * option string := ((content, w.2 + 1), None).

(** What of an answer matters here: its error, its status, or its content. *)
Definition show (j : json) : string :=
  match j with
  | JObj d => match get_or_null d "error", get_or_null d "status", get_or_null d "content" with
              | JStr e, _, _ => e
              | _, JStr s, _ => s
              | _, _, JStr c => c
              | _, _, _ => ""
              end
  | _ => ""
  end.
Definition shared (a b : string) : nat := 0.
Definition no_opcodes (a b : string) : list opcode := [].
Definition any_diff (a b label : string) : string := "--- a/" +:+ label.
Definition fine (ext content : string) : bool * string := (true, "").
Definition as_is (errors bytes : string) : string := bytes.
Definition no_float (lit : string) : option Z := None.
Definition quoted (s : string) : string := "'" +:+ s +:+ "'".

Definition read (m : memory) (w : disk) : memory * string :=
  FileTools.read_file shared as_is no_float show show "notes.txt" path (JInt 1) (JInt 500) None w m.
Definition edit (old new : string) (m : memory) (w : disk) : disk * memory * (string * bool) :=
  FileTools.patch shared no_opcodes any_diff fine as_is show quoted "notes.txt" path (Some old) (Some new) false save w m.
Definition window (offset limit : Z) (w : disk) : dict string json := FileTools.read_window shared as_is "notes.txt" path offset limit None w.

Definition three_lines : disk := (joined ["one"; "two"; "three"; ""], 7).

Example a_page_says_where_to_go_on :
  get_or_null (window 1 2 three_lines) "content" = JStr (joined ["1|one"; "2|two"; "3|"]) ∧
  get_or_null (window 1 2 three_lines) "hint" = JStr "Use offset=3 to continue reading (showing 1-2 of 3 lines)" ∧
  get_or_null (window 3 2 three_lines) "content" = JStr (joined ["3|three"; "4|"]) ∧ is_truncated (window 3 2 three_lines) = false.
Proof. vm_compute. split_and!; reflexivity. Qed.

(** A last line that is not ended is not counted: the page before it says
    that there is nothing more. *)
Example an_unended_line_is_not_announced : let w : disk := (joined ["one"; "two"], 7) in
  get_or_null (window 1 1 w) "content" = JStr "1|one" ∧ is_truncated (window 1 1 w) = false ∧
  let m := (FileTools.read_file shared as_is no_float show show "notes.txt" path (JInt 1) (JInt 1) None w new_state).1 in
  write_warning m "notes.txt" path w = None.
Proof. vm_compute. split_and!; reflexivity. Qed.

(** A file that is read, patched, and read again to see the patch: the fourth
    such read is refused for a content that has not changed, and the fifth
    refers to a content that was never shown. *)
Example an_edited_file_is_not_shown :
  let '(m, t1) := read new_state three_lines in
  let '(w, m, _) := edit "one" "1" m three_lines in let '(m, t2) := read m w in
  let '(w, m, _) := edit "two" "2" m w in let '(m, t3) := read m w in
  let '(w, m, (_, changed)) := edit "three" "3" m w in let '(m, t4) := read m w in
  let '(m, t5) := read m w in
  t3 = joined ["1|1"; "2|2"; "3|three"; "4|"] ∧ changed = true ∧ w.1 = joined ["1"; "2"; "3"; ""] ∧
  t4 = "BLOCKED: You have read this exact file region 4 times in a row. The content has NOT changed. You already have this information. STOP re-reading and proceed with your task." ∧
  t5 = "unchanged".
Proof. vm_compute. split_and!; reflexivity. Qed.

(** A superscript before a bar is taken for a number, and reading it as one
    raises. *)
Example a_superscript_is_no_number :
  looks_like_read_file_line_numbered_content (joined [String "178" "|area"; String "179" "|volume"]) = None.
Proof. vm_compute. reflexivity. Qed.

Example endings_are_kept : let w : disk := ("a" +:+ crlf +:+ "b" +:+ crlf, 7) in
  (edit "b" (joined ["b"; "c"]) new_state w).1.1.1 = "a" +:+ crlf +:+ "b" +:+ crlf +:+ "c" +:+ crlf.
Proof. vm_compute. reflexivity. Qed.

Lemma three_lines_displayed : displays as_is path (joined ["one"; "two"; "three"; ""]) three_lines.
Proof. split; vm_compute; reflexivity. Defined.




Lemma a_patch_is_one_write_witness :
  ∃ written, (edit "two" "2" new_state three_lines).1.1 = (save written three_lines).1.
Proof.
  destruct (edit "two" "2" new_state three_lines) as [[w' m'] [text changed]] eqn:He.
  destruct (a_patch_is_one_write shared no_opcodes any_diff fine as_is show quoted "notes.txt" path "two" "2" false save three_lines new_state w' m' text changed He)
    as [(Hc & _)|(_ & _ & written & Hw & _)].
  - exfalso. apply (f_equal (λ x, x.2.2)) in He. subst changed. vm_compute in He. discriminate.
  - exists written. exact Hw.
Defined.
End Examples.
