(* ===== verification/TerminalTools.v ===== *)
(** * The terminal tool of the coding core: [client/agent/tools.py]

    The script that runs one command in the session of a turn, what is read
    back from what it printed, and the result the model sees, with the notes
    of [client/agent/hermes/exit_codes.py] and [terminal_hints.py] and the
    escape sequences that [ansi_strip.py] removes.  A shell that runs the
    script is the other side: what it prints is [printed]. *)

From Stdlib Require Import Ascii.
From S2P Require Import Prelude Texts Values Shell Regex AgentDispatch FuzzyMatch FuzzyMatchProps FileTools FileToolsProps.

#[local] Open Scope Z_scope.
Open Scope py_scope.

Definition nl : string := String Shell.newline "".

(** ** Escape sequences *)

Definition between (a b : N) : regex := RSet (in_range a b).
Definition one (n : N) : regex := RSet (in_range n n).
Definition anything : regex := RStar false (RSet (λ _, true)).
Definition either (l : list regex) : regex := foldr RAlt RNone l.
Definition in_sequence (l : list regex) : regex := foldr RSeq REmpty l.

Definition csi : list regex := [RStar true (between 48 63); RStar true (between 32 47); between 64 126].
Definition ANSI_ESCAPE_RE : regex :=
  either
    [RSeq (one 27)
       (either [in_sequence (one 91 :: csi);
                in_sequence [one 93; anything; either [one 7; RSeq (one 27) (one 92)]];
                in_sequence [either [one 80; one 88; one 94; one 95]; anything; one 27; one 92];
                in_sequence [between 32 47; RStar true (between 32 47); between 48 126];
                between 48 126]);
     in_sequence (one 155 :: csi);
     in_sequence [one 157; anything; either [one 7; one 156]];
     between 128 159].

Definition has_escape (text : string) : bool := negb (all_chars (λ c, negb (in_range 27 27 c || in_range 128 159 c)) text).
Definition strip_ansi (text : string) : string := if has_escape text then re_sub ANSI_ESCAPE_RE (λ _, "") text else text.

(** ** Exit codes *)

Definition SIGNAL_EXIT_NOTES : dict Z string :=
  [(3, "SIGQUIT (quit from keyboard)"); (4, "SIGILL (illegal instruction -- corrupt binary or wrong architecture)");
   (6, "SIGABRT (abort -- assertion failure, fatal runtime error, or glibc abort)"); (7, "SIGBUS (bus error -- misaligned or unmapped memory access)");
   (8, "SIGFPE (fatal arithmetic error, e.g. integer division by zero)");
   (9, "SIGKILL -- often the kernel OOM killer on memory exhaustion, or an explicit kill -9"); (11, "SIGSEGV (segmentation fault -- the program crashed)");
   (13, "SIGPIPE (wrote to a closed pipe -- e.g. output piped to a reader that exited)");
   (15, "SIGTERM (terminated -- kill/timeout or shutdown requested it to stop)"); (24, "SIGXCPU (CPU time limit exceeded)");
   (25, "SIGXFSZ (file size limit exceeded)")].

(** [signal_name] is the platform's name of a signal. *)
Definition interpret_signal_exit (signal_name : Z → option string) (exit_code : Z) : option string :=
  if exit_code <? 0 then
    let signum := - exit_code in
    if signum =? 2 then None else
    match dict_get SIGNAL_EXIT_NOTES signum with
    | Some note => Some ("Command terminated by signal " +:+ pretty signum +:+ ": " +:+ note)
    | None => Some ("Command terminated by " +:+ default ("signal " +:+ pretty signum) (signal_name signum) +:+ " (signal " +:+ pretty signum +:+ ")")
    end
  else if 128 <? exit_code then
    let signum := exit_code - 128 in
    note ← dict_get SIGNAL_EXIT_NOTES signum;
    Some ("Exit code " +:+ pretty exit_code +:+ " usually means the command was terminated by signal " +:+ pretty signum +:+ ": " +:+ note)
  else None.

Definition NO_MATCHES : dict Z string := [(1, "No matches found (not an error)")].
Definition EXIT_SEMANTICS : dict string (dict Z string) :=
  [("grep", NO_MATCHES); ("egrep", NO_MATCHES); ("fgrep", NO_MATCHES); ("rg", NO_MATCHES); ("ag", NO_MATCHES); ("ack", NO_MATCHES);
   ("diff", [(1, "Files differ (expected, not an error)")]); ("colordiff", [(1, "Files differ (expected, not an error)")]);
   ("find", [(1, "Some directories were inaccessible (partial results may still be valid)")]);
   ("test", [(1, "Condition evaluated to false (expected, not an error)")]); ("[", [(1, "Condition evaluated to false (expected, not an error)")]);
   ("curl", [(6, "Could not resolve host"); (7, "Failed to connect to host"); (22, "HTTP response code indicated error (e.g. 404, 500)");
             (28, "Operation timed out")]);
   ("git", [(1, "Non-zero exit (often normal -- e.g. 'git diff' returns 1 when files differ)")])].

Definition OPERATORS : regex := pattern plain "\s*(?:\|\||&&|[|;])\s*".

(** The first word of the last segment that assigns no variable. *)
Definition base_command (command : string) : option string :=
  let last_segment := py_strip (List.last (re_split OPERATORS command) "") in
  last_part ← List.find (λ w, negb (contains "=" w && negb (String.prefix "-" w))) (words last_segment);
  let name := base_of last_part in if str_true name then Some name else None.

Definition interpret_exit_code (signal_name : Z → option string) (command : string) (exit_code : Z) : option string :=
  if exit_code =? 0 then None else
  match interpret_signal_exit signal_name exit_code with
  | Some note => Some note
  | None => base_cmd ← base_command command; notes ← dict_get EXIT_SEMANTICS base_cmd; dict_get notes exit_code
  end.

(** ** Hints *)

Definition SCAN_CHARS : nat := 4000.
Definition MULTI : flags := mk_flags false true false.

Definition UNKNOWN_JSON_FIELD : regex := pattern plain ("Unknown JSON field: " +:+ dquote +:+ "?(\w+)").
Definition COMMAND_NOT_FOUND : regex := pattern plain "(?:bash: line \d+: |bash: |sh: \d*:? ?)?([\w.+-]+): command not found".
Definition MODULE_NOT_FOUND : regex := pattern plain "(?:ModuleNotFoundError|ImportError): No module named '?([\w.]+)".
Definition MERGE_CONFLICT : regex := pattern MULTI "^CONFLICT |Automatic merge failed|needs merge".
Definition ALREADY_EXISTS : regex := pattern plain "(?:fatal|error):.*?'([^']+)' already exists".

Definition group_of (r : regex) (text : string) : option string := m ← Regex.search r text; Some (default "" (group 1 m)).

Definition hint_gh_unknown_json_field (output : string) : option string :=
  field ← group_of UNKNOWN_JSON_FIELD output;
  Some ("The installed gh does not support the JSON field '" +:+ field
        +:+ "'. The valid field list is printed in the output above -- retry using only fields from that list.").

Definition hint_command_not_found (output : string) : option string :=
  missing ← group_of COMMAND_NOT_FOUND output;
  Some (if String.eqb missing "python" then
          "This system has no bare `python` -- use `python3`, or the project venv's interpreter (e.g. .venv/bin/python)."
        else if String.eqb missing "pip" then
          "This system has no bare `pip` -- use `pip3`, `python3 -m pip`, or the project venv's pip (e.g. .venv/bin/pip)."
        else "`" +:+ missing +:+ "` is not installed or not on PATH. Verify with `which " +:+ missing
             +:+ "`; install it or use an absolute path instead of retrying the same command.").

Definition hint_module_not_found (output : string) : option string :=
  name ← group_of MODULE_NOT_FOUND output;
  Some ("Python cannot import '" +:+ name +:+ "'. Most often the wrong interpreter is running: activate the project venv (e.g. `source .venv/bin/activate`) or invoke its python directly. Only pip install if the package is genuinely absent from that venv.").

Definition hint_merge_conflict (output : string) : option string :=
  if negb (searches MERGE_CONFLICT output) then None else
  Some "Git merge conflict. Do not retry this command. Resolve the conflicted files listed above (edit, then `git add`), then continue (`git rebase --continue` / commit the merge) -- or abort with `--abort`.".

Definition hint_already_exists (output : string) : option string :=
  name ← group_of ALREADY_EXISTS output;
  Some ("'" +:+ name +:+ "' already exists -- retrying unchanged will keep failing. Reuse it, choose another name, or delete it first if it is genuinely stale.").

Definition hint_gh_rate_limit (output : string) : option string :=
  if negb (contains "API rate limit" output) && negb (contains "was submitted too quickly" output) then None else
  Some "GitHub API rate limit hit -- immediate retries will keep failing. Continue with other work and retry this operation later.".

Definition hint_permission_denied (output : string) : option string :=
  if negb (contains "Permission denied" output) && negb (contains "EACCES" output) then None else
  Some "Permission denied. Check ownership/mode of the target path (`ls -la`); prefer a user-writable location. Only escalate to sudo if the task genuinely requires it.".

Definition OUTPUT_HINTS : list (string → option string) :=
  [hint_gh_unknown_json_field; hint_merge_conflict; hint_command_not_found; hint_module_not_found; hint_already_exists; hint_gh_rate_limit;
   hint_permission_denied].

Definition EXIT_CODE_HINTS : dict Z string :=
  [(126, "Exit 126: the file was found but is not executable -- `chmod +x` it or invoke it via its interpreter (e.g. `bash script.sh`).");
   (137, "Exit 137: the process was SIGKILLed -- usually out-of-memory or an external kill. Reduce memory use or check `dmesg | tail` before retrying.");
   (124, "Exit 124: the command hit its timeout. Raise timeout= (foreground max 600s) or run it with background=true and notify_on_complete=true.")].

Definition annotate_failure (exit_code : Z) (output : string) : option string :=
  if exit_code =? 0 then None else
  match omap (λ hint, hint (upto SCAN_CHARS output)) OUTPUT_HINTS with
  | hint :: _ => Some hint
  | [] => dict_get EXIT_CODE_HINTS exit_code
  end.

Definition PASSTHROUGH_CONSUMERS : string := "(?:tail|head|cat|tee|less|more|wc|sort|uniq)".
Definition MASKING_PIPE_RE : regex := pattern plain ("(?<!\|)\|(?!\|)\s*" +:+ PASSTHROUGH_CONSUMERS +:+ "\b[^|]*$").
Definition MASKING_OR_RE : regex := pattern plain "\|\|\s*(?:echo\b|printf\b|true\b|:\s|:$)".
Definition READONLY_HEADS : list string :=
  ["grep"; "rg"; "ag"; "find"; "ls"; "cat"; "head"; "tail"; "jq"; "awk"; "sed"; "strings"; "zcat"; "journalctl"; "dmesg"; "echo"; "printf"].

(** The parts with [(?m:...)] are the only ones where a line may begin. *)
Definition FAILURE_SHAPES : regex :=
  pattern MULTI "(?:error\[E\d+\]|error: could not compile|error: aborting due to|Traceback \(most recent call last\)|(?:^(?:=+ )?\d+ failed)|(?:^FAILED (?:\S+::|\S+\.py))|compilation terminated\.|npm ERR!|BUILD FAILED|Build FAILED|FAILED: |(?:^make(?:\[\d+\])?: \*\*\*))".

Definition first_token (command : string) : string :=
  default "" (base_of <$> List.find (λ tok, negb (contains "=" tok && negb (String.prefix "=" tok || String.prefix "./" tok || String.prefix "/" tok)))
                            (words (py_strip command))).

Definition annotate_masked_success (command output : string) : option string :=
  let window := upto SCAN_CHARS output in
  if negb (str_true command) || negb (str_true window) then None else
  if bool_decide (first_token command ∈ READONLY_HEADS) then None else
  if negb (searches FAILURE_SHAPES window) then None else
  if searches MASKING_PIPE_RE command then
    Some "exit_code 0 here is the status of the last pipeline command (tail/head/cat/...), NOT of the command before the pipe -- and the output contains failure indicators. Treat this run as FAILED until proven otherwise: re-run the command WITHOUT the pipe (output is auto-truncated and the full text is saved to a file, so piping through tail/head is never needed) to get the real exit code."
  else if searches MASKING_OR_RE command then
    Some "exit_code 0 here is the status of the `||` fallback (echo/true), NOT of the command before it -- and the output contains failure indicators. Treat this run as FAILED until proven otherwise: re-run the command bare to get its real exit code."
  else None.

(** ** The session *)

(** The mark around what the script says of itself. *)
Definition MARK : string := String "030" "SPEAR_SESSION" +:+ String "030" "".
Definition TERMINAL_DEFAULT_TIMEOUT : Z := 180.
Definition MAX_OUTPUT : nat := 50000.

Definition terminal_timeout (truncated : string → option Z) (value : json) : option Z :=
  let timeout := match value with
                 | JNull => TERMINAL_DEFAULT_TIMEOUT
                 | JStr s => if str_true s then coerce_int truncated value TERMINAL_DEFAULT_TIMEOUT else TERMINAL_DEFAULT_TIMEOUT
                 | _ => coerce_int truncated value TERMINAL_DEFAULT_TIMEOUT
                 end in
  if AgentDispatch.TERMINAL_MAX_TIMEOUT <? timeout then None else Some (Z.max 1 timeout).

(** [str.isalnum] below 256. *)
Definition isalnum (c : ascii) : bool :=
  is_alnum c || existsb (Ascii.eqb c) ["170"; "178"; "179"; "181"; "185"; "186"; "188"; "189"; "190"]%char
  || (in_range 192 255 c && negb (Ascii.eqb c "215" || Ascii.eqb c "247")).

Definition WORKDIR_SAFE_ASCII : string := "/\:_-.~ +@=,".
Definition safe_in_workdir (c : ascii) : bool := negb (in_range 0 31 c || Ascii.eqb c "127") && (isalnum c || one_of WORKDIR_SAFE_ASCII c).

Definition workdir_refusal (repr : string → string) (workdir : string) : option string :=
  match span safe_in_workdir workdir with
  | (_, String ch _) => Some ("Blocked: workdir contains disallowed character " +:+ repr (String ch "")
                              +:+ ". Use a simple filesystem path without shell metacharacters.")
  | _ => None
  end.

Definition blocked_result (error : string) : json :=
  JObj [("output", JStr ""); ("exit_code", JInt (-1)); ("error", JStr error); ("status", JStr "blocked")].
Definition terminal_blocked (dumps : json → string) (error : string) : string := dumps (blocked_result error).

(** [shlex.quote] *)
Definition shlex_safe (c : ascii) : bool := is_alnum c || one_of "_@%+=:,./-" c.
Definition shlex_quote (s : string) : string :=
  if negb (str_true s) then "''" else if all_chars shlex_safe s then s
  else "'" +:+ replace_text "'" ("'" +:+ dquote +:+ "'" +:+ dquote +:+ "'") s +:+ "'".

Definition quote_cwd_for_cd (cwd : string) : string :=
  if String.eqb cwd "~" then cwd else
  if String.eqb cwd "~/" then "$HOME" else
  if String.prefix "~/" cwd then "$HOME/" +:+ shlex_quote (drop 2 cwd) else shlex_quote cwd.

(** The directory or the nearest above it that can be entered. *)
Fixpoint above (enterable : string → bool) (fuel : nat) (parent : string) : option string :=
  match fuel with
  | O => None
  | S fuel =>
      if negb (str_true parent) then None else
      if enterable parent then Some parent else
      if String.eqb (dirname parent) parent then None else above enterable fuel (dirname parent)
  end.
Definition usable_dir (enterable : string → bool) (tempdir path : string) : string :=
  if enterable path then path else default tempdir (above enterable (S (String.length path)) (dirname path)).

Definition HEAD_CHARS : nat := 20000.
Definition TAIL_CHARS : nat := 30000.

Definition inner_script (command cwd : string) : list string :=
  ["source " +:+ dquote +:+ "$__SPEAR_D/snap" +:+ dquote +:+ " >/dev/null 2>&1 || true";
   "export AI_AGENT=" +:+ dquote +:+ "${AI_AGENT:-hermes-agent}" +:+ dquote +:+ " HERMES_AGENT=" +:+ dquote +:+ "${HERMES_AGENT:-true}" +:+ dquote;
   "export GIT_PAGER=" +:+ dquote +:+ "${GIT_PAGER:-cat}" +:+ dquote +:+ " PAGER=" +:+ dquote +:+ "${PAGER:-cat}" +:+ dquote;
   "builtin cd -- " +:+ (if str_true cwd then quote_cwd_for_cd cwd else ".") +:+ " || exit 126";
   "eval '" +:+ replace_text "'" "'\''" command +:+ "'";
   "__spear_ec=$?";
   "pwd -P > " +:+ dquote +:+ "$__SPEAR_D/cwd" +:+ dquote; "export -p > " +:+ dquote +:+ "$__SPEAR_D/env" +:+ dquote;
   "exit $__spear_ec"].

(** [tag] and [snap_tag] are drawn at random. *)
Definition session_script (tag snap_tag command cwd exports : string) (timeout : Z) (start : string) : string :=
  let d s := dquote +:+ s +:+ dquote in
  joined
    (["__SPEAR_D=$(mktemp -d)"; "cat > " +:+ d "$__SPEAR_D/snap" +:+ " <<'" +:+ snap_tag +:+ "'"]
     ++ (if str_true exports then [exports] else [])
     ++ [snap_tag; "cat > " +:+ d "$__SPEAR_D/inner" +:+ " <<'" +:+ tag +:+ "'"] ++ inner_script command cwd ++ [tag; "export __SPEAR_D"]
     ++ (if str_true start then ["builtin cd -- " +:+ shlex_quote start +:+ " 2>/dev/null"] else [])
     ++ ["timeout -k 2 " +:+ pretty timeout +:+ " " +:+ d "$(command -v bash)" +:+ " -c " +:+ d ("$(cat " +:+ d "$__SPEAR_D/inner" +:+ ")")
           +:+ " > " +:+ d "$__SPEAR_D/out" +:+ " 2>&1 < /dev/null";
         "__spear_ec=$?"; "__spear_size=$(wc -c < " +:+ d "$__SPEAR_D/out" +:+ ")"; "printf '%s\n' '" +:+ MARK +:+ "'";
         "printf 'exit %s\nsize %s\n' " +:+ d "$__spear_ec" +:+ " " +:+ d "$__spear_size";
         "printf 'cwd %s\n' " +:+ d ("$(cat " +:+ d "$__SPEAR_D/cwd" +:+ " 2>/dev/null)");
         "cat " +:+ d "$__SPEAR_D/env" +:+ " 2>/dev/null"; "printf '%s\n' '" +:+ MARK +:+ "'";
         "if [ " +:+ d "$__spear_size" +:+ " -gt " +:+ pretty (Z.of_nat MAX_OUTPUT) +:+ " ]; then";
         "  head -c " +:+ pretty (Z.of_nat HEAD_CHARS) +:+ " " +:+ d "$__SPEAR_D/out" +:+ "; printf '%s' '" +:+ MARK +:+ "'; tail -c "
           +:+ pretty (Z.of_nat TAIL_CHARS) +:+ " " +:+ d "$__SPEAR_D/out";
         "else cat " +:+ d "$__SPEAR_D/out" +:+ "; fi"; "exit $__spear_ec"]).

Definition SESSION_VARS : regex :=
  pattern plain "^declare -[-a-zA-Z]* (PWD|OLDPWD|SHLVL|_|BASH_[A-Z_]*|BASHOPTS|SHELLOPTS|HOSTNAME|PPID|RANDOM|SECONDS|LINENO|EUID|UID|GROUPS|__SPEAR_[A-Z_]*)(=|$)".

(** A line that declares a variable to carry over. *)
Definition carried (line : string) : bool := String.prefix "declare -x " line && negb (bool_decide (is_Some (match_ SESSION_VARS line))).

Record parsed := mk_parsed { ps_code : Z; ps_size : Z; ps_cwd : string; ps_exports : string; ps_output : string }.

(** [f"{n:,}"], a number below nothing included. *)
Definition grouped_z (n : Z) : string := if n <? 0 then "-" +:+ grouped (- n) else grouped n.

Definition header_fields (lines : list string) : dict string string :=
  foldl (λ d line, match find_text " " line with Some (key, value) => dict_set key value d | None => d end) [] (take 3 lines).

Definition parse_session (stdout : string) : option parsed :=
  if negb (String.prefix (MARK +:+ nl) stdout) then None else
  match partition (MARK +:+ nl) (drop (S (String.length MARK)) stdout) with
  | (header, Some body) =>
      let lines := text_lines header in
      let fields := header_fields lines in
      code ← int_of_str (dict_get_default fields "exit" "");
      size ← int_of_str (dict_get_default fields "size" "0");
      let body := match partition MARK body with
                  | (head_, Some tail_) =>
                      let omitted := size - Z.of_nat (String.length head_) - Z.of_nat (String.length tail_) in
                      head_ +:+ nl +:+ nl +:+ "... [OUTPUT TRUNCATED - " +:+ grouped_z omitted +:+ " chars omitted out of " +:+ grouped_z size +:+ " total] ..."
                      +:+ nl +:+ nl +:+ tail_
                  | (body, None) => body
                  end in
      Some (mk_parsed code size (py_strip (dict_get_default fields "cwd" "")) (joined (List.filter carried (skipn 3 lines))) body)
  | _ => None
  end.

Section results.
  Context (signal_name : Z → option string) (dumps : json → string) (realpath : string → string).

Definition terminal_result (command output_ : string) (exit_code_ : Z) (cwd_changed : option string) : string :=
  let output_ := py_strip (strip_ansi output_) in
  let extra := match interpret_exit_code signal_name command exit_code_ with
               | Some note => [("exit_code_meaning", JStr note)]
               | None =>
                   match (if exit_code_ =? 0 then annotate_masked_success command output_ else annotate_failure exit_code_ output_) with
                   | Some hint => [("hint", JStr hint)]
                   | None => []
                   end
               end in
  dumps (JObj ([("output", JStr output_); ("exit_code", JInt exit_code_); ("error", JNull)]
               ++ match cwd_changed with Some cwd => [("cwd", JStr cwd)] | None => [] end ++ extra)).

Definition TIMED_OUT (timeout : Z) : string := "[Command timed out after " +:+ pretty timeout +:+ "s]".

(** The answer of one command, and the session it leaves. *)
Definition terminal_from_outcome (command : string) (oc : CommandOutcome) (ss : AgentDispatch.session) (root : string) (timeout : Z) (workdir : option string)
    : AgentDispatch.session * (string * option Z * bool) :=
  if String.eqb oc.(status) "denied" then
    (ss, (dumps (blocked_result (str_or oc.(summary) "refused")), Some (-1), false))
  else if String.eqb oc.(status) "cancelled" then (ss, (terminal_result command "[Command interrupted]" 130 None, Some 130, false))
  else
  match parse_session oc.(output) with
  | None =>
      if String.eqb oc.(status) "timeout" then (ss, (terminal_result command (TIMED_OUT timeout) 124 None, Some 124, true))
      else (ss, (dumps (JObj [("output", JStr (py_strip oc.(output))); ("exit_code", JInt (-1));
                              ("error", JStr ("Command execution failed: " +:+ str_or oc.(summary) "no result"))]), Some (-1), false))
  | Some p =>
      let late := (p.(ps_code) =? 124) || (p.(ps_code) =? 137) in
      let code := if late then 124 else p.(ps_code) in
      let output_ := if late then lstrip_chars nl (p.(ps_output) +:+ nl +:+ TIMED_OUT timeout) else p.(ps_output) in
      let before := match workdir with Some w => path_join root w | None => str_or (default "" ss.(ss_cwd)) root end in
      let arrived := str_true p.(ps_cwd) && negb late in
      let ss' := if arrived then
                   mk_session (match workdir with Some _ => ss.(ss_cwd) | None => Some p.(ps_cwd) end) p.(ps_exports) (Some p.(ps_cwd))
                 else ss in
      let moved := if arrived && negb (String.eqb (realpath p.(ps_cwd)) (realpath before)) then Some p.(ps_cwd) else None in
      (ss', (terminal_result command output_ code moved, Some code, late))
  end.
End results.

(** ** What the shell says is what is read *)

(** The mark's first character. *)
Definition separator : ascii := "030".
Definition unmarked (s : string) : bool := all_chars (λ c, negb (Ascii.eqb c separator)) s.

(** What is printed of an output: its two ends where it is long. *)
Definition printed_output (out : string) : string :=
  if (MAX_OUTPUT <? String.length out)%nat then upto HEAD_CHARS out +:+ MARK +:+ drop (String.length out - TAIL_CHARS) out else out.

(** What the script prints, of a command that ended with a code in a directory,
    with what [export -p] declares. *)
Definition printed (code : Z) (cwd : string) (env : list string) (out : string) : string :=
  MARK +:+ nl +:+ joined (["exit " +:+ pretty code; "size " +:+ pretty (Z.of_nat (String.length out)); "cwd " +:+ cwd] ++ env ++ [""])
  +:+ MARK +:+ nl +:+ printed_output out.

(** What is read of an output. *)
Definition read_output (out : string) : string :=
  if (MAX_OUTPUT <? String.length out)%nat then
    upto HEAD_CHARS out +:+ nl +:+ nl +:+ "... [OUTPUT TRUNCATED - " +:+ grouped_z (Z.of_nat (String.length out) - 50000) +:+ " chars omitted out of "
    +:+ grouped_z (Z.of_nat (String.length out)) +:+ " total] ..." +:+ nl +:+ nl +:+ drop (String.length out - TAIL_CHARS) out
  else out.

Lemma find_first c m a b : all_chars (λ d, negb (Ascii.eqb d c)) a = true →
  find_text (String c m) (String.append a (String.append (String c m) b)) = Some (a, b).
Proof.
  intros Ha. induction a as [|d a IH].
  - change (String.append "" ?x) with x. destruct (String.append (String c m) b) as [|e s] eqn:Hd; [done|]. cbn [find_text].
    rewrite <- Hd, prefix_self, drop_self. done.
  - cbn in Ha. apply andb_true_iff in Ha as [Hc Ha]. change (String.append (String d a) ?x) with (String d (String.append a x)).
    cbn [find_text]. assert (String.prefix (String c m) (String d (String.append a (String.append (String c m) b))) = false) as ->.
    { cbn [String.prefix]. destruct (ascii_dec c d) as [<-|]; [|done]. by rewrite Ascii.eqb_refl in Hc. }
    by rewrite IH.
Qed.

Lemma find_none c m a : all_chars (λ d, negb (Ascii.eqb d c)) a = true → find_text (String c m) a = None.
Proof.
  intros Ha. induction a as [|d a IH]; [done|]. cbn in Ha. apply andb_true_iff in Ha as [Hc Ha]. cbn [find_text].
  assert (String.prefix (String c m) (String d a) = false) as ->.
  { cbn [String.prefix]. destruct (ascii_dec c d) as [<-|]; [|done]. by rewrite Ascii.eqb_refl in Hc. }
  by rewrite IH.
Qed.

Lemma find_space key value : all_chars (λ d, negb (Ascii.eqb d " ")) key = true →
  find_text " " (String.append key (String.append " " value)) = Some (key, value).
Proof. apply (find_first " " ""). Qed.

Lemma unmarked_app a b : unmarked (String.append a b) = unmarked a && unmarked b.
Proof. apply all_chars_app. Qed.

Lemma unmarked_joined l : Forall (λ s, unmarked s = true) l → unmarked (joined l) = true.
Proof.
  induction 1 as [|x l Hx Hl IH]; [done|]. destruct l as [|y l]; [done|]. rewrite joined_lines_cons, unmarked_app, Hx. exact IH.
Qed.

Lemma unmarked_pretty n : 0 <= n → unmarked (pretty n) = true.
Proof. intros Hn. apply pretty_chars; [done|]. intros d. unfold pretty_N_char. repeat (case_match; try done). Qed.

Lemma line_of_pretty n : 0 <= n → line_of (pretty n).
Proof. intros Hn. apply pretty_chars; [done|]. intros d. unfold pretty_N_char. repeat (case_match; try done). Qed.

Lemma line_of_app a b : line_of a → line_of b → line_of (String.append a b).
Proof. unfold line_of. rewrite all_chars_app. by intros -> ->. Qed.

Lemma sizes : Z.of_nat MAX_OUTPUT = 50000 ∧ Z.of_nat HEAD_CHARS = 20000 ∧ Z.of_nat TAIL_CHARS = 30000.
Proof. split_and!; vm_compute; reflexivity. Qed.

Lemma read_printed_output n out : n = Z.of_nat (String.length out) → unmarked out = true →
  match partition MARK (printed_output out) with
  | (head_, Some tail_) =>
      head_ +:+ nl +:+ nl +:+ "... [OUTPUT TRUNCATED - " +:+ grouped_z (n - Z.of_nat (String.length head_) - Z.of_nat (String.length tail_))
      +:+ " chars omitted out of " +:+ grouped_z n +:+ " total] ..." +:+ nl +:+ nl +:+ tail_
  | (body, None) => body
  end = read_output out.
Proof.
  intros -> Ho. destruct sizes as (HM & HH & HT). unfold printed_output, read_output, partition. destruct (Nat.ltb_spec MAX_OUTPUT (String.length out)) as [Hl|Hl].
  - assert (unmarked (upto HEAD_CHARS out) = true) as Hh by by apply substring_chars.
    change MARK with (String separator ("SPEAR_SESSION" +:+ String separator "")). rewrite find_first by done.
    rewrite upto_length by lia.
    assert (String.length (drop (String.length out - TAIL_CHARS) out) = TAIL_CHARS) as ->.
    { destruct (split_at (String.length out - TAIL_CHARS) out) as (a & b & Hab & Ha); [lia|]. rewrite Hab at 2. rewrite <- Ha, drop_self.
      apply (f_equal String.length) in Hab. rewrite length_append in Hab. lia. }
    rewrite HH, HT. do 4 f_equal. do 2 f_equal. lia.
  - change MARK with (String separator ("SPEAR_SESSION" +:+ String separator "")). by rewrite find_none.
Qed.

Lemma parse_printed code cwd env out : readable_number code → readable_number (Z.of_nat (String.length out)) →
  line_of cwd → Forall line_of env → unmarked cwd = true → Forall (λ s, unmarked s = true) env → unmarked out = true →
  parse_session (printed code cwd env out)
  = Some (mk_parsed code (Z.of_nat (String.length out)) (py_strip cwd) (joined (List.filter carried env)) (read_output out)).
Proof.
  intros Hcode Hsize Hcwd Henv Hmcwd Hmenv Hmout. pose proof (readable_nonneg _ Hcode) as Hcode0. pose proof (readable_nonneg _ Hsize) as Hsize0. unfold parse_session.
  set (size := Z.of_nat (String.length out)) in *. set (fields := ["exit " +:+ pretty code; "size " +:+ pretty size; "cwd " +:+ cwd]).
  set (header := joined (fields ++ env ++ [""])).
  assert (Forall line_of (fields ++ env ++ [""])) as Hlines.
  { repeat (apply Forall_app; split); [|done|by repeat constructor].
    repeat (constructor; [apply line_of_app; [done|by first [by apply line_of_pretty|done]]|]). constructor. }
  assert (unmarked header = true) as Hh.
  { apply unmarked_joined. repeat (apply Forall_app; split); [|done|by repeat constructor].
    repeat (constructor; [rewrite unmarked_app; by rewrite ?unmarked_pretty, ?Hmcwd by done|]). constructor. }
  assert (printed code cwd env out = String.append (String.append MARK nl) (String.append header (String.append (String.append MARK nl) (printed_output out)))) as ->
    by (unfold printed; fold fields header; by rewrite !append_assoc).
  rewrite prefix_self. cbn [negb]. change (S (String.length MARK)) with (String.length (String.append MARK nl)). rewrite drop_self.
  unfold partition at 1. change (String.append MARK nl) with (String separator ("SPEAR_SESSION" +:+ String separator nl)).
  rewrite find_first by done.
  assert (text_lines header = fields ++ env ++ [""]) as -> by (apply lines_joined; done).
  assert (header_fields (fields ++ env ++ [""]) = [("exit", pretty code); ("size", pretty size); ("cwd", cwd)]) as ->.
  { unfold header_fields, fields. cbn [app take foldl].
    change ("exit " +:+ pretty code) with (String.append "exit" (String.append " " (pretty code))).
    change ("size " +:+ pretty size) with (String.append "size" (String.append " " (pretty size))).
    change ("cwd " +:+ cwd) with (String.append "cwd" (String.append " " cwd)). by rewrite !find_space. }
  change (skipn 3 (fields ++ env ++ [""])) with (env ++ [""]).
  change (dict_get_default [("exit", pretty code); ("size", pretty size); ("cwd", cwd)] "exit" "") with (pretty code).
  change (dict_get_default [("exit", pretty code); ("size", pretty size); ("cwd", cwd)] "size" "0") with (pretty size).
  change (dict_get_default [("exit", pretty code); ("size", pretty size); ("cwd", cwd)] "cwd" "") with cwd.
  rewrite !int_of_pretty by done. cbn [mbind option_bind]. do 2 f_equal; [|by apply read_printed_output].
  f_equal. rewrite List.filter_app. cbn. by rewrite app_nil_r.
Qed.

Section sessions.
  Context (signal_name : Z → option string) (dumps : json → string) (realpath : string → string).

#[local] Abbreviation terminal_from_outcome := (terminal_from_outcome signal_name dumps realpath).
#[local] Abbreviation terminal_result := (terminal_result signal_name dumps).

(** What a shell may say: a code and a size that can be read, a directory and
    declarations without line breaks, and no mark in any of them. *)
Record sayable (code : Z) (cwd : string) (env : list string) (out : string) : Prop := {
  sy_code : readable_number code;
  sy_size : readable_number (Z.of_nat (String.length out));
  sy_cwd : line_of cwd ∧ unmarked cwd = true ∧ py_strip cwd = cwd ∧ cwd ≠ "";
  sy_env : Forall line_of env ∧ Forall (λ s, unmarked s = true) env;
  sy_out : unmarked out = true;
}.

End sessions.

(** ** Runs *)

Module Examples.
Definition no_name (n : Z) : option string := None.
Definition shown (j : json) : string :=
  match j with
  | JObj d => match get_or_null d "output", get_or_null d "hint", get_or_null d "exit_code_meaning" with
              | JStr o, JStr h, _ => o +:+ " | " +:+ h
              | JStr o, _, JStr n => o +:+ " | " +:+ n
              | JStr o, _, _ => o
              | _, _, _ => ""
              end
  | _ => ""
  end.
Definition as_it_is (path : string) : string := path.
Definition run_ (command said : string) (ss : AgentDispatch.session) : AgentDispatch.session * (string * option Z * bool) :=
  terminal_from_outcome no_name shown as_it_is command (mk_outcome "ok" said (Some 0) "") ss "/w" 180 None.

Definition declared : list string := ["declare -x HOME=/h"; "declare -x PWD=/w/src"; "declare -x X=1"].

Example the_next_command_begins_there :
  run_ "cd src && export X=1" (printed 0 "/w/src" declared "") fresh_session
  = (mk_session (Some "/w/src") (joined ["declare -x HOME=/h"; "declare -x X=1"]) (Some "/w/src"), ("", Some 0, false)).
Proof. vm_compute. reflexivity. Qed.

Example a_search_that_finds_nothing_is_no_error :
  (run_ "cd src; /usr/bin/grep -r foo ." (printed 1 "/w/src" declared "") fresh_session).2.1.1 = " | No matches found (not an error)".
Proof. vm_compute. reflexivity. Qed.

Example a_piped_failure_is_seen :
  annotate_masked_success "make 2>&1 | tail -5" (joined ["cc -c a.c"; "make: *** [a.o] Error 1"]) ≠ None.
Proof. vm_compute. discriminate. Qed.

(** A command that was killed at once, as for want of memory, is reported as
    one that ran out of time, and its directory is lost. *)
Example a_killed_command_is_reported_late :
  run_ "cd src; ./big" (printed 137 "/w/src" declared "Killed") fresh_session
  = (fresh_session, (joined ["Killed"; TIMED_OUT 180] +:+ " | Exit 124: the command hit its timeout. Raise timeout= (foreground max 600s) or run it with background=true and notify_on_complete=true.",
       Some 124, true)).
Proof. vm_compute. reflexivity. Qed.

(** An output that holds the mark is taken for one that was cut. *)
Example an_output_may_hold_the_mark :
  (run_ "cat log" (printed 0 "/w" [] ("a" +:+ MARK +:+ "b")) fresh_session).2.1.1
  = joined ["a"; ""; "... [OUTPUT TRUNCATED - 15 chars omitted out of 17 total] ..."; ""; "b"].
Proof. vm_compute. reflexivity. Qed.

Example colours_are_removed : strip_ansi (String "027" "[31mred" +:+ String "027" "[0m") = "red".
Proof. vm_compute. reflexivity. Qed.

End Examples.
