(* ===== verification/SearchTool.v ===== *)
(** * The search tool and the workspace block: [client/agent/tools.py]

    One search, as a run of ripgrep whose output is read; what is said of a
    search that found nothing; and the state of the repository that opens a
    session.  Ripgrep, git and the directory of a path are parameters. *)

From Stdlib Require Import Ascii.
From S2P Require Import Prelude Texts Values Shell Regex FuzzyMatch FuzzyMatchProps FileTools.

#[local] Open Scope Z_scope.
Open Scope py_scope.

Definition SEARCH_DEFAULT_LIMIT : Z := 50.
Definition SEARCH_TIMEOUT : Z := 60.

(** [line.rpartition(":")]: what is before the last colon, what is after. *)
Definition rpartition (s : string) : string * string := default ("", s) (split_last ":"%char s).

(** [_head]: the first lines that are not empty. *)
Definition first_lines (text : string) (n : nat) : string := joined (take n (List.filter str_true (text_lines text))).

(** A run of ripgrep: its output, its code, and why it was stopped. *)
Record rg_run := mk_rg { rg_out : string; rg_code : Z; rg_reason : option string }.

Record search_match := mk_match { sm_path : string; sm_line : Z; sm_content : string }.

Definition MATCH_RE : regex := pattern plain "^([A-Za-z]:)?(.*?):(\d+):(.*)$".
Definition CONTEXT_RE : regex := pattern plain "^([A-Za-z]:)?(.*?)-(\d+)-(.*)$".
Definition METACHARACTERS : regex := pattern plain "[.\[\](){}?*+^$\\|]".
Definition WRITTEN_NEWLINE : regex := pattern plain "(?<!\\)(?:\\\\)*\\n".

Definition read_match (m : found) : search_match :=
  let part n := default "" (group n m) in
  mk_match (part 1%nat +:+ part 2%nat) (default 0 (int_of_str (part 3%nat))) (upto 500 (part 4%nat)).

(** ** What the model is given *)

Fixpoint grouped_rows (current : option string) (l : list search_match) : list string :=
  match l with
  | [] => []
  | m :: l =>
      (if bool_decide (current = Some m.(sm_path)) then [] else [m.(sm_path)])
      ++ ("  " +:+ pretty m.(sm_line) +:+ ": " +:+ py_rstrip m.(sm_content)) :: grouped_rows (Some m.(sm_path)) l
  end.

Definition GROUPED_NOTE : string :=
  "path-grouped: each file path on its own line, followed by indented '<line>: <content>' rows for matches in that file".

Definition optional (key : string) (value : option string) : dict string json :=
  match value with Some v => if str_true v then [(key, JStr v)] else [] | None => [] end.

Record found_things := mk_found_things {
  ft_total : Z; ft_matches : list search_match; ft_files : list string; ft_counts : dict string Z;
  ft_truncated : bool; ft_reason : option string; ft_warning : option string; ft_error : option string;
}.
#[export] Instance found_things_eta : Eta found_things :=
  λ f, mk_found_things f.(ft_total) f.(ft_matches) f.(ft_files) f.(ft_counts) f.(ft_truncated) f.(ft_reason) f.(ft_warning) f.(ft_error).
Definition nothing_found (total : Z) : found_things := mk_found_things total [] [] [] false None None None.

Definition match_fields (l : list search_match) : dict string json :=
  match l with
  | [] => []
  | _ => if (5 <=? length l)%nat then [("matches_format", JStr GROUPED_NOTE); ("matches_text", JStr (joined (grouped_rows None l)))]
         else [("matches", JList ((λ m, JObj [("path", JStr m.(sm_path)); ("line", JInt m.(sm_line)); ("content", JStr m.(sm_content))]) <$> l))]
  end.

(** [_search_dict] *)
Definition search_dict (f : found_things) : dict string json :=
  [("total_count", JInt f.(ft_total))] ++ match_fields f.(ft_matches)
  ++ match f.(ft_files) with [] => [] | l => [("files", JList (JStr <$> l))] end
  ++ match f.(ft_counts) with [] => [] | l => [("counts", JObj ((λ e, (e.1, JInt e.2)) <$> l))] end
  ++ (if f.(ft_truncated) then [("truncated", JBool true)] else [])
  ++ optional "limit_reason" f.(ft_reason) ++ optional "warning" f.(ft_warning) ++ optional "error" f.(ft_error).

(** ** One search *)

Section search.
  Context {W : Type} `{Files W}.
  (** ripgrep with its arguments, in a directory, within a time; the entries
      of a directory, sorted. *)
  Context (rg : list string → string → Z → W → rg_run) (listdir : string → W → list string).
  Context (truncated : string → option Z) (dumps : json → string).

(** The matches that are counted, and the files that are named. *)
Definition tally (stdout : string) : Z * list string :=
  let rows := omap (λ line, let '(p, n) := rpartition line in if isdigit n then k ← int_of_str n; Some (k, p) else None)
                (splitlines (py_strip stdout)) in
  (foldl Z.add 0 rows.*1, rows.*2).

Definition paths_note (per_file : list string) : string :=
  let extra := (length per_file - 5)%nat in
  String.concat ", " (take 5 per_file) +:+ (if (0 <? extra)%nat then " (+" +:+ pretty extra +:+ " more)" else "").

Definition glob_args (file_glob : string) : list string := if str_true file_glob then ["--glob"; file_glob] else [].

(** Another way of asking that finds something. *)
Definition zero_match_probe (search_text path_arg file_glob cwd : string) (w : W) : option string :=
  let probe flags rest := tally (first_lines (rg (flags ++ ["--count-matches"] ++ glob_args file_glob ++ rest ++ [search_text; "--"; path_arg]) cwd 30 w).(rg_out) 50) in
  let '(total, paths) := probe ["-i"] ["-e"] in
  if 0 <? total then
    Some ("0 exact matches, but " +:+ pretty total +:+ " case-insensitive match(es) in " +:+ pretty (length paths) +:+ " file(s): " +:+ paths_note paths
          +:+ " -- the pattern's casing may be wrong.")
  else
  let '(total, paths) := probe ["--hidden"; "--no-ignore"] ["-e"] in
  if 0 <? total then
    Some ("0 matches in visible files, but " +:+ pretty total +:+ " match(es) in " +:+ pretty (length paths) +:+ " hidden or gitignored file(s): "
          +:+ paths_note paths +:+ " -- these are excluded by default.")
  else if searches METACHARACTERS search_text then
    let '(total, paths) := probe ["-F"] ["-e"] in
    if 0 <? total then
      Some ("0 regex matches, but " +:+ pretty total +:+ " literal match(es) in " +:+ pretty (length paths) +:+ " file(s): " +:+ paths_note paths
            +:+ " -- the pattern contains regex metacharacters that likely need escaping (or pass a simpler substring).")
    else None
  else None.

(** A path that is not there, and the names beside it that resemble it. *)
Definition path_not_found (path_arg resolved : string) (w : W) : found_things :=
  let parent := str_or (dirname path_arg) "." in
  let query := py_lower (base_of path_arg) in
  let beside := if bool_decide (kind_of (dirname resolved) w = Directory) && str_true (base_of path_arg) then
                  omap (λ entry, let e := py_lower entry in
                                 if contains query e || contains e query || String.prefix (upto 3 query) e then Some (path_join parent entry) else None)
                    (take 20 (listdir (dirname resolved) w))
                else [] in
  (nothing_found 0) <| ft_error := Some (String.concat ". "
    (["Path not found: " +:+ path_arg] ++ match beside with [] => [] | l => ["Similar paths: " +:+ String.concat ", " (take 5 l)] end)) |>.

Definition window_of {A} (offset limit : Z) (l : list A) : list A := take (Z.to_nat limit) (skipn (Z.to_nat offset) l).
Definition named_lines (text : string) : list string := List.filter str_true (text_lines text).

Definition search_names (search_text path_arg cwd : string) (limit offset : Z) (w : W) : found_things :=
  let glob := if contains "/" search_text || String.prefix "*" search_text then search_text else "*" +:+ search_text in
  let fetch := Z.to_nat (limit + offset) in
  let sorted := rg ["--files"; "--sortr=modified"; "-g"; glob; "--"; path_arg] cwd SEARCH_TIMEOUT w in
  let names := named_lines (first_lines sorted.(rg_out) fetch) in
  let '(names, reason) := match names, sorted.(rg_reason) with
                          | [], None => let r := rg ["--files"; "-g"; glob; "--"; path_arg] cwd SEARCH_TIMEOUT w in
                                        (named_lines (first_lines r.(rg_out) fetch), r.(rg_reason))
                          | _, reason => (names, reason)
                          end in
  (nothing_found (Z.of_nat (length names))) <| ft_files := window_of offset limit names |>
    <| ft_truncated := (fetch <=? length names)%nat || bool_decide (is_Some reason) |> <| ft_reason := reason |>.

Definition MULTILINE_NOTE : string :=
  "Pattern contains \n -- multiline mode (-U) was enabled automatically so the regex can match across line boundaries.".

Definition is_multiline (search_text : string) : bool := contains (String Shell.newline "") search_text || searches WRITTEN_NEWLINE search_text.

(** The rows of a count; where a number is none it raises, which is not
    followed. *)
Definition counts_of (out : string) : dict string Z :=
  foldl (λ d line, let '(p, n) := rpartition line in
                   if str_true p && isdigit n then match int_of_str n with Some k => dict_set p k d | None => d end else d) [] (text_lines out).

Definition matches_of (context : Z) (out : string) : list search_match :=
  omap (λ line, if negb (str_true line) || String.eqb line "--" then None else
                match match_ MATCH_RE line with
                | Some m => Some (read_match m)
                | None => if 0 <? context then read_match <$> match_ CONTEXT_RE line else None
                end) (text_lines out).

Definition search_contents (search_text path_arg cwd file_glob output_mode : string) (limit offset context : Z) (w : W) : found_things :=
  let multiline := is_multiline search_text in
  let args := ["--line-number"; "--no-heading"; "--with-filename"] ++ (if multiline then ["--multiline"] else [])
              ++ (if 0 <? context then ["-C"; pretty context] else []) ++ glob_args file_glob
              ++ (if String.eqb output_mode "files_only" then ["-l"] else if String.eqb output_mode "count" then ["-c"] else [])
              ++ ["-e"; search_text; "--"; path_arg] in
  let r := rg args cwd SEARCH_TIMEOUT w in
  let fetch := if 0 <? context then limit + offset + 200 else limit + offset in
  let out := first_lines r.(rg_out) (Z.to_nat fetch) in
  let stopped := bool_decide (is_Some r.(rg_reason)) in
  let note := if multiline then Some MULTILINE_NOTE else None in
  if (r.(rg_code) =? 2) && negb (bool_decide (is_Some (match_ MATCH_RE (hd "" (text_lines out))))) then
    (nothing_found 0) <| ft_error := Some ("Search failed: " +:+ str_or (py_strip out) "Search error") |>
  else if String.eqb output_mode "files_only" then
    let files := named_lines out in
    (nothing_found (Z.of_nat (length files))) <| ft_files := window_of offset limit files |> <| ft_truncated := stopped |>
      <| ft_reason := r.(rg_reason) |> <| ft_warning := note |>
  else if String.eqb output_mode "count" then
    let counts := counts_of out in
    (nothing_found (foldl Z.add 0 counts.*2)) <| ft_counts := counts |> <| ft_truncated := stopped |> <| ft_reason := r.(rg_reason) |>
  else
    let matches := matches_of context out in
    let total := Z.of_nat (length matches) in
    (nothing_found total) <| ft_matches := window_of offset limit matches |> <| ft_truncated := (offset + limit <? total) || stopped |>
      <| ft_reason := r.(rg_reason) |> <| ft_warning := note |>.

Definition found_nothing (f : found_things) : bool :=
  negb (bool_decide (is_Some f.(ft_error))) && (f.(ft_total) =? 0) && bool_decide (f.(ft_matches) = []) && bool_decide (f.(ft_files) = [])
  && bool_decide (f.(ft_counts) = []).

Definition with_probe (f : found_things) (hint : option string) : found_things :=
  match hint with
  | Some hint => f <| ft_warning := Some (match f.(ft_warning) with Some why => why +:+ " " +:+ hint | None => hint end) |>
  | None => f
  end.

(** Where the path is there. *)
Definition search_there (search_text target path_arg cwd file_glob output_mode : string) (limit offset context : Z) (w : W) : found_things :=
  if String.eqb target "files" then search_names search_text path_arg cwd limit offset w else
  let f := search_contents search_text path_arg cwd file_glob output_mode limit offset context w in
  if found_nothing f then with_probe f (zero_match_probe search_text path_arg file_glob cwd w) else f.

Definition target_of (target : string) : string :=
  if String.eqb target "grep" then "content" else if String.eqb target "find" then "files" else if str_true target then target else "content".

Definition search (cwd path_arg resolved search_text target_ file_glob : string) (limit_ offset_ : json) (output_mode : string) (context_ : json)
    (w : W) (m : memory) : memory * string :=
  let offset := Z.max 0 (coerce_int truncated offset_ 0) in
  let limit := Z.max 1 (coerce_int truncated limit_ SEARCH_DEFAULT_LIMIT) in
  let context := Z.max 0 (coerce_int truncated context_ 0) in
  let target := target_of target_ in
  let m := count_call (SearchKey search_text target path_arg file_glob limit offset) m in
  let count := m.(consecutive) in
  if 4 <=? count then
    (m, tool_error dumps ("BLOCKED: You have run this exact search " +:+ pretty count
          +:+ " times in a row. The results have NOT changed. You already have this information. STOP re-searching and proceed with your task.")
          [("pattern", JStr search_text); ("already_searched", JInt count)])
  else
  let f := if negb (exists_ resolved w) then path_not_found path_arg resolved w
           else search_there search_text target path_arg cwd file_glob output_mode limit offset context w in
  let result := search_dict f
    ++ (if 3 <=? count then [("_warning", JStr ("You have run this exact search " +:+ pretty count
          +:+ " times consecutively. The results have not changed. Use the information you already have."))] else []) in
  (m, dumps (JObj result)
      +:+ (if f.(ft_truncated) then
             joined [""; ""; "[Hint: Results truncated. Use offset=" +:+ pretty (offset + limit)
                             +:+ " to see more, or narrow with a more specific pattern or file_glob.]"]
           else "")).
End search.

(** ** The state of the repository *)

Record branch_state := mk_branch { br_head : string; br_upstream : string; br_ahead : string; br_behind : string }.
#[export] Instance branch_state_eta : Eta branch_state := λ b, mk_branch b.(br_head) b.(br_upstream) b.(br_ahead) b.(br_behind).
Record change_counts := mk_counts { cc_staged : nat; cc_modified : nat; cc_untracked : nat; cc_conflicts : nat }.
#[export] Instance change_counts_eta : Eta change_counts := λ c, mk_counts c.(cc_staged) c.(cc_modified) c.(cc_untracked) c.(cc_conflicts).

(** [line.split(maxsplit=2)[-1]]: what follows two words, or the last word. *)
Definition after_two_words (line : string) : string :=
  let word s := span (λ c, negb (py_isspace c)) (py_lstrip s) in
  let '(first, rest1) := word line in
  let '(second, rest2) := word rest1 in
  if str_true (py_lstrip rest2) then py_lstrip rest2 else if str_true second then second else first.

Definition second_word (line : string) : string := nth 1 (words line) "".
Definition changed_at (n : nat) (xy : string) : bool := match String.get n xy with Some c => negb (Ascii.eqb c ".") | None => false end.

(** One line of [git status --porcelain=2 --branch]; a line without the words
    it should have is not followed. *)
Definition status_line (st : branch_state * change_counts) (line : string) : branch_state * change_counts :=
  let '(b, c) := st in
  if String.prefix "# branch.head" line then (b <| br_head := after_two_words line |>, c)
  else if String.prefix "# branch.upstream" line then (b <| br_upstream := after_two_words line |>, c)
  else if String.prefix "# branch.ab" line then
    (b <| br_ahead := lstrip_chars "+" (nth 2 (words line) "") |> <| br_behind := lstrip_chars "-" (nth 3 (words line) "") |>, c)
  else if String.prefix "1 " line || String.prefix "2 " line then
    let xy := second_word line in
    (b, c <| cc_staged := (c.(cc_staged) + if changed_at 0 xy then 1 else 0)%nat |> <| cc_modified := (c.(cc_modified) + if changed_at 1 xy then 1 else 0)%nat |>)
  else if String.prefix "u " line then (b, c <| cc_conflicts := S c.(cc_conflicts) |>)
  else if String.prefix "? " line then (b, c <| cc_untracked := S c.(cc_untracked) |>)
  else st.

Definition parse_status (porcelain : string) : branch_state * change_counts :=
  foldl status_line (mk_branch "" "" "0" "0", mk_counts 0 0 0 0) (splitlines porcelain).

Definition branch_line (b : branch_state) : list string :=
  if String.eqb b.(br_head) "(detached)" then ["- Branch: (detached HEAD)"]
  else if str_true b.(br_head) then
    ["- Branch: " +:+ b.(br_head)
     +:+ (if str_true b.(br_upstream) then
            " -> " +:+ b.(br_upstream)
            +:+ (if negb (String.eqb b.(br_ahead) "0") || negb (String.eqb b.(br_behind) "0")
                 then " (ahead " +:+ b.(br_ahead) +:+ ", behind " +:+ b.(br_behind) +:+ ")" else "")
          else "")]
  else [].

(** [git] in a directory: what it prints, nothing where it fails. *)
Definition workspace_block (git : string → list string → string) (realpath : string → string) (cwd : string) : string :=
  let root := git cwd ["rev-parse"; "--show-toplevel"] in
  if negb (str_true root) then "" else
  let '(b, c) := parse_status (git root ["status"; "--porcelain=2"; "--branch"]) in
  let git_dir := git root ["rev-parse"; "--git-dir"] in
  let common_dir := git root ["rev-parse"; "--git-common-dir"] in
  let linked := str_true git_dir && str_true common_dir && negb (String.eqb (realpath (path_join root git_dir)) (realpath (path_join root common_dir))) in
  let dirty := omap (λ e, if (0 <? e.1)%nat then Some (pretty e.1 +:+ " " +:+ e.2) else None)
                 [(c.(cc_staged), "staged"); (c.(cc_modified), "modified"); (c.(cc_untracked), "untracked"); (c.(cc_conflicts), "conflicts")] in
  let recent := git root ["log"; "-3"; "--pretty=%h %s"] in
  joined (["Workspace (snapshot at session start -- re-check with `git` before acting on it):"; "- Root: " +:+ root] ++ branch_line b
    ++ (if linked then ["- Worktree: linked (git state shared with primary tree)"] else [])
    ++ ["- Status: " +:+ match dirty with [] => "clean" | l => String.concat ", " l end]
    ++ (if str_true recent then "- Recent commits:" :: ((λ c, "    " +:+ c) <$> splitlines recent) else [])).

(** ** What a search may show *)

Section bounds.
  Context {W : Type} `{Files W}.
  Context (rg : list string → string → Z → W → rg_run) (listdir : string → W → list string).
  Context (truncated : string → option Z) (dumps : json → string).

Lemma window_bound {A} offset limit (l : list A) : (length (window_of offset limit l) <= Z.to_nat limit)%nat.
Proof. unfold window_of. rewrite length_take. lia. Qed.

(** A search names at most as many matches and files as were asked for. *)
Theorem a_search_shows_at_most_its_limit search_text target path_arg cwd file_glob output_mode limit offset context w :
  let f := search_there rg search_text target path_arg cwd file_glob output_mode limit offset context w in
  (length f.(ft_matches) <= Z.to_nat limit)%nat ∧ (length f.(ft_files) <= Z.to_nat limit)%nat.
Proof.
  assert (∀ n, (length (nothing_found n).(ft_matches) <= Z.to_nat limit)%nat ∧ (length (nothing_found n).(ft_files) <= Z.to_nat limit)%nat) as H0 by (intros n; cbn; lia).
  assert (∀ g hint, (length (ft_matches g) <= Z.to_nat limit)%nat ∧ (length (ft_files g) <= Z.to_nat limit)%nat →
    (length (ft_matches (with_probe g hint)) <= Z.to_nat limit)%nat ∧ (length (ft_files (with_probe g hint)) <= Z.to_nat limit)%nat) as Hp by by intros g [hint|].
  unfold search_there. destruct (String.eqb target "files").
  - unfold search_names. cbv zeta. destruct (match _ with [] => _ | _ => _ end) as [names reason]. cbn. split; [lia|]. apply window_bound.
  - cbv zeta. assert (∀ g, g = search_contents rg search_text path_arg cwd file_glob output_mode limit offset context w →
      (length (ft_matches g) <= Z.to_nat limit)%nat ∧ (length (ft_files g) <= Z.to_nat limit)%nat) as Hs.
    { intros g ->. unfold search_contents. cbv zeta. destruct (_ && _); [apply H0|]. destruct (String.eqb output_mode "files_only"); [cbn; split; [lia|apply window_bound]|].
      destruct (String.eqb output_mode "count"); [apply H0|]. cbn. split; [apply window_bound|lia]. }
    destruct (found_nothing _); [by apply Hp, Hs|by apply Hs].
Qed.

(** The same search asked for four times in a row is refused whatever is in
    the files; another one is not, and nothing but the count is remembered. *)
Theorem a_search_is_counted cwd path_arg resolved search_text target file_glob limit offset output_mode context w m :
  let m' := (search rg listdir truncated dumps cwd path_arg resolved search_text target file_glob limit offset output_mode context w m).1 in
  let key := SearchKey search_text (target_of target) path_arg file_glob (Z.max 1 (coerce_int truncated limit SEARCH_DEFAULT_LIMIT)) (Z.max 0 (coerce_int truncated offset 0)) in
  m' = m <| last_key := Some key |> <| consecutive := if bool_decide (m.(last_key) = Some key) then m.(consecutive) + 1 else 1 |> ∧
  (4 <= m'.(consecutive) → ∀ w2, (search rg listdir truncated dumps cwd path_arg resolved search_text target file_glob limit offset output_mode context w2 m).2
    = (search rg listdir truncated dumps cwd path_arg resolved search_text target file_glob limit offset output_mode context w m).2).
Proof.
  intros m' key. unfold m', search. cbv zeta. fold key. set (m1 := count_call key m).
  assert (m1 = m <| last_key := Some key |> <| consecutive := if bool_decide (m.(last_key) = Some key) then m.(consecutive) + 1 else 1 |>) as Hm1.
  { unfold m1, count_call. case_bool_decide as Hk; [|done]. destruct m. cbn in *. by rewrite Hk. }
  destruct (Z.leb_spec 4 (consecutive m1)) as [H4|H4]; cbn [fst]; (split; [exact Hm1|]); [done|lia].
Qed.
End bounds.

(** ** Runs *)

Module Examples.
Definition tree : Type := unit.
#[export] Instance a_tree : Files tree := { kind_of p _ := Regular; getmtime p _ := None; bytes_of p _ := ""; ls_output _ _ _ := "" }.
Definition five_rows (args : list string) (cwd : string) (timeout : Z) (w : tree) : rg_run :=
  mk_rg (joined ["a.c:3:int f(void);"; "a.c:9:  f();"; "b.c:1:int f(void)  "; "b.c:2:{"; "b.c:7:}"]) 0 None.
Definition show (j : json) : string :=
  match j with JObj d => match get_or_null d "error", get_or_null d "matches_text" with JStr e, _ => e | _, JStr t => t | _, _ => "" end | _ => "" end.
Definition find_f (mode : string) (m : memory) : memory * string :=
  search five_rows (λ _ _, []) (λ _, None) show "/w" "." "/w" "f" "content" "" (JInt 50) (JInt 0) mode (JInt 0) tt m.

Example matches_are_grouped :
  (find_f "content" new_state).2 = joined ["a.c"; "  3: int f(void);"; "  9:   f();"; "b.c"; "  1: int f(void)"; "  2: {"; "  7: }"].
Proof. vm_compute. reflexivity. Qed.

(** Searches that differ in what they ask for are taken for the same one. *)
Example another_mode_is_the_same_search :
  let '(m, _) := find_f "count" new_state in let '(m, _) := find_f "files_only" m in let '(m, _) := find_f "count" m in
  (find_f "content" m).2
  = "BLOCKED: You have run this exact search 4 times in a row. The results have NOT changed. You already have this information. STOP re-searching and proceed with your task.".
Proof. vm_compute. reflexivity. Qed.

Example a_status_is_read :
  parse_status (joined ["# branch.head main"; "# branch.upstream origin/main"; "# branch.ab +2 -1"; "1 M. N... a.c"; "1 .M N... b.c"; "? c.c"])
  = (mk_branch "main" "origin/main" "2" "1", mk_counts 1 1 1 0).
Proof. vm_compute. reflexivity. Qed.
End Examples.
